(* ===== verification/_CoqProject ===== *)
-Q . S2P
Prelude.v
PyStr.v
Json.v
SemVer.v
Versioning.v
VersioningStore.v
VersioningProps.v
Flags.v
FlagControl.v
FlagReconciler.v
PyPath.v
Yaml.v
Rbac.v
RbacSweep.v
AuditTrail.v
AuditProps.v
Base64.v
AuthToken.v
AuthService.v
AuthProps.v
Readiness.v
Drills.v
DrillProps.v
Secrets.v
SecretsCli.v
SecretsProps.v
Migrations.v
MigrationsPostgres.v
MigrationsProps.v
MigrationsCreate.v
MigrationsClickHouse.v
MigrationsClickHouseProps.v
PyUrl.v
Backup.v
BackupStore.v
BackupLaws.v
BackupStorage.v
BackupService.v
BackupProps.v
BackupVault.v
BackupSample.v
RedisLock.v
Compose.v
PolicyReport.v
ContainerPolicy.v
ContainerProps.v
RepoScanner.v
RepoProps.v
ConfigValidation.v
ConfigStore.v
ConfigProps.v
EnvConfig.v
EnvProps.v
Regex.v
EventBus.v
EventStore.v
EventProps.v
StartUp.v
Tracing.v
TracingCore.v
Logging.v
LoggingCore.v
Health.v
ServiceRegistry.v
ServiceFramework.v
Metrics.v
ObjectStorage.v
Http.v
AuthApp.v
ApiFramework.v
VersioningApp.v
TestSupport.v
SecretScan.v
AuditApp.v
DrMemory.v
DrApp.v
BackupApp.v
MigrationsCli.v
Launch.v
ConfigApp.v
