(* ===== verification/Prelude.v ===== *)
(** Verification of the platform services of ApexQuant (src/python).

    The repository holds independent Python packages around a trading platform.
    This library models the ones that carry decisions: which version of a
    service may be used, which flag is on, who may do what, what was done, which
    secret may be read, which migration runs, whether a backup can be restored
    and a plan of recovery is ready, which configuration and which container may
    be deployed.  The packages share a database server and conventions but call
    each other through HTTP only, so each part below is a unit of its own over the
    common layer.  Definitions keep the names of the sources.

    Common layer
    - Prelude: results of fallible code, the state-and-exception monad [st] (an
      exception keeps the changes made before it), Python dicts as association
      lists in insertion order, stable sorting, comparisons with their laws,
      tables as lists of rows, programs that stay within a relation.
    - PyStr, Json, Base64: strings of ASCII characters, the json module,
      binascii, each with its round trip.
    - PyPath, PyUrl: pathlib over a store of files and directories (paths are
      lexical: no symbolic links), urllib.parse.

    Parts
    - Semantic versions and service versioning (apexquant-service-versioning):
      SemVer is semver.py; Versioning is service.py over the class
      [VersionRepository]; VersioningStore is repository.py, its in-memory and
      its PostgreSQL class as instances with the laws; VersioningProps proves
      the service a refinement of an abstract machine, hence the two stores
      equivalent, up to what JSONB keeps and the order of dependencies, for every
      sequence of writing calls whose arguments the columns take, and the life
      cycle of a version.  An actor of blanks is not such an argument:
      VersioningApp shows what PostgreSQL is left with.
    - Feature flags (apexquant-flags, apexquant-feature-flags): Flags is the
      evaluator and the provider, FlagControl the control service over
      [FlagBackend], FlagReconciler the sweep over [SweepBackend], whose
      calls may fail, rows resist json.dumps and cached texts be anything.
    - Authorization and authentication (apexquant-auth): Rbac and RbacSweep are
      the permission rules, the file they are read from, the grant-time checks and the reconciliation sweep;
      AuthToken, AuthService and AuthProps are tokens, API keys and the service.
    - Audit trail (apexquant-audit): AuditTrail is the hash chain, redaction,
      the store and the relay; AuditProps says that a log that verifies is the
      log that was written.
    - Disaster recovery (apexquant-disaster-recovery): Readiness is the scoring
      of a plan, Drills the drill engine and the plans, DrillProps their
      outcomes: [complete_drill] is a drill up to the event that ends it, which
      run_drill hands over as a dict where the repositories read an object.
    - Secrets (apexquant-secrets): Secrets is the policy, the encrypted document
      and the store, SecretsCli the audit log, the tables and the commands,
      SecretsProps what is granted, kept, read back and revealed.
    - Schema migrations (apexquant-migrations): Migrations is discovery and
      planning, MigrationsPostgres and MigrationsClickHouse the two migrators,
      the first also as sessions that interleave, and with the transaction that
      a failed file leaves aborted; MigrationsProps,
      MigrationsCreate and MigrationsClickHouseProps what a run applies, where
      the next one resumes and what concurrent runs keep.
    - Backup and recovery (apexquant-backup-recovery): Backup is the models, the
      redaction and the commands; BackupStore the two repositories and
      BackupLaws the laws they share; BackupStorage the directory and the S3
      storage; BackupService the service over the classes of both; BackupProps
      the outcome of each operation, BackupVault what stays restorable under all
      sequences of requests, BackupSample the instances.  Identifiers are
      numbers with a text, dealt in order by the store.
    - Locks (apexquant-redis): RedisLock is lock.py over the class [Redis] of
      the server's commands and its laws; clients interleave as lists of actions
      while time passes and replies are lost.
    - Verifiers of the repository (apexquant-container-policy,
      apexquant-repo-architecture): Yaml has the values YAML and TOML files
      hold, PolicyReport the verdict and the tables both share; Compose reads a
      compose file, ContainerPolicy checks it, ContainerProps says which files
      pass; RepoScanner is scanner.py, RepoProps says which trees pass.
    - Configuration documents (apexquant-config-validation): ConfigValidation is
      the canonical form, the scan for secrets and the validator, ConfigStore
      the registry and the endpoint, ConfigApp the service around it and
      the commands; ConfigProps what a hash identifies, which secrets are found
      and what the registry holds.
    - Environment configuration (apexquant-env-config): EnvConfig reads and
      checks the settings of an environment, keeps the results in a table and
      has the commands, EnvProps what is required, when a verdict is success and
      what a command records.  No migration creates the table, so the database
      is the history of the committed statements.
    - Event bus (apexquant-event-bus): Regex matches patterns by derivatives;
      EventBus is the envelope, the producer and the consumer over a class of
      brokers, EventStore the tables with the outbox, EventProps which types are
      recognised, the order a consumer commits in and what the outbox sends.

    - Health and registration (apexquant-health, apexquant-service-framework):
      Health is the checks of a service, ServiceRegistry the table of running
      services, ServiceFramework the governed descriptor,
      the registration client and the readiness of a service.
    - Observability (apexquant-tracing, apexquant-logging, apexquant-metrics):
      Tracing has the digits of identifiers, the traceparent header, the
      middleware and the redaction of attributes, TracingCore the service;
      Logging is the formatter and its redaction, LoggingCore the service, its
      sinks and what they receive; Metrics the registry that limits names and
      labels.
    - Object storage (apexquant-s3): ObjectStorage makes and checks the buckets
      over a class of S3 operations.
    - HTTP services: Http has the responses and counters they share.  AuthApp,
      VersioningApp, AuditApp (with the Kafka publisher), ApiFramework, DrApp,
      BackupApp and ConfigApp are app.py of their packages: a call is a request
      as the router decoded it, [handle] gives the answer with its status code
      and the state left.
    - Start and commands: StartUp applies a directory of SQL files, Launch reads
      addresses and builds the services; MigrationsCli and the
      commands in DrApp, BackupApp and ConfigApp are cli.py after argparse,
      SecretScan the scanner of environment files; DrMemory is the in-memory repository of
      disaster recovery, whose objects are shared with its callers.
    - Test support (apexquant-testing): TestSupport runs the suites, reads their
      reports and keeps them, with the fakes and the failure injection.

    Kinds of theorems.  A component's operations are characterised on every
    branch, errors included; its state has an invariant that every operation
    keeps, over all sequences of calls; where a contract exists (versioning,
    the flag backend, the migrator's sessions) the code refines it.  Loops are
    structural recursions, so every operation terminates; where a machine is
    run with fuel (JSON scanning, sessions of the migrator) a theorem gives an
    amount that is enough.

    Parameters.  Hash functions, ciphers, password hashing, pydantic's
    validation, the parsers of YAML, TOML and XML, the JSON Schema validator,
    floating-point rounding, the clock, random identifiers, what a JSONB column
    keeps of a document, the effect of a
    migration or of a script, the answers of ClickHouse, of a registration
    server and of a Kafka broker, the commands run as subprocesses, the client
    of S3, what OpenTelemetry makes of a span and the text of Prometheus metrics
    are arguments of the definitions, with what is assumed of them as hypotheses
    of the theorems that need it: collision freedom is never assumed but appears
    as an alternative of the conclusion; rounding is monotone and exact on small
    integers; a cipher decrypts what it encrypted.  Every theorem with hypotheses
    has an instance in which they hold.  Integers are unbounded in Python and
    [Z] here; columns of fixed width are checked where a value is written to
    them.

    Databases.  A table is the list of its rows, a statement a function on it
    that keeps the constraints of the migration it was created by, or fails
    with the name of the constraint.  Transactions are those of the code.

    Not modelled, with the reason.  Parsing of arguments, reading of settings
    from the environment and running of uvicorn: calls of a library with no
    decision of the program in them.  Routing and decoding of requests: FastAPI's;
    the models' own checks are modelled.  Set-up of logging handlers and of the
    OpenTelemetry SDK, the Redis pool: calls of third-party objects.  Fixtures for
    pytest and strategies for Hypothesis: test code.  Packages that hold a stub
    only.  The Rust crates, the user interfaces in TypeScript and Dart, and the
    deployment files: other languages than the services'. *)
From stdpp Require Import base strings list gmap sorting pretty numbers.
From Stdlib Require Import Ascii.

(** ** Results of fallible code *)

Inductive result (E A : Type) : Type :=
| Ok (a : A)
| Err (e : E).
Arguments Ok {E A} a.
Arguments Err {E A} e.

#[export] Instance result_ret E : MRet (result E) := fun A a => Ok a.
#[export] Instance result_bind E : MBind (result E) := fun A B f m =>
  match m with Ok a => f a | Err e => Err e end.

Definition is_ok {E A} (r : result E A) : bool :=
  match r with Ok _ => true | Err _ => false end.

(** [try: m except: raise f e]: the error of [m], translated. *)
Definition map_err {E F A} (f : E -> F) (r : result E A) : result F A :=
  match r with Ok a => Ok a | Err e => Err (f e) end.

(** ** Stateful code that may raise

    A Python exception does not undo the mutations made before it, so the
    state is returned on the error branch too. *)
Definition st (S E A : Type) : Type := S -> result E A * S.

#[export] Instance st_ret S E : MRet (st S E) := fun A a s => (Ok a, s).
#[export] Instance st_bind S E : MBind (st S E) := fun A B f m s =>
  match m s with
  | (Ok a, s') => f a s'
  | (Err e, s') => (Err e, s')
  end.

Definition raise {S E A} (e : E) : st S E A := fun s => (Err e, s).
Definition lift {S E A} (r : result E A) : st S E A := fun s => (r, s).
Definition get_state {S E} : st S E S := fun s => (Ok s, s).
Definition put_state {S E} (s' : S) : st S E unit := fun _ => (Ok tt, s').

(** [if c: raise e] *)
Definition guard_raise {S E} (c : bool) (e : E) : st S E unit :=
  if c then raise e else mret tt.

(** [for x in l: f x] *)
Fixpoint for_each {S E A} (f : A -> st S E unit) (l : list A) : st S E unit :=
  match l with
  | [] => mret tt
  | x :: l' => f x ≫= fun _ => for_each f l'
  end.

(** [[f x for x in l]] where [f] may raise *)
Fixpoint map_st {S E A B} (f : A -> st S E B) (l : list A) : st S E (list B) :=
  match l with
  | [] => mret []
  | x :: l' => f x ≫= fun y => map_st f l' ≫= fun ys => mret (y :: ys)
  end.

Fixpoint map_result {E A B} (f : A -> result E B) (l : list A) : result E (list B) :=
  match l with
  | [] => Ok []
  | x :: l' => y ← f x; ys ← map_result f l'; Ok (y :: ys)
  end.

Fixpoint filter_result {E A} (f : A -> result E bool) (l : list A) : result E (list A) :=
  match l with
  | [] => Ok []
  | x :: l' => b ← f x; ys ← filter_result f l'; Ok (if (b : bool) then x :: ys else ys)
  end.

(** A transaction, as of [with psycopg.connect(...) as connection]: an exception
    rolls back. *)
Definition transaction {S E A} (m : st S E A) : st S E A := fun d =>
  match m d with (Ok a, d') => (Ok a, d') | (Err e, _) => (Err e, d) end.

Section StLaws.
Context {S E : Type}.

Lemma st_bind_ret {A B} (f : A -> st S E B) (a : A) s :
  ((mret a : st S E A) ≫= f) s = f a s.
Proof. done. Qed.

Lemma st_bind_get {A} (f : S -> st S E A) s : (get_state ≫= f) s = f s s.
Proof. done. Qed.

Lemma st_bind_lift {A B} (x : result E A) (f : A -> st S E B) s :
  (lift x ≫= f) s = match x with Ok a => f a s | Err e => (Err e, s) end.
Proof. by destruct x. Qed.

Lemma st_bind_ok {A B} (m : st S E A) (f : A -> st S E B) s a s' :
  m s = (Ok a, s') -> (m ≫= f) s = f a s'.
Proof. unfold mbind, st_bind. by intros ->. Qed.

Lemma st_bind_err {A B} (m : st S E A) (f : A -> st S E B) s e s' :
  m s = (Err e, s') -> (m ≫= f) s = (Err e, s').
Proof. unfold mbind, st_bind. by intros ->. Qed.

(** A guard either raises or is passed. *)
Lemma guard_raise_bind {A} (c : bool) e (f : unit -> st S E A) s :
  (guard_raise c e ≫= f) s = if c then (Err e, s) else f tt s.
Proof. by destruct c. Qed.

Lemma guard_decide_bind {A} P `{Decision P} e (f : unit -> st S E A) s :
  (guard_raise (bool_decide P) e ≫= f) s = if decide P then (Err e, s) else f tt s.
Proof. rewrite guard_raise_bind. by case_bool_decide; case_decide. Qed.

Lemma guard_unless_bind {A} P `{Decision P} e (f : unit -> st S E A) s :
  (guard_raise (negb (bool_decide P)) e ≫= f) s = if decide P then f tt s else (Err e, s).
Proof. rewrite guard_raise_bind. by case_bool_decide; case_decide. Qed.

Lemma st_bind_inv {A B} (m : st S E A) (f : A -> st S E B) s r s'' :
  (m ≫= f) s = (r, s'') ->
  (exists a s', m s = (Ok a, s') /\ f a s' = (r, s'')) \/
  (exists e, m s = (Err e, s'') /\ r = Err e).
Proof.
  unfold mbind, st_bind. destruct (m s) as [[a|e] s'] eqn:Hm; intros H.
  - left. eauto.
  - right. injection H as <- <-. eauto.
Qed.
End StLaws.

(** Running the first step of a program whose outcome is known, and taking a
    whole run apart. *)
Ltac run H := rewrite (st_bind_ok _ _ _ _ _ H).
Ltac run_err H := rewrite (st_bind_err _ _ _ _ _ H).
Tactic Notation "st_inv" hyp(H) "as" ident(x) ident(s) ident(Hx) :=
  apply st_bind_inv in H as [(x & s & Hx & H)|(x & Hx & H)];
  [|match type of H with ?r = _ => first [is_var r; subst r | injection H as H; subst | discriminate H] end].

(** ** Programs that stay within a relation between states *)
Section Within.
Context {S E : Type} (R : S -> S -> Prop) `{!PreOrder R}.

Definition st_within {A} (m : st S E A) : Prop := forall s r s', m s = (r, s') -> R s s'.

Lemma within_ret {A} (a : A) : st_within (mret a).
Proof. intros s r s' [= _ <-]. done. Qed.

Lemma within_raise {A} e : st_within (raise e : st S E A).
Proof. intros s r s' [= _ <-]. done. Qed.

Lemma within_lift {A} (x : result E A) : st_within (lift x).
Proof. intros s r s' [= _ <-]. done. Qed.

Lemma within_get : st_within get_state.
Proof. intros s r s' [= _ <-]. done. Qed.

Lemma within_bind {A B} (m : st S E A) (f : A -> st S E B) :
  st_within m -> (forall a, st_within (f a)) -> st_within (m ≫= f).
Proof.
  intros Hm Hf s r s' H. st_inv H as a s1 H1.
  - transitivity s1; [by eapply Hm|by eapply Hf].
  - by eapply Hm.
Qed.
End Within.

Create HintDb within.
#[export] Hint Resolve within_ret within_raise within_lift within_get within_bind : within.

Lemma map_result_ok {E A B} (f : A -> result E B) l r :
  map_result f l = Ok r <-> Forall2 (fun x y => f x = Ok y) l r.
Proof.
  revert r; induction l as [|x l IH]; intros r; simpl.
  - split; [intros [= <-]; constructor | inversion 1; done].
  - unfold mbind, result_bind. split.
    + destruct (f x) as [y|] eqn:Hx; [|done].
      destruct (map_result f l) as [ys|] eqn:Hl; [|done].
      intros [= <-]. constructor; [done|]. by apply IH.
    + inversion 1 as [|? y ? ys Hx Hl]; subst. rewrite Hx.
      apply IH in Hl. by rewrite Hl.
Qed.

Lemma filter_result_ok {E A} (f : A -> result E bool) l r :
  filter_result f l = Ok r ->
  forall x, x ∈ r <-> x ∈ l /\ f x = Ok true.
Proof.
  revert r; induction l as [|a l IH]; intros r; simpl.
  - intros [= <-] x. set_solver.
  - unfold mbind, result_bind.
    destruct (f a) as [b|] eqn:Ha; [|done].
    destruct (filter_result f l) as [ys|] eqn:Hl; [|done].
    intros [= <-] x. specialize (IH ys eq_refl x).
    destruct b; rewrite ?elem_of_cons; set_unfold;
      destruct IH as [IH1 IH2]; split; intros Hx;
      repeat match goal with H : _ /\ _ |- _ => destruct H end;
      destruct_or?; subst; naive_solver congruence.
Qed.

(** A loop none of whose steps raises returns. *)
Lemma filter_result_total {E A} (f : A -> result E bool) l :
  (forall x, x ∈ l -> exists b, f x = Ok b) -> exists r, filter_result f l = Ok r.
Proof.
  intros Hf. induction l as [|x l IH]; simpl; [eauto|].
  destruct (Hf x) as [b Hb]; [left|]. destruct IH as [k Hk]; [intros; apply Hf; by right|].
  unfold mbind, result_bind. rewrite Hb, Hk. eauto.
Qed.

Lemma map_result_total {E A B} (f : A -> result E B) l :
  (forall x, x ∈ l -> exists b, f x = Ok b) -> exists r, map_result f l = Ok r.
Proof.
  intros Hf. induction l as [|x l IH]; simpl; [eauto|].
  destruct (Hf x) as [b Hb]; [left|]. destruct IH as [k Hk]; [intros; apply Hf; by right|].
  unfold mbind, result_bind. rewrite Hb, Hk. eauto.
Qed.

Lemma NoDup_fmap_snoc {A B} (f : A -> B) l x :
  NoDup (f <$> l) -> f x ∉ f <$> l -> NoDup (f <$> (l ++ [x])).
Proof.
  intros Hl Hx. rewrite fmap_app. apply list.NoDup_app.
  split_and!; [done| |apply list.NoDup_singleton].
  intros y Hy Heq. apply list_elem_of_singleton in Heq as ->. done.
Qed.

Lemma filter_none {A} (P : A -> Prop) `{forall x, Decision (P x)} l :
  Forall (fun x => ~ P x) l -> filter P l = [].
Proof. induction 1; [done|]. by rewrite filter_cons_False. Qed.

Lemma filter_all {A} (P : A -> Prop) `{forall x, Decision (P x)} (l : list A) : Forall P l -> filter P l = l.
Proof. induction 1 as [|x l Hx _ IH]; [done|]. by rewrite filter_cons_True, IH. Qed.

Lemma filter_ext_elem {A} (P Q : A -> Prop) `{forall x, Decision (P x), forall x, Decision (Q x)} (l : list A) :
  (forall x, x ∈ l -> P x <-> Q x) -> filter P l = filter Q l.
Proof.
  induction l as [|x l IH]; intros HPQ; [done|].
  assert (Hx : P x <-> Q x) by (apply HPQ; left). rewrite !filter_cons.
  rewrite IH by (intros; apply HPQ; by right). repeat case_decide; tauto.
Qed.

Lemma NoDup_fmap_elem_inj {A B} (f : A -> B) (l : list A) x y :
  NoDup (f <$> l) -> x ∈ l -> y ∈ l -> f x = f y -> x = y.
Proof.
  intros Hnd (i & Hi)%list_elem_of_lookup (j & Hj)%list_elem_of_lookup Heq.
  assert (i = j) as ->; [|congruence].
  eapply NoDup_lookup; [exact Hnd|by rewrite list_lookup_fmap, Hi|by rewrite list_lookup_fmap, Hj, Heq].
Qed.

Lemma NoDup_fmap_filter {A B} (f : A -> B) (P : A -> Prop) `{forall x, Decision (P x)} l :
  NoDup (f <$> l) -> NoDup (f <$> filter P l).
Proof.
  induction l as [|x l IH]; [done|]. csimpl. rewrite list.NoDup_cons. intros [Hn Hl].
  rewrite filter_cons. case_decide; [|by apply IH]. csimpl. apply list.NoDup_cons. split; [|by apply IH].
  intros (y & Heq & Hin%list_elem_of_filter)%list_elem_of_fmap. apply Hn.
  apply list_elem_of_fmap. exists y. tauto.
Qed.

Lemma elem_of_concat {A} (x : A) ls : x ∈ concat ls <-> exists l, x ∈ l /\ l ∈ ls.
Proof.
  rewrite list_elem_of_In, in_concat. split; intros (l & ? & ?); exists l; rewrite ?list_elem_of_In in *; tauto.
Qed.

Lemma elem_of_concat_map {A B} (f : A -> list B) l x :
  x ∈ concat (map f l) <-> exists y, y ∈ l /\ x ∈ f y.
Proof.
  induction l as [|y l IH]; simpl.
  - split; [by intros ?%elem_of_nil|]. by intros (y & ?%elem_of_nil & _).
  - rewrite elem_of_app, IH. split.
    + intros [Hx|(z & Hz & Hx)]; [exists y|exists z]; split; try done; [left|by right].
    + intros (z & [->|Hz]%elem_of_cons & Hx); [by left|right; eauto].
Qed.

Lemma existsb_elem {A} (f : A -> bool) l : existsb f l = true <-> exists x, x ∈ l /\ f x = true.
Proof. rewrite existsb_exists. by setoid_rewrite list_elem_of_In. Qed.

(** ** JSON values, as [dict[str, Any]] fields hold them *)
Inductive json : Type :=
| JNull
| JBool (b : bool)
| JNum (n : Z)
| JStr (s : string)
| JList (l : list json)
| JDict (d : list (string * json)).

(** ** Python dicts

    A dict keeps its keys in insertion order and updating an existing key
    keeps its place; [d[k] = v] is [dict_set], [d.get(k)] is [dict_get]. *)
Abbreviation pydict K V := (list (K * V)).

Section PyDict.
Context {K V : Type} `{EqDecision K}.
Implicit Types (d : pydict K V) (k : K) (v : V).

Fixpoint dict_get k d : option V :=
  match d with
  | [] => None
  | (k', v) :: d' => if decide (k = k') then Some v else dict_get k d'
  end.

Fixpoint dict_set k v d : pydict K V :=
  match d with
  | [] => [(k, v)]
  | (k', v') :: d' =>
      if decide (k = k') then (k', v) :: d' else (k', v') :: dict_set k v d'
  end.

Definition dict_keys d : list K := d.*1.
Definition dict_values d : list V := d.*2.
Definition dict_has k d : bool := bool_decide (is_Some (dict_get k d)).

(** [d.setdefault(k, v)] *)
Definition dict_setdefault k v d : pydict K V :=
  match dict_get k d with Some _ => d | None => dict_set k v d end.

(** A dict never holds a key twice. *)
Definition dict_wf d : Prop := NoDup (dict_keys d).

Lemma dict_get_set_eq k v d : dict_get k (dict_set k v d) = Some v.
Proof.
  induction d as [|[k' v'] d IH]; simpl; repeat case_decide; simpl;
    try case_decide; congruence.
Qed.

Lemma dict_get_set_ne k k' v d :
  k <> k' -> dict_get k' (dict_set k v d) = dict_get k' d.
Proof.
  intros Hne. induction d as [|[k0 v0] d IH]; simpl.
  - by rewrite decide_False by done.
  - case_decide; simpl; repeat case_decide; congruence.
Qed.

Lemma dict_get_Some_elem k v d : dict_get k d = Some v -> (k, v) ∈ d.
Proof.
  induction d as [|[k' v'] d IH]; simpl; [done|].
  case_decide; [intros [= ->]; subst; left | intros; right; auto].
Qed.

Lemma dict_get_None_keys k d : dict_get k d = None <-> k ∉ dict_keys d.
Proof.
  induction d as [|[k' v'] d IH]; simpl; [set_solver|].
  case_decide; subst; [set_solver|].
  rewrite IH. unfold dict_keys; simpl. set_solver.
Qed.

Lemma dict_elem_get k v d : dict_wf d -> (k, v) ∈ d -> dict_get k d = Some v.
Proof.
  unfold dict_wf. induction d as [|[k' v'] d IH]; simpl; [set_solver|].
  intros [Hnin Hnd]%list.NoDup_cons [Heq|Hin]%elem_of_cons.
  - injection Heq as -> ->. by rewrite decide_True.
  - rewrite decide_False; [auto|]. intros ->. apply Hnin.
    apply list_elem_of_fmap. by exists (k', v).
Qed.

(** A lookup depends on what is held, not on the order. *)
Lemma dict_get_perm d d' k : dict_wf d -> d ≡ₚ d' -> dict_get k d = dict_get k d'.
Proof.
  intros Hw Hp. assert (dict_wf d') as Hw' by (unfold dict_wf, dict_keys in *; by rewrite <- Hp).
  destruct (dict_get k d) as [v|] eqn:Hd.
  - symmetry. apply dict_elem_get; [done|]. rewrite <- Hp. by apply dict_get_Some_elem.
  - symmetry. apply dict_get_None_keys. apply dict_get_None_keys in Hd. unfold dict_keys in *. by rewrite <- Hp.
Qed.

Lemma dict_keys_set k v d :
  dict_keys (dict_set k v d) =
  if decide (k ∈ dict_keys d) then dict_keys d else dict_keys d ++ [k].
Proof.
  induction d as [|[k' v'] d IH]; [done|].
  unfold dict_keys in *. csimpl. destruct (decide (k = k')) as [->|Hne]; csimpl.
  - rewrite decide_True; [done|left].
  - rewrite IH. destruct (decide (k ∈ d.*1)) as [Hin|Hnin].
    + rewrite decide_True; [done|by right].
    + rewrite decide_False; [done|]. rewrite elem_of_cons. naive_solver.
Qed.

Lemma dict_wf_set k v d : dict_wf d -> dict_wf (dict_set k v d).
Proof.
  unfold dict_wf. rewrite dict_keys_set. case_decide; [done|].
  intros Hnd. apply list.NoDup_app. split_and!; [done| |apply NoDup_singleton].
  set_solver.
Qed.

Lemma dict_set_elem k v d k' v' :
  (k', v') ∈ dict_set k v d -> (k', v') = (k, v) \/ (k', v') ∈ d.
Proof.
  induction d as [|[k0 v0] d IH]; simpl; [set_solver|].
  case_decide; rewrite !elem_of_cons; naive_solver.
Qed.

Lemma dict_values_elem v d :
  v ∈ dict_values d <-> exists k, (k, v) ∈ d.
Proof.
  unfold dict_values. rewrite list_elem_of_fmap. split.
  - intros [[k v'] [-> ?]]. eauto.
  - intros [k ?]. by exists (k, v).
Qed.
End PyDict.
#[export] Hint Rewrite @dict_get_set_eq : pydict.

(** ** Stable sorting

    [sorted(l, key=...)] only asks [<] of its keys and is stable;
    [reverse=True] keeps equal elements in their original order. *)
Section Sorting.
Context {A : Type} (lt : A -> A -> bool).

Fixpoint sort_insert (x : A) (l : list A) : list A :=
  match l with
  | [] => [x]
  | y :: l' => if lt y x then y :: sort_insert x l' else x :: y :: l'
  end.

Definition py_sorted (l : list A) : list A := foldr sort_insert [] l.
Definition py_sorted_rev (l : list A) : list A := reverse (py_sorted (reverse l)).

Lemma sort_insert_perm x l : sort_insert x l ≡ₚ x :: l.
Proof.
  induction l as [|y l IH]; simpl; [done|].
  destruct (lt y x); [|done]. rewrite IH. apply Permutation_swap.
Qed.

Lemma py_sorted_perm l : py_sorted l ≡ₚ l.
Proof.
  induction l as [|x l IH]; simpl; [done|]. by rewrite sort_insert_perm, IH.
Qed.

Lemma py_sorted_rev_perm l : py_sorted_rev l ≡ₚ l.
Proof. unfold py_sorted_rev. by rewrite reverse_Permutation, py_sorted_perm, reverse_Permutation. Qed.

Lemma elem_of_py_sorted x l : x ∈ py_sorted l <-> x ∈ l.
Proof. by rewrite py_sorted_perm. Qed.

Lemma elem_of_py_sorted_rev x l : x ∈ py_sorted_rev l <-> x ∈ l.
Proof. by rewrite py_sorted_rev_perm. Qed.

(** [y] does not come before [x] *)
Definition sort_le (x y : A) : Prop := lt y x = false.

Context (lt_asym : forall x y, lt x y = true -> lt y x = false).
Context (le_trans : forall x y z, sort_le x y -> sort_le y z -> sort_le x z).

Lemma sort_insert_sorted x l :
  StronglySorted sort_le l -> StronglySorted sort_le (sort_insert x l).
Proof.
  induction 1 as [|y l Hs IH Hall]; simpl; [repeat constructor|].
  destruct (lt y x) eqn:Hyx.
  - constructor; [done|]. rewrite sort_insert_perm. constructor; [|done].
    by apply lt_asym.
  - constructor; [by constructor|]. constructor; [done|].
    eapply Forall_impl; [|exact Hall]. intros z Hz. by eapply le_trans.
Qed.

Lemma py_sorted_sorted l : StronglySorted sort_le (py_sorted l).
Proof. induction l as [|x l IH]; simpl; [constructor|]. by apply sort_insert_sorted. Qed.

Lemma py_sorted_id l : StronglySorted sort_le l -> py_sorted l = l.
Proof.
  induction 1 as [|x l Hl IH Hx]; [done|]. cbn. change (foldr sort_insert [] l) with (py_sorted l). rewrite IH.
  destruct l as [|y l]; [done|]. cbn. apply list.Forall_cons in Hx as [Hx _]. unfold sort_le in Hx. by rewrite Hx.
Qed.

Lemma StronglySorted_reverse (R : A -> A -> Prop) l :
  StronglySorted R l -> StronglySorted (flip R) (reverse l).
Proof.
  induction 1 as [|x l Hs IH Hall]; [constructor|].
  rewrite reverse_cons. apply StronglySorted_app. split_and!;
    [|done|repeat constructor].
  intros y z Hy Hz. apply list_elem_of_singleton in Hz as ->.
  rewrite elem_of_reverse in Hy. rewrite list.Forall_forall in Hall. by apply Hall.
Qed.

Lemma py_sorted_rev_sorted l : StronglySorted (flip sort_le) (py_sorted_rev l).
Proof. apply StronglySorted_reverse, py_sorted_sorted. Qed.

(** The head of a descending sort is a maximum. *)
Lemma py_sorted_rev_head x l l' :
  py_sorted_rev l = x :: l' -> x ∈ l /\ forall y, y ∈ l -> sort_le y x.
Proof.
  intros Hl. assert (Hx : x ∈ l).
  { rewrite <- elem_of_py_sorted_rev, Hl. left. }
  split; [done|]. intros y. rewrite <- elem_of_py_sorted_rev, Hl.
  pose proof (py_sorted_rev_sorted l) as Hs. rewrite Hl in Hs.
  inversion Hs as [|? ? _ Hall]; subst.
  intros [->|Hy]%elem_of_cons.
  - unfold sort_le. destruct (lt x x) eqn:Hxx; [|done].
    by rewrite (lt_asym _ _ Hxx) in Hxx.
  - rewrite list.Forall_forall in Hall. by apply Hall.
Qed.
End Sorting.

(** ** Three-way comparisons

    The laws a comparison must have to order values, and the combinators that
    keep them: by key, lexicographic on pairs and lists, an option whose
    [None] is the greatest value. *)
Class CmpLaws {A} (cmp : A -> A -> comparison) : Prop := {
  cmp_antisym x y : cmp y x = CompOpp (cmp x y);
  cmp_eq_l x y z : cmp x y = Eq -> cmp x z = cmp y z;
  cmp_lt_trans x y z : cmp x y = Lt -> cmp y z = Lt -> cmp x z = Lt
}.

Section CmpFacts.
Context {A : Type} (cmp : A -> A -> comparison) `{!CmpLaws cmp}.

Lemma cmp_refl x : cmp x x = Eq.
Proof. pose proof (cmp_antisym x x) as H. by destruct (cmp x x). Qed.

Lemma cmp_eq_r x y z : cmp x y = Eq -> cmp z x = cmp z y.
Proof. intros H. by rewrite (cmp_antisym x z), (cmp_antisym y z), (cmp_eq_l _ _ _ H). Qed.

Lemma cmp_le_trans x y z : cmp x y <> Gt -> cmp y z <> Gt -> cmp x z <> Gt.
Proof.
  intros Hxy Hyz. destruct (cmp x y) eqn:E1; [|destruct (cmp y z) eqn:E2|done].
  - by rewrite (cmp_eq_l _ _ _ E1).
  - by rewrite <- (cmp_eq_r _ _ _ E2), E1.
  - by rewrite (cmp_lt_trans _ _ _ E1 E2).
  - done.
Qed.
End CmpFacts.

Definition cmp_by {A B} (f : A -> B) (cmp : B -> B -> comparison) (x y : A) : comparison :=
  cmp (f x) (f y).

Definition cmp_pair {A B} (ca : A -> A -> comparison) (cb : B -> B -> comparison)
    (x y : A * B) : comparison :=
  match ca x.1 y.1 with Eq => cb x.2 y.2 | r => r end.

(** A proper prefix is smaller. *)
Fixpoint cmp_list {A} (ca : A -> A -> comparison) (l k : list A) : comparison :=
  match l, k with
  | [], [] => Eq
  | [], _ :: _ => Lt
  | _ :: _, [] => Gt
  | x :: l', y :: k' => match ca x y with Eq => cmp_list ca l' k' | r => r end
  end.

Definition cmp_none_top {A} (ca : A -> A -> comparison) (x y : option A) : comparison :=
  match x, y with
  | None, None => Eq
  | None, Some _ => Gt
  | Some _, None => Lt
  | Some a, Some b => ca a b
  end.

#[export] Instance cmp_N_laws : CmpLaws N.compare.
Proof.
  split.
  - intros x y. apply N.compare_antisym.
  - intros x y z ->%N.compare_eq. done.
  - intros x y z. rewrite !N.compare_lt_iff. lia.
Qed.

#[export] Instance cmp_by_laws {A B} (f : A -> B) cmp : CmpLaws cmp -> CmpLaws (cmp_by f cmp).
Proof.
  unfold cmp_by. split; intros.
  - apply cmp_antisym.
  - by apply cmp_eq_l.
  - by eapply cmp_lt_trans.
Qed.

#[export] Instance cmp_pair_laws {A B} (ca : A -> A -> comparison) (cb : B -> B -> comparison) :
  CmpLaws ca -> CmpLaws cb -> CmpLaws (cmp_pair ca cb).
Proof.
  unfold cmp_pair. intros Ha Hb. split; intros x y.
  - rewrite (cmp_antisym x.1 y.1), (cmp_antisym x.2 y.2). by destruct (ca x.1 y.1).
  - intros z. destruct (ca x.1 y.1) eqn:E; try done. intros H.
    by rewrite (cmp_eq_l _ _ _ E), (cmp_eq_l _ _ _ H).
  - intros z. destruct (ca x.1 y.1) eqn:E1; try done.
    + rewrite (cmp_eq_l _ _ z.1 E1). destruct (ca y.1 z.1); try done.
      intros. by eapply cmp_lt_trans.
    + intros _. destruct (ca y.1 z.1) eqn:E2; try done; intros _.
      * by rewrite <- (cmp_eq_r _ _ _ _ E2), E1.
      * by rewrite (cmp_lt_trans _ _ _ E1 E2).
Qed.

#[export] Instance cmp_list_laws {A} (ca : A -> A -> comparison) :
  CmpLaws ca -> CmpLaws (cmp_list ca).
Proof.
  intros Ha. split.
  - induction x as [|a x IH]; intros [|b y]; simpl; try done.
    rewrite (cmp_antisym a b), IH. by destruct (ca a b).
  - induction x as [|a x IH]; intros [|b y] [|c z]; simpl; try done.
    destruct (ca a b) eqn:E; try done. intros H.
    by rewrite (cmp_eq_l _ _ _ E), (IH _ _ H).
  - induction x as [|a x IH]; intros [|b y] [|c z]; simpl; try done.
    destruct (ca a b) eqn:E1; try done.
    + rewrite (cmp_eq_l _ _ c E1). destruct (ca b c); try done. apply IH.
    + intros _. destruct (ca b c) eqn:E2; try done; intros _.
      * by rewrite <- (cmp_eq_r _ _ _ _ E2), E1.
      * by rewrite (cmp_lt_trans _ _ _ E1 E2).
Qed.

#[export] Instance cmp_none_top_laws {A} (ca : A -> A -> comparison) :
  CmpLaws ca -> CmpLaws (cmp_none_top ca).
Proof.
  intros Ha. split.
  - intros [x|] [y|]; simpl; try done. apply cmp_antisym.
  - intros [x|] [y|] [z|]; simpl; try done. apply cmp_eq_l.
  - intros [x|] [y|] [z|]; simpl; try done. apply cmp_lt_trans.
Qed.

(** ** Constraints on fields and columns *)

(** What holds of an optional value that is there: a check passes on NULL. *)
Definition opt_holds {A} (p : A -> bool) (o : option A) : bool := match o with Some a => p a | None => true end.
Definition gt0 (o : option Z) : bool := opt_holds (fun v => 0 <? v)%Z o.
(** The ranges of INTEGER and BIGINT columns. *)
Definition int4 (n : Z) : bool := (- 2 ^ 31 <=? n)%Z && (n <? 2 ^ 31)%Z.
Definition int8 (n : Z) : bool := (- 2 ^ 63 <=? n)%Z && (n <? 2 ^ 63)%Z.

(** ** Tables

    Rows in storage order; [UPDATE ... WHERE] rewrites the rows a predicate
    selects in place, [SELECT ... WHERE] lists them. *)
Section Tables.
Context {A : Type}.
Implicit Types (t : list A).

Definition tbl_select (p : A -> bool) t : list A := filter (fun r => p r = true) t.
Definition tbl_find (p : A -> bool) t : option A := head (tbl_select p t).
Definition tbl_update (p : A -> bool) (f : A -> A) t : list A :=
  (fun r => if p r then f r else r) <$> t.
Definition tbl_delete (p : A -> bool) t : list A := filter (fun r => p r = false) t.

Lemma tbl_find_cons p r t :
  tbl_find p (r :: t) = if p r then Some r else tbl_find p t.
Proof.
  unfold tbl_find, tbl_select. destruct (p r) eqn:Hp.
  - by rewrite filter_cons_True.
  - by rewrite filter_cons_False by congruence.
Qed.

Lemma tbl_update_none p f t : (forall r, r ∈ t -> p r = false) -> tbl_update p f t = t.
Proof.
  intros Hp. unfold tbl_update. induction t as [|r t IH]; [done|].
  rewrite fmap_cons, IH by (intros; apply Hp; by right).
  by rewrite (Hp r) by left.
Qed.

Lemma tbl_select_app p t t' : tbl_select p (t ++ t') = tbl_select p t ++ tbl_select p t'.
Proof. apply list.filter_app. Qed.

Lemma tbl_select_delete p t : tbl_select p (tbl_delete p t) = [].
Proof.
  unfold tbl_select, tbl_delete. rewrite list_filter_filter.
  induction t as [|r t IH]; [done|]. rewrite filter_cons_False; [done|].
  intros [? ?]. congruence.
Qed.

Lemma tbl_select_delete_ne p q t :
  (forall r, p r = true -> q r = false) -> tbl_select p (tbl_delete q t) = tbl_select p t.
Proof.
  intros Hpq. unfold tbl_select, tbl_delete. rewrite list_filter_filter.
  apply list_filter_iff. naive_solver.
Qed.

Lemma tbl_select_elem p t r : r ∈ tbl_select p t <-> r ∈ t /\ p r = true.
Proof. unfold tbl_select. rewrite list_elem_of_filter. tauto. Qed.

Lemma tbl_find_elem p t a : tbl_find p t = Some a -> a ∈ t /\ p a = true.
Proof.
  unfold tbl_find. intros H. apply tbl_select_elem. apply head_Some_elem_of in H. done.
Qed.

Lemma tbl_find_None p t : tbl_find p t = None <-> forall a, a ∈ t -> p a = false.
Proof.
  unfold tbl_find. rewrite head_None. split.
  - intros H a Ha. destruct (p a) eqn:E; [|done]. exfalso.
    assert (Hin : a ∈ tbl_select p t) by (by apply tbl_select_elem). rewrite H in Hin. by apply elem_of_nil in Hin.
  - intros H. apply filter_none, list.Forall_forall. intros a Ha. by rewrite (H a Ha).
Qed.
End Tables.

(** A list of rows seen as a map, by a key each row carries. *)
Section Keyed.
Context {K V : Type} `{Countable K} (key : V -> K).

Definition by_key (t : list V) : gmap K V := list_to_map ((fun v => (key v, v)) <$> t).

Lemma by_key_nil : by_key [] = ∅.
Proof. done. Qed.

Lemma by_key_cons v t : by_key (v :: t) = <[key v := v]> (by_key t).
Proof. done. Qed.

Lemma by_key_find p k t :
  (forall v, v ∈ t -> p v = true <-> key v = k) -> by_key t !! k = tbl_find p t.
Proof.
  induction t as [|v t IH]; intros Hp; [apply lookup_empty|].
  rewrite by_key_cons, tbl_find_cons.
  assert (Hv : p v = true <-> key v = k) by (apply Hp; left).
  destruct (p v) eqn:E.
  - rewrite (proj1 Hv eq_refl). apply lookup_insert_eq.
  - rewrite lookup_insert_ne by (intros Hk; apply Hv in Hk; done).
    apply IH. intros v' Hv'. apply Hp. by right.
Qed.

Lemma by_key_Some k v t : by_key t !! k = Some v -> v ∈ t /\ key v = k.
Proof.
  induction t as [|v' t IH]; [by rewrite by_key_nil, lookup_empty|].
  rewrite by_key_cons, lookup_insert_Some. intros [[? <-]|[? Hv]].
  - split; [left|done].
  - destruct (IH Hv). split; [by right|done].
Qed.

Lemma by_key_elem v t : NoDup (key <$> t) -> v ∈ t -> by_key t !! key v = Some v.
Proof.
  induction t as [|v' t IH]; [set_solver|]. rewrite fmap_cons, list.NoDup_cons, by_key_cons.
  intros [Hnin Hnd] [->|Hv]%elem_of_cons; [apply lookup_insert_eq|].
  rewrite lookup_insert_ne; [auto|]. intros Heq. apply Hnin. rewrite Heq.
  by apply list_elem_of_fmap_2.
Qed.

Lemma by_key_None k t : by_key t !! k = None <-> k ∉ key <$> t.
Proof.
  induction t as [|v t IH]; [rewrite by_key_nil, lookup_empty; set_solver|].
  rewrite by_key_cons, fmap_cons, lookup_insert_None, IH, not_elem_of_cons. naive_solver.
Qed.

Lemma by_key_snoc v t : key v ∉ key <$> t -> by_key (t ++ [v]) = <[key v := v]> (by_key t).
Proof.
  induction t as [|v' t IH]; [done|]. rewrite fmap_cons, not_elem_of_cons.
  intros [Hne Hnin]. change ((v' :: t) ++ [v]) with (v' :: (t ++ [v])).
  rewrite !by_key_cons, IH by done. by apply insert_insert_ne.
Qed.

(** Updating the row of a key in place. *)
Lemma by_key_update p f k v t :
  (forall r, r ∈ t -> p r = true <-> key r = k) ->
  (forall r, r ∈ t -> p r = true -> key (f r) = k) ->
  NoDup (key <$> t) -> tbl_find p t = Some v ->
  by_key (tbl_update p f t) = <[k := f v]> (by_key t).
Proof.
  induction t as [|r t IH]; intros Hp Hf Hnd Hfind; [done|].
  rewrite fmap_cons, list.NoDup_cons in Hnd. destruct Hnd as [Hnin Hnd].
  rewrite tbl_find_cons in Hfind. unfold tbl_update in *. rewrite fmap_cons, !by_key_cons.
  assert (Hr : p r = true <-> key r = k) by (apply Hp; left).
  destruct (p r) eqn:E.
  - injection Hfind as ->. rewrite (Hf v) by (by left || done).
    rewrite (proj1 Hr eq_refl), insert_insert_eq. f_equal. f_equal.
    change ((fun r => if p r then f r else r) <$> t) with (tbl_update p f t).
    apply tbl_update_none. intros r' Hr'. destruct (p r') eqn:E'; [|done].
    apply Hp in E'; [|by right]. exfalso. apply Hnin.
    rewrite (proj1 Hr eq_refl), <- E'. by apply list_elem_of_fmap_2.
  - rewrite IH; try done.
    + apply insert_insert_ne. intros Hk. assert (key r = k) as Hk' by congruence. by apply Hr in Hk'.
    + intros r0 H0. apply Hp. by right.
    + intros r0 H0. apply Hf. by right.
Qed.

(** Rewriting rows without touching their keys. *)
Lemma by_key_update_fmap p f t :
  (forall r, key (f r) = key r) ->
  by_key (tbl_update p f t) = (fun r => if p r then f r else r) <$> by_key t.
Proof.
  intros Hf. induction t as [|r t IH]; [by rewrite by_key_nil, fmap_empty|].
  unfold tbl_update in *. rewrite fmap_cons, !by_key_cons, fmap_insert, IH.
  f_equal. by destruct (p r); rewrite ?Hf.
Qed.

Lemma keys_update p f t :
  (forall r, r ∈ t -> p r = true -> key (f r) = key r) ->
  key <$> tbl_update p f t = key <$> t.
Proof.
  intros Hf. unfold tbl_update. rewrite <- list_fmap_compose. apply list_fmap_ext.
  intros i r Hr. simpl. apply list_elem_of_lookup_2 in Hr.
  destruct (p r) eqn:E; [by apply Hf|done].
Qed.

(** [INSERT ... ON CONFLICT (key) DO UPDATE], on the key's rows [p]. *)
Definition tbl_upsert (p : V -> bool) (new : V) (f : V -> V) (t : list V) : list V :=
  if existsb p t then tbl_update p f t else t ++ [new].
Lemma by_key_upsert p new f k t :
  (forall r, p r = true <-> key r = k) -> key new = k -> (forall r, key r = k -> key (f r) = k) -> NoDup (key <$> t) ->
  NoDup (key <$> tbl_upsert p new f t) /\
  by_key (tbl_upsert p new f t) = <[k := match tbl_find p t with Some v => f v | None => new end]> (by_key t).
Proof.
  intros Hp Hn Hf Hnd. unfold tbl_upsert. destruct (existsb p t) eqn:He.
  - assert (exists v, tbl_find p t = Some v) as [v Hv].
    { destruct (tbl_find p t) eqn:H0; [eauto|]. apply existsb_elem in He as (r & Hr & Hpr).
      eapply tbl_find_None in H0; [|exact Hr]. congruence. }
    rewrite Hv, keys_update by (intros r _ Hr; apply Hp in Hr; by rewrite (Hf _ Hr)). split; [done|].
    apply by_key_update; try done. intros r _ Hr. by apply Hf, Hp.
  - assert (Hnone : tbl_find p t = None).
    { apply tbl_find_None. intros r Hr. destruct (p r) eqn:Hpr; [|done].
      assert (existsb p t = true); [|congruence]. apply existsb_elem. by exists r. }
    rewrite Hnone. assert (Hnew : key new ∉ key <$> t).
    { intros Hin. apply list_elem_of_fmap in Hin as (r & Hr & Hin). eapply tbl_find_None in Hnone; [|exact Hin].
      assert (p r = true); [apply Hp; congruence|congruence]. }
    split; [by apply NoDup_fmap_snoc|]. by rewrite by_key_snoc, Hn.
Qed.
End Keyed.

(** A dict as a map. *)
Section DictMap.
Context {K V : Type} `{Countable K}.

Lemma dict_to_map_get (d : pydict K V) (k : K) :
  (list_to_map d : gmap K V) !! k = dict_get k d.
Proof.
  induction d as [|[k' v'] d IH]; simpl; [apply lookup_empty|].
  rewrite lookup_insert. case_decide; case_decide; congruence.
Qed.

Lemma dict_to_map_set (d : pydict K V) (k : K) v :
  (list_to_map (dict_set k v d) : gmap K V) = <[k := v]> (list_to_map d).
Proof.
  apply map_eq. intros j. rewrite dict_to_map_get, lookup_insert, dict_to_map_get.
  case_decide; subst; [apply dict_get_set_eq|by apply dict_get_set_ne].
Qed.
End DictMap.

(** A dict whose keys are a function of its values, as a map. *)
Section DictKeyed.
Context {K K' V : Type} `{Countable K'} `{EqDecision K} (key : V -> K').

Lemma by_key_dict_set (k : K) v (d : pydict K V) :
  (forall k0 v0, (k0, v0) ∈ d -> k0 = k <-> key v0 = key v) ->
  by_key key (dict_values (dict_set k v d)) = <[key v := v]> (by_key key (dict_values d)).
Proof.
  unfold dict_values. induction d as [|[k0 v0] d IH]; intros Hk; csimpl; [done|].
  assert (H0 : k0 = k <-> key v0 = key v) by (apply Hk; left).
  destruct (decide (k = k0)) as [->|Hne]; csimpl; rewrite !by_key_cons.
  - by rewrite (proj1 H0 eq_refl), insert_insert_eq.
  - rewrite IH by (intros; apply Hk; by right).
    apply insert_insert_ne. intros Heq. apply Hne. symmetry. by apply H0.
Qed.

Lemma by_key_dict_get (k : K) k' (d : pydict K V) :
  (forall k0 v0, (k0, v0) ∈ d -> k0 = k <-> key v0 = k') ->
  by_key key (dict_values d) !! k' = dict_get k d.
Proof.
  unfold dict_values. induction d as [|[k0 v0] d IH]; intros Hk; csimpl;
    [apply lookup_empty|].
  assert (H0 : k0 = k <-> key v0 = k') by (apply Hk; left).
  rewrite by_key_cons. destruct (decide (k = k0)) as [->|Hne].
  - rewrite (proj1 H0 eq_refl). apply lookup_insert_eq.
  - rewrite lookup_insert_ne by (intros Heq; apply Hne; symmetry; by apply H0).
    apply IH. intros. apply Hk. by right.
Qed.
End DictKeyed.
