(* ===== verification/PyStr.v ===== *)
(** Python strings as the modelled code uses them: [strip], [lower], [upper],
    [split], [startswith], [endswith], [in], the end anchor of [re], decimal
    literals.  A [str] is a Rocq [string] of ASCII characters; on those
    characters the case and white-space tables below are Python's. *)
From stdpp Require Import base strings list pretty numbers sorting.
From Stdlib Require Import Ascii.
From S2P Require Import Prelude.

Open Scope string_scope.
#[global] Arguments String.append !_ _ : simpl nomatch.

(** ** Characters *)

Definition between (lo hi : N) (c : ascii) : bool :=
  (lo <=? N_of_ascii c)%N && (N_of_ascii c <=? hi)%N.

(** [str.isspace]: tab, newline, vertical tab, form feed, carriage return,
    the separators 28-31 and the blank. *)
Definition is_space (c : ascii) : bool := between 9 13 c || between 28 32 c.
Definition is_digit (c : ascii) : bool := between 48 57 c.
Definition is_upper (c : ascii) : bool := between 65 90 c.
Definition is_lower (c : ascii) : bool := between 97 122 c.
Definition hex_char (c : ascii) : bool := is_digit c || between 97 102 c.
Definition is_alnum (c : ascii) : bool := is_digit c || is_upper c || is_lower c.

Definition lower_char (c : ascii) : ascii :=
  if is_upper c then ascii_of_N (N_of_ascii c + 32) else c.
Definition upper_char (c : ascii) : ascii :=
  if is_lower c then ascii_of_N (N_of_ascii c - 32) else c.

(** ** Whole strings *)

Fixpoint str_map (f : ascii -> ascii) (s : string) : string :=
  match s with "" => "" | String c s' => String (f c) (str_map f s') end.

Definition str_lower : string -> string := str_map lower_char.
Definition str_upper : string -> string := str_map upper_char.

Fixpoint str_forall (p : ascii -> bool) (s : string) : bool :=
  match s with "" => true | String c s' => p c && str_forall p s' end.

Fixpoint lstrip (s : string) : string :=
  match s with
  | "" => ""
  | String c s' => if is_space c then lstrip s' else s
  end.

Fixpoint rstrip (s : string) : string :=
  match s with
  | "" => ""
  | String c s' =>
      match rstrip s' with
      | "" => if is_space c then "" else String c ""
      | r => String c r
      end
  end.

Definition strip (s : string) : string := rstrip (lstrip s).
(** [s.rstrip(x)] for one character *)
Fixpoint rstrip_char (x : ascii) (s : string) : string :=
  match s with
  | "" => ""
  | String c s' => match rstrip_char x s' with "" => if (c =? x)%char then "" else String c "" | r => String c r end
  end.

(** [not s] *)
Definition str_empty (s : string) : bool := match s with "" => true | _ => false end.

(** [length(trim(s)) > 0] in SQL, where [trim] takes blanks only *)
Definition not_blank (s : string) : bool := negb (str_forall (fun c => (c =? " ")%char) s).

Definition starts_with (p s : string) : bool := String.prefix p s.

Fixpoint ends_with (suf s : string) : bool :=
  (s =? suf) || match s with "" => false | String _ s' => ends_with suf s' end.

(** [sub in s] *)
Fixpoint str_contains (sub s : string) : bool :=
  String.prefix sub s ||
  match s with "" => false | String _ s' => str_contains sub s' end.

Definition char_in (c : ascii) (s : string) : bool :=
  negb (str_forall (fun x => negb (x =? c)%char) s).

(** [s.split(c, 1)] when [c] occurs in [s] *)
Fixpoint split_first (c : ascii) (s : string) : option (string * string) :=
  match s with
  | "" => None
  | String x s' =>
      if (x =? c)%char then Some ("", s')
      else match split_first c s' with
           | Some (a, b) => Some (String x a, b)
           | None => None
           end
  end.

(** [s.split(c)] *)
Fixpoint split_on (c : ascii) (s : string) : list string :=
  match s with
  | "" => [""]
  | String x s' =>
      if (x =? c)%char then "" :: split_on c s'
      else match split_on c s' with
           | h :: t => String x h :: t
           | [] => [String x ""]
           end
  end.

Definition newline : ascii := "010"%char.

(** [s.splitlines()] for ASCII text: no line holds a line boundary, and one at
    the end does not start another line. *)
Definition line_break (c : ascii) : bool := between 10 13 c || between 28 30 c.
Definition carriage : ascii := "013"%char.
Fixpoint splitlines (s : string) : list string :=
  match s with
  | "" => []
  | String c s' =>
      if line_break c then
        match s' with
        | String d s'' =>
            if (c =? carriage)%char && (d =? newline)%char then "" :: splitlines s'' else "" :: splitlines s'
        | "" => [""]
        end
      else match splitlines s' with
           | l :: ls => String c l :: ls
           | [] => [String c ""]
           end
  end.

(** What reading a file as text makes of its line ends. *)
Fixpoint universal_newlines (s : string) : string :=
  match s with
  | "" => ""
  | String c s' =>
      if (c =? carriage)%char then
        match s' with
        | String d s'' => if (d =? newline)%char then String newline (universal_newlines s'')
                          else String newline (universal_newlines s')
        | "" => String newline ""
        end
      else String c (universal_newlines s')
  end.

(** The rest of a string that ends in a newline. *)
Fixpoint chop_newline (s : string) : option string :=
  match s with
  | "" => None
  | String c "" => if (c =? newline)%char then Some "" else None
  | String c s' => String c <$> chop_newline s'
  end.

(** [re.match] on a pattern that ends in [$]: the anchor holds at the end of
    the text and before a newline that ends it. *)
Definition re_dollar {A} (m : string -> option A) (s : string) : option A :=
  match m s with
  | Some g => Some g
  | None => match chop_newline s with Some s' => m s' | None => None end
  end.

(** [int(s)] for a string of decimal digits *)
Definition digit_value (c : ascii) : N := (N_of_ascii c - 48)%N.
Fixpoint dec_acc (acc : N) (s : string) : N :=
  match s with
  | "" => acc
  | String c s' => dec_acc (10 * acc + digit_value c) s'
  end.
Definition dec_value (s : string) : N := dec_acc 0 s.

(** [^[0-9a-f]{64}$]: a SHA-256 digest in hexadecimal *)
Definition checksum_format (s : string) : bool := (String.length s =? 64)%nat && str_forall hex_char s.

(** [a < b] on strings: by code point. *)
Definition str_lt (a b : string) : bool :=
  match (a ?= b)%string with Lt => true | _ => false end.

(** ** Lemmas *)

Lemma str_app_assoc a b c : (a ++ b) ++ c = a ++ b ++ c.
Proof. induction a; simpl; congruence. Qed.

Lemma str_app_nil_r a : a ++ "" = a.
Proof. induction a; simpl; congruence. Qed.

Lemma app_inv_head_str a b c : a ++ b = a ++ c -> b = c.
Proof. induction a; simpl; [done|]. intros [= H]. auto. Qed.

Lemma str_forall_app p a b : str_forall p (a ++ b) = str_forall p a && str_forall p b.
Proof. induction a; simpl; [done|]. by rewrite IHa, andb_assoc. Qed.

Lemma str_forall_impl (p q : ascii -> bool) s :
  (forall c, p c = true -> q c = true) -> str_forall p s = true -> str_forall q s = true.
Proof.
  intros Hpq. induction s as [|c s IH]; simpl; [done|].
  rewrite !andb_true_iff. naive_solver.
Qed.

Lemma str_forall_lstrip p s : str_forall p s = true -> str_forall p (lstrip s) = true.
Proof.
  induction s as [|c s IH]; simpl; [done|]. rewrite andb_true_iff. intros [Hc Hs].
  destruct (is_space c); simpl; [auto|]. by rewrite Hc, Hs.
Qed.

(** A character that does not occur. *)
Definition no_char (c : ascii) (s : string) : Prop :=
  str_forall (fun x => negb (x =? c)%char) s = true.
#[export] Instance no_char_dec c s : Decision (no_char c s).
Proof. unfold no_char. apply _. Defined.

Lemma no_char_app c a b : no_char c (a ++ b) <-> no_char c a /\ no_char c b.
Proof. unfold no_char. by rewrite str_forall_app, andb_true_iff. Qed.

Lemma no_char_cons c x s : no_char c (String x s) <-> x <> c /\ no_char c s.
Proof.
  unfold no_char; simpl. rewrite andb_true_iff, negb_true_iff.
  by rewrite Ascii.eqb_neq.
Qed.

(** Characters accepted by [p] exclude [c] when [p] rejects [c]. *)
Lemma no_char_forall p c s : p c = false -> str_forall p s = true -> no_char c s.
Proof.
  intros Hc. apply str_forall_impl. intros x Hx.
  rewrite negb_true_iff, Ascii.eqb_neq. congruence.
Qed.

Lemma split_first_Some c s a b :
  split_first c s = Some (a, b) <-> s = a ++ String c b /\ no_char c a.
Proof.
  revert a b; induction s as [|x s IH]; intros a b; simpl.
  - split; [done|]. intros [H _]. by destruct a.
  - destruct (x =? c)%char eqn:Hxc.
    + apply Ascii.eqb_eq in Hxc as ->. split.
      * by intros [= <- <-].
      * intros [H Ha]. destruct a as [|y a]; simpl in H; [by injection H as ->|].
        injection H as -> ->. apply no_char_cons in Ha as [[] _]. done.
    + apply Ascii.eqb_neq in Hxc. split.
      * destruct (split_first c s) as [[a' b']|] eqn:Hs; [|done].
        intros [= <- <-]. destruct (proj1 (IH a' b') eq_refl) as [-> ?].
        split; [done|]. by apply no_char_cons.
      * intros [H Ha]. destruct a as [|y a]; simpl in H; [congruence|].
        injection H as -> ->. apply no_char_cons in Ha as [_ Ha].
        by rewrite (proj2 (IH a b)).
Qed.

Lemma split_first_None c s : split_first c s = None <-> no_char c s.
Proof.
  induction s as [|x s IH]; simpl; [done|]. rewrite no_char_cons.
  destruct (x =? c)%char eqn:Hxc.
  - apply Ascii.eqb_eq in Hxc as ->. naive_solver.
  - apply Ascii.eqb_neq in Hxc. rewrite <- IH.
    destruct (split_first c s) as [[]|]; naive_solver.
Qed.

Lemma split_on_nonempty c s : split_on c s <> [].
Proof.
  destruct s as [|x s]; simpl; [done|]. destruct (x =? c)%char; [done|].
  by destruct (split_on c s).
Qed.

Lemma split_on_no_char c s : no_char c s -> split_on c s = [s].
Proof.
  induction s as [|x s IH]; simpl; [done|]. intros [Hx Hs]%no_char_cons.
  apply Ascii.eqb_neq in Hx as ->. by rewrite (IH Hs).
Qed.

Lemma split_on_app c a b : no_char c a -> split_on c (a ++ String c b) = a :: split_on c b.
Proof.
  induction a as [|x a IH]; simpl; intros Ha.
  - by rewrite Ascii.eqb_refl.
  - apply no_char_cons in Ha as [Hx Ha]. apply Ascii.eqb_neq in Hx as ->.
    by rewrite (IH Ha).
Qed.

(** [split] is undone by [join]. *)
Lemma split_on_cons c s h t :
  split_on c s = h :: t ->
  no_char c h /\
  match t with
  | [] => s = h
  | _ => exists s', s = h ++ String c s' /\ split_on c s' = t
  end.
Proof.
  intros Hs. destruct (split_first c s) as [[a b]|] eqn:Hf.
  - apply split_first_Some in Hf as [-> Ha]. rewrite split_on_app in Hs by done.
    injection Hs as -> <-. split; [done|].
    destruct (split_on c b) eqn:Hb; [by apply split_on_nonempty in Hb|]. eauto.
  - apply split_first_None in Hf. rewrite split_on_no_char in Hs by done.
    injection Hs as -> <-. done.
Qed.

Lemma rstrip_no_newline s : chop_newline (rstrip s) = None.
Proof.
  induction s as [|c s IH]; simpl; [done|].
  destruct (rstrip s) as [|c' r] eqn:Hr.
  - destruct (is_space c) eqn:Hc; [done|]. simpl.
    destruct (c =? newline)%char eqn:Hn; [|done].
    apply Ascii.eqb_eq in Hn as ->. done.
  - simpl. simpl in IH. by rewrite IH.
Qed.

Lemma strip_no_space s : str_forall (fun c => negb (is_space c)) s = true -> strip s = s.
Proof.
  assert (forall s, str_forall (fun c => negb (is_space c)) s = true -> rstrip s = s) as Hr.
  { induction s0 as [|c s0 IH]; [done|]. simpl. rewrite andb_true_iff. intros [Hc Hs].
    rewrite (IH Hs). apply negb_true_iff in Hc. destruct s0; [by rewrite Hc|done]. }
  intros Hs. unfold strip. destruct s as [|c s]; [done|].
  assert (lstrip (String c s) = String c s) as ->; [|by apply Hr].
  simpl in *. apply andb_true_iff in Hs as [Hc _]. apply negb_true_iff in Hc. by rewrite Hc.
Qed.

(** A stripped text does not end in a newline, so [$] only holds at its end. *)
Lemma re_dollar_strip {A} (m : string -> option A) s :
  re_dollar m (strip s) = m (strip s).
Proof.
  unfold re_dollar, strip. rewrite rstrip_no_newline. by destruct (m _).
Qed.

Lemma chop_newline_Some s s' : chop_newline s = Some s' <-> s = s' ++ String newline "".
Proof.
  revert s'; induction s as [|c s IH]; intros s'.
  - split; [done|]. by destruct s'.
  - destruct s as [|c2 s].
    + simpl. destruct (Ascii.eqb_spec c newline) as [->|Hc]; split; try done.
      * by intros [= <-].
      * destruct s' as [|y s']; [done|]. simpl. intros H. injection H as _ H.
        by destruct s'.
      * destruct s' as [|y s']; simpl; intros H; injection H; [congruence|].
        intros H'. by destruct s'.
    + change (String c <$> chop_newline (String c2 s) = Some s' <->
              String c (String c2 s) = s' ++ String newline "").
      split.
      * destruct (chop_newline (String c2 s)) as [r|] eqn:Hr; [|done].
        intros [= <-]. simpl. f_equal. by apply IH.
      * intros H. destruct s' as [|x s']; [by injection H|].
        injection H as -> H. by rewrite (proj2 (IH s') H).
Qed.

Lemma str_compare_refl s : (s ?= s)%string = Eq.
Proof.
  pose proof (String.compare_antisym s s) as H. by destruct (s ?= s)%string.
Qed.

Lemma str_lt_irrefl s : str_lt s s = false.
Proof. unfold str_lt. by rewrite str_compare_refl. Qed.

Lemma str_lt_asym a b : str_lt a b = true -> str_lt b a = false.
Proof.
  unfold str_lt. rewrite (String.compare_antisym b a).
  by destruct (a ?= b)%string.
Qed.

Lemma str_lt_total a b : a <> b -> str_lt a b = true \/ str_lt b a = true.
Proof.
  unfold str_lt. intros Hab. rewrite (String.compare_antisym b a).
  destruct (a ?= b)%string eqn:Hc; auto.
  by apply String.compare_eq_iff in Hc.
Qed.

Lemma str_lt_trans a b c : str_lt a b = true -> str_lt b c = true -> str_lt a c = true.
Proof.
  unfold str_lt. revert b c; induction a as [|x a IH]; intros [|y b] [|z c]; simpl; try done.
  unfold Ascii.compare.
  destruct (N.compare_spec (N_of_ascii x) (N_of_ascii y)) as [Hxy|Hxy|Hxy];
    destruct (N.compare_spec (N_of_ascii y) (N_of_ascii z)) as [Hyz|Hyz|Hyz]; try done;
    destruct (N.compare_spec (N_of_ascii x) (N_of_ascii z)); try lia; try done; apply IH.
Qed.

(** ** Substrings *)

Definition infix (t s : string) : Prop := exists a b, s = a ++ t ++ b.

Lemma prefix_app t b : String.prefix t (t ++ b) = true.
Proof. induction t as [|c t IH]; simpl; [by destruct b|]. by rewrite IH; destruct (ascii_dec c c). Qed.

Lemma prefix_inv t s : String.prefix t s = true -> exists b, s = t ++ b.
Proof.
  revert s. induction t as [|c t IH]; intros s; simpl; [by exists s|].
  destruct s as [|c' s]; simpl; [done|]. destruct (ascii_dec c c') as [<-|]; [|done].
  intros [b ->]%IH. by exists b.
Qed.

Lemma ends_with_inv suf s : ends_with suf s = true -> exists a, s = a ++ suf.
Proof.
  induction s as [|c s IH]; cbn [ends_with].
  - rewrite orb_false_r. intros <-%String.eqb_eq. by exists "".
  - intros [<-%String.eqb_eq|[a ->]%IH]%orb_true_iff; [by exists ""|by exists (String c a)].
Qed.

Lemma ends_with_app suf s : ends_with suf (s ++ suf) = true.
Proof.
  induction s as [|c s IH]; cbn.
  - destruct suf; cbn [ends_with]; by rewrite String.eqb_refl.
  - by rewrite IH, orb_true_r.
Qed.

Lemma str_contains_unfold t s :
  str_contains t s = String.prefix t s
    || match s with "" => false | String _ s' => str_contains t s' end.
Proof. by destruct s. Qed.

Lemma str_contains_iff t s : str_contains t s = true <-> infix t s.
Proof.
  split.
  - induction s as [|c s IH]; rewrite str_contains_unfold.
    + rewrite orb_false_r. intros [b Hb]%prefix_inv. by exists "", b.
    + intros [[b Hb]%prefix_inv|(a & b & ->)%IH]%orb_true_iff; [by exists "", b|].
      by exists (String c a), b.
  - intros (a & b & ->). induction a as [|c a IH]; rewrite str_contains_unfold; simpl.
    + by rewrite prefix_app.
    + by rewrite IH, orb_true_r.
Qed.

Lemma infix_refl s : infix s s.
Proof. exists "", "". by rewrite str_app_nil_r. Qed.

Lemma infix_app_l t a s : infix t s -> infix t (a ++ s).
Proof. intros (x & y & ->). exists (a ++ x), y. by rewrite str_app_assoc. Qed.

Lemma infix_app_r t s b : infix t s -> infix t (s ++ b).
Proof. intros (x & y & ->). exists x, (y ++ b). by rewrite !str_app_assoc. Qed.

Lemma infix_trans r t s : infix r t -> infix t s -> infix r s.
Proof.
  intros (a & b & ->) (x & y & ->). apply infix_app_l, infix_app_r. by exists a, b.
Qed.

Lemma str_map_app f a b : str_map f (a ++ b) = str_map f a ++ str_map f b.
Proof. induction a as [|c a IH]; simpl; congruence. Qed.

Lemma str_map_infix f t s : infix t s -> infix (str_map f t) (str_map f s).
Proof. intros (a & b & ->). exists (str_map f a), (str_map f b). by rewrite !str_map_app. Qed.

(** A part of [f(s)] is [f] of a part of [s]. *)
Lemma str_map_split f s a b : str_map f s = a ++ b ->
  exists x y, s = x ++ y /\ str_map f x = a /\ str_map f y = b.
Proof.
  revert s. induction a as [|c a IH]; intros s; simpl; [by exists "", s|].
  destruct s as [|c' s]; simpl; [done|]. intros [= <- (x & y & -> & <- & <-)%IH].
  by exists (String c' x), y.
Qed.

Lemma infix_str_map_inv f t s : infix t (str_map f s) -> exists t', infix t' s /\ str_map f t' = t.
Proof.
  intros (a & b & (x & z & -> & <- & (y & w & -> & <- & <-)%str_map_split)%str_map_split).
  exists y. split; [by exists x, w|done].
Qed.

(** The text after the last separator determines the split. *)
Lemma split_last_inj c a b a' b' :
  no_char c b -> no_char c b' -> a ++ String c b = a' ++ String c b' -> a = a' /\ b = b'.
Proof.
  intros Hb Hb'. revert a'; induction a as [|x a IH]; intros [|x' a']; cbn.
  - by intros [= ->].
  - intros [= -> ->]. exfalso. apply no_char_app in Hb as [_ Hb]. by apply no_char_cons in Hb as [? _].
  - intros [= -> <-]. exfalso. apply no_char_app in Hb' as [_ Hb']. by apply no_char_cons in Hb' as [? _].
  - intros [= -> H]. destruct (IH _ H) as [-> ->]. done.
Qed.

Lemma split_on_app_list c a b : split_on c (a ++ String c b) = (split_on c a ++ split_on c b)%list.
Proof.
  induction a as [|x a IH]; simpl.
  - by rewrite Ascii.eqb_refl.
  - destruct (x =? c)%char; [by rewrite IH|]. rewrite IH.
    pose proof (split_on_nonempty c a). by destruct (split_on c a).
Qed.

(** ** Lines *)

Definition one_line (l : string) : Prop := str_forall (fun c => negb (line_break c)) l = true.

Lemma splitlines_nil_line s : splitlines (String newline s) = "" :: splitlines s.
Proof. cbn. by destruct s. Qed.

Lemma splitlines_line l s : one_line l -> splitlines (l ++ String newline s) = l :: splitlines s.
Proof.
  unfold one_line. induction l as [|c l IH]; intros Hl; [apply splitlines_nil_line|].
  cbn in Hl. apply andb_true_iff in Hl as [Hc Hl]. apply negb_true_iff in Hc.
  cbn [String.append splitlines]. by rewrite Hc, IH.
Qed.

(** A text that neither begins nor ends in space. *)
Lemma lstrip_head c s : is_space c = false -> lstrip (String c s) = String c s.
Proof. intros Hc. cbn. by rewrite Hc. Qed.

Lemma rstrip_last a c : is_space c = false -> rstrip (a ++ String c "") = a ++ String c "".
Proof.
  intros Hc. induction a as [|x a IH]; cbn; [by rewrite Hc|]. rewrite IH. by destruct a.
Qed.

Lemma lstrip_length s : (String.length (lstrip s) <= String.length s)%nat.
Proof. induction s as [|c s IH]; cbn; [lia|]. destruct (is_space c); cbn; lia. Qed.

Lemma rstrip_length s : (String.length (rstrip s) <= String.length s)%nat.
Proof.
  induction s as [|c s IH]; cbn; [lia|]. destruct (rstrip s) eqn:E; [destruct (is_space c); cbn; lia|].
  cbn in *. lia.
Qed.

(** A stripped text begins with no space. *)
Lemma strip_fixed_head c s : strip (String c s) = String c s -> is_space c = false.
Proof.
  unfold strip. intros H. destruct (is_space c) eqn:Hc; [|done]. exfalso. cbn in H. rewrite Hc in H.
  apply (f_equal String.length) in H. cbn in H.
  pose proof (rstrip_length (lstrip s)). pose proof (lstrip_length s). lia.
Qed.

(** Putting a character that is no space at the end of a stripped text. *)
Lemma strip_snoc s c : s <> "" -> strip s = s -> is_space c = false -> strip (s ++ String c "") = s ++ String c "".
Proof.
  destruct s as [|x s]; [done|]. intros _ Hs Hc. apply strip_fixed_head in Hs. unfold strip.
  cbn [String.append]. rewrite lstrip_head by done. by apply (rstrip_last (String x s)).
Qed.

(** *** Stripping twice, and under a map that keeps white space *)
Lemma lstrip_lstrip s : lstrip (lstrip s) = lstrip s.
Proof.
  induction s as [|c s IH]; [done|]. cbn [lstrip]. destruct (is_space c) eqn:Hc; [done|]. cbn [lstrip]. by rewrite Hc.
Qed.
Lemma rstrip_rstrip s : rstrip (rstrip s) = rstrip s.
Proof.
  induction s as [|c s IH]; [done|]. cbn [rstrip]. destruct (rstrip s) as [|d t] eqn:Hr.
  - destruct (is_space c) eqn:Hc; [done|]. cbn. by rewrite Hc.
  - change (rstrip (String c (String d t))) with (match rstrip (String d t) with "" => if is_space c then "" else String c "" | r => String c r end).
    by rewrite IH.
Qed.
Lemma lstrip_rstrip s : lstrip s = s -> lstrip (rstrip s) = rstrip s.
Proof.
  destruct s as [|c s]; [done|]. cbn [lstrip]. destruct (is_space c) eqn:Hc.
  - intros H. pose proof (lstrip_length s) as Hl. rewrite H in Hl. cbn in Hl. lia.
  - intros _. cbn [rstrip]. rewrite Hc. destruct (rstrip s); cbn [lstrip]; by rewrite Hc.
Qed.
Lemma strip_strip s : strip (strip s) = strip s.
Proof.
  unfold strip. rewrite (lstrip_rstrip (lstrip s)) by apply lstrip_lstrip. apply rstrip_rstrip.
Qed.
Lemma strip_map f s : (forall c, is_space (f c) = is_space c) -> strip (str_map f s) = str_map f (strip s).
Proof.
  intros Hf. assert (Hl : forall s, lstrip (str_map f s) = str_map f (lstrip s)).
  { intros t. induction t as [|c t IH]; [done|]. cbn. rewrite Hf. by destruct (is_space c). }
  assert (Hr : forall s, rstrip (str_map f s) = str_map f (rstrip s)).
  { intros t. induction t as [|c t IH]; [done|]. cbn. rewrite IH, Hf.
    destruct (rstrip t); [by destruct (is_space c)|done]. }
  unfold strip. by rewrite Hl, Hr.
Qed.
Lemma upper_space c : is_space (upper_char c) = is_space c.
Proof. by destruct c as [[] [] [] [] [] [] [] []]. Qed.
Lemma upper_upper s : str_upper (str_upper s) = str_upper s.
Proof.
  induction s as [|c s IH]; [done|]. unfold str_upper in *. cbn. rewrite IH. f_equal.
  by destruct c as [[] [] [] [] [] [] [] []].
Qed.

(** *** Sorting texts *)
Lemma str_le_trans x y z : sort_le str_lt x y -> sort_le str_lt y z -> sort_le str_lt x z.
Proof.
  unfold sort_le. intros Hxy Hyz. apply not_true_iff_false. intros Hzx.
  destruct (decide (y = z)) as [->|Hne]; [congruence|].
  destruct (str_lt_total y z Hne) as [H|H]; [|congruence]. assert (str_lt y x = true); [|congruence]. by eapply str_lt_trans.
Qed.
Lemma py_sorted_str_perm l l' : l ≡ₚ l' -> py_sorted str_lt l = py_sorted str_lt l'.
Proof.
  intros Hp. apply (StronglySorted_unique_strong (sort_le str_lt)).
  - intros x y _ _ Hxy Hyx. unfold sort_le in *. destruct (decide (x = y)) as [|Hne]; [done|].
    destruct (str_lt_total _ _ Hne); congruence.
  - apply py_sorted_sorted; [intros x y; apply str_lt_asym|intros x y z; apply str_le_trans].
  - apply py_sorted_sorted; [intros x y; apply str_lt_asym|intros x y z; apply str_le_trans].
  - by rewrite !py_sorted_perm.
Qed.
