(* ===== verification/Json.v ===== *)
(** The [json] module on the values the program serialises: [dumps] with its
    separators, [sort_keys] and [ensure_ascii], [loads] on integers, strings of
    code points below 256, lists and dicts.  [loads_dumps] is the round trip;
    [dumps_inj] says that sorted output determines the value up to the order of
    its keys. *)
From stdpp Require Import base strings list pretty numbers.
From Stdlib Require Import Ascii.
From S2P Require Import Prelude PyStr.

(** ** json.dumps *)

Definition dquote : ascii := "034"%char.
Definition backslash : ascii := "092"%char.

Definition hex_digit (n : N) : ascii :=
  ascii_of_N (if (n <? 10)%N then 48 + n else 87 + n).

(** The escapes of [ensure_ascii]. *)
Definition escape_char (c : ascii) : string :=
  let short x := String backslash (String x "") in
  match N_of_ascii c with
  | 34%N => short dquote
  | 92%N => short backslash
  | 8%N => short "b"%char
  | 9%N => short "t"%char
  | 10%N => short "n"%char
  | 12%N => short "f"%char
  | 13%N => short "r"%char
  | n => if between 32 126 c then String c ""
         else String backslash (String "u" (String "0" (String "0"
                (String (hex_digit (n / 16)) (String (hex_digit (n mod 16)) "")))))
  end.

Fixpoint escape (s : string) : string :=
  match s with "" => "" | String c s' => escape_char c ++ escape s' end.

Definition dumps_str (s : string) : string := String dquote (escape s ++ String dquote "").

Record style := { item_separator : string; key_separator : string; sort_keys : bool }.

(** [json.dumps(x)] and [json.dumps(x, sort_keys=True, separators=(",", ":"))] *)
Definition plain : style :=
  {| item_separator := ", "; key_separator := ": "; sort_keys := false |}.
Definition canonical : style :=
  {| item_separator := ","; key_separator := ":"; sort_keys := true |}.

(** [json.dumps(x, separators=(",", ":"), sort_keys=False)] *)
Definition compact : style :=
  {| item_separator := ","; key_separator := ":"; sort_keys := false |}.

(** [sep.join(l)] *)
Fixpoint join (sep : string) (l : list string) : string :=
  match l with
  | [] => ""
  | [x] => x
  | x :: l' => x ++ sep ++ join sep l'
  end.

Definition key_before {A} (x y : string * A) : bool := str_lt x.1 y.1.
Definition in_order {A} (sty : style) (l : list (string * A)) : list (string * A) :=
  if sort_keys sty then py_sorted key_before l else l.

Definition dumps_member (sty : style) (kv : string * string) : string :=
  dumps_str kv.1 ++ key_separator sty ++ kv.2.

Fixpoint dumps (sty : style) (j : json) : string :=
  match j with
  | JNull => "null"
  | JBool true => "true"
  | JBool false => "false"
  | JNum n => pretty n
  | JStr s => dumps_str s
  | JList l => "[" ++ join (item_separator sty) (map (dumps sty) l) ++ "]"
  | JDict d =>
      "{" ++ join (item_separator sty)
               (map (dumps_member sty)
                  (in_order sty (map (fun kv => (kv.1, dumps sty kv.2)) d))) ++ "}"
  end.

(** ** json.loads *)

Definition is_json_space (c : ascii) : bool :=
  match N_of_ascii c with 32%N | 9%N | 10%N | 13%N => true | _ => false end.
Fixpoint skip_space (s : string) : string :=
  match s with
  | "" => ""
  | String c s' => if is_json_space c then skip_space s' else s
  end.

Definition hex_value (c : ascii) : option N :=
  if is_digit c then Some (N_of_ascii c - 48)%N
  else if between 97 102 c then Some (N_of_ascii c - 87)%N
  else if between 65 70 c then Some (N_of_ascii c - 55)%N
  else None.

Definition unescape_short (c : ascii) : option ascii :=
  match N_of_ascii c with
  | 34%N => Some dquote
  | 92%N => Some backslash
  | 47%N => Some "/"%char
  | 98%N => Some "008"%char
  | 116%N => Some "009"%char
  | 110%N => Some "010"%char
  | 102%N => Some "012"%char
  | 114%N => Some "013"%char
  | _ => None
  end.

(** The text of a string literal after its opening quote, and what follows. *)
Fixpoint scan_str (s : string) : option (string * string) :=
  match s with
  | "" => None
  | String c s1 =>
      if (c =? dquote)%char then Some ("", s1)
      else if (c =? backslash)%char then
        match s1 with
        | String "u" (String a (String b (String x (String y s2)))) =>
            match hex_value a, hex_value b, hex_value x, hex_value y with
            | Some 0%N, Some 0%N, Some hx, Some hy =>
                prod_map (String (ascii_of_N (16 * hx + hy))) id <$> scan_str s2
            | _, _, _, _ => None
            end
        | String e s2 =>
            match unescape_short e with
            | Some d => prod_map (String d) id <$> scan_str s2
            | None => None
            end
        | "" => None
        end
      else if (N_of_ascii c <? 32)%N then None
      else prod_map (String c) id <$> scan_str s1
  end.

Fixpoint span_digits (s : string) : string * string :=
  match s with
  | "" => ("", "")
  | String c s' => if is_digit c then prod_map (String c) id (span_digits s') else ("", s)
  end.

(** A fraction or an exponent would make the number a float. *)
Definition float_mark (s : string) : bool :=
  match s with
  | String c _ => (c =? ".")%char || (c =? "e")%char || (c =? "E")%char
  | "" => false
  end.

Definition scan_nat (s : string) : option (N * string) :=
  match s with
  | String "0" s' => if float_mark s' then None else Some (0%N, s')
  | _ => match span_digits s with
         | ("", _) => None
         | (ds, s') => if float_mark s' then None else Some (dec_value ds, s')
         end
  end.

Definition scan_int (s : string) : option (Z * string) :=
  match s with
  | String "-" s' => prod_map (fun n => - Z.of_N n)%Z id <$> scan_nat s'
  | _ => prod_map Z.of_N id <$> scan_nat s
  end.

(** [dict(pairs)] *)
Definition dict_of (pairs : list (string * json)) : list (string * json) :=
  foldl (fun d kv => dict_set kv.1 kv.2 d) [] pairs.

Fixpoint scan_value (fuel : nat) (s : string) : option (json * string) :=
  match fuel with
  | O => None
  | S n =>
      match s with
      | String c r =>
          if (c =? dquote)%char then prod_map JStr id <$> scan_str r
          else if (c =? "[")%char then
            match skip_space r with
            | String "]" r' => Some (JList [], r')
            | r' => prod_map JList id <$> scan_items n r'
            end
          else if (c =? "{")%char then
            match skip_space r with
            | String "}" r' => Some (JDict [], r')
            | r' => prod_map (JDict ∘ dict_of) id <$> scan_members n r'
            end
          else match s with
          | String "n" (String "u" (String "l" (String "l" r'))) => Some (JNull, r')
          | String "t" (String "r" (String "u" (String "e" r'))) => Some (JBool true, r')
          | String "f" (String "a" (String "l" (String "s" (String "e" r')))) =>
              Some (JBool false, r')
          | _ => prod_map JNum id <$> scan_int s
          end
      | "" => None
      end
  end
with scan_items (fuel : nat) (s : string) : option (list json * string) :=
  match fuel with
  | O => None
  | S n =>
      '(v, r) ← scan_value n s;
      match skip_space r with
      | String "," r' => prod_map (cons v) id <$> scan_items n (skip_space r')
      | String "]" r' => Some ([v], r')
      | _ => None
      end
  end
with scan_members (fuel : nat) (s : string) : option (list (string * json) * string) :=
  match fuel with
  | O => None
  | S n =>
      match s with
      | String q r0 =>
          if (q =? dquote)%char then
            '(k, r1) ← scan_str r0;
            match skip_space r1 with
            | String ":" r2 =>
                '(v, r) ← scan_value n (skip_space r2);
                match skip_space r with
                | String "," r' =>
                    prod_map (cons (k, v)) id <$> scan_members n (skip_space r')
                | String "}" r' => Some ([(k, v)], r')
                | _ => None
                end
            | _ => None
            end
          else None
      | "" => None
      end
  end.

(** Every call of the scanner consumes a character, so the length is fuel
    enough; a dict keeps the last of the values of a key. *)
Definition loads (s : string) : option json :=
  '(j, r) ← scan_value (S (2 * String.length s)) (skip_space s);
  match skip_space r with "" => Some j | _ => None end.

(** ** Induction on values *)

Section JsonInd.
Variable P : json -> Prop.
Hypothesis P_null : P JNull.
Hypothesis P_bool : forall b, P (JBool b).
Hypothesis P_num : forall n, P (JNum n).
Hypothesis P_str : forall s, P (JStr s).
Hypothesis P_list : forall l, Forall P l -> P (JList l).
Hypothesis P_dict : forall d, Forall (fun kv => P kv.2) d -> P (JDict d).

Fixpoint json_induction (j : json) : P j.
Proof.
  destruct j as [|b|n|s|l|d]; [exact P_null|exact (P_bool b)|exact (P_num n)|exact (P_str s)| |].
  - apply P_list. induction l as [|y l IH]; [constructor|].
    constructor; [apply json_induction|exact IH].
  - apply P_dict. induction d as [|[k y] l IH]; [constructor|].
    constructor; [apply json_induction|exact IH].
Defined.
End JsonInd.

(** ** Integers *)

Lemma dec_acc_app a s t : dec_acc a (s ++ t) = dec_acc (dec_acc a s) t.
Proof. revert a. induction s as [|c s IH]; intros a; simpl; auto. Qed.

Lemma pretty_digit n : (n < 10)%N ->
  is_digit (pretty_N_char n) = true /\ digit_value (pretty_N_char n) = n /\
  (n <> 0%N -> pretty_N_char n <> "0"%char).
Proof.
  intros Hn. assert (n = 0 ∨ n = 1 ∨ n = 2 ∨ n = 3 ∨ n = 4 ∨ n = 5 ∨ n = 6 ∨ n = 7 ∨ n = 8 ∨ n = 9)%N
    as Hc by lia.
  repeat destruct Hc as [->|Hc]; try subst n; by vm_compute.
Qed.

(** What [pretty] prints in front of its accumulator. *)
Lemma pretty_go_digits x s :
  exists d, pretty_N_go x s = d ++ s /\ str_forall is_digit d = true /\ dec_value d = x /\
    if decide (x = 0)%N then d = "" else exists c d', d = String c d' /\ c <> "0"%char.
Proof.
  revert s. induction (N.lt_wf_0 x) as [x _ IH]; intros s. case_decide as Hx.
  { subst x. exists "". by rewrite pretty_N_go_0. }
  destruct (pretty_digit (x `mod` 10)) as (Hd & Hv & Hz); [by apply N.mod_lt|].
  rewrite pretty_N_go_step by lia.
  destruct (IH (x `div` 10)%N) with (s := String (pretty_N_char (x `mod` 10)) s)
    as (d & -> & Hall & Hval & Hhead); [apply N.div_lt; lia|].
  assert (x = 10 * (x `div` 10) + x `mod` 10)%N as Hdm by (apply N.div_mod; lia).
  exists (d ++ String (pretty_N_char (x `mod` 10)) ""). split_and!.
  - by rewrite str_app_assoc.
  - rewrite str_forall_app, Hall. simpl. by rewrite Hd.
  - unfold dec_value in *. rewrite dec_acc_app, Hval. simpl. rewrite Hv. lia.
  - case_decide as Hq.
    + subst d. eexists _, "". split; [done|]. apply Hz. lia.
    + destruct Hhead as (c & d' & -> & Hc). by eexists c, _.
Qed.

(** What may follow a value in the text of a larger one. *)
Definition ends_value (s : string) : Prop :=
  match s with "" => True | String c _ => c = ","%char \/ c = "]"%char \/ c = "}"%char end.

Lemma ends_value_facts s : ends_value s ->
  float_mark s = false /\ skip_space s = s /\ span_digits s = ("", s).
Proof. destruct s as [|c s]; [done|]. by intros [->|[->| ->]]. Qed.

Lemma span_digits_app d s :
  str_forall is_digit d = true -> span_digits s = ("", s) -> span_digits (d ++ s) = (d, s).
Proof.
  induction d as [|c d IH]; simpl; [done|]. rewrite andb_true_iff. intros [-> Hd] Hs.
  by rewrite IH.
Qed.

Lemma scan_nat_pretty n rest : ends_value rest -> scan_nat (pretty n ++ rest) = Some (n, rest).
Proof.
  intros Hr. destruct (ends_value_facts rest Hr) as (Hf & _ & Hs).
  unfold pretty, pretty_N. case_decide as Hn.
  { subst n. simpl. by rewrite Hf. }
  destruct (pretty_go_digits n "") as (d & -> & Hall & <- & Hhead).
  rewrite decide_False in Hhead by done. destruct Hhead as (c & d' & -> & Hc).
  rewrite str_app_nil_r. pose proof (span_digits_app _ rest Hall Hs) as Hspan.
  unfold scan_nat. rewrite Hspan, Hf. simpl String.append.
  destruct c as [[] [] [] [] [] [] [] []]; done.
Qed.

Lemma scan_int_pretty z rest : ends_value rest -> scan_int (pretty z ++ rest) = Some (z, rest).
Proof.
  intros Hr. destruct z as [|p|p].
  - exact (eq_trans (f_equal (fmap _) (scan_nat_pretty 0 rest Hr)) eq_refl).
  - change (pretty (Z.pos p)) with (pretty (N.pos p)).
    pose proof (scan_nat_pretty (N.pos p) rest Hr) as Hn. unfold scan_int.
    destruct (pretty (N.pos p) ++ rest) as [|c s] eqn:He; [done|].
    rewrite Hn. simpl. destruct c as [[] [] [] [] [] [] [] []]; done.
  - change (pretty (Z.neg p)) with (String "-" (pretty (N.pos p))). simpl.
    by rewrite (scan_nat_pretty (N.pos p) rest Hr).
Qed.

(** ** Strings *)

Lemma scan_str_char c t :
  scan_str (escape_char c ++ t) = prod_map (String c) id <$> scan_str t.
Proof. by destruct c as [[] [] [] [] [] [] [] []]. Qed.

Lemma scan_str_escape s rest :
  scan_str (escape s ++ String dquote rest) = Some (s, rest).
Proof.
  induction s as [|c s IH]; [done|]. simpl. rewrite str_app_assoc, scan_str_char, IH. done.
Qed.

Lemma scan_dumps_str s rest :
  exists r, dumps_str s ++ rest = String dquote r /\ scan_str r = Some (s, rest).
Proof.
  eexists. split; [done|]. rewrite str_app_assoc. simpl. apply scan_str_escape.
Qed.

(** ** The round trip *)

(** A value as [loads] gives it back: keys in the order they were written. *)
Fixpoint normalize (sty : style) (j : json) : json :=
  match j with
  | JList l => JList (map (normalize sty) l)
  | JDict d => JDict (in_order sty (map (fun kv => (kv.1, normalize sty kv.2)) d))
  | _ => j
  end.

(** A dict has one value per key. *)
Fixpoint json_wf (j : json) : bool :=
  match j with
  | JList l => forallb json_wf l
  | JDict d => bool_decide (NoDup (map fst d)) && forallb (fun kv => json_wf kv.2) d
  | _ => true
  end.

Lemma sort_insert_map {A B} (f : A -> B) (ltA : A -> A -> bool) (ltB : B -> B -> bool) x l :
  (forall a b, ltB (f a) (f b) = ltA a b) ->
  sort_insert ltB (f x) (map f l) = map f (sort_insert ltA x l).
Proof.
  intros Hf. induction l as [|y l IH]; simpl; [done|]. rewrite Hf.
  destruct (ltA _ _); simpl; congruence.
Qed.

Lemma py_sorted_map {A B} (f : A -> B) (ltA : A -> A -> bool) (ltB : B -> B -> bool) l :
  (forall a b, ltB (f a) (f b) = ltA a b) ->
  py_sorted ltB (map f l) = map f (py_sorted ltA l).
Proof.
  intros Hf. induction l as [|x l IH]; simpl; [done|].
  by rewrite IH, (sort_insert_map f ltA ltB).
Qed.

Lemma in_order_map {A B} sty (f : A -> B) (l : list (string * A)) :
  in_order sty (map (fun kv => (kv.1, f kv.2)) l)
  = map (fun kv => (kv.1, f kv.2)) (in_order sty l).
Proof. unfold in_order. destruct (sort_keys sty); [|done]. by apply py_sorted_map. Qed.

Lemma in_order_perm {A} sty (l : list (string * A)) : in_order sty l ≡ₚ l.
Proof. unfold in_order. destruct (sort_keys sty); [apply py_sorted_perm|done]. Qed.

Lemma dict_of_snoc l k v : dict_of (l ++ [(k, v)]) = dict_set k v (dict_of l).
Proof. unfold dict_of. by rewrite foldl_app. Qed.

Lemma dict_of_nodup l : NoDup (map fst l) -> dict_of l = l.
Proof.
  induction l as [|[k v] l IH] using rev_ind; [done|]. rewrite map_app. intros Hnd.
  apply list.NoDup_app in Hnd as (Hl & Hk & _). rewrite dict_of_snoc, (IH Hl).
  assert (k ∉ map fst l) as Hk' by (intros Hin; eapply Hk; [exact Hin|apply list_elem_of_here]).
  clear -Hk'. induction l as [|[k' v'] l IH]; simpl; [done|].
  simpl in Hk'. rewrite not_elem_of_cons in Hk'. destruct Hk' as [Hne Hk'].
  rewrite decide_False by done. by rewrite IH.
Qed.

Class SepStyle (sty : style) : Prop := {
  item_sep_ok : exists b, item_separator sty = String "," b /\ (b = "" \/ b = " ");
  key_sep_ok : exists b, key_separator sty = String ":" b /\ (b = "" \/ b = " ")
}.
#[export] Instance plain_sep : SepStyle plain.
Proof. split; eexists; split; [reflexivity|by right|reflexivity|by right]. Qed.
#[export] Instance canonical_sep : SepStyle canonical.
Proof. split; eexists; split; [reflexivity|by left|reflexivity|by left]. Qed.

#[export] Instance compact_sep : SepStyle compact.
Proof. split; eexists; split; [reflexivity|by left|reflexivity|by left]. Qed.

Definition starts_value (s : string) : Prop :=
  exists c r, s = String c r /\ is_json_space c = false /\ c <> "]"%char /\ c <> "}"%char.

Lemma starts_app s t : starts_value s -> starts_value (s ++ t).
Proof. intros (c & r & -> & ?). by exists c, (r ++ t). Qed.

Lemma starts_skip s b : starts_value s -> b = "" \/ b = " " -> skip_space (b ++ s) = s.
Proof. intros (c & r & -> & Hc & _) [->| ->]; simpl; by rewrite Hc. Qed.

Lemma starts_skip_none s : starts_value s -> skip_space s = s.
Proof. intros Hs. apply (starts_skip s ""); [done|by left]. Qed.

Lemma digit_starts d : str_forall is_digit d = true -> d <> "" -> starts_value d.
Proof.
  destruct d as [|c d]; [done|]. simpl. rewrite andb_true_iff. intros [Hc _] _.
  exists c, d. by destruct c as [[] [] [] [] [] [] [] []].
Qed.

Lemma pretty_dec (n : N) : str_forall is_digit (pretty n) = true /\ dec_value (pretty n) = n.
Proof.
  unfold pretty, pretty_N. case_decide as Hn; [by subst n|].
  destruct (pretty_go_digits n "") as (d & -> & Hall & Hd & _). by rewrite str_app_nil_r.
Qed.

Lemma pretty_N_starts (n : N) : starts_value (pretty n).
Proof.
  unfold pretty, pretty_N. case_decide; [by exists "0"%char, ""|].
  destruct (pretty_go_digits n "") as (d & -> & Hall & _ & Hhead).
  rewrite str_app_nil_r. apply digit_starts; [done|].
  rewrite decide_False in Hhead by done. by destruct Hhead as (? & ? & -> & _).
Qed.

Lemma dumps_starts sty j : starts_value (dumps sty j).
Proof.
  destruct j as [|[]|z|s|l|d]; simpl; try (by eexists _, _); [].
  destruct z as [|p|p]; [by eexists _, _|exact (pretty_N_starts (N.pos p))|by eexists _, _].
Qed.

Lemma starts_length s : starts_value s -> (1 <= String.length s)%nat.
Proof. intros (c & r & -> & _). simpl. lia. Qed.

Lemma length_app_str a b : String.length (a ++ b) = (String.length a + String.length b)%nat.
Proof. induction a; simpl; auto. Qed.

Lemma join_starts sep x l : starts_value x -> starts_value (join sep (x :: l)).
Proof. destruct l; [done|]. apply starts_app. Qed.

Lemma join_cons sep x y l : join sep (x :: y :: l) = x ++ sep ++ join sep (y :: l).
Proof. done. Qed.
(** Splitting undoes joining, of texts without the separator. *)
Lemma split_join_char c l : l <> [] -> Forall (no_char c) l -> split_on c (join (String c "") l) = l.
Proof.
  intros Hne Hl. induction Hl as [|x l Hx Hl IH]; [done|]. destruct l as [|y l].
  - by apply split_on_no_char.
  - rewrite join_cons. cbn [String.append]. rewrite split_on_app by done. f_equal. by apply IH.
Qed.

Section RoundTrip.
Context (sty : style) `{HS : !SepStyle sty}.

(** The scanner reads back the text of [j] given twice its length as fuel. *)
Definition scans (j : json) : Prop := forall n rest,
  json_wf j = true -> ends_value rest -> (2 * String.length (dumps sty j) <= n)%nat ->
  scan_value n (dumps sty j ++ rest) = Some (normalize sty j, rest).

Lemma scan_items_dumps x l n rest :
  Forall scans (x :: l) -> forallb json_wf (x :: l) = true ->
  (2 * String.length (join (item_separator sty) (map (dumps sty) (x :: l))) + 1 <= n)%nat ->
  scan_items n (join (item_separator sty) (map (dumps sty) (x :: l)) ++ String "]" rest)
  = Some (map (normalize sty) (x :: l), rest).
Proof.
  destruct (item_sep_ok (sty := sty)) as (b & Hsep & Hb).
  revert x n. induction l as [|y l IH]; intros x n [Hx Hl]%list.Forall_cons;
    intros [Hwx Hwl]%andb_true_iff Hn; pose proof (starts_length _ (dumps_starts sty x));
    destruct n as [|n]; try lia.
  - simpl in Hn |- *. by rewrite Hx by (first [done|lia|by right; left]).
  - specialize (IH y). rewrite !(map_cons _ x), !(map_cons _ y), join_cons, <- !map_cons in *.
    pose proof (starts_app _ (String "]" rest) (join_starts (item_separator sty) (dumps sty y)
      (map (dumps sty) l) (dumps_starts sty y))) as Hstart.
    rewrite <- map_cons in Hstart.
    set (J := join (item_separator sty) (map (dumps sty) (y :: l))) in *.
    rewrite Hsep, !length_app_str in Hn.
    change (String.length (String "," b)) with (S (String.length b)) in Hn.
    rewrite !str_app_assoc, Hsep. simpl.
    rewrite Hx by (first [done|lia|by left]). simpl.
    by rewrite starts_skip, IH by (first [done|lia]).
Qed.

Definition member_text (kv : string * json) : string := dumps_member sty (kv.1, dumps sty kv.2).

#[local] Arguments member_text : simpl never.

Lemma member_starts kv : starts_value (member_text kv).
Proof. by eexists dquote, _. Qed.

(** One member, then whatever follows its value. *)
Lemma scan_member kv n rest :
  scans kv.2 -> json_wf kv.2 = true -> ends_value rest ->
  (2 * String.length (member_text kv) <= n)%nat ->
  exists r0 r1 r2, member_text kv ++ rest = String dquote r0 /\
    scan_str r0 = Some (kv.1, r1) /\ skip_space r1 = String ":" r2 /\
    scan_value n (skip_space r2) = Some (normalize sty kv.2, rest).
Proof.
  intros Hkv Hw Hr Hn. destruct (key_sep_ok (sty := sty)) as (b & Hsep & Hb).
  unfold member_text, dumps_member in *. cbn [fst snd] in *. rewrite !str_app_assoc.
  destruct (scan_dumps_str kv.1 (key_separator sty ++ dumps sty kv.2 ++ rest)) as (r0 & -> & H0).
  rewrite !length_app_str in Hn. rewrite Hsep in H0. simpl in H0.
  eexists r0, _, _. split_and!; [done|exact H0|done|].
  rewrite starts_skip by (first [done|by apply starts_app, dumps_starts]).
  apply Hkv; [done|done|lia].
Qed.

Lemma scan_members_dumps x l n rest :
  Forall (fun kv => scans kv.2) (x :: l) -> forallb (fun kv => json_wf kv.2) (x :: l) = true ->
  (2 * String.length (join (item_separator sty) (map member_text (x :: l))) + 1 <= n)%nat ->
  scan_members n (join (item_separator sty) (map member_text (x :: l)) ++ String "}" rest)
  = Some (map (fun kv => (kv.1, normalize sty kv.2)) (x :: l), rest).
Proof.
  destruct (item_sep_ok (sty := sty)) as (b & Hsep & Hb).
  revert x n. induction l as [|y l IH]; intros x n [Hx Hl]%list.Forall_cons;
    intros [Hwx Hwl]%andb_true_iff Hn; pose proof (starts_length _ (member_starts x));
    destruct n as [|n]; try lia.
  - change (join (item_separator sty) (map member_text [x])) with (member_text x) in *.
    destruct (scan_member x n (String "}" rest) Hx Hwx) as (r0 & r1 & r2 & -> & H0 & H1 & H2);
      [by right; right|lia|].
    cbn. rewrite H0. cbn. rewrite H1. cbn. by rewrite H2.
  - specialize (IH y). rewrite !(map_cons _ x), !(map_cons _ y), join_cons, <- !map_cons in *.
    pose proof (starts_app _ (String "}" rest) (join_starts (item_separator sty) (member_text y)
      (map member_text l) (member_starts y))) as Hstart.
    rewrite <- map_cons in Hstart.
    set (J := join (item_separator sty) (map member_text (y :: l))) in *.
    rewrite Hsep, !length_app_str in Hn.
    change (String.length (String "," b)) with (S (String.length b)) in Hn.
    rewrite !str_app_assoc, Hsep.
    destruct (scan_member x n (String "," b ++ J ++ String "}" rest) Hx Hwx)
      as (r0 & r1 & r2 & -> & H0 & H1 & H2); [by left|lia|].
    cbn [scan_members]. unfold mbind, option_bind. rewrite H0, H1, H2. simpl.
    by rewrite starts_skip, IH by (first [done|lia]).
Qed.

Lemma scan_value_list n r :
  scan_value (S n) (String "[" r) =
  match skip_space r with
  | String "]" r' => Some (JList [], r')
  | r' => prod_map JList id <$> scan_items n r'
  end.
Proof. done. Qed.

Lemma scan_value_dict n r :
  scan_value (S n) (String "{" r) =
  match skip_space r with
  | String "}" r' => Some (JDict [], r')
  | r' => prod_map (JDict ∘ dict_of) id <$> scan_members n r'
  end.
Proof. done. Qed.

Lemma scans_list l : Forall scans l -> scans (JList l).
Proof.
  intros Hl n rest Hw Hr Hn. simpl in Hw.
  change (dumps sty (JList l)) with
    (String "[" (join (item_separator sty) (map (dumps sty) l) ++ "]")) in *.
  simpl in Hn. rewrite length_app_str in Hn. simpl in Hn. destruct n as [|n]; [lia|].
  change (String "[" ?s ++ rest) with (String "[" (s ++ rest)).
  rewrite str_app_assoc, scan_value_list. change ("]" ++ rest) with (String "]" rest).
  destruct l as [|x l]; [done|].
  pose proof (starts_app _ (String "]" rest) (join_starts (item_separator sty) (dumps sty x)
    (map (dumps sty) l) (dumps_starts sty x))) as Hs. rewrite <- map_cons in Hs.
  rewrite (starts_skip_none _ Hs).
  pose proof (scan_items_dumps x l n rest Hl Hw ltac:(lia)) as Hscan.
  destruct Hs as (c & r & He & _ & Hc & _). rewrite He in Hscan |- *.
  destruct c as [[] [] [] [] [] [] [] []]; (done || by rewrite Hscan).
Qed.

Lemma scans_dict d : Forall (fun kv => scans kv.2) d -> scans (JDict d).
Proof.
  intros Hd n rest Hw Hr Hn. apply andb_true_iff in Hw as [Hnd Hw].
  apply bool_decide_eq_true in Hnd.
  assert (dumps sty (JDict d) = String "{"
    (join (item_separator sty) (map member_text (in_order sty d)) ++ "}")) as Hdumps.
  { simpl. rewrite (in_order_map sty (dumps sty)), map_map. done. }
  rewrite Hdumps in *. change (normalize sty (JDict d)) with
    (JDict (in_order sty (map (fun kv => (kv.1, normalize sty kv.2)) d))).
  rewrite in_order_map.
  assert (Forall (fun kv => scans kv.2) (in_order sty d)) as Hd' by (by rewrite in_order_perm).
  assert (forallb (fun kv => json_wf kv.2) (in_order sty d) = true) as Hw'.
  { rewrite forallb_forall in Hw |- *. intros kv Hin. apply Hw.
    apply list_elem_of_In. rewrite <- (in_order_perm sty d). by apply list_elem_of_In. }
  assert (NoDup (map fst (in_order sty d))) as Hnd' by (by rewrite in_order_perm).
  clear Hd Hw Hnd Hdumps. revert Hd' Hw' Hnd' Hn. generalize (in_order sty d).
  clear d. intros d Hd Hw Hnd Hn.
  simpl in Hn. rewrite length_app_str in Hn. simpl in Hn. destruct n as [|n]; [lia|].
  change (String "{" ?s ++ rest) with (String "{" (s ++ rest)).
  rewrite str_app_assoc, scan_value_dict. change ("}" ++ rest) with (String "}" rest).
  destruct d as [|x d]; [done|].
  pose proof (starts_app _ (String "}" rest) (join_starts (item_separator sty) (member_text x)
    (map member_text d) (member_starts x))) as Hs. rewrite <- map_cons in Hs.
  rewrite (starts_skip_none _ Hs).
  pose proof (scan_members_dumps x d n rest Hd Hw ltac:(lia)) as Hscan.
  destruct Hs as (c & r & He & _ & _ & Hc). rewrite He in Hscan |- *.
  assert (dict_of (map (fun kv => (kv.1, normalize sty kv.2)) (x :: d))
    = map (fun kv => (kv.1, normalize sty kv.2)) (x :: d)) as Hdict.
  { apply dict_of_nodup. by rewrite map_map. }
  destruct c as [[] [] [] [] [] [] [] []]; (done || (rewrite Hscan; exact (f_equal (fun k => Some (JDict k, rest)) Hdict))).
Qed.

Lemma scans_all j : scans j.
Proof.
  induction j as [|b|z|s|l Hl|d Hd] using json_induction.
  - intros [|n] rest _ _ Hn; [simpl in Hn; lia|done].
  - intros [|n] rest _ _ Hn; [destruct b; simpl in Hn; lia|by destruct b].
  - intros [|n] rest _ Hr Hn.
    { pose proof (starts_length _ (dumps_starts sty (JNum z))). lia. }
    pose proof (scan_int_pretty z rest Hr) as Hz.
    change (dumps sty (JNum z)) with (pretty z) in *.
    destruct (starts_app _ rest (dumps_starts sty (JNum z))) as (c & r & He & _).
    change (dumps sty (JNum z)) with (pretty z) in He. rewrite He in *.
    cbn [scan_value]. revert Hz.
    destruct c as [[] [] [] [] [] [] [] []]; try (by intros ->); intros Hz.
    all: simpl in Hz; done.
  - intros [|n] rest _ _ Hn; [simpl in Hn; lia|].
    destruct (scan_dumps_str s rest) as (r & He & Hr). simpl dumps. rewrite He. simpl.
    by rewrite Hr.
  - by apply scans_list.
  - by apply scans_dict.
Qed.

Lemma loads_dumps j : json_wf j = true -> loads (dumps sty j) = Some (normalize sty j).
Proof.
  intros Hw. unfold loads. destruct (dumps_starts sty j) as (c & r & He & Hc & _).
  assert (skip_space (dumps sty j) = dumps sty j) as -> by (rewrite He; simpl; by rewrite Hc).
  pose proof (scans_all j (S (2 * String.length (dumps sty j))) "" Hw I ltac:(lia)) as H.
  rewrite str_app_nil_r in H. by rewrite H.
Qed.

(** The text determines the value, up to the order of keys when they are sorted. *)
Lemma dumps_inj j j' :
  json_wf j = true -> json_wf j' = true -> dumps sty j = dumps sty j' ->
  normalize sty j = normalize sty j'.
Proof.
  intros Hj Hj' He. apply loads_dumps in Hj, Hj'. congruence.
Qed.
End RoundTrip.

Lemma normalize_unsorted sty j : sort_keys sty = false -> normalize sty j = j.
Proof.
  intros Hsty.
  induction j as [|b|z|s|l Hl|d Hd] using json_induction; try done; simpl; f_equal.
  - induction Hl as [|x l Hx Hl IH]; simpl; congruence.
  - unfold in_order. rewrite Hsty. induction Hd as [|[k x] l Hx Hl IH]; simpl in *; congruence.
Qed.

Lemma normalize_plain j : normalize plain j = j.
Proof. by apply normalize_unsorted. Qed.

(** *** The text is ASCII *)

Definition is_ascii (c : ascii) : bool := (N_of_ascii c <? 128)%N.

(** The characters of a text that is dumped: no newline among them. *)
Definition printable (c : ascii) : bool := between 32 126 c.

Lemma escape_printable s : str_forall printable (escape s) = true.
Proof.
  induction s as [|c s IH]; [done|]. cbn [escape]. rewrite str_forall_app, IH, andb_true_r.
  by destruct c as [[] [] [] [] [] [] [] []].
Qed.

Lemma join_forall p sep l :
  str_forall p sep = true -> Forall (fun s => str_forall p s = true) l -> str_forall p (join sep l) = true.
Proof.
  intros Hsep. induction 1 as [|x l Hx Hl IH]; [done|]. destruct l as [|y l]; [done|].
  by rewrite join_cons, !str_forall_app, Hx, Hsep, IH.
Qed.

Lemma pretty_N_printable (n : N) : str_forall printable (pretty n) = true.
Proof.
  unfold pretty, pretty_N. case_decide; [done|].
  destruct (pretty_go_digits n "") as (d & -> & Hall & _). rewrite str_app_nil_r.
  apply (str_forall_impl is_digit); [|done]. intros c. by destruct c as [[] [] [] [] [] [] [] []].
Qed.

Lemma dumps_printable sty j :
  str_forall printable (item_separator sty) = true -> str_forall printable (key_separator sty) = true ->
  str_forall printable (dumps sty j) = true.
Proof.
  intros Hi Hk.
  assert (forall s, str_forall printable (dumps_str s) = true) as Hs.
  { intros s. unfold dumps_str. cbn [str_forall]. rewrite str_forall_app, escape_printable. done. }
  induction j as [|[]|z|s|l Hl|d Hd] using json_induction; try done; cbn [dumps].
  - destruct z as [|q|q]; [done|exact (pretty_N_printable (N.pos q))|].
    change (pretty (Z.neg q)) with (String "-" (pretty (N.pos q))).
    cbn [str_forall]. by rewrite pretty_N_printable.
  - apply Hs.
  - rewrite !str_forall_app, join_forall; [done|done|].
    apply list.Forall_fmap. exact Hl.
  - rewrite !str_forall_app, join_forall; [done|done|].
    apply list.Forall_forall. intros x (kv & -> & Hkv)%(list_elem_of_fmap (dumps_member sty)).
    rewrite in_order_perm in Hkv.
    apply (list_elem_of_fmap (fun kv => (kv.1, dumps sty kv.2))) in Hkv as (kv' & -> & Hkv).
    unfold dumps_member. rewrite !str_forall_app, Hs, Hk. simpl.
    rewrite list.Forall_forall in Hd. by apply (Hd kv').
Qed.

Lemma printable_ascii s : str_forall printable s = true -> str_forall is_ascii s = true.
Proof. apply str_forall_impl. intros c. by destruct c as [[] [] [] [] [] [] [] []]. Qed.
Lemma dumps_ascii sty j :
  str_forall printable (item_separator sty) = true -> str_forall printable (key_separator sty) = true ->
  str_forall is_ascii (dumps sty j) = true.
Proof. intros Hi Hk. by apply printable_ascii, dumps_printable. Qed.

(** ** What the text contains *)

(** The keys and strings of a value, at any depth. *)
Fixpoint json_strings (j : json) : list string :=
  match j with
  | JStr s => [s]
  | JList l => concat (map json_strings l)
  | JDict d => concat (map (fun kv => kv.1 :: json_strings kv.2) d)
  | _ => []
  end.

Lemma join_infix sep x l : x ∈ l -> infix x (join sep l).
Proof.
  induction l as [|y l IH]; [by intros ?%elem_of_nil|].
  intros [->|Hx]%elem_of_cons.
  - destruct l; [apply infix_refl|]. apply infix_app_r, infix_refl.
  - destruct l as [|z l]; [by apply elem_of_nil in Hx|].
    rewrite join_cons. by apply infix_app_l, infix_app_l, IH.
Qed.

Lemma string_in_dumps sty s j : s ∈ json_strings j -> infix (escape s) (dumps sty j).
Proof.
  assert (forall s', infix (escape s') (dumps_str s')) as Hstr.
  { intros s'. apply (infix_app_l _ (String dquote "")), infix_app_r, infix_refl. }
  induction j as [|b|z|s0|l Hl|d Hd] using json_induction; simpl; try (by intros ?%elem_of_nil).
  - intros ->%list_elem_of_singleton. apply Hstr.
  - intros (k & Hk & Hs)%elem_of_concat_map. apply (infix_app_l _ "["), infix_app_r.
    rewrite list.Forall_forall in Hl. eapply infix_trans; [by apply (Hl k Hk)|].
    apply join_infix. by apply (list_elem_of_fmap_2 (dumps sty)).
  - intros (kv & Hk & Hs)%elem_of_concat_map. apply (infix_app_l _ "{"), infix_app_r.
    rewrite list.Forall_forall in Hd.
    apply (infix_trans _ (dumps_member sty (kv.1, dumps sty kv.2))).
    + unfold dumps_member. cbn [fst snd]. apply elem_of_cons in Hs as [->|Hs].
      * apply infix_app_r, Hstr.
      * apply infix_app_l, infix_app_l. by apply (Hd kv Hk).
    + apply join_infix, (list_elem_of_fmap_2 (dumps_member sty)).
      rewrite in_order_perm. by apply (list_elem_of_fmap_2 (fun kv => (kv.1, dumps sty kv.2)) d kv).
Qed.

(** Characters that are written as they are. *)
Definition plain_char (c : ascii) : bool :=
  between 32 126 c && negb (c =? dquote)%char && negb (c =? backslash)%char.

Lemma escape_plain s : str_forall plain_char s = true -> escape s = s.
Proof.
  induction s as [|c s IH]; [done|]. cbn [str_forall escape]. rewrite andb_true_iff.
  intros [Hc Hs]. rewrite (IH Hs). destruct c as [[] [] [] [] [] [] [] []]; done.
Qed.

Lemma escape_app a b : escape (a ++ b) = escape a ++ escape b.
Proof. induction a as [|c a IH]; simpl; [done|]. by rewrite str_app_assoc, IH. Qed.

(** Looking for a lower-case word in the text finds it in any string of the
    value. *)
Lemma word_in_dumps sty word s j :
  s ∈ json_strings j -> str_contains word (str_lower s) = true ->
  str_forall (fun c => is_lower c || (c =? "_")%char) word = true ->
  str_contains word (str_lower (dumps sty j)) = true.
Proof.
  rewrite !str_contains_iff. intros Hs (w & (a & b & ->) & Hw)%infix_str_map_inv Hword.
  apply (infix_trans _ (str_lower (escape (a ++ w ++ b)))); [|by apply str_map_infix, string_in_dumps].
  rewrite !escape_app, (escape_plain w).
  - unfold str_lower. rewrite !str_map_app, Hw. apply infix_app_l, infix_app_r, infix_refl.
  - clear -Hw Hword. revert word Hw Hword.
    induction w as [|c w IH]; intros word Hw Hword; [done|]. simpl in Hw. subst word.
    cbn [str_forall] in Hword |- *. apply andb_true_iff in Hword as [Hc Hword].
    rewrite (IH _ eq_refl Hword), andb_true_r.
    destruct c as [[] [] [] [] [] [] [] []]; done.
Qed.
