(* ===== verification/SemVer.v ===== *)
(** Semantic versions: [semver.py] of apexquant-service-versioning.

    The pattern is transcribed twice: as the grammar [semver_grammar], one
    constructor clause per group of the regular expression, and as the
    executable recogniser [SEMVER_PATTERN]; [parse_grammar] shows they agree.
    [compare] is the code's loop; [precedence] is the order it implements. *)
From stdpp Require Import base strings list gmap sorting pretty numbers.
From Stdlib Require Import Ascii.
From S2P Require Import Prelude PyStr.

(** [class SemVerError(ValueError)]: its message. *)
Record SemVerError := mkSemVerError { semver_error_message : string }.

Record SemVer := mkSemVer {
  major : N;
  minor : N;
  patch : N;
  prerelease : option string;
  build : option string
}.

(** The named groups of a match. *)
Record semver_groups := mkGroups {
  g_major : string;
  g_minor : string;
  g_patch : string;
  g_prerelease : option string;
  g_build : option string
}.

(** [0|[1-9]\d*] *)
Definition numeric_ident (s : string) : bool :=
  match s with
  | "" => false
  | String c rest =>
      (s =? "0") || (between 49 57 c && str_forall is_digit rest)
  end.

(** [[0-9A-Za-z-]] *)
Definition ident_char (c : ascii) : bool := is_alnum c || (c =? "-")%char.

(** [[0-9A-Za-z-]+] *)
Definition ident (s : string) : bool := negb (str_empty s) && str_forall ident_char s.

(** [[0-9A-Za-z-]+(?:\.[0-9A-Za-z-]+)*] *)
Definition dotted_idents (s : string) : bool := forallb ident (split_on "." s).

Definition opt_test {A} (p : A -> bool) (o : option A) : bool :=
  match o with Some a => p a | None => true end.

(** The pattern up to its [$]: neither a number nor an identifier holds a
    ["+"], a number holds no ["-"], so the first of each separates. *)
Definition semver_full_match (s : string) : option semver_groups :=
  let '(head, b) :=
    match split_first "+" s with
    | Some (h, b) => (h, Some b)
    | None => (s, None)
    end in
  let '(core, p) :=
    match split_first "-" head with
    | Some (c, p) => (c, Some p)
    | None => (head, None)
    end in
  match split_on "." core with
  | [x; y; z] =>
      if numeric_ident x && numeric_ident y && numeric_ident z
         && opt_test dotted_idents p && opt_test dotted_idents b
      then Some (mkGroups x y z p b) else None
  | _ => None
  end.

(** [SEMVER_PATTERN.match] *)
Definition SEMVER_PATTERN (s : string) : option semver_groups :=
  re_dollar semver_full_match s.

(** [SemVer.parse] *)
Definition parse (value : string) : result SemVerError SemVer :=
  match SEMVER_PATTERN (strip value) with
  | None => Err (mkSemVerError ("invalid semantic version: " ++ value))
  | Some g =>
      Ok {| major := dec_value (g_major g);
            minor := dec_value (g_minor g);
            patch := dec_value (g_patch g);
            prerelease := g_prerelease g;
            build := g_build g |}
  end.

Definition parse_version (value : string) : result SemVerError SemVer := parse value.

Definition is_stable (v : SemVer) : bool :=
  match prerelease v with None => true | Some _ => false end.

Definition numeric_tuple (v : SemVer) : N * N * N := (major v, minor v, patch v).

(** [str | int] *)
Inductive identifier :=
| IdInt (n : N)
| IdStr (s : string).

(** [identifier.isdigit()] *)
Definition isdigit (s : string) : bool := negb (str_empty s) && str_forall is_digit s.

Definition prerelease_identifiers (v : SemVer) : list identifier :=
  match prerelease v with
  | None => []
  | Some p =>
      (fun i => if isdigit i then IdInt (dec_value i) else IdStr i) <$> split_on "." p
  end.

(** [self.numeric_tuple() < other.numeric_tuple()]: tuples compare
    lexicographically. *)
Definition tuple_lt (a b : N * N * N) : bool :=
  let '(a1, a2, a3) := a in
  let '(b1, b2, b3) := b in
  if (a1 =? b1)%N then if (a2 =? b2)%N then (a3 <? b3)%N else (a2 <? b2)%N
  else (a1 <? b1)%N.

(** The body of the loop over the zipped identifiers: [Some] is a [return]. *)
Definition compare_identifier (l r : identifier) : option Z :=
  match l, r with
  | IdInt a, IdInt b =>
      if (a =? b)%N then None else Some (if (a <? b)%N then (-1)%Z else 1%Z)
  | IdInt _, IdStr _ => Some (-1)%Z
  | IdStr _, IdInt _ => Some 1%Z
  | IdStr a, IdStr b =>
      if (a =? b) then None else Some (if str_lt a b then (-1)%Z else 1%Z)
  end.

Fixpoint compare_identifiers (l r : list identifier) : option Z :=
  match l, r with
  | x :: l', y :: r' =>
      match compare_identifier x y with
      | Some z => Some z
      | None => compare_identifiers l' r'
      end
  | _, _ => None
  end.

(** [SemVer.compare] *)
Definition compare (self other : SemVer) : Z :=
  if negb (bool_decide (numeric_tuple self = numeric_tuple other)) then
    if tuple_lt (numeric_tuple self) (numeric_tuple other) then -1 else 1
  else
    match prerelease self, prerelease other with
    | None, None => 0
    | None, Some _ => 1
    | Some _, None => -1
    | Some _, Some _ =>
        let left := prerelease_identifiers self in
        let right := prerelease_identifiers other in
        match compare_identifiers left right with
        | Some z => z
        | None =>
            if (length left =? length right)%nat then 0
            else if (length left <? length right)%nat then -1 else 1
        end
    end%Z.

Definition semver_lt (a b : SemVer) : bool := (compare a b <? 0)%Z.
Definition semver_le (a b : SemVer) : bool := (compare a b <=? 0)%Z.
Definition semver_gt (a b : SemVer) : bool := (compare a b >? 0)%Z.
Definition semver_ge (a b : SemVer) : bool := (compare a b >=? 0)%Z.
Definition semver_eq (a b : SemVer) : bool := (compare a b =? 0)%Z.

Definition is_backward_compatible (candidate minimum : string) : result SemVerError bool :=
  candidate_version ← parse candidate;
  minimum_version ← parse minimum;
  Ok (if negb (is_stable candidate_version) then false
      else if (major candidate_version =? 0)%N || (major minimum_version =? 0)%N then
        (major candidate_version =? major minimum_version)%N
        && (minor candidate_version =? minor minimum_version)%N
        && semver_ge candidate_version minimum_version
      else
        (major candidate_version =? major minimum_version)%N
        && semver_ge candidate_version minimum_version).

(** [sorted] evaluates the key of every element first. *)
Definition keyed (v : string) : result SemVerError (SemVer * string) :=
  k ← parse v; Ok (k, v).

Definition key_lt (a b : SemVer * string) : bool := semver_lt a.1 b.1.

Definition highest_compatible (candidates : list string) (minimum : string)
    : result SemVerError (option string) :=
  compatible ← filter_result (fun c => is_backward_compatible c minimum) candidates;
  match compatible with
  | [] => Ok None
  | _ =>
      keys ← map_result keyed compatible;
      Ok (snd <$> head (py_sorted_rev key_lt keys))
  end.

(** ** The grammar of the pattern, and the order the comparison implements *)

(** [prefix + text] when the optional group took part in the match *)
Definition opt_group (prefix : string) (o : option string) : string :=
  match o with Some t => prefix ++ t | None => "" end.

Inductive dotted : string -> Prop :=
| dotted_one s : ident s = true -> dotted s
| dotted_more s t : ident s = true -> dotted t -> dotted (s ++ "." ++ t).

Inductive semver_grammar : string -> semver_groups -> Prop :=
| semver_grammar_intro x y z p b :
    numeric_ident x = true -> numeric_ident y = true -> numeric_ident z = true ->
    (forall t, p = Some t -> dotted t) ->
    (forall t, b = Some t -> dotted t) ->
    semver_grammar
      (x ++ "." ++ y ++ "." ++ z ++ opt_group "-" p ++ opt_group "+" b)
      (mkGroups x y z p b).

(** Numeric identifiers are below alphanumeric ones. *)
Definition cmp_identifier (l r : identifier) : comparison :=
  match l, r with
  | IdInt a, IdInt b => N.compare a b
  | IdInt _, IdStr _ => Lt
  | IdStr _, IdInt _ => Gt
  | IdStr a, IdStr b => String.compare a b
  end.

(** Precedence of semantic versions: the numbers, then a pre-release below its
    release, then the identifiers; build metadata plays no part. *)
Definition precedence_key (v : SemVer) : (N * N * N) * option (list identifier) :=
  (numeric_tuple v, (fun _ => prerelease_identifiers v) <$> prerelease v).

Definition precedence : SemVer -> SemVer -> comparison :=
  cmp_by precedence_key
    (cmp_pair (cmp_pair (cmp_pair N.compare N.compare) N.compare)
              (cmp_none_top (cmp_list cmp_identifier))).

Definition cmp_to_Z (c : comparison) : Z :=
  match c with Lt => -1 | Eq => 0 | Gt => 1 end.

(** ** Lemmas *)

#[export] Instance cmp_string_laws : CmpLaws String.compare.
Proof.
  split.
  - intros x y. apply String.compare_antisym.
  - intros x y z ->%String.compare_eq_iff. done.
  - intros x y z Hxy Hyz.
    assert (str_lt x z = true) as Hxz.
    { apply str_lt_trans with y; unfold str_lt; by rewrite ?Hxy, ?Hyz. }
    unfold str_lt in Hxz. by destruct (x ?= z)%string.
Qed.

#[export] Instance cmp_identifier_laws : CmpLaws cmp_identifier.
Proof.
  split.
  - intros [a|a] [b|b]; simpl; try done; apply cmp_antisym.
  - intros [a|a] [b|b] [c|c]; simpl; try done; apply cmp_eq_l.
  - intros [a|a] [b|b] [c|c]; simpl; try done; apply cmp_lt_trans.
Qed.

#[export] Instance precedence_laws : CmpLaws precedence.
Proof. unfold precedence. apply _. Qed.

Lemma compare_identifier_cmp l r :
  compare_identifier l r =
  match cmp_identifier l r with Eq => None | c => Some (cmp_to_Z c) end.
Proof.
  destruct l as [a|a], r as [b|b]; simpl; try done.
  - destruct (N.compare_spec a b) as [->|H|H].
    + by rewrite N.eqb_refl.
    + rewrite (proj2 (N.eqb_neq _ _)), (proj2 (N.ltb_lt _ _)) by lia. done.
    + rewrite (proj2 (N.eqb_neq _ _)), (proj2 (N.ltb_ge _ _)) by lia. done.
  - unfold str_lt. destruct (String.eqb_spec a b) as [->|Hab].
    + by rewrite str_compare_refl.
    + destruct (a ?= b)%string eqn:Hc; try done.
      by apply String.compare_eq_iff in Hc.
Qed.

Lemma compare_identifiers_cmp l r :
  match compare_identifiers l r with
  | Some z => z
  | None =>
      if (length l =? length r)%nat then 0%Z
      else if (length l <? length r)%nat then (-1)%Z else 1%Z
  end = cmp_to_Z (cmp_list cmp_identifier l r).
Proof.
  revert r; induction l as [|x l IH]; intros [|y r]; simpl; try done.
  rewrite compare_identifier_cmp. by destruct (cmp_identifier x y).
Qed.

Lemma tuple_lt_cmp a b :
  (if negb (bool_decide (a = b)) then if tuple_lt a b then -1 else 1 else 0)%Z =
  cmp_to_Z (cmp_pair (cmp_pair N.compare N.compare) N.compare a b).
Proof.
  destruct a as [[a1 a2] a3], b as [[b1 b2] b3].
  unfold cmp_pair; simpl.
  destruct (N.compare_spec a1 b1) as [->|H1|H1];
    [destruct (N.compare_spec a2 b2) as [->|H2|H2];
      [destruct (N.compare_spec a3 b3) as [->|H3|H3]|..]|..];
    [by rewrite bool_decide_eq_true_2|..];
    (rewrite bool_decide_eq_false_2 by (intros [=]; lia)); simpl;
    rewrite ?N.eqb_refl; repeat case_match; try done;
    rewrite ?N.eqb_eq, ?N.eqb_neq, ?N.ltb_lt, ?N.ltb_ge in *; lia.
Qed.

Lemma compare_precedence_aux a b : compare a b = cmp_to_Z (precedence a b).
Proof.
  unfold compare, precedence, cmp_by, precedence_key.
  pose proof (tuple_lt_cmp (numeric_tuple a) (numeric_tuple b)) as Ht.
  set (c := cmp_pair (cmp_pair N.compare N.compare) N.compare) in *.
  unfold cmp_pair; cbn [fst snd].
  destruct (c (numeric_tuple a) (numeric_tuple b)) eqn:Hc;
    destruct (negb (bool_decide (numeric_tuple a = numeric_tuple b)));
    try done; try (by destruct (tuple_lt (numeric_tuple a) (numeric_tuple b))).
  clear Ht. destruct (prerelease a), (prerelease b); simpl; try done.
  apply compare_identifiers_cmp.
Qed.

Lemma cmp_to_Z_neg c : cmp_to_Z (CompOpp c) = (- cmp_to_Z c)%Z.
Proof. by destruct c. Qed.

Lemma compare_le_trans a b c :
  (compare a b <= 0)%Z -> (compare b c <= 0)%Z -> (compare a c <= 0)%Z.
Proof.
  rewrite !compare_precedence_aux. intros Hab Hbc.
  assert (precedence a c <> Gt).
  { apply (cmp_le_trans precedence a b c).
    - by destruct (precedence a b).
    - by destruct (precedence b c). }
  by destruct (precedence a c).
Qed.

Lemma compare_opp a b : compare b a = (- compare a b)%Z.
Proof. by rewrite !compare_precedence_aux, (cmp_antisym a b), cmp_to_Z_neg. Qed.

Lemma compare_refl a : compare a a = 0%Z.
Proof. by rewrite compare_precedence_aux, (cmp_refl precedence). Qed.

Lemma semver_ge_trans a b c :
  semver_ge a b = true -> semver_ge b c = true -> semver_ge a c = true.
Proof.
  unfold semver_ge. rewrite !Z.geb_le.
  pose proof (compare_opp a b). pose proof (compare_opp b c).
  pose proof (compare_opp a c). intros Hab Hbc.
  assert (compare c a <= 0)%Z by (apply compare_le_trans with b; lia). lia.
Qed.

(** [key_lt] is a strict weak order, so sorting by it is meaningful. *)
Lemma key_lt_asym x y : key_lt x y = true -> key_lt y x = false.
Proof.
  unfold key_lt, semver_lt. rewrite Z.ltb_lt, Z.ltb_ge.
  pose proof (compare_opp x.1 y.1). lia.
Qed.

Lemma key_le_trans x y z :
  sort_le key_lt x y -> sort_le key_lt y z -> sort_le key_lt x z.
Proof.
  unfold sort_le, key_lt, semver_lt. rewrite !Z.ltb_ge. intros Hxy Hyz.
  pose proof (compare_opp x.1 y.1). pose proof (compare_opp y.1 z.1).
  pose proof (compare_opp x.1 z.1).
  assert (compare x.1 z.1 <= 0)%Z by (apply compare_le_trans with y.1; lia). lia.
Qed.

(** Characters of the parts of a version. *)
Lemma numeric_ident_digits s : numeric_ident s = true -> str_forall is_digit s = true.
Proof.
  destruct s as [|c s]; [done|]. unfold numeric_ident. rewrite orb_true_iff.
  intros [->%String.eqb_eq|[Hc Hs]%andb_true_iff]; [done|]. simpl. rewrite Hs.
  unfold is_digit, between in *. rewrite !andb_true_iff, !N.leb_le in *. lia.
Qed.

Lemma ident_chars s : ident s = true -> str_forall ident_char s = true.
Proof. unfold ident. by intros [_ ?]%andb_true_iff. Qed.

Lemma numeric_ident_no_char c s :
  is_digit c = false -> numeric_ident s = true -> no_char c s.
Proof. intros Hc Hs. by eapply no_char_forall, numeric_ident_digits. Qed.

Lemma dotted_iff s : dotted s <-> dotted_idents s = true.
Proof.
  unfold dotted_idents. split.
  - induction 1 as [s Hs|s t Hs Ht IH].
    + rewrite split_on_no_char; simpl; [by rewrite Hs|].
      by eapply no_char_forall, ident_chars.
    + change ("." ++ t) with (String "." t). rewrite split_on_app.
      * simpl. by rewrite Hs, IH.
      * by eapply no_char_forall, ident_chars.
  - remember (split_on "." s) as l eqn:Hl. revert s Hl.
    induction l as [|h l IH]; intros s Hl; [by destruct (split_on_nonempty "." s)|].
    symmetry in Hl. apply split_on_cons in Hl as [Hh Hl]. simpl.
    rewrite andb_true_iff. intros [Hi Hr]. destruct l as [|h' l].
    + subst s. by apply dotted_one.
    + destruct Hl as (s' & -> & Hs'). change (String "." s') with ("." ++ s').
      apply dotted_more; [done|]. by apply IH.
Qed.

Lemma dotted_no_plus s : dotted s -> no_char "+" s.
Proof.
  induction 1 as [s Hs|s t Hs Ht IH].
  - by eapply no_char_forall, ident_chars.
  - rewrite !no_char_app. split_and!; [by eapply no_char_forall, ident_chars|done|done].
Qed.

Lemma full_match_sound s g : semver_full_match s = Some g -> semver_grammar s g.
Proof.
  unfold semver_full_match. intros H.
  destruct (match split_first "+" s with
            | Some (h, b) => (h, Some b) | None => (s, None) end) as [hd b] eqn:Hb.
  destruct (match split_first "-" hd with
            | Some (c, p) => (c, Some p) | None => (hd, None) end) as [core p] eqn:Hp.
  destruct (split_on "." core) as [|x [|y [|z [|]]]] eqn:Hcore; try done.
  destruct (_ && _) eqn:Hall in H; [|done]. injection H as <-.
  apply andb_true_iff in Hall as [[[[Hx Hy]%andb_true_iff Hz]%andb_true_iff Hpre]%andb_true_iff Hbd].
  assert (core = x ++ "." ++ y ++ "." ++ z) as ->.
  { apply split_on_cons in Hcore as (_ & r1 & -> & Hr1).
    apply split_on_cons in Hr1 as (_ & r2 & -> & Hr2).
    by apply split_on_cons in Hr2 as (_ & ->). }
  assert (hd = (x ++ "." ++ y ++ "." ++ z) ++ opt_group "-" p) as ->.
  { destruct (split_first "-" hd) as [[c q]|] eqn:Hs; injection Hp as -> <-.
    - by apply split_first_Some in Hs as [-> _].
    - simpl. by rewrite str_app_nil_r. }
  assert (s = ((x ++ "." ++ y ++ "." ++ z) ++ opt_group "-" p) ++ opt_group "+" b) as ->.
  { destruct (split_first "+" s) as [[c q]|] eqn:Hs; injection Hb as -> <-.
    - by apply split_first_Some in Hs as [-> _].
    - simpl. by rewrite str_app_nil_r. }
  rewrite !str_app_assoc. constructor; try done.
  - intros t ->. by apply dotted_iff.
  - intros t ->. by apply dotted_iff.
Qed.

Lemma full_match_complete s g : semver_grammar s g -> semver_full_match s = Some g.
Proof.
  intros [x y z p b Hx Hy Hz Hp Hb]. unfold semver_full_match.
  set (core := x ++ "." ++ y ++ "." ++ z).
  assert (Hcore : forall c, is_digit c = false -> c <> "."%char -> no_char c core).
  { intros c Hc Hdot. unfold core. change "." with (String "." "").
    rewrite !no_char_app, !no_char_cons.
    split_and!; try done; try by apply numeric_ident_no_char. }
  assert (Hhead : no_char "+" (core ++ opt_group "-" p)).
  { rewrite no_char_app. split; [by apply Hcore|]. destruct p as [t|]; [|done].
    simpl. apply no_char_cons. split; [done|]. by apply dotted_no_plus, Hp. }
  replace (x ++ "." ++ y ++ "." ++ z ++ opt_group "-" p ++ opt_group "+" b)
    with ((core ++ opt_group "-" p) ++ opt_group "+" b)
    by (unfold core; by rewrite !str_app_assoc).
  assert (Hplus : match split_first "+" ((core ++ opt_group "-" p) ++ opt_group "+" b) with
                  | Some (h, b) => (h, Some b)
                  | None => ((core ++ opt_group "-" p) ++ opt_group "+" b, None)
                  end = (core ++ opt_group "-" p, b)).
  { destruct b as [t|].
    - by rewrite (proj2 (split_first_Some _ _ (core ++ opt_group "-" p) t)).
    - cbn [opt_group]. rewrite str_app_nil_r. by rewrite (proj2 (split_first_None _ _)). }
  rewrite Hplus. clear Hplus.
  assert (Hdash : match split_first "-" (core ++ opt_group "-" p) with
                  | Some (c, q) => (c, Some q)
                  | None => (core ++ opt_group "-" p, None)
                  end = (core, p)).
  { destruct p as [t|].
    - by rewrite (proj2 (split_first_Some _ _ core t)) by (split; [done|by apply Hcore]).
    - cbn [opt_group]. rewrite str_app_nil_r.
      by rewrite (proj2 (split_first_None _ _)) by (by apply Hcore). }
  rewrite Hdash. clear Hdash.
  assert (split_on "." core = [x; y; z]) as ->.
  { unfold core. change ("." ++ y ++ "." ++ z) with (String "." (y ++ String "." z)).
    rewrite !split_on_app, split_on_no_char; try done;
      by apply numeric_ident_no_char. }
  rewrite Hx, Hy, Hz. simpl.
  assert (opt_test dotted_idents p = true) as ->
    by (destruct p; simpl; [apply dotted_iff; by apply Hp|done]).
  assert (opt_test dotted_idents b = true) as ->
    by (destruct b; simpl; [apply dotted_iff; by apply Hb|done]).
  done.
Qed.

Definition groups_value (g : semver_groups) : SemVer :=
  mkSemVer (dec_value (g_major g)) (dec_value (g_minor g)) (dec_value (g_patch g))
    (g_prerelease g) (g_build g).

Lemma parse_Ok_iff value v :
  parse value = Ok v <-> exists g, semver_grammar (strip value) g /\ v = groups_value g.
Proof.
  unfold parse, SEMVER_PATTERN. rewrite re_dollar_strip. split.
  - destruct (semver_full_match (strip value)) as [g|] eqn:Hm; [|done].
    intros [= <-]. exists g. split; [by apply full_match_sound|done].
  - intros (g & Hg & ->). by rewrite (full_match_complete _ _ Hg).
Qed.
Example parse_ex : parse " 1.20.3-rc.1+b-7 " = Ok (mkSemVer 1 20 3 (Some "rc.1") (Some "b-7")).
Proof. vm_compute. reflexivity. Qed.
Example highest_ex :
  highest_compatible ["1.2.0"; "1.10.0"; "2.0.0"; "1.11.0-rc.1"; "1.3.0"] "1.2.0" = Ok (Some "1.10.0").
Proof. vm_compute. reflexivity. Qed.

Lemma key_sorted_rev_head x l l' :
  py_sorted_rev key_lt l = x :: l' -> x ∈ l /\ forall y, y ∈ l -> sort_le key_lt y x.
Proof. apply py_sorted_rev_head; [apply key_lt_asym|apply key_le_trans]. Qed.

Lemma is_backward_compatible_inv c m :
  is_backward_compatible c m = Ok true ->
  exists cv mv, parse c = Ok cv /\ parse m = Ok mv /\ is_stable cv = true /\
    major cv = major mv /\ semver_ge cv mv = true /\
    (major cv = 0%N -> minor cv = minor mv).
Proof.
  unfold is_backward_compatible, mbind, result_bind.
  destruct (parse c) as [cv|]; [|done]. destruct (parse m) as [mv|]; [|done].
  intros [= H]. exists cv, mv. destruct (is_stable cv); [|done]. simpl in H.
  destruct (N.eqb_spec (major cv) 0) as [H0|H0]; simpl in H.
  - rewrite !andb_true_iff, !N.eqb_eq in H. naive_solver.
  - destruct (major mv =? 0)%N; rewrite !andb_true_iff, ?N.eqb_eq in H;
      naive_solver.
Qed.

Lemma is_backward_compatible_intro c m cv mv :
  parse c = Ok cv -> parse m = Ok mv -> is_stable cv = true ->
  major cv = major mv -> semver_ge cv mv = true ->
  (major cv = 0%N -> minor cv = minor mv) ->
  is_backward_compatible c m = Ok true.
Proof.
  unfold is_backward_compatible, mbind, result_bind. intros -> -> -> Hmaj -> Hmin.
  simpl. rewrite <- Hmaj. destruct (N.eqb_spec (major cv) 0) as [H0|H0]; simpl.
  - by rewrite N.eqb_refl, (Hmin H0), N.eqb_refl.
  - by rewrite N.eqb_refl.
Qed.

Lemma highest_compatible_unfold cs m r :
  highest_compatible cs m = Ok r ->
  exists compatible, filter_result (fun c => is_backward_compatible c m) cs = Ok compatible /\
    match r with
    | None => compatible = []
    | Some v => exists keys sv l', map_result keyed compatible = Ok keys /\
        py_sorted_rev key_lt keys = (sv, v) :: l'
    end.
Proof.
  unfold highest_compatible, mbind at 1, result_bind at 1.
  destruct (filter_result _ cs) as [[|c l]|] eqn:Hf; [| |done].
  - intros [= <-]. eauto.
  - set (compatible := c :: l) in *. unfold mbind, result_bind.
    destruct (map_result keyed compatible) as [keys|] eqn:Hk; [|done].
    intros [= <-]. exists compatible. split; [done|].
    destruct (py_sorted_rev key_lt keys) as [|[sv v] l'] eqn:Hs; simpl; [|eauto 10].
    exfalso. apply map_result_ok in Hk.
    pose proof (py_sorted_rev_perm key_lt keys) as Hp. rewrite Hs in Hp.
    apply Permutation_nil in Hp. subst keys. inversion Hk.
Qed.

Lemma keyed_elem compatible keys c :
  map_result keyed compatible = Ok keys -> c ∈ compatible ->
  exists sv, parse c = Ok sv /\ (sv, c) ∈ keys.
Proof.
  rewrite map_result_ok. induction 1 as [|x [sv y] l k Hx _ IH]; [set_solver|].
  unfold keyed, mbind, result_bind in Hx. destruct (parse x) as [kx|] eqn:Hp; [|done].
  injection Hx as <- <-. intros [->|Hc]%elem_of_cons.
  - exists kx. split; [done|left].
  - destruct (IH Hc) as (sv' & ? & ?). exists sv'. split; [done|by right].
Qed.

Lemma keyed_elem_inv compatible keys sv c :
  map_result keyed compatible = Ok keys -> (sv, c) ∈ keys ->
  c ∈ compatible /\ parse c = Ok sv.
Proof.
  rewrite map_result_ok. induction 1 as [|x [sv' y] l k Hx _ IH]; [set_solver|].
  unfold keyed, mbind, result_bind in Hx. destruct (parse x) as [kx|] eqn:Hp; [|done].
  injection Hx as <- <-. intros [[= -> ->]|Hc]%elem_of_cons.
  - split; [left|done].
  - destruct (IH Hc). split; [by right|done].
Qed.

(** The candidate found is one of the compatible ones, and none is found only
    when there is none. *)
Lemma highest_compatible_some cs m best :
  highest_compatible cs m = Ok (Some best) -> best ∈ cs /\ is_backward_compatible best m = Ok true.
Proof.
  intros (compatible & Hf & keys & sv & l' & Hk & Hs)%highest_compatible_unfold.
  apply key_sorted_rev_head in Hs as [Hbest _].
  destruct (keyed_elem_inv _ _ _ _ Hk Hbest) as [Hbin _].
  by apply (filter_result_ok _ _ _ Hf).
Qed.

Lemma highest_compatible_none cs m c :
  highest_compatible cs m = Ok None -> c ∈ cs -> is_backward_compatible c m <> Ok true.
Proof.
  intros (compatible & Hf & ->)%highest_compatible_unfold Hc Hb.
  apply (not_elem_of_nil c), (filter_result_ok _ _ _ Hf). done.
Qed.

Lemma is_backward_compatible_total c m :
  is_ok (parse c) = true -> is_ok (parse m) = true ->
  exists b, is_backward_compatible c m = Ok b.
Proof.
  unfold is_backward_compatible, mbind, result_bind.
  destruct (parse c), (parse m); try done. eauto.
Qed.

Lemma highest_compatible_total candidates minimum :
  Forall (fun c => is_ok (parse c) = true) candidates ->
  is_ok (parse minimum) = true ->
  exists r, highest_compatible candidates minimum = Ok r.
Proof.
  rewrite list.Forall_forall. intros Hall Hmin.
  destruct (filter_result_total (fun c => is_backward_compatible c minimum) candidates)
    as [compatible Hf].
  { intros c Hc. apply is_backward_compatible_total; auto. }
  destruct (map_result_total keyed compatible) as [keys Hk].
  { intros c Hc. apply (filter_result_ok _ _ _ Hf) in Hc as [Hc _].
    specialize (Hall c Hc). unfold keyed, mbind, result_bind.
    destruct (parse c); [eauto|done]. }
  unfold highest_compatible, mbind, result_bind. rewrite Hf.
  destruct compatible; [eauto|]. rewrite Hk. eauto.
Qed.

(** ** Properties *)

(** Parsing accepts exactly the texts whose stripped form the pattern
    describes, and returns the values of the pattern's groups. *)
Theorem parse_recognises_pattern value v :
  parse value = Ok v <->
  exists g, semver_grammar (strip value) g /\
    v = mkSemVer (dec_value (g_major g)) (dec_value (g_minor g)) (dec_value (g_patch g))
          (g_prerelease g) (g_build g).
Proof. apply parse_Ok_iff. Qed.

(** The comparison loop computes semantic-version precedence: the three
    numbers, then pre-release below release, then the identifiers one by one
    (numeric below alphanumeric, a longer list above its prefix). *)
Theorem compare_is_precedence a b : compare a b = cmp_to_Z (precedence a b).
Proof. apply compare_precedence_aux. Qed.

(** The comparison is a total preorder: swapping the operands negates it,
    it is transitive, and it is 0 exactly on versions that agree on the numbers
    and on the pre-release identifiers. *)
Theorem compare_total_preorder a b c :
  compare b a = (- compare a b)%Z /\
  ((compare a b <= 0)%Z -> (compare b c <= 0)%Z -> (compare a c <= 0)%Z) /\
  (compare a b = 0%Z <-> precedence_key a = precedence_key b).
Proof.
  split; [apply compare_opp|]. split; [apply compare_le_trans|].
  rewrite compare_precedence_aux. unfold precedence, cmp_by. split.
  - destruct (precedence_key a) as [[[a1 a2] a3] ao], (precedence_key b) as [[[b1 b2] b3] bo].
    unfold cmp_pair; simpl.
    destruct (N.compare_spec a1 b1) as [->|H1|H1]; try done.
    destruct (N.compare_spec a2 b2) as [->|H2|H2]; try done.
    destruct (N.compare_spec a3 b3) as [->|H3|H3]; try done.
    destruct ao as [l|], bo as [k|]; simpl; try done. intros Hlk.
    do 2 f_equal. revert k Hlk. induction l as [|x l IH]; intros [|y k]; simpl; try done.
    destruct (cmp_identifier x y) eqn:Hxy; try done. intros Hlk.
    rewrite (IH _ Hlk). f_equal. destruct x, y; simpl in Hxy; try done.
    + by apply N.compare_eq in Hxy as ->.
    + by apply String.compare_eq_iff in Hxy as ->.
  - intros ->. by rewrite (cmp_refl _).
Qed.

Lemma compare_total_preorder_witness :
  let v1 := mkSemVer 1 0 0 (Some "rc.1") None in
  let v2 := mkSemVer 1 0 0 None None in
  let v3 := mkSemVer 1 2 0 None None in
  (compare v1 v2 <= 0)%Z /\ (compare v2 v3 <= 0)%Z /\ (compare v1 v3 <= 0)%Z.
Proof.
  split; [vm_compute; discriminate|]. split; [vm_compute; discriminate|].
  apply (compare_total_preorder (mkSemVer 1 0 0 (Some "rc.1") None)
    (mkSemVer 1 0 0 None None) (mkSemVer 1 2 0 None None)); vm_compute; discriminate.
Defined.

(** Backward compatibility composes: a version compatible with one that is
    compatible with a minimum is compatible with that minimum. *)
Theorem is_backward_compatible_trans a b c :
  is_backward_compatible a b = Ok true ->
  is_backward_compatible b c = Ok true ->
  is_backward_compatible a c = Ok true.
Proof.
  intros (av & bv & Ha & Hb & Hs & Hm & Hge & Hmin)%is_backward_compatible_inv.
  intros (bv' & cv & Hb' & Hc & _ & Hm' & Hge' & Hmin')%is_backward_compatible_inv.
  rewrite Hb in Hb'. injection Hb' as <-.
  apply (is_backward_compatible_intro a c av cv); try done; [congruence| |].
  - by apply semver_ge_trans with bv.
  - intros H0. rewrite (Hmin H0). apply Hmin'. congruence.
Qed.

Lemma is_backward_compatible_trans_witness :
  is_backward_compatible "1.4.0" "1.2.3" = Ok true.
Proof.
  apply (is_backward_compatible_trans "1.4.0" "1.3.0" "1.2.3"); vm_compute; reflexivity.
Defined.

(** When all versions parse, the selection returns: [None] exactly when no
    candidate is compatible, and otherwise a compatible candidate that no other
    compatible candidate exceeds. *)
Theorem highest_compatible_correct candidates minimum :
  Forall (fun c => is_ok (parse c) = true) candidates ->
  is_ok (parse minimum) = true ->
  exists r, highest_compatible candidates minimum = Ok r /\
    match r with
    | None => forall c, c ∈ candidates -> is_backward_compatible c minimum = Ok false
    | Some best =>
        best ∈ candidates /\ is_backward_compatible best minimum = Ok true /\
        forall c cv bv, c ∈ candidates -> is_backward_compatible c minimum = Ok true ->
          parse c = Ok cv -> parse best = Ok bv -> semver_le cv bv = true
    end.
Proof.
  intros Hall Hmin.
  destruct (highest_compatible_total candidates minimum Hall Hmin) as [r Hr].
  exists r. split; [done|].
  apply highest_compatible_unfold in Hr as (compatible & Hf & Hr).
  pose proof (filter_result_ok _ _ _ Hf) as Hin. destruct r as [best|].
  - destruct Hr as (keys & sv & l' & Hk & Hs).
    apply key_sorted_rev_head in Hs as [Hbest Hmax].
    destruct (keyed_elem_inv _ _ _ _ Hk Hbest) as [Hbin Hbp]. apply Hin in Hbin as [? ?].
    split_and!; [done|done|]. intros c cv bv Hc Hcc Hcp Hbp'.
    assert (bv = sv) as -> by congruence.
    destruct (keyed_elem _ _ c Hk) as (cv' & Hcp' & Hck); [by apply Hin|].
    assert (cv' = cv) as -> by congruence.
    specialize (Hmax _ Hck). unfold sort_le, key_lt, semver_lt in Hmax. simpl in Hmax.
    unfold semver_le. rewrite Z.leb_le. rewrite Z.ltb_ge in Hmax.
    pose proof (compare_opp sv cv). lia.
  - subst compatible. intros c Hc.
    destruct (is_backward_compatible_total c minimum) as [[|] Hb]; [|done|exfalso|done].
    + rewrite list.Forall_forall in Hall. by apply Hall.
    + apply (not_elem_of_nil c), Hin. done.
Qed.

Lemma highest_compatible_correct_witness :
  exists r, highest_compatible ["1.2.0"; "1.10.0"; "2.0.0"] "1.2.0" = Ok r /\ r = Some "1.10.0".
Proof.
  destruct (highest_compatible_correct ["1.2.0"; "1.10.0"; "2.0.0"] "1.2.0") as (r & Hr & _).
  - repeat constructor.
  - reflexivity.
  - exists r. split; [exact Hr|]. vm_compute in Hr. by injection Hr as <-.
Defined.
