(* ===== verification/Versioning.v ===== *)
(** Service versioning: [models.py], [errors.py] and [service.py] of
    apexquant-service-versioning.

    [VersioningService] holds a repository given as [Any]; the class
    [VersionRepository] is the protocol it uses, and the service is a set of
    state-and-exception computations over any instance of it.  The instances
    ([InMemoryRepository] and [PostgresRepository]) are in VersioningStore. *)
From stdpp Require Import base strings list gmap sorting pretty numbers.
From S2P Require Import Prelude PyStr SemVer.

(** ** models.py *)

Inductive LifecycleStatus := DRAFT | RELEASED | DEPRECATED | RETIRED.
#[export] Instance LifecycleStatus_eq_dec : EqDecision LifecycleStatus.
Proof. solve_decision. Defined.

(** [status.value] *)
Definition status_value (s : LifecycleStatus) : string :=
  match s with
  | DRAFT => "DRAFT" | RELEASED => "RELEASED"
  | DEPRECATED => "DEPRECATED" | RETIRED => "RETIRED"
  end.

Record ServiceCreate := {
  sc_service_name : string;
  sc_plane : string;
  sc_description : string
}.

(** A row of the services store. *)
Record ServiceInfo := {
  si_service_name : string;
  si_plane : string;
  si_description : string;
  si_created_at : Z;
  si_updated_at : Z
}.

Record DependencySpec := { ds_service_name : string; ds_min_version : string }.
#[export] Instance DependencySpec_eq_dec : EqDecision DependencySpec.
Proof. solve_decision. Defined.

Record VersionCreate := {
  vc_version : string;
  vc_git_sha : option string;
  vc_image_tag : option string;
  vc_api_version : string;
  vc_min_compatible_version : option string;
  vc_dependencies : list DependencySpec;
  vc_metadata : json
}.

(** A row of the versions store: the dict both repositories keep, with the
    status as the enum its text stands for. *)
Record VersionRecord := {
  vr_version_id : string;
  vr_service_name : string;
  vr_version : string;
  vr_major : N;
  vr_minor : N;
  vr_patch : N;
  vr_prerelease : option string;
  vr_build_metadata : option string;
  vr_git_sha : option string;
  vr_image_tag : option string;
  vr_api_version : string;
  vr_min_compatible_version : option string;
  vr_status : LifecycleStatus;
  vr_checksum_sha256 : option string;
  vr_metadata : json;
  vr_created_at : Z;
  vr_released_at : option Z;
  vr_deprecated_at : option Z;
  vr_retired_at : option Z;
  vr_updated_at : Z
}.

Record ServiceVersion := {
  sv_version_id : string;
  sv_service_name : string;
  sv_version : string;
  sv_status : LifecycleStatus;
  sv_git_sha : option string;
  sv_image_tag : option string;
  sv_api_version : string;
  sv_min_compatible_version : option string;
  sv_checksum_sha256 : option string;
  sv_metadata : json;
  sv_created_at : Z;
  sv_released_at : option Z;
  sv_deprecated_at : option Z;
  sv_retired_at : option Z;
  sv_dependencies : list DependencySpec
}.

Record CompatibilityDependencyReport := {
  cdr_service_name : string;
  cdr_min_version : string;
  cdr_resolved_version : option string;
  cdr_compatible : bool;
  cdr_reason : string
}.

Record CompatibilityReport := {
  cr_service_name : string;
  cr_version : string;
  cr_ok : bool;
  cr_dependencies : list CompatibilityDependencyReport
}.

(** A row of the events store. *)
Record VersionEvent := {
  ve_event_id : string;
  ve_version_id : string;
  ve_event_type : string;
  ve_actor : string;
  ve_reason : string;
  ve_details : json;
  ve_occurred_at : Z
}.

(** ** errors.py *)

Record VersioningError := mkVersioningError {
  err_message : string;
  err_status_code : Z;
  err_code : string
}.

Definition VersioningError_ (message : string) : VersioningError :=
  mkVersioningError message 400 "VERSIONING_ERROR".
Definition NotFoundError (message : string) : VersioningError :=
  mkVersioningError message 404 "NOT_FOUND".
Definition ConflictError (message : string) : VersioningError :=
  mkVersioningError message 409 "CONFLICT".
Definition InvalidTransitionError (message : string) : VersioningError :=
  mkVersioningError message 409 "INVALID_TRANSITION".

(** What a call of the service can raise: its own errors, a [SemVerError] that
    nothing catches, an error of the database. *)
Inductive exc :=
| EVersioning (e : VersioningError)
| ESemVer (e : SemVerError)
| EDatabase (constraint : string).

(** ** The repository protocol *)

(** The keyword arguments of [insert_version]. *)
Record VersionInsert := {
  vi_service_name : string;
  vi_version : string;
  vi_semver : SemVer;
  vi_status : LifecycleStatus;
  vi_git_sha : option string;
  vi_image_tag : option string;
  vi_api_version : string;
  vi_min_compatible_version : option string;
  vi_checksum_sha256 : option string;
  vi_metadata : json
}.

Class VersionRepository (R : Type) := {
  upsert_service (service_name plane description : string) : st R exc ServiceInfo;
  get_service (service_name : string) : st R exc (option ServiceInfo);
  list_services : st R exc (list ServiceInfo);
  insert_version (args : VersionInsert) : st R exc VersionRecord;
  repo_get_version (service_name version : string) : st R exc (option VersionRecord);
  repo_list_versions (service_name : string) : st R exc (list VersionRecord);
  get_dependencies (version_id : string) : st R exc (list DependencySpec);
  set_dependencies (version_id : string) (dependencies : list DependencySpec) : st R exc unit;
  update_version_release (service_name version git_sha image_tag checksum : string)
    : st R exc VersionRecord;
  update_version_status (service_name version : string) (status : LifecycleStatus)
    : st R exc VersionRecord;
  insert_event (version_id event_type actor reason : string) (details : json) : st R exc unit;
  get_released_versions (service_name : string) : st R exc (list string)
}.

(** ** service.py: VersioningService *)

Section VersioningService.
Context {R : Type} `{VersionRepository R}.

Definition register_service (payload : ServiceCreate) : st R exc ServiceInfo :=
  upsert_service (sc_service_name payload) (str_upper (sc_plane payload))
    (sc_description payload).

Definition service_list_services : st R exc (list ServiceInfo) := list_services.

Definition get_version (service_name version : string) : st R exc ServiceVersion :=
  record ← repo_get_version service_name version;
  match record with
  | None => raise (EVersioning (NotFoundError ("version not found: " ++ version)))
  | Some r =>
      dependencies ← get_dependencies (vr_version_id r);
      mret {| sv_version_id := vr_version_id r;
              sv_service_name := vr_service_name r;
              sv_version := vr_version r;
              sv_status := vr_status r;
              sv_git_sha := vr_git_sha r;
              sv_image_tag := vr_image_tag r;
              sv_api_version := vr_api_version r;
              sv_min_compatible_version := vr_min_compatible_version r;
              sv_checksum_sha256 := vr_checksum_sha256 r;
              sv_metadata := vr_metadata r;
              sv_created_at := vr_created_at r;
              sv_released_at := vr_released_at r;
              sv_deprecated_at := vr_deprecated_at r;
              sv_retired_at := vr_retired_at r;
              sv_dependencies := dependencies |}
  end.

(** The loop of [create_version] over the requested dependencies; [seen] is
    the set of names already accepted. *)
Fixpoint check_dependencies (service_name : string) (seen : gset string)
    (dependencies : list DependencySpec) : st R exc (list DependencySpec) :=
  match dependencies with
  | [] => mret []
  | d :: rest =>
      let name := ds_service_name d in
      guard_raise (bool_decide (name = service_name))
        (EVersioning (VersioningError_ "a service cannot depend on itself")) ≫= fun _ =>
      guard_raise (bool_decide (name ∈ seen))
        (EVersioning (VersioningError_ ("duplicate dependency: " ++ name))) ≫= fun _ =>
      dependency_service ← get_service name;
      match dependency_service with
      | None =>
          raise (EVersioning (NotFoundError ("dependency service not found: " ++ name)))
      | Some _ =>
          lift (map_err (fun e => EVersioning (VersioningError_
            ("invalid dependency min_version for " ++ name ++ ": "
               ++ semver_error_message e))) (parse_version (ds_min_version d))) ≫= fun _ =>
          records ← check_dependencies service_name ({[name]} ∪ seen) rest;
          mret ({| ds_service_name := name; ds_min_version := ds_min_version d |} :: records)
      end
  end.

Definition create_version (service_name : string) (payload : VersionCreate)
    : st R exc ServiceVersion :=
  service ← get_service service_name;
  match service with
  | None => raise (EVersioning (NotFoundError ("service not found: " ++ service_name)))
  | Some _ =>
      semver ← lift (map_err (fun e => EVersioning (VersioningError_
                 (semver_error_message e))) (parse_version (vc_version payload)));
      match vc_min_compatible_version payload with
      | None => mret tt
      | Some m =>
          lift (map_err (fun e => EVersioning (VersioningError_
            ("invalid min_compatible_version: " ++ semver_error_message e)))
            (parse_version m)) ≫= fun _ => mret tt
      end ≫= fun _ =>
      existing ← repo_get_version service_name (vc_version payload);
      match existing with
      | Some _ =>
          raise (EVersioning (ConflictError ("version already exists: " ++ vc_version payload)))
      | None =>
          dependency_records ← check_dependencies service_name ∅ (vc_dependencies payload);
          record ← insert_version
            {| vi_service_name := service_name;
               vi_version := vc_version payload;
               vi_semver := semver;
               vi_status := DRAFT;
               vi_git_sha := vc_git_sha payload;
               vi_image_tag := vc_image_tag payload;
               vi_api_version := vc_api_version payload;
               vi_min_compatible_version := vc_min_compatible_version payload;
               vi_checksum_sha256 := None;
               vi_metadata := vc_metadata payload |};
          set_dependencies (vr_version_id record) dependency_records ≫= fun _ =>
          insert_event (vr_version_id record) "VERSION_CREATED" "system"
            "version draft created" (JDict [("version", JStr (vc_version payload))]) ≫= fun _ =>
          get_version service_name (vc_version payload)
      end
  end.

Definition list_versions (service_name : string) : st R exc (list ServiceVersion) :=
  service ← get_service service_name;
  match service with
  | None => raise (EVersioning (NotFoundError ("service not found: " ++ service_name)))
  | Some _ =>
      records ← repo_list_versions service_name;
      map_st (fun r => get_version service_name (vr_version r)) records
  end.

Definition release_version (service_name version git_sha image_tag checksum_sha256
    actor reason : string) : st R exc ServiceVersion :=
  current ← get_version service_name version;
  guard_raise (negb (bool_decide (sv_status current = DRAFT)))
    (EVersioning (InvalidTransitionError
      ("cannot release version in status " ++ status_value (sv_status current)))) ≫= fun _ =>
  semver ← lift (map_err ESemVer (parse_version version));
  guard_raise (negb (is_stable semver))
    (EVersioning (VersioningError_ "only stable versions may be released")) ≫= fun _ =>
  record ← update_version_release service_name version git_sha image_tag checksum_sha256;
  insert_event (vr_version_id record) "VERSION_RELEASED" actor reason
    (JDict [("git_sha", JStr git_sha); ("image_tag", JStr image_tag);
            ("checksum_sha256", JStr checksum_sha256)]) ≫= fun _ =>
  get_version service_name version.

Definition deprecate_version (service_name version actor reason : string)
    : st R exc ServiceVersion :=
  current ← get_version service_name version;
  guard_raise (negb (bool_decide (sv_status current = RELEASED)))
    (EVersioning (InvalidTransitionError
      ("cannot deprecate version in status " ++ status_value (sv_status current)))) ≫= fun _ =>
  record ← update_version_status service_name version DEPRECATED;
  insert_event (vr_version_id record) "VERSION_DEPRECATED" actor reason (JDict []) ≫= fun _ =>
  get_version service_name version.

Definition retire_version (service_name version actor reason : string)
    : st R exc ServiceVersion :=
  current ← get_version service_name version;
  guard_raise (negb (bool_decide (sv_status current = DEPRECATED)))
    (EVersioning (InvalidTransitionError
      ("cannot retire version in status " ++ status_value (sv_status current)))) ≫= fun _ =>
  record ← update_version_status service_name version RETIRED;
  insert_event (vr_version_id record) "VERSION_RETIRED" actor reason (JDict []) ≫= fun _ =>
  get_version service_name version.

(** One round of the loop of [check_compatibility]. *)
Definition dependency_report (d : DependencySpec) : st R exc CompatibilityDependencyReport :=
  candidates ← get_released_versions (ds_service_name d);
  resolved ← lift (map_err ESemVer (highest_compatible candidates (ds_min_version d)));
  mret (match resolved with
        | None =>
            {| cdr_service_name := ds_service_name d;
               cdr_min_version := ds_min_version d;
               cdr_resolved_version := None;
               cdr_compatible := false;
               cdr_reason := "no released compatible dependency version found" |}
        | Some v =>
            {| cdr_service_name := ds_service_name d;
               cdr_min_version := ds_min_version d;
               cdr_resolved_version := Some v;
               cdr_compatible := true;
               cdr_reason := "compatible released version found" |}
        end).

(** [ok] starts at [True] and each unresolved dependency sets it to [False]. *)
Definition check_compatibility (service_name version : string)
    : st R exc CompatibilityReport :=
  current ← get_version service_name version;
  guard_raise (negb (bool_decide (sv_status current = RELEASED)))
    (EVersioning (InvalidTransitionError
      "compatibility can only be checked for released versions")) ≫= fun _ =>
  dependency_reports ← map_st dependency_report (sv_dependencies current);
  mret {| cr_service_name := service_name;
          cr_version := version;
          cr_ok := forallb cdr_compatible dependency_reports;
          cr_dependencies := dependency_reports |}.
End VersioningService.
