(* ===== verification/VersioningStore.v ===== *)
(** Service versioning stores: [repository.py] of apexquant-service-versioning.

    [VState] is the abstract store, with the effect each repository operation
    has on it; [VersionRepositoryLaws] is what the service may rely on.
    [InMemoryRepository] and [PostgresRepository] are the two implementations:
    dicts in the first, tables with the constraints of
    0001_service_versioning.sql in the second.  [utc_now i] and [uuid4 i] are
    the values the i-th call of the clock and of the generator return; the
    database's [now()] and [gen_random_uuid()] are drawn the same way.
    [jsonb j] is the document a JSONB column gives back for [j], in the order
    of keys and with the numbers PostgreSQL keeps, or [None] where it refuses
    [j] (an escaped NUL, for one). *)
From stdpp Require Import base strings list gmap sorting pretty numbers.
From Stdlib Require Import Ascii.
From S2P Require Import Prelude PyStr SemVer Versioning.

(** ** Formats of the stored columns *)

(** [^[0-9a-f]{7,40}$] *)
Definition git_sha_format (s : string) : bool :=
  (7 <=? String.length s)%nat && (String.length s <=? 40)%nat && str_forall hex_char s.

(** [[a-z0-9-]] *)
Definition name_char (c : ascii) : bool := is_lower c || is_digit c || (c =? "-")%char.
Definition name_end (c : ascii) : bool := is_lower c || is_digit c.

Fixpoint last_char (c : ascii) (s : string) : ascii :=
  match s with "" => c | String c' s' => last_char c' s' end.

(** [^[a-z0-9]([a-z0-9-]{0,62}[a-z0-9])?$] *)
Definition service_name_format (s : string) : bool :=
  match s with
  | "" => false
  | String c rest =>
      name_end c && (String.length s <=? 64)%nat && str_forall name_char rest
      && name_end (last_char c rest)
  end.

(** The range of a PostgreSQL INTEGER that is not negative. *)
Definition int4_nonneg (n : N) : bool := (n <? 2 ^ 31)%N.

(** ** The abstract store *)

Record VState := {
  vs_services : gmap string ServiceInfo;
  vs_versions : gmap (string * string) VersionRecord;
  vs_dependencies : gmap string (list DependencySpec);
  vs_events : list VersionEvent;
  vs_now : nat;
  vs_uuid : nat
}.

(** What a version must satisfy for the columns of its row to be accepted. *)
Definition storable_insert (a : VersionInsert) : bool :=
  int4_nonneg (SemVer.major (vi_semver a)) && int4_nonneg (SemVer.minor (vi_semver a))
  && int4_nonneg (SemVer.patch (vi_semver a))
  && opt_test git_sha_format (vi_git_sha a)
  && opt_test checksum_format (vi_checksum_sha256 a)
  && not_blank (vi_api_version a).

Definition new_service (name plane description : string) (now : Z) : ServiceInfo :=
  {| si_service_name := name; si_plane := plane; si_description := description;
     si_created_at := now; si_updated_at := now |}.

Definition touch_service (old : ServiceInfo) (plane description : string) (now : Z) : ServiceInfo :=
  {| si_service_name := si_service_name old; si_plane := plane; si_description := description;
     si_created_at := si_created_at old; si_updated_at := now |}.

(** The same insertion with the metadata a store keeps. *)
Definition with_metadata (a : VersionInsert) (metadata : json) : VersionInsert :=
  {| vi_service_name := vi_service_name a; vi_version := vi_version a;
     vi_semver := vi_semver a; vi_status := vi_status a; vi_git_sha := vi_git_sha a;
     vi_image_tag := vi_image_tag a; vi_api_version := vi_api_version a;
     vi_min_compatible_version := vi_min_compatible_version a;
     vi_checksum_sha256 := vi_checksum_sha256 a; vi_metadata := metadata |}.

Definition new_version (a : VersionInsert) (version_id : string) (now : Z) : VersionRecord :=
  {| vr_version_id := version_id;
     vr_service_name := vi_service_name a;
     vr_version := vi_version a;
     vr_major := SemVer.major (vi_semver a);
     vr_minor := SemVer.minor (vi_semver a);
     vr_patch := SemVer.patch (vi_semver a);
     vr_prerelease := SemVer.prerelease (vi_semver a);
     vr_build_metadata := SemVer.build (vi_semver a);
     vr_git_sha := vi_git_sha a;
     vr_image_tag := vi_image_tag a;
     vr_api_version := vi_api_version a;
     vr_min_compatible_version := vi_min_compatible_version a;
     vr_status := vi_status a;
     vr_checksum_sha256 := vi_checksum_sha256 a;
     vr_metadata := vi_metadata a;
     vr_created_at := now;
     vr_released_at := None;
     vr_deprecated_at := None;
     vr_retired_at := None;
     vr_updated_at := now |}.

(** [update_version_release] on a row. *)
Definition release_record (r : VersionRecord) (git_sha image_tag checksum : string) (now : Z)
    : VersionRecord :=
  {| vr_version_id := vr_version_id r;
     vr_service_name := vr_service_name r;
     vr_version := vr_version r;
     vr_major := vr_major r;
     vr_minor := vr_minor r;
     vr_patch := vr_patch r;
     vr_prerelease := vr_prerelease r;
     vr_build_metadata := vr_build_metadata r;
     vr_git_sha := Some git_sha;
     vr_image_tag := Some image_tag;
     vr_api_version := vr_api_version r;
     vr_min_compatible_version := vr_min_compatible_version r;
     vr_status := RELEASED;
     vr_checksum_sha256 := Some checksum;
     vr_metadata := vr_metadata r;
     vr_created_at := vr_created_at r;
     vr_released_at := Some now;
     vr_deprecated_at := vr_deprecated_at r;
     vr_retired_at := vr_retired_at r;
     vr_updated_at := now |}.

(** [update_version_status] on a row. *)
Definition status_record (r : VersionRecord) (status : LifecycleStatus) (now : Z)
    : VersionRecord :=
  {| vr_version_id := vr_version_id r;
     vr_service_name := vr_service_name r;
     vr_version := vr_version r;
     vr_major := vr_major r;
     vr_minor := vr_minor r;
     vr_patch := vr_patch r;
     vr_prerelease := vr_prerelease r;
     vr_build_metadata := vr_build_metadata r;
     vr_git_sha := vr_git_sha r;
     vr_image_tag := vr_image_tag r;
     vr_api_version := vr_api_version r;
     vr_min_compatible_version := vr_min_compatible_version r;
     vr_status := status;
     vr_checksum_sha256 := vr_checksum_sha256 r;
     vr_metadata := vr_metadata r;
     vr_created_at := vr_created_at r;
     vr_released_at := vr_released_at r;
     vr_deprecated_at := if decide (status = DEPRECATED) then Some now else vr_deprecated_at r;
     vr_retired_at := if decide (status = RETIRED) then Some now else vr_retired_at r;
     vr_updated_at := now |}.

Definition version_key (r : VersionRecord) : string * string := (vr_service_name r, vr_version r).

(** Service names hold no colon. *)
Lemma service_name_no_colon n : service_name_format n = true -> no_char ":" n.
Proof.
  destruct n as [|c rest]; [done|]. unfold service_name_format.
  rewrite !andb_true_iff. intros [[[Hc _] Hr] _]. apply no_char_cons. split.
  - intros ->. discriminate Hc.
  - by apply (no_char_forall name_char).
Qed.

Section Stores.
Variable utc_now : nat -> Z.
Variable uuid4 : nat -> string.

Definition vs_set_service (name : string) (r : ServiceInfo) (v : VState) : VState :=
  {| vs_services := <[name := r]> (vs_services v); vs_versions := vs_versions v;
     vs_dependencies := vs_dependencies v; vs_events := vs_events v;
     vs_now := S (vs_now v); vs_uuid := vs_uuid v |}.

Definition vs_upsert (name plane description : string) (v : VState) : ServiceInfo * VState :=
  let now := utc_now (vs_now v) in
  let r := match vs_services v !! name with
           | None => new_service name plane description now
           | Some old => touch_service old plane description now
           end in
  (r, vs_set_service name r v).

Definition vs_insert (a : VersionInsert) (v : VState) : VersionRecord * VState :=
  let r := new_version a (uuid4 (vs_uuid v)) (utc_now (vs_now v)) in
  (r, {| vs_services := vs_services v;
         vs_versions := <[version_key r := r]> (vs_versions v);
         vs_dependencies := <[vr_version_id r := []]> (vs_dependencies v);
         vs_events := vs_events v;
         vs_now := S (vs_now v); vs_uuid := S (vs_uuid v) |}).

Definition vs_set_version (r : VersionRecord) (v : VState) : VState :=
  {| vs_services := vs_services v; vs_versions := <[version_key r := r]> (vs_versions v);
     vs_dependencies := vs_dependencies v; vs_events := vs_events v;
     vs_now := S (vs_now v); vs_uuid := vs_uuid v |}.

Definition vs_set_deps (id : string) (l : list DependencySpec) (v : VState) : VState :=
  {| vs_services := vs_services v; vs_versions := vs_versions v;
     vs_dependencies := <[id := l]> (vs_dependencies v); vs_events := vs_events v;
     vs_now := vs_now v; vs_uuid := vs_uuid v |}.

Definition vs_log (version_id event_type actor reason : string) (details : json) (v : VState)
    : VState :=
  {| vs_services := vs_services v; vs_versions := vs_versions v;
     vs_dependencies := vs_dependencies v;
     vs_events := (vs_events v ++
       [{| ve_event_id := uuid4 (vs_uuid v); ve_version_id := version_id;
           ve_event_type := event_type; ve_actor := actor; ve_reason := reason;
           ve_details := details; ve_occurred_at := utc_now (vs_now v) |}])%list;
     vs_now := S (vs_now v); vs_uuid := S (vs_uuid v) |}.

(** ** What the service relies on *)

Class VersionRepositoryLaws (R : Type) `{VersionRepository R} := {
  abs : R -> VState;
  repo_inv : R -> Prop;
  stored : json -> option json;

  law_get_service n s : repo_inv s -> get_service n s = (Ok (vs_services (abs s) !! n), s);

  law_list_services s :
    repo_inv s -> exists l, list_services s = (Ok l, s) /\
      (forall i, i ∈ l <-> vs_services (abs s) !! si_service_name i = Some i);

  law_get_version n v s :
    repo_inv s -> repo_get_version n v s = (Ok (vs_versions (abs s) !! (n, v)), s);

  law_version_key n v r s :
    repo_inv s -> vs_versions (abs s) !! (n, v) = Some r -> version_key r = (n, v);

  law_list_versions n s :
    repo_inv s -> exists l, repo_list_versions n s = (Ok l, s) /\
      (forall r, r ∈ l <-> vs_versions (abs s) !! (n, vr_version r) = Some r);

  law_get_dependencies id s :
    repo_inv s -> exists l, get_dependencies id s = (Ok l, s) /\
      l ≡ₚ default [] (vs_dependencies (abs s) !! id);

  law_released n s :
    repo_inv s -> exists l, get_released_versions n s = (Ok l, s) /\
      (forall v, v ∈ l <-> exists r, vs_versions (abs s) !! (n, v) = Some r /\
         vr_status r = RELEASED);

  law_upsert n p d s :
    repo_inv s -> service_name_format n = true -> not_blank p = true ->
    exists s', upsert_service n p d s = (Ok (vs_upsert n p d (abs s)).1, s') /\
      repo_inv s' /\ abs s' = (vs_upsert n p d (abs s)).2;

  law_insert a m s :
    repo_inv s -> storable_insert a = true -> no_char ":" (vi_version a) ->
    stored (vi_metadata a) = Some m ->
    is_Some (vs_services (abs s) !! vi_service_name a) ->
    vs_versions (abs s) !! (vi_service_name a, vi_version a) = None ->
    exists s', insert_version a s = (Ok (vs_insert (with_metadata a m) (abs s)).1, s') /\
      repo_inv s' /\ abs s' = (vs_insert (with_metadata a m) (abs s)).2;

  law_set_dependencies n v r l s :
    repo_inv s -> vs_versions (abs s) !! (n, v) = Some r ->
    NoDup (ds_service_name <$> l) ->
    (forall d, d ∈ l -> is_Some (vs_services (abs s) !! ds_service_name d) /\
               not_blank (ds_min_version d) = true) ->
    exists s', set_dependencies (vr_version_id r) l s = (Ok tt, s') /\
      repo_inv s' /\ abs s' = vs_set_deps (vr_version_id r) l (abs s);

  law_release n v r sha img chk s :
    repo_inv s -> vs_versions (abs s) !! (n, v) = Some r ->
    git_sha_format sha = true -> checksum_format chk = true ->
    let r' := release_record r sha img chk (utc_now (vs_now (abs s))) in
    exists s', update_version_release n v sha img chk s = (Ok r', s') /\
      repo_inv s' /\ abs s' = vs_set_version r' (abs s);

  law_status n v r status s :
    repo_inv s -> vs_versions (abs s) !! (n, v) = Some r ->
    let r' := status_record r status (utc_now (vs_now (abs s))) in
    exists s', update_version_status n v status s = (Ok r', s') /\
      repo_inv s' /\ abs s' = vs_set_version r' (abs s);

  law_event n v r ty actor reason details kept s :
    repo_inv s -> vs_versions (abs s) !! (n, v) = Some r ->
    not_blank ty = true -> not_blank actor = true -> stored details = Some kept ->
    exists s', insert_event (vr_version_id r) ty actor reason details s = (Ok tt, s') /\
      repo_inv s' /\ abs s' = vs_log (vr_version_id r) ty actor reason kept (abs s)
}.

(** ** InMemoryRepository *)

Record InMemoryRepository := {
  im_services : pydict string ServiceInfo;
  im_versions : pydict string VersionRecord;
  im_dependencies : pydict string (list DependencySpec);
  im_events : list VersionEvent;
  im_now : nat;
  im_uuid : nat
}.

Definition im_init : InMemoryRepository :=
  {| im_services := []; im_versions := []; im_dependencies := []; im_events := [];
     im_now := 0; im_uuid := 0 |}.

(** The key [service_name:version] of a version. *)
Definition im_key (service_name version : string) : string := service_name ++ ":" ++ version.

Definition im_upsert_service (service_name plane description : string)
    : st InMemoryRepository exc ServiceInfo := fun s =>
  let now := utc_now (im_now s) in
  let record := match dict_get service_name (im_services s) with
                | None => new_service service_name plane description now
                | Some existing => touch_service existing plane description now
                end in
  (Ok record,
   {| im_services := dict_set service_name record (im_services s);
      im_versions := im_versions s; im_dependencies := im_dependencies s;
      im_events := im_events s; im_now := S (im_now s); im_uuid := im_uuid s |}).

Definition im_get_service (service_name : string)
    : st InMemoryRepository exc (option ServiceInfo) := fun s =>
  (Ok (dict_get service_name (im_services s)), s).

Definition im_list_services : st InMemoryRepository exc (list ServiceInfo) := fun s =>
  (Ok (py_sorted (fun a b => str_lt (si_service_name a) (si_service_name b))
         (dict_values (im_services s))), s).

Definition im_insert_version (a : VersionInsert)
    : st InMemoryRepository exc VersionRecord := fun s =>
  let key := im_key (vi_service_name a) (vi_version a) in
  if dict_has key (im_versions s)
  then (Err (EVersioning (ConflictError ("version already exists: " ++ vi_version a))), s)
  else
    let record := new_version a (uuid4 (im_uuid s)) (utc_now (im_now s)) in
    (Ok record,
     {| im_services := im_services s;
        im_versions := dict_set key record (im_versions s);
        im_dependencies := dict_set (vr_version_id record) [] (im_dependencies s);
        im_events := im_events s; im_now := S (im_now s); im_uuid := S (im_uuid s) |}).

Definition im_get_version (service_name version : string)
    : st InMemoryRepository exc (option VersionRecord) := fun s =>
  (Ok (dict_get (im_key service_name version) (im_versions s)), s).

Definition im_list_versions (service_name : string)
    : st InMemoryRepository exc (list VersionRecord) := fun s =>
  (Ok (py_sorted (fun a b => (vr_created_at a <? vr_created_at b)%Z)
         (tbl_select (fun r => vr_service_name r =? service_name)
            (dict_values (im_versions s)))), s).

Definition im_get_dependencies (version_id : string)
    : st InMemoryRepository exc (list DependencySpec) := fun s =>
  (Ok (default [] (dict_get version_id (im_dependencies s))), s).

Definition im_set_dependencies (version_id : string) (dependencies : list DependencySpec)
    : st InMemoryRepository exc unit := fun s =>
  (Ok tt,
   {| im_services := im_services s; im_versions := im_versions s;
      im_dependencies := dict_set version_id dependencies (im_dependencies s);
      im_events := im_events s; im_now := im_now s; im_uuid := im_uuid s |}).

(** The two updates: copy the record, change the copy, store it. *)
Definition im_update (service_name version : string) (f : VersionRecord -> Z -> VersionRecord)
    : st InMemoryRepository exc VersionRecord := fun s =>
  let key := im_key service_name version in
  match dict_get key (im_versions s) with
  | None => (Err (EVersioning (NotFoundError ("version not found: " ++ version))), s)
  | Some record =>
      let updated := f record (utc_now (im_now s)) in
      (Ok updated,
       {| im_services := im_services s;
          im_versions := dict_set key updated (im_versions s);
          im_dependencies := im_dependencies s; im_events := im_events s;
          im_now := S (im_now s); im_uuid := im_uuid s |})
  end.

Definition im_update_version_release (service_name version git_sha image_tag checksum : string)
    : st InMemoryRepository exc VersionRecord :=
  im_update service_name version (fun r now => release_record r git_sha image_tag checksum now).

Definition im_update_version_status (service_name version : string) (status : LifecycleStatus)
    : st InMemoryRepository exc VersionRecord :=
  im_update service_name version (fun r now => status_record r status now).

Definition im_insert_event (version_id event_type actor reason : string) (details : json)
    : st InMemoryRepository exc unit := fun s =>
  (Ok tt,
   {| im_services := im_services s; im_versions := im_versions s;
      im_dependencies := im_dependencies s;
      im_events := (im_events s ++
        [{| ve_event_id := uuid4 (im_uuid s); ve_version_id := version_id;
            ve_event_type := event_type; ve_actor := actor; ve_reason := reason;
            ve_details := details; ve_occurred_at := utc_now (im_now s) |}])%list;
      im_now := S (im_now s); im_uuid := S (im_uuid s) |}).

(** [(major, minor, patch)] as a sort key. *)
Definition numeric_lt (a b : VersionRecord) : bool :=
  tuple_lt (vr_major a, vr_minor a, vr_patch a) (vr_major b, vr_minor b, vr_patch b).

Definition is_released_of (service_name : string) (r : VersionRecord) : bool :=
  (vr_service_name r =? service_name) && bool_decide (vr_status r = RELEASED).

Definition im_get_released_versions (service_name : string)
    : st InMemoryRepository exc (list string) := fun s =>
  (Ok (vr_version <$> py_sorted_rev numeric_lt
         (tbl_select (is_released_of service_name) (dict_values (im_versions s)))), s).

#[export] Instance InMemoryRepository_ops : VersionRepository InMemoryRepository := {
  upsert_service := im_upsert_service;
  get_service := im_get_service;
  list_services := im_list_services;
  insert_version := im_insert_version;
  repo_get_version := im_get_version;
  repo_list_versions := im_list_versions;
  get_dependencies := im_get_dependencies;
  set_dependencies := im_set_dependencies;
  update_version_release := im_update_version_release;
  update_version_status := im_update_version_status;
  insert_event := im_insert_event;
  get_released_versions := im_get_released_versions
}.

(** ** PostgresRepository *)

Record PostgresRepository := {
  pg_services : list ServiceInfo;
  pg_versions : list VersionRecord;
  pg_dependencies : list (string * DependencySpec);
  pg_events : list VersionEvent;
  pg_now : nat;
  pg_uuid : nat
}.

Variable jsonb : json -> option json.

Definition pg_init : PostgresRepository :=
  {| pg_services := []; pg_versions := []; pg_dependencies := []; pg_events := [];
     pg_now := 0; pg_uuid := 0 |}.

Definition pg_fail {A} (constraint : string) : st PostgresRepository exc A :=
  raise (EDatabase constraint).

Definition is_service (n : string) (r : ServiceInfo) : bool := si_service_name r =? n.
Definition is_version (n v : string) (r : VersionRecord) : bool :=
  (vr_service_name r =? n) && (vr_version r =? v).

(** [INSERT ... ON CONFLICT (service_name) DO UPDATE]: the checks of the
    proposed row come first. *)
Definition pg_upsert_service (service_name plane description : string)
    : st PostgresRepository exc ServiceInfo := fun s =>
  if negb (service_name_format service_name) then pg_fail "services_service_name_format" s
  else if negb (not_blank plane) then pg_fail "services_plane_not_empty" s
  else
    let now := utc_now (pg_now s) in
    let '(row, table) :=
      match tbl_find (is_service service_name) (pg_services s) with
      | None =>
          let row := new_service service_name plane description now in
          (row, (pg_services s ++ [row])%list)
      | Some old =>
          (touch_service old plane description now,
           tbl_update (is_service service_name)
             (fun r => touch_service r plane description now) (pg_services s))
      end in
    (Ok row,
     {| pg_services := table; pg_versions := pg_versions s;
        pg_dependencies := pg_dependencies s; pg_events := pg_events s;
        pg_now := S (pg_now s); pg_uuid := pg_uuid s |}).

Definition pg_get_service (service_name : string)
    : st PostgresRepository exc (option ServiceInfo) := fun s =>
  (Ok (tbl_find (is_service service_name) (pg_services s)), s).

(** [ORDER BY service_name]. *)
Definition pg_list_services : st PostgresRepository exc (list ServiceInfo) := fun s =>
  (Ok (py_sorted (fun a b => str_lt (si_service_name a) (si_service_name b))
         (pg_services s)), s).

(** The metadata is read as JSONB before any constraint is checked. *)
Definition pg_insert_version (a : VersionInsert)
    : st PostgresRepository exc VersionRecord := fun s =>
  match jsonb (vi_metadata a) with
  | None => pg_fail "unsupported Unicode escape sequence" s
  | Some metadata =>
  if negb (storable_insert a) then pg_fail "service_versions_check" s
  else if bool_decide (is_Some (tbl_find (is_version (vi_service_name a) (vi_version a))
                                  (pg_versions s)))
  then pg_fail "service_versions_service_name_version_unique" s
  else if bool_decide (tbl_find (is_service (vi_service_name a)) (pg_services s) = None)
  then pg_fail "service_versions_service_name_fkey" s
  else
    let row := new_version (with_metadata a metadata) (uuid4 (pg_uuid s)) (utc_now (pg_now s)) in
    (Ok row,
     {| pg_services := pg_services s; pg_versions := (pg_versions s ++ [row])%list;
        pg_dependencies := pg_dependencies s; pg_events := pg_events s;
        pg_now := S (pg_now s); pg_uuid := S (pg_uuid s) |})
  end.

Definition pg_get_version (service_name version : string)
    : st PostgresRepository exc (option VersionRecord) := fun s =>
  (Ok (tbl_find (is_version service_name version) (pg_versions s)), s).

(** [ORDER BY created_at]. *)
Definition pg_list_versions (service_name : string)
    : st PostgresRepository exc (list VersionRecord) := fun s =>
  (Ok (py_sorted (fun a b => (vr_created_at a <? vr_created_at b)%Z)
         (tbl_select (fun r => vr_service_name r =? service_name) (pg_versions s))), s).

(** [ORDER BY depends_on_service_name]. *)
Definition pg_get_dependencies (version_id : string)
    : st PostgresRepository exc (list DependencySpec) := fun s =>
  (Ok (py_sorted (fun a b => str_lt (ds_service_name a) (ds_service_name b))
         (snd <$> tbl_select (fun r => r.1 =? version_id) (pg_dependencies s))), s).

(** One [INSERT] of the transaction, under the constraints of the table. *)
Definition pg_insert_dependency (version_id : string) (d : DependencySpec)
    (s : PostgresRepository) (rows : list (string * DependencySpec))
    : result exc (list (string * DependencySpec)) :=
  if negb (not_blank (ds_min_version d))
  then Err (EDatabase "service_version_dependencies_min_version_not_empty")
  else if existsb (fun r => (r.1 =? version_id)
                            && (ds_service_name r.2 =? ds_service_name d)) rows
  then Err (EDatabase "service_version_dependencies_unique")
  else if negb (existsb (fun r => vr_version_id r =? version_id) (pg_versions s))
  then Err (EDatabase "service_version_dependencies_version_id_fkey")
  else if negb (existsb (is_service (ds_service_name d)) (pg_services s))
  then Err (EDatabase "service_version_dependencies_depends_on_service_name_fkey")
  else Ok (rows ++ [(version_id, d)])%list.

Fixpoint pg_insert_dependencies (version_id : string) (l : list DependencySpec)
    (s : PostgresRepository) (rows : list (string * DependencySpec))
    : result exc (list (string * DependencySpec)) :=
  match l with
  | [] => Ok rows
  | d :: l' =>
      rows' ← pg_insert_dependency version_id d s rows;
      pg_insert_dependencies version_id l' s rows'
  end.

(** [DELETE] then the inserts, in one transaction: an error undoes it all. *)
Definition pg_set_dependencies (version_id : string) (dependencies : list DependencySpec)
    : st PostgresRepository exc unit := fun s =>
  match pg_insert_dependencies version_id dependencies s
          (tbl_delete (fun r => r.1 =? version_id) (pg_dependencies s)) with
  | Err e => (Err e, s)
  | Ok rows =>
      (Ok tt,
       {| pg_services := pg_services s; pg_versions := pg_versions s;
          pg_dependencies := rows; pg_events := pg_events s;
          pg_now := pg_now s; pg_uuid := pg_uuid s |})
  end.

(** [UPDATE ... RETURNING]; no row is [NotFoundError]. *)
Definition pg_update (service_name version : string) (f : VersionRecord -> Z -> VersionRecord)
    : st PostgresRepository exc VersionRecord := fun s =>
  let now := utc_now (pg_now s) in
  match tbl_find (is_version service_name version) (pg_versions s) with
  | None => (Err (EVersioning (NotFoundError ("version not found: " ++ version))), s)
  | Some row =>
      (Ok (f row now),
       {| pg_services := pg_services s;
          pg_versions := tbl_update (is_version service_name version)
                           (fun r => f r now) (pg_versions s);
          pg_dependencies := pg_dependencies s; pg_events := pg_events s;
          pg_now := S (pg_now s); pg_uuid := pg_uuid s |})
  end.

(** The checks of the table are evaluated on an updated row, so only when
    there is one. *)
Definition pg_update_version_release (service_name version git_sha image_tag checksum : string)
    : st PostgresRepository exc VersionRecord := fun s =>
  if bool_decide (is_Some (tbl_find (is_version service_name version) (pg_versions s)))
     && negb (git_sha_format git_sha)
  then pg_fail "service_versions_git_sha_format" s
  else if bool_decide (is_Some (tbl_find (is_version service_name version) (pg_versions s)))
     && negb (checksum_format checksum)
  then pg_fail "service_versions_checksum_format" s
  else pg_update service_name version
         (fun r now => release_record r git_sha image_tag checksum now) s.

Definition pg_update_version_status (service_name version : string) (status : LifecycleStatus)
    : st PostgresRepository exc VersionRecord :=
  pg_update service_name version (fun r now => status_record r status now).

Definition pg_insert_event (version_id event_type actor reason : string) (details : json)
    : st PostgresRepository exc unit := fun s =>
  match jsonb details with
  | None => pg_fail "unsupported Unicode escape sequence" s
  | Some kept =>
  if negb (not_blank event_type)
  then pg_fail "service_version_events_event_type_not_empty" s
  else if negb (not_blank actor)
  then pg_fail "service_version_events_actor_not_empty" s
  else if negb (existsb (fun r => vr_version_id r =? version_id) (pg_versions s))
  then pg_fail "service_version_events_version_id_fkey" s
  else
    (Ok tt,
     {| pg_services := pg_services s; pg_versions := pg_versions s;
        pg_dependencies := pg_dependencies s;
        pg_events := (pg_events s ++
          [{| ve_event_id := uuid4 (pg_uuid s); ve_version_id := version_id;
              ve_event_type := event_type; ve_actor := actor; ve_reason := reason;
              ve_details := kept; ve_occurred_at := utc_now (pg_now s) |}])%list;
        pg_now := S (pg_now s); pg_uuid := S (pg_uuid s) |})
  end.

(** [ORDER BY major DESC, minor DESC, patch DESC]. *)
Definition pg_get_released_versions (service_name : string)
    : st PostgresRepository exc (list string) := fun s =>
  (Ok (vr_version <$> py_sorted_rev numeric_lt
         (tbl_select (is_released_of service_name) (pg_versions s))), s).

#[export] Instance PostgresRepository_ops : VersionRepository PostgresRepository := {
  upsert_service := pg_upsert_service;
  get_service := pg_get_service;
  list_services := pg_list_services;
  insert_version := pg_insert_version;
  repo_get_version := pg_get_version;
  repo_list_versions := pg_list_versions;
  get_dependencies := pg_get_dependencies;
  set_dependencies := pg_set_dependencies;
  update_version_release := pg_update_version_release;
  update_version_status := pg_update_version_status;
  insert_event := pg_insert_event;
  get_released_versions := pg_get_released_versions
}.

(** ** The in-memory store implements the abstract one *)

Definition im_abs (s : InMemoryRepository) : VState :=
  {| vs_services := by_key si_service_name (dict_values (im_services s));
     vs_versions := by_key version_key (dict_values (im_versions s));
     vs_dependencies := list_to_map (im_dependencies s);
     vs_events := im_events s; vs_now := im_now s; vs_uuid := im_uuid s |}.

(** Every record sits under its own key, and the parts of the key of a
    version hold no colon, so [name:version] determines them. *)
Record im_inv (s : InMemoryRepository) : Prop := {
  im_services_keyed k r :
    (k, r) ∈ im_services s -> k = si_service_name r /\ no_char ":" k;
  im_versions_keyed k r :
    (k, r) ∈ im_versions s ->
    k = im_key (vr_service_name r) (vr_version r) /\
    no_char ":" (vr_service_name r) /\ no_char ":" (vr_version r);
  im_versions_wf : dict_wf (im_versions s);
  im_services_wf : dict_wf (im_services s)
}.

Lemma im_key_inj n v n' v' :
  im_key n v = im_key n' v' -> no_char ":" n' -> no_char ":" v' -> n = n' /\ v = v'.
Proof.
  unfold im_key. change ":" with (String ":" "").
  revert n'; induction n as [|c n IH]; intros [|c' n'] Hf Hn Hv; simpl in Hf.
  - by injection Hf as ->.
  - injection Hf as <- Hf. apply no_char_cons in Hn as [[] _]. done.
  - injection Hf as -> Hf. subst v'. rewrite no_char_app, no_char_cons in Hv.
    destruct Hv as [_ [[] _]]. done.
  - injection Hf as -> Hf. apply no_char_cons in Hn as [_ Hn].
    destruct (IH n' Hf Hn Hv) as [-> ->]. done.
Qed.

Lemma im_version_key_iff s n v k r :
  im_inv s -> (k, r) ∈ im_versions s -> k = im_key n v <-> version_key r = (n, v).
Proof.
  intros Hs Hin. destruct (im_versions_keyed s Hs k r Hin) as (-> & Hn & Hv).
  unfold version_key. split.
  - intros Heq. symmetry in Heq. by destruct (im_key_inj _ _ _ _ Heq Hn Hv) as [-> ->].
  - by intros [= -> ->].
Qed.

Lemma im_version_lookup s n v :
  im_inv s -> vs_versions (im_abs s) !! (n, v) = dict_get (im_key n v) (im_versions s).
Proof.
  intros Hs. simpl. apply by_key_dict_get. intros k r Hin. by eapply im_version_key_iff.
Qed.

Lemma im_service_lookup s n :
  im_inv s -> vs_services (im_abs s) !! n = dict_get n (im_services s).
Proof.
  intros Hs. simpl. apply by_key_dict_get. intros k r Hin.
  by destruct (im_services_keyed s Hs k r Hin) as [-> _].
Qed.

Lemma im_service_elem s i :
  im_inv s -> i ∈ dict_values (im_services s) <->
  vs_services (im_abs s) !! si_service_name i = Some i.
Proof.
  intros Hs. split.
  - intros [k Hin]%dict_values_elem. rewrite im_service_lookup by done.
    destruct (im_services_keyed s Hs k i Hin) as [-> _].
    by apply dict_elem_get; [apply im_services_wf|].
  - intros Hl. by apply by_key_Some in Hl as [? _].
Qed.

Lemma im_version_elem s r :
  im_inv s -> r ∈ dict_values (im_versions s) <->
  vs_versions (im_abs s) !! version_key r = Some r.
Proof.
  intros Hs. split.
  - intros [k Hin]%dict_values_elem. unfold version_key. rewrite im_version_lookup by done.
    destruct (im_versions_keyed s Hs k r Hin) as [-> _].
    by apply dict_elem_get; [apply im_versions_wf|].
  - intros Hl. by apply by_key_Some in Hl as [? _].
Qed.

Lemma im_inv_init : im_inv im_init.
Proof. split; simpl; [set_solver|set_solver|constructor|constructor]. Qed.

(** Storing a version under its key. *)
Lemma im_set_version s r evs deps now u :
  im_inv s -> no_char ":" (vr_service_name r) -> no_char ":" (vr_version r) ->
  let key := im_key (vr_service_name r) (vr_version r) in
  let s' := {| im_services := im_services s;
               im_versions := dict_set key r (im_versions s);
               im_dependencies := deps; im_events := evs; im_now := now; im_uuid := u |} in
  im_inv s' /\
  vs_versions (im_abs s') = <[version_key r := r]> (vs_versions (im_abs s)).
Proof.
  intros Hs Hn Hv key s'. split.
  - split; simpl.
    + apply (im_services_keyed s Hs).
    + intros k r' [[= -> ->]|Hin]%dict_set_elem; [done|].
      by apply (im_versions_keyed s Hs).
    + apply dict_wf_set, (im_versions_wf s Hs).
    + apply (im_services_wf s Hs).
  - simpl. apply by_key_dict_set. intros k0 v0 Hin.
    exact (im_version_key_iff s _ _ _ _ Hs Hin).
Qed.

Lemma im_update_law s n v r f :
  im_inv s -> vs_versions (im_abs s) !! (n, v) = Some r ->
  (forall now, version_key (f r now) = version_key r) ->
  let r' := f r (utc_now (vs_now (im_abs s))) in
  exists s', im_update n v f s = (Ok r', s') /\ im_inv s' /\
    im_abs s' = vs_set_version r' (im_abs s).
Proof.
  intros Hs Hr Hf r'. rewrite im_version_lookup in Hr by done.
  pose proof (dict_get_Some_elem _ _ _ Hr) as Hin.
  destruct (im_versions_keyed s Hs _ _ Hin) as (Hk & Hn & Hv).
  unfold im_update. rewrite Hr. eexists. split; [done|]. fold r'.
  specialize (Hf (utc_now (vs_now (im_abs s)))). fold r' in Hf.
  injection Hf as Hf1 Hf2. rewrite <- Hf1 in Hk, Hn. rewrite <- Hf2 in Hk, Hv.
  rewrite Hk.
  destruct (im_set_version s r' (im_events s) (im_dependencies s) (S (im_now s)) (im_uuid s)
              Hs Hn Hv) as [Hinv Hvs].
  split; [done|]. unfold im_abs at 1, vs_set_version. f_equal. exact Hvs.
Qed.

Lemma im_upsert_law n p d s :
  im_inv s -> service_name_format n = true ->
  exists s', im_upsert_service n p d s = (Ok (vs_upsert n p d (im_abs s)).1, s') /\
    im_inv s' /\ im_abs s' = (vs_upsert n p d (im_abs s)).2.
Proof.
  intros Hs Hn. pose proof (im_service_lookup s n Hs) as Hl.
  unfold im_upsert_service, vs_upsert. rewrite Hl. eexists. split; [done|]. simpl.
  set (rec := match dict_get n (im_services s) with
              | Some existing => _ | None => _ end).
  assert (Hrec : si_service_name rec = n).
  { unfold rec. destruct (dict_get n (im_services s)) as [old|] eqn:Ho; [|done]. simpl.
    apply dict_get_Some_elem in Ho. by destruct (im_services_keyed s Hs _ _ Ho) as [-> _]. }
  split.
  - split; simpl.
    + intros k r [[= -> ->]|Hin]%dict_set_elem; [|by apply (im_services_keyed s Hs)].
      split; [done|]. by apply service_name_no_colon.
    + apply (im_versions_keyed s Hs).
    + apply (im_versions_wf s Hs).
    + apply dict_wf_set, (im_services_wf s Hs).
  - unfold im_abs at 1, vs_set_service. f_equal. simpl.
    rewrite (by_key_dict_set si_service_name); [by rewrite Hrec|].
    intros k0 v0 Hin. destruct (im_services_keyed s Hs _ _ Hin) as [-> _].
    by rewrite Hrec.
Qed.

Lemma im_insert_law a s :
  im_inv s -> no_char ":" (vi_version a) ->
  is_Some (vs_services (im_abs s) !! vi_service_name a) ->
  vs_versions (im_abs s) !! (vi_service_name a, vi_version a) = None ->
  exists s', im_insert_version a s = (Ok (vs_insert a (im_abs s)).1, s') /\
    im_inv s' /\ im_abs s' = (vs_insert a (im_abs s)).2.
Proof.
  intros Hs Hv [srv Hsrv] Hnone. rewrite im_version_lookup in Hnone by done.
  rewrite im_service_lookup in Hsrv by done. apply dict_get_Some_elem in Hsrv.
  destruct (im_services_keyed s Hs _ _ Hsrv) as [_ Hn].
  unfold im_insert_version, dict_has. rewrite Hnone, bool_decide_eq_false_2
    by (intros [? ?]; done).
  eexists. split; [done|]. simpl.
  set (r := new_version a (uuid4 (im_uuid s)) (utc_now (im_now s))).
  destruct (im_set_version s r (im_events s)
              (dict_set (vr_version_id r) [] (im_dependencies s)) (S (im_now s))
              (S (im_uuid s)) Hs Hn Hv) as [Hinv Hvs].
  split; [done|]. unfold im_abs at 1. f_equal; [exact Hvs|].
  simpl. by rewrite dict_to_map_set.
Qed.

Lemma is_released_of_true n r :
  is_released_of n r = true <-> vr_service_name r = n /\ vr_status r = RELEASED.
Proof.
  unfold is_released_of. by rewrite andb_true_iff, String.eqb_eq, bool_decide_eq_true.
Qed.

#[export] Instance InMemoryRepository_laws : VersionRepositoryLaws InMemoryRepository.
Proof.
  refine {| abs := im_abs; repo_inv := im_inv; stored := Some |}; simpl.
  - intros n s Hs. unfold im_get_service. by rewrite <- im_service_lookup.
  - intros s Hs. eexists. split; [done|]. intros i.
    rewrite elem_of_py_sorted. apply im_service_elem; done.
  - intros n v s Hs. unfold im_get_version. by rewrite <- im_version_lookup.
  - intros n v r s Hs Hr. by apply by_key_Some in Hr as [_ ?].
  - intros n s Hs. eexists. split; [done|]. intros r.
    rewrite elem_of_py_sorted, tbl_select_elem, im_version_elem, String.eqb_eq by done.
    unfold version_key. split; [by intros [? <-]|].
    intros Hr. apply by_key_Some in Hr as Hk. destruct Hk as [_ [= Hn]].
    simpl in *. by rewrite Hn.
  - intros id s Hs. eexists. split; [done|]. by rewrite dict_to_map_get.
  - intros n s Hs. eexists. split; [done|]. intros v.
    rewrite list_elem_of_fmap. setoid_rewrite elem_of_py_sorted_rev.
    setoid_rewrite tbl_select_elem. setoid_rewrite is_released_of_true.
    split.
    + intros (r & -> & Hin & <- & Hst). exists r. split; [|done].
      by apply im_version_elem.
    + intros (r & Hr & Hst). apply by_key_Some in Hr as [Hin [= <- <-]]. eauto 10.
  - intros n p d s Hs Hn _. by apply im_upsert_law.
  - intros [] m s Hs _ Hv [= <-] Hsrv Hnone. by apply im_insert_law.
  - intros n v r l s Hs Hr _ _. eexists. split; [done|]. split.
    + split; simpl; apply Hs.
    + unfold im_abs at 1, vs_set_deps. simpl. by rewrite dict_to_map_set.
  - intros n v r sha img chk s Hs Hr _ _.
    apply (im_update_law s n v r (fun r now => release_record r sha img chk now)); done.
  - intros n v r status s Hs Hr.
    apply (im_update_law s n v r (fun r now => status_record r status now)); done.
  - intros n v r ty actor reason details kept s Hs Hr _ _ [= <-]. eexists. split; [done|]. split.
    + split; simpl; apply Hs.
    + done.
Defined.

(** ** The PostgreSQL store implements the abstract one *)

Definition deps_of (rows : list (string * DependencySpec)) (r : VersionRecord)
    : list DependencySpec :=
  snd <$> tbl_select (fun row => row.1 =? vr_version_id r) rows.

Definition pg_abs (s : PostgresRepository) : VState :=
  {| vs_services := by_key si_service_name (pg_services s);
     vs_versions := by_key version_key (pg_versions s);
     vs_dependencies := deps_of (pg_dependencies s) <$> by_key vr_version_id (pg_versions s);
     vs_events := pg_events s; vs_now := pg_now s; vs_uuid := pg_uuid s |}.

(** The constraints of the tables, and that identifiers are drawn. *)
Record pg_inv (s : PostgresRepository) : Prop := {
  pg_services_unique : NoDup (si_service_name <$> pg_services s);
  pg_versions_unique : NoDup (version_key <$> pg_versions s);
  pg_ids_unique : NoDup (vr_version_id <$> pg_versions s);
  pg_ids_drawn r : r ∈ pg_versions s -> exists i, (i < pg_uuid s)%nat /\ vr_version_id r = uuid4 i;
  pg_dependencies_fk row :
    row ∈ pg_dependencies s -> exists r, r ∈ pg_versions s /\ vr_version_id r = row.1
}.

Hypothesis uuid4_inj : Inj (=) (=) uuid4.

Lemma is_version_iff n v r : is_version n v r = true <-> version_key r = (n, v).
Proof.
  unfold is_version, version_key. rewrite andb_true_iff, !String.eqb_eq.
  split; [by intros [-> ->]|by intros [= -> ->]].
Qed.

Lemma is_service_iff n r : is_service n r = true <-> si_service_name r = n.
Proof. apply String.eqb_eq. Qed.

Lemma pg_version_lookup s n v :
  vs_versions (pg_abs s) !! (n, v) = tbl_find (is_version n v) (pg_versions s).
Proof. apply by_key_find. intros. apply is_version_iff. Qed.

Lemma pg_service_lookup s n :
  vs_services (pg_abs s) !! n = tbl_find (is_service n) (pg_services s).
Proof. apply by_key_find. intros. apply is_service_iff. Qed.

Lemma pg_inv_init : pg_inv pg_init.
Proof. split; simpl; [constructor|constructor|constructor|set_solver|set_solver]. Qed.

Lemma pg_fresh_id s : pg_inv s -> uuid4 (pg_uuid s) ∉ vr_version_id <$> pg_versions s.
Proof.
  intros Hs (r & Heq & Hr)%list_elem_of_fmap.
  destruct (pg_ids_drawn s Hs r Hr) as (i & Hi & Hid).
  rewrite Hid in Heq. apply uuid4_inj in Heq. lia.
Qed.

Lemma pg_no_deps_fresh s id :
  pg_inv s -> id ∉ vr_version_id <$> pg_versions s ->
  tbl_select (fun row => row.1 =? id) (pg_dependencies s) = [].
Proof.
  intros Hs Hid. destruct (tbl_select _ _) as [|row l] eqn:E; [done|]. exfalso.
  assert (row ∈ tbl_select (fun row => row.1 =? id) (pg_dependencies s)) as Hr
    by (rewrite E; left).
  apply tbl_select_elem in Hr as [Hr Heq%String.eqb_eq].
  destruct (pg_dependencies_fk s Hs row Hr) as (r & Hin & Hk).
  apply Hid, list_elem_of_fmap. exists r. split; [congruence|done].
Qed.

Lemma pg_update_law s n v r f :
  pg_inv s -> vs_versions (pg_abs s) !! (n, v) = Some r ->
  (forall r0 now, version_key (f r0 now) = version_key r0) ->
  (forall r0 now, vr_version_id (f r0 now) = vr_version_id r0) ->
  let r' := f r (utc_now (vs_now (pg_abs s))) in
  exists s', pg_update n v f s = (Ok r', s') /\ pg_inv s' /\
    pg_abs s' = vs_set_version r' (pg_abs s).
Proof.
  intros Hs Hr Hf Hid r'. pose proof (by_key_Some _ _ _ _ Hr) as [_ Hkey].
  rewrite pg_version_lookup in Hr. unfold pg_update. rewrite Hr.
  set (g := fun r0 => f r0 (utc_now (pg_now s))).
  assert (Hids : vr_version_id <$> tbl_update (is_version n v) g (pg_versions s)
                 = vr_version_id <$> pg_versions s) by (apply keys_update; intros; apply Hid).
  eexists. split; [done|]. split.
  - destruct Hs as [H1 H2 H3 H4 H5]. split; simpl.
    + done.
    + rewrite keys_update; [done|]. intros. apply Hf.
    + by rewrite Hids.
    + intros r0 Hr0. assert (vr_version_id r0 ∈ vr_version_id <$> pg_versions s) as Hin.
      { rewrite <- Hids. by apply list_elem_of_fmap_2. }
      apply list_elem_of_fmap in Hin as (r1 & -> & Hr1). by apply H4.
    + intros row Hrow. destruct (H5 row Hrow) as (r0 & Hr0 & <-).
      assert (vr_version_id r0 ∈ vr_version_id <$> tbl_update (is_version n v) g (pg_versions s))
        as Hin by (rewrite Hids; by apply list_elem_of_fmap_2).
      apply list_elem_of_fmap in Hin as (r1 & Heq & Hr1). eauto.
  - unfold pg_abs at 1, vs_set_version. f_equal; simpl.
    + rewrite (by_key_update version_key _ _ (n, v) r); try done.
      * unfold r'. rewrite Hf, Hkey. done.
      * intros. apply is_version_iff.
      * intros r0 _ Hp. unfold g. rewrite Hf. by apply is_version_iff.
      * apply (pg_versions_unique s Hs).
    + rewrite by_key_update_fmap by (intros; apply Hid). rewrite <- map_fmap_compose.
      apply map_fmap_ext. intros i r0 _. unfold compose, deps_of.
      destruct (is_version n v r0); [|done]. unfold g. by rewrite Hid.
Qed.

Lemma pg_upsert_law n p d s :
  pg_inv s -> service_name_format n = true -> not_blank p = true ->
  exists s', pg_upsert_service n p d s = (Ok (vs_upsert n p d (pg_abs s)).1, s') /\
    pg_inv s' /\ pg_abs s' = (vs_upsert n p d (pg_abs s)).2.
Proof.
  intros Hs Hn Hp. unfold pg_upsert_service, vs_upsert. rewrite Hn, Hp. cbn [negb].
  pose proof (pg_service_lookup s n) as Hl. rewrite Hl.
  destruct Hs as [H1 H2 H3 H4 H5].
  destruct (tbl_find (is_service n) (pg_services s)) as [old|] eqn:Hf.
  - eexists. split; [done|]. split.
    + split; simpl; try done. rewrite keys_update; [done|]. done.
    + unfold pg_abs at 1, vs_set_service. f_equal. simpl.
      rewrite (by_key_update si_service_name _ _ n old); try done.
      * intros. apply is_service_iff.
      * intros r0 _ Hr0. simpl. by apply is_service_iff.
  - eexists. split; [done|]. apply by_key_None in Hl. simpl in Hl. split.
    + split; simpl; try done. by apply NoDup_fmap_snoc.
    + unfold pg_abs at 1, vs_set_service. f_equal. simpl. by rewrite by_key_snoc.
Qed.

Lemma pg_insert_law a m s :
  pg_inv s -> storable_insert a = true -> jsonb (vi_metadata a) = Some m ->
  is_Some (vs_services (pg_abs s) !! vi_service_name a) ->
  vs_versions (pg_abs s) !! (vi_service_name a, vi_version a) = None ->
  exists s', pg_insert_version a s = (Ok (vs_insert (with_metadata a m) (pg_abs s)).1, s') /\
    pg_inv s' /\ pg_abs s' = (vs_insert (with_metadata a m) (pg_abs s)).2.
Proof.
  intros Hs Ha Hm [srv Hsrv] Hnone. unfold pg_insert_version. rewrite Hm, Ha. cbn [negb].
  rewrite <- pg_version_lookup, Hnone, bool_decide_eq_false_2 by (intros [? ?]; done).
  rewrite <- pg_service_lookup, Hsrv, bool_decide_eq_false_2 by done.
  eexists. split; [done|]. simpl.
  set (r := new_version (with_metadata a m) (uuid4 (pg_uuid s)) (utc_now (pg_now s))).
  pose proof (pg_fresh_id s Hs) as Hfresh.
  assert (Hkey : version_key r ∉ version_key <$> pg_versions s) by (by apply by_key_None).
  split.
  - destruct Hs as [H1 H2 H3 H4 H5]. split; simpl; [done| | | |].
    + by apply NoDup_fmap_snoc.
    + by apply NoDup_fmap_snoc.
    + intros r0 [Hr0| ->%list_elem_of_singleton]%elem_of_app.
      * destruct (H4 r0 Hr0) as (j & Hj & ?). exists j. split; [lia|done].
      * exists (pg_uuid s). split; [lia|done].
    + intros row Hrow. destruct (H5 row Hrow) as (r0 & ? & ?). exists r0.
      rewrite elem_of_app. auto.
  - unfold pg_abs at 1, vs_insert. simpl. f_equal.
    + by rewrite (by_key_snoc version_key).
    + rewrite (by_key_snoc vr_version_id) by done. rewrite fmap_insert. f_equal.
      unfold deps_of. by rewrite (pg_no_deps_fresh s).
Qed.

Lemma existsb_true {A} (p : A -> bool) l x : x ∈ l -> p x = true -> existsb p l = true.
Proof. intros Hx Hp. apply existsb_exists. exists x. split; [by apply list_elem_of_In|done]. Qed.

Lemma existsb_false {A} (p : A -> bool) l :
  (forall x, x ∈ l -> p x = false) -> existsb p l = false.
Proof.
  induction l as [|x l IH]; intros Hp; simpl; [done|].
  rewrite (Hp x) by left. apply IH. intros. apply Hp. by right.
Qed.

(** The inserts of one transaction all pass. *)
Lemma pg_insert_dependencies_ok id l s rows :
  (exists r, r ∈ pg_versions s /\ vr_version_id r = id) ->
  NoDup (ds_service_name <$> l) ->
  (forall d, d ∈ l -> is_Some (vs_services (pg_abs s) !! ds_service_name d) /\
     not_blank (ds_min_version d) = true) ->
  (forall row, row ∈ rows -> row.1 = id -> ds_service_name row.2 ∉ ds_service_name <$> l) ->
  pg_insert_dependencies id l s rows = Ok (rows ++ ((fun d => (id, d)) <$> l))%list.
Proof.
  intros (r & Hr & Hid). revert rows.
  induction l as [|d l IH]; intros rows Hnd Hl Hrows; csimpl; [by rewrite app_nil_r|].
  rewrite fmap_cons, list.NoDup_cons in Hnd. destruct Hnd as [Hnin Hnd].
  destruct (Hl d) as [[srv Hsrv] Hmin]; [left|].
  unfold pg_insert_dependency at 1. rewrite Hmin. cbn [negb].
  rewrite existsb_false.
  - rewrite (existsb_true _ _ r) by (done || by apply String.eqb_eq).
    rewrite pg_service_lookup in Hsrv.
    assert (Hin : srv ∈ tbl_select (is_service (ds_service_name d)) (pg_services s)).
    { unfold tbl_find in Hsrv. destruct (tbl_select _ _); [done|].
      injection Hsrv as ->. left. }
    apply tbl_select_elem in Hin as [Hin Hp].
    rewrite (existsb_true _ _ srv) by done. cbn [negb]. unfold mbind, result_bind.
    rewrite IH; [by rewrite <- app_assoc|done|intros; apply Hl; by right|].
    intros row [Hrow| ->%list_elem_of_singleton]%elem_of_app Hrow1; [|done].
    specialize (Hrows row Hrow Hrow1). rewrite fmap_cons, not_elem_of_cons in Hrows. tauto.
  - intros row Hrow. apply andb_false_iff.
    destruct (String.eqb_spec row.1 id) as [Heq|]; [right|by left].
    specialize (Hrows row Hrow Heq). rewrite fmap_cons, not_elem_of_cons in Hrows.
    apply String.eqb_neq. tauto.
Qed.

Lemma select_fresh_rows (id id' : string) (l : list DependencySpec) :
  tbl_select (fun row : string * DependencySpec => row.1 =? id') ((fun d => (id, d)) <$> l) =
  if decide (id = id') then (fun d => (id, d)) <$> l else [].
Proof.
  unfold tbl_select. induction l as [|d l IH]; [by case_decide|].
  rewrite fmap_cons. case_decide as Hid.
  - rewrite filter_cons_True by (by apply String.eqb_eq). by rewrite IH.
  - by rewrite filter_cons_False by (rewrite String.eqb_eq; done).
Qed.

Lemma pg_set_dependencies_law n v r l s :
  pg_inv s -> vs_versions (pg_abs s) !! (n, v) = Some r ->
  NoDup (ds_service_name <$> l) ->
  (forall d, d ∈ l -> is_Some (vs_services (pg_abs s) !! ds_service_name d) /\
     not_blank (ds_min_version d) = true) ->
  exists s', pg_set_dependencies (vr_version_id r) l s = (Ok tt, s') /\
    pg_inv s' /\ pg_abs s' = vs_set_deps (vr_version_id r) l (pg_abs s).
Proof.
  intros Hs Hr Hnd Hl. apply by_key_Some in Hr as [Hr _].
  unfold pg_set_dependencies.
  rewrite (pg_insert_dependencies_ok _ _ _ _); [|by eauto|done|done|].
  2: { intros row Hrow Hid. exfalso. unfold tbl_delete in Hrow.
       apply list_elem_of_filter in Hrow as [Hrow%String.eqb_neq _]. done. }
  eexists. split; [done|]. split.
  - destruct Hs as [H1 H2 H3 H4 H5]. split; simpl; try done.
    intros row [Hrow|(d & -> & _)%list_elem_of_fmap]%elem_of_app; [|eauto].
    apply list_elem_of_filter in Hrow as [_ Hrow]. by apply H5.
  - unfold pg_abs at 1, vs_set_deps. f_equal. simpl. apply map_eq. intros j.
    rewrite lookup_insert, !lookup_fmap. unfold deps_of.
    case_decide as Hj.
    + subst j. rewrite (by_key_elem vr_version_id _ _ (pg_ids_unique s Hs) Hr).
      cbn [fmap option_fmap option_map]. f_equal.
      rewrite tbl_select_app, tbl_select_delete, select_fresh_rows, decide_True by done.
      simpl. rewrite <- list_fmap_compose. by apply list_fmap_id.
    + destruct (by_key vr_version_id (pg_versions s) !! j) as [r0|] eqn:Hr0; [|done].
      apply by_key_Some in Hr0 as [_ Hr0]. cbn [fmap option_fmap option_map]. f_equal.
      rewrite tbl_select_app, select_fresh_rows, decide_False, app_nil_r by congruence.
      rewrite tbl_select_delete_ne; [done|]. intros row.
      rewrite String.eqb_eq, String.eqb_neq. congruence.
Qed.

#[export] Instance PostgresRepository_laws : VersionRepositoryLaws PostgresRepository.
Proof.
  refine {| abs := pg_abs; repo_inv := pg_inv; stored := jsonb |}; simpl.
  - intros n s Hs. unfold pg_get_service. by rewrite <- pg_service_lookup.
  - intros s Hs. eexists. split; [done|]. intros i. rewrite elem_of_py_sorted. split.
    + intros Hi. by apply (by_key_elem si_service_name); [apply pg_services_unique|].
    + by intros [Hi _]%by_key_Some.
  - intros n v s Hs. unfold pg_get_version. by rewrite <- pg_version_lookup.
  - intros n v r s Hs Hr. by apply by_key_Some in Hr as [_ ?].
  - intros n s Hs. eexists. split; [done|]. intros r.
    rewrite elem_of_py_sorted, tbl_select_elem, String.eqb_eq. split.
    + intros [Hr <-]. by apply (by_key_elem version_key); [apply pg_versions_unique|].
    + intros [Hr [= Hn]]%by_key_Some. done.
  - intros id s Hs. eexists. split; [done|]. rewrite py_sorted_perm, lookup_fmap.
    destruct (by_key vr_version_id (pg_versions s) !! id) as [r|] eqn:Hr; simpl.
    + apply by_key_Some in Hr as [_ <-]. done.
    + apply by_key_None in Hr. by rewrite pg_no_deps_fresh.
  - intros n s Hs. eexists. split; [done|]. intros v.
    rewrite list_elem_of_fmap. setoid_rewrite elem_of_py_sorted_rev.
    setoid_rewrite tbl_select_elem. setoid_rewrite is_released_of_true. split.
    + intros (r & -> & Hin & <- & Hst). exists r. split; [|done].
      by apply (by_key_elem version_key); [apply pg_versions_unique|].
    + intros (r & [Hin [= <- <-]]%by_key_Some & Hst). eauto 10.
  - intros n p d s Hs Hn Hp. by apply pg_upsert_law.
  - intros a m s Hs Ha _ Hm Hsrv Hnone. by apply pg_insert_law.
  - intros n v r l s Hs Hr Hnd Hl. by eapply pg_set_dependencies_law.
  - intros n v r sha img chk s Hs Hr Hsha Hchk. unfold pg_update_version_release.
    rewrite Hsha, Hchk, !andb_false_r.
    by apply (pg_update_law s n v r (fun r now => release_record r sha img chk now)).
  - intros n v r status s Hs Hr.
    by apply (pg_update_law s n v r (fun r now => status_record r status now)).
  - intros n v r ty actor reason details kept s Hs Hr Hty Hactor Hk. unfold pg_insert_event.
    rewrite Hk, Hty, Hactor. apply by_key_Some in Hr as [Hr _].
    rewrite (existsb_true _ _ r) by (done || by apply String.eqb_eq).
    eexists. split; [done|]. split.
    + destruct Hs as [H1 H2 H3 H4 H5]. split; simpl; try done.
      intros r0 Hr0. destruct (H4 r0 Hr0) as (i & ? & ?). exists i. split; [lia|done].
    + done.
Defined.
End Stores.
