(* ===== verification/VersioningProps.v ===== *)
(** Correctness of the versioning service: over any lawful repository each call
    is a step of the abstract machine [spec_command]; the two repositories
    therefore answer alike, and the life cycle of versions is that machine's. *)
From stdpp Require Import base strings list gmap sorting pretty numbers.
From Stdlib Require Import Ascii.
From S2P Require Import Prelude PyStr SemVer Versioning VersioningStore.

(** ** Commands of the API that change the store *)

Inductive command :=
| CRegister (payload : ServiceCreate)
| CCreate (service_name : string) (payload : VersionCreate)
| CRelease (service_name version git_sha image_tag checksum actor reason : string)
| CDeprecate (service_name version actor reason : string)
| CRetire (service_name version actor reason : string).

Definition run_command {R} `{VersionRepository R} (c : command)
    : st R exc (ServiceInfo + ServiceVersion) :=
  match c with
  | CRegister p => r ← register_service p; mret (inl r)
  | CCreate n p => r ← create_version n p; mret (inr r)
  | CRelease n v sha img chk actor reason =>
      r ← release_version n v sha img chk actor reason; mret (inr r)
  | CDeprecate n v actor reason => r ← deprecate_version n v actor reason; mret (inr r)
  | CRetire n v actor reason => r ← retire_version n v actor reason; mret (inr r)
  end.

Fixpoint run_commands {R} `{VersionRepository R} (l : list command) (s : R)
    : list (result exc (ServiceInfo + ServiceVersion)) * R :=
  match l with
  | [] => ([], s)
  | c :: l' =>
      let '(r, s1) := run_command c s in
      let '(rs, s2) := run_commands l' s1 in
      (r :: rs, s2)
  end.

Definition create_args (n : string) (p : VersionCreate) (v : SemVer) : VersionInsert :=
  {| vi_service_name := n; vi_version := vc_version p; vi_semver := v; vi_status := DRAFT;
     vi_git_sha := vc_git_sha p; vi_image_tag := vc_image_tag p;
     vi_api_version := vc_api_version p;
     vi_min_compatible_version := vc_min_compatible_version p;
     vi_checksum_sha256 := None; vi_metadata := vc_metadata p |}.

(** The details of the events. *)
Definition creation_details (v : string) : json := JDict [("version", JStr v)].
Definition release_details (sha img chk : string) : json :=
  JDict [("git_sha", JStr sha); ("image_tag", JStr img); ("checksum_sha256", JStr chk)].

Section Stored.
(** What the store keeps of a JSON document: [None] where it refuses it. *)
Variable stored : json -> option json.

Definition storable (j : json) : bool := match stored j with Some _ => true | None => false end.
Definition kept (j : json) : json := default j (stored j).

Lemma storable_kept j : storable j = true -> stored j = Some (kept j).
Proof. unfold storable, kept. by destruct (stored j). Qed.

(** Arguments the columns take: names, plane, numbers, hashes in their formats,
    an actor that is not blank, JSON documents that the store does not refuse. *)
Definition valid_command (c : command) : bool :=
  match c with
  | CRegister p =>
      service_name_format (sc_service_name p) && not_blank (str_upper (sc_plane p))
  | CCreate n p =>
      match parse (vc_version p) with
      | Ok v => storable_insert (create_args n p v) && storable (vc_metadata p)
                && storable (creation_details (vc_version p))
      | Err _ => true
      end
  | CRelease _ _ sha img chk actor _ =>
      git_sha_format sha && checksum_format chk && not_blank actor
      && storable (release_details sha img chk)
  | CDeprecate _ _ actor _ | CRetire _ _ actor _ => not_blank actor && storable (JDict [])
  end.
End Stored.

(** ** The abstract machine *)

Definition view (r : VersionRecord) (deps : list DependencySpec) : ServiceVersion :=
  {| sv_version_id := vr_version_id r; sv_service_name := vr_service_name r;
     sv_version := vr_version r; sv_status := vr_status r; sv_git_sha := vr_git_sha r;
     sv_image_tag := vr_image_tag r; sv_api_version := vr_api_version r;
     sv_min_compatible_version := vr_min_compatible_version r;
     sv_checksum_sha256 := vr_checksum_sha256 r; sv_metadata := vr_metadata r;
     sv_created_at := vr_created_at r; sv_released_at := vr_released_at r;
     sv_deprecated_at := vr_deprecated_at r; sv_retired_at := vr_retired_at r;
     sv_dependencies := deps |}.

Definition not_found (v : string) : exc :=
  EVersioning (NotFoundError ("version not found: " ++ v)).
Definition bad_transition (verb : string) (s : LifecycleStatus) : exc :=
  EVersioning (InvalidTransitionError ("cannot " ++ verb ++ " version in status " ++ status_value s)).

Fixpoint spec_dependencies (n : string) (seen : gset string) (services : gmap string ServiceInfo)
    (l : list DependencySpec) : result exc (list DependencySpec) :=
  match l with
  | [] => Ok []
  | d :: l' =>
      if decide (ds_service_name d = n)
      then Err (EVersioning (VersioningError_ "a service cannot depend on itself"))
      else if decide (ds_service_name d ∈ seen)
      then Err (EVersioning (VersioningError_ ("duplicate dependency: " ++ ds_service_name d)))
      else match services !! ds_service_name d with
      | None => Err (EVersioning (NotFoundError
                  ("dependency service not found: " ++ ds_service_name d)))
      | Some _ =>
          match parse (ds_min_version d) with
          | Err e => Err (EVersioning (VersioningError_
              ("invalid dependency min_version for " ++ ds_service_name d ++ ": "
                 ++ semver_error_message e)))
          | Ok _ =>
              records ← spec_dependencies n ({[ds_service_name d]} ∪ seen) services l';
              Ok (d :: records)
          end
      end
  end.

Section Machine.
Variable utc_now : nat -> Z.
Variable uuid4 : nat -> string.
Variable stored : json -> option json.
Abbreviation kept := (kept stored).

(** A version changes state and the change is logged. *)
Definition spec_move (r' : VersionRecord) (ty actor reason : string) (details : json)
    (st : VState) : VState :=
  vs_log utc_now uuid4 (vr_version_id r') ty actor reason details (vs_set_version r' st).

Definition spec_create (n : string) (p : VersionCreate) (st : VState)
    : result exc VersionRecord * VState :=
  match vs_services st !! n with
  | None => (Err (EVersioning (NotFoundError ("service not found: " ++ n))), st)
  | Some _ =>
      match parse (vc_version p) with
      | Err e => (Err (EVersioning (VersioningError_ (semver_error_message e))), st)
      | Ok v =>
          match (match vc_min_compatible_version p with
                 | None => None
                 | Some m => match parse m with Ok _ => None | Err e => Some e end
                 end) with
          | Some e => (Err (EVersioning (VersioningError_
              ("invalid min_compatible_version: " ++ semver_error_message e))), st)
          | None =>
              match vs_versions st !! (n, vc_version p) with
              | Some _ => (Err (EVersioning (ConflictError
                  ("version already exists: " ++ vc_version p))), st)
              | None =>
                  match spec_dependencies n ∅ (vs_services st) (vc_dependencies p) with
                  | Err e => (Err e, st)
                  | Ok deps =>
                      let '(r, st1) := vs_insert utc_now uuid4
                        (with_metadata (create_args n p v) (kept (vc_metadata p))) st in
                      (Ok r, vs_log utc_now uuid4 (vr_version_id r) "VERSION_CREATED" "system"
                         "version draft created" (kept (creation_details (vc_version p)))
                         (vs_set_deps (vr_version_id r) deps st1))
                  end
              end
          end
      end
  end.

Definition spec_release (n v sha img chk actor reason : string) (st : VState)
    : result exc VersionRecord * VState :=
  match vs_versions st !! (n, v) with
  | None => (Err (not_found v), st)
  | Some r =>
      if decide (vr_status r = DRAFT) then
        match parse v with
        | Err e => (Err (ESemVer e), st)
        | Ok sem =>
            if is_stable sem then
              let r' := release_record r sha img chk (utc_now (vs_now st)) in
              (Ok r', spec_move r' "VERSION_RELEASED" actor reason
                 (kept (release_details sha img chk)) st)
            else (Err (EVersioning (VersioningError_ "only stable versions may be released")), st)
        end
      else (Err (bad_transition "release" (vr_status r)), st)
  end.

Definition spec_status (n v : string) (from to : LifecycleStatus) (verb ty actor reason : string)
    (st : VState) : result exc VersionRecord * VState :=
  match vs_versions st !! (n, v) with
  | None => (Err (not_found v), st)
  | Some r =>
      if decide (vr_status r = from) then
        let r' := status_record r to (utc_now (vs_now st)) in
        (Ok r', spec_move r' ty actor reason (kept (JDict [])) st)
      else (Err (bad_transition verb (vr_status r)), st)
  end.

Definition spec_command (c : command) (st : VState)
    : result exc (ServiceInfo + VersionRecord) * VState :=
  let version (p : result exc VersionRecord * VState) :=
    (match p.1 with Ok r => Ok (inr r) | Err e => Err e end, p.2) in
  match c with
  | CRegister p =>
      let '(r, st') := vs_upsert utc_now (sc_service_name p) (str_upper (sc_plane p))
                         (sc_description p) st in
      (Ok (inl r), st')
  | CCreate n p => version (spec_create n p st)
  | CRelease n v sha img chk actor reason =>
      version (spec_release n v sha img chk actor reason st)
  | CDeprecate n v actor reason =>
      version (spec_status n v RELEASED DEPRECATED "deprecate" "VERSION_DEPRECATED"
                 actor reason st)
  | CRetire n v actor reason =>
      version (spec_status n v DEPRECATED RETIRED "retire" "VERSION_RETIRED" actor reason st)
  end.

Fixpoint spec_commands (l : list command) (st : VState)
    : list (result exc (ServiceInfo + VersionRecord) * VState) * VState :=
  match l with
  | [] => ([], st)
  | c :: l' =>
      let '(r, st1) := spec_command c st in
      let '(rs, st2) := spec_commands l' st1 in
      ((r, st1) :: rs, st2)
  end.

(** What a caller sees of a record: its fields and its dependencies, in the
    order the store lists them. *)
Definition shows (st : VState) (sv : ServiceVersion) (r : VersionRecord) : Prop :=
  exists deps, sv = view r deps /\
    deps ≡ₚ default [] (vs_dependencies st !! vr_version_id r).

Definition agree (st : VState) (a : result exc (ServiceInfo + ServiceVersion))
    (b : result exc (ServiceInfo + VersionRecord)) : Prop :=
  match a, b with
  | Ok (inl i), Ok (inl i') => i = i'
  | Ok (inr sv), Ok (inr r) => shows st sv r
  | Err e, Err e' => e = e'
  | _, _ => False
  end.
End Machine.

(** ** Texts that parse as versions *)

Lemma no_char_lstrip c s : is_space c = false -> no_char c (lstrip s) -> no_char c s.
Proof.
  intros Hc. induction s as [|x s IH]; simpl; [done|].
  destruct (is_space x) eqn:Hx; [|done]. intros Hs. apply no_char_cons.
  split; [congruence|auto].
Qed.

Lemma no_char_rstrip c s : is_space c = false -> no_char c (rstrip s) -> no_char c s.
Proof.
  intros Hc. induction s as [|x s IH]; simpl; [done|]. rewrite no_char_cons.
  destruct (rstrip s) as [|y r].
  - destruct (is_space x) eqn:Hx.
    + intros _. split; [congruence|by apply IH].
    + intros [? _]%no_char_cons. split; [done|by apply IH].
  - intros [? ?]%no_char_cons. auto.
Qed.

Lemma numeric_no_colon s : numeric_ident s = true -> no_char ":" s.
Proof. by apply numeric_ident_no_char. Qed.

Lemma dotted_no_colon s : dotted s -> no_char ":" s.
Proof.
  induction 1 as [s Hs|s t Hs _ IH].
  - by apply (no_char_forall ident_char), ident_chars.
  - rewrite !no_char_app. split_and!; [|done|done].
    by apply (no_char_forall ident_char), ident_chars.
Qed.

Lemma parse_no_colon v sem : parse v = Ok sem -> no_char ":" v.
Proof.
  intros (g & Hg & _)%parse_Ok_iff. unfold strip in Hg.
  apply no_char_lstrip; [done|]. apply no_char_rstrip; [done|].
  revert Hg. generalize (rstrip (lstrip v)). intros t [x y z p b Hx Hy Hz Hp Hb].
  rewrite !no_char_app. split_and!; try done; try by apply numeric_no_colon.
  - destruct p as [p|]; [|done]. simpl. apply no_char_cons. split; [done|].
    by apply dotted_no_colon, Hp.
  - destruct b as [b|]; [|done]. simpl. apply no_char_cons. split; [done|].
    by apply dotted_no_colon, Hb.
Qed.

Lemma lstrip_blank s : str_forall (fun c => (c =? " ")%char) s = true -> lstrip s = "".
Proof.
  induction s as [|c s IH]; simpl; [done|]. rewrite andb_true_iff.
  intros [->%Ascii.eqb_eq Hs]. simpl. auto.
Qed.

Lemma parse_trim_nonempty v sem : parse v = Ok sem -> not_blank v = true.
Proof.
  intros Hp. unfold not_blank. apply negb_true_iff, not_true_is_false.
  intros Hs%lstrip_blank. unfold parse, strip in Hp. by rewrite Hs in Hp.
Qed.

(** ** The service refines the abstract machine *)

(** [run] computes a bind whose first computation is known. *)
Section Refinement.
Context (utc_now : nat -> Z) (uuid4 : nat -> string).
Context {R : Type} `{HR : VersionRepository R} (HL : VersionRepositoryLaws utc_now uuid4 R).
Implicit Types (s : R).

Abbreviation abs := (@VersioningStore.abs utc_now uuid4 R HR HL).
Abbreviation repo_inv := (@VersioningStore.repo_inv utc_now uuid4 R HR HL).
Abbreviation stored := (@VersioningStore.stored utc_now uuid4 R HR HL).
Abbreviation valid_command := (valid_command stored).
Abbreviation storable := (storable stored).

Lemma get_version_None n v s :
  repo_inv s -> vs_versions (abs s) !! (n, v) = None ->
  get_version n v s = (Err (not_found v), s).
Proof.
  intros Hs Hn. unfold get_version. run (law_get_version utc_now uuid4 n v s Hs).
  by rewrite Hn.
Qed.

Lemma get_version_Some n v r s :
  repo_inv s -> vs_versions (abs s) !! (n, v) = Some r ->
  exists deps, get_version n v s = (Ok (view r deps), s) /\
    deps ≡ₚ default [] (vs_dependencies (abs s) !! vr_version_id r).
Proof.
  intros Hs Hr. unfold get_version. run (law_get_version utc_now uuid4 n v s Hs).
  rewrite Hr. destruct (law_get_dependencies utc_now uuid4 (vr_version_id r) s Hs)
    as (deps & Hd & Hp). run Hd. exists deps. split; [done|exact Hp].
Qed.

(** Reading a version back shows its record. *)
Lemma get_version_shows n v r s :
  repo_inv s -> vs_versions (abs s) !! (n, v) = Some r ->
  exists sv, get_version n v s = (Ok sv, s) /\ shows (abs s) sv r.
Proof.
  intros Hs Hr. destruct (get_version_Some n v r s Hs Hr) as (deps & Hg & Hp).
  exists (view r deps). split; [done|]. by exists deps.
Qed.

Lemma check_dependencies_spec n seen l s :
  repo_inv s ->
  check_dependencies n seen l s = (spec_dependencies n seen (vs_services (abs s)) l, s).
Proof.
  intros Hs. revert seen. induction l as [|d l IH]; intros seen; simpl; [done|].
  rewrite guard_decide_bind. case_decide as Hself; [done|].
  rewrite guard_decide_bind. case_decide as Hseen; [done|].
  run (law_get_service utc_now uuid4 (ds_service_name d) s Hs).
  destruct (vs_services (abs s) !! ds_service_name d); [|done].
  unfold parse_version, lift, mbind, st_bind, result_bind.
  destruct (parse (ds_min_version d)); simpl; [|done].
  rewrite IH. destruct (spec_dependencies _ _ _ l); [|done]. by destruct d.
Qed.

Lemma spec_dependencies_ok n seen services l deps :
  spec_dependencies n seen services l = Ok deps ->
  deps = l /\ NoDup (ds_service_name <$> l) /\
  (forall d, d ∈ l -> ds_service_name d ∉ seen /\ is_Some (services !! ds_service_name d) /\
     is_ok (parse (ds_min_version d)) = true).
Proof.
  revert seen deps. induction l as [|d l IH]; intros seen deps; simpl.
  - intros [= <-]. split_and!; [done|constructor|set_solver].
  - case_decide as Hself; [done|]. case_decide as Hseen; [done|].
    destruct (services !! ds_service_name d) eqn:Hsrv; [|done].
    destruct (parse (ds_min_version d)) eqn:Hp; [|done].
    unfold mbind, result_bind. destruct (spec_dependencies _ _ _ l) as [k|] eqn:Hk; [|done].
    intros [= <-]. destruct (IH _ _ Hk) as (-> & Hnd & Hall). split_and!; [done| |].
    + apply list.NoDup_cons. split; [|done].
      intros (d' & Heq & Hd')%list_elem_of_fmap. destruct (Hall d' Hd') as [Hns _].
      apply Hns. rewrite <- Heq. set_solver.
    + intros d' [->|Hd']%elem_of_cons.
      * rewrite Hsrv, Hp. eauto.
      * destruct (Hall d' Hd') as (Hns & ? & ?). set_solver.
Qed.

(** A call of the service and a step of the machine: same store, same answer. *)
Definition refines (p : result exc ServiceVersion * R) (q : result exc VersionRecord * VState)
    : Prop :=
  repo_inv p.2 /\ abs p.2 = q.2 /\
  match p.1, q.1 with
  | Ok sv, Ok r => shows q.2 sv r
  | Err e, Err e' => e = e'
  | _, _ => False
  end.

Lemma refines_err s e : repo_inv s -> refines (Err e, s) (Err e, abs s).
Proof. intros Hs. by split_and!. Qed.

Lemma refines_read n v r s :
  repo_inv s -> vs_versions (abs s) !! (n, v) = Some r ->
  refines (get_version n v s) (Ok r, abs s).
Proof.
  intros Hs Hr. destruct (get_version_shows n v r s Hs Hr) as (sv & -> & Hv). by split_and!.
Qed.

(** The tail every change shares: log the event and read the version back. *)
Lemma refines_log n v r ty actor reason details s :
  repo_inv s -> vs_versions (abs s) !! (n, v) = Some r ->
  not_blank ty = true -> not_blank actor = true -> storable details = true ->
  refines ((insert_event (vr_version_id r) ty actor reason details ≫= fun _ =>
              get_version n v) s)
    (Ok r, vs_log utc_now uuid4 (vr_version_id r) ty actor reason (kept stored details) (abs s)).
Proof.
  intros Hs Hr Hty Hact Hst%storable_kept.
  destruct (law_event utc_now uuid4 n v r ty actor reason details _ s Hs Hr Hty Hact Hst)
    as (s' & He & Hs' & Ha).
  run He. rewrite <- Ha. apply refines_read; [done|]. by rewrite Ha.
Qed.

Lemma set_version_lookup n v r' st :
  version_key r' = (n, v) -> vs_versions (vs_set_version r' st) !! (n, v) = Some r'.
Proof. intros Hk. simpl. rewrite Hk. by rewrite lookup_insert_eq. Qed.

Lemma release_refines n v sha img chk actor reason s :
  repo_inv s -> git_sha_format sha = true -> checksum_format chk = true ->
  not_blank actor = true -> storable (release_details sha img chk) = true ->
  refines (release_version n v sha img chk actor reason s)
    (spec_release utc_now uuid4 stored n v sha img chk actor reason (abs s)).
Proof.
  intros Hs Hsha Hchk Hact Hd. unfold release_version, spec_release.
  destruct (vs_versions (abs s) !! (n, v)) as [r|] eqn:Hr.
  2:{ run_err (get_version_None n v s Hs Hr). by apply refines_err. }
  destruct (get_version_Some n v r s Hs Hr) as (deps & Hg & _). run Hg.
  rewrite guard_unless_bind. simpl. case_decide; [|by apply refines_err].
  unfold parse_version. destruct (parse v) as [sem|e].
  2:{ rewrite (st_bind_err _ _ _ (ESemVer e) s) by done. by apply refines_err. }
  rewrite (st_bind_ok _ _ _ sem s) by done. rewrite guard_raise_bind.
  destruct (is_stable sem); simpl; [|by apply refines_err].
  destruct (law_release utc_now uuid4 n v r sha img chk s Hs Hr Hsha Hchk)
    as (s' & Hu & Hs' & Ha).
  run Hu. unfold spec_move. rewrite <- Ha. apply refines_log; [done| |done..].
  rewrite Ha. apply set_version_lookup.
  exact (law_version_key utc_now uuid4 n v r s Hs Hr).
Qed.

(** The two other moves, which differ in the statuses and the event. *)
Lemma status_refines n v from to verb ty actor reason s :
  repo_inv s -> not_blank ty = true -> not_blank actor = true -> storable (JDict []) = true ->
  refines
    ((current ← get_version n v;
      guard_raise (negb (bool_decide (sv_status current = from)))
        (bad_transition verb (sv_status current)) ≫= fun _ =>
      record ← update_version_status n v to;
      insert_event (vr_version_id record) ty actor reason (JDict []) ≫= fun _ =>
      get_version n v) s)
    (spec_status utc_now uuid4 stored n v from to verb ty actor reason (abs s)).
Proof.
  intros Hs Hty Hact Hd. unfold spec_status.
  destruct (vs_versions (abs s) !! (n, v)) as [r|] eqn:Hr.
  2:{ run_err (get_version_None n v s Hs Hr). by apply refines_err. }
  destruct (get_version_Some n v r s Hs Hr) as (deps & Hg & _). run Hg.
  rewrite guard_unless_bind. simpl. case_decide; [|by apply refines_err].
  destruct (law_status utc_now uuid4 n v r to s Hs Hr) as (s' & Hu & Hs' & Ha).
  run Hu. unfold spec_move. rewrite <- Ha. apply refines_log; [done| |done..].
  rewrite Ha. apply set_version_lookup.
  exact (law_version_key utc_now uuid4 n v r s Hs Hr).
Qed.

Lemma create_refines n p s :
  repo_inv s -> valid_command (CCreate n p) = true ->
  refines (create_version n p s) (spec_create utc_now uuid4 stored n p (abs s)).
Proof.
  intros Hs Hvalid. unfold create_version, spec_create.
  run (law_get_service utc_now uuid4 n s Hs).
  destruct (vs_services (abs s) !! n) as [srv|] eqn:Hsrv; [|by apply refines_err].
  unfold VersioningProps.valid_command in Hvalid. unfold parse_version.
  destruct (parse (vc_version p)) as [sem|e] eqn:Hparse.
  2:{ by rewrite (st_bind_err _ _ _ (EVersioning (VersioningError_ (semver_error_message e))) s);
        [apply refines_err|]. }
  rewrite (st_bind_ok _ _ _ sem s) by done.
  set (mc := match vc_min_compatible_version p with Some m => _ | None => mret tt end).
  destruct (match vc_min_compatible_version p with
            | None => None
            | Some m => match parse m with Ok _ => None | Err e => Some e end
            end) as [e|] eqn:Hmin.
  { rewrite (st_bind_err _ _ _ (EVersioning (VersioningError_
      ("invalid min_compatible_version: " ++ semver_error_message e))) s); [by apply refines_err|].
    subst mc. destruct (vc_min_compatible_version p) as [m|]; [|done].
    by destruct (parse m); simplify_eq. }
  rewrite (st_bind_ok _ _ _ tt s).
  2:{ subst mc. destruct (vc_min_compatible_version p) as [m|]; [|done].
      by destruct (parse m); simplify_eq. }
  run (law_get_version utc_now uuid4 n (vc_version p) s Hs).
  destruct (vs_versions (abs s) !! (n, vc_version p)) as [old|] eqn:Hold;
    [by apply refines_err|].
  destruct (spec_dependencies n ∅ (vs_services (abs s)) (vc_dependencies p)) as [deps|e] eqn:Hdeps.
  2:{ rewrite (st_bind_err _ _ _ e s); [by apply refines_err|].
      by rewrite check_dependencies_spec, Hdeps. }
  rewrite (st_bind_ok _ _ _ deps s) by (by rewrite check_dependencies_spec, Hdeps).
  destruct (spec_dependencies_ok _ _ _ _ _ Hdeps) as (-> & Hnd & Hall).
  apply andb_true_iff in Hvalid as [[Hvalid Hmeta%storable_kept]%andb_true_iff Hcreation].
  destruct (law_insert utc_now uuid4 (create_args n p sem) _ s Hs Hvalid
              (parse_no_colon _ _ Hparse) Hmeta (ex_intro _ srv Hsrv) Hold) as (s1 & H1 & Hs1 & Ha1).
  run H1. unfold vs_insert in *. cbn [fst snd] in *.
  set (r := new_version (with_metadata (create_args n p sem) _) (uuid4 (vs_uuid (abs s)))
              (utc_now (vs_now (abs s)))) in *.
  assert (Hr1 : vs_versions (abs s1) !! (n, vc_version p) = Some r).
  { rewrite Ha1. simpl. by rewrite lookup_insert_eq. }
  destruct (law_set_dependencies utc_now uuid4 n (vc_version p) r (vc_dependencies p) s1 Hs1 Hr1 Hnd)
    as (s2 & H2 & Hs2 & Ha2).
  { intros d Hd. rewrite Ha1. destruct (Hall d Hd) as (_ & ? & Hp). split; [done|].
    destruct (parse (ds_min_version d)) eqn:Hm; [|done]. by eapply parse_trim_nonempty. }
  run H2. rewrite Ha1 in Ha2. rewrite <- Ha2. apply refines_log; [done| |done..].
  rewrite Ha2. simpl. by rewrite lookup_insert_eq.
Qed.

Lemma refines_command (m : st R exc ServiceVersion) s q :
  refines (m s) q ->
  exists r s', (r0 ← m; mret (inr r0)) s = (r, s') /\ repo_inv s' /\ abs s' = q.2 /\
    agree q.2 r (match q.1 with Ok r => Ok (inr r) | Err e => Err e end).
Proof.
  unfold refines, mbind, st_bind. destruct (m s) as [[sv|e] s'], q as [[r|e'] st'];
    simpl; intros (Hs & Ha & Hr); try done.
  - by exists (Ok (inr sv)), s'.
  - by exists (Err e), s'.
Qed.

Lemma command_refines c s :
  repo_inv s -> valid_command c = true ->
  exists r s', run_command c s = (r, s') /\ repo_inv s' /\
    abs s' = (spec_command utc_now uuid4 stored c (abs s)).2 /\
    agree (abs s') r (spec_command utc_now uuid4 stored c (abs s)).1.
Proof.
  intros Hs Hvalid.
  destruct c as [p|n p|n v sha img chk actor reason|n v actor reason|n v actor reason];
    unfold run_command, spec_command.
  - apply andb_true_iff in Hvalid as [Hn Hp].
    destruct (law_upsert utc_now uuid4 _ _ (sc_description p) s Hs Hn Hp) as (s' & Hu & Hs' & Ha).
    unfold register_service. run Hu.
    eexists _, s'. rewrite Ha. unfold vs_upsert. by split_and!.
  - destruct (refines_command _ _ _ (create_refines n p s Hs Hvalid)) as (r & s' & ? & ? & Ha & ?).
    exists r, s'. rewrite Ha. by split_and!.
  - apply andb_true_iff in Hvalid as [[[Hsha Hchk]%andb_true_iff Hact]%andb_true_iff Hd].
    destruct (refines_command _ _ _ (release_refines n v sha img chk actor reason s Hs Hsha Hchk Hact Hd))
      as (r & s' & ? & ? & Ha & ?).
    exists r, s'. rewrite Ha. by split_and!.
  - apply andb_true_iff in Hvalid as [Hact Hd].
    destruct (refines_command _ _ _ (status_refines n v RELEASED DEPRECATED "deprecate"
      "VERSION_DEPRECATED" actor reason s Hs eq_refl Hact Hd)) as (r & s' & ? & ? & Ha & ?).
    exists r, s'. rewrite Ha. by split_and!.
  - apply andb_true_iff in Hvalid as [Hact Hd].
    destruct (refines_command _ _ _ (status_refines n v DEPRECATED RETIRED "retire"
      "VERSION_RETIRED" actor reason s Hs eq_refl Hact Hd)) as (r & s' & ? & ? & Ha & ?).
    exists r, s'. rewrite Ha. by split_and!.
Qed.

(** A run of the service is the run of the machine, answer by answer. *)
Lemma commands_refine l s :
  repo_inv s -> forallb valid_command l = true ->
  let '(rs, s') := run_commands l s in
  let '(qs, st') := spec_commands utc_now uuid4 stored l (abs s) in
  repo_inv s' /\ abs s' = st' /\ Forall2 (fun r q => agree q.2 r q.1) rs qs.
Proof.
  revert s. induction l as [|c l IH]; intros s Hs; simpl.
  { intros _. split_and!; [done|done|constructor]. }
  rewrite andb_true_iff. intros [Hc Hl].
  destruct (command_refines c s Hs Hc) as (r & s1 & -> & Hs1 & Ha1 & Hr).
  destruct (spec_command utc_now uuid4 stored c (abs s)) as [q st1]. simpl in *. subst st1.
  specialize (IH s1 Hs1 Hl).
  destruct (run_commands l s1) as [rs s2], (spec_commands utc_now uuid4 stored l (abs s1)) as [qs st2].
  destruct IH as (? & ? & ?). split_and!; [done|done|]. by constructor.
Qed.
End Refinement.

(** ** The life cycle of versions *)

(** The events a version in a given status has gone through, oldest first. *)
Definition lifecycle_log (s : LifecycleStatus) : list string :=
  match s with
  | DRAFT => ["VERSION_CREATED"]
  | RELEASED => ["VERSION_CREATED"; "VERSION_RELEASED"]
  | DEPRECATED => ["VERSION_CREATED"; "VERSION_RELEASED"; "VERSION_DEPRECATED"]
  | RETIRED => ["VERSION_CREATED"; "VERSION_RELEASED"; "VERSION_DEPRECATED"; "VERSION_RETIRED"]
  end.

Definition events_of (id : string) (l : list VersionEvent) : list string :=
  ve_event_type <$> filter (fun e => ve_version_id e = id) l.

(** The fields of a row in each status. *)
Definition status_fields (r : VersionRecord) : Prop :=
  match vr_status r with
  | DRAFT => vr_released_at r = None /\ vr_deprecated_at r = None /\ vr_retired_at r = None
             /\ vr_checksum_sha256 r = None
  | RELEASED => is_Some (vr_released_at r) /\ vr_deprecated_at r = None /\ vr_retired_at r = None
  | DEPRECATED => is_Some (vr_released_at r) /\ is_Some (vr_deprecated_at r)
                  /\ vr_retired_at r = None
  | RETIRED => is_Some (vr_released_at r) /\ is_Some (vr_deprecated_at r)
               /\ is_Some (vr_retired_at r)
  end.

(** Once out of DRAFT a version is a stable one with its build recorded. *)
Definition released_fields (r : VersionRecord) (sem : SemVer) : Prop :=
  vr_status r <> DRAFT ->
  is_stable sem = true /\ is_Some (vr_git_sha r) /\ is_Some (vr_image_tag r)
  /\ is_Some (vr_checksum_sha256 r).

Definition record_wf (r : VersionRecord) : Prop :=
  status_fields r /\
  exists sem, parse (vr_version r) = Ok sem /\
    (vr_major r, vr_minor r, vr_patch r) = numeric_tuple sem /\
    vr_prerelease r = SemVer.prerelease sem /\ released_fields r sem.

Record vs_wf (uuid4 : nat -> string) (st : VState) : Prop := {
  wf_key n v r : vs_versions st !! (n, v) = Some r -> version_key r = (n, v);
  wf_service n v r : vs_versions st !! (n, v) = Some r -> is_Some (vs_services st !! n);
  wf_record n v r : vs_versions st !! (n, v) = Some r -> record_wf r;
  wf_deps id l d : vs_dependencies st !! id = Some l -> d ∈ l ->
    is_Some (vs_services st !! ds_service_name d) /\ is_ok (parse (ds_min_version d)) = true;
  wf_id n v r : vs_versions st !! (n, v) = Some r ->
    exists i, (i < vs_uuid st)%nat /\ vr_version_id r = uuid4 i;
  wf_id_inj k k' r r' : vs_versions st !! k = Some r -> vs_versions st !! k' = Some r' ->
    vr_version_id r = vr_version_id r' -> k = k';
  wf_event e : e ∈ vs_events st -> exists i, (i < vs_uuid st)%nat /\ ve_version_id e = uuid4 i;
  wf_log n v r : vs_versions st !! (n, v) = Some r ->
    events_of (vr_version_id r) (vs_events st) = lifecycle_log (vr_status r)
}.

Definition vs_init : VState :=
  {| vs_services := ∅; vs_versions := ∅; vs_dependencies := ∅; vs_events := [];
     vs_now := 0; vs_uuid := 0 |}.

Section Lifecycle.
Context (utc_now : nat -> Z) (uuid4 : nat -> string) (uuid4_inj : Inj (=) (=) uuid4).
Context (stored : json -> option json).

Lemma vs_wf_init : vs_wf uuid4 vs_init.
Proof. split; simpl; intros *; rewrite ?lookup_empty; try done; by intros ?%elem_of_nil. Qed.

Lemma events_of_snoc id e l :
  events_of id (l ++ [e])%list =
  if decide (ve_version_id e = id) then (events_of id l ++ [ve_event_type e])%list
  else events_of id l.
Proof.
  unfold events_of. rewrite list.filter_app, fmap_app. unfold filter at 2. simpl.
  case_decide; simpl; [done|]. by rewrite app_nil_r.
Qed.

Lemma events_of_fresh id l : (forall e, e ∈ l -> ve_version_id e <> id) -> events_of id l = [].
Proof.
  induction l as [|e l IH] using rev_ind; [done|]. intros Hne. rewrite events_of_snoc.
  rewrite decide_False by (apply Hne, elem_of_app; right; by apply list_elem_of_singleton).
  apply IH. intros e' He'. apply Hne, elem_of_app. by left.
Qed.

(** A service registered again keeps every version and every dependency. *)
Lemma wf_upsert n p d st :
  vs_wf uuid4 st -> vs_wf uuid4 (vs_upsert utc_now n p d st).2.
Proof.
  intros Hw. unfold vs_upsert. simpl.
  generalize (match vs_services st !! n with
              | Some old => touch_service old p d (utc_now (vs_now st))
              | None => new_service n p d (utc_now (vs_now st)) end).
  intros i. destruct Hw. split; simpl; try done.
  - intros n' v r Hr. destruct (decide (n' = n)) as [->|Hn].
    + by rewrite lookup_insert_eq.
    + rewrite lookup_insert_ne by done. eauto.
  - intros id l d' Hl Hd. destruct (wf_deps0 id l d' Hl Hd) as [Hs Hp]. split; [|done].
    destruct (decide (ds_service_name d' = n)) as [->|Hn].
    + by rewrite lookup_insert_eq.
    + by rewrite lookup_insert_ne.
Qed.

(** A move: the row keeps its identity and its log grows by the event of its
    new status. *)
Lemma wf_move n v r r' ty actor reason details st :
  vs_wf uuid4 st -> vs_versions st !! (n, v) = Some r ->
  version_key r' = (n, v) -> vr_version_id r' = vr_version_id r -> record_wf r' ->
  lifecycle_log (vr_status r') = (lifecycle_log (vr_status r) ++ [ty])%list ->
  vs_wf uuid4 (spec_move utc_now uuid4 r' ty actor reason details st).
Proof.
  intros Hw Hr Hk Hid Hrec Hlog. unfold spec_move. rewrite Hid.
  assert (Hv : vs_versions (vs_set_version r' st) = <[(n, v) := r']> (vs_versions st)).
  { simpl. by rewrite Hk. }
  split; simpl; try rewrite Hk.
  - intros n' v' r1 [[[= <- <-] <-]|[_ H]]%lookup_insert_Some; [done|by eapply wf_key].
  - intros n' v' r1 [[[= <- <-] <-]|[_ H]]%lookup_insert_Some; by eapply wf_service.
  - intros n' v' r1 [[[= <- <-] <-]|[_ H]]%lookup_insert_Some; [done|by eapply wf_record].
  - by eapply wf_deps.
  - intros n' v' r1 [[[= <- <-] <-]|[_ H]]%lookup_insert_Some.
    + rewrite Hid. destruct (wf_id _ _ Hw n v r Hr) as (i & ? & ?). exists i. split; [lia|done].
    + destruct (wf_id _ _ Hw n' v' r1 H) as (i & ? & ?). exists i. split; [lia|done].
  - intros k k' r1 r2 [[<- <-]|[Hne H1]]%lookup_insert_Some [[<- <-]|[Hne' H2]]%lookup_insert_Some
      Heq; try done.
    + rewrite Hid in Heq. by eapply (wf_id_inj _ _ Hw).
    + rewrite Hid in Heq. by eapply (wf_id_inj _ _ Hw).
    + by eapply (wf_id_inj _ _ Hw).
  - intros e [He| ->%list_elem_of_singleton]%elem_of_app; simpl.
    + destruct (wf_event _ _ Hw e He) as (i & ? & ?). exists i. split; [lia|done].
    + destruct (wf_id _ _ Hw n v r Hr) as (i & ? & ?). exists i. split; [lia|done].
  - intros n' v' r1 H. rewrite events_of_snoc. simpl.
    apply lookup_insert_Some in H as [[[= <- <-] <-]|[Hne H]].
    + rewrite decide_True by done. by rewrite Hid, (wf_log _ _ Hw n v r Hr).
    + rewrite decide_False; [by apply (wf_log _ _ Hw n' v')|].
      intros Heq. apply Hne. by eapply (wf_id_inj _ _ Hw).
Qed.

Lemma wf_create n p st : vs_wf uuid4 st -> vs_wf uuid4 (spec_create utc_now uuid4 stored n p st).2.
Proof.
  intros Hw. unfold spec_create.
  destruct (vs_services st !! n) eqn:Hsrv; [|done].
  destruct (parse (vc_version p)) as [sem|] eqn:Hparse; [|done].
  destruct (match vc_min_compatible_version p with Some m => _ | None => None end); [done|].
  destruct (vs_versions st !! (n, vc_version p)) eqn:Hold; [done|].
  destruct (spec_dependencies _ _ _ _) as [deps|] eqn:Hdeps; [|done].
  destruct (spec_dependencies_ok _ _ _ _ _ Hdeps) as (-> & _ & Hall).
  set (r := new_version (with_metadata (create_args n p sem) (kept stored (vc_metadata p))) (uuid4 (vs_uuid st)) (utc_now (vs_now st))).
  assert (Hfresh : forall n' v' r', vs_versions st !! (n', v') = Some r' ->
    vr_version_id r' <> uuid4 (vs_uuid st)).
  { intros n' v' r' H Heq. destruct (wf_id _ _ Hw n' v' r' H) as (i & Hi & Hid).
    rewrite Hid in Heq. apply uuid4_inj in Heq. lia. }
  unfold vs_insert. fold r. simpl. change (version_key r) with (n, vc_version p). split; simpl.
  - intros n' v' r1 [[[= <- <-] <-]|[_ H]]%lookup_insert_Some; [done|by eapply wf_key].
  - intros n' v' r1 [[[= <- <-] <-]|[_ H]]%lookup_insert_Some; [done|by eapply wf_service].
  - intros n' v' r1 [[[= <- <-] <-]|[_ H]]%lookup_insert_Some; [|by eapply wf_record].
    split; [by split_and!|]. exists sem. by split_and!.
  - intros id l d [[<- <-]|[Hne [[<- <-]|[_ H]]%lookup_insert_Some]]%lookup_insert_Some Hd.
    + destruct (Hall d Hd) as (_ & ? & ?). done.
    + by apply elem_of_nil in Hd.
    + by eapply wf_deps.
  - intros n' v' r1 [[[= <- <-] <-]|[_ H]]%lookup_insert_Some.
    + exists (vs_uuid st). split; [lia|done].
    + destruct (wf_id _ _ Hw n' v' r1 H) as (i & ? & ?). exists i. split; [lia|done].
  - intros [n1 v1] [n2 v2] r1 r2 [[<- <-]|[Hne H1]]%lookup_insert_Some
      [[<- <-]|[Hne' H2]]%lookup_insert_Some Heq; try done.
    + by destruct (Hfresh n2 v2 r2 H2).
    + by destruct (Hfresh n1 v1 r1 H1).
    + by eapply (wf_id_inj _ _ Hw).
  - intros e [He| ->%list_elem_of_singleton]%elem_of_app; simpl.
    + destruct (wf_event _ _ Hw e He) as (i & ? & ?). exists i. split; [lia|done].
    + exists (vs_uuid st). split; [lia|done].
  - intros n' v' r1 H. rewrite events_of_snoc. simpl.
    apply lookup_insert_Some in H as [[[= <- <-] <-]|[Hne H]].
    + rewrite decide_True by done. enough (events_of (uuid4 (vs_uuid st)) (vs_events st) = [])
        as Hnil by (simpl; by rewrite Hnil).
      apply events_of_fresh. intros e He Heq.
      destruct (wf_event _ _ Hw e He) as (i & Hi & Hid). rewrite Hid in Heq.
      apply uuid4_inj in Heq. lia.
    + rewrite decide_False; [by apply (wf_log _ _ Hw n' v')|].
      intros Heq. by apply (Hfresh n' v' r1 H).
Qed.

Lemma record_wf_parse r : record_wf r -> exists sem, parse (vr_version r) = Ok sem.
Proof. intros (_ & sem & Hp & _). eauto. Qed.

Lemma wf_release n v sha img chk actor reason st :
  vs_wf uuid4 st -> vs_wf uuid4 (spec_release utc_now uuid4 stored n v sha img chk actor reason st).2.
Proof.
  intros Hw. unfold spec_release. destruct (vs_versions st !! (n, v)) as [r|] eqn:Hr; [|done].
  case_decide as Hd; [|done]. destruct (parse v) as [sem|] eqn:Hp; [|done].
  destruct (is_stable sem) eqn:Hst; [|done]. simpl.
  pose proof (wf_key _ _ Hw n v r Hr) as Hk.
  destruct (wf_record _ _ Hw n v r Hr) as (Hf & sem' & Hp' & Hnum & Hpre & _).
  assert (vr_version r = v) as Hv by (unfold version_key in Hk; congruence).
  eapply wf_move; try done; simpl; [|by rewrite Hd].
  rewrite Hv, Hp in Hp'. injection Hp' as <-. unfold status_fields in Hf. rewrite Hd in Hf.
  destruct Hf as (_ & ? & ? & _).
  split; [split_and!; simpl; eauto|]. exists sem. simpl. rewrite Hv.
  by split_and!; unfold released_fields; simpl; eauto.
Qed.

Lemma wf_status n v from to verb ty actor reason st :
  (from, to, ty) ∈ [(RELEASED, DEPRECATED, "VERSION_DEPRECATED");
                    (DEPRECATED, RETIRED, "VERSION_RETIRED")] ->
  vs_wf uuid4 st ->
  vs_wf uuid4 (spec_status utc_now uuid4 stored n v from to verb ty actor reason st).2.
Proof.
  intros Hin Hw. unfold spec_status.
  destruct (vs_versions st !! (n, v)) as [r|] eqn:Hr; [|done].
  case_decide as Hd; [|done]. simpl.
  pose proof (wf_key _ _ Hw n v r Hr) as Hk.
  destruct (wf_record _ _ Hw n v r Hr) as (Hf & sem & Hp & Hnum & Hpre & Hrel).
  unfold status_fields in Hf. rewrite Hd in Hf.
  rewrite !elem_of_cons in Hin. destruct Hin as [[= -> -> ->]|[[= -> -> ->]|Hin%elem_of_nil]];
    [| |done]; (eapply wf_move; try done; simpl; [|by rewrite Hd]);
    (split; [unfold status_fields; simpl; naive_solver|]);
    exists sem; (split_and!; try done); intros _; apply Hrel; by rewrite Hd.
Qed.

Lemma wf_command c st : vs_wf uuid4 st -> vs_wf uuid4 (spec_command utc_now uuid4 stored c st).2.
Proof.
  destruct c as [p|n p|n v sha img chk actor reason|n v actor reason|n v actor reason]; simpl.
  - by apply wf_upsert.
  - by apply wf_create.
  - by apply wf_release.
  - apply wf_status. set_solver.
  - apply wf_status. set_solver.
Qed.

Lemma wf_commands l st : vs_wf uuid4 st -> vs_wf uuid4 (spec_commands utc_now uuid4 stored l st).2.
Proof.
  revert st. induction l as [|c l IH]; intros st Hw; simpl; [done|].
  pose proof (wf_command c st Hw) as Hc.
  destruct (spec_command utc_now uuid4 stored c st) as [q st1]. simpl in Hc.
  specialize (IH st1 Hc). by destruct (spec_commands utc_now uuid4 stored l st1).
Qed.
End Lifecycle.

Section History.
Context (utc_now : nat -> Z) (uuid4 : nat -> string) (uuid4_inj : Inj (=) (=) uuid4).
Context (stored : json -> option json).

(** Order of the statuses along the life of a version. *)
Definition status_rank (s : LifecycleStatus) : nat :=
  match s with DRAFT => 0 | RELEASED => 1 | DEPRECATED => 2 | RETIRED => 3 end.

(** What no call may change in a row: the draft's own fields, the release once
    made, each date once set; and the status only moves forward. *)
Record preserved (r r' : VersionRecord) : Prop := {
  kept_draft :
    (vr_version_id r', vr_service_name r', vr_version r', vr_api_version r',
     vr_min_compatible_version r', vr_metadata r', vr_created_at r')
    = (vr_version_id r, vr_service_name r, vr_version r, vr_api_version r,
       vr_min_compatible_version r, vr_metadata r, vr_created_at r);
  kept_release : vr_status r <> DRAFT ->
    (vr_git_sha r', vr_image_tag r', vr_checksum_sha256 r', vr_released_at r')
    = (vr_git_sha r, vr_image_tag r, vr_checksum_sha256 r, vr_released_at r);
  kept_deprecation : (2 <= status_rank (vr_status r))%nat ->
    vr_deprecated_at r' = vr_deprecated_at r;
  kept_order : (status_rank (vr_status r) <= status_rank (vr_status r'))%nat;
  kept_same : vr_status r' = vr_status r -> r' = r
}.

Lemma preserved_refl r : preserved r r.
Proof. by split. Qed.

Lemma preserved_trans r1 r2 r3 : preserved r1 r2 -> preserved r2 r3 -> preserved r1 r3.
Proof.
  intros [Hd Hr Hp Ho Hs] [Hd' Hr' Hp' Ho' Hs']. split.
  - congruence.
  - intros Hne. rewrite Hr'; [by apply Hr|]. intros He.
    rewrite He in Ho. destruct (vr_status r1); simpl in Ho; [done|lia..].
  - intros Hle. rewrite Hp' by lia. by apply Hp.
  - lia.
  - intros He. assert (vr_status r2 = vr_status r1) as He2.
    { rewrite He in Ho'. clear -Ho Ho'. destruct (vr_status r1), (vr_status r2); simpl in *;
        (done || lia). }
    rewrite Hs' by congruence. by apply Hs.
Qed.

(** Every row of [st] is still in [st'], changed only as [preserved] allows,
    and the log has only grown. *)
Definition extends (st st' : VState) : Prop :=
  (forall k r, vs_versions st !! k = Some r ->
     exists r', vs_versions st' !! k = Some r' /\ preserved r r') /\
  (exists more, vs_events st' = (vs_events st ++ more)%list).

#[export] Instance extends_preorder : PreOrder extends.
Proof.
  split.
  - intros st. split; [intros k r Hr; exists r; split; [done|apply preserved_refl]|].
    exists []. by rewrite app_nil_r.
  - intros st1 st2 st3 [H12 [m12 He12]] [H23 [m23 He23]]. split.
    + intros k r Hr. destruct (H12 k r Hr) as (r2 & Hr2 & ?).
      destruct (H23 k r2 Hr2) as (r3 & ? & ?). exists r3. split; [done|].
      by eapply preserved_trans.
    + exists (m12 ++ m23)%list. by rewrite He23, He12, assoc by apply _.
Qed.

Lemma extends_move n v r r' ty actor reason details st :
  vs_versions st !! (n, v) = Some r -> version_key r' = (n, v) -> preserved r r' ->
  extends st (spec_move utc_now uuid4 r' ty actor reason details st).
Proof.
  intros Hr Hk Hp. unfold spec_move. split; simpl; [|eauto].
  rewrite Hk. intros k r1 Hr1. destruct (decide (k = (n, v))) as [->|Hne].
  - rewrite lookup_insert_eq. simplify_eq. eauto.
  - rewrite lookup_insert_ne by done. exists r1. split; [done|apply preserved_refl].
Qed.

Lemma extends_command c st :
  vs_wf uuid4 st -> extends st (spec_command utc_now uuid4 stored c st).2.
Proof.
  intros Hw. destruct c as [p|n p|n v sha img chk actor reason|n v actor reason|n v actor reason];
    simpl.
  - split; simpl; [|exists []; by rewrite app_nil_r].
    intros k r Hr. exists r. split; [done|apply preserved_refl].
  - unfold spec_create. destruct (vs_services st !! n); [|done].
    destruct (parse (vc_version p)); [|done].
    destruct (match vc_min_compatible_version p with Some m => _ | None => None end); [done|].
    destruct (vs_versions st !! (n, vc_version p)) eqn:Hold; [done|].
    destruct (spec_dependencies _ _ _ _); [|done]. split; simpl; [|eauto].
    intros k r Hr. exists r. split; [|apply preserved_refl].
    rewrite lookup_insert_ne; [done|]. intros Hk. unfold version_key in Hk. simpl in Hk.
    by rewrite <- Hk, Hold in Hr.
  - unfold spec_release. destruct (vs_versions st !! (n, v)) as [r|] eqn:Hr; [|done].
    case_decide as Hd; [|done]. destruct (parse v); [|done]. destruct (is_stable _); [|done].
    eapply extends_move; [done|by apply (wf_key _ _ Hw n v r)|].
    split; simpl; rewrite ?Hd; simpl; try done; lia.
  - unfold spec_status. destruct (vs_versions st !! (n, v)) as [r|] eqn:Hr; [|done].
    case_decide as Hd; [|done]. eapply extends_move; [done|by apply (wf_key _ _ Hw n v r)|].
    split; simpl; rewrite ?Hd; simpl; try done; lia.
  - unfold spec_status. destruct (vs_versions st !! (n, v)) as [r|] eqn:Hr; [|done].
    case_decide as Hd; [|done]. eapply extends_move; [done|by apply (wf_key _ _ Hw n v r)|].
    split; simpl; rewrite ?Hd; simpl; try done; lia.
Qed.

Lemma extends_commands l st :
  vs_wf uuid4 st -> extends st (spec_commands utc_now uuid4 stored l st).2.
Proof.
  revert st. induction l as [|c l IH]; intros st Hw; simpl; [done|].
  pose proof (extends_command c st Hw) as Hc.
  pose proof (wf_command utc_now uuid4 uuid4_inj stored c st Hw) as Hw1.
  destruct (spec_command utc_now uuid4 stored c st) as [q st1]. simpl in Hc, Hw1.
  specialize (IH st1 Hw1). destruct (spec_commands utc_now uuid4 stored l st1). simpl in *.
  by transitivity st1.
Qed.
End History.

(** ** Compatibility of a released version *)

Section Compatibility.
Context (utc_now : nat -> Z) (uuid4 : nat -> string).
Context {R : Type} `{HR : VersionRepository R} (HL : VersionRepositoryLaws utc_now uuid4 R).

Abbreviation abs := (@VersioningStore.abs utc_now uuid4 R HR HL).
Abbreviation repo_inv := (@VersioningStore.repo_inv utc_now uuid4 R HR HL).

(** Some released version of the service satisfies the dependency. *)
Definition satisfied (st : VState) (d : DependencySpec) (v : string) : Prop :=
  exists r, vs_versions st !! (ds_service_name d, v) = Some r /\ vr_status r = RELEASED /\
    is_backward_compatible v (ds_min_version d) = Ok true.

(** A report tells what is satisfied, by which version. *)
Definition report_of (st : VState) (d : DependencySpec) (c : CompatibilityDependencyReport)
    : Prop :=
  cdr_service_name c = ds_service_name d /\ cdr_min_version c = ds_min_version d /\
  match cdr_resolved_version c with
  | Some v => cdr_compatible c = true /\ satisfied st d v
  | None => cdr_compatible c = false /\ forall v, ~ satisfied st d v
  end.

Lemma dependency_report_spec d s :
  repo_inv s -> vs_wf uuid4 (abs s) -> is_ok (parse (ds_min_version d)) = true ->
  exists c, dependency_report d s = (Ok c, s) /\ report_of (abs s) d c.
Proof.
  intros Hs Hw Hmin. unfold dependency_report.
  destruct (law_released utc_now uuid4 (ds_service_name d) s Hs) as (l & Hl & Hin). run Hl.
  destruct (highest_compatible_total l (ds_min_version d)) as [o Ho]; [|done|].
  { apply list.Forall_forall. intros v (r & Hr & _)%Hin.
    destruct (record_wf_parse r (wf_record _ _ Hw _ _ _ Hr)) as [sem Hp].
    pose proof (wf_key _ _ Hw _ _ _ Hr) as [= _ Hv]. by rewrite <- Hv, Hp. }
  rewrite (st_bind_ok _ _ _ o s) by (unfold lift; by rewrite Ho).
  eexists. split; [done|]. destruct o as [v|]; split_and!; try done; simpl.
  - apply highest_compatible_some in Ho as [(r & ? & ?)%Hin ?]. split; [done|]. by exists r.
  - split; [done|]. intros v (r & ? & ? & Hb).
    eapply highest_compatible_none; [exact Ho| |exact Hb]. apply Hin. eauto.
Qed.

Lemma dependency_reports_spec l s :
  repo_inv s -> vs_wf uuid4 (abs s) ->
  (forall d, d ∈ l -> is_ok (parse (ds_min_version d)) = true) ->
  exists cs, map_st dependency_report l s = (Ok cs, s) /\ Forall2 (report_of (abs s)) l cs.
Proof.
  intros Hs Hw. induction l as [|d l IH]; intros Hall; simpl.
  { exists []. by split; [|constructor]. }
  destruct (dependency_report_spec d s Hs Hw) as (c & Hc & Hr).
  { apply Hall, list_elem_of_here. }
  destruct IH as (cs & Hcs & Hrs).
  { intros d' Hd'. apply Hall. by right. }
  run Hc. run Hcs. exists (c :: cs). by split; [|constructor].
Qed.

Lemma reports_ok st l cs :
  Forall2 (report_of st) l cs ->
  forallb cdr_compatible cs = true <-> (forall d, d ∈ l -> exists v, satisfied st d v).
Proof.
  induction 1 as [|d c l cs (_ & _ & Hc) _ IH]; simpl.
  { split; [|done]. by intros _ d ?%elem_of_nil. }
  rewrite andb_true_iff, IH. clear IH. split.
  - intros [Hok Hall] d' [->|?]%elem_of_cons; [|by apply Hall].
    destruct (cdr_resolved_version c) as [v|]; destruct Hc as [Heq ?]; [by exists v|congruence].
  - intros Hall. split; [|intros d' Hd'; apply Hall; by right].
    destruct (Hall d (list_elem_of_here _ _)) as [v Hv].
    destruct (cdr_resolved_version c); destruct Hc as [? Hno]; [done|]. by destruct (Hno v).
Qed.
End Compatibility.

(** ** Two columns for the same documents *)

(** A store that keeps [f j] where another keeps [j]. *)
Section Keeping.
Context (f : json -> json).

Definition kept_record (r : VersionRecord) : VersionRecord :=
  {| vr_version_id := vr_version_id r; vr_service_name := vr_service_name r;
     vr_version := vr_version r; vr_major := vr_major r; vr_minor := vr_minor r;
     vr_patch := vr_patch r; vr_prerelease := vr_prerelease r;
     vr_build_metadata := vr_build_metadata r; vr_git_sha := vr_git_sha r;
     vr_image_tag := vr_image_tag r; vr_api_version := vr_api_version r;
     vr_min_compatible_version := vr_min_compatible_version r; vr_status := vr_status r;
     vr_checksum_sha256 := vr_checksum_sha256 r; vr_metadata := f (vr_metadata r);
     vr_created_at := vr_created_at r; vr_released_at := vr_released_at r;
     vr_deprecated_at := vr_deprecated_at r; vr_retired_at := vr_retired_at r;
     vr_updated_at := vr_updated_at r |}.

Definition kept_event (e : VersionEvent) : VersionEvent :=
  {| ve_event_id := ve_event_id e; ve_version_id := ve_version_id e;
     ve_event_type := ve_event_type e; ve_actor := ve_actor e; ve_reason := ve_reason e;
     ve_details := f (ve_details e); ve_occurred_at := ve_occurred_at e |}.

Definition kept_store (st : VState) : VState :=
  {| vs_services := vs_services st; vs_versions := kept_record <$> vs_versions st;
     vs_dependencies := vs_dependencies st; vs_events := kept_event <$> vs_events st;
     vs_now := vs_now st; vs_uuid := vs_uuid st |}.

Definition kept_answer (a : result exc (ServiceInfo + VersionRecord))
    : result exc (ServiceInfo + VersionRecord) :=
  match a with Ok (inr r) => Ok (inr (kept_record r)) | _ => a end.

Lemma kept_store_init : kept_store vs_init = vs_init.
Proof. unfold kept_store. simpl. by rewrite fmap_empty. Qed.

Lemma column_set_version r st :
  vs_set_version (kept_record r) (kept_store st) = kept_store (vs_set_version r st).
Proof. unfold vs_set_version, kept_store. simpl. by rewrite fmap_insert. Qed.
End Keeping.

Section Columns.
Context (utc_now : nat -> Z) (uuid4 : nat -> string) (stored : json -> option json).
Abbreviation f := (kept stored).

Lemma column_log id ty actor reason details st :
  vs_log utc_now uuid4 id ty actor reason (f details) (kept_store f st)
  = kept_store f (vs_log utc_now uuid4 id ty actor reason details st).
Proof. unfold vs_log, kept_store. simpl. by rewrite fmap_app. Qed.

Lemma column_move r ty actor reason details st :
  spec_move utc_now uuid4 (kept_record f r) ty actor reason (f details) (kept_store f st)
  = kept_store f (spec_move utc_now uuid4 r ty actor reason details st).
Proof. unfold spec_move. by rewrite column_set_version, column_log. Qed.

Lemma column_create n p st :
  spec_create utc_now uuid4 stored n p (kept_store f st)
  = (match (spec_create utc_now uuid4 Some n p st).1 with
     | Ok r => Ok (kept_record f r) | Err e => Err e end,
     kept_store f (spec_create utc_now uuid4 Some n p st).2).
Proof.
  unfold spec_create. change (vs_services (kept_store f st)) with (vs_services st).
  destruct (vs_services st !! n); [|done]. destruct (parse (vc_version p)) as [sem|]; [|done].
  destruct (match vc_min_compatible_version p with Some _ => _ | None => _ end); [done|].
  simpl vs_versions. rewrite lookup_fmap.
  destruct (vs_versions st !! (n, vc_version p)); [done|].
  destruct (spec_dependencies n ∅ (vs_services st) (vc_dependencies p)); [|done].
  cbn [fst snd vs_insert]. f_equal. unfold kept_store, vs_log, vs_set_deps. simpl. f_equal.
  - by rewrite fmap_insert.
  - by rewrite fmap_app.
Qed.

Lemma column_release n v sha img chk actor reason st :
  spec_release utc_now uuid4 stored n v sha img chk actor reason (kept_store f st)
  = (match (spec_release utc_now uuid4 Some n v sha img chk actor reason st).1 with
     | Ok r => Ok (kept_record f r) | Err e => Err e end,
     kept_store f (spec_release utc_now uuid4 Some n v sha img chk actor reason st).2).
Proof.
  unfold spec_release. simpl vs_versions. rewrite lookup_fmap.
  destruct (vs_versions st !! (n, v)) as [r|]; simpl; [|done].
  case_decide; [|done]. destruct (parse v); [|done]. destruct (is_stable _); [|done].
  cbn [fst snd]. f_equal. by rewrite <- column_move.
Qed.

Lemma column_status n v from to verb ty actor reason st :
  spec_status utc_now uuid4 stored n v from to verb ty actor reason (kept_store f st)
  = (match (spec_status utc_now uuid4 Some n v from to verb ty actor reason st).1 with
     | Ok r => Ok (kept_record f r) | Err e => Err e end,
     kept_store f (spec_status utc_now uuid4 Some n v from to verb ty actor reason st).2).
Proof.
  unfold spec_status. simpl vs_versions. rewrite lookup_fmap.
  destruct (vs_versions st !! (n, v)) as [r|]; simpl; [|done].
  case_decide; [|done]. cbn [fst snd]. f_equal. by rewrite <- column_move.
Qed.

Lemma column_command c st :
  spec_command utc_now uuid4 stored c (kept_store f st)
  = (kept_answer f (spec_command utc_now uuid4 Some c st).1,
     kept_store f (spec_command utc_now uuid4 Some c st).2).
Proof.
  destruct c; cbn [spec_command].
  - done.
  - rewrite column_create. by destruct (spec_create _ _ _ _ _ _) as [[]].
  - rewrite column_release. by destruct (spec_release _ _ _ _ _ _ _ _ _ _ _) as [[]].
  - rewrite column_status. by destruct (spec_status _ _ _ _ _ _ _ _ _ _ _ _) as [[]].
  - rewrite column_status. by destruct (spec_status _ _ _ _ _ _ _ _ _ _ _ _) as [[]].
Qed.

(** A run of the machine over the column is the run over the documents. *)
Lemma column_commands l st :
  spec_commands utc_now uuid4 stored l (kept_store f st)
  = ((fun q => (kept_answer f q.1, kept_store f q.2))
       <$> (spec_commands utc_now uuid4 Some l st).1,
     kept_store f (spec_commands utc_now uuid4 Some l st).2).
Proof.
  revert st. induction l as [|c l IH]; intros st; [done|]. cbn [spec_commands].
  rewrite column_command. destruct (spec_command utc_now uuid4 Some c st) as [q st1].
  cbn [fst snd]. rewrite IH. by destruct (spec_commands utc_now uuid4 Some l st1).
Qed.
End Columns.

Lemma valid_in_memory stored c : valid_command stored c = true -> valid_command Some c = true.
Proof.
  destruct c; simpl; [done| |by rewrite !andb_true_iff; tauto..].
  destruct (parse _); [|done]. rewrite !andb_true_iff. tauto.
Qed.

Lemma all_valid_in_memory stored l :
  forallb (valid_command stored) l = true -> forallb (valid_command Some) l = true.
Proof. rewrite !forallb_forall. eauto using valid_in_memory. Qed.

(** ** Properties *)

(** Over any repository that keeps its contract, a run of API calls with
    arguments in the documented formats is the run of the abstract machine:
    each call answers what the machine answers - the row, or the same error -
    and leaves the store the machine leaves. *)
Theorem service_refines_machine utc_now uuid4 {R} `{HR : VersionRepository R}
    (HL : VersionRepositoryLaws utc_now uuid4 R) (l : list command) (s : R) :
  repo_inv utc_now uuid4 s -> forallb (valid_command (stored utc_now uuid4)) l = true ->
  let '(rs, s') := run_commands l s in
  let '(qs, st') := spec_commands utc_now uuid4 (stored utc_now uuid4) l (abs utc_now uuid4 s) in
  repo_inv utc_now uuid4 s' /\ abs utc_now uuid4 s' = st' /\
  Forall2 (fun r q => agree q.2 r q.1) rs qs.
Proof. apply commands_refine. Qed.

(** Two answers alike: same errors, same fields, the metadata as the second
    store keeps it, the dependencies listed in any order. *)
Section Alike.
Context (f : json -> json).

Definition version_answer (a : result exc ServiceVersion) : result exc (ServiceInfo + ServiceVersion) :=
  match a with Ok v => Ok (inr v) | Err e => Err e end.

Definition same_version (a b : ServiceVersion) : Prop :=
  exists r da db, a = view r da /\ b = view (kept_record f r) db /\ da ≡ₚ db.

Definition same_answer (a b : result exc (ServiceInfo + ServiceVersion)) : Prop :=
  match a, b with
  | Ok (inl i), Ok (inl i') => i = i'
  | Ok (inr v), Ok (inr v') => same_version v v'
  | Err e, Err e' => e = e'
  | _, _ => False
  end.

Lemma shows_same st a b r : shows st a r -> shows (kept_store f st) b (kept_record f r) -> same_version a b.
Proof.
  intros (da & -> & Ha) (db & -> & Hb). exists r, da, db. split_and!; [done|done|].
  by rewrite Ha, Hb.
Qed.

Lemma agree_same st a b q :
  agree st a q -> agree (kept_store f st) b (kept_answer f q) -> same_answer a b.
Proof.
  destruct q as [[i|r]|e], a as [[ia|va]|ea], b as [[ib|vb]|eb]; simpl; try done.
  - congruence.
  - apply shows_same.
  - congruence.
Qed.
End Alike.

(** Reading a version from two stores that hold the same. *)
Lemma reads_same utc_now uuid4 {R R'} `{HR : VersionRepository R} `{HR' : VersionRepository R'}
    (HL : VersionRepositoryLaws utc_now uuid4 R) (HL' : VersionRepositoryLaws utc_now uuid4 R')
    (f : json -> json) (s : R) (s' : R') n v :
  repo_inv utc_now uuid4 s -> repo_inv utc_now uuid4 s' ->
  abs utc_now uuid4 s' = kept_store f (abs utc_now uuid4 s) ->
  same_answer f (version_answer (get_version n v s).1) (version_answer (get_version n v s').1).
Proof.
  intros Hs Hs' Ha. destruct (vs_versions (abs utc_now uuid4 s) !! (n, v)) as [r|] eqn:Hr.
  - destruct (get_version_shows utc_now uuid4 HL n v r s Hs Hr) as (a & -> & Hsa).
    assert (Hr' : vs_versions (abs utc_now uuid4 s') !! (n, v) = Some (kept_record f r))
      by (rewrite Ha; simpl; by rewrite lookup_fmap, Hr).
    destruct (get_version_shows utc_now uuid4 HL' n v _ s' Hs' Hr') as (b & -> & Hsb).
    rewrite Ha in Hsb. by eapply shows_same.
  - assert (Hr' : vs_versions (abs utc_now uuid4 s') !! (n, v) = None)
      by (rewrite Ha; simpl; by rewrite lookup_fmap, Hr).
    by rewrite (get_version_None utc_now uuid4 HL n v s Hs Hr), (get_version_None utc_now uuid4 HL' n v s' Hs' Hr').
Qed.

Definition clock (i : nat) : Z := Z.of_nat i.
Definition counter (i : nat) : string := pretty i.

Lemma counter_inj : Inj (=) (=) counter.
Proof. intros i j H. by apply (inj pretty) in H. Qed.

Definition memory_ops := InMemoryRepository_ops clock counter.
Definition memory_laws := InMemoryRepository_laws clock counter.

(** A life of one service: registration, a draft, its release, a second
    version depending on another service, deprecation, retirement, refusals. *)
Definition sha : string := "0123456789abcdef".
Definition sum64 : string := (sha ++ sha ++ sha ++ sha)%string.
Definition draft (v : string) (deps : list DependencySpec) : VersionCreate :=
  {| vc_version := v; vc_git_sha := None; vc_image_tag := None; vc_api_version := "v1";
     vc_min_compatible_version := None; vc_dependencies := deps; vc_metadata := JDict [] |}.
Definition demo : list command :=
  [CRegister {| sc_service_name := "risk"; sc_plane := "control"; sc_description := "" |};
   CRegister {| sc_service_name := "oms"; sc_plane := "data"; sc_description := "" |};
   CCreate "risk" (draft "1.2.0" []);
   CCreate "risk" (draft "1.2.0" []);
   CRelease "risk" "1.2.0" sha "risk:1.2.0" sum64 "ci" "";
   CCreate "oms" (draft "0.3.0" [{| ds_service_name := "risk"; ds_min_version := "1.1.0" |}]);
   CRelease "oms" "0.3.0" sha "oms:0.3.0" sum64 "ci" "";
   CRetire "risk" "1.2.0" "ci" "";
   CDeprecate "risk" "1.2.0" "ci" "";
   CRetire "risk" "1.2.0" "ci" ""].
Definition demo_store : InMemoryRepository := (@run_commands _ memory_ops (take 7 demo) im_init).2.

(** A JSONB column that orders the keys of a document and refuses an empty
    key, for the witnesses. *)
Definition sorting_column (j : json) : option json :=
  match j with
  | JDict l => if existsb (fun kv => kv.1 =? "") l then None
               else Some (JDict (py_sorted (fun a b => str_lt a.1 b.1) l))
  | _ => Some j
  end.
Definition table_ops := PostgresRepository_ops clock counter sorting_column.
Definition table_laws := PostgresRepository_laws clock counter sorting_column counter_inj.

Example demo_outcomes :
  is_ok <$> (@run_commands _ memory_ops demo im_init).1
  = [true; true; true; false; true; true; true; false; true; true].
Proof. vm_compute. reflexivity. Qed.

Lemma service_refines_machine_witness :
  Forall2 (fun r q => agree q.2 r q.1) (@run_commands _ memory_ops demo im_init).1
    (spec_commands clock counter Some demo (@abs clock counter _ memory_ops memory_laws im_init)).1.
Proof.
  pose proof (service_refines_machine clock counter memory_laws demo im_init
    im_inv_init ltac:(vm_compute; reflexivity)) as H.
  fold memory_ops in H. destruct (run_commands demo im_init) as [rs s'].
  destruct (spec_commands _ _ _ _) as [qs st']. exact (proj2 (proj2 H)).
Defined.

(** C37: the in-memory repository and the PostgreSQL one are interchangeable:
    started empty, any sequence of the five calls that write, their arguments
    taken by the columns (no number past an INTEGER, no blank actor, no
    document that JSONB refuses), gets the same results and errors from both,
    and reading any version back afterwards gives the same from both; the two
    hold the same services, versions, dependencies and events.  The only
    differences are that PostgreSQL gives the metadata and the event details
    as JSONB keeps them, and may list dependencies in another order. *)
Theorem stores_equivalent utc_now uuid4 jsonb (Huuid : Inj (=) (=) uuid4) (l : list command) :
  forallb (valid_command jsonb) l = true ->
  let '(rs, s) := @run_commands _ (InMemoryRepository_ops utc_now uuid4) l im_init in
  let '(rs', s') := @run_commands _ (PostgresRepository_ops utc_now uuid4 jsonb) l pg_init in
  Forall2 (same_answer (kept jsonb)) rs rs' /\
  (forall n v, same_answer (kept jsonb)
     (version_answer (@get_version _ (InMemoryRepository_ops utc_now uuid4) n v s).1)
     (version_answer (@get_version _ (PostgresRepository_ops utc_now uuid4 jsonb) n v s').1)) /\
  @abs utc_now uuid4 _ _ (PostgresRepository_laws utc_now uuid4 jsonb Huuid) s'
  = kept_store (kept jsonb) (@abs utc_now uuid4 _ _ (InMemoryRepository_laws utc_now uuid4) s).
Proof.
  intros Hl.
  pose proof (commands_refine utc_now uuid4 (InMemoryRepository_laws utc_now uuid4) l im_init
    im_inv_init (all_valid_in_memory _ _ Hl)) as Him.
  pose proof (commands_refine utc_now uuid4 (PostgresRepository_laws utc_now uuid4 jsonb Huuid) l
    pg_init (pg_inv_init uuid4 Huuid) Hl) as Hpg.
  change (@abs utc_now uuid4 _ _ (InMemoryRepository_laws utc_now uuid4) im_init) with vs_init in Him.
  change (@abs utc_now uuid4 _ _ (PostgresRepository_laws utc_now uuid4 jsonb Huuid) pg_init)
    with vs_init in Hpg.
  pose proof (column_commands utc_now uuid4 jsonb l vs_init) as Hk. rewrite kept_store_init in Hk.
  change (@stored utc_now uuid4 _ _ (InMemoryRepository_laws utc_now uuid4)) with (@Some json) in Him.
  change (@stored utc_now uuid4 _ _ (PostgresRepository_laws utc_now uuid4 jsonb Huuid)) with jsonb in Hpg.
  rewrite Hk in Hpg. clear Hk Hl.
  destruct (run_commands l im_init) as [rs s], (run_commands l pg_init) as [rs' s'].
  destruct (spec_commands utc_now uuid4 Some l vs_init) as [qs st'].
  cbn [fst snd] in Hpg. destruct Him as (Hs & Ha & Him), Hpg as (Hs' & Ha' & Hpg).
  split_and!; [| |by rewrite Ha', Ha].
  - apply list.Forall2_fmap_r in Hpg. clear -Him Hpg. revert rs' Hpg. induction Him as [|r q rs qs Hr _ IH]; intros rs' Hpg;
      inversion_clear Hpg as [|r' q' rs1 qs1 Hr' Hpg']; constructor; [by eapply agree_same|auto].
  - subst st'. intros n v. by apply (reads_same utc_now uuid4 (InMemoryRepository_laws utc_now uuid4)
      (PostgresRepository_laws utc_now uuid4 jsonb Huuid)).
Qed.

Lemma stores_equivalent_witness :
  Forall2 (same_answer (kept sorting_column)) (@run_commands _ memory_ops demo im_init).1
    (@run_commands _ table_ops demo pg_init).1.
Proof.
  pose proof (stores_equivalent clock counter sorting_column counter_inj demo
    ltac:(vm_compute; reflexivity)) as H.
  fold memory_ops table_ops in H. destruct (run_commands demo im_init) as [rs s].
  destruct (run_commands demo pg_init) as [rs' s']. exact (proj1 H).
Defined.

Section Properties.
Context (utc_now : nat -> Z) (uuid4 : nat -> string) (uuid4_inj : Inj (=) (=) uuid4).
Context {R : Type} `{HR : VersionRepository R} (HL : VersionRepositoryLaws utc_now uuid4 R).

Abbreviation abs := (@VersioningStore.abs utc_now uuid4 R HR HL).
Abbreviation repo_inv := (@VersioningStore.repo_inv utc_now uuid4 R HR HL).
Abbreviation stored := (@VersioningStore.stored utc_now uuid4 R HR HL).

(** The stores the calls reach from an empty one, each call with arguments
    its columns take. *)
Definition reachable (s : R) : Prop :=
  exists s0 l, repo_inv s0 /\ abs s0 = vs_init /\ forallb (valid_command stored) l = true /\
    (run_commands l s0).2 = s.

Lemma reachable_wf s : reachable s -> repo_inv s /\ vs_wf uuid4 (abs s).
Proof.
  intros (s0 & l & Hs0 & Hinit & Hl & <-).
  pose proof (commands_refine utc_now uuid4 HL l s0 Hs0 Hl) as H.
  pose proof (wf_commands utc_now uuid4 uuid4_inj stored l vs_init (vs_wf_init uuid4)) as Hw.
  rewrite Hinit in H. destruct (run_commands l s0), (spec_commands utc_now uuid4 stored l vs_init).
  simpl in *. destruct H as (? & -> & _). done.
Qed.

(** C38: in every store that writing calls reach from an empty one, their
    arguments taken by the columns ([valid_command]: formats, an actor that is
    not blank, storable documents), a version that can be read is in a
    consistent state of its life: its columns are the ones its status calls
    for (no date before its time, a release only of a stable version with its
    build recorded), its numbers are those of its text, and its events are
    exactly the transitions that lead to its status, in order. *)
Theorem version_lifecycle s n v r :
  reachable s -> repo_get_version n v s = (Ok (Some r), s) ->
  version_key r = (n, v) /\ record_wf r /\
  events_of (vr_version_id r) (vs_events (abs s)) = lifecycle_log (vr_status r).
Proof.
  intros [Hs Hw]%reachable_wf Hg. rewrite (law_get_version utc_now uuid4 n v s Hs) in Hg.
  injection Hg as Hr. split_and!.
  - by apply (wf_key _ _ Hw).
  - by apply (wf_record _ _ Hw n v).
  - by apply (wf_log _ _ Hw n v).
Qed.

(** History is never rewritten: whatever calls follow, a version read once
    can be read again, with the same identity and draft fields, the same
    release (git sha, image, checksum, date) once it was made, the same
    deprecation date, a status that has only moved forward, and no change at
    all if its status is the same; and the event log has only grown. *)
Theorem version_history_kept l s n v r :
  reachable s -> forallb (valid_command stored) l = true ->
  repo_get_version n v s = (Ok (Some r), s) ->
  let s' := (run_commands l s).2 in
  (exists r', repo_get_version n v s' = (Ok (Some r'), s') /\ preserved r r') /\
  (exists more, vs_events (abs s') = (vs_events (abs s) ++ more)%list).
Proof.
  intros [Hs Hw]%reachable_wf Hl Hg. rewrite (law_get_version utc_now uuid4 n v s Hs) in Hg.
  injection Hg as Hr. pose proof (commands_refine utc_now uuid4 HL l s Hs Hl) as H.
  pose proof (extends_commands utc_now uuid4 uuid4_inj stored l (abs s) Hw) as [Hv He].
  destruct (run_commands l s) as [rs s'], (spec_commands utc_now uuid4 stored l (abs s)) as [qs st'].
  destruct H as (Hs' & <- & _). simpl in *. split; [|done].
  destruct (Hv (n, v) r Hr) as (r' & Hr' & ?). exists r'.
  by rewrite (law_get_version utc_now uuid4 n v s' Hs'), Hr'.
Qed.

(** Checking a released version never fails: the call reports on each of
    its dependencies, each report names a released version that satisfies the
    dependency exactly when there is one, and the verdict is [ok] exactly when
    every dependency of the version is satisfied by some released version. *)
Theorem check_compatibility_correct s n v r :
  reachable s -> repo_get_version n v s = (Ok (Some r), s) -> vr_status r = RELEASED ->
  exists deps report,
    deps ≡ₚ default [] (vs_dependencies (abs s) !! vr_version_id r) /\
    check_compatibility n v s = (Ok report, s) /\
    Forall2 (report_of (abs s)) deps (cr_dependencies report) /\
    (cr_ok report = true <-> forall d, d ∈ deps -> exists w, satisfied (abs s) d w).
Proof.
  intros [Hs Hw]%reachable_wf Hg Hrel. rewrite (law_get_version utc_now uuid4 n v s Hs) in Hg.
  injection Hg as Hr. destruct (get_version_Some utc_now uuid4 HL n v r s Hs Hr)
    as (deps & Hd & Hp).
  destruct (dependency_reports_spec utc_now uuid4 HL deps s Hs Hw) as (cs & Hcs & Hrep).
  { intros d Hin. rewrite Hp in Hin.
    destruct (vs_dependencies (abs s) !! vr_version_id r) as [k|] eqn:Hk;
      [|by apply elem_of_nil in Hin].
    by eapply (wf_deps _ _ Hw). }
  exists deps, {| cr_service_name := n; cr_version := v; cr_ok := forallb cdr_compatible cs;
                  cr_dependencies := cs |}.
  split_and!; [done| |done|by apply reports_ok].
  unfold check_compatibility. run Hd. rewrite guard_unless_bind. simpl.
  rewrite decide_True by done. by run Hcs.
Qed.
End Properties.

Definition demo_record (n v : string) : option VersionRecord :=
  match (@repo_get_version _ memory_ops n v demo_store).1 with Ok o => o | Err _ => None end.

Lemma demo_reachable : reachable clock counter memory_laws demo_store.
Proof. exists im_init, (take 7 demo). split_and!; [exact im_inv_init|done|by vm_compute|done]. Qed.

Lemma version_lifecycle_witness :
  match demo_record "oms" "0.3.0" with
  | Some r => record_wf r /\ vr_status r = RELEASED
  | None => False
  end.
Proof.
  destruct (demo_record "oms" "0.3.0") as [r|] eqn:Hr; [|vm_compute in Hr; discriminate].
  pose proof (version_lifecycle clock counter counter_inj memory_laws demo_store "oms" "0.3.0" r
    demo_reachable) as H.
  destruct H as (_ & H & _).
  - unfold demo_record in Hr. vm_compute in Hr. injection Hr as <-. vm_compute. reflexivity.
  - split; [exact H|]. vm_compute in Hr. injection Hr as <-. reflexivity.
Defined.

Lemma version_history_kept_witness :
  match demo_record "risk" "1.2.0" with
  | Some r => exists r', (@repo_get_version _ memory_ops "risk" "1.2.0"
                  (@run_commands _ memory_ops (drop 7 demo) demo_store).2).1 = Ok (Some r')
                /\ preserved r r' /\ vr_status r = RELEASED
  | None => False
  end.
Proof.
  destruct (demo_record "risk" "1.2.0") as [r|] eqn:Hr; [|vm_compute in Hr; discriminate].
  destruct (version_history_kept clock counter counter_inj memory_laws (drop 7 demo) demo_store
    "risk" "1.2.0" r demo_reachable ltac:(vm_compute; reflexivity)) as [(r' & Hr' & Hp) _].
  - unfold demo_record in Hr. vm_compute in Hr. injection Hr as <-. vm_compute. reflexivity.
  - exists r'. fold memory_ops in Hr'. rewrite Hr'. split_and!; [done|done|].
    vm_compute in Hr. injection Hr as <-. reflexivity.
Defined.

Lemma check_compatibility_correct_witness :
  match (@check_compatibility _ memory_ops "oms" "0.3.0" demo_store).1 with
  | Ok report => cr_ok report = true
  | Err _ => False
  end.
Proof.
  assert (exists r, @repo_get_version _ memory_ops "oms" "0.3.0" demo_store
            = (Ok (Some r), demo_store) /\ vr_status r = RELEASED
            /\ vs_dependencies (@abs clock counter _ memory_ops memory_laws demo_store)
                 !! vr_version_id r
               = Some [{| ds_service_name := "risk"; ds_min_version := "1.1.0" |}])
    as (r & Hr & Hst & Hdeps) by (eexists; split_and!; vm_compute; reflexivity).
  destruct (check_compatibility_correct clock counter counter_inj memory_laws demo_store
    "oms" "0.3.0" r demo_reachable Hr Hst) as (deps & report & Hd & Hc & _ & Hok).
  fold memory_ops in Hc, Hd. rewrite Hc. simpl. apply Hok. intros d Hin.
  rewrite Hd, Hdeps in Hin. apply list_elem_of_singleton in Hin as ->. exists "1.2.0".
  eexists. split_and!; vm_compute; reflexivity.
Defined.
