(* ===== verification/Flags.v ===== *)
(** Feature flag evaluation: [model.py], [determinism.py], [evaluator.py] and
    [provider.py] of apexquant-flags.

    [xxh64 seed payload] stands for [xxhash.xxh64(payload, seed).intdigest()];
    [now] is what [_now_ms] returns.  A snapshot is an object: [FlagProvider]
    compares it by identity, so [SnapshotRef] carries the object's address. *)
From stdpp Require Import base strings list gmap pretty numbers.
From Stdlib Require Import Ascii.
From S2P Require Import Prelude PyStr.

(** ** model.py *)

Inductive FlagStatus := DRAFT | ACTIVE | DISABLED | RETIRED.
#[export] Instance FlagStatus_eq_dec : EqDecision FlagStatus.
Proof. solve_decision. Defined.

Inductive FlagType := BOOLEAN | PERCENTAGE | ALLOWLIST | DENYLIST.
#[export] Instance FlagType_eq_dec : EqDecision FlagType.
Proof. solve_decision. Defined.

Inductive FlagClass := SAFETY_CRITICAL | TRADING_BEHAVIOR | STANDARD.

Definition staleness_limit_ms (c : FlagClass) : Z :=
  match c with
  | SAFETY_CRITICAL => 1000
  | TRADING_BEHAVIOR => 5000
  | STANDARD => 60000
  end.

Record CompiledFlag := {
  flag_key : string;
  status : FlagStatus;
  flag_type : FlagType;
  flag_class : FlagClass;
  bool_value : bool;
  rollout_bps : Z;
  allowlist : gset string;
  denylist : gset string;
  environments : gset string;
  fail_value : bool;
  generation : Z;
  expires_at_epoch_ms : option Z
}.

(** [Field(ge=0, le=10_000)] *)
Definition flag_valid (f : CompiledFlag) : bool :=
  (0 <=? rollout_bps f)%Z && (rollout_bps f <=? 10000)%Z.

Record EvaluationContext := {
  environment : string;
  attributes : list (string * string)
}.

Fixpoint attr (key : string) (attrs : list (string * string)) : option string :=
  match attrs with
  | [] => None
  | (k, v) :: rest => if decide (k = key) then Some v else attr key rest
  end.

(** ** determinism.py *)

Definition SEED : Z := 0x9E3779B97F4A7C15.
Definition MODULUS : Z := 10000.

Inductive spec_error :=
| ValueError (message : string).

(** The fields of the fixture the constructor reads, the seed already
    converted by [int(str(...), 16)]. *)
Record DeterminismSpec := {
  version : Z;
  algorithm : string;
  seed : Z;
  modulus : Z;
  entity_priority : list string
}.

Definition DeterminismSpec_init (raw : DeterminismSpec) : result spec_error DeterminismSpec :=
  if negb (algorithm raw =? "xxhash64")
  then Err (ValueError "determinism fixture hash algorithm drifted")
  else if negb (seed raw =? SEED)%Z
  then Err (ValueError "determinism fixture seed drifted")
  else if negb (modulus raw =? MODULUS)%Z
  then Err (ValueError "determinism fixture modulus drifted")
  else Ok raw.

(** The first loop of [select_bucketing_entity]: the first value of each key
    that is not empty. *)
Definition add_first (lookup : gmap string string) (kv : string * string) : gmap string string :=
  if bool_decide (is_Some (lookup !! kv.1)) || str_empty kv.2 then lookup
  else <[kv.1 := kv.2]> lookup.

Definition entity_lookup (attrs : list (string * string)) : gmap string string :=
  foldl add_first ∅ attrs.

Fixpoint first_wanted (lookup : gmap string string) (priority : list string) : option string :=
  match priority with
  | [] => None
  | wanted :: rest =>
      match lookup !! wanted with
      | Some v => if str_empty v then first_wanted lookup rest else Some v
      | None => first_wanted lookup rest
      end
  end.

Definition select_bucketing_entity (attrs : list (string * string)) (priority : list string)
    : option string :=
  first_wanted (entity_lookup attrs) priority.

(** ** evaluator.py *)

Inductive outcome_kind := Kenabled | Kdisabled | Kfail_value.
Record EvaluationOutcome := { kind : outcome_kind; reason : string }.

Definition resolve (o : EvaluationOutcome) (fail_value : bool) : bool :=
  match kind o with
  | Kenabled => true
  | Kdisabled => false
  | Kfail_value => fail_value
  end.

Definition fail_ (r : string) : EvaluationOutcome := {| kind := Kfail_value; reason := r |}.
Definition enabled_ (r : string) : EvaluationOutcome := {| kind := Kenabled; reason := r |}.
Definition disabled_ (r : string) : EvaluationOutcome := {| kind := Kdisabled; reason := r |}.

Definition in_entities (entity : option string) (l : gset string) : bool :=
  match entity with Some e => bool_decide (e ∈ l) | None => false end.

(** ** provider.py *)

Inductive DegradationState := FRESH | FAIL_VALUE | BAKED_DEFAULTS.

Record ResolvedFlag := {
  rf_enabled : bool;
  rf_reason : string;
  rf_degradation : DegradationState;
  rf_generation : Z
}.

Record Snapshot := {
  snap_generation : Z;
  fetched_at_epoch_ms : Z;
  snap_flags : gmap string CompiledFlag
}.

Record SnapshotRef := { snap_address : nat; snap_object : Snapshot }.

Record FlagProvider := {
  fp_spec : DeterminismSpec;
  fp_baked : SnapshotRef;
  fp_current : SnapshotRef
}.

(** [FlagProvider.__init__] *)
Definition FlagProvider_init (spec : DeterminismSpec) (baked : SnapshotRef) : FlagProvider :=
  {| fp_spec := spec; fp_baked := baked; fp_current := baked |}.

Definition refresh (s : SnapshotRef) (p : FlagProvider) : FlagProvider :=
  {| fp_spec := fp_spec p; fp_baked := fp_baked p; fp_current := s |}.

Definition pin (p : FlagProvider) : SnapshotRef := fp_current p.

Section Evaluation.
Variable xxh64 : Z -> string -> Z.

Definition bucket_for (flag_key entity : string) : Z :=
  (xxh64 SEED (flag_key ++ ":" ++ entity) mod MODULUS)%Z.

Definition evaluate (flag : CompiledFlag) (ctx : EvaluationContext)
    (entity_priority : list string) (now_epoch_ms : Z) : EvaluationOutcome :=
  if decide (status flag = RETIRED) then fail_ "retired"
  else if decide (status flag = DISABLED) then fail_ "disabled"
  else if decide (status flag = DRAFT) then fail_ "draft"
  else if negb (bool_decide (environments flag = ∅))
          && negb (bool_decide (environment ctx ∈ environments flag))
  then fail_ "environment_not_targeted"
  else if match expires_at_epoch_ms flag with
          | Some e => (e <=? now_epoch_ms)%Z
          | None => false
          end
  then fail_ "expired"
  else
    let entity := select_bucketing_entity (attributes ctx) entity_priority in
    if in_entities entity (denylist flag) then disabled_ "denylisted"
    else if in_entities entity (allowlist flag) then enabled_ "allowlisted"
    else match flag_type flag with
    | BOOLEAN => if bool_value flag then enabled_ "boolean" else disabled_ "boolean"
    | ALLOWLIST => disabled_ "not_in_allowlist"
    | DENYLIST => enabled_ "not_in_denylist"
    | PERCENTAGE =>
        match entity with
        | None => fail_ "missing_bucketing_entity"
        | Some e =>
            if (bucket_for (flag_key flag) e <? rollout_bps flag)%Z
            then enabled_ "percentage" else disabled_ "percentage"
        end
    end.

(** [FlagProvider.evaluate]; [snapshot] is the pinned one, if any. *)
Definition provider_evaluate (key : string) (ctx : EvaluationContext)
    (snapshot : option SnapshotRef) (now : Z) (p : FlagProvider) : option ResolvedFlag :=
  let snap := default (fp_current p) snapshot in
  match snap_flags (snap_object snap) !! key with
  | None => None
  | Some flag =>
      let is_baked := (snap_address snap =? snap_address (fp_baked p))%nat in
      let age_ms := Z.max 0 (now - fetched_at_epoch_ms (snap_object snap)) in
      let threshold := staleness_limit_ms (flag_class flag) in
      let '(degradation, use_fail) :=
        if is_baked then (BAKED_DEFAULTS, false)
        else if (age_ms <=? threshold)%Z then (FRESH, false)
        else (FAIL_VALUE, true) in
      if use_fail
      then Some {| rf_enabled := fail_value flag;
                   rf_reason := "snapshot_stale_beyond_threshold";
                   rf_degradation := degradation;
                   rf_generation := snap_generation (snap_object snap) |}
      else
        let outcome := evaluate flag ctx (entity_priority (fp_spec p)) now in
        Some {| rf_enabled := resolve outcome (fail_value flag);
                rf_reason := reason outcome;
                rf_degradation := degradation;
                rf_generation := snap_generation (snap_object snap) |}
  end.
End Evaluation.

(** ** The bucketing entity *)

(** The first value of [k] that is not empty. *)
Definition first_value (attrs : list (string * string)) (k : string) : option string :=
  head (omap (fun kv => if decide (kv.1 = k /\ kv.2 <> "") then Some kv.2 else None) attrs).

Lemma entity_lookup_go attrs (lookup : gmap string string) k :
  foldl add_first lookup attrs !! k
  = match lookup !! k with Some v => Some v | None => first_value attrs k end.
Proof.
  revert lookup. induction attrs as [|[k' v] attrs IH]; intros lookup; simpl.
  { by destruct (lookup !! k). }
  rewrite IH. clear IH. unfold first_value at 2, add_first. simpl. destruct v as [|c v]; simpl.
  { rewrite orb_true_r. destruct (lookup !! k); [done|]. by rewrite decide_False by naive_solver. }
  rewrite orb_false_r. case_bool_decide as Hk'.
  - destruct (lookup !! k) eqn:Hk; [done|]. rewrite decide_False; [done|].
    intros [-> _]. rewrite Hk in Hk'. by destruct Hk'.
  - apply eq_None_not_Some in Hk'. destruct (decide (k' = k)) as [->|Hne].
    + by rewrite Hk', lookup_insert_eq, decide_True by done.
    + rewrite lookup_insert_ne by done. destruct (lookup !! k); [done|].
      by rewrite decide_False by naive_solver.
Qed.

Lemma first_value_nonempty attrs k v : first_value attrs k = Some v -> v <> "".
Proof.
  unfold first_value. induction attrs as [|kv attrs IH]; simpl; [done|].
  case_decide as Hc; [|exact IH]. intros [= <-]. by destruct Hc.
Qed.

Lemma first_wanted_head attrs (lookup : gmap string string) priority :
  (forall k, lookup !! k = first_value attrs k) ->
  first_wanted lookup priority = head (omap (first_value attrs) priority).
Proof.
  intros Hl. induction priority as [|k rest IH]; simpl; [done|]. rewrite Hl.
  destruct (first_value attrs k) as [v|] eqn:Hv; simpl; [|done].
  apply first_value_nonempty in Hv. by destruct v.
Qed.

(** ** What decides a verdict *)

(** The flag is in force: active, aimed at this environment, not expired. *)
Definition in_force (flag : CompiledFlag) (ctx : EvaluationContext) (now : Z) : Prop :=
  status flag = ACTIVE /\
  (environments flag = ∅ \/ environment ctx ∈ environments flag) /\
  (forall e, expires_at_epoch_ms flag = Some e -> (now < e)%Z).

Lemma evaluate_not_in_force xxh64 flag ctx prio now :
  ~ in_force flag ctx now -> kind (evaluate xxh64 flag ctx prio now) = Kfail_value.
Proof.
  intros Hn. unfold evaluate. repeat (case_decide; [done|]).
  destruct (negb _ && negb _) eqn:He; [done|].
  destruct (match expires_at_epoch_ms flag with Some e => _ | None => false end) eqn:Hx; [done|].
  exfalso. apply Hn. split_and!.
  - by destruct (status flag).
  - apply andb_false_iff in He as [He|He]; apply negb_false_iff, bool_decide_eq_true in He; auto.
  - intros e Heq. rewrite Heq in Hx. lia.
Qed.

(** The rest of [evaluate] once the flag is in force. *)
Definition dispatch (xxh64 : Z -> string -> Z) (flag : CompiledFlag) (entity : option string)
    : EvaluationOutcome :=
  if in_entities entity (denylist flag) then disabled_ "denylisted"
  else if in_entities entity (allowlist flag) then enabled_ "allowlisted"
  else match flag_type flag with
  | BOOLEAN => if bool_value flag then enabled_ "boolean" else disabled_ "boolean"
  | ALLOWLIST => disabled_ "not_in_allowlist"
  | DENYLIST => enabled_ "not_in_denylist"
  | PERCENTAGE =>
      match entity with
      | None => fail_ "missing_bucketing_entity"
      | Some e =>
          if (bucket_for xxh64 (flag_key flag) e <? rollout_bps flag)%Z
          then enabled_ "percentage" else disabled_ "percentage"
      end
  end.

Lemma evaluate_in_force xxh64 flag ctx prio now :
  in_force flag ctx now ->
  evaluate xxh64 flag ctx prio now
  = dispatch xxh64 flag (select_bucketing_entity (attributes ctx) prio).
Proof.
  intros (Hs & He & Hx). unfold evaluate. rewrite Hs. repeat (case_decide; [done|]).
  replace (negb (bool_decide (environments flag = ∅))
    && negb (bool_decide (environment ctx ∈ environments flag))) with false.
  2:{ symmetry. apply andb_false_iff. destruct He as [He|He]; [left|right];
        by apply negb_false_iff, bool_decide_eq_true. }
  destruct (expires_at_epoch_ms flag) as [e|]; [|done].
  specialize (Hx e eq_refl). by rewrite (proj2 (Z.leb_gt e now) Hx).
Qed.

#[export] Instance in_force_dec flag ctx now : Decision (in_force flag ctx now).
Proof.
  unfold in_force. destruct (expires_at_epoch_ms flag) as [e|].
  - destruct (decide (status flag = ACTIVE /\ (environments flag = ∅ \/
      environment ctx ∈ environments flag) /\ (now < e)%Z)) as [H|H]; [left|right]; naive_solver.
  - destruct (decide (status flag = ACTIVE /\ (environments flag = ∅ \/
      environment ctx ∈ environments flag))) as [H|H]; [left|right]; naive_solver.
Defined.

Lemma bucket_range xxh64 k e : (0 <= bucket_for xxh64 k e < MODULUS)%Z.
Proof. unfold bucket_for. by apply Z.mod_pos_bound. Qed.

(** ** Properties *)

(** The entity a percentage is computed on is the first, in the order of the
    fixture's priorities, of the attributes that have a value, and its first
    value that is not empty; without any the evaluator gets none. *)
Theorem select_bucketing_entity_first attrs priority :
  select_bucketing_entity attrs priority = head (omap (first_value attrs) priority).
Proof.
  apply first_wanted_head. intros k. unfold entity_lookup. by rewrite entity_lookup_go, lookup_empty.
Qed.

(** [flag] with another rollout. *)
Definition with_rollout (bps : Z) (f : CompiledFlag) : CompiledFlag :=
  {| flag_key := flag_key f; status := status f; flag_type := flag_type f;
     flag_class := flag_class f; bool_value := bool_value f; rollout_bps := bps;
     allowlist := allowlist f; denylist := denylist f; environments := environments f;
     fail_value := fail_value f; generation := generation f;
     expires_at_epoch_ms := expires_at_epoch_ms f |}.

(** Raising a rollout never takes the flag away: a context for which the
    flag was on stays on, whatever the hash function.  At 0 basis points only
    allowlisted entities of a percentage flag have it, at 10000 every entity
    that is not denylisted does. *)
Theorem rollout_monotone xxh64 flag ctx prio now bps :
  (rollout_bps flag <= bps)%Z ->
  let on f := resolve (evaluate xxh64 f ctx prio now) (fail_value f) in
  let entity := select_bucketing_entity (attributes ctx) prio in
  (on flag = true -> on (with_rollout bps flag) = true) /\
  (in_force flag ctx now -> flag_type flag = PERCENTAGE -> is_Some entity ->
     on (with_rollout 0 flag)
     = in_entities entity (allowlist flag) && negb (in_entities entity (denylist flag)) /\
     on (with_rollout MODULUS flag) = negb (in_entities entity (denylist flag))).
Proof.
  intros Hb on entity. unfold on. split.
  - destruct (decide (in_force flag ctx now)) as [Hf|Hf].
    + rewrite (evaluate_in_force _ (with_rollout bps flag)) by done.
      rewrite evaluate_in_force by done. unfold dispatch. simpl. fold entity.
      destruct (in_entities _ _); [done|]. destruct (in_entities _ _); [done|].
      destruct (flag_type flag); try done. destruct entity as [e|]; [|done].
      destruct (Z.ltb_spec (bucket_for xxh64 (flag_key flag) e) (rollout_bps flag)); [|done].
      rewrite (proj2 (Z.ltb_lt _ bps)) by lia. done.
    + unfold resolve. by rewrite !evaluate_not_in_force.
  - intros Hf Ht [e He].
    rewrite (evaluate_in_force _ (with_rollout 0 flag)), (evaluate_in_force _ (with_rollout MODULUS flag))
      by done.
    unfold dispatch. simpl. fold entity. rewrite Ht, He.
    pose proof (bucket_range xxh64 (flag_key flag) e).
    rewrite (proj2 (Z.ltb_ge _ 0)), (proj2 (Z.ltb_lt _ MODULUS)) by lia.
    by destruct (in_entities _ (denylist flag)), (in_entities _ (allowlist flag)).
Qed.

Definition demo_flag : CompiledFlag :=
  {| flag_key := "risk.new_model"; status := ACTIVE; flag_type := PERCENTAGE;
     flag_class := SAFETY_CRITICAL; bool_value := false; rollout_bps := 2500;
     allowlist := {["desk-1"]}; denylist := {["desk-9"]}; environments := {["prod"]};
     fail_value := false; generation := 3; expires_at_epoch_ms := Some 9000%Z |}.
Definition demo_ctx (entity : string) : EvaluationContext :=
  {| environment := "prod"; attributes := [("service", "oms"); ("strategy_id", entity)] |}.
(** A hash for the examples. *)
Definition length_hash (seed : Z) (s : string) : Z := (Z.of_nat (String.length s) * 100)%Z.

Lemma rollout_monotone_witness :
  resolve (evaluate length_hash (with_rollout 5000 demo_flag) (demo_ctx "s1") ["strategy_id"] 10)
    false = true.
Proof.
  assert (rollout_bps demo_flag <= 5000)%Z as Hle by (vm_compute; discriminate).
  apply (proj1 (rollout_monotone length_hash demo_flag (demo_ctx "s1") ["strategy_id"] 10 5000 Hle)).
  vm_compute. reflexivity.
Defined.

(** The provider fails closed: whatever was pinned and whatever refreshes
    came before, a flag whose fail value is off is reported on only if its
    snapshot is the one baked into the binary or is within the staleness limit
    of the flag's class, the flag is in force there for the caller's environment
    and time, and the caller's entity is not denylisted.  A flag read from a
    stale snapshot is reported at its fail value. *)
Theorem provider_fails_closed xxh64 key ctx pinned now (p : FlagProvider) (rf : ResolvedFlag) :
  provider_evaluate xxh64 key ctx pinned now p = Some rf ->
  let snap := default (pin p) pinned in
  let age := (now - fetched_at_epoch_ms (snap_object snap))%Z in
  exists flag, snap_flags (snap_object snap) !! key = Some flag /\
    rf_generation rf = snap_generation (snap_object snap) /\
    (rf_enabled rf = true -> fail_value flag = false ->
       (snap_address snap = snap_address (fp_baked p) \/
        (age <= staleness_limit_ms (flag_class flag))%Z) /\
       in_force flag ctx now /\
       in_entities (select_bucketing_entity (attributes ctx) (entity_priority (fp_spec p)))
         (denylist flag) = false) /\
    (snap_address snap <> snap_address (fp_baked p) ->
     (staleness_limit_ms (flag_class flag) < age)%Z ->
     rf_enabled rf = fail_value flag /\ rf_degradation rf = FAIL_VALUE).
Proof.
  unfold provider_evaluate, pin. set (snap := default (fp_current p) pinned).
  destruct (snap_flags (snap_object snap) !! key) as [flag|] eqn:Hflag; [|done].
  assert (0 < staleness_limit_ms (flag_class flag))%Z as Hpos by (by destruct (flag_class flag)).
  assert (forall prio, resolve (evaluate xxh64 flag ctx prio now) (fail_value flag) = true ->
    fail_value flag = false ->
    in_force flag ctx now /\
    in_entities (select_bucketing_entity (attributes ctx) prio) (denylist flag) = false) as Hon.
  { intros prio Hr Hfail. destruct (decide (in_force flag ctx now)) as [Hf|Hf].
    - split; [done|]. rewrite evaluate_in_force in Hr by done. unfold dispatch in Hr.
      by destruct (in_entities _ (denylist flag)).
    - unfold resolve in Hr. rewrite evaluate_not_in_force in Hr by done. congruence. }
  destruct (Nat.eqb_spec (snap_address snap) (snap_address (fp_baked p))) as [Ha|Ha];
    [|destruct (Z.leb_spec (Z.max 0 (now - fetched_at_epoch_ms (snap_object snap)))
                  (staleness_limit_ms (flag_class flag)))];
    intros [= <-]; exists flag; simpl; split_and!; try done; intros.
  - split; [by left|by eapply Hon].
  - split; [right; lia|by eapply Hon].
  - lia.
  - congruence.
Qed.

Definition demo_provider : FlagProvider :=
  refresh {| snap_address := 1;
             snap_object := {| snap_generation := 7; fetched_at_epoch_ms := 5000;
                               snap_flags := {["risk.new_model" := demo_flag]} |} |}
    (FlagProvider_init
       {| version := 1; algorithm := "xxhash64"; seed := SEED; modulus := MODULUS;
          entity_priority := ["strategy_id"; "service"] |}
       {| snap_address := 0;
          snap_object := {| snap_generation := 1; fetched_at_epoch_ms := 0; snap_flags := ∅ |} |}).

Lemma provider_fails_closed_witness :
  exists rf, provider_evaluate length_hash "risk.new_model" (demo_ctx "desk-1") None 6001
               demo_provider = Some rf /\ rf_enabled rf = false.
Proof.
  eexists. split; [vm_compute; reflexivity|].
  destruct (provider_fails_closed length_hash "risk.new_model" (demo_ctx "desk-1") None 6001
    demo_provider _ ltac:(vm_compute; reflexivity)) as (flag & Hf & _ & _ & Hstale).
  vm_compute in Hf. injection Hf as <-. apply Hstale; vm_compute; done.
Defined.

(** A pinned snapshot is not affected by the refreshes of the provider. *)
Lemma pinned_evaluation_stable xxh64 key ctx now s (refreshes : list SnapshotRef) p :
  provider_evaluate xxh64 key ctx (Some s) now (foldr refresh p refreshes)
  = provider_evaluate xxh64 key ctx (Some s) now p.
Proof.
  assert (fp_baked (foldr refresh p refreshes) = fp_baked p /\
    fp_spec (foldr refresh p refreshes) = fp_spec p) as [Hb Hs].
  { induction refreshes as [|r l [IHb IHs]]; simpl; auto. }
  unfold provider_evaluate. simpl. by rewrite Hb, Hs.
Qed.
