(* ===== verification/FlagControl.v ===== *)
(** Feature flag control: [lifecycle.py], [service.py] and [reconciler.py] of
    apexquant-feature-flags.

    [FlagControlService] is given a repository, an event bus and an audit sink
    it knows nothing of; the class [FlagBackend] has the calls it makes on them
    and [FlagBackendLaws] what those calls do: the flags table of
    0001_feature_flags.sql, where the generation grows with every change, and two
    logs.  [MemBackend] is one such backend, for the examples. *)
From stdpp Require Import base strings list gmap pretty numbers.
From Stdlib Require Import Ascii.
From S2P Require Import Prelude PyStr Json.

(** ** lifecycle.py *)

Inductive FlagStatus := DRAFT | ACTIVE | DISABLED | RETIRED.
#[export] Instance FlagStatus_eq_dec : EqDecision FlagStatus.
Proof. solve_decision. Defined.

Definition status_value (s : FlagStatus) : string :=
  match s with
  | DRAFT => "DRAFT" | ACTIVE => "ACTIVE" | DISABLED => "DISABLED" | RETIRED => "RETIRED"
  end.

(** [_TRANSITIONS] *)
Definition transitions (s : FlagStatus) : list FlagStatus :=
  match s with
  | DRAFT => [ACTIVE]
  | ACTIVE => [DISABLED; RETIRED]
  | DISABLED => [ACTIVE; RETIRED]
  | RETIRED => []
  end.

Inductive flag_exc :=
| InvalidTransitionError (message : string)
| FlagAuthorizationError (message : string)
| FlagValidationError (message : string)
| KeyError
| BackendError (message : string).

Definition assert_transition {W} (current target : FlagStatus) : st W flag_exc unit :=
  guard_raise (negb (bool_decide (target ∈ transitions current)))
    (InvalidTransitionError ("illegal flag transition " ++ status_value current ++ " -> "
                               ++ status_value target)).

(** ** service.py *)

Definition FLAG_WRITE_PERMISSION : string := "flags:write".
Definition FLAG_ADMIN : string := "flags:admin".

Definition FORBIDDEN_VALUE_MARKERS : list string :=
  ["password"; "secret"; "token"; "api_key"; "private_key"; "credential"].

Record MutationRequest := {
  mr_flag_key : string;
  mr_actor : string;
  mr_reason : string;
  mr_authority : string;
  mr_payload : json
}.

(** A row of the flags table, as a dict; the columns the service reads. *)
Record FlagRow := {
  fr_flag_key : string;
  fr_status : FlagStatus;
  fr_flag_class : string;
  fr_rollout_bps : Z;
  fr_required_authority : string;
  fr_generation : Z
}.
#[export] Instance FlagRow_eq_dec : EqDecision FlagRow.
Proof. solve_decision. Defined.

(** The arguments of [audit.record] and of [bus.publish]. *)
Record AuditCall := {
  ac_flag_key : string;
  ac_generation : Z;
  ac_event_type : string;
  ac_actor : string;
  ac_reason : string;
  ac_authority : string;
  ac_before : option FlagRow;
  ac_after : FlagRow
}.

Record Envelope := {
  en_flag_key : string;
  en_event_type : string;
  en_generation : Z;
  en_flag_class : string;
  en_occurred_at : Z
}.

Class FlagBackend (W : Type) := {
  repo_create_flag (payload : json) : st W flag_exc FlagRow;
  repo_get_flag (flag_key : string) : st W flag_exc (option FlagRow);
  repo_set_status (flag_key : string) (target : FlagStatus) : st W flag_exc FlagRow;
  repo_set_rollout (flag_key : string) (rollout_bps : Z) : st W flag_exc FlagRow;
  audit_record (call : AuditCall) : st W flag_exc unit;
  bus_publish (topic : string) (event : Envelope) : st W flag_exc unit;
  utc_now : st W flag_exc Z
}.

Section FlagControlService.
Context {W : Type} `{FlagBackend W}.

Definition authorize (flag_row : option FlagRow) (request : MutationRequest)
    : st W flag_exc unit :=
  let required := match flag_row with
                  | Some f => fr_required_authority f
                  | None => FLAG_WRITE_PERMISSION
                  end in
  guard_raise (negb (mr_authority request =? required) && negb (mr_authority request =? FLAG_ADMIN))
    (FlagAuthorizationError ("mutation requires authority '" ++ required ++ "', got '"
                               ++ mr_authority request ++ "'")).

Definition reject_secrets (payload : json) : st W flag_exc unit :=
  let blob := str_lower (dumps plain payload) in
  guard_raise (existsb (fun marker => str_contains marker blob) FORBIDDEN_VALUE_MARKERS)
    (FlagValidationError "flags must never carry secrets or credential material").

Definition change_envelope (flag : FlagRow) (event_type : string) : st W flag_exc Envelope :=
  now ← utc_now;
  mret {| en_flag_key := fr_flag_key flag; en_event_type := event_type;
          en_generation := fr_generation flag; en_flag_class := fr_flag_class flag;
          en_occurred_at := now |}.

(** The tail the three mutations share: the audit record, then the event. *)
Definition record_and_publish (request : MutationRequest) (flag_key event_type : string)
    (before : option FlagRow) (after : FlagRow) : st W flag_exc FlagRow :=
  audit_record {| ac_flag_key := flag_key; ac_generation := fr_generation after;
                  ac_event_type := event_type; ac_actor := mr_actor request;
                  ac_reason := mr_reason request; ac_authority := mr_authority request;
                  ac_before := before; ac_after := after |} ≫= fun _ =>
  event ← change_envelope after event_type;
  bus_publish "flags.changed.v1" event ≫= fun _ =>
  mret after.

Definition create_flag (request : MutationRequest) : st W flag_exc FlagRow :=
  authorize None request ≫= fun _ =>
  reject_secrets (mr_payload request) ≫= fun _ =>
  flag ← repo_create_flag (mr_payload request);
  record_and_publish request (fr_flag_key flag) "CREATED" None flag.

Definition transition_event (target : FlagStatus) : option string :=
  match target with
  | ACTIVE => Some "ACTIVATED"
  | DISABLED => Some "DISABLED"
  | RETIRED => Some "RETIRED"
  | DRAFT => None
  end.

Definition flag_not_found (flag_key : string) : flag_exc :=
  FlagValidationError ("flag not found: " ++ flag_key).

Definition transition (request : MutationRequest) (target : FlagStatus) : st W flag_exc FlagRow :=
  found ← repo_get_flag (mr_flag_key request);
  match found with
  | None => raise (flag_not_found (mr_flag_key request))
  | Some before =>
      authorize (Some before) request ≫= fun _ =>
      assert_transition (fr_status before) target ≫= fun _ =>
      after ← repo_set_status (mr_flag_key request) target;
      match transition_event target with
      | None => raise KeyError
      | Some event_type =>
          record_and_publish request (mr_flag_key request) event_type (Some before) after
      end
  end.

Definition update_rollout (request : MutationRequest) (rollout_bps : Z) : st W flag_exc FlagRow :=
  found ← repo_get_flag (mr_flag_key request);
  match found with
  | None => raise (flag_not_found (mr_flag_key request))
  | Some before =>
      authorize (Some before) request ≫= fun _ =>
      guard_raise (negb (bool_decide (fr_status before = ACTIVE)))
        (FlagValidationError "rollout changes require an ACTIVE flag") ≫= fun _ =>
      let previous := fr_rollout_bps before in
      let continue_as step :=
        after ← repo_set_rollout (mr_flag_key request) rollout_bps;
        record_and_publish request (mr_flag_key request) step (Some before) after in
      if (rollout_bps <? previous)%Z then continue_as "ROLLOUT_DECREASE"
      else if (rollout_bps =? previous)%Z
      then raise (FlagValidationError "rollout value unchanged")
      else continue_as "ROLLOUT_STEP"
  end.
End FlagControlService.

(** ** Mutations, in any order *)

Inductive mutation :=
| MCreate (request : MutationRequest)
| MTransition (request : MutationRequest) (target : FlagStatus)
| MRollout (request : MutationRequest) (rollout_bps : Z).

Definition mutation_request (m : mutation) : MutationRequest :=
  match m with MCreate r | MTransition r _ | MRollout r _ => r end.

Definition run_mutation {W} `{FlagBackend W} (m : mutation) : st W flag_exc FlagRow :=
  match m with
  | MCreate r => create_flag r
  | MTransition r t => transition r t
  | MRollout r b => update_rollout r b
  end.

Definition run_mutations {W} `{FlagBackend W} (l : list mutation) (w : W) : W :=
  foldl (fun w m => (run_mutation m w).2) w l.

(** ** What the service relies on *)

(** [length(trim(x)) > 0] *)
Definition not_blank (s : string) : bool := negb (str_forall (fun c => (c =? " ")%char) s).

Definition set_row (f : FlagRow) (s : FlagStatus) (bps : Z) : FlagRow :=
  {| fr_flag_key := fr_flag_key f; fr_status := s; fr_flag_class := fr_flag_class f;
     fr_rollout_bps := bps; fr_required_authority := fr_required_authority f;
     fr_generation := fr_generation f + 1 |}.

Class FlagBackendLaws (W : Type) `{FlagBackend W} := {
  flags_of : W -> gmap string FlagRow;
  audit_of : W -> list AuditCall;
  bus_of : W -> list Envelope;

  law_create p w :
    (exists e, repo_create_flag p w = (Err e, w)) \/
    (exists f w', repo_create_flag p w = (Ok f, w') /\ flags_of w !! fr_flag_key f = None /\
       fr_status f = DRAFT /\
       flags_of w' = <[fr_flag_key f := f]> (flags_of w) /\
       audit_of w' = audit_of w /\ bus_of w' = bus_of w);

  law_get k w : repo_get_flag k w = (Ok (flags_of w !! k), w);

  law_key k f w : flags_of w !! k = Some f -> fr_flag_key f = k;

  law_set_status k f t w : flags_of w !! k = Some f ->
    exists w', repo_set_status k t w = (Ok (set_row f t (fr_rollout_bps f)), w') /\
      flags_of w' = <[k := set_row f t (fr_rollout_bps f)]> (flags_of w) /\
      audit_of w' = audit_of w /\ bus_of w' = bus_of w;

  (** The CHECK of the column refuses values out of range. *)
  law_set_rollout k f bps w : flags_of w !! k = Some f ->
    if (0 <=? bps)%Z && (bps <=? 10000)%Z then
      exists w', repo_set_rollout k bps w = (Ok (set_row f (fr_status f) bps), w') /\
        flags_of w' = <[k := set_row f (fr_status f) bps]> (flags_of w) /\
        audit_of w' = audit_of w /\ bus_of w' = bus_of w
    else exists e, repo_set_rollout k bps w = (Err e, w);

  (** The audit table wants an actor and a reason. *)
  law_record a w : not_blank (ac_actor a) = true -> not_blank (ac_reason a) = true ->
    exists w', audit_record a w = (Ok tt, w') /\ flags_of w' = flags_of w /\
      audit_of w' = (audit_of w ++ [a])%list /\ bus_of w' = bus_of w;

  law_publish topic e w :
    exists w', bus_publish topic e w = (Ok tt, w') /\ flags_of w' = flags_of w /\
      audit_of w' = audit_of w /\ bus_of w' = (bus_of w ++ [e])%list;

  law_now w : exists t w', utc_now w = (Ok t, w') /\ flags_of w' = flags_of w /\
      audit_of w' = audit_of w /\ bus_of w' = bus_of w
}.

(** ** What the audit log says *)

Definition authorized (before : option FlagRow) (authority : string) : Prop :=
  authority = match before with
              | Some f => fr_required_authority f
              | None => FLAG_WRITE_PERMISSION
              end \/ authority = FLAG_ADMIN.

(** A record is about a change the rules allow in the state [flags]. *)
Inductive legal (flags : gmap string FlagRow) (a : AuditCall) : Prop :=
| legal_create :
    ac_before a = None -> flags !! ac_flag_key a = None ->
    ac_event_type a = "CREATED" -> fr_status (ac_after a) = DRAFT ->
    fr_flag_key (ac_after a) = ac_flag_key a ->
    authorized None (ac_authority a) -> legal flags a
| legal_transition before target :
    ac_before a = Some before -> flags !! ac_flag_key a = Some before ->
    target ∈ transitions (fr_status before) ->
    transition_event target = Some (ac_event_type a) ->
    ac_after a = set_row before target (fr_rollout_bps before) ->
    authorized (Some before) (ac_authority a) -> legal flags a
| legal_rollout before bps :
    ac_before a = Some before -> flags !! ac_flag_key a = Some before ->
    fr_status before = ACTIVE -> (0 <= bps <= 10000)%Z ->
    (bps < fr_rollout_bps before /\ ac_event_type a = "ROLLOUT_DECREASE" \/
     fr_rollout_bps before < bps /\ ac_event_type a = "ROLLOUT_STEP")%Z ->
    ac_after a = set_row before ACTIVE bps ->
    authorized (Some before) (ac_authority a) -> legal flags a.

(** The log, read from its start, is a history of legal changes that ends in
    [flags]. *)
Inductive accounts : list AuditCall -> gmap string FlagRow -> Prop :=
| accounts_nil : accounts [] ∅
| accounts_snoc l flags a :
    accounts l flags -> legal flags a -> ac_generation a = fr_generation (ac_after a) ->
    accounts (l ++ [a])%list (<[ac_flag_key a := ac_after a]> flags).

(** The event of a change says what its record says. *)
Definition announces (a : AuditCall) (e : Envelope) : Prop :=
  en_flag_key e = ac_flag_key a /\ en_event_type e = ac_event_type a /\
  en_generation e = ac_generation a /\ en_flag_class e = fr_flag_class (ac_after a).

Definition signed (m : mutation) : bool :=
  not_blank (mr_actor (mutation_request m)) && not_blank (mr_reason (mutation_request m)).

Section Control.
Context {W : Type} `{HB : FlagBackend W} {HL : FlagBackendLaws W}.
Implicit Types (w : W).

(** A mutation is refused and nothing changes, or it is made, recorded and
    announced. *)
Definition made (w : W) (p : result flag_exc FlagRow * W) : Prop :=
  exists a e, p.1 = Ok (ac_after a) /\ legal (flags_of w) a /\
    ac_generation a = fr_generation (ac_after a) /\ announces a e /\
    flags_of p.2 = <[ac_flag_key a := ac_after a]> (flags_of w) /\
    audit_of p.2 = (audit_of w ++ [a])%list /\ bus_of p.2 = (bus_of w ++ [e])%list.

Definition step_ok (w : W) (p : result flag_exc FlagRow * W) : Prop :=
  (exists e, p = (Err e, w)) \/ made w p.

Lemma authorize_bind {A} before request (f : unit -> st W flag_exc A) w :
  (exists e, (authorize before request ≫= f) w = (Err e, w)) \/
  ((authorize before request ≫= f) w = f tt w /\ authorized before (mr_authority request)).
Proof.
  unfold authorize. rewrite guard_raise_bind. destruct (negb _ && negb _) eqn:Hc; [by left; eexists|].
  right. split; [done|]. apply andb_false_iff in Hc as [Hc|Hc];
    apply negb_false_iff, String.eqb_eq in Hc; [left|right]; done.
Qed.

Lemma record_and_publish_made request key ty before after w0 w :
  let a := {| ac_flag_key := key; ac_generation := fr_generation after; ac_event_type := ty;
              ac_actor := mr_actor request; ac_reason := mr_reason request;
              ac_authority := mr_authority request; ac_before := before; ac_after := after |} in
  not_blank (mr_actor request) = true -> not_blank (mr_reason request) = true ->
  legal (flags_of w0) a -> fr_flag_key after = key ->
  flags_of w = <[key := after]> (flags_of w0) -> audit_of w = audit_of w0 -> bus_of w = bus_of w0 ->
  made w0 (record_and_publish request key ty before after w).
Proof.
  intros a Hactor Hreason Hlegal Hkey Hf Ha Hb. unfold record_and_publish. fold a.
  destruct (law_record a w Hactor Hreason) as (w1 & H1 & Hf1 & Ha1 & Hb1).
  rewrite (st_bind_ok _ _ _ _ _ H1). unfold change_envelope.
  destruct (law_now w1) as (t & w2 & H2 & Hf2 & Ha2 & Hb2).
  set (e := {| en_flag_key := fr_flag_key after; en_event_type := ty;
               en_generation := fr_generation after; en_flag_class := fr_flag_class after;
               en_occurred_at := t |}).
  rewrite (st_bind_ok _ _ w1 e w2) by (by rewrite (st_bind_ok _ _ _ _ _ H2)).
  destruct (law_publish "flags.changed.v1" e w2) as (w3 & H3 & Hf3 & Ha3 & Hb3).
  rewrite (st_bind_ok _ _ _ _ _ H3).
  exists a, e. split_and!; try done; cbn [snd mret st_ret];
    rewrite ?Hf3, ?Hf2, ?Hf1, ?Ha3, ?Ha2, ?Ha1, ?Hb3, ?Hb2, ?Hb1, ?Hf, ?Ha, ?Hb; done.
Qed.

Lemma create_step r w :
  signed (MCreate r) = true -> step_ok w (create_flag r w).
Proof.
  intros [Hactor Hreason]%andb_true_iff. unfold create_flag.
  destruct (authorize_bind None r (fun _ => reject_secrets (mr_payload r) ≫= fun _ =>
    flag ← repo_create_flag (mr_payload r);
    record_and_publish r (fr_flag_key flag) "CREATED" None flag) w) as [[e He]|[-> Hauth]];
    [by left; exists e|].
  unfold reject_secrets. rewrite guard_raise_bind. destruct (existsb _ _); [by left; eexists|].
  destruct (law_create (mr_payload r) w) as [[e He]|(f & w1 & H1 & Hfresh & Hst & Hf & Ha & Hb)].
  { left. exists e. by rewrite (st_bind_err _ _ _ _ _ He). }
  right. rewrite (st_bind_ok _ _ _ _ _ H1). apply record_and_publish_made; try done.
  by apply legal_create.
Qed.

Lemma transition_step r t w :
  signed (MTransition r t) = true -> step_ok w (transition r t w).
Proof.
  intros [Hactor Hreason]%andb_true_iff. unfold transition.
  rewrite (st_bind_ok _ _ _ _ _ (law_get _ w)).
  destruct (flags_of w !! mr_flag_key r) as [before|] eqn:Hbefore; [|by left; eexists].
  match goal with |- context [(authorize _ _ ≫= ?f) w] =>
    destruct (authorize_bind (Some before) r f w) as [[e He]|[-> Hauth]] end;
    [by left; exists e|].
  unfold assert_transition. rewrite guard_unless_bind. case_decide as Ht; [|by left; eexists].
  destruct (law_set_status _ _ t w Hbefore) as (w1 & H1 & Hf & Ha & Hb).
  rewrite (st_bind_ok _ _ _ _ _ H1).
  destruct (transition_event t) as [ty|] eqn:Hty.
  2:{ destruct t; try done. by destruct (fr_status before); simpl in Ht; set_solver. }
  right. apply record_and_publish_made; try done.
  - by eapply (legal_transition _ _ before t).
  - exact (law_key _ _ _ Hbefore).
Qed.

Lemma rollout_step r bps w :
  signed (MRollout r bps) = true -> step_ok w (update_rollout r bps w).
Proof.
  intros [Hactor Hreason]%andb_true_iff. unfold update_rollout.
  rewrite (st_bind_ok _ _ _ _ _ (law_get _ w)).
  destruct (flags_of w !! mr_flag_key r) as [before|] eqn:Hbefore; [|by left; eexists].
  match goal with |- context [(authorize _ _ ≫= ?f) w] =>
    destruct (authorize_bind (Some before) r f w) as [[e He]|[-> Hauth]] end;
    [by left; exists e|].
  rewrite guard_unless_bind. case_decide as Hactive; [|by left; eexists].
  assert (forall step, (bps < fr_rollout_bps before /\ step = "ROLLOUT_DECREASE" \/
    fr_rollout_bps before < bps /\ step = "ROLLOUT_STEP")%Z ->
    step_ok w ((after ← repo_set_rollout (mr_flag_key r) bps;
      record_and_publish r (mr_flag_key r) step (Some before) after) w)) as Hstep.
  { intros step Hs. pose proof (law_set_rollout _ _ bps w Hbefore) as Hset.
    destruct ((0 <=? bps)%Z && (bps <=? 10000)%Z) eqn:Hrange.
    2:{ destruct Hset as [e He]. left. exists e. by rewrite (st_bind_err _ _ _ _ _ He). }
    destruct Hset as (w1 & H1 & Hf & Ha & Hb). right. rewrite (st_bind_ok _ _ _ _ _ H1).
    apply record_and_publish_made; try done.
    - eapply (legal_rollout _ _ before bps); try done; [lia|]. simpl. by rewrite Hactive.
    - exact (law_key _ _ _ Hbefore). }
  destruct (Z.ltb_spec bps (fr_rollout_bps before)); [apply Hstep; auto|].
  destruct (Z.eqb_spec bps (fr_rollout_bps before)); [by left; eexists|].
  apply Hstep. right. split; [lia|done].
Qed.

Lemma mutation_step m w : signed m = true -> step_ok w (run_mutation m w).
Proof.
  destruct m; [apply create_step|apply transition_step|apply rollout_step].
Qed.
End Control.

Lemma accounted_step {W} `{HB : FlagBackend W} {HL : FlagBackendLaws W} m (w : W) :
  signed m = true ->
  accounts (audit_of w) (flags_of w) -> Forall2 announces (audit_of w) (bus_of w) ->
  let w' := (run_mutation m w).2 in
  accounts (audit_of w') (flags_of w') /\ Forall2 announces (audit_of w') (bus_of w').
Proof.
  intros Hs Ha Hb. destruct (mutation_step m w Hs) as [[e ->]|(a & e & _ & Hl & Hg & He & Hf & Hau & Hbu)];
    [done|].
  simpl. rewrite Hf, Hau, Hbu. split; [by constructor|]. apply Forall2_app; [done|by constructor].
Qed.

(** A change of a retired flag is never legal. *)
Lemma legal_not_retired flags a f :
  legal flags a -> flags !! ac_flag_key a = Some f -> fr_status f = RETIRED -> False.
Proof.
  intros [? Hn|b t _ Hb Ht|b bps _ Hb Hst] Hf Hr; simplify_eq.
  - rewrite Hr in Ht. by apply elem_of_nil in Ht.
  - congruence.
Qed.

(** ** A backend for the examples *)

Record MemBackend := {
  mb_flags : gmap string FlagRow;
  mb_audit : list AuditCall;
  mb_bus : list Envelope;
  mb_time : nat
}.

Definition mb_set (k : string) (f : FlagRow) (w : MemBackend) : MemBackend :=
  {| mb_flags := <[k := f]> (mb_flags w); mb_audit := mb_audit w; mb_bus := mb_bus w;
     mb_time := mb_time w |}.

Definition mb_update (k : string) (g : FlagRow -> option FlagRow) : st MemBackend flag_exc FlagRow :=
  fun w => match mb_flags w !! k ≫= g with
           | Some f => (Ok f, mb_set k f w)
           | None => (Err (BackendError "update refused"), w)
           end.

#[export] Instance MemBackend_ops : FlagBackend MemBackend := {
  repo_create_flag p := fun w =>
    match p with
    | JDict d =>
        match dict_get "flag_key" d with
        | Some (JStr k) =>
            match mb_flags w !! k with
            | None =>
                let f := {| fr_flag_key := k; fr_status := DRAFT; fr_flag_class := "STANDARD";
                            fr_rollout_bps := 0; fr_required_authority := FLAG_WRITE_PERMISSION;
                            fr_generation := 1 |} in
                (Ok f, mb_set k f w)
            | Some _ => (Err (BackendError "duplicate key"), w)
            end
        | _ => (Err (BackendError "no key"), w)
        end
    | _ => (Err (BackendError "no key"), w)
    end;
  repo_get_flag k := fun w =>
    (Ok (mb_flags w !! k ≫= fun f => if decide (fr_flag_key f = k) then Some f else None), w);
  repo_set_status k t := mb_update k (fun f =>
    if decide (fr_flag_key f = k) then Some (set_row f t (fr_rollout_bps f)) else None);
  repo_set_rollout k bps := mb_update k (fun f =>
    if decide (fr_flag_key f = k /\ (0 <= bps <= 10000)%Z) then Some (set_row f (fr_status f) bps)
    else None);
  audit_record a := fun w =>
    if not_blank (ac_actor a) && not_blank (ac_reason a)
    then (Ok tt, {| mb_flags := mb_flags w; mb_audit := (mb_audit w ++ [a])%list;
                    mb_bus := mb_bus w; mb_time := mb_time w |})
    else (Err (BackendError "flag_events_not_empty"), w);
  bus_publish _ e := fun w =>
    (Ok tt, {| mb_flags := mb_flags w; mb_audit := mb_audit w; mb_bus := (mb_bus w ++ [e])%list;
               mb_time := mb_time w |});
  utc_now := fun w =>
    (Ok (Z.of_nat (mb_time w)),
     {| mb_flags := mb_flags w; mb_audit := mb_audit w; mb_bus := mb_bus w;
        mb_time := S (mb_time w) |})
}.

(** The rows stored under their own key. *)
Definition mb_rows (w : MemBackend) : gmap string FlagRow :=
  filter (fun kf => fr_flag_key kf.2 = kf.1) (mb_flags w).

Lemma mb_rows_lookup w k f :
  mb_rows w !! k = Some f <-> mb_flags w !! k = Some f /\ fr_flag_key f = k.
Proof. unfold mb_rows. apply map_lookup_filter_Some. Qed.

Lemma mb_rows_set k f w : fr_flag_key f = k -> mb_rows (mb_set k f w) = <[k := f]> (mb_rows w).
Proof. intros Hk. unfold mb_rows. simpl. by rewrite map_filter_insert_True. Qed.

#[export] Instance MemBackend_laws : FlagBackendLaws MemBackend.
Proof.
  refine {| flags_of := mb_rows; audit_of := mb_audit; bus_of := mb_bus |}.
  - intros p w. simpl. destruct p; try (by left; eexists).
    destruct (dict_get _ _) as [[]|]; try (by left; eexists).
    destruct (mb_flags w !! s) eqn:Hs; [by left; eexists|]. right.
    eexists _, _. split_and!; [done| |done| |done|done].
    + apply eq_None_not_Some. intros [f [Hf _]%mb_rows_lookup]. simpl in Hf. congruence.
    + by apply mb_rows_set.
  - intros k w. simpl. f_equal. f_equal. unfold mb_rows. rewrite map_lookup_filter.
    destruct (mb_flags w !! k); simpl; [|done]. by repeat case_decide || case_guard.
  - by intros k f w [_ Hk]%mb_rows_lookup.
  - intros k f t w [Hf Hk]%mb_rows_lookup. exists (mb_set k (set_row f t (fr_rollout_bps f)) w).
    simpl. unfold mb_update. rewrite Hf. simpl. rewrite decide_True by done.
    split_and!; [done|by apply mb_rows_set|done|done].
  - intros k f bps w [Hf Hk]%mb_rows_lookup. simpl. unfold mb_update. rewrite Hf. simpl.
    destruct ((0 <=? bps)%Z && (bps <=? 10000)%Z) eqn:Hr.
    + exists (mb_set k (set_row f (fr_status f) bps) w). rewrite decide_True by (split; [done|lia]).
      split_and!; [done|by apply mb_rows_set|done|done].
    + eexists. rewrite decide_False; [done|]. intros [_ ?]. lia.
  - intros a w Ha Hr. simpl. rewrite Ha, Hr. by eexists.
  - intros topic e w. by eexists.
  - intros w. by eexists _, _.
Defined.

Definition demo_request (authority reason : string) (payload : json) : MutationRequest :=
  {| mr_flag_key := "risk.new_model"; mr_actor := "alice"; mr_reason := reason;
     mr_authority := authority; mr_payload := payload |}.
Definition demo_mutations : list mutation :=
  let r := demo_request "flags:write" "canary" (JDict []) in
  [MCreate (demo_request "flags:write" "new model" (JDict [("flag_key", JStr "risk.new_model")]));
   MRollout r 500; MTransition r ACTIVE; MRollout r 500; MRollout r 20000;
   MRollout (demo_request "flags:read" "canary" (JDict [])) 900; MRollout r 100;
   MTransition r RETIRED; MTransition r ACTIVE].
Definition mb_init : MemBackend := {| mb_flags := ∅; mb_audit := []; mb_bus := []; mb_time := 0 |}.

Example demo_events :
  map ac_event_type (mb_audit (run_mutations demo_mutations mb_init))
  = ["CREATED"; "ACTIVATED"; "ROLLOUT_STEP"; "ROLLOUT_DECREASE"; "RETIRED"].
Proof. vm_compute. reflexivity. Qed.

(** ** Properties *)

(** The audit log accounts for every flag: after any signed mutations, in any
    order, allowed or refused, the log read from its start is a history of
    authorized changes - a creation in DRAFT, a transition of the life cycle, a
    rollout within range of an ACTIVE flag - whose outcome is exactly the flags
    stored, generation included; and the bus has carried one event per record,
    in the same order. *)
Theorem mutations_accounted {W} `{HB : FlagBackend W} {HL : FlagBackendLaws W}
    (l : list mutation) (w : W) :
  forallb signed l = true ->
  accounts (audit_of w) (flags_of w) -> Forall2 announces (audit_of w) (bus_of w) ->
  let w' := run_mutations l w in
  accounts (audit_of w') (flags_of w') /\ Forall2 announces (audit_of w') (bus_of w').
Proof.
  revert w. induction l as [|m l IH]; intros w; [done|].
  intros [Hm Hl]%andb_true_iff Ha Hb. destruct (accounted_step m w Hm Ha Hb) as [Ha' Hb'].
  exact (IH _ Hl Ha' Hb').
Qed.

Lemma mutations_accounted_witness :
  accounts (mb_audit (run_mutations demo_mutations mb_init))
    (mb_rows (run_mutations demo_mutations mb_init)).
Proof.
  exact (proj1 (mutations_accounted demo_mutations mb_init eq_refl accounts_nil
    (Forall2_nil announces))).
Defined.

(** A retired flag is final: no sequence of mutations, by whatever authority,
    changes its row again. *)
Theorem retired_is_terminal {W} `{HB : FlagBackend W} {HL : FlagBackendLaws W}
    (l : list mutation) (w : W) k f :
  forallb signed l = true -> flags_of w !! k = Some f -> fr_status f = RETIRED ->
  flags_of (run_mutations l w) !! k = Some f.
Proof.
  revert w. induction l as [|m l IH]; intros w; [done|].
  intros [Hm Hl]%andb_true_iff Hf Hr. apply IH; [done| |done].
  destruct (mutation_step m w Hm) as [[e ->]|(a & e & _ & Hlegal & _ & _ & Hf' & _)]; [done|].
  rewrite Hf'. destruct (decide (ac_flag_key a = k)) as [<-|Hne].
  - by destruct (legal_not_retired _ _ _ Hlegal Hf).
  - by rewrite lookup_insert_ne.
Qed.

Definition demo_retired : MemBackend := run_mutations (take 8 demo_mutations) mb_init.

Lemma retired_is_terminal_witness :
  exists f, flags_of (run_mutations (drop 8 demo_mutations) demo_retired) !! "risk.new_model"
    = Some f /\ fr_generation f = 5%Z.
Proof.
  assert (exists f, flags_of demo_retired !! "risk.new_model" = Some f /\ fr_generation f = 5%Z
    /\ fr_status f = RETIRED) as (f & Hf & Hg & Hr) by (eexists; split_and!; vm_compute; reflexivity).
  exists f. refine (conj (retired_is_terminal (drop 8 demo_mutations) _ _ _ eq_refl Hf Hr) Hg).
Defined.

(** No flag is created from a payload that carries, in any key or any string at
    any depth and in any case, one of the forbidden words: the call fails before
    it reaches the repository, and leaves no trace. *)
Theorem secrets_never_stored {W} `{HB : FlagBackend W} (r : MutationRequest) (w : W) s marker :
  marker ∈ FORBIDDEN_VALUE_MARKERS -> s ∈ json_strings (mr_payload r) ->
  str_contains marker (str_lower s) = true ->
  exists e, create_flag r w = (Err e, w).
Proof.
  intros Hm Hs Hc. unfold create_flag, authorize. rewrite guard_raise_bind.
  destruct (negb _ && negb _); [by eexists|].
  unfold reject_secrets. rewrite guard_raise_bind.
  assert (existsb (fun m => str_contains m (str_lower (dumps plain (mr_payload r))))
    FORBIDDEN_VALUE_MARKERS = true) as ->; [|by eexists].
  apply existsb_exists. exists marker. split; [by apply list_elem_of_In|].
  apply (word_in_dumps plain _ s); [done|done|].
  repeat (apply elem_of_cons in Hm as [->|Hm]; [done|]). by apply elem_of_nil in Hm.
Qed.

Lemma secrets_never_stored_witness :
  exists e, create_flag (demo_request "flags:admin" "new"
    (JDict [("flag_key", JStr "a"); ("allowlist", JList [JStr "Broker-Password"])])) mb_init
    = (Err e, mb_init).
Proof.
  apply (secrets_never_stored _ mb_init "Broker-Password" "password");
    [by left|by right; right; right; left|done].
Defined.
