(* ===== verification/FlagReconciler.v ===== *)
(** [reconciler.py] of apexquant-feature-flags: the sweep that repairs the Redis
    copy of the flags from Postgres and retires zombie flags.  The repository,
    the Redis client and the alert sink are given to it; [SweepBackend] has the
    calls it makes on them, [SweepBackendLaws] what a call that succeeds does
    and what one that fails may have done.  A cached text is JSON as [Json] has
    it, without fractions. *)
From stdpp Require Import base strings list gmap pretty numbers.
From Stdlib Require Import Ascii.
From S2P Require Import Prelude PyStr Json.

Definition ZOMBIE_EVAL_GAP_SECONDS : Z := 7 * 24 * 3600.

Record ReconciliationReport := {
  drift_flags : list string;
  repaired : list string;
  zombie_flags : list string;
  forced_retirements : list string
}.

Definition empty_report : ReconciliationReport :=
  {| drift_flags := []; repaired := []; zombie_flags := []; forced_retirements := [] |}.

(** A row of [list_active_flags]: the dict, with the two entries the sweep reads
    in front; [None] is a value that [json.dumps] refuses (a [datetime], a
    [UUID]).  A row of [list_flags_pending_review] has times in microseconds. *)
Record ActiveRow := {
  ar_flag_key : string; ar_generation : Z; ar_rest : list (string * option json) }.
Record ReviewRow := {
  rr_flag_key : string; rr_review_at : Z; rr_last_evaluated_at : option Z }.

Fixpoint json_entries (l : list (string * option json)) : option (list (string * json)) :=
  match l with
  | [] => Some []
  | (k, Some j) :: rest => entries ← json_entries rest; mret ((k, j) :: entries)
  | (_, None) :: _ => None
  end.

(** The row as [json.dumps] takes it. *)
Definition row_dict (f : ActiveRow) : option json :=
  rest ← json_entries (ar_rest f);
  mret (JDict (("flag_key", JStr (ar_flag_key f)) :: ("generation", JNum (ar_generation f)) :: rest)).

Inductive sweep_exc :=
| AttributeError | JSONDecodeError | TypeError | SweepBackendError (message : string).

Inductive Alert :=
| FlagCacheDrift (flag_key : string) (generation : Z)
| ZombieFlagForcedRetirement (flag_key : string) (review_at : Z).

Class SweepBackend (W : Type) := {
  utc_now : st W sweep_exc Z;
  list_active_flags : st W sweep_exc (list ActiveRow);
  list_flags_pending_review (now : Z) : st W sweep_exc (list ReviewRow);
  force_retire (flag_key : string) : st W sweep_exc unit;
  redis_get (key : string) : st W sweep_exc (option string);
  redis_set (key value : string) : st W sweep_exc unit;
  alert (a : Alert) : st W sweep_exc unit
}.

(** [_redis_key] *)
Definition redis_key (flag_key : string) : string := "apex:flags:" ++ flag_key.

(** [cached.get("generation") != flag["generation"]] on an int and a JSON value;
    [True] and [False] are ints. *)
Definition generation_differs (cached : option json) (g : Z) : bool :=
  match cached with
  | Some (JNum n) => negb (n =? g)%Z
  | Some (JBool b) => negb (Z.b2z b =? g)%Z
  | _ => true
  end.

(** [(now - last_eval).total_seconds() > ZOMBIE_EVAL_GAP_SECONDS] *)
Definition stale_eval (now : Z) (last_eval : option Z) : bool :=
  match last_eval with
  | None => true
  | Some t => (ZOMBIE_EVAL_GAP_SECONDS * 1000000 <? now - t)%Z
  end.

Section Sweep.
Context {W : Type} `{SweepBackend W}.

(** [_redis_get] *)
Definition cache_get (flag_key : string) : st W sweep_exc (option json) :=
  raw ← redis_get (redis_key flag_key);
  match raw with
  | None => mret None
  | Some r => match loads r with
              | Some j => mret (Some j)
              | None => raise JSONDecodeError
              end
  end.

(** [_redis_put] *)
Definition cache_put (f : ActiveRow) : st W sweep_exc unit :=
  match row_dict f with
  | Some j => redis_set (redis_key (ar_flag_key f)) (dumps plain j)
  | None => raise TypeError
  end.

(** [cached is None or cached.get("generation") != flag["generation"]] *)
Definition drifted (cached : option json) (f : ActiveRow) : st W sweep_exc bool :=
  match cached with
  | None | Some JNull => mret true
  | Some (JDict d) => mret (generation_differs (dict_get "generation" d) (ar_generation f))
  | Some _ => raise AttributeError
  end.

(** One round of the drift loop; the two lists it appends to. *)
Definition repair_flag (f : ActiveRow) (report : list string * list string)
    : st W sweep_exc (list string * list string) :=
  cached ← cache_get (ar_flag_key f);
  d ← drifted cached f;
  if (d : bool) then
    cache_put f ≫= fun _ =>
    alert (FlagCacheDrift (ar_flag_key f) (ar_generation f)) ≫= fun _ =>
    mret ((report.1 ++ [ar_flag_key f])%list, (report.2 ++ [ar_flag_key f])%list)
  else mret report.

Fixpoint repair_flags (l : list ActiveRow) (report : list string * list string)
    : st W sweep_exc (list string * list string) :=
  match l with
  | [] => mret report
  | f :: rest => report' ← repair_flag f report; repair_flags rest report'
  end.

(** The anti-zombie loop. *)
Definition is_zombie (now : Z) (f : ReviewRow) : bool :=
  (rr_review_at f <=? now)%Z && stale_eval now (rr_last_evaluated_at f).

Fixpoint retire_zombies (now : Z) (l : list ReviewRow) (report : list string * list string)
    : st W sweep_exc (list string * list string) :=
  match l with
  | [] => mret report
  | f :: rest =>
      if is_zombie now f then
        alert (ZombieFlagForcedRetirement (rr_flag_key f) (rr_review_at f)) ≫= fun _ =>
        force_retire (rr_flag_key f) ≫= fun _ =>
        retire_zombies now rest
          ((report.1 ++ [rr_flag_key f])%list, (report.2 ++ [rr_flag_key f])%list)
      else retire_zombies now rest report
  end.

Definition run_once : st W sweep_exc ReconciliationReport :=
  now ← utc_now;
  truth ← list_active_flags;
  drift ← repair_flags truth ([], []);
  pending ← list_flags_pending_review now;
  zombies ← retire_zombies now pending ([], []);
  mret {| drift_flags := drift.1; repaired := drift.2;
          zombie_flags := zombies.1; forced_retirements := zombies.2 |}.
End Sweep.

(** ** What the sweep relies on *)

(** What is observed of the world: the active rows, the flags under review, the
    texts in Redis, the alerts sent and the clock. *)
Record Observed := {
  rows : list ActiveRow;
  review : Z -> list ReviewRow;
  texts : gmap string string;
  sent : list Alert;
  clock : Z
}.

Definition with_text (key value : string) (o : Observed) : Observed :=
  {| rows := rows o; review := review o; texts := <[key := value]> (texts o); sent := sent o;
     clock := clock o |}.
Definition with_alert (a : Alert) (o : Observed) : Observed :=
  {| rows := rows o; review := review o; texts := texts o; sent := (sent o ++ [a])%list;
     clock := clock o |}.

(** The flag has left the active ones; whether it is still under review is the
    repository's affair. *)
Record without_flag (k : string) (o o' : Observed) : Prop := {
  without_rows : rows o' ≡ₚ filter (fun f => ar_flag_key f <> k) (rows o);
  without_texts : texts o' = texts o;
  without_sent : sent o' = sent o;
  without_clock : clock o' = clock o
}.

(** A call of the backend: what it does when it returns and what it may have
    done when it fails, which it does only in a world that does not answer. *)
Definition backend_call {W A} (answers : W -> Prop) (m : st W sweep_exc A)
    (returned : W -> A -> W -> Prop) (failed : W -> W -> Prop) : Prop :=
  forall w, match m w with
  | (Ok a, w') => returned w a w' /\ (answers w -> answers w')
  | (Err e, w') => failed w w' /\ ~ answers w /\ exists msg, e = SweepBackendError msg
  end.

(** Nothing else writes during a sweep; the table has one row for each flag
    (its key is the primary key of 0001_feature_flags.sql) and a row is a dict,
    with distinct keys; a write that fails may or may not have taken effect. *)
Class SweepBackendLaws (W : Type) `{SweepBackend W} := {
  seen : W -> Observed;
  answers : W -> Prop;
  law_one_row w : NoDup (ar_flag_key <$> rows (seen w));
  law_row_keys w f j : f ∈ rows (seen w) -> row_dict f = Some j -> json_wf j = true;
  law_now : backend_call answers utc_now
    (fun w now w' => now = clock (seen w) /\ seen w' = seen w) (fun w w' => seen w' = seen w);
  law_active : backend_call answers list_active_flags
    (fun w l w' => l = rows (seen w) /\ seen w' = seen w) (fun w w' => seen w' = seen w);
  law_review now : backend_call answers (list_flags_pending_review now)
    (fun w l w' => l = review (seen w) now /\ seen w' = seen w) (fun w w' => seen w' = seen w);
  law_get k : backend_call answers (redis_get k)
    (fun w o w' => o = texts (seen w) !! k /\ seen w' = seen w) (fun w w' => seen w' = seen w);
  law_set k v : backend_call answers (redis_set k v)
    (fun w _ w' => seen w' = with_text k v (seen w))
    (fun w w' => seen w' = seen w \/ seen w' = with_text k v (seen w));
  law_alert a : backend_call answers (alert a)
    (fun w _ w' => seen w' = with_alert a (seen w))
    (fun w w' => seen w' = seen w \/ seen w' = with_alert a (seen w));
  law_retire k : backend_call answers (force_retire k)
    (fun w _ w' => without_flag k (seen w) (seen w'))
    (fun w w' => seen w' = seen w \/ without_flag k (seen w) (seen w'))
}.

(** The cached copy of a flag is of its generation. *)
Definition cached_fresh (c : gmap string string) (f : ActiveRow) : bool :=
  match c !! redis_key (ar_flag_key f) with
  | None => false
  | Some raw => match loads raw with
                | Some (JDict d) => negb (generation_differs (dict_get "generation" d) (ar_generation f))
                | _ => false
                end
  end.

(** ** What one sweep does *)

Definition drifting (c : gmap string string) (l : list ActiveRow) : list ActiveRow :=
  filter (fun f => cached_fresh c f = false) l.
Definition drift_of (c : gmap string string) (l : list ActiveRow) : list string :=
  ar_flag_key <$> drifting c l.
Definition drift_alerts (c : gmap string string) (l : list ActiveRow) : list Alert :=
  (fun f => FlagCacheDrift (ar_flag_key f) (ar_generation f)) <$> drifting c l.

Definition zombies_of (now : Z) (l : list ReviewRow) : list ReviewRow :=
  filter (fun f => is_zombie now f = true) l.
Definition zombie_alerts (now : Z) (l : list ReviewRow) : list Alert :=
  (fun f => ZombieFlagForcedRetirement (rr_flag_key f) (rr_review_at f)) <$> zombies_of now l.

(** Only texts of these flags have changed, and to the dump of their row. *)
Definition touched (l : list ActiveRow) (c c' : gmap string string) : Prop :=
  forall k, c' !! k = c !! k \/
    exists f j, f ∈ l /\ k = redis_key (ar_flag_key f) /\ row_dict f = Some j /\
      c' !! k = Some (dumps plain j).

(** Why a sweep fails: the backend, a cached text that is not JSON, or is a
    value that is no object, a drifted row that [json.dumps] refuses. *)
Definition cause (answering : Prop) (c : gmap string string) (l : list ActiveRow) (e : sweep_exc)
    : Prop :=
  match e with
  | SweepBackendError _ => ~ answering
  | JSONDecodeError => exists f raw, f ∈ l /\ c !! redis_key (ar_flag_key f) = Some raw /\
      loads raw = None
  | AttributeError => exists f raw j, f ∈ l /\ c !! redis_key (ar_flag_key f) = Some raw /\
      loads raw = Some j /\ j <> JNull /\ forall d, j <> JDict d
  | TypeError => exists f, f ∈ l /\ cached_fresh c f = false /\ row_dict f = None
  end.

Lemma redis_key_inj k k' : redis_key k = redis_key k' -> k = k'.
Proof. apply app_inv_head_str. Qed.

Lemma dumped_fresh c f j :
  json_wf j = true -> row_dict f = Some j ->
  c !! redis_key (ar_flag_key f) = Some (dumps plain j) -> cached_fresh c f = true.
Proof.
  intros Hw Hj Hc. unfold cached_fresh. rewrite Hc, (loads_dumps plain _ Hw), normalize_plain.
  unfold row_dict in Hj. destruct (json_entries (ar_rest f)); [|done]. injection Hj as <-.
  simpl. by rewrite Z.eqb_refl.
Qed.

Lemma cached_fresh_same c c' f :
  c' !! redis_key (ar_flag_key f) = c !! redis_key (ar_flag_key f) ->
  cached_fresh c' f = cached_fresh c f.
Proof. unfold cached_fresh. by intros ->. Qed.

Lemma touched_refl l c : touched l c c.
Proof. intros k. by left. Qed.

Lemma touched_mono l l' c c' : (forall f, f ∈ l -> f ∈ l') -> touched l c c' -> touched l' c c'.
Proof. intros Hl Ht k. destruct (Ht k) as [|(f & j & ? & ?)]; [by left|right; eauto 10]. Qed.

Lemma touched_trans l c1 c2 c3 : touched l c1 c2 -> touched l c2 c3 -> touched l c1 c3.
Proof.
  intros H1 H2 k. destruct (H2 k) as [->|?]; [|by right].
  destruct (H1 k) as [->|?]; [by left|by right].
Qed.

Lemma touched_other l c c' k :
  touched l c c' -> (forall f, f ∈ l -> k <> redis_key (ar_flag_key f)) -> c' !! k = c !! k.
Proof. intros Ht Hk. destruct (Ht k) as [|(f & j & Hf & -> & _)]; [done|]. by destruct (Hk f Hf). Qed.

(** A flag of another key is not touched. *)
Lemma touched_apart l c c' g :
  touched l c c' -> ar_flag_key g ∉ ar_flag_key <$> l ->
  c' !! redis_key (ar_flag_key g) = c !! redis_key (ar_flag_key g).
Proof.
  intros Ht Hg. apply (touched_other l); [done|]. intros f Hf Heq%redis_key_inj.
  apply Hg. rewrite Heq. by apply list_elem_of_fmap_2.
Qed.

Lemma drifting_same c c' l :
  (forall f, f ∈ l -> c' !! redis_key (ar_flag_key f) = c !! redis_key (ar_flag_key f)) ->
  drifting c' l = drifting c l.
Proof.
  unfold drifting. induction l as [|f l IH]; intros Hl; [done|]. rewrite !filter_cons.
  rewrite (cached_fresh_same _ _ f) by (apply Hl; left).
  rewrite IH by (intros g Hg; apply Hl; by right). done.
Qed.

Lemma cause_same ans c c' l e :
  (forall f, f ∈ l -> c' !! redis_key (ar_flag_key f) = c !! redis_key (ar_flag_key f)) ->
  cause ans c' l e -> cause ans c l e.
Proof.
  intros Hl. destruct e; simpl.
  - intros (f & raw & j & Hf & Hr & ?). exists f, raw, j. by rewrite <- Hl.
  - intros (f & raw & Hf & Hr & ?). exists f, raw. by rewrite <- Hl.
  - intros (f & Hf & Hr & ?). exists f. by rewrite <- (cached_fresh_same _ _ _ (Hl f Hf)).
  - done.
Qed.

Lemma cause_mono (ans ans' : Prop) c l l' e :
  (ans' -> ans) -> (forall f, f ∈ l -> f ∈ l') -> cause ans c l e -> cause ans' c l' e.
Proof. intros Ha Hl. destruct e; simpl; naive_solver. Qed.

(** Flags that are all fresh give no cause but the backend. *)
Lemma fresh_no_cause (ans : Prop) c l e :
  ans -> (forall f, f ∈ l -> cached_fresh c f = true) -> cause ans c l e -> False.
Proof.
  intros Ha Hf. unfold cached_fresh in Hf. destruct e; simpl.
  - intros (f & raw & j & Hin & Hr & Hj & Hn & Hd). specialize (Hf f Hin). rewrite Hr, Hj in Hf.
    destruct j; try done. by eapply Hd.
  - intros (f & raw & Hin & Hr & Hj). specialize (Hf f Hin). by rewrite Hr, Hj in Hf.
  - intros (f & Hin & Hc & _). unfold cached_fresh in Hc. by rewrite (Hf f Hin) in Hc.
  - done.
Qed.

Section SweepProofs.
Context {W : Type} `{HB : SweepBackend W} {HL : SweepBackendLaws W}.

(** A call of the backend, then the rest. *)
Lemma call_bind {A B} (m : st W sweep_exc A) P F (k : A -> st W sweep_exc B) w r w' :
  backend_call answers m P F -> (m ≫= k) w = (r, w') ->
  (exists a w1, P w a w1 /\ (answers w -> answers w1) /\ k a w1 = (r, w')) \/
  (exists msg, r = Err (SweepBackendError msg) /\ F w w' /\ ~ answers w).
Proof.
  intros Hm Hr. specialize (Hm w). unfold mbind, st_bind in Hr.
  destruct (m w) as [[a|e] w1]; [left; naive_solver|right].
  injection Hr as <- <-. destruct Hm as (? & ? & msg & ->). eauto.
Qed.

(** What a part of the sweep leaves when it only repairs. *)
Record repairs (l : list ActiveRow) (w w' : W) : Prop := {
  repairs_rows : rows (seen w') = rows (seen w);
  repairs_review : review (seen w') = review (seen w);
  repairs_clock : clock (seen w') = clock (seen w);
  repairs_texts : touched l (texts (seen w)) (texts (seen w'))
}.

Lemma repairs_none l w w' : seen w' = seen w -> repairs l w w'.
Proof. intros Hs. split; rewrite Hs; try done. apply touched_refl. Qed.

Lemma repairs_trans l w1 w2 w3 : repairs l w1 w2 -> repairs l w2 w3 -> repairs l w1 w3.
Proof. intros [? ? ? ?] [? ? ? ?]. split; [congruence..|]. by eapply touched_trans. Qed.

Lemma repairs_mono l l' w w' : (forall f, f ∈ l -> f ∈ l') -> repairs l w w' -> repairs l' w w'.
Proof. intros Hl [? ? ? ?]. split; [done..|]. by eapply touched_mono. Qed.

Lemma repairs_alert l a w w' : seen w' = with_alert a (seen w) -> repairs l w w'.
Proof. intros Hs. split; rewrite Hs; try done. apply touched_refl. Qed.

Lemma repairs_text f j w w' :
  row_dict f = Some j ->
  seen w' = with_text (redis_key (ar_flag_key f)) (dumps plain j) (seen w) -> repairs [f] w w'.
Proof.
  intros Hj Hs. split; rewrite Hs; try done. intros k. simpl.
  destruct (decide (k = redis_key (ar_flag_key f))) as [->|Hk].
  - right. exists f, j. rewrite lookup_insert_eq. split_and!; [left|done..].
  - left. by rewrite lookup_insert_ne.
Qed.

(** [_redis_get] and the test of the loop: the decision, or what stops it. *)
Lemma drift_decision {A} f (k : bool -> st W sweep_exc A) w r w' :
  (cached ← cache_get (ar_flag_key f); d ← drifted cached f; k d) w = (r, w') ->
  (exists w1, seen w1 = seen w /\ (answers w -> answers w1) /\
     k (negb (cached_fresh (texts (seen w)) f)) w1 = (r, w')) \/
  (seen w' = seen w /\ exists e, r = Err e /\ cause (answers w) (texts (seen w)) [f] e).
Proof.
  unfold cache_get, mbind, st_bind. intros Hr. pose proof (law_get (redis_key (ar_flag_key f)) w) as Hg.
  destruct (redis_get (redis_key (ar_flag_key f)) w) as [[o|e] w1].
  2:{ destruct Hg as (Hs & Ha & msg & ->). injection Hr as <- <-. right. eauto. }
  destruct Hg as ([-> Hs] & Ha). rename Hr into Hr1.
  assert (Hin : f ∈ [f]) by left. unfold cached_fresh. set (c := texts (seen w)) in *.
  destruct (c !! redis_key (ar_flag_key f)) as [raw|] eqn:Hraw; [|left; eauto].
  destruct (loads raw) as [j|] eqn:Hj.
  2:{ right. injection Hr1 as <- <-. split; [done|]. eexists. split; [done|]. by exists f, raw. }
  destruct j; try (left; exists w1; by rewrite ?negb_involutive);
    (right; injection Hr1 as <- <-; split; [done|]; eexists; split; [done|];
     exists f, raw; eexists; split_and!; [done..|by intros ?]).
Qed.

(** One round of the drift loop. *)
Lemma repair_flag_spec f report w r w' :
  (forall j, row_dict f = Some j -> json_wf j = true) ->
  repair_flag f report w = (r, w') ->
  repairs [f] w w' /\
  let c := texts (seen w) in
  match r with
  | Ok report' => report' = (report.1 ++ drift_of c [f], report.2 ++ drift_of c [f])%list /\
      cached_fresh (texts (seen w')) f = true /\
      sent (seen w') = (sent (seen w) ++ drift_alerts c [f])%list /\ (answers w -> answers w')
  | Err e => cause (answers w) c [f] e
  end.
Proof.
  intros Hw Hr. unfold repair_flag in Hr.
  destruct (drift_decision f _ w r w' Hr) as [(w1 & Hs & Ha & Hr1)|(Hs & e & -> & He)];
    [|split; [by apply repairs_none|done]].
  unfold drift_of, drift_alerts, drifting. rewrite filter_cons, filter_nil. clear Hr.
  destruct (cached_fresh (texts (seen w)) f) eqn:Hf; simpl in Hr1.
  { injection Hr1 as <- <-. simpl. rewrite !app_nil_r. split; [by apply repairs_none|].
    rewrite Hs. split_and!; try done. by destruct report. }
  rewrite decide_True by done. csimpl.
  unfold cache_put in Hr1. destruct (row_dict f) as [j|] eqn:Hj.
  2:{ injection Hr1 as <- <-. split; [by apply repairs_none|]. exists f. by split_and!; [left|..]. }
  destruct (call_bind _ _ _ _ _ _ _ (law_set _ _) Hr1) as [(u & w2 & Hs2 & Ha2 & Hr2)|(msg & -> & Hs2 & Hn)].
  2:{ rewrite Hs in Hs2. split; [|simpl; tauto].
      destruct Hs2; [by apply repairs_none|by eapply repairs_text]. }
  rewrite Hs in Hs2. pose proof (repairs_text f j w w2 Hj Hs2) as Hrep.
  destruct (call_bind _ _ _ _ _ _ _ (law_alert _) Hr2) as [(u' & w3 & Hs3 & Ha3 & Hr3)|(msg & -> & Hs3 & Hn)].
  2:{ split; [|simpl; tauto]. apply (repairs_trans _ _ _ _ Hrep).
      destruct Hs3; [by apply repairs_none|by eapply repairs_alert]. }
  injection Hr3 as <- <-. split; [apply (repairs_trans _ _ _ _ Hrep); by eapply repairs_alert|].
  split_and!; [done| |by rewrite Hs3, Hs2|tauto].
  apply (dumped_fresh _ _ j); [by apply Hw|done|]. rewrite Hs3, Hs2. simpl. by rewrite lookup_insert_eq.
Qed.

Lemma drifting_cons c f l : drifting c (f :: l) = (drifting c [f] ++ drifting c l)%list.
Proof. unfold drifting. rewrite !filter_cons, filter_nil. by case_decide. Qed.

(** The drift loop. *)
Lemma repair_flags_spec l report w r w' :
  NoDup (ar_flag_key <$> l) ->
  (forall f j, f ∈ l -> row_dict f = Some j -> json_wf j = true) ->
  repair_flags l report w = (r, w') ->
  repairs l w w' /\
  let c := texts (seen w) in
  match r with
  | Ok report' => report' = (report.1 ++ drift_of c l, report.2 ++ drift_of c l)%list /\
      (forall f, f ∈ l -> cached_fresh (texts (seen w')) f = true) /\
      sent (seen w') = (sent (seen w) ++ drift_alerts c l)%list /\ (answers w -> answers w')
  | Err e => cause (answers w) c l e
  end.
Proof.
  revert report w. induction l as [|f l IH]; intros report w Hnd Hwf Hr; simpl in Hr.
  { injection Hr as <- <-. split; [by apply repairs_none|]. unfold drift_of, drift_alerts, drifting.
    rewrite filter_nil. simpl. rewrite !app_nil_r. split_and!; [by destruct report| |done..].
    by intros f ?%elem_of_nil. }
  rewrite fmap_cons, list.NoDup_cons in Hnd. destruct Hnd as [Hf Hnd].
  apply st_bind_inv in Hr as [(report1 & w1 & H1 & Hr)|(e & H1 & ->)];
    apply repair_flag_spec in H1 as [Hrep1 H1]; [|by eauto using list_elem_of_here| |by eauto using list_elem_of_here].
  2:{ split; [eapply repairs_mono, Hrep1; set_solver|].
      eapply cause_mono, H1; [done|set_solver]. }
  destruct H1 as (-> & Hfresh & Hsent & Hans).
  apply IH in Hr as [Hrep2 H2]; [|done|by eauto using list_elem_of_further].
  assert (Hsame : forall g, g ∈ l ->
    texts (seen w1) !! redis_key (ar_flag_key g) = texts (seen w) !! redis_key (ar_flag_key g)).
  { intros g Hg. apply (touched_apart [f]); [apply Hrep1|]. csimpl. rewrite list_elem_of_singleton.
    intros Heq. apply Hf. rewrite <- Heq. by apply list_elem_of_fmap_2. }
  split.
  { eapply repairs_trans; [eapply repairs_mono, Hrep1; set_solver|eapply repairs_mono, Hrep2; set_solver]. }
  destruct r as [report'|e].
  - destruct H2 as (-> & Hfresh' & Hsent' & Hans'). simpl.
    unfold drift_of, drift_alerts in *. rewrite (drifting_cons _ f l), !fmap_app.
    rewrite (drifting_same _ _ _ Hsame), Hsent in *. rewrite !(assoc (++)%list).
    split_and!; [done| |done|tauto].
    intros g [->|Hg]%elem_of_cons; [|by apply Hfresh'].
    rewrite (cached_fresh_same (texts (seen w1))); [done|].
    by apply (touched_apart l); [apply Hrep2|].
  - apply (cause_same _ _ _ _ _ Hsame) in H2. by eapply cause_mono; [exact Hans| |exact H2]; set_solver.
Qed.

(** The anti-zombie loop. *)
Lemma retire_zombies_spec now l report w r w' :
  let ks := rr_flag_key <$> zombies_of now l in
  retire_zombies now l report w = (r, w') ->
  texts (seen w') = texts (seen w) /\ clock (seen w') = clock (seen w) /\
  (forall f, f ∈ rows (seen w') -> f ∈ rows (seen w)) /\
  (forall f, f ∈ rows (seen w) -> f ∈ rows (seen w') \/ ar_flag_key f ∈ ks) /\
  match r with
  | Ok report' => report' = (report.1 ++ ks, report.2 ++ ks)%list /\
      rows (seen w') ≡ₚ filter (fun f => ar_flag_key f ∉ ks) (rows (seen w)) /\
      sent (seen w') = (sent (seen w) ++ zombie_alerts now l)%list /\ (answers w -> answers w')
  | Err e => (exists msg, e = SweepBackendError msg) /\ ~ answers w
  end.
Proof.
  unfold zombie_alerts, zombies_of.
  revert report w. induction l as [|f l IH]; intros report w; simpl; intros Hr.
  { injection Hr as <- <-. rewrite !app_nil_r.
    split_and!; [done|done|done|by auto|by destruct report| |done|done].
    by rewrite filter_all by (apply list.Forall_forall; intros; apply not_elem_of_nil). }
  rewrite filter_cons. destruct (is_zombie now f) eqn:Hz; [|by apply IH]. rewrite decide_True by done. csimpl.
  destruct (call_bind _ _ _ _ _ _ _ (law_alert _) Hr) as [(u1 & w1 & Hs1 & Ha1 & Hr1)|(msg & -> & Hs1 & Hn)].
  2:{ destruct Hs1 as [-> | ->]; split_and!; eauto. }
  destruct (call_bind _ _ _ _ _ _ _ (law_retire _) Hr1) as [(u2 & w2 & Hs2 & Ha2 & Hr2)|(msg & -> & Hs2 & Hn)].
  2:{ destruct Hs2 as [-> |[H1 H2 H3 H4]]; rewrite Hs1 in *; cbn [with_alert texts clock rows] in *.
      - split_and!; eauto.
      - split_and!; [done|done| | |eauto|tauto].
        + intros g. rewrite H1, list_elem_of_filter. tauto.
        + intros g Hg. rewrite H1, list_elem_of_filter, elem_of_cons.
          destruct (decide (ar_flag_key g = rr_flag_key f)); tauto. }
  destruct Hs2 as [H1 H2 H3 H4]. rewrite Hs1 in *. cbn [with_alert texts clock rows sent] in *.
  apply IH in Hr2 as (Ht & Hc & Hin & Hout & Hres). split_and!; [congruence|congruence| | |].
  - intros g Hg%Hin. rewrite H1, list_elem_of_filter in Hg. tauto.
  - intros g Hg. rewrite elem_of_cons. destruct (decide (ar_flag_key g = rr_flag_key f)); [tauto|].
    destruct (Hout g) as [?|?]; [|tauto..]. rewrite H1, list_elem_of_filter. tauto.
  - destruct r as [report'|e]; [|tauto]. destruct Hres as (-> & Hp & Hsent & Ha). simpl.
    rewrite <- !(assoc (++)%list). split_and!; [done| |by rewrite Hsent, H3, <- (assoc (++)%list)|tauto].
    rewrite Hp, H1, list_filter_filter. apply reflexive_eq, list_filter_iff. intros g.
    rewrite not_elem_of_cons. tauto.
Qed.

Abbreviation zombies w := (zombies_of (clock (seen w)) (review (seen w) (clock (seen w)))).

(** The whole sweep. *)
Lemma run_once_spec w r w' :
  run_once w = (r, w') ->
  let c := texts (seen w) in
  let truth := rows (seen w) in
  let ks := rr_flag_key <$> zombies w in
  touched truth c (texts (seen w')) /\
  (forall f, f ∈ rows (seen w') -> f ∈ truth) /\
  (forall f, f ∈ truth -> f ∈ rows (seen w') \/ ar_flag_key f ∈ ks) /\
  match r with
  | Ok report =>
      report = {| drift_flags := drift_of c truth; repaired := drift_of c truth;
                  zombie_flags := ks; forced_retirements := ks |} /\
      (forall f, f ∈ truth -> cached_fresh (texts (seen w')) f = true) /\
      rows (seen w') ≡ₚ filter (fun f => ar_flag_key f ∉ ks) truth /\
      sent (seen w') = (sent (seen w) ++ drift_alerts c truth
        ++ zombie_alerts (clock (seen w)) (review (seen w) (clock (seen w))))%list /\
      (answers w -> answers w')
  | Err e => cause (answers w) c truth e
  end.
Proof.
  intros Hr. unfold run_once in Hr. cbv zeta.
  assert (Hidle : forall w1, seen w1 = seen w -> touched (rows (seen w)) (texts (seen w)) (texts (seen w1)) /\
    (forall f, f ∈ rows (seen w1) -> f ∈ rows (seen w)) /\
    (forall f, f ∈ rows (seen w) -> f ∈ rows (seen w1) \/ ar_flag_key f ∈ rr_flag_key <$> zombies w)).
  { intros w1 ->. split_and!; [apply touched_refl|done|by auto]. }
  destruct (call_bind _ _ _ _ _ _ _ law_now Hr) as [(now & w1 & [-> Hs1] & Ha1 & Hr1)|(msg & -> & Hs & Hn)].
  2:{ destruct (Hidle w' Hs) as (? & ? & ?). by split_and!. }
  destruct (call_bind _ _ _ _ _ _ _ law_active Hr1) as [(l & w2 & [-> Hs2] & Ha2 & Hr2)|(msg & -> & Hs & Hn)].
  2:{ rewrite Hs1 in Hs. destruct (Hidle w' Hs) as (? & ? & ?). split_and!; simpl; tauto. }
  rewrite Hs1 in Hs2, Hr2. clear Hr Hr1.
  apply st_bind_inv in Hr2 as [(drift & w3 & H3 & Hr)|(e & H3 & ->)];
    apply repair_flags_spec in H3 as [[Hrows Hrev Hclk Htxt] H3];
    [|apply law_one_row|intros f j; apply law_row_keys| |apply law_one_row|intros f j; apply law_row_keys];
    rewrite Hs2 in *.
  2:{ split_and!; [done|by rewrite Hrows|rewrite Hrows; by auto|]. eapply cause_mono, H3; tauto. }
  destruct H3 as (-> & Hfresh & Hsent & Ha3).
  destruct (call_bind _ _ _ _ _ _ _ (law_review _) Hr) as [(pend & w4 & [-> Hs4] & Ha4 & Hr4)|(msg & -> & Hs & Hn)].
  2:{ rewrite Hs. split_and!; [done|by rewrite Hrows|rewrite Hrows; by auto|]. simpl. tauto. }
  rewrite Hrev in Hr4.
  apply st_bind_inv in Hr4 as [(zs & w5 & H5 & Hr5)|(e & H5 & ->)];
    apply retire_zombies_spec in H5 as (Ht & _ & Hin & Hout & H5); rewrite Hs4, Hrows in *.
  2:{ rewrite Ht. destruct H5 as [[msg ->] ?]. split_and!; [done..|]. simpl. tauto. }
  destruct H5 as (-> & Hp & Hsent5 & Ha5). injection Hr5 as <- <-. rewrite Ht.
  split_and!; [done..|by rewrite Hsent5, Hsent, (assoc (++)%list)|tauto].
Qed.
End SweepProofs.

(** ** A backend for the examples *)

Record MemSweep := {
  ms_rows : gmap string (Z * bool * option ReviewRow);
  ms_redis : gmap string string;
  ms_alerts : list Alert;
  ms_up : bool
}.

(** Rows of a generation, with a timestamp or without. *)
Definition ms_row (kr : string * (Z * bool * option ReviewRow)) : ActiveRow :=
  {| ar_flag_key := kr.1; ar_generation := kr.2.1.1;
     ar_rest := if kr.2.1.2 then [("created_at", None)] else [] |}.
Definition ms_actives (w : MemSweep) : list ActiveRow := ms_row <$> map_to_list (ms_rows w).
Definition ms_pending (w : MemSweep) (now : Z) : list ReviewRow :=
  omap (fun kr => kr.2.2) (map_to_list (ms_rows w)).

Definition ms_call {A} (m : MemSweep -> A * MemSweep) : st MemSweep sweep_exc A := fun w =>
  if ms_up w then let '(a, w') := m w in (Ok a, w')
  else (Err (SweepBackendError "connection refused"), w).

#[export] Instance MemSweep_ops : SweepBackend MemSweep := {
  utc_now := ms_call (fun w => (1000000000000%Z, w));
  list_active_flags := ms_call (fun w => (ms_actives w, w));
  list_flags_pending_review now := ms_call (fun w => (ms_pending w now, w));
  force_retire k := ms_call (fun w =>
    (tt, {| ms_rows := delete k (ms_rows w); ms_redis := ms_redis w; ms_alerts := ms_alerts w;
            ms_up := ms_up w |}));
  redis_get k := ms_call (fun w => (ms_redis w !! k, w));
  redis_set k v := ms_call (fun w =>
    (tt, {| ms_rows := ms_rows w; ms_redis := <[k := v]> (ms_redis w); ms_alerts := ms_alerts w;
            ms_up := ms_up w |}));
  alert a := ms_call (fun w =>
    (tt, {| ms_rows := ms_rows w; ms_redis := ms_redis w; ms_alerts := (ms_alerts w ++ [a])%list;
            ms_up := ms_up w |}))
}.

Definition ms_seen (w : MemSweep) : Observed :=
  {| rows := ms_actives w; review := ms_pending w; texts := ms_redis w; sent := ms_alerts w;
     clock := 1000000000000%Z |}.

Lemma ms_actives_elem w f :
  f ∈ ms_actives w <-> exists x, ms_rows w !! ar_flag_key f = Some x /\ f = ms_row (ar_flag_key f, x).
Proof.
  unfold ms_actives. rewrite list_elem_of_fmap. split.
  - intros ([k x] & -> & Hin%elem_of_map_to_list). by exists x.
  - intros (x & Hk%elem_of_map_to_list & ->). eauto.
Qed.

Lemma ms_actives_keys w : NoDup (ar_flag_key <$> ms_actives w).
Proof.
  unfold ms_actives. rewrite <- list_fmap_compose.
  change (NoDup ((map_to_list (ms_rows w)).*1)). apply NoDup_fst_map_to_list.
Qed.

Lemma ms_actives_retire k w w' :
  ms_rows w' = delete k (ms_rows w) ->
  ms_actives w' ≡ₚ filter (fun f => ar_flag_key f <> k) (ms_actives w).
Proof.
  intros Hw. apply NoDup_Permutation.
  - eapply NoDup_fmap_1, ms_actives_keys.
  - apply list.NoDup_filter. eapply NoDup_fmap_1, ms_actives_keys.
  - intros f. rewrite list_elem_of_filter, !ms_actives_elem, Hw.
    setoid_rewrite lookup_delete_Some. naive_solver.
Qed.

Lemma ms_call_law {A} (m : MemSweep -> A * MemSweep) P F :
  (forall w, ms_up (m w).2 = ms_up w /\ P w (m w).1 (m w).2) -> (forall w, F w w) ->
  backend_call (fun w => ms_up w = true) (ms_call m) P F.
Proof.
  intros HP HF w. unfold ms_call. destruct (ms_up w) eqn:Hup.
  - destruct (HP w) as [Hu ?], (m w) as [a w1]. simpl in *. by rewrite Hu.
  - split_and!; [done|congruence|eauto].
Qed.

#[export] Instance MemSweep_laws : SweepBackendLaws MemSweep.
Proof.
  refine {| seen := ms_seen; answers w := ms_up w = true |}.
  - apply ms_actives_keys.
  - intros w f j ([[g b] o] & _ & ->)%ms_actives_elem. destruct b; [done|]. intros [= <-].
    apply andb_true_iff. split; [|done]. apply bool_decide_eq_true. simpl.
    repeat constructor; set_solver.
  - by apply ms_call_law.
  - by apply ms_call_law.
  - intros now. by apply ms_call_law.
  - intros k. by apply ms_call_law.
  - intros k v. apply ms_call_law; [done|by left].
  - intros a. apply ms_call_law; [done|by left].
  - intros k. apply ms_call_law; [|by left]. intros w. split; [done|].
    split; [by apply ms_actives_retire|done..].
Defined.

(** ** Properties *)

(** C40: what a sweep does, whatever fails.  It writes nothing to Redis but the
    row of an active flag under that flag's key, and retires no flag but those
    past their review date that were not evaluated for a week.  When it
    completes, the flags reported drifted, and repaired, are those whose cached
    copy was missing, of another generation or no object of that generation,
    each with its warning; every active flag is cached at its generation; the
    zombies, all of them and no other flag, are retired, each with its alert;
    and while the backend answers the next sweep completes and finds nothing to
    repair.  When it fails, the backend failed, or a cached text is not JSON
    or is a value that is no object, or a drifted row is not serialisable. *)
Theorem sweep_repairs {W} `{HB : SweepBackend W} {HL : SweepBackendLaws W} (w : W) :
  let '(outcome, w') := run_once w in
  let c := texts (seen w) in
  let truth := rows (seen w) in
  let now := clock (seen w) in
  let zombies := zombies_of now (review (seen w) now) in
  touched truth c (texts (seen w')) /\
  (forall f, f ∈ rows (seen w') -> f ∈ truth) /\
  (forall f, f ∈ truth -> f ∈ rows (seen w') \/ ar_flag_key f ∈ rr_flag_key <$> zombies) /\
  match outcome with
  | Ok report =>
      drift_flags report = drift_of c truth /\ repaired report = drift_of c truth /\
      zombie_flags report = rr_flag_key <$> zombies /\
      forced_retirements report = rr_flag_key <$> zombies /\
      (forall f, f ∈ truth -> cached_fresh (texts (seen w')) f = true) /\
      (forall f, f ∈ rows (seen w') <-> f ∈ truth /\ ar_flag_key f ∉ rr_flag_key <$> zombies) /\
      sent (seen w') = (sent (seen w) ++ drift_alerts c truth
        ++ zombie_alerts now (review (seen w) now))%list /\
      (answers w -> exists report' w'', run_once w' = (Ok report', w'') /\ drift_flags report' = [])
  | Err e => cause (answers w) c truth e
  end.
Proof.
  destruct (run_once w) as [r w'] eqn:Hr. apply run_once_spec in Hr as (Ht & Hin & Hout & H).
  cbv zeta. split_and!; [done..|]. destruct r as [report|e]; [|done].
  destruct H as (-> & Hfresh & Hp & Hsent & Ha). simpl. split_and!; try done.
  { intros f. rewrite Hp, list_elem_of_filter. tauto. }
  intros Hans%Ha. assert (Hfresh' : forall f, f ∈ rows (seen w') -> cached_fresh (texts (seen w')) f = true) by auto.
  destruct (run_once w') as [[report'|e] w''] eqn:Hr'; apply run_once_spec in Hr' as (_ & _ & _ & H').
  - destruct H' as (-> & _). eexists _, w''. split; [done|]. simpl. unfold drift_of, drifting.
    enough (filter (fun f => cached_fresh (texts (seen w')) f = false) (rows (seen w')) = []) as -> by done.
    apply elem_of_nil_inv. intros f [Hf Hr]%list_elem_of_filter. by rewrite Hfresh' in Hf.
  - exfalso. by apply (fresh_no_cause (answers w') (texts (seen w')) (rows (seen w')) e).
Qed.

Definition reviewed (k : string) : ReviewRow :=
  {| rr_flag_key := k; rr_review_at := 5; rr_last_evaluated_at := None |}.
Definition demo_world : MemSweep :=
  {| ms_rows := {["a" := (3%Z, false, None); "b" := (1%Z, false, Some (reviewed "b"))]};
     ms_redis := {[redis_key "b" := dumps plain (JDict [("generation", JNum 1)])]};
     ms_alerts := []; ms_up := true |}.

Lemma sweep_repairs_witness :
  match run_once demo_world with
  | (Ok report, w') => drift_flags report = ["a"] /\ zombie_flags report = ["b"] /\
      exists report' w'', run_once w' = (Ok report', w'') /\ drift_flags report' = []
  | (Err _, _) => False
  end.
Proof.
  pose proof (sweep_repairs demo_world) as H.
  assert (Hok : is_ok (run_once demo_world).1 = true) by (vm_compute; reflexivity).
  destruct (run_once demo_world) as [[report|e] w']; [|discriminate Hok].
  destruct H as (_ & _ & _ & Hd & _ & Hz & _ & _ & _ & _ & Hn). rewrite Hd, Hz.
  split_and!; [vm_compute; reflexivity..|]. apply Hn. reflexivity.
Defined.

(** One cached text that is not the object the sweep wrote stops it: the other
    flags are not repaired and no zombie is retired, in this sweep and in each
    one after it, while the drift it is meant to repair stays. *)
Definition poisoned (text : string) : MemSweep :=
  {| ms_rows := ms_rows demo_world; ms_redis := {[redis_key "a" := text]};
     ms_alerts := []; ms_up := true |}.
Lemma poisoned_text_stops_sweep :
  run_once (poisoned "x") = (Err JSONDecodeError, poisoned "x") /\
  run_once (poisoned "5") = (Err AttributeError, poisoned "5").
Proof. split; vm_compute; reflexivity. Qed.

(** So does a drifted row that holds a timestamp. *)
Lemma timestamped_row_stops_sweep :
  let w := {| ms_rows := {["a" := (3%Z, true, None)]}; ms_redis := ∅; ms_alerts := []; ms_up := true |} in
  run_once w = (Err TypeError, w).
Proof. vm_compute. reflexivity. Qed.
