(* ===== verification/PyPath.v ===== *)
(** Paths and files: what the sources use of [pathlib.PurePosixPath], [os] and
    [shutil].

    A path is its root and its parts, as pathlib parses it: [.] and empty parts
    are dropped, [..] stays.  Paths are compared as pathlib compares them, so a
    directory has one name: symbolic links and [..] are not followed.  A file
    system is the files with their bytes and the directories that exist; the
    root and the working directory always do. *)
From stdpp Require Import base strings list gmap sorting numbers.
From Stdlib Require Import Ascii.
From S2P Require Import Prelude PyStr Json.

#[local] Open Scope string_scope.

(** ** Paths *)

Definition Path : Type := string * list string.

Definition path_root (s : string) : string :=
  if starts_with "///" s then "/"
  else if starts_with "//" s then "//"
  else if starts_with "/" s then "/" else "".

Definition kept_part (p : string) : bool := negb (str_empty p) && negb (p =? ".").

(** [Path(s)] *)
Definition path_of (s : string) : Path := (path_root s, filter (fun p => kept_part p = true) (split_on "/" s)).

(** [str(path)] *)
Definition path_str (p : Path) : string :=
  match p with
  | ("", []) => "."
  | (root, parts) => root ++ join "/" parts
  end.

(** [a / b]: an absolute [b] replaces [a]. *)
Definition path_join (a b : Path) : Path := if str_empty b.1 then (a.1, (a.2 ++ b.2)%list) else b.
(** [a / s] for a string *)
Definition path_div (a : Path) (s : string) : Path := path_join a (path_of s).

Definition path_parent (p : Path) : Path := (p.1, take (length p.2 - 1) p.2).
(** The directories above a path, its parent last. *)
Definition path_parents (p : Path) : list Path := (fun n => (p.1, take n p.2)) <$> seq 1 (length p.2 - 1).
Definition path_name (p : Path) : string := default "" (list.last p.2).

(** [p.relative_to(base).as_posix()] where [p] is below [base] *)
Definition path_below (base p : Path) : option string :=
  if bool_decide (base.1 = p.1 /\ base.2 = take (length base.2) p.2 /\ length base.2 < length p.2)
  then Some (join "/" (drop (length base.2) p.2)) else None.

(** [urllib.parse.quote]: what is neither alphanumeric nor one of [_.-~/] is
    percent-encoded. *)
Definition quote_safe (c : ascii) : bool := is_alnum c || char_in c "_.-~/".
Fixpoint quote (s : string) : string :=
  match s with
  | "" => ""
  | String c s' =>
      if quote_safe c then String c (quote s')
      else let n := N_of_ascii c in
           "%" ++ str_upper (String (hex_digit (n / 16)) (String (hex_digit (n mod 16)) "")) ++ quote s'
  end.

(** [repr(s)] of ASCII text *)
Definition repr_char (q c : ascii) : string :=
  if (c =? q)%char || (c =? "\")%char then String "\" (String c "")
  else if (c =? "010")%char then "\n" else if (c =? "013")%char then "\r" else if (c =? "009")%char then "\t"
  else if between 32 126 c then String c ""
  else let n := N_of_ascii c in "\x" ++ String (hex_digit (n / 16)) (String (hex_digit (n mod 16)) "").
Definition single_quote : ascii := "039"%char.
Definition double_quote : ascii := "034"%char.
Fixpoint repr_chars (q : ascii) (s : string) : string :=
  match s with "" => "" | String c s' => repr_char q c ++ repr_chars q s' end.
Definition py_repr (s : string) : string :=
  let q := if char_in single_quote s && negb (char_in double_quote s) then double_quote else single_quote in
  String q (repr_chars q s) ++ String q "".

(** ** Files *)

Inductive os_exc : Type :=
| FileNotFoundError (p : string)
| FileExistsError (p : string)
| NotADirectoryError (p : string)
| IsADirectoryError (p : string)
| SameFileError (src dst : string)
| ValueError (m : string).

(** [str(exc)] *)
Definition os_text (e : os_exc) : string :=
  match e with
  | FileNotFoundError p => "[Errno 2] No such file or directory: " ++ py_repr p
  | FileExistsError p => "[Errno 17] File exists: " ++ py_repr p
  | NotADirectoryError p => "[Errno 20] Not a directory: " ++ py_repr p
  | IsADirectoryError p => "[Errno 21] Is a directory: " ++ py_repr p
  | SameFileError a b => "PosixPath(" ++ py_repr a ++ ") and PosixPath(" ++ py_repr b ++ ") are the same file"
  | ValueError m => m
  end.

Record FileSystem := { files : gmap Path string; dirs : gset Path }.

Definition is_file (p : Path) (fs : FileSystem) : bool := bool_decide (is_Some (files fs !! p)).
Definition is_dir (p : Path) (fs : FileSystem) : bool := bool_decide (p.2 = [] \/ p ∈ dirs fs).
Definition path_exists (p : Path) (fs : FileSystem) : bool := is_file p fs || is_dir p fs.
(** A directory of the path is a file. *)
Definition blocked (p : Path) (fs : FileSystem) : bool := existsb (fun d => is_file d fs) (path_parents p).

(** [sorted(p.iterdir())], as the names of the entries *)
Definition entry_name (p q : Path) : option string :=
  match list.last q.2 with
  | Some n => if bool_decide (q = (p.1, (p.2 ++ [n])%list)) then Some n else None
  | None => None
  end.
Definition entries (p : Path) (fs : FileSystem) : gset string :=
  list_to_set (omap (entry_name p) (elements (dom (files fs)) ++ elements (dirs fs))%list).
Definition iterdir (p : Path) (fs : FileSystem) : list string := py_sorted str_lt (elements (entries p fs)).
Lemma iterdir_elem p fs n : n ∈ iterdir p fs <-> n ∈ entries p fs.
Proof. unfold iterdir. by rewrite py_sorted_perm, elem_of_elements. Qed.

Definition with_file (p : Path) (b : string) (fs : FileSystem) : FileSystem :=
  {| files := <[p := b]> (files fs); dirs := dirs fs |}.

(** [p.mkdir(parents=True, exist_ok=True)] *)
Definition mkdir_parents (p : Path) (fs : FileSystem) : result os_exc unit * FileSystem :=
  if blocked p fs then (Err (NotADirectoryError (path_str p)), fs)
  else if is_file p fs then (Err (FileExistsError (path_str p)), fs)
  else (Ok tt, {| files := files fs; dirs := list_to_set (p :: path_parents p) ∪ dirs fs |}).

(** [open(p, "rb").read()] *)
Definition read_bytes (p : Path) (fs : FileSystem) : result os_exc string :=
  match files fs !! p with
  | Some b => Ok b
  | None => if is_dir p fs then Err (IsADirectoryError (path_str p))
            else if blocked p fs then Err (NotADirectoryError (path_str p))
            else Err (FileNotFoundError (path_str p))
  end.

(** [open(p, "wb")] and the bytes written to it *)
Definition write_bytes (p : Path) (b : string) (fs : FileSystem) : result os_exc unit * FileSystem :=
  if is_dir p fs then (Err (IsADirectoryError (path_str p)), fs)
  else if blocked p fs then (Err (NotADirectoryError (path_str p)), fs)
  else if is_dir (path_parent p) fs then (Ok tt, with_file p b fs)
  else (Err (FileNotFoundError (path_str p)), fs).

(** [shutil.copyfile(src, dst)] *)
Definition copyfile (src dst : Path) (fs : FileSystem) : result os_exc unit * FileSystem :=
  if bool_decide (src = dst) && path_exists src fs
  then (Err (SameFileError (path_str src) (path_str dst)), fs)
  else match read_bytes src fs with
       | Err e => (Err e, fs)
       | Ok b => write_bytes dst b fs
       end.

(** [p.unlink()] *)
Definition unlink (p : Path) (fs : FileSystem) : result os_exc unit * FileSystem :=
  match files fs !! p with
  | Some _ => (Ok tt, {| files := delete p (files fs); dirs := dirs fs |})
  | None => if is_dir p fs then (Err (IsADirectoryError (path_str p)), fs)
            else if blocked p fs then (Err (NotADirectoryError (path_str p)), fs)
            else (Err (FileNotFoundError (path_str p)), fs)
  end.

(** [p.as_uri()] *)
Definition as_uri (p : Path) : result os_exc string :=
  if str_empty p.1 then Err (ValueError "relative path can't be expressed as a file URI")
  else Ok ("file://" ++ quote (path_str p)).

(** ** The last part of a path *)

Lemma split_on_last c a t : no_char c t -> exists l x, split_on c (a ++ t) = (l ++ [(x ++ t)%string])%list.
Proof.
  intros Ht. induction a as [|d a (l & x & IH)]; simpl.
  - exists [], "". by rewrite split_on_no_char.
  - destruct (d =? c)%char; [exists ("" :: l), x; by rewrite IH|]. rewrite IH. destruct l as [|h l]; simpl.
    + by exists [], (String d x).
    + by exists (String d h :: l), x.
Qed.

(** A text without slashes at the end of a path ends its last part; after a slash
    it is that part. *)
Lemma path_of_last a t : no_char "/" t -> kept_part t = true -> (1 < String.length t)%nat ->
  exists x, list.last (path_of (a ++ t)).2 = Some (x ++ t).
Proof.
  intros Ht Hk Hlen. destruct (split_on_last "/" a t Ht) as (l & x & Hs). exists x. unfold path_of. cbn [snd].
  rewrite Hs, list.filter_app. assert (Hkx : kept_part (x ++ t) = true).
  { unfold kept_part. apply andb_true_iff. split; apply negb_true_iff.
    - destruct x; [|done]. by destruct t.
    - apply String.eqb_neq. intros Heq. destruct x as [|d [|? ?]]; simpl in Heq; [|injection Heq as _ Heq; by destruct t|done].
      rewrite Heq in Hlen. simpl in Hlen. lia. }
  rewrite (filter_cons_True _ _ []) by done. apply last_snoc.
Qed.

Lemma path_of_last_part a t : no_char "/" t -> kept_part t = true ->
  list.last (path_of (a ++ String "/" t)).2 = Some t.
Proof.
  intros Ht Hk. unfold path_of. cbn [snd]. rewrite split_on_app_list, (split_on_no_char _ t) by done.
  rewrite list.filter_app, (filter_cons_True _ _ []) by done. apply last_snoc.
Qed.

Lemma path_div_name base s t : list.last (path_of s).2 = Some t -> path_name (path_div base s) = t.
Proof.
  intros Ht. unfold path_name, path_div, path_join. case_match; cbn [snd]; [|by rewrite Ht].
  by rewrite list.last_app, Ht.
Qed.

(** ** What the operations on files change *)

Lemma mkdir_parents_files p fs r fs' : mkdir_parents p fs = (r, fs') -> files fs' = files fs.
Proof. unfold mkdir_parents. repeat case_match; by intros [= <- <-]. Qed.

Lemma write_bytes_files p b fs r fs' : write_bytes p b fs = (r, fs') ->
  (forall q, q <> p -> files fs' !! q = files fs !! q) /\ (r = Ok tt -> files fs' !! p = Some b).
Proof.
  unfold write_bytes. repeat case_match; intros [= <- <-]; split; try done.
  - intros q Hq. simpl. by rewrite lookup_insert_ne.
  - intros _. apply lookup_insert_eq.
Qed.

Lemma copyfile_files src dst fs r fs' : copyfile src dst fs = (r, fs') ->
  (forall q, q <> dst -> files fs' !! q = files fs !! q) /\
  (r = Ok tt -> exists b, files fs !! src = Some b /\ files fs' !! dst = Some b).
Proof.
  unfold copyfile, read_bytes. case_match; [by intros [= <- <-]|].
  destruct (files fs !! src) as [b|].
  - intros Hw. apply write_bytes_files in Hw as [Hq Hd]. split; [done|]. intros Hr. exists b. auto.
  - intros Heq. repeat case_match; simplify_eq; by split.
Qed.

Lemma unlink_files p fs r fs' : unlink p fs = (r, fs') ->
  (forall q, q <> p -> files fs' !! q = files fs !! q) /\ forall e, r = Err e -> fs' = fs.
Proof.
  unfold unlink. intros Hu. repeat case_match; simplify_eq; split; try done. intros q Hq. simpl.
  by rewrite lookup_delete_ne.
Qed.

(** ** Writing a file whose directory is made first *)

(** Nothing at the path but maybe a file, and only directories above it. *)
Definition writable (p : Path) (fs : FileSystem) : Prop :=
  p.2 <> [] /\ p ∉ dirs fs /\ blocked p fs = false /\ is_file (path_parent p) fs = false.
#[export] Instance writable_dec p fs : Decision (writable p fs).
Proof. unfold writable. apply _. Defined.

Lemma path_parents_elem d p : d ∈ path_parents p <-> exists n, (1 <= n < length p.2)%nat /\ d = (p.1, take n p.2).
Proof.
  unfold path_parents. rewrite list_elem_of_fmap. setoid_rewrite elem_of_seq. split; intros (n & Ha & Hb).
  - exists n. split; [lia|done].
  - exists n. split; [done|lia].
Qed.

Lemma blocked_parent p fs : blocked p fs = false -> blocked (path_parent p) fs = false.
Proof.
  unfold blocked. rewrite <- !not_true_iff_false, !existsb_exists. intros Hp (d & Hd & Hf). apply Hp. exists d.
  split; [|done]. apply list_elem_of_In in Hd. apply list_elem_of_In. apply path_parents_elem in Hd as (n & Hn & ->).
  apply path_parents_elem. unfold path_parent in *. cbn [fst snd] in *. rewrite length_take in Hn. exists n.
  split; [lia|]. rewrite take_take. f_equal. f_equal. lia.
Qed.

Lemma parents_shorter d p : d ∈ p :: path_parents p -> (length d.2 <= length p.2)%nat.
Proof.
  intros [->|Hd]%elem_of_cons; [done|]. apply path_parents_elem in Hd as (n & Hn & ->). cbn. rewrite length_take. lia.
Qed.

Lemma write_new p b fs : writable p fs ->
  exists fs', mkdir_parents (path_parent p) fs = (Ok tt, fs') /\ files fs' = files fs /\
    write_bytes p b fs' = (Ok tt, with_file p b fs').
Proof.
  intros (Hne & Hdir & Hbl & Hpar). unfold mkdir_parents. rewrite (blocked_parent _ _ Hbl), Hpar. eexists.
  split_and!; [done|done|]. set (fs' := Build_FileSystem _ _).
  assert (Hd : is_dir p fs' = false).
  { apply bool_decide_eq_false. intros [Hnil|Hin]; [done|]. cbn [fs' dirs] in Hin. apply elem_of_union in Hin as [Hin|Hin]; [|done].
    apply elem_of_list_to_set, parents_shorter in Hin. unfold path_parent in Hin. cbn in Hin. rewrite length_take in Hin.
    destruct p.2; simpl in *; [done|lia]. }
  assert (Hb : blocked p fs' = false) by exact Hbl.
  assert (Hp : is_dir (path_parent p) fs' = true).
  { apply bool_decide_eq_true. right. cbn [fs' dirs]. apply elem_of_union_l, elem_of_list_to_set. left. }
  unfold write_bytes. by rewrite Hd, Hb, Hp.
Qed.

(** A file that could be written was writable. *)
Lemma writable_if p b fs fs1 fs2 : mkdir_parents (path_parent p) fs = (Ok tt, fs1) -> write_bytes p b fs1 = (Ok tt, fs2) ->
  writable p fs.
Proof.
  unfold mkdir_parents, write_bytes, writable. destruct (blocked (path_parent p) fs); [done|].
  destruct (is_file (path_parent p) fs) eqn:Hf; [done|]. intros [= <-].
  destruct (is_dir p _) eqn:Hd; [done|]. destruct (blocked p _) eqn:Hb; [done|]. intros _.
  apply bool_decide_eq_false in Hd. cbn [dirs] in Hd. split_and!; try done; [by intros Hn; apply Hd; left|].
  intros Hin. apply Hd. right. by apply elem_of_union_r.
Qed.

(** ** A path is what its text parses to *)

Definition part_ok (t : string) : Prop := kept_part t = true /\ no_char "/" t.
Definition path_ok (p : Path) : Prop := p.1 ∈ ["" ; "/"; "//"] /\ Forall part_ok p.2.

Lemma split_on_parts s : Forall (no_char "/") (split_on "/" s).
Proof.
  induction s as [|c s IH]; [by repeat constructor|]. simpl. destruct (Ascii.eqb_spec c "/") as [Hc|Hc].
  - by constructor.
  - destruct (split_on "/" s) as [|t l].
    + constructor; [|constructor]. by apply no_char_cons.
    + apply list.Forall_cons in IH as [Ht Hl]. constructor; [|done]. by apply no_char_cons.
Qed.

Lemma path_of_ok s : path_ok (path_of s).
Proof.
  unfold path_of, path_root, path_ok. cbn [fst snd]. split; [repeat case_match; set_solver|].
  apply list.Forall_forall. intros t [Hk Ht]%list_elem_of_filter. split; [done|].
  by apply (proj1 (list.Forall_forall _ _) (split_on_parts s)).
Qed.

(** An absolute path replaces the path it is joined to. *)
Lemma path_div_abs a s : starts_with "/" s = true -> path_div a s = path_of s.
Proof.
  intros Hs. unfold path_div, path_join. replace (str_empty (path_of s).1) with false; [done|].
  cbn [path_of fst]. unfold path_root. by repeat case_match.
Qed.

Lemma path_div_ok p s : path_ok p -> path_ok (path_div p s).
Proof.
  intros [Hr Hp]. pose proof (path_of_ok s) as Hs. unfold path_div, path_join. case_match; [|done].
  split; [done|]. cbn. apply Forall_app. split; [done|apply Hs].
Qed.

Lemma split_join l : Forall part_ok l -> filter (fun t => kept_part t = true) (split_on "/" (join "/" l)) = l.
Proof.
  induction l as [|t l IH]; intros Hl; [done|]. apply list.Forall_cons in Hl as [[Hk Ht] Hl].
  destruct l as [|u l].
  - cbn [join]. rewrite split_on_no_char by done. by rewrite filter_cons_True.
  - change (join "/" (t :: u :: l)) with (t ++ String "/" (join "/" (u :: l))).
    rewrite (split_on_app "/" t (join "/" (u :: l)) Ht). rewrite filter_cons_True by done. f_equal. by apply IH.
Qed.

Lemma join_no_slash l : Forall part_ok l -> starts_with "/" (join "/" l) = false.
Proof.
  destruct l as [|t l]; [done|]. intros [[Hk Ht] _]%list.Forall_cons. destruct t as [|c t]; [done|].
  apply no_char_cons in Ht as [Hc _]. destruct l; cbn [join String.append]; unfold starts_with; cbn [String.prefix];
    destruct (ascii_dec "/" c); congruence.
Qed.

Lemma path_root_rel t : starts_with "/" t = false ->
  path_root t = "" /\ path_root ("/" ++ t) = "/" /\ path_root ("//" ++ t) = "//".
Proof.
  unfold path_root, starts_with. destruct t as [|c t]; [done|]. cbn [String.prefix String.append].
  destruct (ascii_dec "/" "/") as [_|]; [|done]. destruct (ascii_dec "/" c); [|done]. intros H. by destruct t.
Qed.

Lemma path_of_str p : path_ok p -> path_of (path_str p) = p.
Proof.
  destruct p as [root parts]. intros [Hr Hp]. cbn [fst snd] in *. pose proof (split_join _ Hp) as Hs.
  destruct (path_root_rel _ (join_no_slash _ Hp)) as (H0 & H1 & H2).
  assert (Hcase : path_of (root ++ join "/" parts) = (root, parts)).
  { unfold path_of. rewrite !elem_of_cons in Hr. destruct Hr as [->|[->|[->|Hr%elem_of_nil]]]; [| | |done].
    - cbn [String.append]. by rewrite H0, Hs.
    - rewrite H1. simpl. rewrite filter_cons_False by done. by rewrite Hs.
    - rewrite H2. simpl. rewrite !filter_cons_False by done. by rewrite Hs. }
  destruct root as [|c root], parts as [|t l]; done.
Qed.
