(* ===== verification/Yaml.v ===== *)
(** Values as [yaml.safe_load] and [tomllib.loads] build them, and what Python
    says of them: [str], [repr], [bool], [int].  The parsers are third-party
    and not modelled.  Objects the modelled code does not look into (floats,
    dates, bytes, sets) carry what these functions and pydantic make of them. *)
From stdpp Require Import base strings list pretty numbers.
From Stdlib Require Import Ascii.
From S2P Require Import Prelude PyStr Json PyPath.

#[local] Open Scope string_scope.

Record PyObject := {
  obj_str : string; obj_repr : string; obj_true : bool;
  (** [int(obj)]; an [Err] is the exception, [true] for a ValueError *)
  obj_int : result (bool * string) Z;
  (** what a field of type [str] or [list[str]] takes it for *)
  obj_text : option string; obj_texts : option (list string)
}.

Inductive yaml :=
| YNone
| YBool (b : bool)
| YInt (z : Z)
| YStr (s : string)
| YOther (o : PyObject)
| YList (l : list yaml)
| YDict (d : list (yaml * yaml)).

Fixpoint yaml_repr (y : yaml) : string :=
  match y with
  | YNone => "None"
  | YBool b => if b then "True" else "False"
  | YInt z => pretty z
  | YStr s => py_repr s
  | YOther o => obj_repr o
  | YList l => "[" ++ join ", " (map yaml_repr l) ++ "]"
  | YDict d => "{" ++ join ", " (map (fun kv => match kv with (k, v) => yaml_repr k ++ ": " ++ yaml_repr v end) d) ++ "}"
  end.

Definition yaml_str (y : yaml) : string :=
  match y with YStr s => s | YOther o => obj_str o | _ => yaml_repr y end.

(** [bool(y)] *)
Definition yaml_true (y : yaml) : bool :=
  match y with
  | YNone => false
  | YBool b => b
  | YInt z => negb (z =? 0)%Z
  | YStr s => negb (str_empty s)
  | YOther o => obj_true o
  | YList l => negb (bool_decide (l = []))
  | YDict d => negb (bool_decide (d = []))
  end.

(** [d.get(k)] for a string key, [None] where the key is not there *)
Fixpoint yaml_get (k : string) (d : list (yaml * yaml)) : yaml :=
  match d with
  | [] => YNone
  | (YStr k', v) :: d' => if k' =? k then v else yaml_get k d'
  | _ :: d' => yaml_get k d'
  end.
Definition yaml_has (k : string) (d : list (yaml * yaml)) : bool :=
  existsb (fun kv => match kv.1 with YStr k' => k' =? k | _ => false end) d.

(** ** [int(s)] *)

(** Digits with single underscores between them: their value and how many there
    are. [after] says that a digit comes before. *)
Fixpoint int_digits (after : bool) (acc : N) (n : N) (s : string) : option (N * N) :=
  match s with
  | "" => if after then Some (acc, n) else None
  | String c s' =>
      if is_digit c then int_digits true (10 * acc + digit_value c) (n + 1) s'
      else if (c =? "_")%char && after then int_digits false acc n s'
      else None
  end.
Definition int_of_str (s : string) : option Z :=
  let unsigned s := match int_digits false 0 0 s with
                    | Some (v, n) => if (n <=? 4300)%N then Some (Z.of_N v) else None
                    | None => None
                    end in
  match strip s with
  | String "+" s' => unsigned s'
  | String "-" s' => Z.opp <$> unsigned s'
  | s' => unsigned s'
  end.

(** [int(y)]; the flag of an [Err] says whether the exception is a ValueError. *)
Definition yaml_int (y : yaml) : result (bool * string) Z :=
  let not_a_number t := Err (false, "int() argument must be a string, a bytes-like object or a real number, not '" ++ t ++ "'") in
  match y with
  | YNone => not_a_number "NoneType"
  | YBool b => Ok (if b then 1 else 0)%Z
  | YInt z => Ok z
  | YStr s => match int_of_str s with
              | Some z => Ok z
              | None => Err (true, "invalid literal for int() with base 10: " ++ py_repr s)
              end
  | YOther o => obj_int o
  | YList _ => not_a_number "list"
  | YDict _ => not_a_number "dict"
  end.

(** ** What pydantic takes for text *)

Definition text_of (y : yaml) : option string :=
  match y with YStr s => Some s | YOther o => obj_text o | _ => None end.
Fixpoint texts_of (l : list yaml) : option (list string) :=
  match l with
  | [] => Some []
  | y :: l' => t ← text_of y; ts ← texts_of l'; Some (t :: ts)
  end.
(** [dict[str, Any]] *)
Fixpoint text_dict (d : list (yaml * yaml)) : option (pydict string yaml) :=
  match d with
  | [] => Some []
  | (k, v) :: d' => t ← text_of k; r ← text_dict d'; Some ((t, v) :: r)
  end.

(** ** Facts *)

Lemma yaml_get_in k v d : yaml_get k d = v -> v <> YNone -> (YStr k, v) ∈ d.
Proof.
  intros <-. induction d as [|[k' v'] d IH]; [done|]. cbn.
  destruct k'; try (intros; right; by apply IH).
  destruct (String.eqb_spec s k) as [->|]; intros; [left|right; by apply IH].
Qed.
