(* ===== verification/Rbac.v ===== *)
(** Authorization rules: [permissions.py] and [rbac.py] of apexquant-auth, over
    the matrix of data/rbac/forbidden_matrix.yaml.

    The functions that read the matrix ([is_restricted], [forbidden_patterns],
    the bounds of the grammar) take it as a [Matrix]; [forbidden_matrix] is the
    file of the repository.

    Where the rules of authorization come from: the part of [rbac.py] of
    apexquant-auth that finds, reads and caches forbidden_matrix.yaml.

    The two module variables are the state of a process; the files may change
    between calls.  The parser of YAML and SHA-256 are parameters. *)
From stdpp Require Import base strings list gmap pretty numbers.
From Stdlib Require Import Ascii.
From S2P Require Import Prelude PyStr PyPath Yaml.

(** ** permissions.py *)

(** [permission[:-1]] *)
Fixpoint but_last (s : string) : string :=
  match s with
  | "" | String _ "" => ""
  | String c s' => String c (but_last s')
  end.

(** The body of the loop, on a grant already stripped. *)
Definition grants (permission required : string) : bool :=
  negb (str_empty permission)
  && ((permission =? "*") || (permission =? required)
      || ends_with ":*" permission && starts_with (but_last permission) required).

Definition has_permission (granted_permissions : list string) (required_permission : string)
    : bool :=
  if str_empty (strip required_permission) then false
  else existsb (fun p => grants (strip p) (strip required_permission)) granted_permissions.

(** ** rbac.py *)

Inductive EvaluationStatus := GRANTED | UNPROVISIONED | INVARIANT_VIOLATION.

Record Matrix := {
  mx_restricted_planes : list string;
  mx_forbidden : list (string * list string);
  mx_min_segments : nat;
  mx_max_segments : nat
}.

(** data/rbac/forbidden_matrix.yaml *)
Definition forbidden_matrix : Matrix :=
  {| mx_restricted_planes := ["AI"; "DATA_RESEARCH"];
     mx_forbidden := [("AI", ["broker:*"; "execution:*"; "kill_switch:*"]);
                      ("DATA_RESEARCH", ["broker:*"; "execution:*"; "kill_switch:*"])];
     mx_min_segments := 2; mx_max_segments := 3 |}.

Inductive rbac_exc :=
| InvalidPermissionError (perm : string)
| RbacInvariantError (message : string).

Definition segment_char (c : ascii) : bool :=
  is_lower c || is_digit c || (c =? "_")%char || (c =? "-")%char.

Definition segment_ok (seg : string) : bool :=
  (seg =? "*") || negb (str_empty seg) && str_forall segment_char seg.

(** The loop of [covers], over the segments of the two permissions. *)
Fixpoint covers_segments (p t : list string) : bool :=
  match p with
  | [] => true
  | seg :: p' =>
      if (seg =? "*") && match p' with [] => true | _ => false end then true
      else match t with
      | [] => false
      | s :: t' =>
          if (seg =? "*") then covers_segments p' t'
          else if (seg =? s) then covers_segments p' t' else false
      end
  end.

Definition covers (pattern target : string) : bool :=
  if pattern =? "*" then true
  else covers_segments (split_on ":" pattern) (split_on ":" target).

Definition overlaps (a b : string) : bool := covers a b || covers b a.

Section Rules.
Variable matrix : Matrix.

Definition is_restricted (plane : string) : bool :=
  existsb (fun p => p =? plane) (mx_restricted_planes matrix).

Definition forbidden_patterns (plane : string) : list string :=
  default [] (dict_get plane (mx_forbidden matrix)).

Definition validate_permission (perm : string) : result rbac_exc unit :=
  if perm =? "*" then Ok tt
  else if str_empty perm then Err (InvalidPermissionError perm)
  else if negb (perm =? str_lower perm) then Err (InvalidPermissionError perm)
  else
    let segs := split_on ":" perm in
    if negb ((mx_min_segments matrix <=? length segs)%nat
             && (length segs <=? mx_max_segments matrix)%nat)
    then Err (InvalidPermissionError perm)
    else if forallb segment_ok segs then Ok tt else Err (InvalidPermissionError perm).

Definition evaluate (plane : string) (permissions : list string) (has_roles : bool)
    : EvaluationStatus :=
  if negb has_roles then UNPROVISIONED
  else if is_restricted plane
          && existsb (fun g => (g =? "*") || existsb (overlaps g) (forbidden_patterns plane))
               permissions
  then INVARIANT_VIOLATION
  else GRANTED.

Definition authorize (plane : string) (granted : list string) (request : string) : bool :=
  if is_restricted plane && existsb (fun d => covers d request) (forbidden_patterns plane)
  then false
  else existsb (fun g => covers g request) granted.

Definition validate_grant (plane permission : string) : result rbac_exc unit :=
  validate_permission permission ≫= fun _ =>
  if negb (is_restricted plane) then Ok tt
  else if permission =? "*"
  then Err (RbacInvariantError ("global wildcard cannot be granted to plane " ++ plane))
  else if existsb (overlaps permission) (forbidden_patterns plane)
  then Err (RbacInvariantError ("permission '" ++ permission ++ "' is forbidden for plane "
                                  ++ plane))
  else Ok tt.
End Rules.

Example rbac_ex :
  (covers "broker:*" "broker", covers "a:*:c" "a:b:c", covers "a:b" "a:b:c", overlaps "*:write" "broker:*",
   validate_grant forbidden_matrix "AI" "*:write", evaluate forbidden_matrix "AI" ["broker:read"] true)
  = (true, true, true, false, Ok tt, INVARIANT_VIOLATION).
Proof. vm_compute. reflexivity. Qed.

(** ** Coverage *)

Lemma covers_segments_cons p0 p t0 t :
  p0 <> "*" -> covers_segments (p0 :: p) (t0 :: t) = (p0 =? t0) && covers_segments p t.
Proof.
  intros Hp. simpl. destruct (String.eqb_spec p0 "*"); [done|]. simpl.
  by destruct (String.eqb_spec p0 t0).
Qed.

Lemma split_on_uncons c s : exists h t, split_on c s = h :: t.
Proof. pose proof (split_on_nonempty c s). destruct (split_on c s); [done|eauto]. Qed.

(** The domain of a permission, its first segment. *)
Definition domain (perm : string) : string := default "" (head (split_on ":" perm)).

Lemma covers_domain p t :
  p <> "*" -> domain p <> "*" -> covers p t = true -> domain p = domain t.
Proof.
  intros Hp. unfold domain, covers. destruct (String.eqb_spec p "*"); [done|].
  destruct (split_on_uncons ":" p) as (p0 & ps & ->), (split_on_uncons ":" t) as (t0 & ts & ->).
  simpl head. intros Hd. rewrite covers_segments_cons by done.
  by intros [->%String.eqb_eq _]%andb_true_iff.
Qed.

(** [domain:*] covers exactly what has that domain. *)
Definition domain_pattern (d : string) : bool :=
  bool_decide (split_on ":" d = [domain d; "*"]) && negb (domain d =? "*").

Lemma domain_pattern_covers d t :
  domain_pattern d = true -> covers d t = true <-> domain t = domain d.
Proof.
  intros [Hs%bool_decide_eq_true Hd%negb_true_iff]%andb_true_iff. apply String.eqb_neq in Hd.
  assert (d <> "*") as Hne by (intros ->; by vm_compute in Hs).
  split; [intros Hc; symmetry; by apply covers_domain|]. intros Ht. unfold covers.
  destruct (String.eqb_spec d "*"); [done|]. rewrite Hs. unfold domain in Ht at 1.
  destruct (split_on_uncons ":" t) as (t0 & ts & Hsp). rewrite Hsp in *. simpl in Ht. subst t0.
  rewrite covers_segments_cons by done. by rewrite String.eqb_refl.
Qed.

(** The patterns of the file are all of that form. *)
Lemma forbidden_patterns_domains plane d :
  d ∈ forbidden_patterns forbidden_matrix plane -> domain_pattern d = true.
Proof.
  unfold forbidden_patterns. simpl. repeat case_decide; simpl.
  1,2: intros Hd; repeat (apply elem_of_cons in Hd as [->|Hd]; [by vm_compute|]);
    by apply elem_of_nil in Hd.
  by intros ?%elem_of_nil.
Qed.

Lemma restricted_patterns plane :
  is_restricted forbidden_matrix plane = true ->
  forbidden_patterns forbidden_matrix plane = ["broker:*"; "execution:*"; "kill_switch:*"].
Proof.
  unfold is_restricted. intros (p & Hp & <-%String.eqb_eq)%existsb_exists.
  by destruct Hp as [<-|[<-|[]]].
Qed.

(** A grant that gives up its domain to the wildcard is seen by no pattern. *)
Lemma overlap_missed g d :
  domain_pattern d = true -> covers d g = false -> domain g <> domain d.
Proof. intros Hd Hc Heq. apply (domain_pattern_covers d g Hd) in Heq. congruence. Qed.

(** ** Properties *)

(** C9: an identity of the AI or research planes can never act on a broker, on
    execution or on the kill switch: whatever permissions it holds, the global
    wildcard included, a request on one of these domains is refused; every other
    request is decided by its grants alone. *)
Theorem ai_cannot_execute plane granted request :
  is_restricted forbidden_matrix plane = true ->
  authorize forbidden_matrix plane granted request
  = negb (bool_decide (domain request ∈ ["broker"; "execution"; "kill_switch"]))
    && existsb (fun g => covers g request) granted.
Proof.
  intros Hr. unfold authorize. rewrite Hr, (restricted_patterns plane Hr).
  assert (existsb (fun d => covers d request) ["broker:*"; "execution:*"; "kill_switch:*"]
    = bool_decide (domain request ∈ ["broker"; "execution"; "kill_switch"])) as ->.
  { apply eq_true_iff_eq. rewrite bool_decide_eq_true. simpl.
    rewrite !orb_true_iff, !domain_pattern_covers by by vm_compute.
    change (domain "broker:*") with "broker". change (domain "execution:*") with "execution".
    change (domain "kill_switch:*") with "kill_switch". set_solver. }
  by destruct (bool_decide _).
Qed.

Lemma ai_cannot_execute_witness :
  authorize forbidden_matrix "AI" ["*"] "broker:submit:order" = false.
Proof. by rewrite (ai_cannot_execute "AI" ["*"] "broker:submit:order" eq_refl). Defined.

(** The permissions of the grammar that cover a whole domain of the matrix. *)
Definition all_wild : list (list string) := [["*"; "*"]; ["*"; "*"; "*"]].

Lemma covers_segments_domain g0 g1 rest x :
  (length rest <= 1)%nat ->
  covers_segments (g0 :: g1 :: rest) [x; "*"] = true ->
  g0 = x \/ g0 :: g1 :: rest ∈ all_wild.
Proof.
  intros Hlen. simpl. rewrite andb_false_r.
  destruct (String.eqb_spec g0 "*") as [->|H0].
  - destruct (String.eqb_spec g1 "*") as [->|H1]; [|done].
    destruct rest as [|r rest]; [right; by left|]. simpl.
    destruct (String.eqb_spec r "*") as [->|Hr], rest as [|r' rest]; simpl in *; try done; try lia.
    intros _. right. right. by left.
  - destruct (String.eqb_spec g0 x); [by left|done].
Qed.

Lemma covers_segments_wild gs x : gs ∈ all_wild -> covers_segments gs [x; "*"] = true.
Proof.
  intros [->|[->|?%elem_of_nil]%elem_of_cons]%elem_of_cons; done.
Qed.

Lemma valid_segments g :
  validate_permission forbidden_matrix g = Ok tt -> g <> "*" ->
  exists g0 g1 rest, split_on ":" g = g0 :: g1 :: rest /\ (length rest <= 1)%nat.
Proof.
  unfold validate_permission. intros Hv Hne%String.eqb_neq. rewrite Hne in Hv.
  destruct (str_empty g); [done|]. destruct (negb (g =? str_lower g)); [done|].
  destruct (negb _) eqn:Hl in Hv; [done|]. apply negb_false_iff, andb_true_iff in Hl as [H1 H2].
  apply Nat.leb_le in H1, H2. simpl in H1, H2.
  destruct (split_on ":" g) as [|g0 [|g1 rest]]; simpl in *; [lia|lia|].
  exists g0, g1, rest. split; [done|lia].
Qed.

(** What the grant-time check refuses on a restricted plane. *)
Lemma overlaps_domain g d :
  validate_permission forbidden_matrix g = Ok tt -> g <> "*" -> domain_pattern d = true ->
  overlaps g d = true <-> domain g = domain d \/ split_on ":" g ∈ all_wild.
Proof.
  intros Hv Hne Hd. destruct (valid_segments g Hv Hne) as (g0 & g1 & rest & Hs & Hlen).
  unfold overlaps. rewrite orb_true_iff, (domain_pattern_covers d g Hd).
  assert (domain g = g0) as -> by (unfold domain; by rewrite Hs).
  assert (covers g d = covers_segments (g0 :: g1 :: rest) [domain d; "*"]) as ->.
  { unfold covers. apply String.eqb_neq in Hne. rewrite Hne, Hs.
    apply andb_true_iff in Hd as [Hd%bool_decide_eq_true _]. by rewrite Hd at 1. }
  rewrite Hs. split.
  - intros [Hc|Hd0]; [by apply covers_segments_domain|by left].
  - intros [Hd0|Hw]; [by right|left; by apply covers_segments_wild].
Qed.

Lemma overlaps_forbidden g :
  validate_permission forbidden_matrix g = Ok tt -> g <> "*" ->
  existsb (overlaps g) ["broker:*"; "execution:*"; "kill_switch:*"] = true <->
  domain g ∈ ["broker"; "execution"; "kill_switch"] \/ split_on ":" g ∈ all_wild.
Proof.
  intros Hv Hne. cbn [existsb]. rewrite orb_false_r, !orb_true_iff, !overlaps_domain by done.
  change (domain "broker:*") with "broker". change (domain "execution:*") with "execution".
  change (domain "kill_switch:*") with "kill_switch". rewrite !elem_of_cons, elem_of_nil. tauto.
Qed.

(** Granting is as strict as authorizing, save for one hole.  A permission of
    the grammar is accepted for a restricted plane exactly when its domain is
    not a forbidden one and it is not all wildcards; an accepted permission
    whose domain is not the wildcard covers no request on a forbidden domain. *)
Theorem grant_check_exact plane permission :
  is_restricted forbidden_matrix plane = true ->
  validate_permission forbidden_matrix permission = Ok tt -> permission <> "*" ->
  (validate_grant forbidden_matrix plane permission = Ok tt <->
     domain permission ∉ ["broker"; "execution"; "kill_switch"] /\
     split_on ":" permission ∉ all_wild) /\
  (validate_grant forbidden_matrix plane permission = Ok tt -> domain permission <> "*" ->
     forall request, covers permission request = true ->
       domain request ∉ ["broker"; "execution"; "kill_switch"]).
Proof.
  intros Hr Hv Hne. pose proof (overlaps_forbidden permission Hv Hne) as Hov.
  assert (validate_grant forbidden_matrix plane permission = Ok tt <->
    existsb (overlaps permission) ["broker:*"; "execution:*"; "kill_switch:*"] <> true) as Hgrant.
  { unfold validate_grant. rewrite Hv, Hr, (restricted_patterns plane Hr).
    apply String.eqb_neq in Hne. cbn [mbind result_bind negb]. rewrite Hne.
    by destruct (existsb _ _). }
  rewrite Hgrant, Hov. split; [tauto|].
  intros Hno Hd request Hc. rewrite <- (covers_domain permission request Hne Hd Hc). tauto.
Qed.

Lemma grant_check_exact_witness :
  validate_grant forbidden_matrix "AI" "model:read" = Ok tt /\
  forall request, covers "model:read" request = true ->
    domain request ∉ ["broker"; "execution"; "kill_switch"].
Proof.
  destruct (grant_check_exact "AI" "model:read") as [_ H]; [done|done|done|].
  split; [done|]. apply H; [done|by vm_compute].
Defined.

(** The hole: a wildcard domain with a fixed action is granted to the AI plane,
    and covers actions on a broker; only the request-time check stops them. *)
Lemma wildcard_domain_granted :
  validate_grant forbidden_matrix "AI" "*:write" = Ok tt /\
  evaluate forbidden_matrix "AI" ["*:write"] true = GRANTED /\
  covers "*:write" "broker:write" = true /\
  authorize forbidden_matrix "AI" ["*:write"] "broker:write" = false.
Proof. by vm_compute. Qed.

(** The evaluation of an identity fails closed: GRANTED means that it has a
    role and, on a restricted plane, that every permission it holds would pass
    the grant-time check. *)
Theorem evaluate_granted plane permissions has_roles :
  Forall (fun p => validate_permission forbidden_matrix p = Ok tt) permissions ->
  evaluate forbidden_matrix plane permissions has_roles = GRANTED <->
  has_roles = true /\
  Forall (fun p => validate_grant forbidden_matrix plane p = Ok tt) permissions.
Proof.
  intros Hvalid. unfold evaluate. destruct has_roles; simpl; [|by split; [|intros []]].
  assert (Forall (fun p => validate_grant forbidden_matrix plane p = Ok tt) permissions <->
    is_restricted forbidden_matrix plane && existsb (fun g => (g =? "*") ||
      existsb (overlaps g) (forbidden_patterns forbidden_matrix plane)) permissions = false) as ->;
    [|by destruct (_ && _); naive_solver].
  induction Hvalid as [|p permissions Hp _ IH]; cbn [existsb].
  { rewrite andb_false_r. by split; [|constructor]. }
  rewrite list.Forall_cons, IH. unfold validate_grant. rewrite Hp. cbn [mbind result_bind].
  destruct (is_restricted forbidden_matrix plane); simpl; [|tauto].
  destruct (p =? "*"); simpl; [by split; [intros []|]|].
  destruct (existsb (overlaps p) _); simpl; [by split; [intros []|]|]. tauto.
Qed.

Lemma evaluate_granted_witness :
  Forall (fun p => validate_grant forbidden_matrix "AI" p = Ok tt) ["model:read"; "prediction:write"].
Proof.
  apply (evaluate_granted "AI" ["model:read"; "prediction:write"] true); [|by vm_compute].
  repeat constructor.
Defined.

(** ** The two rules *)

Lemma but_last_snoc a c : but_last (a ++ String c "") = a.
Proof. induction a as [|x a IH]; [done|]. simpl. rewrite IH. by destruct a. Qed.

Lemma covers_segments_prefix l m : covers_segments (l ++ ["*"]) (l ++ m) = true.
Proof.
  induction l as [|s l IH]; [done|]. simpl. destruct (_ && _); [done|].
  by rewrite IH, String.eqb_refl; destruct (s =? "*").
Qed.

Lemma covers_segments_refl l : covers_segments l l = true.
Proof.
  induction l as [|s l IH]; [done|]. simpl. destruct (_ && _); [done|].
  by rewrite IH, String.eqb_refl; destruct (s =? "*").
Qed.

(** The permission check of the token service never allows what the matrix
    rules do not: a request it accepts is covered, in the sense of [covers], by
    one of the grants. *)
Theorem has_permission_covered granted required :
  has_permission granted required = true ->
  exists g, g ∈ granted /\ covers (strip g) (strip required) = true.
Proof.
  unfold has_permission. destruct (str_empty _); [done|].
  intros (g & Hg%list_elem_of_In & [_ Hgr]%andb_true_iff)%existsb_exists. exists g. split; [done|].
  unfold covers. destruct (String.eqb_spec (strip g) "*") as [|Hne]; [done|].
  apply orb_true_iff in Hgr as [->%String.eqb_eq|[Hend Hstart]%andb_true_iff].
  - apply covers_segments_refl.
  - apply ends_with_inv in Hend as [a Ha]. rewrite Ha in *.
    change (":*") with (":" ++ "*") in Hstart. rewrite <- str_app_assoc, but_last_snoc in Hstart.
    apply prefix_inv in Hstart as [b Hb]. rewrite Hb, str_app_assoc.
    change (":" ++ b) with (String ":" b). change (":*") with (String ":" "*").
    rewrite !split_on_app_list. apply covers_segments_prefix.
Qed.

Lemma has_permission_covered_witness :
  exists g, g ∈ ["auth:*"] /\ covers (strip g) "auth:api_keys:write" = true.
Proof. apply (has_permission_covered ["auth:*"] " auth:api_keys:write"). by vm_compute. Defined.

(** The converse fails: [covers] takes a permission to include the resources
    below it, the token service does not. *)
Lemma covers_not_has_permission :
  covers "auth:api_keys" "auth:api_keys:write" = true /\
  has_permission ["auth:api_keys"] "auth:api_keys:write" = false.
Proof. by vm_compute. Qed.

(** * The file of the matrix *)

#[local] Open Scope string_scope.

Inductive matrix_exc := MatrixNotFound | MatrixFile (e : os_exc) | MatrixYaml (m : string).
(** [_MATRIX_BYTES] and [_MATRIX_CACHE]; a cache of [None] is none. *)
Record Caches := { matrix_bytes : option string; matrix_cache : yaml }.
Definition cold : Caches := {| matrix_bytes := None; matrix_cache := YNone |}.

Section Matrix.
Context (safe_load : string -> result string yaml) (sha256_hex : string -> string) (environ : string -> option string) (here : Path).
Notation MatrixM := (st Caches matrix_exc).

(** [here] is the directory of the module. *)
Definition repo_root : Path := (here.1, take (length here.2 - 4) here.2).
Definition candidate_matrix_paths : list Path :=
  (match environ "APEX_RBAC_MATRIX_PATH" with Some p => if str_empty p then [] else [path_of p] | None => [] end
   ++ [(repo_root.1, repo_root.2 ++ ["data"; "rbac"; "forbidden_matrix.yaml"])])%list.
Definition read_matrix (fs : FileSystem) : result matrix_exc string :=
  match head (filter (fun p => path_exists p fs = true) candidate_matrix_paths) with
  | Some p => map_err MatrixFile (read_bytes p fs)
  | None => Err MatrixNotFound
  end.
Definition load_matrix_raw (fs : FileSystem) : MatrixM string := fun c =>
  match matrix_bytes c with
  | Some b => (Ok b, c)
  | None => match read_matrix fs with
            | Ok b => (Ok b, {| matrix_bytes := Some b; matrix_cache := matrix_cache c |})
            | Err e => (Err e, c)
            end
  end.
Definition matrix_sha256 (fs : FileSystem) : MatrixM string := b ← load_matrix_raw fs; mret (sha256_hex b).
Definition keep_matrix (y : yaml) : MatrixM yaml := fun c => (Ok y, {| matrix_bytes := matrix_bytes c; matrix_cache := y |}).
Definition load_matrix (fs : FileSystem) : MatrixM yaml :=
  get_state ≫= fun c =>
  match matrix_cache c with
  | YNone =>
      b ← load_matrix_raw fs;
      y ← lift (map_err MatrixYaml (safe_load b));
      keep_matrix y
  | y => mret y
  end.

(** ** One set of rules per process *)

(** The rules in the cache are those of the bytes in the cache. *)
Definition coherent (c : Caches) : Prop :=
  matrix_cache c = YNone \/ exists b, matrix_bytes c = Some b /\ safe_load b = Ok (matrix_cache c).
Lemma cold_coherent : coherent cold.
Proof. by left. Qed.

Lemma load_raw_spec fs c x c' : load_matrix_raw fs c = (x, c') ->
  matrix_cache c' = matrix_cache c /\ (forall b, matrix_bytes c = Some b -> matrix_bytes c' = Some b) /\
  match x with Ok b => matrix_bytes c' = Some b | Err _ => c' = c /\ matrix_bytes c = None end.
Proof.
  unfold load_matrix_raw. destruct (matrix_bytes c) as [b|] eqn:Hb; [intros [= <- <-]; rewrite Hb; split_and!; congruence|].
  destruct (read_matrix fs); intros [= <- <-]; split_and!; done.
Qed.
Lemma load_matrix_spec fs c x c' : coherent c -> load_matrix fs c = (x, c') ->
  coherent c' /\ (forall b, matrix_bytes c = Some b -> matrix_bytes c' = Some b) /\
  match x with Ok y => exists b, matrix_bytes c' = Some b /\ safe_load b = Ok y /\ matrix_cache c' = y | Err _ => True end.
Proof.
  intros Hc. unfold load_matrix. rewrite st_bind_get.
  assert (Hcached : forall y, matrix_cache c = y -> y <> YNone -> (mret y : MatrixM yaml) c = (x, c') ->
    coherent c' /\ (forall b, matrix_bytes c = Some b -> matrix_bytes c' = Some b) /\
    match x with Ok y => exists b, matrix_bytes c' = Some b /\ safe_load b = Ok y /\ matrix_cache c' = y | Err _ => True end).
  { intros y Hy Hn [= <- <-]. split; [done|]. split; [done|]. destruct Hc as [Hc|(b & Hb & Hl)]; [congruence|].
    exists b. by rewrite Hy in Hl. }
  destruct (matrix_cache c) eqn:Hm; try (by apply Hcached). clear Hcached. intros H.
  st_inv H as b c1 H1; apply load_raw_spec in H1 as (Hm1 & Hkeep & Hb); cbn in Hb.
  - rewrite st_bind_lift in H. destruct (safe_load b) as [y|m] eqn:Hl; cbn in H; injection H as <- <-; cbn.
    + split_and!; [right; by exists b|exact Hkeep|by exists b].
    + split_and!; [left; congruence|exact Hkeep|done].
  - destruct Hb as [-> Hn]. by split_and!.
Qed.

(** The hash that is reported is that of the rules in force, whatever has become
    of the file since: a process that has read the matrix answers with the hash
    of the bytes it read it from. *)
Lemma hash_of_rules fs fs' c y c' : coherent c -> load_matrix fs c = (Ok y, c') ->
  exists b, safe_load b = Ok y /\ matrix_sha256 fs' c' = (Ok (sha256_hex b), c').
Proof.
  intros Hc H. apply load_matrix_spec in H as (_ & _ & b & Hb & Hl & _); [|done]. exists b. split; [done|].
  unfold matrix_sha256, load_matrix_raw, mbind, st_bind. by rewrite Hb.
Qed.
(** Rules that were read once stay for as long as the process, unless the file
    was empty. *)
Lemma rules_stay fs fs' c y c' : coherent c -> load_matrix fs c = (Ok y, c') -> load_matrix fs' c' = (Ok y, c').
Proof.
  intros Hc H. apply load_matrix_spec in H as (_ & _ & b & Hb & Hl & Hy); [|done].
  unfold load_matrix. rewrite st_bind_get, Hy. destruct y; try done.
  unfold mbind, st_bind, load_matrix_raw, lift. rewrite Hb, Hl. cbn. destruct c'. cbn in *. by subst.
Qed.
(** The variable of the environment comes first; the file of the checkout only
    when it names nothing that is there. *)
Lemma environment_first fs p : environ "APEX_RBAC_MATRIX_PATH" = Some p -> p <> "" -> path_exists (path_of p) fs = true ->
  read_matrix fs = map_err MatrixFile (read_bytes (path_of p) fs).
Proof.
  intros He Hp Hx. unfold read_matrix, candidate_matrix_paths. rewrite He. destruct p as [|a p]; [done|].
  cbn [str_empty app]. by rewrite filter_cons_True.
Qed.
End Matrix.

(** ** What the functions of the rules read in a document *)

(** A list of texts; other values end in an error or in names no permission has. *)
Definition yaml_texts (y : yaml) : option (list string) :=
  match y with YList l => mapM (fun v => match v with YStr s => Some s | _ => None end) l | _ => None end.
Definition get_or (k : string) (d : list (yaml * yaml)) (otherwise : yaml) : yaml := if yaml_has k d then yaml_get k d else otherwise.
Definition plane_entry (kv : yaml * yaml) : option (string * list string) :=
  match kv with (YStr plane, v) => l ← yaml_texts v; Some (plane, l) | _ => None end.
Definition bounds_of (y : yaml) : option (nat * nat) :=
  match y with YList (YInt a :: YInt b :: _) => Some (Z.to_nat a, Z.to_nat b) | _ => None end.
Definition matrix_of (y : yaml) : option Matrix :=
  match y with
  | YDict d =>
      restricted ← yaml_texts (get_or "restricted_planes" d (YList []));
      forbidden ← (match get_or "forbidden" d (YDict []) with YDict f => mapM plane_entry f | _ => None end);
      bounds ← (match get_or "grammar" d (YDict []) with
                | YDict g => bounds_of (get_or "segments" g (YList [YInt 2; YInt 3])) | _ => None end);
      Some {| mx_restricted_planes := restricted; mx_forbidden := forbidden; mx_min_segments := bounds.1; mx_max_segments := bounds.2 |}
  | _ => None
  end.

(** data/rbac/forbidden_matrix.yaml, but for the keys that nothing reads *)
Definition forbidden_document : yaml :=
  let patterns := YList [YStr "broker:*"; YStr "execution:*"; YStr "kill_switch:*"] in
  YDict [(YStr "version", YInt 1);
         (YStr "grammar", YDict [(YStr "format", YStr "domain:action[:resource]"); (YStr "wildcard", YStr "full_segment_only");
                                 (YStr "segment_charset", YStr "a-z0-9_-"); (YStr "segments", YList [YInt 2; YInt 3]);
                                 (YStr "global_wildcard", YStr "*")]);
         (YStr "forbidden", YDict [(YStr "AI", patterns); (YStr "DATA_RESEARCH", patterns)]);
         (YStr "restricted_planes", YList [YStr "AI"; YStr "DATA_RESEARCH"])].
Lemma repository_matrix : matrix_of forbidden_document = Some forbidden_matrix.
Proof. by vm_compute. Qed.
(** A matrix without its lists restricts no plane: nothing in it is required. *)
Lemma empty_matrix_restricts_nothing : exists m, matrix_of (YDict []) = Some m /\ forall plane, is_restricted m plane = false.
Proof. eexists. split; [reflexivity|]. done. Qed.

Example checkout_path :
  candidate_matrix_paths (fun _ => None) (path_of "/app/python/apexquant-auth/src/apexquant_auth") =
    [path_of "/app/data/rbac/forbidden_matrix.yaml"].
Proof. by vm_compute. Qed.
