(* ===== verification/RbacSweep.v ===== *)
(** The reconciliation sweep of apexquant-auth, [reconciliation.py], over the
    tables of 0002_rbac.sql it reads and writes.

    Identifiers the database generates are the positions of the rows.  The
    statements of a sweep run in one transaction. *)
From stdpp Require Import base strings list gmap pretty numbers.
From Stdlib Require Import Ascii.
From S2P Require Import Prelude PyStr Json Rbac.

(** ** Data *)

Definition DENIAL_RATE_LIMIT_PER_SEC : nat := 50.

Record Violation := { v_principal_id : string; v_category : string; v_detail : string }.

Record Principal := { p_id : string; p_plane : string; p_subject : string }.

Record RbacDB := {
  principals : list Principal;
  principal_roles : list (string * string);
  role_permissions : list (string * string);
  permission_grants : list (string * string);
  reconciliation_runs : list (string * option (nat * nat));
  rbac_violations : list (nat * Violation);
  rbac_remediations : list (nat * nat * string * string);
  rbac_audit : list (string * string * nat);
  rbac_alerts : list (string * string * string);
  rbac_denials : list (option string * Z)
}.

(** A pair [(kind, role_id, permission)] of the assignments of a principal. *)
Inductive assignment :=
| ROLE (role_id permission : string)
| DIRECT (permission : string).

Definition assigned (a : assignment) : string :=
  match a with ROLE _ p | DIRECT p => p end.

Record Entry := {
  e_plane : string;
  e_subject : string;
  e_role_permissions : list string;
  e_direct_grants : list string;
  e_role_count : nat;
  e_assignments : list assignment
}.

Inductive sweep_exc := KeyError (key : string).

Section Sweep.
Variable matrix : Matrix.

(** [perm == "*" or any(overlaps(perm, d) for d in forbidden_patterns(plane))] *)
Definition bad (plane perm : string) : bool :=
  (perm =? "*") || existsb (overlaps perm) (forbidden_patterns matrix plane).

(** ** detect_violations *)

Definition forbidden_violation (pid : string) (e : Entry) (perm : string) : Violation :=
  {| v_principal_id := pid; v_category := "FORBIDDEN_PERMISSION";
     v_detail := "plane=" ++ e_plane e ++ " subject=" ++ e_subject e ++ " permission=" ++ perm |}.

Definition unprovisioned_violation (pid : string) (e : Entry) : Violation :=
  {| v_principal_id := pid; v_category := "UNPROVISIONED";
     v_detail := "subject=" ++ e_subject e ++ " has " ++ pretty (length (e_direct_grants e))
                   ++ " direct grants but no roles" |}.

Definition entry_violations (pid : string) (e : Entry) : list Violation :=
  let effective := (e_role_permissions e ++ e_direct_grants e)%list in
  ((if is_restricted matrix (e_plane e) then
      concat (map (fun perm =>
        if perm =? "*" then [forbidden_violation pid e "*"]
        else map (fun _ => forbidden_violation pid e perm)
               (filter (fun d => overlaps perm d = true) (forbidden_patterns matrix (e_plane e))))
        effective)
    else [])
   ++ (if (e_role_count e =? 0)%nat && negb (bool_decide (e_direct_grants e = []))
       then [unprovisioned_violation pid e]
       else []))%list.

Definition detect_violations (assignments : pydict string Entry) : list Violation :=
  concat (map (fun kv => entry_violations kv.1 kv.2) assignments).

(** ** The queries, and the assignments built from them *)

(** [COUNT(DISTINCT pr.role_id)] *)
Definition count_roles (db : RbacDB) (pid : string) : nat :=
  length (remove_dups (map snd (filter (fun pr => pr.1 = pid) (principal_roles db)))).

(** [principal_roles JOIN role_permissions]: [(principal_id, permission, role_id)] *)
Definition role_rows (db : RbacDB) : list (string * string * string) :=
  concat (map (fun pr =>
    map (fun rp => (pr.1, rp.2, rp.1)) (filter (fun rp => rp.1 = pr.2) (role_permissions db)))
    (principal_roles db)).

Definition blank_entry (db : RbacDB) (p : Principal) : Entry :=
  {| e_plane := p_plane p; e_subject := p_subject p; e_role_permissions := [];
     e_direct_grants := []; e_role_count := count_roles db (p_id p); e_assignments := [] |}.

Definition add_role (perm role_id : string) (e : Entry) : Entry :=
  {| e_plane := e_plane e; e_subject := e_subject e;
     e_role_permissions := (e_role_permissions e ++ [perm])%list;
     e_direct_grants := e_direct_grants e; e_role_count := e_role_count e;
     e_assignments := (e_assignments e ++ [ROLE role_id perm])%list |}.
Definition add_direct (perm : string) (e : Entry) : Entry :=
  {| e_plane := e_plane e; e_subject := e_subject e;
     e_role_permissions := e_role_permissions e;
     e_direct_grants := (e_direct_grants e ++ [perm])%list; e_role_count := e_role_count e;
     e_assignments := (e_assignments e ++ [DIRECT perm])%list |}.

(** [if pid in assignments: ...]: the entry is changed in place. *)
Definition change_entry (pid : string) (f : Entry -> Entry) (d : pydict string Entry)
    : pydict string Entry :=
  match dict_get pid d with
  | Some e => dict_set pid (f e) d
  | None => d
  end.

Definition build_assignments (db : RbacDB) : pydict string Entry :=
  let d0 := foldl (fun d p => dict_set (p_id p) (blank_entry db p) d) [] (principals db) in
  let d1 := foldl (fun d row => change_entry row.1.1 (add_role row.1.2 row.2) d)
              d0 (role_rows db) in
  foldl (fun d row => change_entry row.1 (add_direct row.2) d) d1 (permission_grants db).

(** ** The statements that write *)

Definition with_roles (l : list (string * string)) (db : RbacDB) : RbacDB :=
  {| principals := principals db; principal_roles := l;
     role_permissions := role_permissions db; permission_grants := permission_grants db;
     reconciliation_runs := reconciliation_runs db; rbac_violations := rbac_violations db;
     rbac_remediations := rbac_remediations db; rbac_audit := rbac_audit db;
     rbac_alerts := rbac_alerts db; rbac_denials := rbac_denials db |}.
Definition with_grants (l : list (string * string)) (db : RbacDB) : RbacDB :=
  {| principals := principals db; principal_roles := principal_roles db;
     role_permissions := role_permissions db; permission_grants := l;
     reconciliation_runs := reconciliation_runs db; rbac_violations := rbac_violations db;
     rbac_remediations := rbac_remediations db; rbac_audit := rbac_audit db;
     rbac_alerts := rbac_alerts db; rbac_denials := rbac_denials db |}.

(** The insertions in the tables of the sweep's own records. *)
Definition with_records (runs : list (string * option (nat * nat)))
    (vs : list (nat * Violation)) (rs : list (nat * nat * string * string))
    (au : list (string * string * nat)) (al : list (string * string * string))
    (de : list (option string * Z)) (db : RbacDB) : RbacDB :=
  {| principals := principals db; principal_roles := principal_roles db;
     role_permissions := role_permissions db; permission_grants := permission_grants db;
     reconciliation_runs := (reconciliation_runs db ++ runs)%list;
     rbac_violations := (rbac_violations db ++ vs)%list;
     rbac_remediations := (rbac_remediations db ++ rs)%list;
     rbac_audit := (rbac_audit db ++ au)%list; rbac_alerts := (rbac_alerts db ++ al)%list;
     rbac_denials := (rbac_denials db ++ de)%list |}.

(** The transaction and [result.remediations]. *)
Definition Sweeping : Type := RbacDB * list string.

(** One round of the loop over the assignments of a violating principal. *)
Definition revoke_assignment (run_id violation_id : nat) (v : Violation) (e : Entry)
    (a : assignment) (s : Sweeping) : Sweeping :=
  let perm := assigned a in
  if negb (bad (e_plane e) perm) then s
  else
    let '(db, action) :=
      match a with
      | ROLE role_id _ =>
          (with_roles (filter (fun pr => pr <> (v_principal_id v, role_id)) (principal_roles s.1))
             s.1, "AUTO_REVOKE_ROLE")
      | DIRECT p =>
          (with_grants (filter (fun g => g <> (v_principal_id v, p)) (permission_grants s.1)) s.1,
           "AUTO_REVOKE_GRANT")
      end in
    (with_records [] [] [(run_id, violation_id, action, "permission=" ++ perm)]
       [(v_principal_id v, perm, run_id)] [] [] db,
     (s.2 ++ [(action ++ ":" ++ perm)%string])%list).

Definition remediate_violation (run_id : nat) (assignments : pydict string Entry) (v : Violation)
    : st Sweeping sweep_exc unit := fun s =>
  let violation_id := length (rbac_violations s.1) in
  let s1 := (with_records [] [(run_id, v)] [] [] [] [] s.1, s.2) in
  match dict_get (v_principal_id v) assignments with
  | None => (Err (KeyError (v_principal_id v)), s1)
  | Some e =>
      if v_category v =? "FORBIDDEN_PERMISSION"
      then (Ok tt, foldl (fun s a => revoke_assignment run_id violation_id v e a s) s1
                     (e_assignments e))
      else if v_category v =? "UNPROVISIONED"
      then (Ok tt,
            (with_records [] []
               [(run_id, violation_id, "AUTO_REVOKE_GRANT", "unprovisioned direct grants")] [] [] []
               (with_grants (filter (fun g => g.1 <> v_principal_id v) (permission_grants s1.1)) s1.1),
             (s1.2 ++ ["AUTO_REVOKE_GRANT:unprovisioned"])%list))
      else (Ok tt, s1)
  end.

Record ReconciliationResult := {
  r_violations : list Violation; r_remediations : list string; r_alerts : list string }.

(** [UPDATE rbac_reconciliation_runs SET ... WHERE run_id = ...] *)
Definition complete_run (run_id violations remediations : nat) (db : RbacDB) : RbacDB :=
  {| principals := principals db; principal_roles := principal_roles db;
     role_permissions := role_permissions db; permission_grants := permission_grants db;
     reconciliation_runs :=
       alter (fun r => (r.1, Some (violations, remediations))) run_id (reconciliation_runs db);
     rbac_violations := rbac_violations db; rbac_remediations := rbac_remediations db;
     rbac_audit := rbac_audit db; rbac_alerts := rbac_alerts db; rbac_denials := rbac_denials db |}.

Definition reconcile_and_remediate (trigger : string)
    : st RbacDB sweep_exc ReconciliationResult := fun db0 =>
  let run_id := length (reconciliation_runs db0) in
  let db1 := with_records [(trigger, None)] [] [] [] [] [] db0 in
  let assignments := build_assignments db1 in
  let violations := detect_violations assignments in
  match for_each (remediate_violation run_id assignments) violations (db1, []) with
  | (Err e, _) => (Err e, db0)
  | (Ok _, (db2, remediations)) =>
      let '(db3, alerts) :=
        match violations with
        | [] => (db2, [])
        | _ => (with_records [] [] [] []
                  [("CRITICAL", "INVARIANT_VIOLATION",
                    pretty (length violations)
                      ++ " RBAC invariant violation(s) detected and remediated")] [] db2,
                ["CRITICAL:INVARIANT_VIOLATION"])
        end in
      (Ok {| r_violations := violations; r_remediations := remediations; r_alerts := alerts |},
       complete_run run_id (length violations) (length remediations) db3)
  end.
End Sweep.

(** ** log_denial *)

(** [subject_name = %s AND occurred_at > now() - interval '1 second'], in
    microseconds; NULL equals nothing. *)
Definition is_recent (subject : option string) (now : Z) (d : option string * Z) : bool :=
  match subject, d.1 with
  | Some s, Some s' => (s =? s') && (now - 1000000 <? d.2)%Z
  | _, _ => false
  end.
Definition recent_denials (subject : option string) (now : Z) (db : RbacDB) : nat :=
  length (tbl_select (is_recent subject now) (rbac_denials db)).

Definition log_denial (subject : option string) (now : Z) : st RbacDB sweep_exc bool := fun db =>
  let db1 := with_records [] [] [] [] [] [(subject, now)] db in
  let rate := recent_denials subject now db1 in
  let anomaly := (DENIAL_RATE_LIMIT_PER_SEC <? rate)%nat in
  (Ok anomaly,
   if anomaly then
     with_records [] [] [] []
       [("CRITICAL", "DENIAL_RATE_ANOMALY",
         "subject=" ++ default "None" subject ++ " denial_rate=" ++ pretty rate ++ "/s")] [] db1
   else db1).

(** ** What the assignments hold *)

Lemma dict_get_map {A} (key : A -> string) (E : A -> Entry) (xs : list A) k :
  dict_get k (map (fun x => (key x, E x)) xs) = E <$> head (filter (fun x => key x = k) xs).
Proof.
  induction xs as [|x xs IH]; [done|]. cbn [map dict_get]. rewrite filter_cons.
  destruct (decide (k = key x)) as [->|Hne]; [by rewrite decide_True|].
  by rewrite decide_False by congruence.
Qed.

(** Changing an entry in place, on a dict that lists the principals in order. *)
Lemma change_entry_map {A} (key : A -> string) (E : A -> Entry) f (xs : list A) k :
  NoDup (map key xs) ->
  change_entry k f (map (fun x => (key x, E x)) xs)
  = map (fun x => (key x, if decide (key x = k) then f (E x) else E x)) xs.
Proof.
  unfold change_entry. induction xs as [|x xs IH]; [done|].
  intros [Hx Hnd]%list.NoDup_cons. cbn [map dict_get].
  destruct (decide (k = key x)) as [->|Hne].
  - cbn [dict_set]. rewrite !decide_True by done. f_equal. apply map_ext_in.
    intros y Hy%list_elem_of_In. rewrite decide_False; [done|]. intros Heq. apply Hx.
    rewrite <- Heq. by apply (list_elem_of_fmap_2 key).
  - specialize (IH Hnd). rewrite (decide_False (P := key x = k)) by congruence. rewrite <- IH.
    destruct (dict_get k (map _ xs)); [|done]. cbn [dict_set]. by rewrite decide_False.
Qed.

(** A whole query's rows, entry by entry. *)
Lemma change_entries_map {A B} (key : A -> string) (pid : B -> string) (f : B -> Entry -> Entry)
    (rows : list B) (E : A -> Entry) (xs : list A) :
  NoDup (map key xs) ->
  foldl (fun d r => change_entry (pid r) (f r) d) (map (fun x => (key x, E x)) xs) rows
  = map (fun x => (key x, foldl (fun e r => f r e) (E x) (filter (fun r => pid r = key x) rows))) xs.
Proof.
  intros Hnd. revert E. induction rows as [|r rows IH]; intros E; [done|].
  cbn [foldl]. rewrite change_entry_map by done. rewrite IH. apply map_ext. intros x.
  rewrite filter_cons. f_equal. by destruct (decide (pid r = key x)), (decide (key x = pid r)).
Qed.

Lemma set_entries_map {A} (key : A -> string) (E : A -> Entry) (xs : list A) :
  NoDup (map key xs) ->
  foldl (fun d x => dict_set (key x) (E x) d) [] xs = map (fun x => (key x, E x)) xs.
Proof.
  induction xs as [|x xs IH] using rev_ind; [done|].
  rewrite map_app. intros (Hl & Hx & _)%list.NoDup_app. rewrite foldl_app, IH, map_app by done.
  simpl. assert (key x ∉ map key xs) as Hk by (intros Hin; eapply Hx; [exact Hin|by left]).
  clear -Hk. induction xs as [|y xs IH]; [done|]. cbn [map] in Hk.
  rewrite not_elem_of_cons in Hk. destruct Hk as [Hne Hk]. cbn [map app dict_set].
  by rewrite decide_False, IH by done.
Qed.

(** What a principal holds, by role and directly, read off the tables. *)
Definition role_perms (db : RbacDB) (pid : string) : list (string * string) :=
  concat (map (fun pr => filter (fun rp => rp.1 = pr.2) (role_permissions db))
    (filter (fun pr => pr.1 = pid) (principal_roles db))).
Definition direct_perms (db : RbacDB) (pid : string) : list string :=
  map snd (filter (fun g => g.1 = pid) (permission_grants db)).

Definition entry_of (db : RbacDB) (p : Principal) : Entry :=
  {| e_plane := p_plane p; e_subject := p_subject p;
     e_role_permissions := map snd (role_perms db (p_id p));
     e_direct_grants := direct_perms db (p_id p);
     e_role_count := count_roles db (p_id p);
     e_assignments := (map (fun rp => ROLE rp.1 rp.2) (role_perms db (p_id p))
                       ++ map DIRECT (direct_perms db (p_id p)))%list |}.

Lemma role_rows_of db pid :
  filter (fun row => row.1.1 = pid) (role_rows db)
  = map (fun rp => (pid, rp.2, rp.1)) (role_perms db pid).
Proof.
  unfold role_rows, role_perms. induction (principal_roles db) as [|pr l IH]; [done|].
  cbn [map concat]. rewrite list.filter_app, IH, filter_cons.
  assert (forall rps, filter (fun row : string * string * string => row.1.1 = pid)
    (map (fun rp : string * string => (pr.1, rp.2, rp.1)) rps)
    = if decide (pr.1 = pid) then map (fun rp => (pid, rp.2, rp.1)) rps else []) as ->.
  { intros rps. induction rps as [|rp rps IHr]; cbn [map]; [by case_decide|].
    rewrite filter_cons, IHr. cbn [fst]. case_decide; [by subst pid|done]. }
  case_decide; cbn [map concat]; [by rewrite map_app|done].
Qed.

Lemma build_assignments_entries db :
  NoDup (map p_id (principals db)) ->
  build_assignments db = map (fun p => (p_id p, entry_of db p)) (principals db).
Proof.
  intros Hnd. unfold build_assignments. rewrite set_entries_map by done.
  rewrite (change_entries_map p_id (fun row => row.1.1) (fun row => add_role row.1.2 row.2)) by done.
  rewrite (change_entries_map p_id fst (fun row => add_direct row.2)) by done.
  apply map_ext. intros p. f_equal. rewrite role_rows_of. unfold entry_of, direct_perms.
  assert (forall rps e,
    foldl (fun e row => add_role row.1.2 row.2 e) e
      (map (fun rp : string * string => (p_id p, rp.2, rp.1)) rps)
    = {| e_plane := e_plane e; e_subject := e_subject e;
         e_role_permissions := e_role_permissions e ++ map snd rps;
         e_direct_grants := e_direct_grants e; e_role_count := e_role_count e;
         e_assignments := e_assignments e ++ map (fun rp => ROLE rp.1 rp.2) rps |}%list) as ->.
  { intros rps. induction rps as [|rp rps IH]; intros e; cbn [map foldl].
    - rewrite !app_nil_r. by destruct e.
    - rewrite IH. simpl. by rewrite <- !app_assoc. }
  assert (forall gs e,
    foldl (fun e row => add_direct (row : string * string).2 e) e gs
    = {| e_plane := e_plane e; e_subject := e_subject e;
         e_role_permissions := e_role_permissions e;
         e_direct_grants := e_direct_grants e ++ map snd gs; e_role_count := e_role_count e;
         e_assignments := e_assignments e ++ map DIRECT (map snd gs) |}%list) as ->.
  { intros gs. induction gs as [|g gs IH]; intros e; cbn [map foldl].
    - rewrite !app_nil_r. by destruct e.
    - rewrite IH. simpl. by rewrite <- !app_assoc. }
  done.
Qed.

(** ** What a sweep removes *)

Section Effects.
Variable matrix : Matrix.

Lemma tbl_delete_delete {A} (p q : A -> bool) t :
  tbl_delete p (tbl_delete q t) = tbl_delete (fun r => q r || p r) t.
Proof.
  unfold tbl_delete. rewrite list_filter_filter. apply list_filter_iff. intros r.
  rewrite orb_false_iff. tauto.
Qed.

Lemma tbl_delete_ext {A} (p q : A -> bool) t :
  (forall r, r ∈ t -> p r = q r) -> tbl_delete p t = tbl_delete q t.
Proof.
  unfold tbl_delete. induction t as [|r t IH]; intros Hpq; [done|].
  rewrite !filter_cons, IH by (intros; apply Hpq; by right). rewrite (Hpq r) by left. done.
Qed.

Lemma tbl_delete_elem {A} (p : A -> bool) t r : r ∈ tbl_delete p t <-> r ∈ t /\ p r = false.
Proof. unfold tbl_delete. rewrite list_elem_of_filter. tauto. Qed.

Lemma tbl_delete_ne (t : list (string * string)) x :
  filter (fun r => r <> x) t = tbl_delete (fun r => (r.1 =? x.1) && (r.2 =? x.2)) t.
Proof.
  unfold tbl_delete. apply list_filter_iff. intros [a b]. destruct x as [c d]. simpl.
  destruct (String.eqb_spec a c), (String.eqb_spec b d); simpl; naive_solver.
Qed.

Lemma tbl_delete_key (t : list (string * string)) k :
  filter (fun r => r.1 <> k) t = tbl_delete (fun r => r.1 =? k) t.
Proof.
  unfold tbl_delete. apply list_filter_iff. intros [a b]. simpl.
  destruct (String.eqb_spec a k); naive_solver.
Qed.

(** [db'] is [db] without the role assignments in [dr] and the grants in [dg]. *)
Definition removes (dr dg : string * string -> bool) (db db' : RbacDB) : Prop :=
  principals db' = principals db /\ role_permissions db' = role_permissions db /\
  principal_roles db' = tbl_delete dr (principal_roles db) /\
  permission_grants db' = tbl_delete dg (permission_grants db).

Lemma removes_nothing db : removes (fun _ => false) (fun _ => false) db db.
Proof.
  assert (forall t : list (string * string), tbl_delete (fun _ => false) t = t) as Hid.
  { intros t. unfold tbl_delete. induction t as [|r t IH]; [done|]. by rewrite filter_cons, IH. }
  by split_and!.
Qed.

Lemma removes_trans dr dg dr' dg' db1 db2 db3 :
  removes dr dg db1 db2 -> removes dr' dg' db2 db3 ->
  removes (fun r => dr r || dr' r) (fun r => dg r || dg' r) db1 db3.
Proof.
  intros (H1 & H2 & H3 & H4) (H1' & H2' & H3' & H4').
  rewrite H3 in H3'. rewrite H4 in H4'. rewrite tbl_delete_delete in H3', H4'.
  split_and!; congruence.
Qed.

Lemma removes_ext dr dg dr' dg' db db' :
  (forall r, r ∈ principal_roles db -> dr r = dr' r) ->
  (forall g, g ∈ permission_grants db -> dg g = dg' g) ->
  removes dr dg db db' -> removes dr' dg' db db'.
Proof.
  intros Hr Hg (? & ? & H3 & H4). rewrite (tbl_delete_ext _ _ _ Hr) in H3.
  rewrite (tbl_delete_ext _ _ _ Hg) in H4. by split_and!.
Qed.

Definition revoked_role (plane pid : string) (a : assignment) (pr : string * string) : bool :=
  match a with
  | ROLE r p => bad matrix plane p && (pr.1 =? pid) && (pr.2 =? r)
  | DIRECT _ => false
  end.
Definition revoked_grant (plane pid : string) (a : assignment) (g : string * string) : bool :=
  match a with
  | ROLE _ _ => false
  | DIRECT p => bad matrix plane p && (g.1 =? pid) && (g.2 =? p)
  end.

Lemma revoke_assignment_removes run_id vid v e a s :
  removes (revoked_role (e_plane e) (v_principal_id v) a) (revoked_grant (e_plane e) (v_principal_id v) a)
    s.1 (revoke_assignment matrix run_id vid v e a s).1.
Proof.
  unfold revoke_assignment, revoked_role, revoked_grant. destruct a as [r p|p]; simpl;
    destruct (bad matrix (e_plane e) p); simpl; try apply removes_nothing;
    pose proof (removes_nothing s.1) as (_ & _ & H3 & H4).
  - split_and!; simpl; [done|done|exact (tbl_delete_ne _ (_, _))|exact H4].
  - split_and!; simpl; [done|done|exact H3|exact (tbl_delete_ne _ (_, _))].
Qed.

Lemma revoke_assignments_removes run_id vid v e l s :
  removes (fun pr => existsb (fun a => revoked_role (e_plane e) (v_principal_id v) a pr) l)
    (fun g => existsb (fun a => revoked_grant (e_plane e) (v_principal_id v) a g) l)
    s.1 (foldl (fun s a => revoke_assignment matrix run_id vid v e a s) s l).1.
Proof.
  revert s. induction l as [|a l IH]; intros s; [apply removes_nothing|]. cbn [foldl existsb].
  eapply removes_trans; [apply revoke_assignment_removes|apply IH].
Qed.

(** What remediating one violation removes. *)
Definition removed_role (assignments : pydict string Entry) (v : Violation) (pr : string * string)
    : bool :=
  match dict_get (v_principal_id v) assignments with
  | Some e => (v_category v =? "FORBIDDEN_PERMISSION") &&
      existsb (fun a => revoked_role (e_plane e) (v_principal_id v) a pr) (e_assignments e)
  | None => false
  end.
Definition removed_grant (assignments : pydict string Entry) (v : Violation) (g : string * string)
    : bool :=
  match dict_get (v_principal_id v) assignments with
  | Some e =>
      if v_category v =? "FORBIDDEN_PERMISSION"
      then existsb (fun a => revoked_grant (e_plane e) (v_principal_id v) a g) (e_assignments e)
      else (v_category v =? "UNPROVISIONED") && (g.1 =? v_principal_id v)
  | None => false
  end.

Lemma remediate_violation_removes run_id assignments v s :
  is_Some (dict_get (v_principal_id v) assignments) ->
  exists s', remediate_violation matrix run_id assignments v s = (Ok tt, s') /\
    removes (removed_role assignments v) (removed_grant assignments v) s.1 s'.1.
Proof.
  intros [e He]. unfold remediate_violation, removed_role, removed_grant. rewrite He.
  pose proof (removes_nothing s.1) as (_ & _ & H3 & H4).
  destruct (v_category v =? "FORBIDDEN_PERMISSION"); simpl.
  - eexists. split; [done|]. apply (revoke_assignments_removes run_id _ v e _
      (with_records [] [(run_id, v)] [] [] [] [] s.1, s.2)).
  - destruct (v_category v =? "UNPROVISIONED"); simpl; eexists; (split; [done|]).
    + split_and!; simpl; [done|done|exact H3|apply tbl_delete_key].
    + by split_and!.
Qed.

Lemma remediate_all_removes run_id assignments vs s :
  Forall (fun v => is_Some (dict_get (v_principal_id v) assignments)) vs ->
  exists s', for_each (remediate_violation matrix run_id assignments) vs s = (Ok tt, s') /\
    removes (fun pr => existsb (fun v => removed_role assignments v pr) vs)
      (fun g => existsb (fun v => removed_grant assignments v g) vs) s.1 s'.1.
Proof.
  intros Hvs. revert s. induction Hvs as [|v vs Hv _ IH]; intros s.
  { exists s. split; [done|apply removes_nothing]. }
  destruct (remediate_violation_removes run_id assignments v s Hv) as (s1 & H1 & R1).
  destruct (IH s1) as (s2 & H2 & R2). exists s2. split.
  - simpl. by rewrite (st_bind_ok _ _ _ _ _ H1).
  - cbn [existsb]. by eapply removes_trans.
Qed.

Definition holds (db : RbacDB) (p : Principal) (perm : string) : Prop :=
  perm ∈ map snd (role_perms db (p_id p)) \/ perm ∈ direct_perms db (p_id p).

Lemma role_perms_elem db pid r perm :
  (r, perm) ∈ role_perms db pid <-> (pid, r) ∈ principal_roles db /\ (r, perm) ∈ role_permissions db.
Proof.
  unfold role_perms. rewrite elem_of_concat_map. split.
  - intros ([q r'] & [Hq Hin]%list_elem_of_filter & [Hr Hp]%list_elem_of_filter). naive_solver.
  - intros [Hin Hp]. exists (pid, r). rewrite !list_elem_of_filter. naive_solver.
Qed.

Lemma direct_perms_elem db pid perm :
  perm ∈ direct_perms db pid <-> (pid, perm) ∈ permission_grants db.
Proof.
  unfold direct_perms. rewrite (list_elem_of_fmap snd). split.
  - intros ([q x] & -> & [Hq Hin]%list_elem_of_filter). naive_solver.
  - intros Hin. exists (pid, perm). rewrite list_elem_of_filter. naive_solver.
Qed.

Lemma forbidden_elem db p v :
  v ∈ concat (map (fun perm =>
      if perm =? "*" then [forbidden_violation (p_id p) (entry_of db p) "*"]
      else map (fun _ => forbidden_violation (p_id p) (entry_of db p) perm)
             (filter (fun d => overlaps perm d = true) (forbidden_patterns matrix (p_plane p))))
    (map snd (role_perms db (p_id p)) ++ direct_perms db (p_id p))%list) <->
  exists perm, holds db p perm /\ bad matrix (p_plane p) perm = true /\
    v = forbidden_violation (p_id p) (entry_of db p) perm.
Proof.
  rewrite elem_of_concat_map. apply exist_proper. intros perm. unfold holds, bad.
  rewrite elem_of_app. apply and_iff_compat_l.
  destruct (String.eqb_spec perm "*") as [->|Hne]; cbn [orb].
  - rewrite list_elem_of_singleton. tauto.
  - rewrite (list_elem_of_fmap (fun _ => forbidden_violation _ _ perm)), existsb_exists.
    setoid_rewrite list_elem_of_filter. setoid_rewrite <- list_elem_of_In. naive_solver.
Qed.

Lemma entry_violations_elem db p v :
  v ∈ entry_violations matrix (p_id p) (entry_of db p) <->
  (is_restricted matrix (p_plane p) = true /\ exists perm, holds db p perm /\
     bad matrix (p_plane p) perm = true /\ v = forbidden_violation (p_id p) (entry_of db p) perm) \/
  (count_roles db (p_id p) = 0%nat /\ direct_perms db (p_id p) <> [] /\
     v = unprovisioned_violation (p_id p) (entry_of db p)).
Proof.
  unfold entry_violations. cbn [e_plane e_role_permissions e_direct_grants e_role_count entry_of].
  rewrite elem_of_app. f_equiv.
  - destruct (is_restricted matrix (p_plane p)); [rewrite forbidden_elem; tauto|].
    rewrite elem_of_nil. by split; [|intros []].
  - destruct (Nat.eqb_spec (count_roles db (p_id p)) 0) as [H0|H0]; cbn [andb].
    + case_bool_decide as Hd; cbn [negb]; rewrite ?elem_of_nil, ?list_elem_of_singleton; tauto.
    + rewrite elem_of_nil. tauto.
Qed.

Lemma detect_elem db v :
  NoDup (map p_id (principals db)) ->
  v ∈ detect_violations matrix (build_assignments db) <->
  exists p, p ∈ principals db /\ v ∈ entry_violations matrix (p_id p) (entry_of db p).
Proof.
  intros Hnd. unfold detect_violations. rewrite build_assignments_entries, elem_of_concat_map by done.
  setoid_rewrite (list_elem_of_fmap (fun p => (p_id p, entry_of db p))). naive_solver.
Qed.

Lemma assignments_get db p :
  NoDup (map p_id (principals db)) -> p ∈ principals db ->
  dict_get (p_id p) (build_assignments db) = Some (entry_of db p).
Proof.
  intros Hnd Hp. rewrite build_assignments_entries by done. apply dict_elem_get.
  - unfold dict_wf, dict_keys. change (NoDup (fst <$> ((fun p => (p_id p, entry_of db p)) <$> principals db))).
    by rewrite <- list_fmap_compose.
  - by apply (list_elem_of_fmap_2 (fun p => (p_id p, entry_of db p))).
Qed.

(** A role assignment is dropped when the principal's plane is restricted and
    the role carries a permission it may not have; a grant, when it is such a
    permission, or its holder has no role. *)
Definition drop_role (db : RbacDB) (pr : string * string) : bool :=
  existsb (fun p => (p_id p =? pr.1) && is_restricted matrix (p_plane p) &&
    existsb (fun rp => (rp.1 =? pr.2) && bad matrix (p_plane p) rp.2) (role_permissions db))
    (principals db).
Definition drop_grant (db : RbacDB) (g : string * string) : bool :=
  existsb (fun p => (p_id p =? g.1) &&
    (is_restricted matrix (p_plane p) && bad matrix (p_plane p) g.2
     || (count_roles db (p_id p) =? 0)%nat)) (principals db).

Lemma drop_role_exact db pr :
  NoDup (map p_id (principals db)) -> pr ∈ principal_roles db ->
  existsb (fun v => removed_role (build_assignments db) v pr)
    (detect_violations matrix (build_assignments db)) = drop_role db pr.
Proof.
  intros Hnd Hpr. apply eq_true_iff_eq. unfold drop_role. rewrite !existsb_elem. split.
  - intros (v & (p & Hp & Hv)%detect_elem & Hr); [|done]. exists p. split; [done|].
    unfold removed_role in Hr.
    apply entry_violations_elem in Hv as [(Hres & perm & _ & _ & ->)|(_ & _ & ->)];
      cbn [forbidden_violation unprovisioned_violation v_principal_id v_category] in Hr;
      rewrite assignments_get in Hr by done; [|done].
    cbn [String.eqb] in Hr. apply existsb_elem in Hr as ([r x|x] & Ha & Hr); [|done].
    simpl in Hr. rewrite !andb_true_iff, !String.eqb_eq in Hr. destruct Hr as [[Hbad Hpid] Hrole].
    rewrite Hres, Hpid, String.eqb_refl. simpl. apply existsb_elem. exists (r, x).
    rewrite Hrole, String.eqb_refl. split; [|done]. cbn [e_assignments entry_of] in Ha.
    apply elem_of_app in Ha as [Ha|Ha].
    + apply (list_elem_of_fmap (fun rp => ROLE rp.1 rp.2)) in Ha as ([r' x'] & [= -> ->] & Ha).
      by apply role_perms_elem in Ha as [_ ?].
    + by apply (list_elem_of_fmap DIRECT) in Ha as (? & ? & _).
  - intros (p & Hp & [[Hid%String.eqb_eq Hres]%andb_true_iff Hex]%andb_true_iff).
    apply existsb_elem in Hex as ([r x] & Hrx & [Hr%String.eqb_eq Hbad]%andb_true_iff).
    simpl in Hr, Hbad. destruct pr as [q r']. simpl in Hid, Hr. subst q r'.
    assert ((r, x) ∈ role_perms db (p_id p)) as Hin by (by apply role_perms_elem).
    exists (forbidden_violation (p_id p) (entry_of db p) x). split.
    + apply detect_elem; [done|]. exists p. split; [done|]. apply entry_violations_elem. left.
      split; [done|]. exists x. split_and!; [|done|done]. left.
      by apply (list_elem_of_fmap_2 snd _ (r, x)).
    + unfold removed_role. cbn [forbidden_violation v_principal_id v_category].
      rewrite assignments_get by done. apply existsb_elem. exists (ROLE r x). split.
      * cbn [e_assignments entry_of]. apply elem_of_app. left.
        by apply (list_elem_of_fmap_2 (fun rp => ROLE rp.1 rp.2) _ (r, x)).
      * simpl. by rewrite Hbad, !String.eqb_refl.
Qed.

Lemma drop_grant_exact db g :
  NoDup (map p_id (principals db)) -> g ∈ permission_grants db ->
  existsb (fun v => removed_grant (build_assignments db) v g)
    (detect_violations matrix (build_assignments db)) = drop_grant db g.
Proof.
  intros Hnd Hg. apply eq_true_iff_eq. unfold drop_grant. rewrite !existsb_elem. split.
  - intros (v & (p & Hp & Hv)%detect_elem & Hr); [|done]. exists p. split; [done|].
    unfold removed_grant in Hr.
    apply entry_violations_elem in Hv as [(Hres & perm & _ & _ & ->)|(H0 & _ & ->)];
      cbn [forbidden_violation unprovisioned_violation v_principal_id v_category] in Hr;
      rewrite assignments_get in Hr by done.
    + apply existsb_elem in Hr as ([r x|x] & _ & Hr); [done|]. simpl in Hr.
      rewrite !andb_true_iff, !String.eqb_eq in Hr. destruct Hr as [[Hbad Hpid] Hperm].
      by rewrite Hres, Hpid, String.eqb_refl, Hperm, Hbad.
    + simpl in Hr. apply String.eqb_eq in Hr. by rewrite Hr, String.eqb_refl, H0, orb_true_r.
  - intros (p & Hp & [Hid%String.eqb_eq Hcase]%andb_true_iff). destruct g as [q x].
    simpl in Hid, Hcase. subst q.
    assert (x ∈ direct_perms db (p_id p)) as Hin by (by apply direct_perms_elem).
    apply orb_true_iff in Hcase as [[Hres Hbad]%andb_true_iff|H0%Nat.eqb_eq].
    + exists (forbidden_violation (p_id p) (entry_of db p) x). split.
      * apply detect_elem; [done|]. exists p. split; [done|]. apply entry_violations_elem. left.
        split; [done|]. exists x. split_and!; [by right|done|done].
      * unfold removed_grant. cbn [forbidden_violation v_principal_id v_category].
        rewrite assignments_get by done. apply existsb_elem. exists (DIRECT x). split.
        { cbn [e_assignments entry_of]. apply elem_of_app. right.
          by apply (list_elem_of_fmap_2 DIRECT). }
        simpl. by rewrite Hbad, !String.eqb_refl.
    + exists (unprovisioned_violation (p_id p) (entry_of db p)). split.
      * apply detect_elem; [done|]. exists p. split; [done|]. apply entry_violations_elem. right.
        split_and!; [done| |done]. intros Hnil. rewrite Hnil in Hin. by apply elem_of_nil in Hin.
      * unfold removed_grant. cbn [unprovisioned_violation v_principal_id v_category].
        rewrite assignments_get by done. simpl. apply String.eqb_refl.
Qed.

Lemma sweep_spec trigger db :
  NoDup (map p_id (principals db)) ->
  exists result db', reconcile_and_remediate matrix trigger db = (Ok result, db') /\
    r_violations result = detect_violations matrix (build_assignments db) /\
    (r_alerts result = [] <-> r_violations result = []) /\
    removes (drop_role db) (drop_grant db) db db'.
Proof.
  intros Hnd. unfold reconcile_and_remediate.
  set (db1 := with_records [(trigger, None)] [] [] [] [] [] db).
  assert (NoDup (map p_id (principals db1))) as Hnd1 by done.
  change (build_assignments db) with (build_assignments db1).
  set (vs := detect_violations matrix (build_assignments db1)).
  destruct (remediate_all_removes (length (reconciliation_runs db)) (build_assignments db1) vs
    (db1, [])) as ([db2 rems] & -> & R).
  { apply list.Forall_forall. intros v (p & Hp & Hv)%detect_elem; [|done].
    exists (entry_of db1 p). rewrite <- (assignments_get db1 p Hnd1 Hp). f_equal.
    by apply entry_violations_elem in Hv as [(_ & ? & _ & _ & ->)|(_ & _ & ->)]. }
  apply (removes_ext _ _ (drop_role db1) (drop_grant db1)) in R.
  2:{ intros pr Hpr. by apply drop_role_exact. }
  2:{ intros g Hg. by apply drop_grant_exact. }
  change (drop_role db1) with (drop_role db) in R. change (drop_grant db1) with (drop_grant db) in R.
  destruct vs as [|v vs]; (eexists _, _; split; [done|]; cbn [r_violations r_alerts];
    split; [done|]; split; [done|exact R]).
Qed.

Lemma removes_role_perms dr dg db db' pid r perm :
  removes dr dg db db' -> (r, perm) ∈ role_perms db' pid <->
  (r, perm) ∈ role_perms db pid /\ dr (pid, r) = false.
Proof.
  intros (_ & Hrp & Hr & _). rewrite !role_perms_elem, Hrp, Hr, tbl_delete_elem. tauto.
Qed.

Lemma removes_direct_perms dr dg db db' pid perm :
  removes dr dg db db' -> perm ∈ direct_perms db' pid <->
  perm ∈ direct_perms db pid /\ dg (pid, perm) = false.
Proof. intros (_ & _ & _ & Hg). rewrite !direct_perms_elem, Hg, tbl_delete_elem. tauto. Qed.

(** After a sweep nobody on a restricted plane holds what it may not. *)
Lemma sweep_no_forbidden db db' p perm :
  removes (drop_role db) (drop_grant db) db db' ->
  p ∈ principals db -> is_restricted matrix (p_plane p) = true ->
  holds db' p perm -> bad matrix (p_plane p) perm = false.
Proof.
  intros R Hp Hres [Hr|Hd]; apply not_true_is_false; intros Hbad.
  - apply (list_elem_of_fmap snd) in Hr as ([r x] & -> & Hin). simpl in Hbad.
    apply (removes_role_perms _ _ _ _ _ _ _ R) in Hin as [[_ Hrp]%role_perms_elem Hdrop].
    apply not_true_iff_false in Hdrop. apply Hdrop, existsb_elem. exists p. split; [done|].
    simpl. rewrite String.eqb_refl, Hres. apply existsb_elem. exists (r, x).
    simpl. by rewrite String.eqb_refl, Hbad.
  - apply (removes_direct_perms _ _ _ _ _ _ R) in Hd as [_ Hdrop].
    apply not_true_iff_false in Hdrop. apply Hdrop, existsb_elem. exists p. split; [done|].
    simpl. by rewrite String.eqb_refl, Hres, Hbad.
Qed.

Lemma second_sweep_keeps_roles db db' :
  removes (drop_role db) (drop_grant db) db db' ->
  tbl_delete (drop_role db') (principal_roles db') = principal_roles db'.
Proof.
  intros R. pose proof R as (Hp & Hrp & _).
  rewrite (tbl_delete_ext _ (fun _ => false)); [by destruct (removes_nothing db') as (_ & _ & <- & _)|].
  intros [q r] Hin. apply not_true_is_false. intros (p & Hpp & Hdrop)%existsb_elem.
  rewrite !andb_true_iff in Hdrop. destruct Hdrop as [[Hid%String.eqb_eq Hres] Hex]. simpl in Hid.
  apply existsb_elem in Hex as ([r' x] & Hrx & [Hr%String.eqb_eq Hbad]%andb_true_iff).
  simpl in Hr, Hbad. subst q r'. rewrite Hp in Hpp.
  enough (bad matrix (p_plane p) x = false) by congruence.
  apply (sweep_no_forbidden db db' p x R Hpp Hres). left.
  apply (list_elem_of_fmap_2 snd _ (r, x)). by apply role_perms_elem.
Qed.

Lemma two_sweeps_quiet db db' db'' :
  NoDup (map p_id (principals db)) ->
  removes (drop_role db) (drop_grant db) db db' ->
  removes (drop_role db') (drop_grant db') db' db'' ->
  detect_violations matrix (build_assignments db'') = [].
Proof.
  intros Hnd R R'. pose proof R as (Hp & _). pose proof R' as (Hp' & _ & Hroles & _).
  rewrite (second_sweep_keeps_roles db db' R) in Hroles.
  apply elem_of_nil_inv. intros v (p & Hpp & Hv)%detect_elem; [|by rewrite Hp', Hp].
  rewrite Hp', Hp in Hpp.
  apply entry_violations_elem in Hv as [(Hres & perm & Hh & Hbad & _)|(H0 & Hne & _)].
  - enough (bad matrix (p_plane p) perm = false) by congruence.
    apply (sweep_no_forbidden db db' p perm R Hpp Hres). destruct Hh as [Hr|Hd].
    + left. apply (list_elem_of_fmap snd) in Hr as ([r x] & -> & Hin).
      apply (removes_role_perms _ _ _ _ _ _ _ R') in Hin as [Hin _].
      by apply (list_elem_of_fmap_2 snd _ (r, x)).
    + right. by apply (removes_direct_perms _ _ _ _ _ _ R') in Hd as [Hd _].
  - apply Hne, elem_of_nil_inv. intros x Hx.
    apply (removes_direct_perms _ _ _ _ _ _ R') in Hx as [_ Hdrop].
    apply not_true_iff_false in Hdrop. apply Hdrop, existsb_elem. exists p. rewrite Hp.
    split; [done|]. simpl. rewrite String.eqb_refl. simpl.
    assert (count_roles db' (p_id p) = 0%nat) as ->; [|apply orb_true_r].
    rewrite <- H0. unfold count_roles. by rewrite Hroles.
Qed.
End Effects.

(** ** Properties *)

(** C11: a sweep completes, whatever the tables hold, and removes exactly what it
    should: the role assignments that give a principal of a restricted plane a
    permission its plane may not have, the direct grants of such permissions,
    and the direct grants of principals without a role.  Principals, roles and
    every other assignment stay as they were, and an alert is raised exactly
    when a violation was found. *)
Theorem sweep_removes_exactly matrix trigger db :
  NoDup (map p_id (principals db)) ->
  exists result db', reconcile_and_remediate matrix trigger db = (Ok result, db') /\
    (r_alerts result = [] <-> r_violations result = []) /\
    principals db' = principals db /\ role_permissions db' = role_permissions db /\
    (forall pid r, (pid, r) ∈ principal_roles db' <-> (pid, r) ∈ principal_roles db /\
       ~ (exists p perm, p ∈ principals db /\ p_id p = pid /\
            is_restricted matrix (p_plane p) = true /\ (r, perm) ∈ role_permissions db /\
            bad matrix (p_plane p) perm = true)) /\
    (forall pid perm, (pid, perm) ∈ permission_grants db' <-> (pid, perm) ∈ permission_grants db /\
       ~ (exists p, p ∈ principals db /\ p_id p = pid /\
            (is_restricted matrix (p_plane p) = true /\ bad matrix (p_plane p) perm = true \/
             count_roles db pid = 0%nat))).
Proof.
  intros Hnd. destruct (sweep_spec matrix trigger db Hnd) as (result & db' & Hrun & Hv & Ha & R).
  exists result, db'. destruct R as (Hp & Hrp & Hr & Hg). split_and!; try done.
  - intros pid r. rewrite Hr, tbl_delete_elem, <- not_true_iff_false. apply and_iff_compat_l, not_iff_compat.
    unfold drop_role. rewrite existsb_elem. split.
    + intros (p & Hpp & Hd). rewrite !andb_true_iff, existsb_elem in Hd.
      destruct Hd as [[Hid%String.eqb_eq Hres] ([r' x] & Hin & Hx)].
      apply andb_true_iff in Hx as [Heq%String.eqb_eq Hbad]. simpl in *. subst. by exists p, x.
    + intros (p & x & Hpp & <- & Hres & Hin & Hbad). exists p. split; [done|]. simpl.
      rewrite String.eqb_refl, Hres. apply existsb_elem. exists (r, x). simpl.
      by rewrite String.eqb_refl, Hbad.
  - intros pid perm. rewrite Hg, tbl_delete_elem, <- not_true_iff_false. apply and_iff_compat_l, not_iff_compat.
    unfold drop_grant. rewrite existsb_elem. apply exist_proper. intros p. simpl.
    rewrite andb_true_iff, orb_true_iff, andb_true_iff, String.eqb_eq, Nat.eqb_eq. naive_solver.
Qed.

Definition demo_db : RbacDB :=
  {| principals := [{| p_id := "1"; p_plane := "AI"; p_subject := "model-runner" |};
                    {| p_id := "2"; p_plane := "TRADING"; p_subject := "oms" |}];
     principal_roles := [("1", "ai"); ("2", "exec"); ("1", "exec")];
     role_permissions := [("ai", "model:read"); ("exec", "execution:submit"); ("exec", "position:read")];
     permission_grants := [("1", "broker:read"); ("1", "feature:read"); ("2", "risk:read")];
     reconciliation_runs := []; rbac_violations := []; rbac_remediations := []; rbac_audit := [];
     rbac_alerts := []; rbac_denials := [] |}.

Lemma demo_db_ids : NoDup (map p_id (principals demo_db)).
Proof. apply (bool_decide_eq_true (NoDup (map p_id (principals demo_db)))). by vm_compute. Qed.

Lemma sweep_removes_exactly_witness :
  exists result db', reconcile_and_remediate forbidden_matrix "SCHEDULED" demo_db = (Ok result, db')
    /\ principals db' = principals demo_db
    /\ principal_roles db' = [("1", "ai"); ("2", "exec")]
    /\ permission_grants db' = [("1", "feature:read"); ("2", "risk:read")]
    /\ r_remediations result = ["AUTO_REVOKE_ROLE:execution:submit"; "AUTO_REVOKE_GRANT:broker:read";
                                "AUTO_REVOKE_ROLE:execution:submit"; "AUTO_REVOKE_GRANT:broker:read"].
Proof.
  destruct (sweep_removes_exactly forbidden_matrix "SCHEDULED" demo_db demo_db_ids)
    as (result & db' & Hrun & _ & Hp & _). exists result, db'. split; [done|]. split; [done|].
  vm_compute in Hrun. injection Hrun as <- <-. by vm_compute.
Defined.

(** Sweeping converges: after one sweep no principal of a restricted plane
    holds a forbidden permission, by role or directly; a second sweep finds at
    most the principals the first one left without a role; and a third finds
    nothing and raises no alert. *)
Theorem sweeps_converge matrix trigger db :
  NoDup (map p_id (principals db)) ->
  exists r1 db1 r2 db2 r3 db3,
    reconcile_and_remediate matrix trigger db = (Ok r1, db1) /\
    reconcile_and_remediate matrix trigger db1 = (Ok r2, db2) /\
    reconcile_and_remediate matrix trigger db2 = (Ok r3, db3) /\
    (forall p perm, p ∈ principals db1 -> is_restricted matrix (p_plane p) = true ->
       holds db1 p perm -> bad matrix (p_plane p) perm = false) /\
    (forall v, v ∈ r_violations r2 -> v_category v = "UNPROVISIONED") /\
    r_violations r3 = [] /\ r_alerts r3 = [].
Proof.
  intros Hnd. destruct (sweep_spec matrix trigger db Hnd) as (r1 & db1 & H1 & _ & _ & R1).
  pose proof R1 as (Hp1 & _). assert (NoDup (map p_id (principals db1))) as Hnd1 by (by rewrite Hp1).
  destruct (sweep_spec matrix trigger db1 Hnd1) as (r2 & db2 & H2 & Hv2 & _ & R2).
  pose proof R2 as (Hp2 & _). assert (NoDup (map p_id (principals db2))) as Hnd2 by (by rewrite Hp2).
  destruct (sweep_spec matrix trigger db2 Hnd2) as (r3 & db3 & H3 & Hv3 & Ha3 & _).
  rewrite (two_sweeps_quiet matrix db db1 db2 Hnd R1 R2) in Hv3.
  exists r1, db1, r2, db2, r3, db3. split_and!; try done; [| |by apply Ha3].
  - intros p perm Hp. apply (sweep_no_forbidden matrix db); [done|by rewrite <- Hp1].
  - intros v. rewrite Hv2. intros (p & Hp & Hv)%detect_elem; [|done].
    apply entry_violations_elem in Hv as [(Hres & perm & Hh & Hbad & _)|(_ & _ & ->)]; [|done].
    rewrite Hp1 in Hp. pose proof (sweep_no_forbidden matrix db db1 p perm R1 Hp Hres Hh). congruence.
Qed.

Lemma sweeps_converge_witness :
  exists r1 db1, reconcile_and_remediate forbidden_matrix "ON_DEMAND" demo_db = (Ok r1, db1)
    /\ forall p perm, p ∈ principals db1 -> is_restricted forbidden_matrix (p_plane p) = true ->
         holds db1 p perm -> bad forbidden_matrix (p_plane p) perm = false.
Proof.
  destruct (sweeps_converge forbidden_matrix "ON_DEMAND" demo_db demo_db_ids)
    as (r1 & db1 & _ & _ & _ & _ & H1 & _ & _ & Hsafe & _).
  exists r1, db1. split; [exact H1|exact Hsafe].
Defined.

(** A denial is always recorded, and it is an anomaly exactly when the subject
    has had more than fifty in the second that ends with it. *)
Theorem log_denial_rate subject now db :
  exists anomaly db', log_denial subject now db = (Ok anomaly, db') /\
    rbac_denials db' = (rbac_denials db ++ [(subject, now)])%list /\
    (anomaly = true <-> exists s, subject = Some s /\
       (50 <= length (tbl_select (is_recent subject now) (rbac_denials db)))%nat) /\
    (anomaly = false -> rbac_alerts db' = rbac_alerts db).
Proof.
  unfold log_denial, recent_denials.
  set (db1 := with_records [] [] [] [] [] [(subject, now)] db).
  assert (length (tbl_select (is_recent subject now) (rbac_denials db1))
    = length (tbl_select (is_recent subject now) (rbac_denials db))
      + if subject then 1 else 0)%nat as ->.
  { cbn [rbac_denials with_records db1]. rewrite tbl_select_app, length_app. f_equal.
    unfold tbl_select. rewrite filter_cons, filter_nil. destruct subject as [s|]; [|done].
    simpl. rewrite String.eqb_refl, (proj2 (Z.ltb_lt _ _)) by lia. done. }
  assert (subject = None -> tbl_select (is_recent subject now) (rbac_denials db) = []) as Hnone.
  { intros ->. apply elem_of_nil_inv. by intros d [_ ?]%tbl_select_elem. }
  eexists _, _. split; [done|]. split_and!.
  - destruct (_ <? _)%nat; [|done]. cbn [rbac_denials with_records]. by rewrite app_nil_r.
  - unfold DENIAL_RATE_LIMIT_PER_SEC. rewrite Nat.ltb_lt. destruct subject as [s|].
    + split; [intros; exists s; split; [done|lia]|intros (? & _ & ?); lia].
    + rewrite Hnone by done. simpl. split; [lia|by intros (? & ? & _)].
  - destruct (_ <? _)%nat; simpl; by rewrite ?app_nil_r.
Qed.
