(* ===== verification/AuditTrail.v ===== *)
(** The audit trail: [hashing.py], [redaction.py], [models.py] and the store of
    [repository.py] of apexquant-audit, with the columns, checks and unique
    indexes of 0001_audit.sql.

    [sha256] stands for [hashlib.sha256(...).hexdigest()].  Timestamps are UTC
    and are given by their calendar fields; the session of the database is in
    UTC.  [append_event] holds an advisory lock for its whole transaction, so
    appends are one step each. *)
From stdpp Require Import base strings list gmap pretty numbers.
From Stdlib Require Import Ascii.
From S2P Require Import Prelude PyStr Json.

(** ** redaction.py *)

Definition SECRET_KEY_MARKERS : list string :=
  ["password"; "secret"; "token"; "api_key"; "apikey"; "private_key"; "credential";
   "access_key"; "authorization"].
Definition REDACTED : string := "[REDACTED]".

Definition is_secret_key (key : string) : bool :=
  existsb (fun marker => str_contains marker (str_lower key)) SECRET_KEY_MARKERS.

Fixpoint redact_data (value : json) : json :=
  match value with
  | JDict d =>
      JDict (map (fun kv => if is_secret_key kv.1 then (kv.1, JStr REDACTED)
                            else (kv.1, redact_data kv.2)) d)
  | JList l => JList (map redact_data l)
  | _ => value
  end.

(** ** hashing.py *)

Definition GENESIS_HASH : string :=
  "0000000000000000000000000000000000000000000000000000000000000000".
Definition AUDIT_SCHEMA_VERSION : Z := 1.

Record datetime := {
  year : N; month : N; day : N; hour : N; minute : N; second : N; microsecond : N }.
#[export] Instance datetime_eq_dec : EqDecision datetime.
Proof. solve_decision. Defined.

Record AuditFields := {
  event_id : string;
  occurred_at : datetime;
  actor_type : string;
  actor_id : option string;
  principal_name : option string;
  service_name : string;
  plane : string;
  action : string;
  resource_type : string;
  resource_id : string;
  decision : string;
  reason : string;
  severity : string;
  request_id : option string;
  correlation_id : option string;
  trace_id : option string;
  idempotency_key : option string;
  data : json
}.

(** Zero-padded decimal of a fixed width. *)
Definition digit_char (n : N) : ascii := ascii_of_N (48 + n).
Fixpoint padded (width : nat) (n : N) : string :=
  match width with
  | O => ""
  | S w => padded w (n / 10) ++ String (digit_char (n mod 10)) ""
  end.

(** [value.strftime("%Y-%m-%dT%H:%M:%S.%fZ")], for years of four digits. *)
Definition format_timestamp (t : datetime) : string :=
  padded 4 (year t) ++ "-" ++ padded 2 (month t) ++ "-" ++ padded 2 (day t) ++ "T"
  ++ padded 2 (hour t) ++ ":" ++ padded 2 (minute t) ++ ":" ++ padded 2 (second t) ++ "."
  ++ padded 6 (microsecond t) ++ "Z".

Definition jopt (o : option string) : json := match o with Some s => JStr s | None => JNull end.

Definition canonical_payload (f : AuditFields) (prev_hash : string) : json :=
  JDict [("audit_schema_version", JNum AUDIT_SCHEMA_VERSION);
         ("event_id", JStr (event_id f));
         ("occurred_at", JStr (format_timestamp (occurred_at f)));
         ("actor_type", JStr (actor_type f));
         ("actor_id", jopt (actor_id f));
         ("principal_name", jopt (principal_name f));
         ("service_name", JStr (service_name f));
         ("plane", JStr (plane f));
         ("action", JStr (action f));
         ("resource_type", JStr (resource_type f));
         ("resource_id", JStr (resource_id f));
         ("decision", JStr (decision f));
         ("reason", JStr (reason f));
         ("severity", JStr (severity f));
         ("request_id", jopt (request_id f));
         ("correlation_id", jopt (correlation_id f));
         ("trace_id", jopt (trace_id f));
         ("idempotency_key", jopt (idempotency_key f));
         ("data", data f);
         ("prev_hash", JStr prev_hash)].

(** The serialized text that is hashed. *)
Definition serialized (f : AuditFields) (prev_hash : string) : string :=
  dumps canonical (canonical_payload f prev_hash).

(** A row of audit.events. *)
Record EventRow := {
  event_seq : Z;
  row_fields : AuditFields;
  prev_hash : string;
  event_hash : string
}.

Record ChainViolation := { cv_event_seq : Z; cv_type : string; cv_detail : string }.
Record ChainReport := { cr_ok : bool; cr_events_checked : nat; cr_violations : list ChainViolation }.

(** ** models.py *)

Inductive ActorType := SERVICE | USER | SYSTEM.
Inductive Decision_ := ALLOW | DENY | SUCCESS | FAILURE | D_INFO.
Inductive Severity := DEBUG | S_INFO | WARNING | CRITICAL.

Definition actor_value (a : ActorType) : string :=
  match a with SERVICE => "SERVICE" | USER => "USER" | SYSTEM => "SYSTEM" end.
Definition decision_value (d : Decision_) : string :=
  match d with
  | ALLOW => "ALLOW" | DENY => "DENY" | SUCCESS => "SUCCESS" | FAILURE => "FAILURE"
  | D_INFO => "INFO"
  end.
Definition severity_value (s : Severity) : string :=
  match s with
  | DEBUG => "DEBUG" | S_INFO => "INFO" | WARNING => "WARNING" | CRITICAL => "CRITICAL" end.

Record AuditEventRequest := {
  rq_event_id : option string;
  rq_occurred_at : option datetime;
  rq_actor_type : ActorType;
  rq_actor_id : option string;
  rq_principal_name : option string;
  rq_service_name : string;
  rq_plane : string;
  rq_action : string;
  rq_resource_type : string;
  rq_resource_id : string;
  rq_decision : Decision_;
  rq_reason : string;
  rq_severity : Severity;
  rq_request_id : option string;
  rq_correlation_id : option string;
  rq_trace_id : option string;
  rq_idempotency_key : option string;
  rq_data : json
}.

Inductive audit_exc :=
| ValueError (message : string)
| AuditRepositoryError (message : string)
| EDatabase (constraint : string).

Definition enforce_audit_policy (r : AuditEventRequest) : result audit_exc AuditEventRequest :=
  if str_empty (strip (rq_service_name r)) then Err (ValueError "service_name must not be empty")
  else if str_empty (strip (rq_plane r)) then Err (ValueError "plane must not be empty")
  else if str_empty (strip (rq_action r)) then Err (ValueError "action must not be empty")
  else Ok r.

(** [to_fields]; [uuid4] and [now] are what the generator and the clock give. *)
Definition to_fields (uuid4 : string) (now : datetime) (r : AuditEventRequest) : AuditFields :=
  {| event_id := default uuid4 (rq_event_id r);
     occurred_at := default now (rq_occurred_at r);
     actor_type := actor_value (rq_actor_type r);
     actor_id := rq_actor_id r;
     principal_name := rq_principal_name r;
     service_name := strip (rq_service_name r);
     plane := strip (rq_plane r);
     action := strip (rq_action r);
     resource_type := strip (rq_resource_type r);
     resource_id := strip (rq_resource_id r);
     decision := decision_value (rq_decision r);
     reason := rq_reason r;
     severity := severity_value (rq_severity r);
     request_id := rq_request_id r;
     correlation_id := rq_correlation_id r;
     trace_id := rq_trace_id r;
     idempotency_key := rq_idempotency_key r;
     data := rq_data r |}.

(** ** repository.py *)

(** A row of audit.event_delivery and one of audit.integrity_checks. *)
Record Delivery := { published_at : option Z; attempts : Z; last_error : option string }.
Record IntegrityCheck := {
  ic_start : option Z; ic_end : option Z; ic_report : ChainReport }.

Record AuditStore := {
  events : list EventRow;
  next_seq : Z;
  deliveries : gmap Z Delivery;
  integrity_checks : list IntegrityCheck
}.
Definition empty_store : AuditStore :=
  {| events := []; next_seq := 1; deliveries := ∅; integrity_checks := [] |}.

Record AuditEventRecord := {
  ar_event_seq : Z; ar_event_id : string; ar_occurred_at : datetime; ar_event_hash : string }.
Definition record_of (r : EventRow) : AuditEventRecord :=
  {| ar_event_seq := event_seq r; ar_event_id := event_id (row_fields r);
     ar_occurred_at := occurred_at (row_fields r); ar_event_hash := event_hash r |}.

(** The CHECKs of audit.events. *)
Definition checks (f : AuditFields) (prev hash : string) : bool :=
  bool_decide (actor_type f ∈ ["SERVICE"; "USER"; "SYSTEM"])
  && bool_decide (decision f ∈ ["ALLOW"; "DENY"; "SUCCESS"; "FAILURE"; "INFO"])
  && bool_decide (severity f ∈ ["DEBUG"; "INFO"; "WARNING"; "CRITICAL"])
  && not_blank (service_name f) && not_blank (plane f) && not_blank (action f)
  && checksum_format hash && checksum_format prev.

(** audit_events_idempotency_uq *)
Definition same_idempotency (f : AuditFields) (r : EventRow) : bool :=
  match idempotency_key f, idempotency_key (row_fields r) with
  | Some k, Some k' => (service_name f =? service_name (row_fields r)) && (k =? k')
  | _, _ => false
  end.

(** [ORDER BY event_seq] *)
Definition by_seq (a b : EventRow) : bool := (event_seq a <? event_seq b)%Z.
Definition newest (l : list EventRow) : option EventRow := head (py_sorted_rev by_seq l).

(** [max(1, min(limit, top))] *)
Definition clamp (top limit : Z) : nat := Z.to_nat (Z.max 1 (Z.min limit top)).

Definition burn_seq (s : AuditStore) : AuditStore :=
  {| events := events s; next_seq := next_seq s + 1; deliveries := deliveries s;
     integrity_checks := integrity_checks s |}.
Definition insert_row (r : EventRow) (s : AuditStore) : AuditStore :=
  {| events := (events s ++ [r])%list; next_seq := next_seq s + 1; deliveries := deliveries s;
     integrity_checks := integrity_checks s |}.

Section Chain.
Variable sha256 : string -> string.

Definition compute_event_hash (f : AuditFields) (prev : string) : string :=
  sha256 (serialized f prev).

(** One round of the loop of [verify_chain]: the previous hash, the sequence
    number expected, the violations so far. *)
Definition check_row (acc : string * option Z * list ChainViolation) (row : EventRow)
    : string * option Z * list ChainViolation :=
  let '(prev, expected_seq, violations) := acc in
  let expected := default (event_seq row) expected_seq in
  let v1 := if (event_seq row =? expected)%Z then []
            else [{| cv_event_seq := event_seq row; cv_type := "SEQUENCE_GAP";
                     cv_detail := "expected " ++ pretty expected ++ ", found "
                                    ++ pretty (event_seq row) |}] in
  let v2 := if prev_hash row =? prev then []
            else [{| cv_event_seq := event_seq row; cv_type := "PREV_HASH_MISMATCH";
                     cv_detail := "previous hash does not match expected chain value" |}] in
  let v3 := if event_hash row =? compute_event_hash (row_fields row) prev then []
            else [{| cv_event_seq := event_seq row; cv_type := "EVENT_HASH_MISMATCH";
                     cv_detail := "event hash does not match canonical recomputation" |}] in
  (event_hash row,
   Some ((if (expected =? 0)%Z then event_seq row else expected) + 1)%Z,
   (violations ++ v1 ++ v2 ++ v3)%list).

Definition verify_chain (rows : list EventRow) (initial_prev_hash : string) : ChainReport :=
  let '(_, _, violations) := foldl check_row (initial_prev_hash, None, []) rows in
  {| cr_ok := (length violations =? 0)%nat; cr_events_checked := length rows;
     cr_violations := violations |}.

(** [append_event].  The identity column draws its value for the proposed row,
    whether or not the row is kept. *)
Definition append_event (f : AuditFields) : st AuditStore audit_exc AuditEventRecord := fun s =>
  let prev := match newest (events s) with Some r => event_hash r | None => GENESIS_HASH end in
  let hash := compute_event_hash f prev in
  if negb (checks f prev hash) then (Err (EDatabase "audit_events_check"), burn_seq s)
  else match tbl_find (fun r => event_id (row_fields r) =? event_id f) (events s) with
  | Some existing => (Ok (record_of existing), burn_seq s)
  | None =>
      if existsb (same_idempotency f) (events s)
      then (Err (EDatabase "audit_events_idempotency_uq"), burn_seq s)
      else
        let row := {| event_seq := next_seq s; row_fields := f; prev_hash := prev;
                      event_hash := hash |} in
        (Ok (record_of row), insert_row row s)
  end.
End Chain.

(** [if service_name: ...]: an empty filter is no filter. *)
Definition wanted (filter_value : option string) (field : option string) : bool :=
  match filter_value with
  | Some v => str_empty v || match field with Some x => x =? v | None => false end
  | None => true
  end.

Definition fetch_events (limit : Z) (service action_ request : option string)
    : st AuditStore audit_exc (list EventRow) := fun s =>
  (Ok (take (clamp 1000 limit) (py_sorted_rev by_seq
         (tbl_select (fun r => wanted service (Some (service_name (row_fields r)))
                        && wanted action_ (Some (action (row_fields r)))
                        && wanted request (request_id (row_fields r))) (events s)))), s).

Definition fetch_verification_range (start_seq end_seq : option Z) (limit : Z)
    : st AuditStore audit_exc (string * list EventRow) := fun s =>
  let rows start :=
    take (clamp 10000 limit) (py_sorted by_seq
      (tbl_select (fun r => (start <=? event_seq r)%Z
                     && match end_seq with Some e => (event_seq r <=? e)%Z | None => true end)
         (events s))) in
  match start_seq with
  | Some start =>
      if (start <=? 1)%Z then (Ok (GENESIS_HASH, rows 1%Z), s)
      else match tbl_find (fun r => event_seq r =? start - 1)%Z (events s) with
      | None => (Err (AuditRepositoryError ("cannot verify from sequence " ++ pretty start
                        ++ ": previous event missing")), s)
      | Some r => (Ok (event_hash r, rows start), s)
      end
  | None => (Ok (GENESIS_HASH, rows 1%Z), s)
  end.

(** [LEFT JOIN audit.event_delivery ... WHERE d.published_at IS NULL] *)
Definition unpublished (s : AuditStore) (r : EventRow) : bool :=
  match deliveries s !! event_seq r with
  | Some d => bool_decide (published_at d = None)
  | None => true
  end.
Definition fetch_unpublished (limit : Z) : st AuditStore audit_exc (list EventRow) := fun s =>
  (Ok (take (clamp 1000 limit) (py_sorted by_seq (tbl_select (unpublished s) (events s)))), s).

Definition record_delivery (seq : Z) (success : bool) (error : option string) (now : Z)
    : st AuditStore audit_exc unit := fun s =>
  if negb (existsb (fun r => (event_seq r =? seq)%Z) (events s))
  then (Err (EDatabase "event_delivery_event_seq_fkey"), s)
  else
    let d := match deliveries s !! seq with
             | None => {| published_at := if success then Some now else None; attempts := 1;
                          last_error := error |}
             | Some old => {| published_at := if success then Some now else published_at old;
                              attempts := attempts old + 1; last_error := error |}
             end in
    (Ok tt, {| events := events s; next_seq := next_seq s;
               deliveries := <[seq := d]> (deliveries s);
               integrity_checks := integrity_checks s |}).

Definition record_integrity_check (start_seq end_seq : option Z) (report : ChainReport)
    : st AuditStore audit_exc unit := fun s =>
  (Ok tt, {| events := events s; next_seq := next_seq s; deliveries := deliveries s;
             integrity_checks := (integrity_checks s ++
               [{| ic_start := start_seq; ic_end := end_seq; ic_report := report |}])%list |}).

(** ** The endpoints of app.py that ingest and verify *)

Definition with_data (f : AuditFields) (d : json) : AuditFields :=
  {| event_id := event_id f; occurred_at := occurred_at f; actor_type := actor_type f;
     actor_id := actor_id f; principal_name := principal_name f; service_name := service_name f;
     plane := plane f; action := action f; resource_type := resource_type f;
     resource_id := resource_id f; decision := decision f; reason := reason f;
     severity := severity f; request_id := request_id f; correlation_id := correlation_id f;
     trace_id := trace_id f; idempotency_key := idempotency_key f; data := d |}.

Section App.
Variable sha256 : string -> string.
(** The Kafka publisher, [None] when it is not enabled. *)
Variable publisher : option (EventRow -> bool * option string).

(** [enforce_audit_policy] is a validator of the request's model: it has passed
    before the handler runs. *)
Definition ingest_audit_event (uuid4 : string) (now : datetime) (db_now : Z)
    (payload : AuditEventRequest) : st AuditStore audit_exc AuditEventRecord :=
  payload ← lift (enforce_audit_policy payload);
  record ← append_event sha256 (with_data (to_fields uuid4 now payload) (redact_data (rq_data payload)));
  match publisher with
  | None => mret record
  | Some publish =>
      rows ← fetch_events 1 None None (Some (ar_event_id record));
      match rows with
      | [] => mret record
      | r :: _ =>
          let '(ok, error) := publish r in
          record_delivery (ar_event_seq record) ok error db_now ≫= fun _ =>
          mret record
      end
  end.

(** One round of [relay_loop]. *)
Definition relay_round (publish : EventRow -> bool * option string) (now : Z)
    : st AuditStore audit_exc unit :=
  rows ← fetch_unpublished 100;
  for_each (fun r => record_delivery (event_seq r) (publish r).1 (publish r).2 now) rows.

Definition verify_audit_chain (start_seq end_seq : option Z) (limit : Z)
    : st AuditStore audit_exc ChainReport :=
  range ← fetch_verification_range start_seq end_seq limit;
  let report := verify_chain sha256 range.2 range.1 in
  record_integrity_check start_seq end_seq report ≫= fun _ => mret report.
End App.
