(* ===== verification/AuditProps.v ===== *)
(** Correctness of the audit trail: an honest log verifies, a verified log
    cannot have been altered, and no secret reaches it. *)
From stdpp Require Import base strings list gmap pretty numbers sorting.
From Stdlib Require Import Ascii Sorted.
From S2P Require Import Prelude PyStr Json AuditTrail.

(** ** Redaction *)

(** The entry [k: v] occurs in a value, at any depth. *)
Inductive occurs (k : string) (v : json) : json -> Prop :=
| occurs_here d : (k, v) ∈ d -> occurs k v (JDict d)
| occurs_dict d k' x : (k', x) ∈ d -> occurs k v x -> occurs k v (JDict d)
| occurs_list l x : x ∈ l -> occurs k v x -> occurs k v (JList l).

Lemma redact_hides k v j :
  is_secret_key k = true -> occurs k v (redact_data j) -> v = JStr REDACTED.
Proof.
  intros Hk. induction j as [|b|n|s|l Hl|d Hd] using json_induction; simpl; intros Ho;
    inversion Ho as [d' Hin|d' k' x Hin Hx|l' x Hin Hx]; subst.
  - apply (list_elem_of_fmap redact_data) in Hin as (y & Heq & Hy).
    subst x. rewrite list.Forall_forall in Hl. by apply (Hl y).
  - apply (list_elem_of_fmap (fun kv => if is_secret_key kv.1 then (kv.1, JStr REDACTED)
      else (kv.1, redact_data kv.2))) in Hin as ([k' y] & Heq & Hy). simpl in Heq.
    destruct (is_secret_key k') eqn:Hs; [congruence|].
    assert (k = k') by congruence. congruence.
  - apply (list_elem_of_fmap (fun kv => if is_secret_key kv.1 then (kv.1, JStr REDACTED)
      else (kv.1, redact_data kv.2))) in Hin as ([k0 y] & Heq & Hy). simpl in Heq.
    rewrite list.Forall_forall in Hd. destruct (is_secret_key k0); injection Heq as -> ->.
    + by inversion Hx.
    + by apply (Hd _ Hy).
Qed.

Lemma redact_idempotent j : redact_data (redact_data j) = redact_data j.
Proof.
  induction j as [|b|n|s|l Hl|d Hd] using json_induction; try done; simpl; f_equal;
    rewrite map_map; apply map_ext_in; intros x Hx%list_elem_of_In.
  - rewrite list.Forall_forall in Hl. by apply Hl.
  - rewrite list.Forall_forall in Hd. destruct (is_secret_key x.1) eqn:Hs; simpl; rewrite Hs; [done|].
    f_equal. by apply Hd.
Qed.

Lemma redact_keeps j :
  (forall k v, occurs k v j -> is_secret_key k = false) -> redact_data j = j.
Proof.
  induction j as [|b|n|s|l Hl|d Hd] using json_induction; try done; intros Hno; simpl; f_equal.
  - rewrite list.Forall_forall in Hl. rewrite <- (map_id l) at 2. apply map_ext_in.
    intros x Hx%list_elem_of_In. apply Hl; [done|]. intros k v Ho. apply (Hno k v).
    by apply (occurs_list _ _ _ x).
  - rewrite list.Forall_forall in Hd. rewrite <- (map_id d) at 2. apply map_ext_in.
    intros [k x] Hx%list_elem_of_In. simpl.
    rewrite (Hno k x) by (by apply occurs_here). f_equal. apply (Hd _ Hx).
    intros k' v Ho. apply (Hno k' v). by apply (occurs_dict _ _ _ k x).
Qed.

(** ** Timestamps *)

Lemma padded_length w n : String.length (padded w n) = w.
Proof.
  revert n. induction w as [|w IH]; intros n; [done|]. simpl. rewrite length_app_str, IH. simpl. lia.
Qed.

Lemma app_inv_length a b c d :
  a ++ b = c ++ d -> String.length a = String.length c -> a = c /\ b = d.
Proof.
  revert c. induction a as [|x a IH]; intros [|y c]; simpl; try done.
  intros [= -> H] [= Hl]. by destruct (IH c H Hl) as [-> ->].
Qed.

Lemma digit_char_inj a b : (a < 10)%N -> (b < 10)%N -> digit_char a = digit_char b -> a = b.
Proof.
  unfold digit_char. intros Ha Hb He.
  apply (f_equal N_of_ascii) in He. rewrite !N_ascii_embedding in He by lia. lia.
Qed.

Lemma padded_inj w a b :
  (a < 10 ^ N.of_nat w)%N -> (b < 10 ^ N.of_nat w)%N -> padded w a = padded w b -> a = b.
Proof.
  revert a b. induction w as [|w IH]; intros a b Ha Hb He.
  { simpl in Ha, Hb. lia. }
  rewrite Nat2N.inj_succ, N.pow_succ_r' in Ha, Hb. simpl in He.
  apply app_inv_length in He as [He Hd]; [|by rewrite !padded_length].
  injection Hd as Hd. apply digit_char_inj in Hd; [|by apply N.mod_lt..].
  apply IH in He; [|apply N.Div0.div_lt_upper_bound; lia..].
  rewrite (N.div_mod a 10), (N.div_mod b 10), He, Hd by done. done.
Qed.

(** A calendar date within the years of four digits. *)
Definition datetime_ok (t : datetime) : Prop :=
  (1000 <= year t < 10000 /\ month t < 100 /\ day t < 100 /\ hour t < 100 /\ minute t < 100
   /\ second t < 100 /\ microsecond t < 1000000)%N.

Lemma format_timestamp_inj t t' :
  datetime_ok t -> datetime_ok t' -> format_timestamp t = format_timestamp t' -> t = t'.
Proof.
  destruct t as [y1 o1 d1 h1 i1 s1 u1], t' as [y2 o2 d2 h2 i2 s2 u2]. unfold datetime_ok, format_timestamp.
  cbn [year month day hour minute second microsecond]. intros Ht Ht' He.
  repeat (let H := fresh "H" in
    apply app_inv_length in He as [H He]; [|rewrite ?padded_length; reflexivity];
    try (apply padded_inj in H; [subst|simpl; lia..]); try clear H).
  done.
Qed.

(** ** What is hashed *)

(** The entries of the payload, their values as they are read back. *)
Definition payload_entries (f : AuditFields) (prev : string) : pydict string json :=
  match canonical_payload f prev with
  | JDict d => map (fun kv => (kv.1, normalize canonical kv.2)) d
  | _ => []
  end.

Lemma payload_entries_wf f prev : dict_wf (payload_entries f prev).
Proof.
  unfold dict_wf. change (dict_keys (payload_entries f prev))
    with ["audit_schema_version"; "event_id"; "occurred_at"; "actor_type"; "actor_id";
      "principal_name"; "service_name"; "plane"; "action"; "resource_type"; "resource_id";
      "decision"; "reason"; "severity"; "request_id"; "correlation_id"; "trace_id";
      "idempotency_key"; "data"; "prev_hash"].
  match goal with |- ?P => apply (bool_decide_eq_true P) end. by vm_compute.
Qed.

Definition fields_ok (f : AuditFields) : Prop := datetime_ok (occurred_at f) /\ json_wf (data f) = true.

Lemma payload_wf f prev : fields_ok f -> json_wf (canonical_payload f prev) = true.
Proof.
  intros [_ Hd]. pose proof (payload_entries_wf f prev) as Hk.
  unfold canonical_payload. cbn [json_wf]. apply andb_true_iff. split.
  - apply bool_decide_eq_true. exact Hk.
  - cbn [forallb snd json_wf]. rewrite Hd.
    by destruct (actor_id f), (principal_name f), (request_id f), (correlation_id f), (trace_id f),
      (idempotency_key f).
Qed.

(** The hashed text determines every field, the data up to the order of keys. *)
Lemma serialized_entries f prev f' prev' :
  fields_ok f -> fields_ok f' -> serialized f prev = serialized f' prev' ->
  forall k, dict_get k (payload_entries f prev) = dict_get k (payload_entries f' prev').
Proof.
  intros Hf Hf' He k. unfold serialized in He.
  apply dumps_inj in He; [|apply canonical_sep|by apply payload_wf..].
  assert (forall f prev, in_order canonical (payload_entries f prev) ≡ₚ payload_entries f prev) as Hp
    by (intros; apply in_order_perm).
  assert (in_order canonical (payload_entries f prev) = in_order canonical (payload_entries f' prev'))
    as Ho by exact (f_equal (fun j => match j with JDict d => d | _ => [] end) He).
  rewrite (dict_get_perm _ _ k (payload_entries_wf f prev) (symmetry (Hp f prev))), Ho.
  apply dict_get_perm; [|apply Hp]. unfold dict_wf, dict_keys. rewrite Hp. apply payload_entries_wf.
Qed.

(** Two events alike: the same fields, the same data whatever the order of keys. *)
Definition same_fields (f f' : AuditFields) : Prop :=
  event_id f = event_id f' /\ occurred_at f = occurred_at f' /\ actor_type f = actor_type f' /\
  actor_id f = actor_id f' /\ principal_name f = principal_name f' /\
  service_name f = service_name f' /\ plane f = plane f' /\ action f = action f' /\
  resource_type f = resource_type f' /\ resource_id f = resource_id f' /\
  decision f = decision f' /\ reason f = reason f' /\ severity f = severity f' /\
  request_id f = request_id f' /\ correlation_id f = correlation_id f' /\
  trace_id f = trace_id f' /\ idempotency_key f = idempotency_key f' /\
  normalize canonical (data f) = normalize canonical (data f').

Lemma jopt_inj o o' : normalize canonical (jopt o) = normalize canonical (jopt o') -> o = o'.
Proof. destruct o, o'; simpl; congruence. Qed.

Lemma serialized_inj f prev f' prev' :
  fields_ok f -> fields_ok f' -> serialized f prev = serialized f' prev' ->
  same_fields f f' /\ prev = prev'.
Proof.
  intros Hf Hf' He. pose proof (serialized_entries f prev f' prev' Hf Hf' He) as Hk.
  assert (forall k v v', dict_get k (payload_entries f prev) = Some v ->
    dict_get k (payload_entries f' prev') = Some v' -> v = v') as Hget.
  { intros k v v' H1 H2. specialize (Hk k). congruence. }
  assert (forall k s s', dict_get k (payload_entries f prev) = Some (JStr s) ->
    dict_get k (payload_entries f' prev') = Some (JStr s') -> s = s') as Hs.
  { intros k s s' H1 H2. by injection (Hget k _ _ H1 H2). }
  assert (forall k o o', dict_get k (payload_entries f prev) = Some (normalize canonical (jopt o)) ->
    dict_get k (payload_entries f' prev') = Some (normalize canonical (jopt o')) -> o = o') as Ho.
  { intros k o o' H1 H2. by apply jopt_inj, (Hget k). }
  unfold same_fields. split_and!;
    [apply (Hs "event_id")| |apply (Hs "actor_type")|apply (Ho "actor_id")
    |apply (Ho "principal_name")|apply (Hs "service_name")|apply (Hs "plane")|apply (Hs "action")
    |apply (Hs "resource_type")|apply (Hs "resource_id")|apply (Hs "decision")|apply (Hs "reason")
    |apply (Hs "severity")|apply (Ho "request_id")|apply (Ho "correlation_id")
    |apply (Ho "trace_id")|apply (Ho "idempotency_key")|apply (Hget "data")
    |apply (Hs "prev_hash")]; try reflexivity.
  apply format_timestamp_inj; [apply Hf|apply Hf'|]. by apply (Hs "occurred_at").
Qed.

(** ** The chain *)

Section ChainProofs.
Variable sha256 : string -> string.

(** Each row carries the hash of the one before it and its own. *)
Fixpoint chained (prev : string) (l : list EventRow) : Prop :=
  match l with
  | [] => True
  | r :: l' => prev_hash r = prev /\ event_hash r = compute_event_hash sha256 (row_fields r) prev
               /\ chained (event_hash r) l'
  end.

(** Numbers that follow each other, from the first one. *)
Fixpoint consecutive (expected : Z) (l : list EventRow) : Prop :=
  match l with
  | [] => True
  | r :: l' => event_seq r = expected /\ consecutive (expected + 1) l'
  end.
Definition contiguous (l : list EventRow) : Prop :=
  match l with [] => True | r :: l' => consecutive (event_seq r + 1) l' end.

Definition is_gap (v : ChainViolation) : Prop := cv_type v = "SEQUENCE_GAP".

Lemma check_row_violations prev expected vs row :
  exists more, (check_row sha256 (prev, expected, vs) row).2 = (vs ++ more)%list /\
    (more = [] <-> event_seq row = default (event_seq row) expected /\ prev_hash row = prev /\
       event_hash row = compute_event_hash sha256 (row_fields row) prev) /\
    (prev_hash row = prev -> event_hash row = compute_event_hash sha256 (row_fields row) prev ->
       Forall is_gap more).
Proof.
  unfold check_row. eexists. split; [reflexivity|].
  destruct (Z.eqb_spec (event_seq row) (default (event_seq row) expected)) as [H1|H1],
    (String.eqb_spec (prev_hash row) prev) as [H2|H2],
    (String.eqb_spec (event_hash row) (compute_event_hash sha256 (row_fields row) prev)) as [H3|H3];
    (split; [by split; [|intros (? & ? & ?)]|intros ??; repeat constructor; done]).
Qed.

Lemma check_row_state prev expected vs row :
  (check_row sha256 (prev, expected, vs) row).1
  = (event_hash row,
     Some ((if (default (event_seq row) expected =? 0)%Z then event_seq row
            else default (event_seq row) expected) + 1)%Z).
Proof. done. Qed.

(** The loop of [verify_chain] finds nothing exactly on a chain whose numbers
    follow each other, and only gaps on any chain. *)
Lemma verify_loop l prev expected vs :
  (0 < expected)%Z ->
  exists more, (foldl (check_row sha256) (prev, Some expected, vs) l).2 = (vs ++ more)%list /\
    (more = [] <-> consecutive expected l /\ chained prev l) /\
    (chained prev l -> Forall is_gap more).
Proof.
  revert prev expected vs. induction l as [|r l IH]; intros prev expected vs Hpos.
  { exists []. rewrite app_nil_r. split_and!; [done| |by constructor]. split; [|done]. done. }
  cbn [foldl]. destruct (check_row_violations prev (Some expected) vs r) as (m1 & H1 & Hnil1 & Hgap1).
  pose proof (check_row_state prev (Some expected) vs r) as Hst.
  destruct (check_row sha256 (prev, Some expected, vs) r) as [st1 vs1]. simpl in H1, Hst, Hnil1.
  subst st1 vs1. rewrite (proj2 (Z.eqb_neq expected 0)) by lia.
  destruct (IH (event_hash r) (expected + 1)%Z (vs ++ m1)%list) as (m2 & H2 & Hnil2 & Hgap2); [lia|].
  exists (m1 ++ m2)%list. rewrite H2, <- app_assoc. split; [done|]. split.
  - rewrite app_nil, Hnil1, Hnil2. simpl. tauto.
  - simpl. intros (Hp & Hh & Hc). apply Forall_app. auto.
Qed.

Lemma verify_spec l prev :
  Forall (fun r => (0 < event_seq r)%Z) l ->
  (cr_ok (verify_chain sha256 l prev) = true <-> contiguous l /\ chained prev l) /\
  (chained prev l -> Forall is_gap (cr_violations (verify_chain sha256 l prev))).
Proof.
  intros Hpos. unfold verify_chain. destruct l as [|r l].
  { simpl. split; [done|]. by constructor. }
  apply list.Forall_cons in Hpos as [Hr _]. cbn [foldl].
  destruct (check_row_violations prev None [] r) as (m1 & H1 & Hnil1 & Hgap1).
  pose proof (check_row_state prev None [] r) as Hst.
  destruct (check_row sha256 (prev, None, []) r) as [st1 vs1]. simpl in H1, Hst, Hnil1. subst st1 vs1.
  rewrite (proj2 (Z.eqb_neq (event_seq r) 0)) by lia.
  destruct (verify_loop l (event_hash r) (event_seq r + 1) m1) as (m2 & H2 & Hnil2 & Hgap2); [lia|].
  destruct (foldl _ _ l) as [[? ?] vs2]. simpl in H2. subst vs2. cbn [cr_ok cr_violations chained contiguous].
  split.
  - rewrite Nat.eqb_eq, length_zero_iff_nil, app_nil, Hnil1, Hnil2. simpl. tauto.
  - intros (Hp & Hh & Hc). apply Forall_app. auto.
Qed.

(** ** The store *)

Definition seq_lt (a b : EventRow) : Prop := (event_seq a < event_seq b)%Z.

(** The numbers grow along the log, below the next one, and the log is a chain. *)
Record store_ok (s : AuditStore) : Prop := {
  ok_sorted : StronglySorted seq_lt (events s);
  ok_bounds : Forall (fun r => (0 < event_seq r < next_seq s)%Z) (events s);
  ok_next : (0 < next_seq s)%Z;
  ok_chained : chained GENESIS_HASH (events s)
}.

Definition last_hash (prev : string) (l : list EventRow) : string :=
  match last l with Some r => event_hash r | None => prev end.

Lemma last_hash_snoc prev l r : last_hash prev (l ++ [r]) = event_hash r.
Proof. unfold last_hash. by rewrite last_snoc. Qed.

Lemma last_hash_cons prev r l : last_hash prev (r :: l) = last_hash (event_hash r) l.
Proof. unfold last_hash. rewrite last_cons. by destruct (last l). Qed.

Lemma chained_snoc prev l r :
  chained prev (l ++ [r]) <->
  chained prev l /\ prev_hash r = last_hash prev l
  /\ event_hash r = compute_event_hash sha256 (row_fields r) (last_hash prev l).
Proof.
  revert prev. induction l as [|x l IH]; intros prev.
  { simpl. unfold last_hash. simpl. tauto. }
  change (chained prev ((x :: l) ++ [r])) with
    (prev_hash x = prev /\ event_hash x = compute_event_hash sha256 (row_fields x) prev
     /\ chained (event_hash x) (l ++ [r])).
  rewrite IH, last_hash_cons. simpl. tauto.
Qed.

Lemma chained_take prev l n : chained prev l -> chained prev (take n l).
Proof.
  revert prev n. induction l as [|r l IH]; intros prev [|n]; [done..|]. simpl.
  intros (? & ? & ?). split_and!; [done..|]. by apply IH.
Qed.

Lemma by_seq_asym x y : by_seq x y = true -> by_seq y x = false.
Proof. unfold by_seq. lia. Qed.
Lemma by_seq_trans x y z : sort_le by_seq x y -> sort_le by_seq y z -> sort_le by_seq x z.
Proof. unfold sort_le, by_seq. lia. Qed.

Lemma sorted_self l : StronglySorted seq_lt l -> py_sorted by_seq l = l.
Proof.
  induction 1 as [|r l Hs IH Hf]; [done|]. unfold py_sorted in *. simpl. rewrite IH.
  destruct l as [|x l]; [done|]. simpl. apply list.Forall_cons in Hf as [Hx _].
  unfold by_seq, seq_lt in *. by rewrite (proj2 (Z.ltb_ge _ _)) by lia.
Qed.

Lemma sorted_snoc l r :
  StronglySorted seq_lt l -> Forall (fun x => seq_lt x r) l -> StronglySorted seq_lt (l ++ [r]).
Proof.
  induction 1 as [|x l Hs IH Hf]; intros Hr; simpl; [repeat constructor|].
  apply list.Forall_cons in Hr as [Hx Hr]. constructor; [auto|]. apply Forall_app. auto.
Qed.

Lemma sorted_filter (P : EventRow -> Prop) `{!forall r, Decision (P r)} l :
  StronglySorted seq_lt l -> StronglySorted seq_lt (filter P l).
Proof.
  induction 1 as [|x l Hs IH Hf]; [constructor|]. rewrite filter_cons. case_decide; [|done].
  constructor; [done|]. rewrite list.Forall_forall in *. intros y [_ Hy]%list_elem_of_filter. auto.
Qed.

Lemma newest_last s : store_ok s -> newest (events s) = last (events s).
Proof.
  intros [Hs Hb _ _]. unfold newest. destruct (py_sorted_rev by_seq (events s)) as [|x l] eqn:Hl.
  - pose proof (py_sorted_rev_perm by_seq (events s)) as Hp. rewrite Hl in Hp.
    apply Permutation_nil in Hp. by rewrite Hp.
  - apply py_sorted_rev_head in Hl as [Hx Hmax]; [|apply by_seq_asym|apply by_seq_trans]. cbn [head].
    destruct (events s) as [|z l' _] eqn:He using rev_ind; [by apply elem_of_nil in Hx|].
    rewrite last_snoc. apply elem_of_app in Hx as [Hx|Hx%list_elem_of_singleton]; [|by subst].
    exfalso. specialize (Hmax z ltac:(apply elem_of_app; right; by apply list_elem_of_singleton)).
    unfold sort_le, by_seq in Hmax. apply Z.ltb_ge in Hmax.
    assert (StronglySorted seq_lt (l' ++ [z])) as Hs' by done.
    clear -Hs' Hx Hmax. induction l' as [|y l' IH]; [by apply elem_of_nil in Hx|].
    simpl in Hs'. inversion_clear Hs' as [|? ? Hs Hf]. apply elem_of_cons in Hx as [->|Hx]; [|auto].
    rewrite list.Forall_forall in Hf. specialize (Hf z).
    unfold seq_lt in Hf. enough (event_seq y < event_seq z)%Z by lia. apply Hf.
    apply elem_of_app. right. by apply list_elem_of_singleton.
Qed.

Lemma insert_ok f s :
  let prev := last_hash GENESIS_HASH (events s) in
  store_ok s ->
  store_ok (insert_row {| event_seq := next_seq s; row_fields := f; prev_hash := prev;
                          event_hash := compute_event_hash sha256 f prev |} s).
Proof.
  intros prev [Hs Hb Hn Hc]. split; simpl.
  - apply sorted_snoc; [done|]. eapply Forall_impl; [exact Hb|]. unfold seq_lt. simpl. lia.
  - apply Forall_app. split; [|by repeat constructor; simpl; lia].
    eapply Forall_impl; [exact Hb|]. simpl. lia.
  - lia.
  - by apply chained_snoc.
Qed.

Lemma burn_ok s : store_ok s -> store_ok (burn_seq s).
Proof.
  intros [Hs Hb Hn Hc]. split; simpl; [done| |lia|done].
  eapply Forall_impl; [exact Hb|]. simpl. lia.
Qed.

(** What an append does: it extends the chain by one row of these fields, or
    keeps the rows and loses a number. *)
Lemma append_cases f s :
  store_ok s ->
  (exists r row, append_event sha256 f s = (Ok r, insert_row row s) /\ row_fields row = f
     /\ event_seq row = next_seq s /\ r = record_of row
     /\ event_id f ∉ ((fun x => event_id (row_fields x)) <$> events s)
     /\ store_ok (insert_row row s)) \/
  (exists res, append_event sha256 f s = (res, burn_seq s) /\ store_ok (burn_seq s)
     /\ forall r, res = Ok r -> exists x, x ∈ events s /\ event_id (row_fields x) = event_id f
                                      /\ r = record_of x).
Proof.
  intros Hok. unfold append_event. rewrite (newest_last s Hok).
  change (match last (events s) with Some r => event_hash r | None => GENESIS_HASH end)
    with (last_hash GENESIS_HASH (events s)).
  pose proof (burn_ok s Hok) as Hburn.
  destruct (negb (checks _ _ _)); [right; eexists; by split_and!|].
  destruct (tbl_find _ (events s)) as [x|] eqn:Hx.
  - right. eexists. split_and!; [done..|]. intros r [= <-]. exists x.
    apply head_Some_elem_of, tbl_select_elem in Hx as [Hx He]. apply String.eqb_eq in He. done.
  - destruct (existsb _ (events s)); [right; eexists; by split_and!|].
    left. do 2 eexists. split_and!; try reflexivity; [|by apply insert_ok].
    intros (y & Hy & Hin)%(list_elem_of_fmap (fun x => event_id (row_fields x))).
    assert (y ∈ tbl_select (fun r => event_id (row_fields r) =? event_id f) (events s)) as Hs'.
    { apply tbl_select_elem. split; [done|]. apply String.eqb_eq. by rewrite <- Hy. }
    unfold tbl_find in Hx. apply head_None in Hx. rewrite Hx in Hs'. by apply elem_of_nil in Hs'.
Qed.

Lemma append_ok f s : store_ok s -> store_ok (append_event sha256 f s).2.
Proof.
  intros Hok. destruct (append_cases f s Hok) as [(r & row & -> & _ & _ & _ & _ & H)|(res & -> & H & _)];
    exact H.
Qed.

Lemma empty_ok : store_ok empty_store.
Proof. split; simpl; try constructor. Qed.

(** A history of appends, each refused, repeated or accepted. *)
Definition run_appends (fs : list AuditFields) (s : AuditStore) : AuditStore :=
  foldl (fun s f => (append_event sha256 f s).2) s fs.

Lemma run_ok fs s : store_ok s -> store_ok (run_appends fs s).
Proof. revert s. induction fs as [|f fs IH]; intros s Hs; simpl; [done|]. by apply IH, append_ok. Qed.

(** The range of the rows from [start] is a suffix of the log, cut off. *)
Definition range_rows (start : Z) (end_seq : option Z) (limit : Z) (l : list EventRow) : list EventRow :=
  take (clamp 10000 limit) (tbl_select (fun r => (start <=? event_seq r)%Z
    && match end_seq with Some e => (event_seq r <=? e)%Z | None => true end) l).

Lemma range_sorted start end_seq limit s :
  store_ok s ->
  take (clamp 10000 limit) (py_sorted by_seq (tbl_select (fun r => (start <=? event_seq r)%Z
    && match end_seq with Some e => (event_seq r <=? e)%Z | None => true end) (events s)))
  = range_rows start end_seq limit (events s).
Proof. intros Hok. rewrite sorted_self; [done|]. apply sorted_filter, Hok. Qed.

Lemma select_all p (l : list EventRow) : Forall (fun r => p r = true) l -> tbl_select p l = l.
Proof.
  unfold tbl_select. induction 1 as [|x l Hx Hf IH]; [done|]. rewrite filter_cons, IH. by case_decide.
Qed.

Lemma select_none p (l : list EventRow) : Forall (fun r => p r = false) l -> tbl_select p l = [].
Proof.
  unfold tbl_select. induction 1 as [|x l Hx Hf IH]; [done|]. rewrite filter_cons, IH.
  case_decide; congruence.
Qed.

Lemma select_cons p (x : EventRow) l :
  tbl_select p (x :: l) = if p x then x :: tbl_select p l else tbl_select p l.
Proof. unfold tbl_select. rewrite filter_cons. by case_decide as H; destruct (p x). Qed.

Lemma select_ext p q (l : list EventRow) :
  (forall r, r ∈ l -> p r = q r) -> tbl_select p l = tbl_select q l.
Proof.
  intros He. induction l as [|x l IH]; [done|]. rewrite !select_cons, (He x) by left.
  rewrite IH; [done|]. intros r Hr. apply He. by right.
Qed.

Lemma select_narrow p q (l : list EventRow) :
  (forall r, r ∈ l -> p r = true -> q r = true) -> tbl_select p l = tbl_select p (tbl_select q l).
Proof.
  intros He. induction l as [|x l IH]; [done|]. rewrite !select_cons.
  rewrite IH by (intros r Hr; apply He; by right). specialize (He x).
  destruct (q x) eqn:Hq; [by rewrite select_cons|]. destruct (p x); [|done].
  by discriminate He; [left|].
Qed.

Lemma range_chained prev start end_seq limit l :
  StronglySorted seq_lt l -> Forall (fun r => (start <= event_seq r)%Z) l -> chained prev l ->
  chained prev (range_rows start end_seq limit l).
Proof.
  intros Hs Hf Hc. apply chained_take. revert prev Hc.
  induction Hs as [|x l Hs IH Hx]; intros prev; [done|].
  apply list.Forall_cons in Hf as [Hsx Hf]. simpl. intros (Hp & Hh & Hc).
  rewrite select_cons, (proj2 (Z.leb_le _ _)) by done. cbn [andb].
  destruct end_seq as [e|]; [destruct (Z.leb_spec (event_seq x) e) as [He|He]|].
  - simpl. auto.
  - rewrite select_none; [done|]. eapply Forall_impl; [exact Hx|]. unfold seq_lt. simpl. lia.
  - simpl. auto.
Qed.

(** From a row of the log on, the rows that follow are a chain from its hash. *)
Lemma range_after x end_seq limit prev l :
  StronglySorted seq_lt l -> chained prev l -> x ∈ l ->
  chained (event_hash x) (range_rows (event_seq x + 1) end_seq limit l).
Proof.
  intros Hs Hc Hx. revert prev Hc. induction Hs as [|y l Hs IH Hf]; intros prev; simpl.
  { by apply elem_of_nil in Hx. }
  intros (Hp & Hh & Hc). rewrite list.Forall_forall in Hf.
  assert (forall z, z = y \/ (z = x /\ x ∈ l) -> event_seq y <= event_seq z)%Z as Hle.
  { intros z [->|[-> Hz]]; [lia|]. specialize (Hf x Hz). unfold seq_lt in Hf. lia. }
  unfold range_rows. rewrite select_cons. apply elem_of_cons in Hx as [->|Hx].
  - rewrite (proj2 (Z.leb_gt _ _)) by lia. cbn [andb].
    apply (range_chained (event_hash y) (event_seq y + 1) end_seq limit); [done| |done].
    apply list.Forall_forall. intros z Hz. specialize (Hf z Hz). unfold seq_lt in Hf. lia.
  - specialize (Hle x (or_intror (conj eq_refl Hx))).
    rewrite (proj2 (Z.leb_gt _ _)) by lia. cbn [andb]. by apply (IH Hx (event_hash y)).
Qed.

Lemma range_positive start end_seq limit s :
  store_ok s -> Forall (fun r => (0 < event_seq r)%Z) (range_rows start end_seq limit (events s)).
Proof.
  intros [_ Hb _ _]. apply list.Forall_forall. intros r Hr.
  apply elem_of_take in Hr as (i & Hr%list_elem_of_lookup_2 & _). apply tbl_select_elem in Hr as [Hr _].
  rewrite list.Forall_forall in Hb. by apply Hb.
Qed.

(** What [fetch_verification_range] returns: a piece of the chain and the hash
    it starts from, or the error that the row before it is missing. *)
Lemma fetch_range_cases start_seq end_seq limit s :
  store_ok s ->
  (exists start prev, fetch_verification_range start_seq end_seq limit s
      = (Ok (prev, range_rows start end_seq limit (events s)), s)
      /\ start = Z.max 1 (default 1%Z start_seq)
      /\ chained prev (range_rows start end_seq limit (events s))) \/
  (exists start m, start_seq = Some start
      /\ fetch_verification_range start_seq end_seq limit s = (Err (AuditRepositoryError m), s)
      /\ (1 < start)%Z /\ Forall (fun r => event_seq r <> start - 1)%Z (events s)).
Proof.
  intros Hok. unfold fetch_verification_range.
  assert (chained GENESIS_HASH (range_rows 1 end_seq limit (events s))) as Hgen.
  { destruct Hok as [Hs Hb _ Hc]. apply range_chained; [done| |done].
    eapply Forall_impl; [exact Hb|]. simpl. lia. }
  destruct start_seq as [start|]; [destruct (Z.leb_spec start 1) as [Hle|Hgt]|].
  - left. exists 1%Z, GENESIS_HASH. rewrite range_sorted by done. split_and!; [done|simpl; lia|done].
  - destruct (tbl_find _ (events s)) as [x|] eqn:Hx.
    + left. exists start, (event_hash x). rewrite range_sorted by done. split_and!; [done|simpl; lia|].
      apply head_Some_elem_of, tbl_select_elem in Hx as [Hx He].
      replace start with (event_seq x + 1)%Z by lia.
      by apply (range_after x end_seq limit GENESIS_HASH); [apply Hok|apply Hok|].
    + right. exists start. eexists. split_and!; [done..|]. apply list.Forall_forall. intros r Hr He.
      unfold tbl_find in Hx. apply head_None in Hx.
      enough (r ∈ tbl_select (fun r => event_seq r =? start - 1)%Z (events s)) as H.
      { rewrite Hx in H. by apply elem_of_nil in H. }
      apply tbl_select_elem. split; [done|lia].
  - left. exists 1%Z, GENESIS_HASH. rewrite range_sorted by done. split_and!; [done|simpl; lia|done].
Qed.

(** *** Numbers without a gap *)

Lemma consecutive_snoc k l r :
  consecutive k l -> event_seq r = (k + Z.of_nat (length l))%Z -> consecutive k (l ++ [r]).
Proof.
  revert k. induction l as [|x l IH]; intros k; simpl; [intros _ H; split; [lia|done]|].
  intros [Hx Hl] Hr. split; [done|]. apply IH; [done|lia].
Qed.

Lemma consecutive_contiguous k l : consecutive k l -> contiguous l.
Proof. destruct l as [|r l]; [done|]. simpl. by intros [-> ?]. Qed.

Lemma consecutive_take k l n : consecutive k l -> consecutive k (take n l).
Proof.
  revert k n. induction l as [|r l IH]; intros k [|n]; [done..|]. simpl. intros [? ?]. auto.
Qed.

Lemma consecutive_range k l start end_seq limit :
  consecutive k l -> exists k', consecutive k' (range_rows start end_seq limit l).
Proof.
  assert (forall k l, consecutive k l -> Forall (fun r => (k <= event_seq r)%Z) l) as Hge.
  { clear. intros k l. revert k. induction l as [|r l IH]; intros k; [constructor|]. simpl.
    intros [Hr Hl]. constructor; [lia|]. eapply Forall_impl; [by apply IH|]. simpl. lia. }
  intros Hl. exists (Z.max k start). apply consecutive_take. revert k Hl.
  induction l as [|r l IH]; intros k; [done|]. simpl. intros [Hr Hl]. rewrite select_cons.
  destruct (Z.leb_spec start (event_seq r)) as [Hs|Hs]; cbn [andb].
  - replace (Z.max k start) with k by lia. destruct end_seq as [e|].
    + destruct (Z.leb_spec (event_seq r) e) as [He|He].
      * simpl. split; [done|]. replace (k + 1)%Z with (Z.max (k + 1) start) by lia. auto.
      * rewrite select_none; [done|]. eapply Forall_impl; [by apply Hge|]. simpl. lia.
    + simpl. split; [done|]. replace (k + 1)%Z with (Z.max (k + 1) start) by lia. auto.
  - replace (Z.max k start) with (Z.max (k + 1) start) by lia. auto.
Qed.

(** A history in which every append adds a row leaves no gap. *)
Lemma run_dense fs s :
  store_ok s -> consecutive 1 (events s) -> next_seq s = (1 + Z.of_nat (length (events s)))%Z ->
  length (events (run_appends fs s)) <= length (events s) + length fs /\
  (length (events (run_appends fs s)) = length (events s) + length fs ->
   consecutive 1 (events (run_appends fs s))).
Proof.
  assert (forall fs s, store_ok s -> length (events (run_appends fs s)) <= length (events s) + length fs) as Hle.
  { clear. induction fs as [|f fs IH]; intros s Hok; simpl; [lia|].
    specialize (IH _ (append_ok f s Hok)).
    destruct (append_cases f s Hok) as [(r & row & He & _)|(res & He & _)]; rewrite He in IH |- *;
      simpl in IH |- *; rewrite ?length_app in IH; simpl in IH; lia. }
  intros Hok Hc Hn. split; [by apply Hle|]. revert s Hok Hc Hn.
  induction fs as [|f fs IH]; intros s Hok Hc Hn; simpl; [done|].
  pose proof (Hle fs _ (append_ok f s Hok)) as Hlen.
  destruct (append_cases f s Hok) as [(r & row & He & Hf & Hseq & _ & _ & Hok')|(res & He & _)];
    rewrite He in Hlen |- *; simpl in Hlen |- *; intros Heq.
  - apply IH; simpl; rewrite ?length_app; simpl; [done| | |].
    + apply consecutive_snoc; [done|]. rewrite Hseq. lia.
    + lia.
    + rewrite length_app in Hlen. simpl in Hlen. lia.
  - exfalso. lia.
Qed.

(** *** Two logs that end in the same hash *)

Definition texts (l : list EventRow) : list string :=
  map (fun r => serialized (row_fields r) (prev_hash r)) l.

Definition same_row (r r' : EventRow) : Prop :=
  same_fields (row_fields r) (row_fields r') /\ prev_hash r = prev_hash r'
  /\ event_hash r = event_hash r'.

Lemma texts_snoc l r : texts (l ++ [r]) = (texts l ++ [serialized (row_fields r) (prev_hash r)])%list.
Proof. unfold texts. by rewrite map_app. Qed.

Lemma chain_unique start l l' :
  Forall (fun r => fields_ok (row_fields r)) (l ++ l') ->
  (forall t t', t ∈ texts l -> t' ∈ texts l' -> sha256 t = sha256 t' -> t = t') ->
  (forall t, t ∈ (texts l ++ texts l')%list -> sha256 t <> start) ->
  chained start l -> chained start l' -> last_hash start l = last_hash start l' ->
  Forall2 same_row l l'.
Proof.
  revert l'. induction l as [|r l IH] using rev_ind; intros l'; destruct l' as [|r' l' _] using rev_ind.
  - constructor.
  - intros _ _ Hgen _ (_ & Hp & Hh)%chained_snoc Hlast. rewrite last_hash_snoc in Hlast. exfalso.
    rewrite <- Hp in Hh. apply (Hgen (serialized (row_fields r') (prev_hash r'))); [|unfold compute_event_hash, last_hash in *; simpl in *; congruence].
    rewrite texts_snoc. apply elem_of_app. right. apply elem_of_app. right. by apply list_elem_of_singleton.
  - intros _ _ Hgen (_ & Hp & Hh)%chained_snoc _ Hlast. rewrite last_hash_snoc in Hlast. exfalso.
    rewrite <- Hp in Hh. apply (Hgen (serialized (row_fields r) (prev_hash r))); [|unfold compute_event_hash, last_hash in *; simpl in *; congruence].
    rewrite texts_snoc. apply elem_of_app. left. apply elem_of_app. right. by apply list_elem_of_singleton.
  - rewrite !texts_snoc, !last_hash_snoc.
    intros Hf Hinj Hgen (Hc & Hp & Hh)%chained_snoc (Hc' & Hp' & Hh')%chained_snoc Hlast.
    rewrite <- Hp in Hh. rewrite <- Hp' in Hh'.
    assert (forall x, x ∈ (l ++ [r])%list \/ x ∈ (l' ++ [r'])%list -> fields_ok (row_fields x)) as Hfx.
    { rewrite list.Forall_forall in Hf. intros x Hx. apply Hf, elem_of_app, Hx. }
    setoid_rewrite elem_of_app in Hinj. setoid_rewrite elem_of_app in Hgen.
    setoid_rewrite elem_of_app in Hgen. setoid_rewrite elem_of_app in Hfx.
    setoid_rewrite list_elem_of_singleton in Hinj. setoid_rewrite list_elem_of_singleton in Hfx.
    assert (serialized (row_fields r) (prev_hash r) = serialized (row_fields r') (prev_hash r')) as Ht.
    { apply Hinj; [by right..|]. unfold compute_event_hash in *. congruence. }
    apply serialized_inj in Ht as [Hsame Hprev]; [|apply Hfx; auto..].
    apply Forall2_app; [|by apply Forall2_cons; split; [|apply Forall2_nil]].
    apply IH; [|by auto|intros t [Ht|Ht]%elem_of_app; apply Hgen; by auto|done|done|congruence].
    apply list.Forall_forall. intros x [Hx|Hx]%elem_of_app; apply Hfx; auto.
Qed.
End ChainProofs.

(** ** Delivery *)

Definition set_deliveries (d : gmap Z Delivery) (s : AuditStore) : AuditStore :=
  {| events := events s; next_seq := next_seq s; deliveries := d;
     integrity_checks := integrity_checks s |}.

Lemma record_delivery_event r success error now s :
  r ∈ events s ->
  exists d, record_delivery (event_seq r) success error now s = (Ok tt, set_deliveries d s) /\
    forall x, event_seq x = event_seq r /\ unpublished s x = true ->
              unpublished (set_deliveries d s) x = negb success.
Proof.
  intros Hr. unfold record_delivery.
  assert (existsb (fun x => (event_seq x =? event_seq r)%Z) (events s) = true) as ->.
  { apply existsb_exists. exists r. rewrite <- list_elem_of_In. split; [done|lia]. }
  cbn [negb]. eexists. split; [reflexivity|]. intros x [Hx Hu]. unfold unpublished in *. simpl.
  rewrite Hx in *. rewrite lookup_insert_eq. destruct (deliveries s !! event_seq r) as [o|]; simpl.
  - apply bool_decide_eq_true in Hu. rewrite Hu. by destruct success.
  - by destruct success.
Qed.

Lemma record_delivery_other r seq success error now s s' :
  record_delivery seq success error now s = (Ok tt, s') -> event_seq r <> seq ->
  unpublished s' r = unpublished s r.
Proof.
  unfold record_delivery. destruct (negb _); [done|]. intros [= <-] Hne. unfold unpublished. simpl.
  by rewrite lookup_insert_ne.
Qed.

(** A round over rows of the log leaves unpublished those it failed on and
    those it did not reach. *)
Lemma relay_rows publish now rows s :
  NoDup (event_seq <$> rows) -> rows ⊆ events s -> Forall (fun r => unpublished s r = true) rows ->
  exists d, for_each (fun r => record_delivery (event_seq r) (publish r).1 (publish r).2 now) rows s
      = (Ok tt, set_deliveries d s) /\
    (forall r, r ∈ rows -> unpublished (set_deliveries d s) r = negb (publish r).1) /\
    (forall r, event_seq r ∉ event_seq <$> rows -> unpublished (set_deliveries d s) r = unpublished s r).
Proof.
  revert s. induction rows as [|x rows IH]; intros s Hnd Hsub Hun.
  { exists (deliveries s). split_and!; [by destruct s| |done]. intros r Hr. by apply elem_of_nil in Hr. }
  apply list.NoDup_cons in Hnd as [Hx Hnd]. apply list.Forall_cons in Hun as [Hux Hun].
  destruct (record_delivery_event x (publish x).1 (publish x).2 now s) as (d & Hd & Hpub).
  { apply Hsub. left. }
  assert (forall r, event_seq r <> event_seq x ->
    unpublished (set_deliveries d s) r = unpublished s r) as Hother
    by (intros r Hr; by apply (record_delivery_other r _ _ _ _ _ _ Hd)).
  destruct (IH (set_deliveries d s)) as (d' & Hd' & Hin & Hout); [done| | |].
  - intros y Hy. apply Hsub. by right.
  - rewrite list.Forall_forall in *. intros y Hy. rewrite Hother; [by apply Hun|].
    intros He. apply Hx. rewrite <- He. by apply list_elem_of_fmap_2.
  - exists d'. split_and!.
    + cbn [for_each]. by rewrite (st_bind_ok _ _ _ _ _ Hd).
    + intros r [->|Hr]%elem_of_cons; [|by apply Hin]. rewrite <- (Hpub x) by done. by apply Hout.
    + intros r Hr. rewrite fmap_cons, not_elem_of_cons in Hr. destruct Hr as [Hne Hr].
      rewrite <- (Hother r) by done. by apply Hout.
Qed.

Definition unpublished_rows (s : AuditStore) : list EventRow := tbl_select (unpublished s) (events s).

(** ** The properties *)

(** A stand-in for sha256, of the right shape. *)
Definition toy_sha256 (s : string) : string := padded 64 (N.of_nat (String.length s)).
Definition toy_fields (id : string) (d : json) : AuditFields :=
  {| event_id := id;
     occurred_at := {| year := 2025; month := 3; day := 1; hour := 9; minute := 30; second := 0;
                       microsecond := 125 |};
     actor_type := "SERVICE"; actor_id := None; principal_name := Some "risk"; service_name := "risk";
     plane := "control"; action := "ORDER_REJECTED"; resource_type := "order"; resource_id := "42";
     decision := "DENY"; reason := "limit"; severity := "WARNING"; request_id := None;
     correlation_id := None; trace_id := None; idempotency_key := None; data := d |}.

(** C2: whatever events are appended, repeated or refused, the endpoint finds
    no altered event in the log the appends leave: it can only report gaps in
    the numbers, none when the rows of the range are numbered without a gap,
    which is so when every append of the history added its row. *)
Theorem honest_log_verifies sha256 fs start_seq end_seq limit :
  let s := run_appends sha256 fs empty_store in
  match verify_audit_chain sha256 start_seq end_seq limit s with
  | (Ok report, s') =>
      let rows := range_rows (Z.max 1 (default 1%Z start_seq)) end_seq limit (events s) in
      events s' = events s /\ cr_events_checked report = length rows /\
      Forall is_gap (cr_violations report) /\
      (cr_ok report = true <-> contiguous rows) /\
      (length (events s) = length fs -> cr_ok report = true)
  | (Err e, s') => s' = s /\ exists start, start_seq = Some start /\ (1 < start)%Z /\
      Forall (fun r => event_seq r <> start - 1)%Z (events s)
  end.
Proof.
  intros s. assert (store_ok sha256 s) as Hok by apply run_ok, empty_ok.
  unfold verify_audit_chain.
  destruct (fetch_range_cases sha256 start_seq end_seq limit s Hok)
    as [(start & prev & He & -> & Hc)|(start & m & -> & He & Hlt & Hno)].
  - rewrite (st_bind_ok _ _ _ _ _ He). cbn [fst snd]. set (rows := range_rows _ _ _ _) in *.
    destruct (verify_spec sha256 rows prev) as [Hiff Hgap]; [by apply (range_positive sha256)|].
    split_and!; [done| |by apply Hgap|tauto|].
    + unfold verify_chain. by destruct (foldl _ _ _) as [[? ?] ?].
    + intros Hlen. apply Hiff. split; [|done].
      destruct (run_dense sha256 fs empty_store) as [_ Hd]; [apply empty_ok|done..|].
      destruct (consecutive_range 1 (events s) (Z.max 1 (default 1%Z start_seq)) end_seq limit)
        as [k Hk]; [by apply Hd|]. by apply (consecutive_contiguous k).
  - rewrite (st_bind_err _ _ _ _ _ He). split; [done|]. by exists start.
Qed.

(** C1: two logs that both verify from the same hash and end in the same hash
    hold the same events in the same order, unless the hash function collides
    on their texts: no event was changed, dropped, added or moved.  Data are
    compared up to the order of their keys; the sequence numbers are not
    hashed, and only their gaps are seen. *)
Theorem tamper_evident sha256 start l l' :
  Forall (fun r => (0 < event_seq r)%Z /\ fields_ok (row_fields r)) (l ++ l') ->
  (forall t t', t ∈ texts l -> t' ∈ texts l' -> sha256 t = sha256 t' -> t = t') ->
  (forall t, t ∈ (texts l ++ texts l')%list -> sha256 t <> start) ->
  cr_ok (verify_chain sha256 l start) = true -> cr_ok (verify_chain sha256 l' start) = true ->
  last_hash start l = last_hash start l' ->
  Forall2 same_row l l'.
Proof.
  intros Hf Hinj Hgen Hv Hv' Hlast.
  assert (Forall (fun r => (0 < event_seq r)%Z) l /\ Forall (fun r => (0 < event_seq r)%Z) l') as [Hp Hp'].
  { apply list.Forall_app. eapply Forall_impl; [exact Hf|]. by intros r [? ?]. }
  apply (verify_spec sha256 l start Hp) in Hv as [_ Hc].
  apply (verify_spec sha256 l' start Hp') in Hv' as [_ Hc'].
  apply (chain_unique sha256 start l l'); try done. eapply Forall_impl; [exact Hf|]. by intros r [? ?].
Qed.

Definition no_collisions (sha256 : string -> string) (ts ts' : list string) : bool :=
  forallb (fun t => forallb (fun t' => negb (sha256 t =? sha256 t') || (t =? t')) ts') ts.

Lemma no_collisions_spec sha256 ts ts' :
  no_collisions sha256 ts ts' = true ->
  forall t t', t ∈ ts -> t' ∈ ts' -> sha256 t = sha256 t' -> t = t'.
Proof.
  intros Hc t t' Ht Ht' He. unfold no_collisions in Hc. rewrite forallb_forall in Hc.
  apply list_elem_of_In in Ht. specialize (Hc t Ht). rewrite forallb_forall in Hc.
  apply list_elem_of_In in Ht'. specialize (Hc t' Ht'). rewrite He, String.eqb_refl in Hc.
  by apply String.eqb_eq.
Qed.

Lemma none_hashes_to (sha256 : string -> string) (ts : list string) start :
  forallb (fun t => negb (sha256 t =? start)) ts = true ->
  forall t, t ∈ ts -> sha256 t <> start.
Proof.
  intros Hc t Ht He. rewrite forallb_forall in Hc. apply list_elem_of_In in Ht.
  specialize (Hc t Ht). by rewrite He, String.eqb_refl in Hc.
Qed.

Lemma rows_fields_ok l :
  Forall (fun p => (0 < p.1)%Z /\ fields_ok p.2) (map (fun r => (event_seq r, row_fields r)) l) ->
  Forall (fun r => (0 < event_seq r)%Z /\ fields_ok (row_fields r)) l.
Proof. intros H. by apply list.Forall_fmap in H. Qed.

(** The same two events, the keys of the second one's data in another order. *)
Definition toy_log (d : json) : list EventRow :=
  events (run_appends toy_sha256 [toy_fields "e1" JNull; toy_fields "e2" d] empty_store).
Definition toy_data : json := JDict [("price", JNum 5); ("side", JStr "buy")].
Definition toy_data' : json := JDict [("side", JStr "buy"); ("price", JNum 5)].

Lemma tamper_evident_witness : Forall2 same_row (toy_log toy_data) (toy_log toy_data').
Proof.
  apply (tamper_evident toy_sha256 GENESIS_HASH (toy_log toy_data) (toy_log toy_data')).
  - apply rows_fields_ok.
    assert (map (fun r => (event_seq r, row_fields r)) (toy_log toy_data ++ toy_log toy_data')
      = [(1%Z, toy_fields "e1" JNull); (2%Z, toy_fields "e2" toy_data);
         (1%Z, toy_fields "e1" JNull); (2%Z, toy_fields "e2" toy_data')]) as -> by by vm_compute.
    repeat (apply Forall_cons; split; [split; [done|split; [by vm_compute|done]]|]). constructor.
  - apply no_collisions_spec. by vm_compute.
  - apply none_hashes_to. by vm_compute.
  - by vm_compute.
  - by vm_compute.
  - by vm_compute.
Defined.

Lemma record_delivery_keeps seq ok error now s :
  exists d, (record_delivery seq ok error now s).2 = set_deliveries d s.
Proof.
  unfold record_delivery. destruct (negb _); [exists (deliveries s); by destruct s|].
  eexists. reflexivity.
Qed.

Lemma ingest_rows sha256 publisher uuid now db_now payload s :
  let f := with_data (to_fields uuid now payload) (redact_data (rq_data payload)) in
  let s' := (ingest_audit_event sha256 publisher uuid now db_now payload s).2 in
  s' = s \/ exists d, s' = set_deliveries d (append_event sha256 f s).2.
Proof.
  intros f s'. subst s'. unfold ingest_audit_event. fold f.
  destruct (enforce_audit_policy payload) as [p|e] eqn:Hp; [|by left].
  assert (payload = p) as <-.
  { unfold enforce_audit_policy in Hp. repeat (destruct (str_empty _); [done|]). congruence. }
  right. rewrite (st_bind_ok _ _ s payload s) by done.
  destruct (append_event sha256 f s) as [[record|e] s1] eqn:Ha; cycle 1.
  { rewrite (st_bind_err _ _ _ _ _ Ha). exists (deliveries s1). by destruct s1. }
  rewrite (st_bind_ok _ _ _ _ _ Ha).
  assert (exists d, s1 = set_deliveries d s1) as Hsame by (exists (deliveries s1); by destruct s1).
  destruct publisher as [publish|]; [|exact Hsame].
  erewrite st_bind_ok by reflexivity. destruct (take _ _) as [|r rows]; [exact Hsame|].
  destruct (publish r) as [ok error].
  destruct (record_delivery_keeps (ar_event_seq record) ok error db_now s1) as [d Hd].
  destruct (record_delivery _ _ _ _ s1) as [[[]|e] s2] eqn:Hr; simpl in Hd; subst s2.
  - rewrite (st_bind_ok _ _ _ _ _ Hr). by exists d.
  - rewrite (st_bind_err _ _ _ _ _ Hr). by exists d.
Qed.

(** Ingesting an event adds at most its row to the log and keeps the log a
    chain; the row holds the event's data redacted: no key of a secret, however
    deep, keeps its value, and data without such keys are stored as they are. *)
Theorem ingest_stores_no_secret sha256 publisher uuid now db_now payload s :
  store_ok sha256 s ->
  let s' := (ingest_audit_event sha256 publisher uuid now db_now payload s).2 in
  store_ok sha256 s' /\
  exists new, events s' = (events s ++ new)%list /\ length new <= 1 /\
    forall row, row ∈ new ->
      (forall k v, is_secret_key k = true -> occurs k v (data (row_fields row)) -> v = JStr REDACTED) /\
      ((forall k v, occurs k v (rq_data payload) -> is_secret_key k = false) ->
       data (row_fields row) = rq_data payload).
Proof.
  intros Hok s'.
  destruct (ingest_rows sha256 publisher uuid now db_now payload s) as [He|[d He]];
    fold s' in He; rewrite He.
  - split; [done|]. exists []. rewrite app_nil_r. split_and!; [done|simpl; lia|].
    intros row Hr. by apply elem_of_nil in Hr.
  - set (f := with_data _ _). pose proof (append_ok sha256 f s Hok) as [H1 H2 H3 H4].
    split; [by split|].
    destruct (append_cases sha256 f s Hok) as [(r & row & -> & Hf & _)|(res & -> & _)]; simpl.
    + exists [row]. split_and!; [done|simpl; lia|]. intros x ->%list_elem_of_singleton.
      rewrite Hf. subst f. split; [intros k v; apply redact_hides|]. apply redact_keeps.
    + exists []. rewrite app_nil_r. split_and!; [done|simpl; lia|].
      intros row Hr. by apply elem_of_nil in Hr.
Qed.

Definition toy_request : AuditEventRequest :=
  {| rq_event_id := Some "e7"; rq_occurred_at := None; rq_actor_type := USER; rq_actor_id := Some "u1";
     rq_principal_name := None; rq_service_name := " vault "; rq_plane := "control";
     rq_action := "LOGIN"; rq_resource_type := "session"; rq_resource_id := "s1";
     rq_decision := ALLOW; rq_reason := ""; rq_severity := S_INFO; rq_request_id := None;
     rq_correlation_id := None; rq_trace_id := None; rq_idempotency_key := None;
     rq_data := JList [JDict [("API_KEY", JDict [("v", JNum 1)]); ("ip", JStr "10.0.0.1")]] |}.

Lemma ingest_stores_no_secret_witness :
  let s' := (ingest_audit_event toy_sha256 None "u" (occurred_at (toy_fields "" JNull)) 0
               toy_request empty_store).2 in
  map (fun r => data (row_fields r)) (events s')
    = [JList [JDict [("API_KEY", JStr REDACTED); ("ip", JStr "10.0.0.1")]]] /\
  store_ok toy_sha256 s'.
Proof.
  intros s'. split; [by vm_compute|].
  exact (proj1 (ingest_stores_no_secret toy_sha256 None "u" (occurred_at (toy_fields "" JNull)) 0
    toy_request empty_store (empty_ok toy_sha256))).
Defined.

Lemma seqs_nodup l : StronglySorted seq_lt l -> NoDup (event_seq <$> l).
Proof.
  induction 1 as [|x l Hs IH Hf]; [constructor|]. rewrite fmap_cons. constructor; [|done].
  intros (y & Hy & Hin)%(list_elem_of_fmap event_seq). rewrite list.Forall_forall in Hf.
  specialize (Hf y Hin). unfold seq_lt in Hf. lia.
Qed.

(** A round of the relay leaves unpublished exactly the rows its publishes
    failed on, among the hundred oldest it takes, and the rows after them; the
    log is untouched.  So rounds that succeed publish the log in order, and a
    hundred failing rows hold back all the others. *)
Theorem relay_round_leaves sha256 publish now s :
  store_ok sha256 s ->
  exists s', relay_round publish now s = (Ok tt, s') /\ events s' = events s /\
    unpublished_rows s' = (tbl_select (fun r => negb (publish r).1) (take 100 (unpublished_rows s))
                            ++ drop 100 (unpublished_rows s))%list.
Proof.
  intros [Hs _ _ _]. unfold relay_round, fetch_unpublished.
  rewrite (st_bind_ok _ _ s (take 100 (unpublished_rows s)) s);
    [|by rewrite sorted_self by by apply sorted_filter].
  set (U := unpublished_rows s).
  assert (StronglySorted seq_lt U) as HsU by by apply sorted_filter.
  pose proof (seqs_nodup U HsU) as Hnd.
  assert (forall r, r ∈ U <-> r ∈ events s /\ unpublished s r = true) as HU by apply tbl_select_elem.
  rewrite <- (take_drop 100 U) in Hnd. rewrite fmap_app in Hnd.
  apply list.NoDup_app in Hnd as (Hnd1 & Hdisj & _).
  assert (forall r, r ∈ take 100 U -> r ∈ U) as Htake.
  { intros r Hr. rewrite <- (take_drop 100 U). apply elem_of_app. by left. }
  destruct (relay_rows publish now (take 100 U) s) as (d & Hd & Hin & Hout); [done| | |].
  - intros r Hr. by apply HU, Htake.
  - apply list.Forall_forall. intros r Hr. by apply HU, Htake.
  - exists (set_deliveries d s). split_and!; [done..|].
    set (s' := set_deliveries d s) in *. change (unpublished_rows s') with (tbl_select (unpublished s') (events s)).
    assert (tbl_select (unpublished s') (events s) = tbl_select (unpublished s') U) as ->.
    { apply select_narrow. intros r Hr Hu.
      destruct (decide (event_seq r ∈ event_seq <$> take 100 U)) as [Hin'|Hno].
      - apply (list_elem_of_fmap event_seq) in Hin' as (x & Hx & Hxin).
        unfold unpublished. rewrite Hx. apply (HU x), Htake, Hxin.
      - by rewrite <- (Hout r Hno). }
    rewrite <- (take_drop 100 U) at 1. rewrite tbl_select_app. f_equal.
    + by apply select_ext.
    + apply select_all, list.Forall_forall. intros r Hr. rewrite Hout.
      * apply HU. rewrite <- (take_drop 100 U). apply elem_of_app. by right.
      * intros Hin'. by apply (Hdisj _ Hin'), list_elem_of_fmap_2.
Qed.

Lemma relay_round_leaves_witness :
  let s := run_appends toy_sha256 [toy_fields "e1" JNull; toy_fields "e2" JNull] empty_store in
  let publish r := if (event_seq r =? 1)%Z then (false, Some "broker down") else (true, None) in
  exists s', relay_round publish 7 s = (Ok tt, s') /\ map event_seq (unpublished_rows s') = [1%Z].
Proof.
  intros s publish.
  destruct (relay_round_leaves toy_sha256 publish 7 s) as (s' & Hr & He & Hu).
  { apply run_ok, empty_ok. }
  exists s'. split; [exact Hr|]. rewrite Hu. by vm_compute.
Defined.

(** ** What the code does beside its purpose *)

(** Appending an event again draws a number: the log stays a chain and no row
    is missing, yet the next verification reports a gap, at every row after. *)
Lemma repeated_append_reports_gap :
  let s := run_appends toy_sha256 (map (fun id => toy_fields id JNull) ["e1"; "e1"; "e2"; "e3"]) empty_store in
  map event_seq (events s) = [1; 3; 4]%Z /\ store_ok toy_sha256 s /\
  match (verify_audit_chain toy_sha256 None None 1000 s).1 with
  | Ok report => map (fun v => (cv_event_seq v, cv_type v)) (cr_violations report)
                   = [(3%Z, "SEQUENCE_GAP"); (4%Z, "SEQUENCE_GAP")]
  | Err _ => False
  end.
Proof. split; [by vm_compute|]. split; [apply run_ok, empty_ok|by vm_compute]. Qed.

(** The handler looks the row it just stored up by [request_id], with the id of
    the event: it finds nothing and publishes nothing, unless another event
    names this one as its request; then that row is published in its place. *)
Lemma ingest_publishes_wrong_row :
  let now := occurred_at (toy_fields "" JNull) in
  let publish r := (true, Some (event_id (row_fields r))) in
  let alone := (ingest_audit_event toy_sha256 (Some publish) "u" now 7 toy_request empty_store).2 in
  let caller := {| event_id := "e0"; occurred_at := now; actor_type := "SYSTEM"; actor_id := None;
    principal_name := None; service_name := "x"; plane := "p"; action := "a"; resource_type := "";
    resource_id := ""; decision := "ALLOW"; reason := ""; severity := "INFO";
    request_id := Some "e7"; correlation_id := None; trace_id := None; idempotency_key := None;
    data := JNull |} in
  let s := run_appends toy_sha256 [caller] empty_store in
  let both := (ingest_audit_event toy_sha256 (Some publish) "u" now 7 toy_request s).2 in
  deliveries alone = ∅ /\
  deliveries both !! 2%Z = Some {| published_at := Some 7%Z; attempts := 1; last_error := Some "e0" |}.
Proof. by vm_compute. Qed.
