(* ===== verification/Base64.v ===== *)
(** Base 64 as the program uses it: the standard and the urlsafe encoder, the
    decoder of Python's [binascii], which skips the characters outside the
    alphabet and stops at the padding unless it is strict, and the
    [b64url_encode] and [b64url_decode] of security.py of apexquant-auth,
    without padding.  Bytes are the characters of a [string]. *)
From stdpp Require Import base strings list numbers.
From Stdlib Require Import Ascii.
From S2P Require Import Prelude PyStr.

Inductive binascii_Error :=
  NumberOfDataCharacters | IncorrectPadding | ExcessPadding | ExcessData | OnlyBase64 | Discontinuous.

(** The two alphabets. *)
Definition b64_char (urlsafe : bool) (n : N) : ascii :=
  if (n <? 26)%N then ascii_of_N (65 + n)
  else if (n <? 52)%N then ascii_of_N (71 + n)
  else if (n <? 62)%N then ascii_of_N (n - 4)
  else if (n =? 62)%N then (if urlsafe then "-" else "+")%char
  else (if urlsafe then "_" else "/")%char.

(** The value of a character; [urlsafe_b64decode] translates [-_] to [+/] first. *)
Definition b64_value (urlsafe : bool) (c : ascii) : option N :=
  if is_upper c then Some (N_of_ascii c - 65)%N
  else if is_lower c then Some (N_of_ascii c - 71)%N
  else if is_digit c then Some (N_of_ascii c + 4)%N
  else if (c =? "+")%char || urlsafe && (c =? "-")%char then Some 62%N
  else if (c =? "/")%char || urlsafe && (c =? "_")%char then Some 63%N
  else None.

Definition pad : ascii := "="%char.

(** [base64.b64encode] and [base64.urlsafe_b64encode] *)
Fixpoint encode (urlsafe : bool) (data : string) : string :=
  match data with
  | "" => ""
  | String a "" =>
      let a := N_of_ascii a in
      String (b64_char urlsafe (a / 4)) (String (b64_char urlsafe (a mod 4 * 16)) (String pad (String pad "")))
  | String a (String b "") =>
      let a := N_of_ascii a in let b := N_of_ascii b in
      String (b64_char urlsafe (a / 4)) (String (b64_char urlsafe (a mod 4 * 16 + b / 16))
        (String (b64_char urlsafe (b mod 16 * 4)) (String pad "")))
  | String a (String b (String c data')) =>
      let a := N_of_ascii a in let b := N_of_ascii b in let c := N_of_ascii c in
      String (b64_char urlsafe (a / 4)) (String (b64_char urlsafe (a mod 4 * 16 + b / 16))
        (String (b64_char urlsafe (b mod 16 * 4 + c / 64)) (String (b64_char urlsafe (c mod 64))
          (encode urlsafe data'))))
  end.

(** [s.rstrip(b"=")] *)
Fixpoint rstrip_pad (s : string) : string :=
  match s with
  | "" => ""
  | String c s' =>
      match rstrip_pad s' with
      | "" => if (c =? pad)%char then "" else String c ""
      | r => String c r
      end
  end.

Definition emit (n : N) (r : result binascii_Error string) : result binascii_Error string :=
  match r with Ok s => Ok (String (ascii_of_N n) s) | Err e => Err e end.

(** [binascii.a2b_base64]: the position in the quad, the bits left over from
    the character before, the padding seen, and whether there was any. *)
Fixpoint a2b_base64 (urlsafe strict : bool) (s : string) (quad : nat) (left : N) (pads : nat)
    (started : bool) : result binascii_Error string :=
  match s with
  | "" =>
      match quad with
      | 0 => Ok ""
      | 1 => Err NumberOfDataCharacters
      | _ => Err IncorrectPadding
      end
  | String c s' =>
      if (c =? pad)%char then
        if strict && (quad =? 0)%nat then Err ExcessPadding
        else if (2 <=? quad)%nat then
          if (4 <=? quad + S pads)%nat
          then (if strict && negb (str_empty s') then Err ExcessData else Ok "")
          else a2b_base64 urlsafe strict s' quad left (S pads) true
        else a2b_base64 urlsafe strict s' quad left pads true
      else match b64_value urlsafe c with
      | None => if strict then Err OnlyBase64 else a2b_base64 urlsafe strict s' quad left pads started
      | Some v =>
          if strict && started then Err Discontinuous
          else match quad with
          | 0 => a2b_base64 urlsafe strict s' 1 v 0 started
          | 1 => emit (left * 4 + v / 16) (a2b_base64 urlsafe strict s' 2 (v mod 16) 0 started)
          | 2 => emit (left * 16 + v / 4) (a2b_base64 urlsafe strict s' 3 (v mod 4) 0 started)
          | _ => emit (left * 64 + v) (a2b_base64 urlsafe strict s' 0 0 0 started)
          end
      end
  end.

(** [base64.b64decode(s, validate=strict)] and [base64.urlsafe_b64decode] *)
Definition b64encode : string -> string := encode false.
Definition b64decode (strict : bool) (s : string) : result binascii_Error string :=
  a2b_base64 false strict s 0 0 0 false.
Definition urlsafe_b64encode : string -> string := encode true.
Definition urlsafe_b64decode (s : string) : result binascii_Error string :=
  a2b_base64 true false s 0 0 0 false.

Fixpoint pads_of (n : nat) : string := match n with O => "" | S n => String pad (pads_of n) end.

Definition b64url_encode (data : string) : string := rstrip_pad (urlsafe_b64encode data).
(** [-len(data) % 4] *)
Definition padding (data : string) : string :=
  pads_of (Z.to_nat ((- Z.of_nat (String.length data)) mod 4)).
Definition b64url_decode (data : string) : result binascii_Error string :=
  urlsafe_b64decode (data ++ padding data).

Example b64_ex :
  (b64url_encode "hello", b64url_decode "aGVsbG8", b64url_decode "aGV sbG8", b64url_decode "aGVsb")
  = ("aGVsbG8", Ok "hello", Err IncorrectPadding, Err NumberOfDataCharacters).
Proof. vm_compute. reflexivity. Qed.

(** ** Round trip *)

Lemma N_of_ascii_bound c : (N_of_ascii c < 256)%N.
Proof. apply N_ascii_bounded. Qed.

Definition b64_alphabet (c : ascii) : bool := is_alnum c || (c =? "-")%char || (c =? "_")%char.

Lemma b64_char_facts u n :
  (n < 64)%N ->
  (b64_char u n =? pad)%char = false /\ b64_value u (b64_char u n) = Some n
  /\ b64_alphabet (b64_char true n) = true /\ (b64_char false n =? pad)%char = false.
Proof.
  intros Hn.
  assert (forallb (fun n => forallb (fun u => negb (b64_char u n =? pad)%char
    && bool_decide (b64_value u (b64_char u n) = Some n)) [true; false] && b64_alphabet (b64_char true n))
    (map N.of_nat (seq 0 64)) = true) as H by by vm_compute.
  rewrite forallb_forall in H. specialize (H n).
  rewrite !andb_true_iff, forallb_forall in H.
  destruct H as [Hu Ha]; [apply in_map_iff; exists (N.to_nat n); rewrite in_seq; lia|].
  assert (forall u, (b64_char u n =? pad)%char = false /\ b64_value u (b64_char u n) = Some n) as Hboth.
  { intros v. specialize (Hu v ltac:(destruct v; simpl; auto)).
    rewrite andb_true_iff, negb_true_iff, bool_decide_eq_true in Hu. done. }
  destruct (Hboth u), (Hboth false). done.
Qed.

Lemma b64_char_alphabet n : (n < 64)%N -> b64_alphabet (b64_char true n) = true.
Proof. intros Hn. apply (b64_char_facts true n Hn). Qed.

(** Data by groups of three bytes. *)
Lemma triples_ind (P : string -> Prop) :
  P "" -> (forall a, P (String a "")) -> (forall a b, P (String a (String b ""))) ->
  (forall a b c s, P s -> P (String a (String b (String c s)))) -> forall s, P s.
Proof.
  intros H0 H1 H2 H3 s. enough (P s /\ (forall a, P (String a s)) /\ (forall a b, P (String a (String b s)))) by tauto.
  induction s as [|x s (IH & IH1 & IH2)]; split_and!; auto.
Qed.

Lemma a2b_char u strict n s quad left pads :
  (n < 64)%N ->
  a2b_base64 u strict (String (b64_char u n) s) quad left pads false
  = match quad with
    | 0 => a2b_base64 u strict s 1 n 0 false
    | 1 => emit (left * 4 + n / 16) (a2b_base64 u strict s 2 (n mod 16) 0 false)
    | 2 => emit (left * 16 + n / 4) (a2b_base64 u strict s 3 (n mod 4) 0 false)
    | _ => emit (left * 64 + n) (a2b_base64 u strict s 0 0 0 false)
    end.
Proof.
  intros Hn. destruct (b64_char_facts u n Hn) as (H1 & H2 & _ & _). cbn [a2b_base64].
  by rewrite H1, H2, andb_false_r.
Qed.

Ltac byte_arith := zify; Z.to_euclidean_division_equations; lia.

Lemma emit_byte n a r : n = N_of_ascii a -> emit n (Ok r) = Ok (String a r).
Proof. intros ->. simpl. by rewrite ascii_N_embedding. Qed.

Lemma b64_roundtrip u strict data : a2b_base64 u strict (encode u data) 0 0 0 false = Ok data.
Proof.
  induction data as [|a|a b|a b c data IH] using triples_ind; [done|..];
    pose proof (N_of_ascii_bound a) as Ha; try pose proof (N_of_ascii_bound b) as Hb;
    try pose proof (N_of_ascii_bound c) as Hc; cbn [encode].
  - rewrite !a2b_char by byte_arith. destruct strict; cbn -[emit N.add N.mul N.div N.modulo];
      apply emit_byte; byte_arith.
  - rewrite !a2b_char by byte_arith. destruct strict; cbn -[emit N.add N.mul N.div N.modulo];
      (erewrite !emit_byte; [done|byte_arith..]).
  - rewrite !a2b_char by byte_arith. rewrite IH. erewrite !emit_byte; [done|byte_arith..].
Qed.

Lemma rstrip_pads s n : no_char pad s -> rstrip_pad (s ++ pads_of n) = s.
Proof.
  intros Hs. induction s as [|c s IH]; simpl.
  - induction n as [|n IHn]; [done|]. simpl. by rewrite IHn.
  - apply no_char_cons in Hs as [Hc Hs]. rewrite IH by done.
    destruct (Ascii.eqb_spec c pad); [done|]. by destruct s.
Qed.

(** The padding that is dropped is the one [b64url_decode] puts back. *)
Lemma encode_split data :
  exists body, urlsafe_b64encode data = body ++ padding body /\ str_forall b64_alphabet body = true.
Proof.
  induction data as [|a|a b|a b c data (body & IH & Hb)] using triples_ind.
  - by exists "".
  - pose proof (N_of_ascii_bound a) as Ha. eexists (String _ (String _ "")).
    split; [reflexivity|]. cbn [str_forall]. by rewrite !b64_char_alphabet by byte_arith.
  - pose proof (N_of_ascii_bound a) as Ha. pose proof (N_of_ascii_bound b) as Hb.
    eexists (String _ (String _ (String _ ""))).
    split; [reflexivity|]. cbn [str_forall]. by rewrite !b64_char_alphabet by byte_arith.
  - pose proof (N_of_ascii_bound a) as Ha. pose proof (N_of_ascii_bound b) as Hb'.
    pose proof (N_of_ascii_bound c) as Hc. eexists (String _ (String _ (String _ (String _ body)))).
    split.
    + unfold urlsafe_b64encode in *. cbn [encode]. rewrite IH. cbn [String.append]. do 5 f_equal.
      unfold padding. do 2 f_equal. cbn [String.length]. byte_arith.
    + cbn [str_forall]. by rewrite !b64_char_alphabet, Hb by byte_arith.
Qed.

Lemma b64_no_pad s : str_forall b64_alphabet s = true -> no_char pad s.
Proof. by apply no_char_forall. Qed.

Lemma b64url_encode_alphabet data : str_forall b64_alphabet (b64url_encode data) = true.
Proof.
  destruct (encode_split data) as (body & He & Hb). unfold b64url_encode, padding in *.
  by rewrite He, rstrip_pads by by apply b64_no_pad.
Qed.

Lemma b64url_roundtrip data : b64url_decode (b64url_encode data) = Ok data.
Proof.
  destruct (encode_split data) as (body & He & Hb). unfold b64url_decode.
  assert (b64url_encode data = body) as ->.
  { unfold b64url_encode. rewrite He. apply rstrip_pads. by apply b64_no_pad. }
  rewrite <- He. apply (b64_roundtrip true false).
Qed.

Lemma b64_strict_roundtrip data : b64decode true (b64encode data) = Ok data.
Proof. apply (b64_roundtrip false true). Qed.
