(* ===== verification/AuthToken.v ===== *)
(** Tokens and API keys: [security.py] of apexquant-auth.

    [hmac_sha256 key message] stands for [hmac.new(key, message,
    hashlib.sha256).digest()], [argon2_hash salt] and [argon2_verify] for the
    password hasher, [model_validate] for pydantic's validation of
    [TokenClaims], [utf8_decode] for [bytes.decode("utf-8")].  Random bytes are
    arguments. *)
From stdpp Require Import base strings list pretty numbers.
From Stdlib Require Import Ascii.
From S2P Require Import Prelude PyStr Json Base64.

Definition TOKEN_VERSION : string := "v1".

Record TokenClaims := {
  sub : string; typ : string; iat : Z; exp : Z; jti : string; claim_permissions : list string }.

Record AuthContext := {
  subject : string; cx_principal_type : string; cx_permissions : list string;
  cx_expires_at : Z; cx_jti : string }.

Inductive auth_exc :=
| AuthSecurityError (message : string)
| BinasciiError (e : binascii_Error)
| UnicodeError
| JSONDecodeError
| ValidationError
| InvalidHashError
| DatabaseError (constraint : string).

(** [claims.model_dump(mode="json")] *)
Definition model_dump (c : TokenClaims) : json :=
  JDict [("sub", JStr (sub c)); ("typ", JStr (typ c)); ("iat", JNum (iat c)); ("exp", JNum (exp c));
         ("jti", JStr (jti c)); ("permissions", JList (map JStr (claim_permissions c)))].

Definition context_of (c : TokenClaims) : AuthContext :=
  {| subject := sub c; cx_principal_type := typ c; cx_permissions := claim_permissions c;
     cx_expires_at := exp c; cx_jti := jti c |}.

(** The decoders on a [str], which must be ASCII. *)
Definition b64_result (s : string) (r : result binascii_Error string) : result auth_exc string :=
  if str_forall is_ascii s then map_err BinasciiError r else Err UnicodeError.

Definition decode_token_secret (secret_b64 : string) : result auth_exc string :=
  secret ← b64_result secret_b64 (b64decode false (strip secret_b64));
  if negb (String.length secret =? 32)%nat
  then Err (AuthSecurityError "token secret must be exactly 32 bytes") else Ok secret.

(** The identifier, the secret and the key, from 12 and 32 random bytes. *)
Definition generate_api_key (bytes12 bytes32 : string) : string * string * string :=
  let identifier := b64url_encode bytes12 in
  let secret := b64url_encode bytes32 in
  (identifier, secret, identifier ++ "." ++ secret).

Definition parse_api_key (api_key : string) : result auth_exc (string * string) :=
  let api_key := strip api_key in
  if str_empty api_key then Err (AuthSecurityError "API key must not be empty")
  else match split_first "." api_key with
  | Some (identifier, secret) =>
      if str_empty identifier || str_empty secret
      then Err (AuthSecurityError "invalid API key format") else Ok (identifier, secret)
  | None => Ok ("bootstrap", api_key)
  end.

(** What [PasswordHasher.verify] does. *)
Inductive argon2_outcome := Verified | VerifyMismatchError | InvalidHash.

Section Tokens.
Variable hmac_sha256 : string -> string -> string.
Variable model_validate : json -> option TokenClaims.
Variable utf8_decode : string -> option string.
Variable argon2_verify : string -> string -> argon2_outcome.

Definition verify_api_key_secret (secret_hash secret : string) : result auth_exc bool :=
  match argon2_verify secret_hash secret with
  | Verified => Ok true
  | VerifyMismatchError => Ok false
  | InvalidHash => Err InvalidHashError
  end.

Definition signing_input (payload_b64 : string) : string := TOKEN_VERSION ++ "." ++ payload_b64.

Definition sign_token (secret : string) (claims : TokenClaims) : string :=
  let payload_b64 := b64url_encode (dumps compact (model_dump claims)) in
  let signature := hmac_sha256 secret (signing_input payload_b64) in
  TOKEN_VERSION ++ "." ++ payload_b64 ++ "." ++ b64url_encode signature.

Definition verify_token (secret token : string) (now_unix : Z) : result auth_exc AuthContext :=
  match split_on "." (strip token) with
  | [version; payload_b64; signature_b64] =>
      if negb (version =? TOKEN_VERSION)
      then Err (AuthSecurityError "unsupported token version")
      else if negb (str_forall is_ascii (version ++ "." ++ payload_b64)) then Err UnicodeError
      else
        let expected_signature := hmac_sha256 secret (version ++ "." ++ payload_b64) in
        provided_signature ← b64_result signature_b64 (b64url_decode signature_b64);
        if negb (expected_signature =? provided_signature)
        then Err (AuthSecurityError "invalid token signature")
        else
          payload_bytes ← b64_result payload_b64 (b64url_decode payload_b64);
          match utf8_decode payload_bytes with
          | None => Err UnicodeError
          | Some text =>
              match loads text with
              | None => Err JSONDecodeError
              | Some payload =>
                  match model_validate payload with
                  | None => Err ValidationError
                  | Some claims =>
                      if (exp claims <=? now_unix)%Z then Err (AuthSecurityError "token expired")
                      else Ok (context_of claims)
                  end
              end
          end
  | _ => Err (AuthSecurityError "invalid token format")
  end.

(** ** What the parameters are relied on for *)

(** Validation reads back what was dumped; ASCII bytes decode to themselves. *)
Hypothesis validate_dump : forall c, model_validate (model_dump c) = Some c.
Hypothesis utf8_ascii : forall s, str_forall is_ascii s = true -> utf8_decode s = Some s.

Lemma alphabet_ascii s : str_forall b64_alphabet s = true -> str_forall is_ascii s = true.
Proof. apply str_forall_impl. intros c. by destruct c as [[] [] [] [] [] [] [] []]. Qed.

Lemma alphabet_no_dot s : str_forall b64_alphabet s = true -> no_char "." s.
Proof. by apply no_char_forall. Qed.

Lemma alphabet_no_space s :
  str_forall b64_alphabet s = true -> str_forall (fun c => negb (is_space c)) s = true.
Proof. apply str_forall_impl. intros c. by destruct c as [[] [] [] [] [] [] [] []]. Qed.

Lemma b64_result_encode data :
  b64_result (b64url_encode data) (b64url_decode (b64url_encode data)) = Ok data.
Proof. unfold b64_result. by rewrite (alphabet_ascii _ (b64url_encode_alphabet data)), b64url_roundtrip. Qed.

Lemma dump_wf c : json_wf (model_dump c) = true.
Proof.
  unfold model_dump. cbn [json_wf]. apply andb_true_iff. split.
  - by apply bool_decide_eq_true; match goal with |- ?P => apply (bool_decide_eq_true P); by vm_compute end.
  - cbn [forallb snd json_wf]. rewrite andb_true_r. induction (claim_permissions c); [done|]. by simpl.
Qed.

(** The parts of a token as [sign_token] writes it. *)
Lemma signed_parts payload_b64 signature :
  str_forall b64_alphabet payload_b64 = true -> str_forall b64_alphabet signature = true ->
  split_on "." (strip (TOKEN_VERSION ++ "." ++ payload_b64 ++ "." ++ signature))
  = [TOKEN_VERSION; payload_b64; signature].
Proof.
  intros Hp Hs. rewrite strip_no_space.
  - change (TOKEN_VERSION ++ "." ++ payload_b64 ++ "." ++ signature)
      with (TOKEN_VERSION ++ String "." (payload_b64 ++ String "." signature)).
    rewrite split_on_app by done. rewrite split_on_app by by apply alphabet_no_dot.
    by rewrite split_on_no_char by by apply alphabet_no_dot.
  - by rewrite !str_forall_app, (alphabet_no_space payload_b64), (alphabet_no_space signature).
Qed.

(** What [verify_token] accepts, exactly. *)
Lemma verify_ok secret token now cx :
  verify_token secret token now = Ok cx <->
  exists payload_b64 signature_b64 bytes text j claims,
    split_on "." (strip token) = [TOKEN_VERSION; payload_b64; signature_b64] /\
    str_forall is_ascii payload_b64 = true /\
    b64_result signature_b64 (b64url_decode signature_b64)
      = Ok (hmac_sha256 secret (signing_input payload_b64)) /\
    b64_result payload_b64 (b64url_decode payload_b64) = Ok bytes /\
    utf8_decode bytes = Some text /\ loads text = Some j /\ model_validate j = Some claims /\
    (now < exp claims)%Z /\ cx = context_of claims.
Proof.
  unfold verify_token. split.
  - destruct (split_on _ _) as [|v [|p [|sg [|? ?]]]]; try done.
    destruct (String.eqb_spec v TOKEN_VERSION) as [->|]; [|done]. cbn [negb].
    destruct (str_forall is_ascii _) eqn:Ha; [|done]. cbn [negb].
    destruct (b64_result sg _) as [sig|] eqn:Hs; [|done]. simpl.
    destruct (String.eqb_spec (hmac_sha256 secret (String "v" (String "1" (String "." p)))) sig) as [<-|];
      [|done]. simpl.
    destruct (b64_result p _) as [bytes|] eqn:Hp; [|done]. simpl.
    destruct (utf8_decode bytes) as [text|] eqn:Hu; [|done].
    destruct (loads text) as [j|] eqn:Hl; [|done].
    destruct (model_validate j) as [c|] eqn:Hv; [|done].
    destruct (Z.leb_spec (exp c) now); [done|]. intros [= <-].
    exists p, sg, bytes, text, j, c. by split_and!.
  - intros (p & sg & bytes & text & j & c & -> & Ha & Hs & Hp & Hu & Hl & Hv & Hn & ->).
    rewrite String.eqb_refl. cbn [negb]. unfold TOKEN_VERSION in *. cbn [String.append str_forall].
    rewrite Ha. cbn [is_ascii]. simpl. rewrite Hs. simpl. unfold signing_input, TOKEN_VERSION.
    cbn [String.append]. rewrite String.eqb_refl, Hp. simpl. rewrite Hu, Hl, Hv.
    by rewrite (proj2 (Z.leb_gt _ _)).
Qed.

(** A token verifies to the claims it was signed with until they expire,
    and is refused as expired from then on. *)
Lemma verify_signed secret claims now :
  verify_token secret (sign_token secret claims) now
  = if (exp claims <=? now)%Z then Err (AuthSecurityError "token expired")
    else Ok (context_of claims).
Proof.
  unfold verify_token, sign_token. set (p := b64url_encode (dumps compact _)).
  pose proof (b64url_encode_alphabet (dumps compact (model_dump claims))) as Hp. fold p in Hp.
  rewrite signed_parts by (done || apply b64url_encode_alphabet).
  rewrite String.eqb_refl. cbn [negb]. change (TOKEN_VERSION ++ "." ++ p) with (signing_input p).
  assert (str_forall is_ascii (signing_input p) = true) as ->.
  { unfold signing_input. rewrite !str_forall_app, (alphabet_ascii _ Hp). done. }
  cbn [negb]. rewrite b64_result_encode. cbn [mbind result_bind]. rewrite String.eqb_refl. cbn [negb].
  unfold p. rewrite b64_result_encode. cbn [mbind result_bind].
  set (text := dumps compact (model_dump claims)).
  rewrite utf8_ascii by by apply dumps_ascii. unfold text.
  rewrite loads_dumps by (apply compact_sep || apply dump_wf).
  by rewrite normalize_unsorted, validate_dump.
Qed.

Definition payload_text (claims : TokenClaims) : string := b64url_encode (dumps compact (model_dump claims)).

(** A signature made for some claims carries no others: a token accepted
    with that signature, whatever its text, yields the context of those claims,
    unexpired, unless the hash of the two signed texts collides. *)
Theorem signature_binds_claims secret token now cx claims :
  verify_token secret token now = Ok cx ->
  (forall v p sg, split_on "." (strip token) = [v; p; sg] ->
     b64url_decode sg = Ok (hmac_sha256 secret (signing_input (payload_text claims))) /\
     (hmac_sha256 secret (signing_input p) = hmac_sha256 secret (signing_input (payload_text claims)) ->
      p = payload_text claims)) ->
  cx = context_of claims /\ (now < exp claims)%Z.
Proof.
  intros Hok Hsig. pose proof Hok as (p & sg & bytes & text & j & c & Hsplit & _ & Hs & _)%verify_ok.
  destruct (Hsig _ _ _ Hsplit) as [Hd Hcol]. unfold b64_result in Hs. rewrite Hd in Hs.
  destruct (str_forall is_ascii sg) eqn:Hasc; [|done]. injection Hs as He.
  specialize (Hcol (eq_sym He)). subst p. pose proof (verify_signed secret claims now) as Hrt.
  enough (verify_token secret token now = verify_token secret (sign_token secret claims) now) as Hsame.
  { rewrite Hsame, Hrt in Hok. destruct (Z.leb_spec (exp claims) now); [done|].
    injection Hok as <-. done. }
  unfold verify_token, sign_token. fold (payload_text claims).
  rewrite signed_parts by apply b64url_encode_alphabet. rewrite Hsplit, b64_result_encode.
  assert (b64_result sg (b64url_decode sg)
    = Ok (hmac_sha256 secret (signing_input (payload_text claims)))) as ->; [|done].
  unfold b64_result. by rewrite Hasc, Hd.
Qed.

(** Another key refuses the token, unless it makes the same signature. *)
Lemma verify_other_key secret secret' claims now :
  hmac_sha256 secret' (signing_input (payload_text claims)) <> hmac_sha256 secret (signing_input (payload_text claims)) ->
  verify_token secret' (sign_token secret claims) now = Err (AuthSecurityError "invalid token signature").
Proof.
  intros Hne. unfold verify_token, sign_token. fold (payload_text claims).
  pose proof (b64url_encode_alphabet (dumps compact (model_dump claims))) as Hp. fold (payload_text claims) in Hp.
  rewrite signed_parts by (done || apply b64url_encode_alphabet). rewrite String.eqb_refl. cbn [negb].
  change (TOKEN_VERSION ++ "." ++ payload_text claims) with (signing_input (payload_text claims)).
  assert (str_forall is_ascii (signing_input (payload_text claims)) = true) as ->
    by (unfold signing_input; rewrite !str_forall_app, (alphabet_ascii _ Hp); done).
  cbn [negb]. rewrite b64_result_encode. cbn [mbind result_bind]. by apply String.eqb_neq in Hne as ->.
Qed.

(** C13: a signed token verifies, until it expires, to exactly the claims it was
    signed with, and is refused as expired from then on; under a key that signs
    its text otherwise it is refused.  Its signature vouches for nothing else:
    any token accepted with that signature gives the same claims, unexpired,
    unless its text and the signed one are a collision of the hash. *)
Theorem token_roundtrip secret claims now :
  verify_token secret (sign_token secret claims) now =
    (if (exp claims <=? now)%Z then Err (AuthSecurityError "token expired") else Ok (context_of claims)) /\
  (forall secret',
     hmac_sha256 secret' (signing_input (payload_text claims)) <> hmac_sha256 secret (signing_input (payload_text claims)) ->
     verify_token secret' (sign_token secret claims) now = Err (AuthSecurityError "invalid token signature")) /\
  (forall token cx v p sg, verify_token secret token now = Ok cx -> split_on "." (strip token) = [v; p; sg] ->
     b64url_decode sg = Ok (hmac_sha256 secret (signing_input (payload_text claims))) ->
     cx = context_of claims /\ (now < exp claims)%Z \/
     p <> payload_text claims /\
       hmac_sha256 secret (signing_input p) = hmac_sha256 secret (signing_input (payload_text claims))).
Proof.
  split_and!; [apply verify_signed|intros secret'; apply verify_other_key|].
  intros token cx v p sg Hok Hsplit Hsig. destruct (decide (p = payload_text claims)) as [Heq|Hne].
  - left. apply (signature_binds_claims secret token now cx claims Hok).
    intros v' p' sg' Hs. rewrite Hsplit in Hs. injection Hs as <- <- <-. done.
  - destruct (decide (hmac_sha256 secret (signing_input p) = hmac_sha256 secret (signing_input (payload_text claims))))
      as [Hc|Hc]; [by right|]. exfalso. apply Hc.
    pose proof Hok as (p' & sg' & bytes & text & j & c & Hsp & _ & Hs & _)%verify_ok.
    rewrite Hsplit in Hsp. injection Hsp as -> <- <-. unfold b64_result in Hs. rewrite Hsig in Hs.
    destruct (str_forall is_ascii sg); [|done]. by injection Hs as ->.
Qed.
End Tokens.

(** A generated key parses into its two parts. *)
Lemma api_key_parses bytes12 bytes32 :
  bytes12 <> "" -> bytes32 <> "" ->
  let '(identifier, secret, full_key) := generate_api_key bytes12 bytes32 in
  parse_api_key full_key = Ok (identifier, secret).
Proof.
  intros H1 H2. unfold generate_api_key, parse_api_key.
  pose proof (b64url_encode_alphabet bytes12) as Ha1. pose proof (b64url_encode_alphabet bytes32) as Ha2.
  assert (forall data, data <> "" -> str_empty (b64url_encode data) = false) as Hne.
  { intros data Hd. destruct (b64url_encode data) eqn:He; [|done]. exfalso. apply Hd.
    pose proof (b64url_roundtrip data) as Hr. rewrite He in Hr. by injection Hr as <-. }
  rewrite strip_no_space by by rewrite !str_forall_app, (alphabet_no_space (b64url_encode bytes12)),
    (alphabet_no_space (b64url_encode bytes32)).
  assert (split_first "." (b64url_encode bytes12 ++ "." ++ b64url_encode bytes32)
    = Some (b64url_encode bytes12, b64url_encode bytes32)) as ->.
  { apply split_first_Some. split; [done|]. by apply alphabet_no_dot. }
  rewrite !Hne by done. by destruct (b64url_encode bytes12).
Qed.

(** A signature that is not base 64 raises [binascii.Error]: the service, which
    expects [AuthSecurityError], neither refuses nor records the attempt. *)
Lemma malformed_signature_raises hmac validate utf8 secret now :
  verify_token hmac validate utf8 secret "v1.e30.A" now = Err (BinasciiError NumberOfDataCharacters).
Proof. by vm_compute. Qed.
