(* ===== verification/AuthService.v ===== *)
(** The token service: [repository.py] and [service.py] of apexquant-auth over
    the tables of 0001_auth.sql, with the guards 0002_rbac.sql puts on direct
    grants.

    The pool commits every statement by itself, so an error keeps the writes
    made before it.  [gen_random_uuid] gives an id not used before, here the
    next number.  [now] is the clock of the service and of the database.  The
    constant [credential_type] and the columns [created_at], [updated_at] and
    [granted_at], which nothing reads, are left out. *)
From stdpp Require Import base strings list gmap pretty numbers.
From Stdlib Require Import Ascii.
From S2P Require Import Prelude PyStr Json Base64 Rbac AuthToken.

(** ** models.py *)

Inductive PrincipalType := SERVICE | ADMIN | USER.
Inductive CredentialStatus := ACTIVE | REVOKED | EXPIRED.
#[export] Instance status_eq_dec : EqDecision CredentialStatus.
Proof. solve_decision. Defined.

Definition type_value (t : PrincipalType) : string :=
  match t with SERVICE => "SERVICE" | ADMIN => "ADMIN" | USER => "USER" end.

Record IssueTokenResponse := {
  access_token : string; expires_in : Z; rs_permissions : list string }.
Record CreateApiKeyRequest := {
  rq_subject_name : string; rq_principal_type : PrincipalType; rq_permissions : list string;
  expires_in_days : option Z }.
Record CreateApiKeyResponse := {
  rs_subject_name : string; rs_principal_type : PrincipalType; rs_identifier : string;
  rs_api_key : string; rs_granted : list string }.

(** ** The tables *)

Record Principal := {
  principal_id : Z; subject_name : string; principal_type : PrincipalType; display_name : string;
  active : bool }.
Record Credential := {
  credential_id : Z; cr_principal : Z; identifier : string; secret_hash : string;
  status : CredentialStatus; cr_expires_at : option Z; last_used_at : option Z }.
Record Grant := { gr_principal : Z; permission : string; gr_expires_at : option Z }.
Record AuthEvent := {
  ev_subject : string; ev_type : option string; ev_action : string; ev_decision : string;
  ev_reason : string; ev_details : json }.

Record AuthDB := {
  principals : list Principal;
  credentials : list Credential;
  permission_grants : list Grant;
  auth_events : list AuthEvent;
  next_id : Z
}.
Definition empty_db : AuthDB :=
  {| principals := []; credentials := []; permission_grants := []; auth_events := []; next_id := 1 |}.

Definition with_principals l s := {| principals := l; credentials := credentials s;
  permission_grants := permission_grants s; auth_events := auth_events s; next_id := next_id s |}.
Definition with_credentials l s := {| principals := principals s; credentials := l;
  permission_grants := permission_grants s; auth_events := auth_events s; next_id := next_id s |}.
Definition with_grants l s := {| principals := principals s; credentials := credentials s;
  permission_grants := l; auth_events := auth_events s; next_id := next_id s |}.
Definition with_events l s := {| principals := principals s; credentials := credentials s;
  permission_grants := permission_grants s; auth_events := l; next_id := next_id s |}.
Definition take_id s := {| principals := principals s; credentials := credentials s;
  permission_grants := permission_grants s; auth_events := auth_events s; next_id := next_id s + 1 |}.

(** [permission LIKE 'emergency_stop:%'], where [_] matches any character. *)
Fixpoint like_prefix (pattern s : string) : bool :=
  match pattern, s with
  | "", _ => true
  | String p pattern', String c s' => ((p =? "_")%char || (p =? c)%char) && like_prefix pattern' s'
  | _, _ => false
  end.
Definition emergency (p : string) : bool := (p =? "emergency_stop") || like_prefix "emergency_stop:" p.

(** The row of [get_credential_with_principal]. *)
Record CredentialRow := { row_credential : Credential; row_principal : Principal }.

(** ** repository.py *)

Notation AuthM := (st AuthDB auth_exc).

(** The upsert of a principal, active from then on. *)
Definition create_principal (name : string) (ty : PrincipalType) : AuthM Z := fun s =>
  if negb (not_blank name) then (Err (DatabaseError "principals_subject_name_not_empty"), s)
  else match tbl_find (fun p => subject_name p =? name) (principals s) with
  | Some old =>
      (Ok (principal_id old),
       with_principals (tbl_update (fun p => subject_name p =? name)
         (fun p => {| principal_id := principal_id p; subject_name := subject_name p;
                      principal_type := ty; display_name := display_name p; active := true |}) (principals s)) s)
  | None =>
      (Ok (next_id s),
       take_id (with_principals (principals s ++
         [{| principal_id := next_id s; subject_name := name; principal_type := ty;
             display_name := name; active := true |}]) s))
  end.

Definition insert_grant (pid : Z) (p : string) : AuthM unit := fun s =>
  if emergency p then (Err (DatabaseError "emergency_stop is out-of-band of RBAC"), s)
  else if negb (is_ok (validate_permission forbidden_matrix p))
  then (Err (DatabaseError "permission_grants_grammar"), s)
  else if negb (existsb (fun x => (principal_id x =? pid)%Z) (principals s))
  then (Err (DatabaseError "permission_grants_principal_id_fkey"), s)
  else if existsb (fun g => (gr_principal g =? pid)%Z && (permission g =? p)) (permission_grants s)
  then (Ok tt, s)
  else (Ok tt, with_grants (permission_grants s ++
          [{| gr_principal := pid; permission := p; gr_expires_at := None |}]) s).

Definition grant_permissions (pid : Z) (ps : list string) : AuthM unit := for_each (insert_grant pid) ps.

Definition check_credential (ident hash : string) : AuthM unit := fun s =>
  if negb (not_blank ident) then (Err (DatabaseError "credentials_identifier_not_empty"), s)
  else if negb (not_blank hash) then (Err (DatabaseError "credentials_secret_hash_not_empty"), s)
  else (Ok tt, s).

Definition insert_credential (pid : Z) (ident hash : string) (expires : option Z) (s : AuthDB) : AuthDB :=
  take_id (with_credentials (credentials s ++
    [{| credential_id := next_id s; cr_principal := pid; identifier := ident; secret_hash := hash;
        status := ACTIVE; cr_expires_at := expires; last_used_at := None |}]) s).

Definition create_credential (pid : Z) (ident hash : string) (expires : option Z) : AuthM unit :=
  check_credential ident hash ≫= fun _ =>
  s ← get_state;
  if existsb (fun c => identifier c =? ident) (credentials s)
  then raise (DatabaseError "credentials_identifier_key")
  else put_state (insert_credential pid ident hash expires s).

(** The upsert of [ensure_bootstrap]. *)
Definition upsert_credential (pid : Z) (ident hash : string) : AuthM unit :=
  check_credential ident hash ≫= fun _ =>
  s ← get_state;
  if existsb (fun c => identifier c =? ident) (credentials s)
  then put_state (with_credentials (tbl_update (fun c => identifier c =? ident)
         (fun c => {| credential_id := credential_id c; cr_principal := pid; identifier := identifier c;
                      secret_hash := hash; status := ACTIVE; cr_expires_at := None;
                      last_used_at := last_used_at c |}) (credentials s)) s)
  else put_state (insert_credential pid ident hash None s).

Definition get_credential_with_principal (ident : string) (s : AuthDB) : option CredentialRow :=
  c ← tbl_find (fun c => identifier c =? ident) (credentials s);
  p ← tbl_find (fun p => (principal_id p =? cr_principal c)%Z) (principals s);
  Some {| row_credential := c; row_principal := p |}.

(** [WHERE ... AND (expires_at IS NULL OR expires_at > now()) ORDER BY permission] *)
Definition get_permissions (now pid : Z) (s : AuthDB) : list string :=
  py_sorted str_lt (map permission (tbl_select
    (fun g => (gr_principal g =? pid)%Z
              && match gr_expires_at g with None => true | Some e => (now <? e)%Z end)
    (permission_grants s))).

Definition update_last_used (now cid : Z) : AuthM unit := fun s =>
  (Ok tt, with_credentials (tbl_update (fun c => (credential_id c =? cid)%Z)
     (fun c => {| credential_id := credential_id c; cr_principal := cr_principal c;
                  identifier := identifier c; secret_hash := secret_hash c; status := status c;
                  cr_expires_at := cr_expires_at c; last_used_at := Some now |}) (credentials s)) s).

Definition revoke (c : Credential) : Credential :=
  {| credential_id := credential_id c; cr_principal := cr_principal c; identifier := identifier c;
     secret_hash := secret_hash c; status := REVOKED; cr_expires_at := cr_expires_at c;
     last_used_at := last_used_at c |}.

Definition revoke_credential (ident : string) : AuthM bool := fun s =>
  (Ok (existsb (fun c => identifier c =? ident) (credentials s)),
   with_credentials (tbl_update (fun c => identifier c =? ident) revoke (credentials s)) s).

(** [record_event]; the decisions the service writes satisfy their CHECK. *)
Definition record_event (e : AuthEvent) : AuthM unit := fun s =>
  if negb (not_blank (ev_subject e)) then (Err (DatabaseError "auth_events_subject_name_not_empty"), s)
  else (Ok tt, with_events (auth_events s ++ [e]) s).

Section Service.
Variable hmac_sha256 : string -> string -> string.
Variable model_validate : json -> option TokenClaims.
Variable utf8_decode : string -> option string.
Variable argon2_hash : string -> string -> string.
Variable argon2_verify : string -> string -> argon2_outcome.
Variable token_secret : string.

Definition ensure_bootstrap (salt name api_key : string) (permissions : list string) : AuthM unit :=
  key ← lift (parse_api_key api_key);
  pid ← create_principal name ADMIN;
  grant_permissions pid permissions ≫= fun _ =>
  upsert_credential pid key.1 (argon2_hash salt key.2).

(** ** service.py *)

Definition audit (who : string) (ty : option string) (action_ decision_ reason_ : string) (details : json)
    : AuthM unit :=
  record_event {| ev_subject := who; ev_type := ty; ev_action := action_; ev_decision := decision_;
                  ev_reason := reason_; ev_details := details |}.

Definition deny_issue (who : string) (ty : option string) (reason_ message : string)
    : AuthM IssueTokenResponse :=
  audit who ty "ISSUE_TOKEN" "DENY" reason_ (JDict []) ≫= fun _ => raise (AuthSecurityError message).

Definition issue_token (uuid4 api_key : string) (now ttl_seconds : Z) : AuthM IssueTokenResponse :=
  key ← lift (parse_api_key api_key);
  s ← get_state;
  match get_credential_with_principal key.1 s with
  | None => deny_issue key.1 None "credential not found" "invalid API key"
  | Some row =>
      let name := subject_name (row_principal row) in
      let ty := type_value (principal_type (row_principal row)) in
      if negb (bool_decide (status (row_credential row) = ACTIVE))
      then deny_issue name (Some ty) "credential is not active" "credential is not active"
      else if negb (active (row_principal row))
      then deny_issue name (Some ty) "principal is not active" "principal is not active"
      else
        verified ← lift (verify_api_key_secret argon2_verify (secret_hash (row_credential row)) key.2);
        if negb verified
        then deny_issue name (Some ty) "invalid API key secret" "invalid API key"
        else
          let permissions := get_permissions now (principal_id (row_principal row)) s in
          update_last_used now (credential_id (row_credential row)) ≫= fun _ =>
          let claims := {| sub := name; typ := ty; iat := now; exp := now + ttl_seconds;
                           jti := uuid4; claim_permissions := permissions |} in
          let token := sign_token hmac_sha256 token_secret claims in
          audit name (Some ty) "ISSUE_TOKEN" "SUCCESS" "token issued"
            (JDict [("jti", JStr uuid4); ("ttl_seconds", JNum ttl_seconds)]) ≫= fun _ =>
          mret {| access_token := token; expires_in := ttl_seconds; rs_permissions := permissions |}
  end.

(** Only [AuthSecurityError] is caught. *)
Definition verify_token_service (token : string) (now : Z) : AuthM AuthContext :=
  match verify_token hmac_sha256 model_validate utf8_decode token_secret token now with
  | Err (AuthSecurityError m) =>
      audit "<unknown>" None "VERIFY_TOKEN" "DENY" m (JDict []) ≫= fun _ =>
      raise (AuthSecurityError m)
  | Err e => raise e
  | Ok context =>
      audit (subject context) (Some (cx_principal_type context)) "VERIFY_TOKEN" "SUCCESS"
        "token verified" (JDict [("jti", JStr (cx_jti context))]) ≫= fun _ => mret context
  end.

Definition authorize_action (context : AuthContext) (action_ resource : string) : AuthM bool :=
  let required := action_ ++ ":" ++ resource in
  let allowed := has_permission (cx_permissions context) required in
  audit (subject context) (Some (cx_principal_type context)) "AUTHORIZE"
    (if allowed then "ALLOW" else "DENY") required (JDict []) ≫= fun _ => mret allowed.

Definition create_api_key (bytes12 bytes32 salt : string) (now : Z) (caller : AuthContext)
    (request : CreateApiKeyRequest) : AuthM CreateApiKeyResponse :=
  guard_raise (negb (has_permission (cx_permissions caller) "auth:api_keys:write"))
    (AuthSecurityError "caller is not authorized to create API keys") ≫= fun _ =>
  pid ← create_principal (rq_subject_name request) (rq_principal_type request);
  grant_permissions pid (rq_permissions request) ≫= fun _ =>
  let '(ident, secret, full_key) := generate_api_key bytes12 bytes32 in
  let expires := (fun days => now + days * 86400)%Z <$> expires_in_days request in
  create_credential pid ident (argon2_hash salt secret) expires ≫= fun _ =>
  audit (subject caller) (Some (cx_principal_type caller)) "CREATE_API_KEY" "SUCCESS"
    ("created API key for " ++ rq_subject_name request) (JDict [("identifier", JStr ident)]) ≫= fun _ =>
  mret {| rs_subject_name := rq_subject_name request; rs_principal_type := rq_principal_type request;
          rs_identifier := ident; rs_api_key := full_key; rs_granted := rq_permissions request |}.

Definition revoke_api_key (caller : AuthContext) (ident : string) : AuthM bool :=
  guard_raise (negb (has_permission (cx_permissions caller) "auth:api_keys:write"))
    (AuthSecurityError "caller is not authorized to revoke API keys") ≫= fun _ =>
  revoked ← revoke_credential ident;
  audit (subject caller) (Some (cx_principal_type caller)) "REVOKE_API_KEY"
    (if revoked : bool then "SUCCESS" else "DENY") ("identifier=" ++ ident) (JDict []) ≫= fun _ =>
  mret revoked.
End Service.
