(* ===== verification/AuthProps.v ===== *)
(** Correctness of the token service: what an issued token says, that refusals
    are recorded and change nothing, that a created key works and a revoked one
    never does again. *)
From stdpp Require Import base strings list gmap pretty numbers.
From Stdlib Require Import Ascii.
From S2P Require Import Prelude PyStr Json Base64 Rbac AuthToken AuthService.

Section Props.
Variable hmac_sha256 : string -> string -> string.
Variable model_validate : json -> option TokenClaims.
Variable utf8_decode : string -> option string.
Variable argon2_hash : string -> string -> string.
Variable argon2_verify : string -> string -> argon2_outcome.
Variable token_secret : string.

Notation issue := (issue_token hmac_sha256 argon2_verify token_secret).
Notation verify := (verify_token hmac_sha256 model_validate utf8_decode token_secret).
Notation create := (create_api_key argon2_hash).

(** ** One operation at a time *)

Lemma audit_cases who ty a d r details s :
  audit who ty a d r details s
    = (Ok tt, with_events (auth_events s ++ [{| ev_subject := who; ev_type := ty; ev_action := a;
         ev_decision := d; ev_reason := r; ev_details := details |}]) s) \/
  exists e, audit who ty a d r details s = (Err e, s) /\ not_blank who = false.
Proof. unfold audit, record_event. simpl. destruct (not_blank who); [by left|right; by eexists]. Qed.

Lemma deny_cases who ty r m s :
  exists e s', deny_issue who ty r m s = (Err e, s') /\
    (not_blank who = true -> e = AuthSecurityError m /\
       s' = with_events (auth_events s ++ [{| ev_subject := who; ev_type := ty;
              ev_action := "ISSUE_TOKEN"; ev_decision := "DENY"; ev_reason := r;
              ev_details := JDict [] |}]) s) /\
    exists l, s' = with_events l s.
Proof.
  unfold deny_issue.
  destruct (audit_cases who ty "ISSUE_TOKEN" "DENY" r (JDict []) s) as [He|(e & He & Hb)].
  - rewrite (st_bind_ok _ _ _ _ _ He). do 2 eexists. split_and!; [done|done|by eexists].
  - rewrite (st_bind_err _ _ _ _ _ He). do 2 eexists. split_and!; [done|congruence|].
    exists (auth_events s). by destruct s.
Qed.

Lemma get_row_inv ident s row :
  get_credential_with_principal ident s = Some row ->
  tbl_find (fun c => identifier c =? ident) (credentials s) = Some (row_credential row) /\
  row_credential row ∈ credentials s /\ identifier (row_credential row) = ident /\
  row_principal row ∈ principals s /\
  principal_id (row_principal row) = cr_principal (row_credential row).
Proof.
  unfold get_credential_with_principal. destruct (tbl_find _ (credentials s)) as [c|] eqn:Hc; [|done].
  simpl. destruct (tbl_find _ (principals s)) as [p|] eqn:Hp; [|done]. intros [= <-]. simpl.
  apply head_Some_elem_of, tbl_select_elem in Hp as [Hp ?%Z.eqb_eq].
  pose proof Hc as [Hin ?%String.eqb_eq]%head_Some_elem_of%tbl_select_elem. done.
Qed.

(** Credentials as they stand, the time of last use left out. *)
Definition same_credential (c c' : Credential) : Prop :=
  credential_id c = credential_id c' /\ cr_principal c = cr_principal c' /\
  identifier c = identifier c' /\ secret_hash c = secret_hash c' /\ status c = status c' /\
  cr_expires_at c = cr_expires_at c'.

Lemma used_same now cid l :
  Forall2 same_credential l (tbl_update (fun c => (credential_id c =? cid)%Z)
     (fun c => {| credential_id := credential_id c; cr_principal := cr_principal c;
                  identifier := identifier c; secret_hash := secret_hash c; status := status c;
                  cr_expires_at := cr_expires_at c; last_used_at := Some now |}) l).
Proof.
  unfold tbl_update. induction l as [|c l IH]; simpl; constructor; [|done].
  by destruct (credential_id c =? cid)%Z.
Qed.

Definition claims_of (p : Principal) (uuid4 : string) (now ttl : Z) (permissions : list string) : TokenClaims :=
  {| sub := subject_name p; typ := type_value (principal_type p); iat := now; exp := (now + ttl)%Z;
     jti := uuid4; claim_permissions := permissions |}.

(** Every way a token may be asked for. *)
Lemma issue_cases uuid4 api_key now ttl s :
  (exists e, parse_api_key api_key = Err e /\ issue uuid4 api_key now ttl s = (Err e, s)) \/
  (exists ident secret who ty r m, parse_api_key api_key = Ok (ident, secret) /\
     issue uuid4 api_key now ttl s = deny_issue who ty r m s /\
     (who = ident \/ exists p, p ∈ principals s /\ who = subject_name p)) \/
  (exists e row, issue uuid4 api_key now ttl s = (Err e, s) /\ e = InvalidHashError /\
     row_credential row ∈ credentials s) \/
  (exists ident secret row, parse_api_key api_key = Ok (ident, secret) /\
     get_credential_with_principal ident s = Some row /\
     status (row_credential row) = ACTIVE /\ active (row_principal row) = true /\
     argon2_verify (secret_hash (row_credential row)) secret = Verified /\
     let permissions := get_permissions now (principal_id (row_principal row)) s in
     let claims := claims_of (row_principal row) uuid4 now ttl permissions in
     issue uuid4 api_key now ttl s
     = (update_last_used now (credential_id (row_credential row)) ≫= fun _ =>
        audit (sub claims) (Some (typ claims)) "ISSUE_TOKEN" "SUCCESS" "token issued"
          (JDict [("jti", JStr uuid4); ("ttl_seconds", JNum ttl)]) ≫= fun _ =>
        mret {| access_token := sign_token hmac_sha256 token_secret claims; expires_in := ttl;
                rs_permissions := permissions |}) s).
Proof.
  unfold issue_token. destruct (parse_api_key api_key) as [[ident secret]|e] eqn:Hk.
  2: { left. by exists e. }
  right. rewrite (st_bind_ok _ _ s (ident, secret) s) by done.
  rewrite (st_bind_ok _ _ s s s) by done. cbn [fst snd].
  destruct (get_credential_with_principal ident s) as [row|] eqn:Hrow.
  2: { left. do 6 eexists. split_and!; [done..|by left]. }
  destruct (get_row_inv _ _ _ Hrow) as (_ & Hc & Hid & Hp & Hpid).
  case_bool_decide as Hst; cbn [negb].
  2: { left. do 6 eexists. split_and!; [done..|]. right. by exists (row_principal row). }
  destruct (active (row_principal row)) eqn:Hact; cbn [negb].
  2: { left. do 6 eexists. split_and!; [done..|]. right. by exists (row_principal row). }
  unfold verify_api_key_secret. destruct (argon2_verify _ secret) eqn:Hv.
  - right. right. exists ident, secret, row. by split_and!.
  - left. do 6 eexists. split_and!; [done..|]. right. by exists (row_principal row).
  - right. left. by exists InvalidHashError, row.
Qed.

(** ** What the database always satisfies *)

Record db_ok (s : AuthDB) : Prop := {
  ok_names : Forall (fun p => not_blank (subject_name p) = true) (principals s);
  ok_pids : NoDup (principal_id <$> principals s);
  ok_pids_below : Forall (fun p => (principal_id p < next_id s)%Z) (principals s);
  ok_grants : Forall (fun g => gr_expires_at g = None) (permission_grants s)
}.

Lemma empty_db_ok : db_ok empty_db.
Proof. split; constructor. Qed.

Lemma upsert_keeps_names name ty l :
  Forall (fun p => not_blank (subject_name p) = true) l ->
  Forall (fun p => not_blank (subject_name p) = true)
    (tbl_update (fun p => subject_name p =? name)
       (fun p => {| principal_id := principal_id p; subject_name := subject_name p;
                    principal_type := ty; display_name := display_name p; active := true |}) l).
Proof.
  intros H. apply list.Forall_fmap. eapply list.Forall_impl; [exact H|]. intros p Hp. simpl.
  by destruct (subject_name p =? name).
Qed.

Lemma upsert_pids name ty l :
  principal_id <$> tbl_update (fun p => subject_name p =? name)
    (fun p => {| principal_id := principal_id p; subject_name := subject_name p;
                 principal_type := ty; display_name := display_name p; active := true |}) l = principal_id <$> l.
Proof.
  unfold tbl_update. rewrite <- list_fmap_compose. apply list_fmap_ext. intros i p _. simpl.
  by destruct (subject_name p =? name).
Qed.

(** The principal a create returns is active, and named as asked. *)
Lemma create_principal_cases name ty s :
  db_ok s ->
  (exists e, create_principal name ty s = (Err e, s)) \/
  (exists pid s', create_principal name ty s = (Ok pid, s') /\ db_ok s' /\
     credentials s' = credentials s /\ permission_grants s' = permission_grants s /\
     (next_id s <= next_id s')%Z /\
     exists p, p ∈ principals s' /\ principal_id p = pid /\ active p = true /\ subject_name p = name).
Proof.
  intros [Hn Hp Hb Hg]. unfold create_principal. destruct (not_blank name) eqn:Hbl; cbn [negb].
  2: { left. by eexists. }
  right. destruct (tbl_find _ (principals s)) as [old|] eqn:Hf.
  - apply head_Some_elem_of, tbl_select_elem in Hf as [Hold ?%String.eqb_eq].
    do 2 eexists. split_and!; [done| |done|done|simpl; lia|].
    + split; simpl; [by apply upsert_keeps_names|by rewrite upsert_pids| |done].
      apply list.Forall_forall. intros p Hp'. rewrite list.Forall_forall in Hb.
      assert (principal_id p ∈ principal_id <$> principals s) as Hin.
      { erewrite <- upsert_pids. by apply list_elem_of_fmap_2. }
      apply (list_elem_of_fmap principal_id) in Hin as (q & -> & Hq). by apply Hb.
    + eexists. split; [apply (list_elem_of_fmap_2 (fun p => if subject_name p =? name then _ else _)), Hold|].
      by rewrite (proj2 (String.eqb_eq (subject_name old) name)).
  - do 2 eexists. split_and!; [done| |done|done|simpl; lia|].
    + split; simpl.
      * apply Forall_app. by split; [|repeat constructor].
      * rewrite fmap_app. apply list.NoDup_app. split_and!; [done| |apply NoDup_singleton].
        intros i Hi ->%list_elem_of_singleton.
        apply (list_elem_of_fmap principal_id) in Hi as (q & Hq & Hin).
        rewrite list.Forall_forall in Hb. specialize (Hb q Hin). simpl in Hq. lia.
      * apply Forall_app. split; [|by repeat constructor; simpl; lia].
        eapply list.Forall_impl; [exact Hb|]. simpl. lia.
      * done.
    + eexists. split; [apply elem_of_app; right; by apply list_elem_of_singleton|done].
Qed.

Definition granted (pid : Z) (p : string) (s : AuthDB) : Prop :=
  exists g, g ∈ permission_grants s /\ gr_principal g = pid /\ permission g = p.

(** Granting stops at the first refused permission and keeps the ones before. *)
Lemma grants_cases pid ps s :
  db_ok s ->
  exists r l, grant_permissions pid ps s = (r, with_grants l s) /\ db_ok (with_grants l s) /\
    permission_grants s ⊆ l /\ (r = Ok tt -> forall p, p ∈ ps -> granted pid p (with_grants l s)).
Proof.
  revert s. induction ps as [|p ps IH]; intros s Hok.
  { exists (Ok tt), (permission_grants s). split_and!; [by destruct s|by destruct Hok|done|].
    intros _ p Hp. by apply elem_of_nil in Hp. }
  assert (exists r l, insert_grant pid p s = (r, with_grants l s) /\ db_ok (with_grants l s) /\
    permission_grants s ⊆ l /\ (r = Ok tt -> granted pid p (with_grants l s))) as (r & l & Hi & Hok' & Hsub & Hg).
  { destruct Hok as [H1 H2 H3 H4]. unfold insert_grant.
    assert (with_grants (permission_grants s) s = s) as Hsame by by destruct s.
    destruct (emergency p).
    { exists (Err (DatabaseError "emergency_stop is out-of-band of RBAC")), (permission_grants s).
      rewrite Hsame. by split_and!. }
    destruct (is_ok _); cbn [negb].
    2: { exists (Err (DatabaseError "permission_grants_grammar")), (permission_grants s).
      rewrite Hsame. by split_and!. }
    destruct (existsb _ (principals s)); cbn [negb].
    2: { exists (Err (DatabaseError "permission_grants_principal_id_fkey")), (permission_grants s).
      rewrite Hsame. by split_and!. }
    destruct (existsb _ (permission_grants s)) eqn:He.
    - exists (Ok tt), (permission_grants s). rewrite Hsame. split_and!; [done..|]. intros _.
      apply existsb_exists in He as (g & Hg & [? ?]%andb_true_iff). exists g.
      rewrite list_elem_of_In, <- String.eqb_eq, <- Z.eqb_eq. done.
    - eexists _, _. split; [reflexivity|]. split_and!.
      + split; simpl; [done..|]. apply Forall_app. by split; [|repeat constructor].
      + intros g Hg. apply elem_of_app. by left.
      + intros _. eexists. split; [apply elem_of_app; right; by apply list_elem_of_singleton|done]. }
  unfold grant_permissions. cbn [for_each]. destruct r as [[]|e].
  - rewrite (st_bind_ok _ _ _ _ _ Hi). destruct (IH _ Hok') as (r & l' & Hr & Hok'' & Hsub' & Hall).
    exists r, l'. simpl in *. split_and!; [done|done|by transitivity l|]. intros -> q [->|Hq]%elem_of_cons.
    + destruct (Hg eq_refl) as (g & Hin & Heq). exists g. split; [by apply Hsub'|done].
    + by apply Hall.
  - rewrite (st_bind_err _ _ _ _ _ Hi). by exists (Err e), l.
Qed.

Lemma permission_sorted now pid p s :
  db_ok s -> granted pid p s -> p ∈ get_permissions now pid s.
Proof.
  intros [_ _ _ Hg] (g & Hin & <- & <-). unfold get_permissions. apply elem_of_py_sorted.
  apply (list_elem_of_fmap_2 permission). apply tbl_select_elem. split; [done|].
  rewrite list.Forall_forall in Hg. rewrite (Hg g Hin). rewrite Z.eqb_refl. done.
Qed.

(** ** Steps of the running service, the bootstrap of its start aside *)

Inductive auth_step (s s' : AuthDB) : Prop :=
| step_issue u k now ttl r : issue u k now ttl s = (r, s') -> auth_step s s'
| step_verify t now r :
    verify_token_service hmac_sha256 model_validate utf8_decode token_secret t now s = (r, s') ->
    auth_step s s'
| step_authorize cx a res r : authorize_action cx a res s = (r, s') -> auth_step s s'
| step_create b12 b32 salt now cx rq r : create b12 b32 salt now cx rq s = (r, s') -> auth_step s s'
| step_revoke cx i r : revoke_api_key cx i s = (r, s') -> auth_step s s'.

Definition revoked_in (ident : string) (s : AuthDB) : Prop :=
  exists c, tbl_find (fun c => identifier c =? ident) (credentials s) = Some c /\ status c = REVOKED.

(** A change of the rows that keeps identifiers and never leaves REVOKED. *)
Lemma revoked_update ident p f l c :
  (forall c, identifier (f c) = identifier c) -> (forall c, status c = REVOKED -> status (f c) = REVOKED) ->
  tbl_find (fun c => identifier c =? ident) l = Some c -> status c = REVOKED ->
  exists c', tbl_find (fun c => identifier c =? ident) (tbl_update p f l) = Some c' /\ status c' = REVOKED.
Proof.
  intros Hi Hs. unfold tbl_update. induction l as [|x l IH]; [done|].
  rewrite fmap_cons, !tbl_find_cons.
  assert (identifier (if p x then f x else x) = identifier x) as -> by (destruct (p x); by rewrite ?Hi).
  destruct (identifier x =? ident); [|done]. intros [= ->] Hc. eexists. split; [done|].
  destruct (p c); auto.
Qed.

Lemma revoked_credentials ident s s' :
  credentials s' = credentials s -> revoked_in ident s -> revoked_in ident s'.
Proof. unfold revoked_in. by intros ->. Qed.

Lemma revoked_audit ident who ty a d r details s :
  revoked_in ident s -> revoked_in ident (audit who ty a d r details s).2.
Proof.
  intros H. destruct (audit_cases who ty a d r details s) as [->|(e & -> & _)];
    by apply (revoked_credentials _ s).
Qed.

Lemma revoked_used ident now cid s :
  revoked_in ident s -> revoked_in ident (update_last_used now cid s).2.
Proof. intros (c & Hf & Hc). by apply (revoked_update _ _ _ _ c). Qed.

Lemma revoked_issue ident u k now ttl s :
  revoked_in ident s -> revoked_in ident (issue u k now ttl s).2.
Proof.
  intros H. destruct (issue_cases u k now ttl s)
    as [(e & _ & ->)|[(i & sec & who & ty & r & m & _ & -> & _)|[(e & row & -> & _)|
       (i & sec & row & _ & _ & _ & _ & _ & ->)]]]; [done| |done|].
  - destruct (deny_cases who ty r m s) as (e & s' & -> & _ & l & ->).
    by apply (revoked_credentials _ s).
  - erewrite st_bind_ok by reflexivity.
    pose proof (revoked_used ident now (credential_id (row_credential row)) s H) as H1.
    set (s1 := with_credentials _ s). change (revoked_in ident s1) in H1.
    match goal with |- context [audit ?w ?t ?a ?d ?r ?j ≫= _] =>
      pose proof (revoked_audit ident w t a d r j s1 H1) as H2;
      destruct (audit_cases w t a d r j s1) as [He|(e & He & _)] end;
      rewrite He in H2; [by rewrite (st_bind_ok _ _ _ _ _ He)|by rewrite (st_bind_err _ _ _ _ _ He)].
Qed.

Lemma revoked_then {A B} ident (m : st AuthDB auth_exc A) (f : A -> st AuthDB auth_exc B) s :
  revoked_in ident (m s).2 -> (forall a s', revoked_in ident s' -> revoked_in ident (f a s').2) ->
  revoked_in ident ((m ≫= f) s).2.
Proof.
  intros Hm Hf. destruct (m s) as [[a|e] s1] eqn:He.
  - rewrite (st_bind_ok _ _ _ _ _ He). by apply Hf.
  - by rewrite (st_bind_err _ _ _ _ _ He).
Qed.

Lemma revoked_create_principal ident name ty s :
  revoked_in ident s -> revoked_in ident (create_principal name ty s).2.
Proof.
  intros H. unfold create_principal. destruct (not_blank name); [|done]. cbn [negb].
  destruct (tbl_find _ (principals s)); by apply (revoked_credentials _ s).
Qed.

Lemma revoked_grants ident pid ps s :
  revoked_in ident s -> revoked_in ident (grant_permissions pid ps s).2.
Proof.
  unfold grant_permissions. revert s. induction ps as [|p ps IH]; intros s H; [done|].
  cbn [for_each]. apply revoked_then; [|auto]. unfold insert_grant.
  repeat (match goal with |- context [if ?b then _ else _] => destruct b end);
    by apply (revoked_credentials _ s).
Qed.

Lemma revoked_create_credential ident pid i h x s :
  revoked_in ident s -> revoked_in ident (create_credential pid i h x s).2.
Proof.
  intros H. unfold create_credential. apply revoked_then.
  { unfold check_credential. by repeat case_match. }
  clear s H. intros _ s H. erewrite st_bind_ok by reflexivity.
  destruct (existsb _ (credentials s)); [done|]. destruct H as (c & Hf & Hc). exists c. split; [|done].
  simpl. unfold tbl_find in *. rewrite tbl_select_app. by destruct (tbl_select _ (credentials s)).
Qed.

Lemma revoked_step ident s s' : auth_step s s' -> revoked_in ident s -> revoked_in ident s'.
Proof.
  intros Hstep H. destruct Hstep as [u k now ttl r He|t now r He|cx a res r He|b12 b32 salt now cx rq r He|cx i r He];
    replace s' with (snd (r, s')) by done; rewrite <- He.
  - by apply revoked_issue.
  - unfold verify_token_service. destruct (verify t now) as [cx|[]]; try done;
      (apply revoked_then; [by apply revoked_audit|done]).
  - apply revoked_then; [by apply revoked_audit|done].
  - unfold create_api_key. rewrite guard_raise_bind. destruct (negb _); [done|].
    apply revoked_then; [by apply revoked_create_principal|]. intros pid s1 H1.
    apply revoked_then; [by apply revoked_grants|]. intros _ s2 H2.
    destruct (generate_api_key b12 b32) as [[id sec] key].
    apply revoked_then; [by apply revoked_create_credential|]. intros _ s3 H3.
    apply revoked_then; [by apply revoked_audit|done].
  - unfold revoke_api_key. rewrite guard_raise_bind. destruct (negb _); [done|].
    apply revoked_then; [|intros b s1 H1; apply revoked_then; [by apply revoked_audit|done]].
    destruct H as (c & Hf & Hc). by apply (revoked_update _ _ _ _ c).
Qed.

Lemma strip_head s c r : strip s = String c r -> is_space c = false.
Proof.
  unfold strip. assert (forall s, match lstrip s with String x _ => is_space x = false | "" => True end) as Hl.
  { clear. induction s as [|x s IH]; simpl; [done|]. by destruct (is_space x) eqn:Hx. }
  specialize (Hl s). destruct (lstrip s) as [|x t]; [done|]. simpl.
  destruct (rstrip t) as [|y u]; [destruct (is_space x) eqn:Hx; [done|]|]; by intros [= <- _].
Qed.

Lemma parse_not_blank k i sec : parse_api_key k = Ok (i, sec) -> not_blank i = true.
Proof.
  unfold parse_api_key. destruct (str_empty (strip k)); [done|].
  destruct (split_first "." (strip k)) as [[a b]|] eqn:Hs; [|by intros [= <- _]].
  apply split_first_Some in Hs as [Hs _].
  destruct a as [|c a]; [done|]. simpl. destruct (str_empty b); [done|]. intros [= <- _].
  apply strip_head in Hs. unfold not_blank. simpl. by destruct (Ascii.eqb_spec c " "); [subst|].
Qed.

(** ** The properties *)

(** C4: a token is only issued on an active credential of an active principal
    and the right secret; it then verifies, until its time to live is over, to
    that principal with the permissions it is granted at that moment.  Nothing
    changes but the time of last use and one recorded event. *)
Theorem issued_token_speaks_for
    (validate_dump : forall c, model_validate (model_dump c) = Some c)
    (utf8_ascii : forall x, str_forall is_ascii x = true -> utf8_decode x = Some x)
    uuid4 api_key now ttl s resp s' :
  issue uuid4 api_key now ttl s = (Ok resp, s') ->
  exists ident secret c p,
    parse_api_key api_key = Ok (ident, secret) /\
    c ∈ credentials s /\ identifier c = ident /\ status c = ACTIVE /\
    p ∈ principals s /\ principal_id p = cr_principal c /\ active p = true /\
    argon2_verify (secret_hash c) secret = Verified /\
    rs_permissions resp = get_permissions now (principal_id p) s /\
    (forall later, verify (access_token resp) later
       = if (now + ttl <=? later)%Z then Err (AuthSecurityError "token expired")
         else Ok {| subject := subject_name p; cx_principal_type := type_value (principal_type p);
                    cx_permissions := rs_permissions resp; cx_expires_at := now + ttl;
                    cx_jti := uuid4 |}) /\
    principals s' = principals s /\ permission_grants s' = permission_grants s /\
    Forall2 same_credential (credentials s) (credentials s') /\
    exists e, auth_events s' = (auth_events s ++ [e])%list /\ ev_decision e = "SUCCESS"
              /\ ev_subject e = subject_name p.
Proof.
  intros Hi. destruct (issue_cases uuid4 api_key now ttl s)
    as [(e & _ & He)|[(i & sec & who & ty & r & m & _ & He & _)|[(e & row & He & _)|
       (i & sec & row & Hk & Hrow & Hst & Hact & Hv & He)]]]; [congruence| |congruence|].
  { destruct (deny_cases who ty r m s) as (e & s1 & Hd & _). congruence. }
  destruct (get_row_inv _ _ _ Hrow) as (_ & Hc & Hid & Hp & Hpid).
  cbv zeta in He. rewrite Hi in He. symmetry in He. erewrite st_bind_ok in He by reflexivity.
  set (claims := claims_of _ _ _ _ _) in *. set (s1 := with_credentials _ s) in *.
  match type of He with (audit ?w ?t ?a ?d ?r ?j ≫= _) _ = _ =>
    destruct (audit_cases w t a d r j s1) as [Ha|(e & Ha & _)] end.
  2: { by rewrite (st_bind_err _ _ _ _ _ Ha) in He. }
  rewrite (st_bind_ok _ _ _ _ _ Ha) in He. injection He as <- <-.
  exists i, sec, (row_credential row), (row_principal row).
  split_and!; try done.
  - intros later. exact (verify_signed hmac_sha256 model_validate utf8_decode
      validate_dump utf8_ascii token_secret claims later).
  - apply used_same.
  - eexists. split_and!; reflexivity.
Qed.

(** A request for a token that is refused over a well-formed key changes
    nothing and records exactly one denial; over a malformed key, or a stored
    hash that cannot be read, it records nothing. *)
Theorem refusals_recorded uuid4 api_key now ttl s m s' :
  db_ok s -> issue uuid4 api_key now ttl s = (Err (AuthSecurityError m), s') ->
  (parse_api_key api_key = Err (AuthSecurityError m) /\ s' = s) \/
  exists who ty r, s' = with_events (auth_events s ++
    [{| ev_subject := who; ev_type := ty; ev_action := "ISSUE_TOKEN"; ev_decision := "DENY";
        ev_reason := r; ev_details := JDict [] |}]) s.
Proof.
  intros Hok Hi. destruct (issue_cases uuid4 api_key now ttl s)
    as [(e & Hk & He)|[(i & sec & who & ty & r & m' & Hk & He & Hwho)|[(e & row & He & Hinv & _)|
       (i & sec & row & Hk & Hrow & Hst & Hact & Hv & He)]]].
  - left. rewrite Hi in He. by injection He as <- <-.
  - right. assert (not_blank who = true) as Hb.
    { destruct Hwho as [->|(p & Hp & ->)]; [by apply (parse_not_blank api_key _ sec)|].
      pose proof (ok_names s Hok) as Hn. rewrite list.Forall_forall in Hn. by apply Hn. }
    destruct (deny_cases who ty r m' s) as (e & s1 & Hd & Hs1 & _). destruct (Hs1 Hb) as [-> ->].
    exists who, ty, r. congruence.
  - subst e. congruence.
  - cbv zeta in He. rewrite Hi in He. symmetry in He. erewrite st_bind_ok in He by reflexivity.
    apply st_bind_inv in He as [(a & s1 & _ & [=])|(e & He & [= <-])].
    match type of He with audit ?w ?t ?a ?d ?r ?j ?s1 = _ =>
      destruct (audit_cases w t a d r j s1) as [Ha|(e & Ha & Hb)] end; [congruence|].
    pose proof (ok_names s Hok) as Hn. rewrite list.Forall_forall in Hn.
    destruct (get_row_inv _ _ _ Hrow) as (_ & _ & _ & Hp & _). simpl in Hb. by rewrite (Hn _ Hp) in Hb.
Qed.

(** What a revocation leaves, and what it prevents. *)
Lemma revocation_revokes caller ident s s1 : revoke_api_key caller ident s = (Ok true, s1) -> revoked_in ident s1.
Proof.
  intros Hr. unfold revoke_api_key in Hr. rewrite guard_raise_bind in Hr. destruct (negb _); [done|].
  erewrite st_bind_ok in Hr by reflexivity. destruct (existsb _ (credentials s)) eqn:He.
  2: { apply st_bind_inv in Hr as [(a & sx & _ & Hx)|(e & _ & Hx)]; by inversion Hx. }
  assert (revoked_in ident (with_credentials
    (tbl_update (fun c => identifier c =? ident) revoke (credentials s)) s)) as H0.
  { unfold revoked_in. simpl. clear Hr. induction (credentials s) as [|c l IH]; [done|].
    simpl in He. unfold tbl_update in *. rewrite fmap_cons, tbl_find_cons. simpl.
    destruct (identifier c =? ident) eqn:Hc; simpl in *; [|rewrite Hc; by apply IH].
    eexists. by rewrite Hc. }
  match type of Hr with (?mm ≫= _) ?ss = _ => pose proof (revoked_audit ident (subject caller)
    (Some (cx_principal_type caller)) "REVOKE_API_KEY" "SUCCESS" ("identifier=" ++ ident) (JDict []) ss H0) as H2 end.
  apply st_bind_inv in Hr as [(a & sx & Ha & Hx)|(e & _ & Hx)]; [|done].
  injection Hx as <-. by rewrite Ha in H2.
Qed.
Lemma revoked_refused ident s uuid4 api_key secret now ttl :
  revoked_in ident s -> parse_api_key api_key = Ok (ident, secret) -> exists e, (issue uuid4 api_key now ttl s).1 = Err e.
Proof.
  intros (c & Hf & Hc) Hk. destruct (issue_cases uuid4 api_key now ttl s)
    as [(e & _ & ->)|[(i & sec & who & ty & r & m & _ & -> & _)|[(e & row & -> & _)|
       (i & sec & row & Hk' & Hrow & Hst & _)]]]; [by eexists| |by eexists|].
  - destruct (deny_cases who ty r m s) as (e & s' & -> & _). by eexists.
  - rewrite Hk in Hk'. injection Hk' as <- <-. apply get_row_inv in Hrow as (Hrow & _).
    rewrite Hf in Hrow. injection Hrow as ->. congruence.
Qed.

(** Once a key is revoked no token is ever issued on it, whatever the
    service is asked in between. *)
Theorem revoked_key_never_issues caller ident s s1 s2 uuid4 api_key secret now ttl :
  revoke_api_key caller ident s = (Ok true, s1) -> rtc auth_step s1 s2 ->
  parse_api_key api_key = Ok (ident, secret) ->
  exists e, (issue uuid4 api_key now ttl s2).1 = Err e.
Proof.
  intros Hr%revocation_revokes Hsteps Hk. apply (revoked_refused ident s2 _ _ secret); [|done].
  clear Hk. induction Hsteps as [|x y z Hxy _ IH]; [done|]. by apply IH, (revoked_step _ x).
Qed.

(** *** A created key *)

Lemma find_principal p l :
  NoDup (principal_id <$> l) -> p ∈ l ->
  tbl_find (fun q => (principal_id q =? principal_id p)%Z) l = Some p.
Proof.
  induction l as [|q l IH]; [by intros _ ?%elem_of_nil|].
  rewrite fmap_cons, list.NoDup_cons, tbl_find_cons. intros [Hq Hnd] [->|Hp]%elem_of_cons.
  - by rewrite Z.eqb_refl.
  - destruct (Z.eqb_spec (principal_id q) (principal_id p)) as [He|]; [|by apply IH].
    exfalso. apply Hq. rewrite He. by apply list_elem_of_fmap_2.
Qed.

Lemma create_credential_ok pid ident hash expires s s' :
  create_credential pid ident hash expires s = (Ok tt, s') ->
  exists c, get_credential_with_principal ident s'
      = (p ← tbl_find (fun p => (principal_id p =? pid)%Z) (principals s);
         Some {| row_credential := c; row_principal := p |}) /\
    status c = ACTIVE /\ secret_hash c = hash /\
    principals s' = principals s /\ permission_grants s' = permission_grants s.
Proof.
  unfold create_credential. intros H. apply st_bind_inv in H as [([] & s0 & Hc & H)|(e & _ & H)]; [|done].
  assert (s0 = s) as ->.
  { unfold check_credential in Hc. repeat case_match; simplify_eq; done. }
  erewrite st_bind_ok in H by reflexivity. destruct (existsb _ (credentials s)) eqn:He; [done|].
  injection H as <-.
  exists {| credential_id := next_id s; cr_principal := pid; identifier := ident; secret_hash := hash;
            status := ACTIVE; cr_expires_at := expires; last_used_at := None |}.
  split_and!; [|reflexivity..]. unfold get_credential_with_principal. simpl.
  assert (forall l c, existsb (fun c => identifier c =? ident) l = false -> identifier c = ident ->
    tbl_find (fun c => identifier c =? ident) (l ++ [c]) = Some c) as Hfind.
  { clear. intros l c Hl Hc. induction l as [|x l IH]; cbn [app]; rewrite tbl_find_cons.
    - by rewrite Hc, String.eqb_refl.
    - simpl in Hl. apply orb_false_iff in Hl as [-> Hl]. by apply IH. }
  by rewrite Hfind.
Qed.

(** A key that was created issues tokens: its owner is granted at least
    what was asked for it, whatever its lifetime. *)
Theorem created_key_issues
    (argon2_law : forall salt x y, argon2_verify (argon2_hash salt x) y
       = if (x =? y) then Verified else VerifyMismatchError)
    bytes12 bytes32 salt now caller request s resp s1 :
  db_ok s -> bytes12 <> "" -> bytes32 <> "" ->
  create bytes12 bytes32 salt now caller request s = (Ok resp, s1) ->
  forall uuid4 later ttl, exists r s2,
    issue uuid4 (rs_api_key resp) later ttl s1 = (Ok r, s2) /\
    forall p, p ∈ rq_permissions request -> p ∈ rs_permissions r.
Proof.
  intros Hok Hb12 Hb32 Hcreate uuid4 later ttl. unfold create_api_key in Hcreate.
  rewrite guard_raise_bind in Hcreate. destruct (negb _); [done|].
  destruct (create_principal_cases (rq_subject_name request) (rq_principal_type request) s Hok)
    as [(e & He)|(pid & sa & He & Hoka & Hca & Hga & _ & p & Hp & Hpid & Hact & Hname)].
  { by rewrite (st_bind_err _ _ _ _ _ He) in Hcreate. }
  rewrite (st_bind_ok _ _ _ _ _ He) in Hcreate.
  destruct (grants_cases pid (rq_permissions request) sa Hoka) as (r & l & Hg & Hokg & _ & Hall).
  destruct r as [[]|e]; [|by rewrite (st_bind_err _ _ _ _ _ Hg) in Hcreate].
  rewrite (st_bind_ok _ _ _ _ _ Hg) in Hcreate. specialize (Hall eq_refl).
  pose proof (api_key_parses bytes12 bytes32 Hb12 Hb32) as Hparse.
  destruct (generate_api_key bytes12 bytes32) as [[ident secret] full_key].
  apply st_bind_inv in Hcreate as [([] & sc & Hc & Hcreate)|(e & _ & Hx)]; [|done].
  apply create_credential_ok in Hc as (c & Hrow & Hst & Hhash & Hps & Hgs).
  match type of Hcreate with (audit ?w ?t ?a ?d ?r ?j ≫= _) ?s0 = _ =>
    destruct (audit_cases w t a d r j s0) as [Ha|(e & Ha & _)] end;
    [|by rewrite (st_bind_err _ _ _ _ _ Ha) in Hcreate].
  rewrite (st_bind_ok _ _ _ _ _ Ha) in Hcreate. injection Hcreate as <- <-.
  set (s1 := with_events _ sc). simpl rs_api_key.
  assert (get_credential_with_principal ident s1
    = Some {| row_credential := c; row_principal := p |}) as Hrow1.
  { change (get_credential_with_principal ident s1) with (get_credential_with_principal ident sc).
    rewrite Hrow. simpl. rewrite <- Hpid, find_principal by (done || apply Hoka). done. }
  assert (forall q, q ∈ rq_permissions request -> q ∈ get_permissions later (principal_id p) s1) as Hperm.
  { intros q Hq. rewrite Hpid. unfold get_permissions.
    change (permission_grants s1) with (permission_grants sc). rewrite Hgs.
    apply (permission_sorted later pid q (with_grants l sa)); auto. }
  unfold issue_token. rewrite (st_bind_ok _ _ s1 (ident, secret) s1) by (unfold lift; by rewrite Hparse).
  rewrite (st_bind_ok _ _ s1 s1 s1) by done. cbn [fst snd]. rewrite Hrow1. cbn [row_credential row_principal].
  rewrite Hst, Hact, bool_decide_true by done. cbn [negb].
  rewrite (st_bind_ok _ _ s1 true s1)
    by (unfold lift, verify_api_key_secret; by rewrite Hhash, argon2_law, String.eqb_refl).
  cbn [negb]. erewrite st_bind_ok by reflexivity.
  match goal with |- context [(audit ?w ?t ?a ?d ?r ?j ≫= _) ?s0] =>
    destruct (audit_cases w t a d r j s0) as [Ha'|(e & Ha' & Hb)] end.
  - rewrite (st_bind_ok _ _ _ _ _ Ha'). do 2 eexists. split; [reflexivity|exact Hperm].
  - exfalso. pose proof (ok_names sa Hoka) as Hn. rewrite list.Forall_forall in Hn.
    by rewrite (Hn p Hp) in Hb.
Qed.
End Props.

(** ** Concrete parameters *)

Definition toy_hmac (key message : string) : string := key ++ message.
Definition toy_hash (salt secret : string) : string := "$" ++ secret.
Definition toy_argon2 (hash secret : string) : argon2_outcome :=
  if hash =? toy_hash "" secret then Verified else VerifyMismatchError.
Definition toy_validate (j : json) : option TokenClaims :=
  match j with
  | JDict [(_, JStr a); (_, JStr b); (_, JNum i); (_, JNum e); (_, JStr id); (_, JList l)] =>
      Some {| sub := a; typ := b; iat := i; exp := e; jti := id;
              claim_permissions := omap (fun x => match x with JStr s => Some s | _ => None end) l |}
  | _ => None
  end.

Lemma toy_validate_dump c : toy_validate (model_dump c) = Some c.
Proof.
  destruct c as [a b i e id l]. unfold model_dump. simpl. do 2 f_equal.
  induction l as [|x l IH]; [done|]. simpl. by f_equal.
Qed.

Lemma toy_argon2_law salt x y :
  toy_argon2 (toy_hash salt x) y = if (x =? y) then Verified else VerifyMismatchError.
Proof. done. Qed.

Definition root_context : AuthContext :=
  {| subject := "root"; cx_principal_type := "ADMIN"; cx_permissions := ["auth:*"];
     cx_expires_at := 100; cx_jti := "j0" |}.
Definition bot_request : CreateApiKeyRequest :=
  {| rq_subject_name := "bot"; rq_principal_type := SERVICE; rq_permissions := ["risk:read"; "order:*"];
     expires_in_days := Some 1%Z |}.
Definition bot_created := create_api_key toy_hash "id" "pw" "salt" 10 root_context bot_request empty_db.
Definition bot_db : AuthDB := bot_created.2.
Definition bot_key : string := b64url_encode "id" ++ "." ++ b64url_encode "pw".
Definition bot_token := issue_token toy_hmac toy_argon2 "k" "u1" bot_key 20 300 bot_db.

Lemma token_roundtrip_witness :
  let c := {| sub := "bot"; typ := "SERVICE"; iat := 1; exp := 9; jti := "j"; claim_permissions := ["a:b"] |} in
  verify_token toy_hmac toy_validate Some "k" (sign_token toy_hmac "k" c) 8 = Ok (context_of c) /\
  verify_token toy_hmac toy_validate Some "k" (sign_token toy_hmac "k" c) 9 = Err (AuthSecurityError "token expired") /\
  verify_token toy_hmac toy_validate Some "l" (sign_token toy_hmac "k" c) 8 = Err (AuthSecurityError "invalid token signature").
Proof.
  intros c. destruct (token_roundtrip toy_hmac toy_validate Some toy_validate_dump (fun _ _ => eq_refl) "k" c 8)
    as (H & Hother & _).
  destruct (token_roundtrip toy_hmac toy_validate Some toy_validate_dump (fun _ _ => eq_refl) "k" c 9) as (H9 & _).
  split_and!; [exact H|exact H9|]. apply Hother. by vm_compute.
Defined.

Lemma signature_binds_claims_witness :
  let c := {| sub := "bot"; typ := "SERVICE"; iat := 1; exp := 9; jti := "j"; claim_permissions := ["a:b"] |} in
  let t := " " ++ sign_token toy_hmac "k" c ++ " " in
  verify_token toy_hmac toy_validate Some "k" t 8 = Ok (context_of c) /\ (8 < exp c)%Z.
Proof.
  intros c t. assert (verify_token toy_hmac toy_validate Some "k" t 8 = Ok (context_of c)) as Hv by by vm_compute.
  split; [exact Hv|].
  apply (signature_binds_claims toy_hmac toy_validate Some toy_validate_dump (fun _ _ => eq_refl)
    "k" t 8 (context_of c) c Hv).
  intros v p sg Hs. assert (split_on "." (strip t) = [TOKEN_VERSION; payload_text c;
    b64url_encode (toy_hmac "k" (signing_input (payload_text c)))]) as Ht by by vm_compute.
  rewrite Ht in Hs. injection Hs as _ <- <-. split; [apply b64url_roundtrip|done].
Defined.

Lemma issued_token_speaks_for_witness :
  match bot_token with
  | (Ok resp, s') => rs_permissions resp = ["order:*"; "risk:read"] /\
      exists p, principals s' = principals bot_db /\ In p (principals bot_db) /\ subject_name p = "bot"
  | _ => False
  end.
Proof.
  destruct bot_token as [[resp|e] s'] eqn:Hb; [|by vm_compute in Hb].
  assert (rs_permissions resp = ["order:*"; "risk:read"]) as Hr.
  { assert (match bot_token.1 with Ok r => rs_permissions r | _ => [] end = ["order:*"; "risk:read"])
      as H by by vm_compute. by rewrite Hb in H. }
  split; [exact Hr|].
  destruct (issued_token_speaks_for toy_hmac toy_validate Some toy_argon2 "k" toy_validate_dump
    (fun _ _ => eq_refl) "u1" bot_key 20 300 bot_db resp s' Hb)
    as (i & sec & c & p & _ & _ & _ & _ & Hp & _ & _ & _ & _ & _ & Hps & _).
  exists p. split; [exact Hps|]. apply list_elem_of_In in Hp. split; [exact Hp|].
  assert (Forall (fun p => subject_name p = "bot") (principals bot_db)) as Hall by by vm_compute; repeat constructor.
  rewrite list.Forall_forall in Hall. apply Hall. by apply list_elem_of_In.
Defined.

Lemma bot_db_ok : db_ok bot_db.
Proof. split; vm_compute; repeat constructor; by intros ?%elem_of_nil. Qed.

Lemma refusals_recorded_witness :
  exists who ty r,
    (issue_token toy_hmac toy_argon2 "k" "u1" (b64url_encode "id" ++ ".wrong") 20 300 bot_db).2
    = with_events (auth_events bot_db ++ [{| ev_subject := who; ev_type := ty;
        ev_action := "ISSUE_TOKEN"; ev_decision := "DENY"; ev_reason := r; ev_details := JDict [] |}]) bot_db.
Proof.
  destruct (issue_token toy_hmac toy_argon2 "k" "u1" (b64url_encode "id" ++ ".wrong") 20 300 bot_db)
    as [r s'] eqn:Hi.
  assert (r = Err (AuthSecurityError "invalid API key")) as ->.
  { change r with (r, s').1. rewrite <- Hi. by vm_compute. }
  destruct (refusals_recorded toy_hmac toy_argon2 "k" "u1" (b64url_encode "id" ++ ".wrong") 20 300 bot_db
    "invalid API key" s' bot_db_ok Hi) as [[H _]|H]; [by vm_compute in H|exact H].
Defined.

Lemma created_key_issues_witness :
  exists r s2, issue_token toy_hmac toy_argon2 "k" "u1" bot_key 20 300 bot_db = (Ok r, s2) /\
    "order:*" ∈ rs_permissions r.
Proof.
  assert (exists resp, bot_created = (Ok resp, bot_db) /\ rs_api_key resp = bot_key) as (resp & Hc & Hk)
    by (eexists; split; by vm_compute).
  destruct (created_key_issues toy_hmac toy_hash toy_argon2 "k" toy_argon2_law "id" "pw" "salt" 10 root_context
    bot_request empty_db resp bot_db empty_db_ok ltac:(done) ltac:(done) Hc "u1" 20 300)
    as (r & s2 & Hi & Hp).
  exists r, s2. rewrite Hk in Hi. split; [exact Hi|]. apply Hp. by right; left.
Defined.

Lemma revoked_key_never_issues_witness :
  let s1 := (revoke_api_key root_context (b64url_encode "id") bot_db).2 in
  exists e, (issue_token toy_hmac toy_argon2 "k" "u1" bot_key 20 300 s1).1 = Err e.
Proof.
  intros s1.
  apply (revoked_key_never_issues toy_hmac toy_validate Some toy_hash toy_argon2 "k" root_context
    (b64url_encode "id") bot_db s1 s1 "u1" bot_key (b64url_encode "pw") 20 300);
    [by vm_compute|apply rtc_refl|by vm_compute].
Defined.

(** ** What the code does beside its purpose *)

(** The lifetime of a credential is stored and never looked at: a key of one
    day issues tokens ten years later. *)
Lemma expired_key_issues :
  map cr_expires_at (credentials bot_db) = [Some 86410%Z] /\
  is_ok (issue_token toy_hmac toy_argon2 "k" "u1" bot_key 315360000 300 bot_db).1 = true.
Proof. by vm_compute. Qed.

(** Who may write keys may grant anything to anyone: a caller without any other
    permission makes a key that may do everything, and turns a principal that
    was switched off active again. *)
Lemma key_writer_escalates :
  let off := with_principals (map (fun p => {| principal_id := principal_id p;
    subject_name := subject_name p; principal_type := principal_type p; display_name := display_name p; active := false |})
    (principals bot_db)) bot_db in
  let clerk := {| subject := "clerk"; cx_principal_type := "USER";
    cx_permissions := ["auth:api_keys:write"]; cx_expires_at := 100; cx_jti := "j" |} in
  let again := {| rq_subject_name := "bot"; rq_principal_type := ADMIN; rq_permissions := ["*"];
    expires_in_days := None |} in
  let s := (create_api_key toy_hash "i2" "p2" "salt" 10 clerk again off).2 in
  is_ok (issue_token toy_hmac toy_argon2 "k" "u1" bot_key 20 300 off).1 = false /\
  match (issue_token toy_hmac toy_argon2 "k" "u1" bot_key 20 300 s).1 with
  | Ok r => has_permission (rs_permissions r) "broker:withdraw" = true
  | Err _ => False
  end.
Proof. by vm_compute. Qed.
