(* ===== verification/Readiness.v ===== *)
(** Readiness of a recovery plan: [scoring.py], [verifier.py], [health.py] and
    [backup_provider.py] of apexquant-disaster-recovery, with the records of
    its [models.py].

    A float is the rational it stands for, and [rnd] is the rounding of every
    floating-point operation: monotone, and exact on small integers.  An
    operation reads the clock once. *)
From stdpp Require Import base strings list gmap pretty numbers.
From Stdlib Require Import Ascii QArith Qround.
From S2P Require Import Prelude PyStr.

#[local] Open Scope Z_scope.
#[local] Open Scope nat_scope.

(** ** models.py *)

Inductive PlanStatus := DRAFT | ACTIVE | RETIRED.
#[export] Instance plan_status_eq_dec : EqDecision PlanStatus.
Proof. solve_decision. Defined.
Definition plan_status_value (p : PlanStatus) : string :=
  match p with DRAFT => "DRAFT" | ACTIVE => "ACTIVE" | RETIRED => "RETIRED" end.

Inductive ComponentType := CT_SERVICE | DATABASE | EVENT_BUS | OBJECT_STORAGE | REDIS | CONFIG.
Inductive RecoveryStrategy := RESTORE_FROM_BACKUP | RESTART | REBUILD | FAILOVER | MANUAL.
#[export] Instance strategy_eq_dec : EqDecision RecoveryStrategy.
Proof. solve_decision. Defined.

Record RecoveryPlan := {
  plan_id : Z; name : string; environment : string; description : string; criticality_tier : string;
  rpo_seconds : Z; rto_seconds : Z; drill_max_age_days : option Z; status : PlanStatus }.

Record RecoveryComponent := {
  component_name : string; component_type : ComponentType; recovery_strategy : RecoveryStrategy;
  priority : Z; backup_policy_name : option string; health_endpoint : option string;
  c_rpo_seconds : option Z; c_rto_seconds : option Z; notes : string }.

Record BackupStatus := { latest_success_at : option Z; verification_status : option string }.

Record BackupRequirementStatus := {
  br_component : string; br_policy : option string; required : bool; policy_exists : bool;
  latest_backup_at : option Z; fresh : bool; verified : bool; br_rpo_seconds : Z }.

Record HealthCheckStatus := {
  hc_component : string; hc_endpoint : option string; applicable : bool; checked : bool;
  healthy : option bool }.

Record ReadinessReport := {
  rp_plan_id : Z; rp_environment : string; plan_active : bool; score : Q; state : string;
  fail_closed_triggered : bool; backup_requirements : list BackupRequirementStatus;
  health_checks : list HealthCheckStatus; recent_drill_passed : bool; warnings : list string }.

(** [CheckResult]; the names its [result] lists, under its key. *)
Record CheckResult := { ok : bool; result_key : string; result_names : list string; error : option string }.

Inductive dr_exc :=
| DRNotFoundError (message : string)
| DRStateError (message : string)
| DRRepositoryError (message : string)
| AttributeError (message : string)
| DatabaseError (constraint : string)
| ProviderError (message : string).

(** ** scoring.py *)

(** The rounding of floating-point operations. *)
Class Rounding (rnd : Q -> Q) : Prop := {
  rnd_mono : forall a b, (a <= b)%Q -> (rnd a <= rnd b)%Q;
  rnd_exact : forall n, (0 <= n <= 1000)%Z -> (rnd (inject_Z n) == inject_Z n)%Q
}.

Definition READY_THRESHOLD : Q := 90.
Definition DEGRADED_THRESHOLD : Q := 70.
Definition BACKUP_FAIL_CLOSED_CAP : Q := 49.
Definition HEALTH_FAILURE_CAP : Q := 79.
Definition WEIGHT_PLAN_ACTIVE : Q := 10.
Definition WEIGHT_BACKUP_FRESHNESS : Q := 40.
Definition WEIGHT_BACKUP_VERIFICATION : Q := 25.
Definition WEIGHT_HEALTH : Q := 15.
Definition WEIGHT_RECENT_DRILL : Q := 10.

(** [min(a, b)] and [max(a, b)] *)
Definition qmin (a b : Q) : Q := if Qle_bool a b then a else b.
Definition qmax (a b : Q) : Q := if Qle_bool b a then a else b.

Section Scoring.
Variable rnd : Q -> Q.

Definition fadd (a b : Q) : Q := rnd (a + b).
Definition fmul (a b : Q) : Q := rnd (a * b).
(** [k / n] of two counts *)
Definition fratio (k n : nat) : Q := rnd (inject_Z (Z.of_nat k) / inject_Z (Z.of_nat n)).

Definition count {A} (p : A -> bool) (l : list A) : nat := length (filter (fun x => p x = true) l).

Definition required_backups (l : list BackupRequirementStatus) := filter (fun r => required r = true) l.
Definition applicable_checks (l : list HealthCheckStatus) := filter (fun h => applicable h = true) l.
Definition is_healthy (h : HealthCheckStatus) : bool := bool_decide (healthy h = Some true).

(** The score of the backups, and whether it failed closed. *)
Definition score_backups (start : Q) (reqs : list BackupRequirementStatus) : Q * bool :=
  match reqs with
  | [] => (fadd (fadd start WEIGHT_BACKUP_FRESHNESS) WEIGHT_BACKUP_VERIFICATION, false)
  | _ =>
      let fresh_count := count fresh reqs in
      let verified_count := count verified reqs in
      (fadd (fadd start (fmul WEIGHT_BACKUP_FRESHNESS (fratio fresh_count (length reqs))))
            (fmul WEIGHT_BACKUP_VERIFICATION (fratio verified_count (length reqs))),
       fresh_count <? length reqs)
  end.

Definition score_health (start : Q) (checks : list HealthCheckStatus) : Q :=
  match checks with
  | [] => fadd start WEIGHT_HEALTH
  | _ =>
      let healthy_count := count is_healthy checks in
      let s := fadd start (fmul WEIGHT_HEALTH (fratio healthy_count (length checks))) in
      if healthy_count <? length checks then qmin s HEALTH_FAILURE_CAP else s
  end.

Definition readiness_state (score : Q) : string :=
  if Qle_bool READY_THRESHOLD score then "READY"
  else if Qle_bool DEGRADED_THRESHOLD score then "DEGRADED" else "NOT_READY".

Definition score_readiness (plan_active : bool) (backups : list BackupRequirementStatus)
    (checks : list HealthCheckStatus) (recent_drill_passed : bool) : Q * string * bool :=
  if negb plan_active then (0%Q, "NOT_READY", true)
  else
    let '(s, fail_closed) := score_backups (fadd 0 WEIGHT_PLAN_ACTIVE) (required_backups backups) in
    let s := score_health s (applicable_checks checks) in
    let s := if recent_drill_passed then fadd s WEIGHT_RECENT_DRILL else s in
    let s := if fail_closed then qmin s BACKUP_FAIL_CLOSED_CAP else s in
    let s := qmax 0 (qmin 100 s) in
    (s, readiness_state s, fail_closed).
End Scoring.

(** ** backup_provider.py and health.py *)

(** The protocols [BackupStatusProvider] and [HealthChecker]. *)
Record BackupStatusProvider := {
  bp_policy_exists : string -> result dr_exc bool;
  bp_latest_backup : string -> result dr_exc (option BackupStatus) }.
Definition HealthChecker := RecoveryComponent -> result dr_exc (option bool).

Record InMemoryBackups := { mem_policies : gset string; mem_backups : gmap string BackupStatus }.
Definition add_policy (p : string) (m : InMemoryBackups) : InMemoryBackups :=
  {| mem_policies := {[p]} ∪ mem_policies m; mem_backups := mem_backups m |}.
Definition set_latest_backup (p : string) (b : BackupStatus) (m : InMemoryBackups) : InMemoryBackups :=
  {| mem_policies := {[p]} ∪ mem_policies m; mem_backups := <[p := b]> (mem_backups m) |}.
Definition InMemoryBackupStatusProvider (m : InMemoryBackups) : BackupStatusProvider :=
  {| bp_policy_exists := fun p => Ok (bool_decide (p ∈ mem_policies m));
     bp_latest_backup := fun p => Ok (mem_backups m !! p) |}.

(** Rows of backup_recovery.backup_policies and backup_runs. *)
Record BackupPolicyRow := { pol_id : Z; pol_name : string }.
Record BackupRunRow := {
  run_policy : Z; run_status : string; run_started_at : Z; run_verification : option string }.
Definition PostgresBackupStatusProvider (policies : list BackupPolicyRow) (runs : list BackupRunRow)
    : BackupStatusProvider :=
  {| bp_policy_exists := fun p => Ok (existsb (fun r => pol_name r =? p)%string policies);
     bp_latest_backup := fun p =>
       Ok ((fun r => {| latest_success_at := Some (run_started_at r);
                        verification_status := run_verification r |}) <$>
           head (py_sorted_rev (fun a b => run_started_at a <? run_started_at b)%Z
             (tbl_select (fun r => (run_status r =? "SUCCEEDED")%string
                && existsb (fun q => (pol_id q =? run_policy r)%Z && (pol_name q =? p)%string) policies)
                runs))) |}.

(** [bool(s)], [a or b] *)
Definition some_text (o : option string) : bool :=
  match o with Some s => negb (str_empty s) | None => false end.
Definition or_default (o : option Z) (d : Z) : Z :=
  match o with Some v => if (v =? 0)%Z then d else v | None => d end.

Definition NullHealthChecker : HealthChecker := fun _ => Ok None.
(** [http_get endpoint] is the status code, [None] when [httpx.get] raises. *)
Definition HttpHealthChecker (http_get : string -> option Z) : HealthChecker := fun c =>
  match health_endpoint c with
  | Some e =>
      if str_empty e then Ok None
      else match http_get e with
      | Some code => Ok (Some (code =? 200)%Z)
      | None => Ok (Some false)
      end
  | None => Ok None
  end.

(** ** verifier.py *)

Definition success (key : string) : CheckResult :=
  {| ok := true; result_key := key; result_names := []; error := None |}.
Definition failure (key : string) (names : list string) (message : string) : CheckResult :=
  {| ok := false; result_key := key; result_names := names; error := Some message |}.

(** [validate_plan] on the plan [get_plan] gives and its components. *)
Definition validate_plan (pid : Z) (plan : option RecoveryPlan) (components : list RecoveryComponent)
    : CheckResult :=
  match plan with
  | None => failure "" [] ("plan not found: " ++ pretty pid)
  | Some plan =>
      if negb (bool_decide (status plan = ACTIVE))
      then failure "plan_status" [plan_status_value (status plan)] "plan is not ACTIVE"
      else match components with
      | [] => failure "" [] "plan has no recovery components"
      | _ => success "plan_id"
      end
  end.

Section Verifier.
Variable provider : BackupStatusProvider.
Variable check : HealthChecker.
Variable enable_health_checks : bool.

Definition requirement (plan : RecoveryPlan) (c : RecoveryComponent) (exists_ : bool) (at_ : option Z)
    (fresh_ verified_ : bool) : BackupRequirementStatus :=
  {| br_component := component_name c; br_policy := backup_policy_name c;
     required := bool_decide (recovery_strategy c = RESTORE_FROM_BACKUP); policy_exists := exists_;
     latest_backup_at := at_; fresh := fresh_; verified := verified_;
     br_rpo_seconds := or_default (c_rpo_seconds c) (rpo_seconds plan) |}.

(** The body of the loop of [assess_backup_requirements]. *)
Definition assess_component (now : Z) (plan : RecoveryPlan) (c : RecoveryComponent)
    : result dr_exc BackupRequirementStatus :=
  if negb (bool_decide (recovery_strategy c = RESTORE_FROM_BACKUP))
  then Ok (requirement plan c false None false false)
  else match backup_policy_name c with
  | None => Ok (requirement plan c false None false false)
  | Some policy =>
      exists_ ← bp_policy_exists provider policy;
      if negb exists_ then Ok (requirement plan c false None false false)
      else
        backup ← bp_latest_backup provider policy;
        match backup with
        | None => Ok (requirement plan c true None false false)
        | Some b =>
            match latest_success_at b with
            | None => Ok (requirement plan c true None false false)
            | Some at_ =>
                let cutoff := (now - or_default (c_rpo_seconds c) (rpo_seconds plan))%Z in
                Ok (requirement plan c true (Some at_) (cutoff <=? at_)%Z
                      (bool_decide (verification_status b = Some "SUCCEEDED")))
            end
        end
  end.

Definition assess_backup_requirements (now : Z) (plan : RecoveryPlan)
    (components : list RecoveryComponent) : result dr_exc (list BackupRequirementStatus) :=
  map_result (assess_component now plan) components.

Definition names_where (p : BackupRequirementStatus -> bool) (l : list BackupRequirementStatus)
    : list string := map br_component (filter (fun r => p r = true) l).

Definition check_none (key : string) (bad : list string) (message ok_key : string) : CheckResult :=
  match bad with [] => success ok_key | _ => failure key bad message end.

Definition check_backup_policies (l : list BackupRequirementStatus) : CheckResult :=
  check_none "missing_backup_policy_for" (names_where (fun r => required r && negb (policy_exists r)) l)
    "one or more components are missing backup policies" "required_backup_components".

Definition check_backup_freshness (l : list BackupRequirementStatus) : CheckResult :=
  check_none "stale_or_missing_backups_for"
    (names_where (fun r => required r && policy_exists r && negb (fresh r)) l)
    "one or more required backups are missing or stale" "all_required_backups_fresh".

Definition check_backup_verification (l : list BackupRequirementStatus) : CheckResult :=
  check_none "unverified_backups_for"
    (names_where (fun r => required r && policy_exists r && fresh r && negb (verified r)) l)
    "one or more required backups are not verified" "all_required_backups_verified".

(** The body of the loop of [check_health]. *)
Definition check_component (c : RecoveryComponent) : result dr_exc HealthCheckStatus :=
  let status checked_ healthy_ :=
    {| hc_component := component_name c; hc_endpoint := health_endpoint c;
       applicable := some_text (health_endpoint c); checked := checked_; healthy := healthy_ |} in
  if negb (some_text (health_endpoint c)) then Ok (status false None)
  else if negb enable_health_checks then Ok (status false None)
  else h ← check c; Ok (status true h).

Definition check_health (components : list RecoveryComponent)
    : result dr_exc (CheckResult * list HealthCheckStatus) :=
  checks ← map_result check_component components;
  let failed := map hc_component (filter (fun h => bool_decide (healthy h = Some false) = true) checks) in
  Ok (check_none "failed_health_checks_for" failed "one or more component health checks failed"
        "health_checks_passed", checks).

Definition backup_warnings (r : BackupRequirementStatus) : list string :=
  ((if required r && negb (policy_exists r)
    then ["component " ++ br_component r ++ " has no backup policy"]%string else [])
   ++ (if required r && policy_exists r && negb (fresh r)
       then ["component " ++ br_component r ++ " backup is stale or missing"]%string else [])
   ++ (if required r && fresh r && negb (verified r)
       then ["component " ++ br_component r ++ " backup is not verified"]%string else []))%list.

Definition health_warnings (h : HealthCheckStatus) : list string :=
  if applicable h && bool_decide (healthy h = Some false)
  then ["component " ++ hc_component h ++ " failed health check"]%string else [].

(** [build_readiness_report] on the plan found, its components and whether a
    drill passed recently. *)
Definition build_report (rnd : Q -> Q) (now : Z) (plan : RecoveryPlan)
    (components : list RecoveryComponent) (drill_passed : bool) : result dr_exc ReadinessReport :=
  reqs ← assess_backup_requirements now plan components;
  health ← check_health components;
  let active := bool_decide (status plan = ACTIVE) in
  let '(sc, stt, fail_closed) := score_readiness rnd active reqs health.2 drill_passed in
  Ok {| rp_plan_id := plan_id plan; rp_environment := environment plan; plan_active := active;
        score := sc; state := stt; fail_closed_triggered := fail_closed;
        backup_requirements := reqs; health_checks := health.2; recent_drill_passed := drill_passed;
        warnings := ((if active then [] else ["recovery plan is not active"%string])
                     ++ concat (map backup_warnings reqs) ++ concat (map health_warnings health.2))%list |}.
End Verifier.

(** ** The score *)

#[export] Instance exact_rounding : Rounding (fun q => q).
Proof. split; [done|]. by intros. Qed.

#[export] Instance rnd_proper rnd `{!Rounding rnd} : Proper (Qeq ==> Qeq) rnd.
Proof. intros a b Hab. apply Qle_antisym; apply rnd_mono; rewrite Hab; apply Qle_refl. Qed.

Lemma qmin_le_r a b : (qmin a b <= b)%Q.
Proof. unfold qmin. destruct (Qle_bool a b) eqn:H; [by apply Qle_bool_iff|apply Qle_refl]. Qed.

Lemma Qle_bool_false a b : Qle_bool a b = false -> (b < a)%Q.
Proof. intros H. apply Qnot_le_lt. intros Hle. apply Qle_bool_iff in Hle. congruence. Qed.

Lemma qmin_le_l a b : (qmin a b <= a)%Q.
Proof.
  unfold qmin. destruct (Qle_bool a b) eqn:H; [apply Qle_refl|].
  by apply Qlt_le_weak, Qle_bool_false.
Qed.

Lemma clamp_bounds s : (0 <= qmax 0 (qmin 100 s) <= 100)%Q.
Proof.
  unfold qmax. destruct (Qle_bool (qmin 100 s) 0) eqn:H.
  - split; by apply Qle_bool_iff.
  - split; [by apply Qlt_le_weak, Qle_bool_false|apply qmin_le_l].
Qed.

Lemma clamp_le s b : (0 <= b)%Q -> (s <= b)%Q -> (qmax 0 (qmin 100 s) <= b)%Q.
Proof.
  intros H0 Hs. unfold qmax. destruct (Qle_bool _ _); [done|].
  apply (Qle_trans _ s); [apply qmin_le_r|done].
Qed.

Lemma state_below s b : (s <= b)%Q -> (b < 90)%Q -> readiness_state s <> "READY".
Proof.
  intros Hs Hb. unfold readiness_state. destruct (Qle_bool READY_THRESHOLD s) eqn:H.
  - apply Qle_bool_iff in H. exfalso. apply (Qlt_not_le _ _ Hb). by apply (Qle_trans _ s).
  - by destruct (Qle_bool DEGRADED_THRESHOLD s).
Qed.

Lemma state_capped s : (s <= 49)%Q -> readiness_state s = "NOT_READY".
Proof.
  intros Hs. unfold readiness_state.
  assert (forall t, (49 < t)%Q -> Qle_bool t s = false) as Hno.
  { intros t Ht. destruct (Qle_bool t s) eqn:H; [|done]. apply Qle_bool_iff in H.
    exfalso. apply (Qlt_not_le _ _ Ht). by apply (Qle_trans _ s). }
  by rewrite !Hno.
Qed.

Lemma inject_Z_le a b : (a <= b)%Z -> (inject_Z a <= inject_Z b)%Q.
Proof. intros H. by rewrite <- Zle_Qle. Qed.

Lemma state_full s : (90 <= s)%Q -> readiness_state s = "READY"%string.
Proof. intros H. apply Qle_bool_iff in H. unfold readiness_state, READY_THRESHOLD. by rewrite H. Qed.

(** A score that is an integer of the range is kept. *)
Lemma clamp_ge s n : (0 <= n <= 100)%Z -> (s == inject_Z n)%Q -> (inject_Z n <= qmax 0 (qmin 100 s))%Q.
Proof.
  intros Hn Hs. assert (inject_Z n <= qmin 100 s)%Q as Hmin.
  { unfold qmin. destruct (Qle_bool 100 s); [apply (inject_Z_le n 100); lia|]. rewrite Hs. apply Qle_refl. }
  unfold qmax. destruct (Qle_bool _ 0) eqn:H; [|done]. apply Qle_bool_iff in H. by apply (Qle_trans _ (qmin 100 s)).
Qed.

Lemma count_le {A} (p : A -> bool) l : count p l <= length l.
Proof. apply length_filter. Qed.

Lemma count_full {A} (p : A -> bool) l : count p l = length l <-> Forall (fun x => p x = true) l.
Proof.
  unfold count. induction l as [|x l IH]; simpl; [by split; [constructor|]|].
  rewrite filter_cons, list.Forall_cons, <- IH. case_decide as Hp; simpl.
  - split; [intros [=]; auto|intros [_ ->]; done].
  - pose proof (count_le p l) as Hl. unfold count in Hl. split; [lia|]. intros [? _]. congruence.
Qed.

Lemma count_missing {A} (p : A -> bool) l : (count p l <? length l) = true <-> Exists (fun x => p x = false) l.
Proof.
  rewrite Nat.ltb_lt. pose proof (count_le p l). split.
  - intros Hlt. destruct (decide (Forall (fun x => p x = true) l)) as [Hall|Hno].
    { apply count_full in Hall. lia. }
    apply not_Forall_Exists in Hno; [|intros x; apply _]. apply list.Exists_exists in Hno as (x & Hx & Hp).
    apply list.Exists_exists. exists x. split; [done|]. simpl in Hp. by destruct (p x).
  - intros Hex. destruct (decide (count p l = length l)) as [He|]; [|lia].
    apply count_full in He. rewrite list.Forall_forall in He. apply list.Exists_exists in Hex as (x & Hx & Hp).
    specialize (He x Hx). congruence.
Qed.

Section ScoreProofs.
Context (rnd : Q -> Q) `{HR : !Rounding rnd}.

Lemma fadd_mono a a' b b' : (a <= a')%Q -> (b <= b')%Q -> (fadd rnd a b <= fadd rnd a' b')%Q.
Proof. intros. unfold fadd. apply (rnd_mono (rnd := rnd)). by apply Qplus_le_compat. Qed.

Lemma fadd_exact a b m n :
  (0 <= m)%Z -> (0 <= n)%Z -> (m + n <= 1000)%Z -> (a == inject_Z m)%Q -> (b == inject_Z n)%Q ->
  (fadd rnd a b == inject_Z (m + n))%Q.
Proof. intros Hm Hn Hmn Ha Hb. unfold fadd. rewrite Ha, Hb, <- inject_Z_plus. apply rnd_exact. lia. Qed.

Lemma full_ratio k : 0 < k -> (fratio rnd k k == 1)%Q.
Proof.
  intros Hk. unfold fratio.
  assert (inject_Z (Z.of_nat k) / inject_Z (Z.of_nat k) == 1)%Q as ->; [|by apply (rnd_exact 1)].
  apply Qmult_inv_r. intros H. unfold Qeq in H. simpl in H. lia.
Qed.

Lemma full_weight w n k : 0 < k -> (0 <= n <= 1000)%Z -> (w == inject_Z n)%Q ->
  (fmul rnd w (fratio rnd k k) == inject_Z n)%Q.
Proof. intros Hk Hn Hw. unfold fmul. rewrite full_ratio, Hw, Qmult_1_r by done. by apply rnd_exact. Qed.

Lemma full_backups start m reqs :
  (0 <= m <= 900)%Z -> (start == inject_Z m)%Q ->
  Forall (fun r => fresh r = true /\ verified r = true) reqs ->
  (score_backups rnd start reqs).2 = false /\ ((score_backups rnd start reqs).1 == inject_Z (m + 40 + 25))%Q.
Proof.
  intros Hm Hs Hall. destruct reqs as [|r reqs].
  { split; [done|]. simpl. apply fadd_exact; [lia..|apply fadd_exact; [lia..|done|done]|done]. }
  unfold score_backups. set (l := r :: reqs) in *.
  assert (count fresh l = length l) as -> by (apply count_full; eapply list.Forall_impl; [exact Hall|]; tauto).
  assert (count verified l = length l) as -> by (apply count_full; eapply list.Forall_impl; [exact Hall|]; tauto).
  cbn [fst snd]. split; [apply Nat.ltb_irrefl|].
  assert (0 < length l) as Hl by (simpl; lia).
  apply fadd_exact; [lia..|apply fadd_exact; [lia..|done|]|]; by apply full_weight.
Qed.

Lemma full_health start m checks :
  (0 <= m <= 900)%Z -> (start == inject_Z m)%Q -> Forall (fun h => is_healthy h = true) checks ->
  (score_health rnd start checks == inject_Z (m + 15))%Q.
Proof.
  intros Hm Hs Hall. destruct checks as [|h checks].
  { simpl. apply fadd_exact; [lia..|done|done]. }
  unfold score_health. set (l := h :: checks) in *. apply count_full in Hall. rewrite Hall.
  rewrite Nat.ltb_irrefl. apply fadd_exact; [lia..|done|]. apply full_weight; [simpl; lia|lia|done].
Qed.

Lemma health_cap start checks :
  Exists (fun h => is_healthy h = false) checks -> (score_health rnd start checks <= 79)%Q.
Proof.
  intros Hex. destruct checks as [|h checks]; [inversion Hex|]. unfold score_health.
  apply count_missing in Hex. rewrite Hex. apply qmin_le_r.
Qed.
End ScoreProofs.

Lemma backups_flag rnd start reqs :
  (score_backups rnd start reqs).2 = true <-> Exists (fun r => fresh r = false) reqs.
Proof.
  destruct reqs as [|r reqs]; [by split; [|inversion 1]|]. unfold score_backups. cbn [snd].
  apply count_missing.
Qed.

(** The score, the flag and what the flag means. *)
Lemma fail_closed_spec rnd plan_active backups checks drill :
  let '(s, st, fail_closed) := score_readiness rnd plan_active backups checks drill in
  (0 <= s <= 100)%Q /\
  (fail_closed = true <->
     plan_active = false \/ exists r, r ∈ backups /\ required r = true /\ fresh r = false) /\
  (fail_closed = true -> st = "NOT_READY"%string).
Proof.
  unfold score_readiness. destruct plan_active; cbn [negb].
  2: { split_and!; [done|done|by split; [left|]|done]. }
  destruct (score_backups rnd _ (required_backups backups)) as [s0 flag] eqn:Hb.
  pose proof (backups_flag rnd (fadd rnd 0 WEIGHT_PLAN_ACTIVE) (required_backups backups)) as Hflag.
  rewrite Hb in Hflag. cbn [snd] in Hflag. split_and!; try apply clamp_bounds.
  - rewrite Hflag, list.Exists_exists. unfold required_backups. setoid_rewrite list_elem_of_filter.
    split.
    + intros (r & [Hr Hin] & Hf). right. by exists r.
    + intros [?|(r & Hin & Hr & Hf)]; [done|]. by exists r.
  - intros ->. apply state_capped, clamp_le; [done|apply qmin_le_r].
Qed.

(** C35: the score is between 0 and 100; an inactive plan, or one required
    backup that is not fresh, triggers the fail-closed flag, nothing else does,
    and with the flag the plan is not ready. *)
Theorem fail_closed_not_ready rnd plan_active backups checks drill :
  let '(s, st, fail_closed) := score_readiness rnd plan_active backups checks drill in
  (0 <= s <= 100)%Q /\
  (fail_closed = true <->
     plan_active = false \/ exists r, r ∈ backups /\ required r = true /\ fresh r = false) /\
  (fail_closed = true -> st = "NOT_READY"%string).
Proof. exact (fail_closed_spec rnd plan_active backups checks drill). Qed.

(** READY means an active plan, every required backup fresh and every
    checked component healthy; and a plan with all of that and every required
    backup verified is READY, drill or no drill. *)
Theorem ready_means rnd plan_active backups checks drill :
  Rounding rnd ->
  let st := (score_readiness rnd plan_active backups checks drill).1.2 in
  (st = "READY"%string ->
     plan_active = true /\
     (forall r, r ∈ backups -> required r = true -> fresh r = true) /\
     (forall h, h ∈ checks -> applicable h = true -> healthy h = Some true)) /\
  (plan_active = true ->
   (forall r, r ∈ backups -> required r = true -> fresh r = true /\ verified r = true) ->
   (forall h, h ∈ checks -> applicable h = true -> healthy h = Some true) ->
   st = "READY"%string).
Proof.
  intros HR st. subst st. split.
  - intros Hst. pose proof (fail_closed_spec rnd plan_active backups checks drill) as Hfc.
    unfold score_readiness in *. destruct plan_active; cbn [negb] in *; [|done].
    destruct (score_backups rnd _ (required_backups backups)) as [s0 flag] eqn:Hb.
    cbn [fst snd] in Hst. destruct Hfc as (_ & Hflag & Hno).
    destruct flag; [by rewrite Hno in Hst|]. split_and!; [done| |].
    + intros r Hin Hr. destruct (fresh r) eqn:Hf; [done|].
      assert (false = true) by (apply Hflag; right; by exists r). done.
    + intros h Hin Ha. destruct (is_healthy h) eqn:Hh; [by apply bool_decide_eq_true in Hh|].
      exfalso. revert Hst. apply (state_below _ 89); [|done].
      assert (score_health rnd s0 (applicable_checks checks) <= 79)%Q as Hcap.
      { apply health_cap. apply list.Exists_exists. exists h. split; [|done].
        by apply list_elem_of_filter. }
      apply clamp_le; [done|]. destruct drill; [|by apply (Qle_trans _ 79)].
      apply (Qle_trans _ (fadd rnd 79 WEIGHT_RECENT_DRILL)); [apply (fadd_mono rnd); [exact Hcap|apply Qle_refl]|].
      rewrite (fadd_exact rnd 79 WEIGHT_RECENT_DRILL 79 10) by done. done.
  - intros -> Hback Hheal. unfold score_readiness. cbn [negb].
    destruct (full_backups rnd (fadd rnd 0 WEIGHT_PLAN_ACTIVE) 10 (required_backups backups)) as [Hf Hs].
    { lia. }
    { by apply (fadd_exact rnd 0 WEIGHT_PLAN_ACTIVE 0 10). }
    { apply list.Forall_forall. intros r [Hr Hin]%list_elem_of_filter. by apply Hback. }
    destruct (score_backups rnd _ _) as [s0 flag]. cbn [fst snd] in *. subst flag.
    assert (score_health rnd s0 (applicable_checks checks) == 90)%Q as Hh.
    { apply (full_health rnd s0 75); [lia|done|]. apply list.Forall_forall.
      intros h [Ha Hin]%list_elem_of_filter. apply bool_decide_eq_true. by apply Hheal. }
    assert (exists n, (90 <= n <= 100)%Z /\ ((if drill then fadd rnd (score_health rnd s0
      (applicable_checks checks)) WEIGHT_RECENT_DRILL else score_health rnd s0 (applicable_checks checks))
      == inject_Z n)%Q) as (n & Hn & Hsc).
    { destruct drill; [exists 100%Z|exists 90%Z]; (split; [lia|]); [|done]. by apply (fadd_exact rnd _ _ 90 10). }
    cbn [fst snd]. apply state_full, Qle_trans with (inject_Z n).
    { apply (inject_Z_le 90). lia. }
    apply clamp_ge; [lia|exact Hsc].
Qed.

Lemma ready_means_witness :
  (score_readiness (fun q => q) true
     [{| br_component := "db"; br_policy := Some "nightly"; required := true; policy_exists := true;
         latest_backup_at := Some 5%Z; fresh := true; verified := true; br_rpo_seconds := 60 |}]
     [{| hc_component := "api"; hc_endpoint := Some "http://api"; applicable := true; checked := true;
         healthy := Some true |}] false).1.2 = "READY"%string.
Proof.
  apply (ready_means (fun q => q) true _ _ false exact_rounding); [done|..].
  - intros r Hr _. apply list_elem_of_singleton in Hr as ->. done.
  - intros h Hh _. apply list_elem_of_singleton in Hh as ->. done.
Defined.

(** A component whose health is not known, because the checks are switched off
    or there is no checker, counts as unhealthy, without any warning. *)
Lemma unknown_health_not_ready check now plan c :
  status plan = ACTIVE -> health_endpoint c = Some "http://api"%string -> recovery_strategy c = RESTART ->
  match build_report (InMemoryBackupStatusProvider {| mem_policies := ∅; mem_backups := ∅ |}) check false
          (fun q => q) now plan [c] true with
  | Ok report => state report = "DEGRADED"%string /\ warnings report = []
  | Err _ => False
  end.
Proof.
  destruct c as [n ty strategy prio policy endpoint rpo rto notes]. simpl. intros Hs -> ->.
  unfold build_report. simpl. rewrite Hs. by vm_compute.
Qed.
