(* ===== verification/Drills.v ===== *)
(** Plans and drills: [repository.py], [drill_engine.py] and [service.py] of
    apexquant-disaster-recovery, over the tables of its migration with their
    checks and unique keys.

    Every call of the repository is a transaction of its own.  [gen_random_uuid]
    gives the next number; [now] is the clock, read once by an operation. *)
From stdpp Require Import base strings list gmap pretty numbers.
From Stdlib Require Import Ascii QArith Qround.
From S2P Require Import Prelude PyStr Readiness.

#[local] Open Scope Z_scope.
#[local] Open Scope nat_scope.

Inductive DrillStatus := D_RUNNING | D_SUCCEEDED | D_FAILED | D_CANCELLED.
Inductive StepStatus := S_PENDING | S_RUNNING | S_SUCCEEDED | S_FAILED | S_SKIPPED.
#[export] Instance drill_status_eq_dec : EqDecision DrillStatus.
Proof. solve_decision. Defined.
#[export] Instance step_status_eq_dec : EqDecision StepStatus.
Proof. solve_decision. Defined.

Record DrillStep := {
  step_id : Z; st_drill : Z; step_name : string; step_order : Z; st_status : StepStatus;
  st_started_at : option Z; st_completed_at : option Z; st_result : option CheckResult;
  st_error : option string }.

Record Drill := {
  drill_id : Z; dr_plan : Z; dr_environment : string; trigger : string; actor : string;
  dr_status : DrillStatus; started_at : Z; completed_at : option Z; readiness_score : option Q;
  dr_result : option ReadinessReport; dr_error : option string }.

(** What an event's [details] are the dump of. *)
Inductive EventDetails := NoDetails | PlanDetails (p : RecoveryPlan) | ComponentDetails (c : RecoveryComponent).
Record DREvent := {
  ev_plan : option Z; ev_drill : option Z; event_type : string; severity : string; ev_actor : string;
  reason : string; details : EventDetails }.

Record DRDb := {
  plans : list RecoveryPlan;
  components : list (Z * RecoveryComponent);
  drills : list Drill;
  steps : list DrillStep;
  events : list DREvent;
  next_id : Z
}.
Definition empty_db : DRDb :=
  {| plans := []; components := []; drills := []; steps := []; events := []; next_id := 1 |}.

Definition with_plans l s := {| plans := l; components := components s; drills := drills s;
  steps := steps s; events := events s; next_id := next_id s |}.
Definition with_components l s := {| plans := plans s; components := l; drills := drills s;
  steps := steps s; events := events s; next_id := next_id s |}.
Definition with_drills l s := {| plans := plans s; components := components s; drills := l;
  steps := steps s; events := events s; next_id := next_id s |}.
Definition with_steps l s := {| plans := plans s; components := components s; drills := drills s;
  steps := l; events := events s; next_id := next_id s |}.
Definition with_events l s := {| plans := plans s; components := components s; drills := drills s;
  steps := steps s; events := l; next_id := next_id s |}.
Definition take_id s := {| plans := plans s; components := components s; drills := drills s;
  steps := steps s; events := events s; next_id := (next_id s + 1)%Z |}.

Notation DRM := (st DRDb dr_exc).

(** ** repository.py *)

Definition with_plan_id (id : Z) (p : RecoveryPlan) : RecoveryPlan :=
  {| plan_id := id; name := name p; environment := environment p; description := description p;
     criticality_tier := criticality_tier p; rpo_seconds := rpo_seconds p; rto_seconds := rto_seconds p;
     drill_max_age_days := drill_max_age_days p; status := status p |}.
Definition with_status (x : PlanStatus) (p : RecoveryPlan) : RecoveryPlan :=
  {| plan_id := plan_id p; name := name p; environment := environment p; description := description p;
     criticality_tier := criticality_tier p; rpo_seconds := rpo_seconds p; rto_seconds := rto_seconds p;
     drill_max_age_days := drill_max_age_days p; status := x |}.

(** The CHECKs of recovery_plans. *)
Definition plan_checks (p : RecoveryPlan) : bool :=
  not_blank (name p) && not_blank (environment p)
  && bool_decide (criticality_tier p ∈ ["TIER_1"; "TIER_2"; "TIER_3"]%string)
  && (0 <? rpo_seconds p)%Z && (0 <? rto_seconds p)%Z && gt0 (drill_max_age_days p).

(** What its INTEGER columns hold. *)
Definition opt_int4 (o : option Z) : bool := match o with Some n => int4 n | None => true end.
Definition plan_ints (p : RecoveryPlan) : bool :=
  int4 (rpo_seconds p) && int4 (rto_seconds p) && opt_int4 (drill_max_age_days p).

Definition create_plan_row (p : RecoveryPlan) : DRM RecoveryPlan := fun s =>
  if negb (plan_ints p) then (Err (DatabaseError "integer out of range"), s)
  else if negb (plan_checks p) then (Err (DatabaseError "recovery_plans_check"), s)
  else if existsb (fun q => name q =? name p)%string (plans s)
  then (Err (DatabaseError "recovery_plans_name_key"), s)
  else
    let row := with_plan_id (next_id s) p in
    (Ok row, take_id (with_plans (plans s ++ [row]) s)).

Definition get_plan (pid : Z) (s : DRDb) : option RecoveryPlan :=
  tbl_find (fun p => (plan_id p =? pid)%Z) (plans s).
Definition get_plan_by_name (n : string) (s : DRDb) : option RecoveryPlan :=
  tbl_find (fun p => name p =? n)%string (plans s).
Definition list_plans (s : DRDb) : list RecoveryPlan :=
  py_sorted (fun a b => str_lt (name a) (name b)) (plans s).

Definition not_found (what : string) (id : Z) : dr_exc :=
  DRNotFoundError (what ++ " not found: " ++ pretty id).

Definition update_plan_status (pid : Z) (x : PlanStatus) : DRM unit := fun s =>
  match get_plan pid s with
  | None => (Err (not_found "plan" pid), s)
  | Some _ => (Ok tt, with_plans (tbl_update (fun p => (plan_id p =? pid)%Z) (with_status x) (plans s)) s)
  end.

Definition component_checks (c : RecoveryComponent) : bool :=
  not_blank (component_name c) && (0 <? priority c)%Z && gt0 (c_rpo_seconds c)
  && gt0 (c_rto_seconds c).

Definition component_ints (c : RecoveryComponent) : bool :=
  int4 (priority c) && opt_int4 (c_rpo_seconds c) && opt_int4 (c_rto_seconds c).

Definition add_component_row (pid : Z) (c : RecoveryComponent) : DRM RecoveryComponent := fun s =>
  if negb (component_ints c) then (Err (DatabaseError "integer out of range"), s)
  else if negb (component_checks c) then (Err (DatabaseError "recovery_components_check"), s)
  else if negb (existsb (fun p => (plan_id p =? pid)%Z) (plans s))
  then (Err (DatabaseError "recovery_components_plan_id_fkey"), s)
  else if existsb (fun r => (r.1 =? pid)%Z && (component_name r.2 =? component_name c)%string) (components s)
  then (Err (DatabaseError "recovery_components_plan_component_unique"), s)
  else (Ok c, take_id (with_components (components s ++ [(pid, c)]) s)).

(** [ORDER BY priority, component_name] *)
Definition component_before (a b : RecoveryComponent) : bool :=
  (priority a <? priority b)%Z
  || ((priority a =? priority b)%Z && str_lt (component_name a) (component_name b)).
Definition list_components (pid : Z) (s : DRDb) : list RecoveryComponent :=
  py_sorted component_before (map snd (tbl_select (fun r => (r.1 =? pid)%Z) (components s))).

Definition create_drill (pid : Z) (env trig who : string) (now : Z) : DRM Drill := fun s =>
  if negb (not_blank env && not_blank trig && not_blank who)
  then (Err (DatabaseError "dr_drills_check"), s)
  else if negb (existsb (fun p => (plan_id p =? pid)%Z) (plans s))
  then (Err (DatabaseError "dr_drills_plan_id_fkey"), s)
  else
    let row := {| drill_id := next_id s; dr_plan := pid; dr_environment := env; trigger := trig;
                  actor := who; dr_status := D_RUNNING; started_at := now; completed_at := None;
                  readiness_score := None; dr_result := None; dr_error := None |} in
    (Ok row, take_id (with_drills (drills s ++ [row]) s)).

(** A value of a NUMERIC(5,2) column. *)
Definition numeric_5_2 (q : Q) : Q := (inject_Z (Qfloor (q * 100 + (1 # 2))) / 100)%Q.

Definition update_drill (d : Drill) : DRM unit := fun s =>
  if existsb (fun x => (drill_id x =? drill_id d)%Z) (drills s)
  then (Ok tt, with_drills (tbl_update (fun x => (drill_id x =? drill_id d)%Z)
         (fun x => {| drill_id := drill_id x; dr_plan := dr_plan x; dr_environment := dr_environment x;
                      trigger := trigger x; actor := actor x; dr_status := dr_status d;
                      started_at := started_at x; completed_at := completed_at d;
                      readiness_score := numeric_5_2 <$> readiness_score d; dr_result := dr_result d;
                      dr_error := dr_error d |}) (drills s)) s)
  else (Err (not_found "drill" (drill_id d)), s).

Definition get_drill (id : Z) (s : DRDb) : option Drill :=
  tbl_find (fun d => (drill_id d =? id)%Z) (drills s).
Definition list_drills (pid : option Z) (limit : nat) (s : DRDb) : list Drill :=
  take limit (py_sorted_rev (fun a b => started_at a <? started_at b)%Z
    (tbl_select (fun d => match pid with Some p => (dr_plan d =? p)%Z | None => true end) (drills s))).

Definition latest_passed_drill_within_days (now pid : Z) (days : option Z) (s : DRDb) : bool :=
  existsb (fun d => (dr_plan d =? pid)%Z && bool_decide (dr_status d = D_SUCCEEDED)
    && match days with
       | None => true
       | Some n => (now - n * 86400 <=? default (started_at d) (completed_at d))%Z
       end) (drills s).

Definition create_step (drill : Z) (n : string) (order now : Z) : DRM DrillStep := fun s =>
  if negb (not_blank n) then (Err (DatabaseError "dr_drill_steps_step_name_not_empty"), s)
  else if existsb (fun x => (st_drill x =? drill)%Z && (step_order x =? order)%Z) (steps s)
  then (Err (DatabaseError "dr_drill_steps_drill_step_order_unique"), s)
  else
    let row := {| step_id := next_id s; st_drill := drill; step_name := n; step_order := order;
                  st_status := S_RUNNING; st_started_at := Some now; st_completed_at := None;
                  st_result := None; st_error := None |} in
    (Ok row, take_id (with_steps (steps s ++ [row]) s)).

Definition update_step (x : DrillStep) : DRM unit := fun s =>
  if existsb (fun y => (step_id y =? step_id x)%Z) (steps s)
  then (Ok tt, with_steps (tbl_update (fun y => (step_id y =? step_id x)%Z)
         (fun y => {| step_id := step_id y; st_drill := st_drill y; step_name := step_name y;
                      step_order := step_order y; st_status := st_status x;
                      st_started_at := st_started_at y; st_completed_at := st_completed_at x;
                      st_result := st_result x; st_error := st_error x |}) (steps s)) s)
  else (Err (not_found "step" (step_id x)), s).

Definition list_steps (drill : Z) (s : DRDb) : list DrillStep :=
  py_sorted (fun a b => step_order a <? step_order b)%Z
    (tbl_select (fun x => (st_drill x =? drill)%Z) (steps s)).

(** The argument of [record_event]: a [DREvent], or a dict, which has no
    attributes of that name. *)
Inductive EventArgument := Model (e : DREvent) | Dict.
Definition record_event (arg : EventArgument) : DRM unit := fun s =>
  match arg with
  | Dict => (Err (AttributeError "'dict' object has no attribute 'plan_id'"), s)
  | Model e =>
      if negb (not_blank (event_type e) && not_blank (ev_actor e))
      then (Err (DatabaseError "dr_events_check"), s)
      else (Ok tt, with_events (events s ++ [e]) s)
  end.

(** ** drill_engine.py *)

Definition MINIMUM_SUCCESS_SCORE : Q := 70.

Section Engine.
Variable provider : BackupStatusProvider.
Variable check : HealthChecker.
Variable enable_health_checks : bool.
Variable rnd : Q -> Q.

Definition build_readiness_report (now pid : Z) : DRM ReadinessReport :=
  s ← get_state;
  match get_plan pid s with
  | None => raise (not_found "plan" pid)
  | Some plan =>
      lift (build_report provider check enable_health_checks rnd now plan (list_components pid s)
              (latest_passed_drill_within_days now pid (drill_max_age_days plan) s))
  end.

(** [str(exc)] *)
Definition exc_text (e : dr_exc) : string :=
  match e with
  | DRNotFoundError m | DRStateError m | DRRepositoryError m | AttributeError m
  | DatabaseError m | ProviderError m => m
  end.

Definition StepFn := DRDb -> result dr_exc CheckResult.

(** The steps of a drill, over the backup requirements assessed before. *)
Definition drill_steps (plan : RecoveryPlan) (reqs : list BackupRequirementStatus)
    : list (string * StepFn) :=
  [("validate_plan", fun s => Ok (validate_plan (plan_id plan) (get_plan (plan_id plan) s)
                                    (list_components (plan_id plan) s)));
   ("check_backup_policies", fun _ => Ok (check_backup_policies reqs));
   ("check_backup_freshness", fun _ => Ok (check_backup_freshness reqs));
   ("check_backup_verification", fun _ => Ok (check_backup_verification reqs));
   ("check_component_health", fun s =>
      r ← check_health check enable_health_checks (list_components (plan_id plan) s); Ok r.1)]%string.

(** A step as the outcome of its function leaves it, and whether it failed. *)
Definition finish_step (x : DrillStep) (now : Z) (outcome : result dr_exc CheckResult) : DrillStep * bool :=
  let finished status_ result_ error_ :=
    {| step_id := step_id x; st_drill := st_drill x; step_name := step_name x;
       step_order := step_order x; st_status := status_; st_started_at := st_started_at x;
       st_completed_at := Some now; st_result := result_; st_error := error_ |} in
  match outcome with
  | Ok r => if ok r then (finished S_SUCCEEDED (Some r) (st_error x), false)
            else (finished S_FAILED (Some r) (error r), true)
  | Err e => (finished S_FAILED (st_result x) (Some (exc_text e)), true)
  end.

(** The loop over the steps, from number [order] on; whether any failed. *)
Fixpoint run_steps (drill now : Z) (l : list (string * StepFn)) (order : Z) (failed : bool) : DRM bool :=
  match l with
  | [] => mret failed
  | (n, fn) :: l' =>
      row ← create_step drill n order now;
      s ← get_state;
      let '(done_, bad) := finish_step row now (fn s) in
      update_step done_ ≫= fun _ =>
      if bad && (n =? "validate_plan")%string then mret true
      else run_steps drill now l' (order + 1)%Z (failed || bad)
  end.

(** [run_drill] up to the event it records last. *)
Definition complete_drill (now pid : Z) (who trig : string) : DRM Drill :=
  s ← get_state;
  match get_plan pid s with
  | None => raise (not_found "plan" pid)
  | Some plan =>
      d ← create_drill (plan_id plan) (environment plan) trig who now;
      s ← get_state;
      reqs ← lift (assess_backup_requirements provider now plan (list_components (plan_id plan) s));
      failed ← run_steps (drill_id d) now (drill_steps plan reqs) 1 false;
      readiness ← build_readiness_report now (plan_id plan);
      let completed := negb failed && Qle_bool MINIMUM_SUCCESS_SCORE (score readiness) in
      let d' := {| drill_id := drill_id d; dr_plan := dr_plan d; dr_environment := dr_environment d;
                   trigger := trigger d; actor := actor d;
                   dr_status := if completed then D_SUCCEEDED else D_FAILED; started_at := started_at d;
                   completed_at := Some now; readiness_score := Some (score readiness);
                   dr_result := Some readiness;
                   dr_error := if failed : bool then Some "one or more drill steps failed"%string
                               else dr_error d |} in
      update_drill d' ≫= fun _ =>
      mret d'
  end.
(** The event is handed over as a dict. *)
Definition run_drill (now pid : Z) (who trig : string) : DRM Drill :=
  d ← complete_drill now pid who trig;
  record_event Dict ≫= fun _ =>
  mret d.
End Engine.

(** ** service.py *)

Definition DEFAULT_PLAN_NAME : string := "platform-disaster-recovery-plan".

Definition event (pid : Z) (ty who why : string) (d : EventDetails) : EventArgument :=
  Model {| ev_plan := Some pid; ev_drill := None; event_type := ty; severity := "INFO"; ev_actor := who;
           reason := why; details := d |}.

Definition create_plan (p : RecoveryPlan) (who : string) : DRM RecoveryPlan :=
  created ← create_plan_row p;
  record_event (event (plan_id created) "DR_PLAN_CREATED" who "disaster recovery plan created"
                  (PlanDetails created)) ≫= fun _ =>
  mret created.

Definition activate_plan (pid : Z) (who : string) : DRM (option RecoveryPlan) :=
  s ← get_state;
  match get_plan pid s with
  | None => raise (not_found "plan" pid)
  | Some plan =>
      guard_raise (bool_decide (status plan = RETIRED)) (DRStateError "retired plans cannot be activated")
      ≫= fun _ =>
      update_plan_status pid ACTIVE ≫= fun _ =>
      record_event (event pid "DR_PLAN_ACTIVATED" who "disaster recovery plan activated" NoDetails)
      ≫= fun _ =>
      s' ← get_state;
      mret (get_plan pid s')
  end.

Definition add_component (pid : Z) (c : RecoveryComponent) (who : string) : DRM RecoveryComponent :=
  s ← get_state;
  match get_plan pid s with
  | None => raise (not_found "plan" pid)
  | Some _ =>
      created ← add_component_row pid c;
      record_event (event pid "DR_COMPONENT_ADDED" who ("component added: " ++ component_name c)
                      (ComponentDetails created)) ≫= fun _ =>
      mret created
  end.

Definition default_plan (env : string) : RecoveryPlan :=
  {| plan_id := 0; name := DEFAULT_PLAN_NAME; environment := env;
     description := "Canonical ApexQuant Ultra platform disaster recovery plan";
     criticality_tier := "TIER_1"; rpo_seconds := 3600; rto_seconds := 3600;
     drill_max_age_days := Some 7%Z; status := DRAFT |}.

Definition default_component (n : string) (ty : ComponentType) (strategy : RecoveryStrategy) (prio : Z)
    (policy endpoint : option string) (times : option Z) (note : string) : RecoveryComponent :=
  {| component_name := n; component_type := ty; recovery_strategy := strategy; priority := prio;
     backup_policy_name := policy; health_endpoint := endpoint; c_rpo_seconds := times;
     c_rto_seconds := times; notes := note |}.

Definition default_components (policy : string) : list RecoveryComponent :=
  [default_component "postgresql-primary" DATABASE RESTORE_FROM_BACKUP 1 (Some policy) None (Some 3600%Z)
     "Primary PostgreSQL transactional truth database";
   default_component "backup-object-storage" OBJECT_STORAGE MANUAL 2 None None None
     "Backup artifact storage. Requires storage-provider recovery or replication.";
   default_component "event-bus" EVENT_BUS REBUILD 3 None None None
     "Kafka/Redpanda event backbone. Rebuild and replay from durable sources.";
   default_component "redis-cache" REDIS REBUILD 4 None None None
     "Redis cache and temporary state. Rebuild from transactional truth.";
   default_component "backup-recovery-core" CT_SERVICE RESTART 5 None
     (Some "http://backup-recovery-core:8093/healthz"%string) None "Backup and recovery control service";
   default_component "disaster-recovery-core" CT_SERVICE RESTART 6 None
     (Some "http://disaster-recovery-core:8094/healthz"%string) None "Disaster recovery control service"].

Definition bootstrap_default_plan (env policy who : string) : DRM (option RecoveryPlan) :=
  s ← get_state;
  match get_plan_by_name DEFAULT_PLAN_NAME s with
  | Some existing => mret (Some existing)
  | None =>
      plan ← create_plan (default_plan env) who;
      for_each (fun c => add_component (plan_id plan) c who ≫= fun _ => mret tt)
        (default_components policy) ≫= fun _ =>
      activate_plan (plan_id plan) who
  end.
