(* ===== verification/DrillProps.v ===== *)
(** Correctness of drills and of the bootstrap of the default plan. *)
From stdpp Require Import base strings list gmap pretty numbers.
From Stdlib Require Import Ascii QArith Qround.
From S2P Require Import Prelude PyStr Readiness Drills.

#[local] Open Scope Z_scope.
#[local] Open Scope nat_scope.

(** ** Updating the row just inserted *)

Lemma update_last {A} (p : A -> bool) f l x :
  (forall y, y ∈ l -> p y = false) -> p x = true -> tbl_update p f (l ++ [x]) = (l ++ [f x])%list.
Proof.
  intros Hl Hx. unfold tbl_update. rewrite fmap_app. cbn [fmap list_fmap]. rewrite Hx. f_equal.
  by apply (tbl_update_none p f).
Qed.

Definition ids_below {A} (id : A -> Z) (l : list A) (n : Z) : Prop := Forall (fun x => (id x < n)%Z) l.

Lemma ids_below_weaken {A} (id : A -> Z) l n n' : ids_below id l n -> (n <= n')%Z -> ids_below id l n'.
Proof. intros H Hn. eapply list.Forall_impl; [exact H|]. simpl. lia. Qed.

Lemma ids_below_ne {A} (id : A -> Z) l n : ids_below id l n -> forall y, y ∈ l -> (id y =? n)%Z = false.
Proof. intros H y Hy. unfold ids_below in H. rewrite list.Forall_forall in H. specialize (H y Hy). lia. Qed.

(** ** The steps of a drill *)

Section Steps.
Variables (drill now : Z).

Definition bad_outcome (r : result dr_exc CheckResult) : bool :=
  match r with Ok c => negb (ok c) | Err _ => true end.

Lemma finish_step_bad x r : (finish_step x now r).2 = bad_outcome r.
Proof. unfold finish_step, bad_outcome. destruct r as [c|e]; [by destruct (ok c)|done]. Qed.

(** The steps that are executed, with their outcomes: a failed [validate_plan]
    is the last. *)
Fixpoint executed (l : list (string * StepFn)) (s : DRDb) : list (string * result dr_exc CheckResult) :=
  match l with
  | [] => []
  | (n, fn) :: l' =>
      (n, fn s) :: if bad_outcome (fn s) && (n =? "validate_plan")%string then [] else executed l' s
  end.

(** Functions that read plans and components only. *)
Definition reads_plans (l : list (string * StepFn)) : Prop :=
  Forall (fun p => forall s s', plans s = plans s' -> components s = components s' -> p.2 s = p.2 s') l.

Lemma executed_same l s s' :
  reads_plans l -> plans s = plans s' -> components s = components s' -> executed l s = executed l s'.
Proof.
  intros Hl Hp Hc. induction Hl as [|[n fn] l Hfn Hl IH]; [done|]. simpl.
  specialize (Hfn s s' Hp Hc). simpl in Hfn. by rewrite Hfn, IH.
Qed.

(** The row of a finished step. *)
Definition step_row (p : string * result dr_exc CheckResult) (x : DrillStep) : Prop :=
  step_name x = p.1 /\ st_drill x = drill /\ st_completed_at x = Some now /\
  st_status x = if bad_outcome p.2 then S_FAILED else S_SUCCEEDED.

Definition same_but_steps (s s' : DRDb) : Prop :=
  plans s' = plans s /\ components s' = components s /\ drills s' = drills s /\ events s' = events s
  /\ (next_id s <= next_id s')%Z.

Lemma step_once n fn order s :
  not_blank n = true -> ids_below step_id (steps s) (next_id s) ->
  Forall (fun x => st_drill x = drill -> (step_order x < order)%Z) (steps s) ->
  (forall s', plans s = plans s' -> components s = components s' -> fn s = fn s') ->
  exists x s', same_but_steps s s' /\ steps s' = (steps s ++ [x])%list /\ step_row (n, fn s) x /\
    step_order x = order /\ (step_id x < next_id s')%Z /\
    forall (k : bool -> DRM bool),
      (row ← create_step drill n order now;
       s0 ← get_state;
       let '(done_, bad) := finish_step row now (fn s0) in
       update_step done_ ≫= fun _ => k bad) s = k (bad_outcome (fn s)) s'.
Proof.
  intros Hn Hids Hord Hfn.
  set (row := {| step_id := next_id s; st_drill := drill; step_name := n; step_order := order;
    st_status := S_RUNNING; st_started_at := Some now; st_completed_at := None; st_result := None;
    st_error := None |}).
  assert (create_step drill n order now s = (Ok row, take_id (with_steps (steps s ++ [row]) s))) as Hc.
  { unfold create_step. rewrite Hn. cbn [negb].
    assert (existsb (fun x => (st_drill x =? drill)%Z && (step_order x =? order)%Z) (steps s) = false) as ->; [|done].
    apply not_true_is_false. intros (x & Hx%list_elem_of_In & He)%existsb_exists.
    rewrite list.Forall_forall in Hord. specialize (Hord x Hx). lia. }
  set (s1 := take_id (with_steps (steps s ++ [row]) s)) in *.
  set (done_ := (finish_step row now (fn s)).1).
  assert (step_id done_ = next_id s /\ step_row (n, fn s) done_ /\ step_order done_ = order
    /\ st_drill done_ = drill) as (Hid & Hrow & Ho & Hd).
  { unfold done_, finish_step, step_row, bad_outcome. destruct (fn s) as [c|e]; simpl; [destruct (ok c)|]; simpl; split_and!; reflexivity. }
  set (new := {| step_id := step_id row; st_drill := st_drill row; step_name := step_name row;
    step_order := step_order row; st_status := st_status done_; st_started_at := st_started_at row;
    st_completed_at := st_completed_at done_; st_result := st_result done_; st_error := st_error done_ |}).
  exists new, (with_steps (steps s ++ [new]) s1). split_and!; try done; try (simpl; lia).
  - unfold same_but_steps. split_and!; try done. simpl. lia.
  - destruct Hrow as (? & ? & ? & ?). unfold step_row. by split_and!.
  - intros k. rewrite (st_bind_ok _ _ _ _ _ Hc). rewrite (st_bind_ok _ _ s1 s1 s1) by done.
    rewrite <- (Hfn s1) by done.
    assert (finish_step row now (fn s) = (done_, bad_outcome (fn s))) as ->.
    { rewrite <- (finish_step_bad row). apply surjective_pairing. }
    erewrite st_bind_ok; [reflexivity|]. unfold update_step. simpl. rewrite Hid.
    rewrite existsb_app. simpl. rewrite Z.eqb_refl, orb_true_r.
    f_equal. f_equal. rewrite (update_last _ _ _ row); [done|by apply ids_below_ne|apply Z.eqb_refl].
Qed.

Lemma run_steps_spec l order failed s :
  Forall (fun p => not_blank p.1 = true) l -> reads_plans l ->
  ids_below step_id (steps s) (next_id s) ->
  Forall (fun x => st_drill x = drill -> (step_order x < order)%Z) (steps s) ->
  exists new s', run_steps drill now l order failed s
      = (Ok (failed || existsb (fun p => bad_outcome p.2) (executed l s)), s') /\
    same_but_steps s s' /\ steps s' = (steps s ++ new)%list /\ Forall2 step_row (executed l s) new.
Proof.
  intros Hn Hr. revert order failed s. induction l as [|[n fn] l IH]; intros order failed s Hids Hord.
  { exists [], s. rewrite app_nil_r, orb_false_r. split_and!; try done. }
  apply list.Forall_cons in Hn as [Hn Hnl], Hr as [Hfn Hrl].
  destruct (step_once n fn order s) as (x & s1 & Hsame & Hs1 & Hrow & Ho & Hid & Hk); [done..| |].
  { intros s'. apply Hfn. }
  cbn [run_steps]. rewrite (Hk (fun bad => if bad && (n =? "validate_plan")%string then mret true
    else run_steps drill now l (order + 1)%Z (failed || bad))).
  destruct Hsame as (Hp & Hc & Hd & He & Hnx). cbn [executed existsb].
  destruct (bad_outcome (fn s) && (n =? "validate_plan")%string) eqn:Hstop.
  - apply andb_true_iff in Hstop as [Hb _]. exists [x], s1. cbn [existsb snd fst].
    rewrite Hb, orb_true_r. split_and!; try done. apply Forall2_cons; [done|apply Forall2_nil].
  - destruct (IH Hnl Hrl (order + 1)%Z (failed || bad_outcome (fn s)) s1) as (new & s2 & Hrun & Hsame2 & Hs2 & Hf).
    + rewrite Hs1. apply Forall_app. split; [by apply (ids_below_weaken _ _ (next_id s))|by repeat constructor].
    + rewrite Hs1. apply Forall_app. split; [|repeat constructor; lia].
      eapply list.Forall_impl; [exact Hord|]. simpl. intros y Hy Hyd. specialize (Hy Hyd). lia.
    + rewrite (executed_same l s1 s) in * by done. exists (x :: new), s2.
      rewrite Hrun. cbn [snd]. rewrite orb_assoc. split; [done|].
      destruct Hsame2 as (Hp2 & Hc2 & Hd2 & He2 & Hnx2). split_and!; try congruence; try lia.
      * unfold same_but_steps. split_and!; try congruence. lia.
      * rewrite Hs2, Hs1, <- app_assoc. done.
      * by constructor.
Qed.
End Steps.

(** ** Drills *)

(** What the tables always satisfy: ids were drawn before, and only for rows
    that exist. *)
Record db_ok (s : DRDb) : Prop := {
  ok_plans : ids_below plan_id (plans s) (next_id s);
  ok_components : ids_below fst (components s) (next_id s);
  ok_drills : ids_below drill_id (drills s) (next_id s);
  ok_steps : ids_below step_id (steps s) (next_id s);
  ok_step_drills : ids_below st_drill (steps s) (next_id s)
}.

Lemma empty_dr_ok : db_ok empty_db.
Proof. split; constructor. Qed.

Section Drill.
Variable provider : BackupStatusProvider.
Variable check : HealthChecker.
Variable enable_health_checks : bool.
Variable rnd : Q -> Q.

Lemma drill_steps_read plan reqs : reads_plans (drill_steps check enable_health_checks plan reqs).
Proof.
  unfold reads_plans, drill_steps.
  repeat (apply list.Forall_cons; split); [..|constructor]; intros s s' Hp Hc; simpl;
    unfold get_plan, list_components; by rewrite ?Hp, ?Hc.
Qed.

Lemma names_none (p : BackupRequirementStatus -> bool) l k m k' :
  ok (check_none k (names_where p l) m k') = true <-> (forall r, r ∈ l -> p r = false).
Proof.
  unfold check_none, names_where. split.
  - intros H r Hr. destruct (p r) eqn:Hp; [|done].
    assert (br_component r ∈ map br_component (filter (fun r => p r = true) l)) as Hin.
    { apply (list_elem_of_fmap_2 br_component). by apply list_elem_of_filter. }
    destruct (map _ _); [by apply elem_of_nil in Hin|done].
  - intros H. destruct (filter (fun r => p r = true) l) as [|r l'] eqn:Hf; [done|].
    assert (r ∈ filter (fun r => p r = true) l) as [Hp Hr]%list_elem_of_filter by (rewrite Hf; left).
    by rewrite H in Hp.
Qed.

(** The three checks of the backups pass exactly when every required backup has
    its policy, is fresh and is verified. *)
Lemma backup_checks_ok l :
  ok (check_backup_policies l) && ok (check_backup_freshness l) && ok (check_backup_verification l) = true
  <-> forall r, r ∈ l -> required r = true -> policy_exists r = true /\ fresh r = true /\ verified r = true.
Proof.
  rewrite !andb_true_iff. unfold check_backup_policies, check_backup_freshness, check_backup_verification.
  rewrite !names_none. split.
  - intros [[H1 H2] H3] r Hr Hreq. specialize (H1 r Hr). specialize (H2 r Hr). specialize (H3 r Hr).
    rewrite Hreq in *. destruct (policy_exists r), (fresh r), (verified r); done.
  - intros H. split_and!; intros r Hr; specialize (H r Hr); destruct (required r); try done;
      destruct (H eq_refl) as (H1 & H2 & H3); by rewrite ?H1, ?H2, ?H3.
Qed.

Lemma health_check_ok cs r :
  check_health check enable_health_checks cs = Ok r ->
  ok r.1 = true <-> forall h, h ∈ r.2 -> healthy h <> Some false.
Proof.
  unfold check_health. destruct (map_result _ cs) as [checks|e]; [|done]. simpl. intros [= <-]. cbn [fst snd].
  unfold check_none. destruct (filter _ checks) as [|h l] eqn:Hf; cbn [map ok success failure].
  - split; [|done]. intros _ h Hh He.
    assert (h ∈ filter (fun h => bool_decide (healthy h = Some false) = true) checks) as Hin.
    { apply list_elem_of_filter. by rewrite bool_decide_eq_true. }
    rewrite Hf in Hin. by apply elem_of_nil in Hin.
  - split; [done|]. intros H. exfalso.
    assert (h ∈ filter (fun h => bool_decide (healthy h = Some false) = true) checks) as [He Hh]%list_elem_of_filter
      by (rewrite Hf; left).
    apply bool_decide_eq_true in He. by apply (H h Hh).
Qed.

Lemma validate_ok pid plan cs :
  ok (validate_plan pid (Some plan) cs) = true <-> status plan = ACTIVE /\ cs <> [].
Proof.
  unfold validate_plan. case_bool_decide as Hs; cbn [negb]; [|by split; [|intros [? _]]].
  destruct cs; by split; [intros; split|intros [_ ?]].
Qed.

(** Whether some step of a drill fails, in one condition. *)
Lemma no_step_fails plan reqs health s :
  get_plan (plan_id plan) s = Some plan ->
  check_health check enable_health_checks (list_components (plan_id plan) s) = Ok health ->
  existsb (fun p => bad_outcome p.2) (executed (drill_steps check enable_health_checks plan reqs) s) = false <->
  status plan = ACTIVE /\ list_components (plan_id plan) s <> [] /\
  (forall r, r ∈ reqs -> required r = true -> policy_exists r = true /\ fresh r = true /\ verified r = true) /\
  (forall h, h ∈ health.2 -> healthy h <> Some false).
Proof.
  intros Hp Hh. unfold drill_steps. cbn [executed].
  rewrite <- backup_checks_ok, <- (health_check_ok _ _ Hh).
  pose proof (validate_ok (plan_id plan) plan (list_components (plan_id plan) s)) as Hv.
  rewrite Hp, Hh. cbn [mbind result_bind bad_outcome].
  set (v := validate_plan _ _ _) in *. set (p1 := check_backup_policies reqs).
  set (p2 := check_backup_freshness reqs). set (p3 := check_backup_verification reqs).
  set (h := health.1). clearbody v p1 p2 p3 h.
  destruct v as [[] ? ? ?], p1 as [[] ? ? ?], p2 as [[] ? ? ?], p3 as [[] ? ? ?], h as [[] ? ? ?];
    simpl in *; naive_solver.
Qed.

Definition steps_named (l : list (string * StepFn)) : Prop := Forall (fun p => not_blank p.1 = true) l.

Lemma drill_steps_named plan reqs : steps_named (drill_steps check enable_health_checks plan reqs).
Proof. unfold steps_named, drill_steps. repeat (apply list.Forall_cons; split; [done|]). constructor. Qed.

Lemma get_plan_id pid s plan : get_plan pid s = Some plan -> plan_id plan = pid /\ plan ∈ plans s.
Proof. intros [Hin He%Z.eqb_eq]%head_Some_elem_of%tbl_select_elem. done. Qed.

Definition new_drill (plan : RecoveryPlan) (who trig : string) (now : Z) (s : DRDb) : Drill :=
  {| drill_id := next_id s; dr_plan := plan_id plan; dr_environment := environment plan;
     trigger := trig; actor := who; dr_status := D_RUNNING; started_at := now; completed_at := None;
     readiness_score := None; dr_result := None; dr_error := None |}.

Lemma create_drill_ok plan who trig now s :
  plan ∈ plans s -> not_blank who = true -> not_blank trig = true -> not_blank (environment plan) = true ->
  create_drill (plan_id plan) (environment plan) trig who now s
  = (Ok (new_drill plan who trig now s), take_id (with_drills (drills s ++ [new_drill plan who trig now s]) s)).
Proof.
  intros Hin Hwho Htrig Henv. unfold create_drill. rewrite Henv, Htrig, Hwho. cbn [andb negb].
  assert (existsb (fun p => (plan_id p =? plan_id plan)%Z) (plans s) = true) as ->; [|done].
  apply existsb_exists. exists plan. rewrite <- list_elem_of_In. split; [done|lia].
Qed.

(** While a drill runs, the report is what it was before it started. *)
Lemma report_during now plan report d s s2 :
  get_plan (plan_id plan) s = Some plan -> dr_status d = D_RUNNING ->
  plans s2 = plans s -> components s2 = components s -> drills s2 = (drills s ++ [d])%list ->
  build_report provider check enable_health_checks rnd now plan (list_components (plan_id plan) s)
    (latest_passed_drill_within_days now (plan_id plan) (drill_max_age_days plan) s) = Ok report ->
  build_readiness_report provider check enable_health_checks rnd now (plan_id plan) s2 = (Ok report, s2).
Proof.
  intros Hplan Hd Hp2 Hc2 Hd2 Hreport. unfold build_readiness_report.
  rewrite (st_bind_ok _ _ s2 s2 s2) by done.
  assert (get_plan (plan_id plan) s2 = Some plan) as -> by (unfold get_plan in *; by rewrite Hp2).
  assert (list_components (plan_id plan) s2 = list_components (plan_id plan) s) as ->
    by (unfold list_components; by rewrite Hc2).
  assert (forall days, latest_passed_drill_within_days now (plan_id plan) days s2
    = latest_passed_drill_within_days now (plan_id plan) days s) as ->.
  { intros days. unfold latest_passed_drill_within_days. rewrite Hd2, existsb_app. simpl. rewrite Hd.
    rewrite bool_decide_false by done. by rewrite !andb_false_r, !orb_false_r. }
  unfold lift. by rewrite Hreport.
Qed.

(** Closing a drill writes its outcome in the row it was created with. *)
Lemma close_drill d0 d' l s :
  ids_below drill_id l (drill_id d0) -> drills s = (l ++ [d0])%list -> drill_id d' = drill_id d0 ->
  exists d, update_drill d' s = (Ok tt, with_drills (l ++ [d]) s) /\
    drill_id d = drill_id d0 /\ dr_plan d = dr_plan d0 /\ completed_at d = completed_at d' /\
    readiness_score d = numeric_5_2 <$> readiness_score d' /\ dr_status d = dr_status d'.
Proof.
  intros Hl Hs Hid. eexists. split.
  - unfold update_drill. rewrite Hs, Hid, existsb_app. simpl. rewrite Z.eqb_refl, orb_true_r.
    f_equal. rewrite (update_last _ _ _ d0); [reflexivity|by apply ids_below_ne|apply Z.eqb_refl].
  - done.
Qed.

(** A drill that is completed raises all the same: its last call hands a dict
    to [record_event], which reads attributes of it. *)
Lemma event_refused now pid who trig s d s' :
  complete_drill provider check enable_health_checks rnd now pid who trig s = (Ok d, s') ->
  run_drill provider check enable_health_checks rnd now pid who trig s =
    (Err (AttributeError "'dict' object has no attribute 'plan_id'"), s').
Proof. intros H. unfold run_drill. by rewrite (st_bind_ok _ _ _ _ _ H). Qed.

Lemma complete_drill_spec now pid who trig s plan reqs health report :
  db_ok s -> get_plan pid s = Some plan ->
  not_blank who = true -> not_blank trig = true -> not_blank (environment plan) = true ->
  assess_backup_requirements provider now plan (list_components pid s) = Ok reqs ->
  check_health check enable_health_checks (list_components pid s) = Ok health ->
  build_report provider check enable_health_checks rnd now plan (list_components pid s)
    (latest_passed_drill_within_days now pid (drill_max_age_days plan) s) = Ok report ->
  exists d' d new s',
    complete_drill provider check enable_health_checks rnd now pid who trig s = (Ok d', s') /\
    drills s' = (drills s ++ [d])%list /\ steps s' = (steps s ++ new)%list /\
    plans s' = plans s /\ components s' = components s /\ events s' = events s /\
    drill_id d = drill_id d' /\ dr_status d = dr_status d' /\
    dr_plan d = pid /\ completed_at d = Some now /\
    readiness_score d' = Some (score report) /\ readiness_score d = Some (numeric_5_2 (score report)) /\
    Forall (fun x => st_drill x = drill_id d /\ st_completed_at x = Some now) new /\
    (dr_status d = D_SUCCEEDED \/ dr_status d = D_FAILED) /\
    (dr_status d = D_SUCCEEDED <->
       status plan = ACTIVE /\ list_components pid s <> [] /\
       (forall r, r ∈ reqs -> required r = true ->
          policy_exists r = true /\ fresh r = true /\ verified r = true) /\
       (forall h, h ∈ health.2 -> healthy h <> Some false) /\
       (70 <= score report)%Q).
Proof.
  intros Hok Hplan Hwho Htrig Henv Hassess Hhealth Hreport.
  destruct (get_plan_id _ _ _ Hplan) as [Hpid Hin]. subst pid.
  set (d0 := new_drill plan who trig now s). set (s1 := take_id (with_drills (drills s ++ [d0]) s)).
  destruct (run_steps_spec (next_id s) now (drill_steps check enable_health_checks plan reqs) 1 false s1)
    as (new & s2 & Hrun & (Hp2 & Hc2 & Hd2 & He2 & Hn2) & Hs2 & Hnew).
  { apply drill_steps_named. }
  { apply drill_steps_read. }
  { apply (ids_below_weaken _ _ (next_id s)); [apply Hok|simpl; lia]. }
  { simpl. eapply list.Forall_impl; [apply (ok_step_drills s Hok)|]. simpl. lia. }
  set (failed := existsb _ _) in Hrun. cbn [orb] in Hrun.
  pose proof (report_during now plan report d0 s s2 Hplan eq_refl Hp2 Hc2 Hd2 Hreport) as Hrep.
  unfold complete_drill. rewrite (st_bind_ok _ _ s s s) by done. rewrite Hplan.
  rewrite (st_bind_ok _ _ _ d0 s1) by (by apply create_drill_ok).
  rewrite (st_bind_ok _ _ s1 s1 s1) by done.
  rewrite (st_bind_ok _ _ s1 reqs s1) by (unfold lift; by rewrite <- Hassess).
  change (drill_id d0) with (next_id s).
  rewrite (st_bind_ok _ _ _ _ _ Hrun), (st_bind_ok _ _ _ _ _ Hrep).
  set (completed := negb failed && _). set (d' := {| drill_id := _; dr_plan := _ |}).
  destruct (close_drill d0 d' (drills s) s2) as (d & Hupd & Hid & Hdp & Hdc & Hds & Hst); [apply Hok|done|done|].
  rewrite (st_bind_ok _ _ _ _ _ Hupd). eexists d', d, new, _.
  split; [reflexivity|]. simpl. split_and!; try done; try congruence.
  - rewrite Hid. clear -Hnew. induction Hnew as [|p x l k (_ & Hd & Hc & _) Hl IH]; constructor; auto.
  - rewrite Hst. destruct completed; auto.
  - rewrite Hst.
    pose proof (no_step_fails plan reqs health s1 Hplan Hhealth) as Hno. fold failed in Hno.
    change (list_components (plan_id plan) s1) with (list_components (plan_id plan) s) in Hno.
    assert (completed = true <-> failed = false /\ (70 <= score report)%Q) as Hcompl.
    { unfold completed. rewrite andb_true_iff, negb_true_iff, Qle_bool_iff. done. }
    destruct completed.
    + split; [intros _|done]. destruct (proj1 Hcompl eq_refl) as [Hf Hsc]. apply Hno in Hf as (? & ? & ? & ?).
      by split_and!.
    + split; [done|]. intros (H1 & H2 & H3 & H4 & H5). enough (false = true) by done.
      apply Hcompl. split; [|done]. apply Hno. by split_and!.
Qed.
(** C33: a drill of a plan of the database, with an actor and a trigger that
    are not blank and sources that answer, stores one row and its steps, all
    finished, whatever becomes of the event that is recorded last.  The drill
    that is completed, and the row of it, have the score of the readiness
    report, and have succeeded exactly when the plan is active and has
    components, every required backup has its policy, is fresh and verified, no
    component failed its health check, and that score is at least 70; a drill
    that has not succeeded has failed.  Nothing else is touched. *)
Theorem run_drill_outcome now pid who trig s plan reqs health report :
  db_ok s -> get_plan pid s = Some plan ->
  not_blank who = true -> not_blank trig = true -> not_blank (environment plan) = true ->
  assess_backup_requirements provider now plan (list_components pid s) = Ok reqs ->
  check_health check enable_health_checks (list_components pid s) = Ok health ->
  build_report provider check enable_health_checks rnd now plan (list_components pid s)
    (latest_passed_drill_within_days now pid (drill_max_age_days plan) s) = Ok report ->
  exists d' d new s',
    complete_drill provider check enable_health_checks rnd now pid who trig s = (Ok d', s') /\
    (run_drill provider check enable_health_checks rnd now pid who trig s).2 = s' /\
    drills s' = (drills s ++ [d])%list /\ steps s' = (steps s ++ new)%list /\
    plans s' = plans s /\ components s' = components s /\ events s' = events s /\
    drill_id d = drill_id d' /\ dr_status d = dr_status d' /\
    dr_plan d = pid /\ completed_at d = Some now /\
    readiness_score d' = Some (score report) /\ readiness_score d = Some (numeric_5_2 (score report)) /\
    Forall (fun x => st_drill x = drill_id d /\ st_completed_at x = Some now) new /\
    (dr_status d = D_SUCCEEDED \/ dr_status d = D_FAILED) /\
    (dr_status d = D_SUCCEEDED <->
       status plan = ACTIVE /\ list_components pid s <> [] /\
       (forall r, r ∈ reqs -> required r = true ->
          policy_exists r = true /\ fresh r = true /\ verified r = true) /\
       (forall h, h ∈ health.2 -> healthy h <> Some false) /\
       (70 <= score report)%Q).
Proof.
  intros Hok Hplan Hwho Htrig Henv Hassess Hhealth Hreport.
  destruct (complete_drill_spec now pid who trig s plan reqs health report Hok Hplan Hwho Htrig Henv Hassess Hhealth Hreport)
    as (d' & d & new & s' & Hrun & Hrest).
  exists d', d, new, s'. split; [exact Hrun|]. split; [|exact Hrest].
  by rewrite (event_refused _ _ _ _ _ _ _ Hrun).
Qed.
End Drill.

(** ** The default plan *)

Lemma find_last {A} (p : A -> bool) l x :
  (forall y, y ∈ l -> p y = false) -> p x = true -> tbl_find p (l ++ [x]) = Some x.
Proof.
  intros Hl Hx. induction l as [|y l IH]; cbn [app]; rewrite tbl_find_cons; [by rewrite Hx|].
  rewrite Hl by left. apply IH. intros z Hz. apply Hl. by right.
Qed.

Lemma record_ok pid ty who why d s :
  not_blank ty = true -> not_blank who = true ->
  exists l, record_event (event pid ty who why d) s = (Ok tt, with_events l s).
Proof. intros Ht Hw. simpl. rewrite Ht, Hw. by eexists. Qed.

Lemma add_components pid who plan cs s :
  get_plan pid s = Some plan -> not_blank who = true ->
  Forall (fun c => component_ints c = true /\ component_checks c = true) cs -> NoDup (component_name <$> cs) ->
  (forall r, r ∈ components s -> r.1 = pid -> component_name r.2 ∉ component_name <$> cs) ->
  exists s', for_each (fun c => add_component pid c who ≫= fun _ => mret tt) cs s = (Ok tt, s') /\
    plans s' = plans s /\ components s' = (components s ++ map (pair pid) cs)%list.
Proof.
  intros Hp Hwho Hcs. revert s Hp. induction Hcs as [|c cs [Hi Hc] Hcs IH]; intros s Hp Hnd Hfresh.
  { exists s. by rewrite app_nil_r. }
  rewrite fmap_cons, list.NoDup_cons in Hnd. destruct Hnd as [Hnot Hnd].
  assert (add_component_row pid c s = (Ok c, take_id (with_components (components s ++ [(pid, c)]) s))) as Hadd.
  { unfold add_component_row. rewrite Hi, Hc. cbn [negb].
    apply get_plan_id in Hp as [Hid Hin].
    assert (existsb (fun p => (plan_id p =? pid)%Z) (plans s) = true) as ->.
    { apply existsb_exists. exists plan. rewrite <- list_elem_of_In. split; [done|lia]. }
    cbn [negb]. rewrite (not_true_is_false (existsb _ (components s))); [done|].
    intros ([q x] & Hx%list_elem_of_In & [Hq%Z.eqb_eq Hn%String.eqb_eq]%andb_true_iff)%existsb_exists.
    apply (Hfresh _ Hx Hq). rewrite Hn, fmap_cons. left. }
  set (s1 := take_id _) in Hadd.
  destruct (record_ok pid "DR_COMPONENT_ADDED" who ("component added: " ++ component_name c)
    (ComponentDetails c) s1) as [l Hev]; [done..|].
  set (s2 := with_events l s1) in Hev.
  destruct (IH s2) as (s' & Hs' & Hp' & Hc'); [done|done| |].
  { intros r Hr Hrp. simpl in Hr. apply elem_of_app in Hr as [Hr| ->%list_elem_of_singleton]; [|done].
    intros Hin. apply (Hfresh r Hr Hrp). rewrite fmap_cons. by right. }
  exists s'. cbn [for_each]. split; [|split; [done|]].
  - assert ((add_component pid c who ≫= fun _ => mret tt) s = (Ok tt, s2)) as Hone.
    { unfold add_component. rewrite (st_bind_ok _ _ s c s2); [done|].
      rewrite (st_bind_ok _ _ s s s) by done. rewrite Hp.
      rewrite (st_bind_ok _ _ _ _ _ Hadd). by rewrite (st_bind_ok _ _ _ _ _ Hev). }
    by rewrite (st_bind_ok _ _ _ _ _ Hone).
  - rewrite Hc'. simpl. by rewrite <- app_assoc.
Qed.

Lemma get_last l row s :
  ids_below plan_id l (plan_id row) -> plans s = (l ++ [row])%list -> get_plan (plan_id row) s = Some row.
Proof. intros Hl Hs. unfold get_plan. rewrite Hs. apply find_last; [by apply ids_below_ne|apply Z.eqb_refl]. Qed.

Lemma no_plan_named n s :
  get_plan_by_name n s = None -> forall q, q ∈ plans s -> (name q =? n)%string = false.
Proof.
  intros Hnone q Hq. destruct (name q =? n)%string eqn:He; [|done].
  unfold get_plan_by_name, tbl_find in Hnone. apply head_None in Hnone.
  assert (q ∈ tbl_select (fun p => name p =? n)%string (plans s)) as Hin by by apply tbl_select_elem.
  rewrite Hnone in Hin. by apply elem_of_nil in Hin.
Qed.

Lemma create_default env who s :
  get_plan_by_name DEFAULT_PLAN_NAME s = None -> not_blank env = true -> not_blank who = true ->
  let row := with_plan_id (next_id s) (default_plan env) in
  exists s', create_plan (default_plan env) who s = (Ok row, s') /\
    plans s' = (plans s ++ [row])%list /\ components s' = components s.
Proof.
  intros Hnone Henv Hwho row. set (s1 := take_id (with_plans (plans s ++ [row]) s)).
  assert (create_plan_row (default_plan env) s = (Ok row, s1)) as Hrow.
  { unfold create_plan_row, plan_checks. change (plan_ints (default_plan env)) with true. cbn [name environment default_plan]. rewrite Henv. simpl.
    rewrite (not_true_is_false (existsb _ (plans s))); [done|].
    intros (q & Hq%list_elem_of_In & He)%existsb_exists. by rewrite (no_plan_named _ _ Hnone) in He. }
  destruct (record_ok (next_id s) "DR_PLAN_CREATED" who "disaster recovery plan created" (PlanDetails row) s1)
    as [l Hev]; [done..|].
  exists (with_events l s1). split; [|done]. unfold create_plan.
  rewrite (st_bind_ok _ _ _ _ _ Hrow). by rewrite (st_bind_ok _ _ _ _ _ Hev).
Qed.

Lemma activate_last l row who s :
  ids_below plan_id l (plan_id row) -> plans s = (l ++ [row])%list -> status row <> RETIRED ->
  not_blank who = true ->
  exists s', activate_plan (plan_id row) who s = (Ok (Some (with_status ACTIVE row)), s') /\
    plans s' = (l ++ [with_status ACTIVE row])%list /\ components s' = components s.
Proof.
  intros Hl Hs Hst Hwho. set (s1 := with_plans (l ++ [with_status ACTIVE row]) s).
  assert (update_plan_status (plan_id row) ACTIVE s = (Ok tt, s1)) as Hupd.
  { unfold update_plan_status. rewrite (get_last l row) by done. rewrite Hs. unfold s1. do 2 f_equal.
    apply update_last; [by apply ids_below_ne|apply Z.eqb_refl]. }
  destruct (record_ok (plan_id row) "DR_PLAN_ACTIVATED" who "disaster recovery plan activated" NoDetails s1)
    as [e Hev]; [done..|]. set (s2 := with_events e s1) in Hev.
  exists s2. split; [|done]. unfold activate_plan. rewrite (st_bind_ok _ _ s s s) by done.
  rewrite (get_last l row), guard_raise_bind, bool_decide_false by done.
  rewrite (st_bind_ok _ _ _ _ _ Hupd), (st_bind_ok _ _ _ _ _ Hev), (st_bind_ok _ _ s2 s2 s2) by done.
  by rewrite <- (get_last l (with_status ACTIVE row) s2).
Qed.

Lemma default_listing pid policy l s :
  ids_below fst l pid -> components s = (l ++ map (pair pid) (default_components policy))%list ->
  list_components pid s = default_components policy.
Proof.
  intros Hl Hs. unfold list_components. rewrite Hs, tbl_select_app.
  assert (tbl_select (fun r => (r.1 =? pid)%Z) l = []) as ->.
  { clear -Hl. unfold tbl_select. induction Hl as [|r l Hr Hl IH]; [done|].
    rewrite filter_cons, IH. rewrite decide_False; [done|]. simpl in Hr. lia. }
  unfold tbl_select, default_components. cbn [map fst snd].
  rewrite !filter_cons, filter_nil, !decide_True by apply Z.eqb_refl. reflexivity.
Qed.

(** On a database without the default plan, the bootstrap creates it with
    its six components in their order of recovery and activates it; called
    again, with whatever arguments, it returns that plan and changes nothing. *)
Theorem bootstrap_once env policy who s :
  db_ok s -> get_plan_by_name DEFAULT_PLAN_NAME s = None ->
  not_blank env = true -> not_blank who = true ->
  exists p s', bootstrap_default_plan env policy who s = (Ok (Some p), s') /\
    name p = DEFAULT_PLAN_NAME /\ environment p = env /\ status p = ACTIVE /\
    get_plan (plan_id p) s' = Some p /\
    list_components (plan_id p) s' = default_components policy /\
    forall env' policy' who', bootstrap_default_plan env' policy' who' s' = (Ok (Some p), s').
Proof.
  intros Hok Hnone Henv Hwho. set (row := with_plan_id (next_id s) (default_plan env)).
  destruct (create_default env who s) as (s1 & Hcreate & Hp1 & Hc1); [done..|]. fold row in Hcreate, Hp1.
  assert (ids_below plan_id (plans s) (plan_id row)) as Hbelow by apply Hok.
  destruct (add_components (next_id s) who row (default_components policy) s1)
    as (s2 & Hadd & Hp2 & Hc2); [by apply (get_last (plans s) row)|done| | | |].
  { repeat constructor. }
  { match goal with |- ?P => apply (bool_decide_eq_true P) end. by vm_compute. }
  { intros r Hr Hrp. rewrite Hc1 in Hr. pose proof (ids_below_ne _ _ _ (ok_components s Hok) r Hr). lia. }
  destruct (activate_last (plans s) row who s2) as (s3 & Hact & Hp3 & Hc3); [done|congruence|done|done|].
  exists (with_status ACTIVE row), s3. split_and!; try done.
  - unfold bootstrap_default_plan. rewrite (st_bind_ok _ _ s s s), Hnone by done.
    rewrite (st_bind_ok _ _ _ _ _ Hcreate). change (plan_id row) with (next_id s).
    by rewrite (st_bind_ok _ _ _ _ _ Hadd).
  - by apply (get_last (plans s) (with_status ACTIVE row)).
  - apply (default_listing _ _ (components s)); [apply Hok|by rewrite Hc3, Hc2, Hc1].
  - intros env' policy' who'. unfold bootstrap_default_plan. rewrite (st_bind_ok _ _ s3 s3 s3) by done.
    assert (get_plan_by_name DEFAULT_PLAN_NAME s3 = Some (with_status ACTIVE row)) as ->; [|done].
    unfold get_plan_by_name. rewrite Hp3. apply find_last; [by apply no_plan_named|done].
Qed.

(** ** Concrete runs *)

Definition toy_backups : BackupStatusProvider :=
  InMemoryBackupStatusProvider (set_latest_backup "nightly"
    {| latest_success_at := Some 900%Z; verification_status := Some "SUCCEEDED"%string |}
    {| mem_policies := ∅; mem_backups := ∅ |}).
Definition toy_http : HealthChecker := HttpHealthChecker (fun _ => Some 200%Z).
Definition toy_db : DRDb := (bootstrap_default_plan "local" "nightly" "ops" empty_db).2.
Definition toy_drill := run_drill toy_backups toy_http true (fun q => q) 1000 1 "ops" "manual" toy_db.

Lemma bootstrap_once_witness :
  exists p s', bootstrap_default_plan "local" "nightly" "ops" empty_db = (Ok (Some p), s') /\
    status p = ACTIVE /\ bootstrap_default_plan "prod" "other" "dev" s' = (Ok (Some p), s').
Proof.
  destruct (bootstrap_once "local" "nightly" "ops" empty_db empty_dr_ok) as
    (p & s' & H1 & _ & _ & H2 & _ & _ & H3); [done..|].
  exists p, s'. split_and!; [exact H1|exact H2|apply H3].
Defined.

Lemma toy_db_ok : db_ok toy_db.
Proof. split; vm_compute; repeat constructor. Qed.

Definition toy_plan : RecoveryPlan := with_status ACTIVE (with_plan_id 1 (default_plan "local")).
Definition or_nothing {A} (d : A) (r : result dr_exc A) : A := match r with Ok x => x | Err _ => d end.
Definition toy_reqs := or_nothing [] (assess_backup_requirements toy_backups 1000 toy_plan (list_components 1 toy_db)).
Definition toy_health := or_nothing (success "", []) (check_health toy_http true (list_components 1 toy_db)).

Lemma run_drill_outcome_witness :
  exists d' d s', complete_drill toy_backups toy_http true (fun q => q) 1000 1 "ops" "manual" toy_db = (Ok d', s') /\
    toy_drill.2 = s' /\ drills s' = [d] /\ dr_status d = D_SUCCEEDED /\ dr_status d' = D_SUCCEEDED.
Proof.
  assert (get_plan 1 toy_db = Some toy_plan) as Hp by by vm_compute.
  assert (assess_backup_requirements toy_backups 1000 toy_plan (list_components 1 toy_db) = Ok toy_reqs) as Ha
    by by vm_compute.
  assert (check_health toy_http true (list_components 1 toy_db) = Ok toy_health) as Hh by by vm_compute.
  assert (exists report, build_report toy_backups toy_http true (fun q => q) 1000 toy_plan
    (list_components 1 toy_db) (latest_passed_drill_within_days 1000 1 (drill_max_age_days toy_plan) toy_db)
    = Ok report /\ (70 <= score report)%Q) as (report & Hr & Hsc).
  { eexists. split; [vm_compute; reflexivity|]. by vm_compute. }
  destruct (run_drill_outcome toy_backups toy_http true (fun q => q) 1000 1 "ops" "manual" toy_db toy_plan
    toy_reqs toy_health report toy_db_ok Hp eq_refl eq_refl eq_refl Ha Hh Hr)
    as (d' & d & new & s' & Hrun & Hsnd & Hd & _ & _ & _ & _ & _ & Hsame & _ & _ & _ & _ & _ & _ & Hst).
  exists d', d, s'. split; [exact Hrun|]. split; [exact Hsnd|]. split; [exact Hd|]. rewrite <- Hsame.
  enough (Hs : dr_status d = D_SUCCEEDED) by exact (conj Hs Hs). apply Hst.
  assert (list_components 1 toy_db = default_components "nightly") as Hcs by by vm_compute.
  assert (forallb (fun r => policy_exists r && fresh r && verified r || negb (required r)) toy_reqs = true)
    as Hreqs by by vm_compute.
  assert (forallb (fun h => negb (bool_decide (healthy h = Some false))) toy_health.2 = true) as Hall
    by by vm_compute.
  rewrite forallb_forall in Hreqs, Hall. split_and!; [reflexivity|by rewrite Hcs|..|exact Hsc].
  - intros r Hin%list_elem_of_In Hreq. specialize (Hreqs r Hin). rewrite Hreq, orb_false_r in Hreqs.
    apply andb_true_iff in Hreqs as [[? ?]%andb_true_iff ?]. by split_and!.
  - intros h Hin%list_elem_of_In He. specialize (Hall h Hin). by rewrite He in Hall.
Defined.

(** ** What the code does beside its purpose *)

(** A bootstrap that fails on the way, here because the actor is blank, leaves
    a draft without components; the next one takes it for the default plan. *)
Lemma failed_bootstrap_sticks :
  let s := (bootstrap_default_plan "local" "nightly" " " empty_db).2 in
  is_ok (bootstrap_default_plan "local" "nightly" " " empty_db).1 = false /\
  match bootstrap_default_plan "local" "nightly" "ops" s with
  | (Ok (Some p), s') => s' = s /\ status p = DRAFT /\ list_components (plan_id p) s' = []
  | _ => False
  end.
Proof. by vm_compute. Qed.
