(* ===== verification/Secrets.v ===== *)
(** Secrets: [models.py], [policy.py], [crypto.py] and [store.py] of
    apexquant-secrets.

    Scrypt, AES-GCM and SHA-256 (the cryptography package and hashlib) and
    pydantic's JSON of the payload are parameters; random bytes and clock
    readings are arguments.  The store's file is the JSON value of the document
    [encrypt_bytes] builds, without its two-space layout. *)
From stdpp Require Import base strings list gmap pretty numbers.
From Stdlib Require Import Ascii.
From S2P Require Import Prelude PyStr Base64.

(** ** models.py *)

Inductive SecretClassification :=
  INFRASTRUCTURE | DATABASE | BROKER | EXECUTION | API | MODEL | KNOWLEDGE | C_OBSERVABILITY.
Inductive SecretPlane :=
  CONTROL | MARKET_DATA | TRADING | RISK | AI | DATA_RESEARCH | P_OBSERVABILITY.
Inductive SecretAction := READ | WRITE | ROTATE | ADMIN.
Inductive PolicyEffect := ALLOW | DENY.
Inductive SecretVersionStatus := ACTIVE | REVOKED.
#[export] Instance classification_eq_dec : EqDecision SecretClassification.
Proof. solve_decision. Defined.
#[export] Instance plane_eq_dec : EqDecision SecretPlane.
Proof. solve_decision. Defined.
#[export] Instance action_eq_dec : EqDecision SecretAction.
Proof. solve_decision. Defined.
#[export] Instance effect_eq_dec : EqDecision PolicyEffect.
Proof. solve_decision. Defined.
#[export] Instance version_status_eq_dec : EqDecision SecretVersionStatus.
Proof. solve_decision. Defined.

Definition classification_value (c : SecretClassification) : string :=
  match c with
  | INFRASTRUCTURE => "INFRASTRUCTURE" | DATABASE => "DATABASE" | BROKER => "BROKER"
  | EXECUTION => "EXECUTION" | API => "API" | MODEL => "MODEL" | KNOWLEDGE => "KNOWLEDGE"
  | C_OBSERVABILITY => "OBSERVABILITY"
  end.
Definition plane_value (p : SecretPlane) : string :=
  match p with
  | CONTROL => "CONTROL" | MARKET_DATA => "MARKET_DATA" | TRADING => "TRADING" | RISK => "RISK"
  | AI => "AI" | DATA_RESEARCH => "DATA_RESEARCH" | P_OBSERVABILITY => "OBSERVABILITY"
  end.
Definition action_value (a : SecretAction) : string :=
  match a with READ => "READ" | WRITE => "WRITE" | ROTATE => "ROTATE" | ADMIN => "ADMIN" end.

Record PolicyRule := {
  subject_plane : option SecretPlane; classification : option SecretClassification;
  action : option SecretAction; effect : PolicyEffect }.
Record PolicyEvaluation := { allowed : bool; ev_reason : string; matched_rules : list PolicyRule }.

Record SecretVersion := {
  version : Z; value : string; status : SecretVersionStatus; created_at : Z }.
Record SecretEntry := {
  e_classification : SecretClassification; description : string; current_version : Z;
  versions : list SecretVersion }.
Record SecretMetadata := {
  md_name : string; md_classification : SecretClassification; md_description : string;
  md_version : Z }.
(** [SecretStorePayload] *)
Definition Payload := pydict string SecretEntry.

Record AuditEvent := {
  occurred_at : Z; request_id : string; subject_service_name : string; au_plane : SecretPlane;
  secret_name : string; au_action : SecretAction; decision : PolicyEffect; reason : string }.

(** ** policy.py *)

Definition rule (p : SecretPlane) (c : option SecretClassification) (a : option SecretAction)
    (e : PolicyEffect) : PolicyRule :=
  {| subject_plane := Some p; classification := c; action := a; effect := e |}.

Definition AI_FORBIDDEN_CLASSIFICATIONS : list SecretClassification :=
  [BROKER; EXECUTION; DATABASE; INFRASTRUCTURE].
Definition RESEARCH_FORBIDDEN_CLASSIFICATIONS : list SecretClassification :=
  [BROKER; EXECUTION; DATABASE; INFRASTRUCTURE; API].

Definition default_policy_rules : list PolicyRule :=
  [rule AI (Some BROKER) None DENY; rule AI (Some EXECUTION) None DENY;
   rule AI (Some DATABASE) None DENY; rule AI (Some INFRASTRUCTURE) None DENY;
   rule DATA_RESEARCH (Some BROKER) None DENY; rule DATA_RESEARCH (Some EXECUTION) None DENY;
   rule DATA_RESEARCH (Some DATABASE) None DENY; rule DATA_RESEARCH (Some INFRASTRUCTURE) None DENY;
   rule CONTROL None None ALLOW;
   rule RISK (Some BROKER) (Some READ) ALLOW; rule RISK (Some EXECUTION) (Some READ) ALLOW;
   rule RISK (Some DATABASE) (Some READ) ALLOW; rule RISK (Some INFRASTRUCTURE) (Some READ) ALLOW;
   rule RISK (Some API) (Some READ) ALLOW; rule RISK (Some C_OBSERVABILITY) (Some READ) ALLOW;
   rule MARKET_DATA (Some INFRASTRUCTURE) (Some READ) ALLOW;
   rule MARKET_DATA (Some DATABASE) (Some READ) ALLOW; rule MARKET_DATA (Some API) (Some READ) ALLOW;
   rule MARKET_DATA (Some C_OBSERVABILITY) (Some READ) ALLOW;
   rule TRADING (Some DATABASE) (Some READ) ALLOW; rule TRADING (Some API) (Some READ) ALLOW;
   rule TRADING (Some C_OBSERVABILITY) (Some READ) ALLOW;
   rule AI (Some MODEL) (Some READ) ALLOW; rule AI (Some KNOWLEDGE) (Some READ) ALLOW;
   rule AI (Some API) (Some READ) ALLOW; rule AI (Some C_OBSERVABILITY) (Some READ) ALLOW;
   rule DATA_RESEARCH (Some MODEL) (Some READ) ALLOW; rule DATA_RESEARCH (Some KNOWLEDGE) (Some READ) ALLOW;
   rule DATA_RESEARCH (Some C_OBSERVABILITY) (Some READ) ALLOW;
   rule P_OBSERVABILITY (Some C_OBSERVABILITY) (Some READ) ALLOW;
   rule P_OBSERVABILITY (Some INFRASTRUCTURE) (Some READ) ALLOW].

(** [field is None or field == wanted] *)
Definition field_matches {A} `{EqDecision A} (f : option A) (wanted : A) : bool :=
  match f with None => true | Some x => bool_decide (x = wanted) end.
Definition rule_matches (p : SecretPlane) (c : SecretClassification) (a : SecretAction) (r : PolicyRule)
    : bool :=
  field_matches (subject_plane r) p && field_matches (classification r) c && field_matches (action r) a.

Definition evaluate_access (p : SecretPlane) (c : SecretClassification) (a : SecretAction)
    (extra_rules : list PolicyRule) : PolicyEvaluation :=
  let matched := filter (fun r => rule_matches p c a r = true) (default_policy_rules ++ extra_rules)%list in
  let text verb := plane_value p ++ verb ++ classification_value c ++ " for action " ++ action_value a in
  if existsb (fun r => bool_decide (effect r = DENY)) matched
  then {| allowed := false; ev_reason := text " is denied access to "; matched_rules := matched |}
  else if existsb (fun r => bool_decide (effect r = ALLOW)) matched
  then {| allowed := true; ev_reason := text " is allowed access to "; matched_rules := matched |}
  else {| allowed := false;
          ev_reason := "default deny: no matching allow rule for " ++ plane_value p ++ " accessing "
                         ++ classification_value c ++ " with action " ++ action_value a;
          matched_rules := matched |}.

(** ** crypto.py *)

Inductive secrets_exc :=
| CryptoError (message : string)
| SecretStoreError (message : string)
| AuditError (message : string)
| ValidationError
| ValueError (message : string).

Definition STORE_VERSION : Z := 1.
Definition ASSOCIATED_DATA : string := "apexquant.ultra.secrets.v1".

Definition DEFAULT_SCRYPT_N : Z := 16384.
Definition DEFAULT_SCRYPT_R : Z := 8.
Definition DEFAULT_SCRYPT_P : Z := 1.

Definition str_take (n : nat) (s : string) : string := String.substring 0 n s.
Fixpoint str_drop (n : nat) (s : string) : string :=
  match n, s with S n, String _ s' => str_drop n s' | _, _ => s end.

Definition generate_master_key_b64 (bytes32 : string) : string := b64encode bytes32.

(** [master_secret_from_env] on the two variables; an empty one counts as
    absent. *)
Definition master_secret_from_env (key_b64 passphrase : option string) : result secrets_exc string :=
  match default "" key_b64, default "" passphrase with
  | String c s, _ =>
      match b64decode true (String c s) with
      | Err _ => Err (CryptoError "APEX_MASTER_KEY is not valid base64")
      | Ok key =>
          if negb (String.length key =? 32)%nat
          then Err (CryptoError "APEX_MASTER_KEY must decode to exactly 32 bytes") else Ok key
      end
  | "", String c s =>
      if str_empty (strip (String c s))
      then Err (CryptoError "APEX_MASTER_PASSPHRASE must not be empty") else Ok (String c s)
  | "", "" => Err (CryptoError "either APEX_MASTER_KEY or APEX_MASTER_PASSPHRASE must be provided")
  end.

(** ** store.py *)

Definition name_head (c : ascii) : bool := is_lower c || is_digit c.
Definition name_char (c : ascii) : bool :=
  name_head c || (c =? ".")%char || (c =? "_")%char || (c =? "/")%char || (c =? "-")%char.
(** [SECRET_NAME_PATTERN.match(name)] *)
Definition name_body (s : string) : option unit :=
  match s with
  | String c s' =>
      if name_head c && str_forall name_char s' && (String.length s' <=? 254)%nat then Some tt else None
  | "" => None
  end.
Definition validate_secret_name (name : string) : result secrets_exc unit :=
  match re_dollar name_body name with
  | Some _ => Ok tt
  | None => Err (SecretStoreError "secret name must match ^[a-z0-9][a-z0-9._/-]{0,254}$")
  end.

(** [for version in entry.versions: if ACTIVE: REVOKED] *)
Definition revoke_active (v : SecretVersion) : SecretVersion :=
  {| version := version v; value := value v; status := REVOKED; created_at := created_at v |}.

(** A new active version at the end of an entry. *)
Definition add_version (now : Z) (v : string) (e : SecretEntry) : SecretEntry :=
  let next_version := (current_version e + 1)%Z in
  {| e_classification := e_classification e; description := description e;
     current_version := next_version;
     versions := (map (fun x => if bool_decide (status x = ACTIVE) then revoke_active x else x) (versions e)
       ++ [{| version := next_version; value := v; status := ACTIVE; created_at := now |}])%list |}.

Definition set_secret (now : Z) (name v : string) (c : SecretClassification) (desc : string) (p : Payload)
    : result secrets_exc (Payload * (bool * Z)) :=
  validate_secret_name name ≫= fun _ =>
  if str_empty v then Err (SecretStoreError "secret value must not be empty")
  else
    let entry := default {| e_classification := c; description := desc; current_version := 0; versions := [] |}
                   (dict_get name p) in
    let e := add_version now v entry in
    let e := {| e_classification := c; description := if str_empty desc then description e else desc;
                current_version := current_version e; versions := versions e |} in
    Ok (dict_set name e p, (bool_decide (dict_get name p = None), current_version e)).

Definition no_secret (name : string) : secrets_exc := SecretStoreError ("secret does not exist: " ++ name).

Definition rotate_secret (now : Z) (name v : string) (p : Payload) : result secrets_exc (Payload * Z) :=
  validate_secret_name name ≫= fun _ =>
  match dict_get name p with
  | None => Err (no_secret name)
  | Some entry =>
      if str_empty v then Err (SecretStoreError "secret value must not be empty")
      else let e := add_version now v entry in Ok (dict_set name e p, current_version e)
  end.

Definition get_secret (name : string) (p : Payload) : result secrets_exc string :=
  validate_secret_name name ≫= fun _ =>
  match dict_get name p with
  | None => Err (no_secret name)
  | Some e =>
      match head (filter (fun v => version v = current_version e /\ status v = ACTIVE) (versions e)) with
      | Some v => Ok (value v)
      | None => Err (SecretStoreError ("secret has no active version: " ++ name))
      end
  end.

Definition metadata_of (name : string) (e : SecretEntry) : SecretMetadata :=
  {| md_name := name; md_classification := e_classification e; md_description := description e;
     md_version := current_version e |}.

Definition get_metadata (name : string) (p : Payload) : result secrets_exc SecretMetadata :=
  validate_secret_name name ≫= fun _ =>
  match dict_get name p with
  | None => Err (no_secret name)
  | Some e => Ok (metadata_of name e)
  end.

Definition list_metadata (p : Payload) : list SecretMetadata :=
  map (fun kv => metadata_of kv.1 kv.2) (py_sorted (fun a b => str_lt a.1 b.1) p).

(** Python's [int(s)]: surrounding space, a sign, digits with single
    underscores between them. *)
Fixpoint int_digits (acc : Z) (after_digit : bool) (s : string) : option Z :=
  match s with
  | "" => if after_digit then Some acc else None
  | String c s' =>
      if is_digit c then int_digits (10 * acc + Z.of_N (digit_value c)) true s'
      else if (c =? "_")%char && after_digit then int_digits acc false s' else None
  end.
Definition int_of_str (s : string) : option Z :=
  match strip s with
  | String c s' =>
      if (c =? "-")%char then Z.opp <$> int_digits 0 false s'
      else if (c =? "+")%char then int_digits 0 false s' else int_digits 0 false (String c s')
  | "" => None
  end.
(** [int(x)] of a value [json.loads] gives. *)
Definition py_int (j : json) : option Z :=
  match j with
  | JNum n => Some n
  | JBool b => Some (if b then 1 else 0)%Z
  | JStr s => int_of_str s
  | _ => None
  end.
(** [d[key]] *)
Definition subscript (key : string) (j : json) : option json :=
  match j with JDict d => dict_get key d | _ => None end.
(** The result of a call that may raise, where any exception is caught. *)
Definition caught {E A} (r : result E A) : option A := match r with Ok a => Some a | Err _ => None end.

(** What [decrypt_bytes] reads of a store document. *)
Record Document := {
  doc_version : Z; doc_kdf_name : string; doc_n : Z; doc_r : Z; doc_p : Z; doc_salt : string;
  doc_payload : string }.

(** What the package takes from cryptography, hashlib, pydantic and [repr].

    [repr] is [str] of a list, a dict or [None]; [scrypt] is
    [Scrypt(salt, 32, n, r, p).derive(master)], [None] when Scrypt refuses its
    parameters; [aes_encrypt key nonce text data] and [aes_decrypt] are those
    of AESGCM, [None] on InvalidTag; [dump_payload] and [load_payload] are
    [model_dump_json] and [model_validate_json] of SecretStorePayload. *)
Class Primitives := {
  repr : json -> string;
  scrypt : string -> string -> Z -> Z -> Z -> option string;
  aes_encrypt : string -> string -> string -> string -> string;
  aes_decrypt : string -> string -> string -> string -> option string;
  sha256_digest : string -> string;
  dump_payload : Payload -> string;
  load_payload : string -> option Payload
}.

Section Secrets.
Context {primitives : Primitives}.

Definition py_str (j : json) : string :=
  match j with
  | JStr s => s
  | JNum n => pretty n
  | JBool b => if b then "True" else "False"
  | _ => repr j
  end.

Definition derive_key (master salt : string) (n r p : Z) : result secrets_exc string :=
  match scrypt salt master n r p with Some key => Ok key | None => Err (ValueError "scrypt") end.

Definition key_id_from_key (key : string) : string := b64encode (sha256_digest key).

(** [encrypt_bytes(plaintext, master)] on the random [salt] and [nonce]. *)
Definition encrypt_bytes (salt nonce plaintext master : string) : result secrets_exc json :=
  key ← derive_key master salt DEFAULT_SCRYPT_N DEFAULT_SCRYPT_R DEFAULT_SCRYPT_P;
  let ciphertext := aes_encrypt key nonce plaintext ASSOCIATED_DATA in
  Ok (JDict [("version", JNum STORE_VERSION);
             ("kdf", JDict [("name", JStr "scrypt"); ("n", JNum DEFAULT_SCRYPT_N);
                            ("r", JNum DEFAULT_SCRYPT_R); ("p", JNum DEFAULT_SCRYPT_P);
                            ("salt", JStr (b64encode salt))]);
             ("key_id", JStr (key_id_from_key key));
             ("cipher", JDict [("name", JStr "AES-256-GCM")]);
             ("payload", JStr (b64encode (nonce ++ ciphertext)))]).

(** The [try] block of [decrypt_bytes]; [None] is any exception in it. *)
Definition read_document (d : json) : option Document :=
  version ← subscript "version" d ≫= py_int;
  kdf ← subscript "kdf" d;
  kdf_name ← py_str <$> subscript "name" kdf;
  n ← subscript "n" kdf ≫= py_int;
  r ← subscript "r" kdf ≫= py_int;
  p ← subscript "p" kdf ≫= py_int;
  salt ← subscript "salt" kdf ≫= fun x => caught (b64decode true (py_str x));
  payload ← subscript "payload" d ≫= fun x => caught (b64decode true (py_str x));
  Some {| doc_version := version; doc_kdf_name := kdf_name; doc_n := n; doc_r := r; doc_p := p;
          doc_salt := salt; doc_payload := payload |}.

Definition decrypt_bytes (store_document : json) (master : string) : result secrets_exc string :=
  match read_document store_document with
  | None => Err (CryptoError "invalid secret store document")
  | Some d =>
      if negb (doc_version d =? STORE_VERSION)%Z
      then Err (CryptoError ("unsupported secret store version " ++ pretty (doc_version d)))
      else if negb (doc_kdf_name d =? "scrypt")
      then Err (CryptoError ("unsupported KDF " ++ doc_kdf_name d))
      else if (String.length (doc_payload d) <=? 12)%nat then Err (CryptoError "invalid encrypted payload")
      else
        key ← derive_key master (doc_salt d) (doc_n d) (doc_r d) (doc_p d);
        match aes_decrypt key (str_take 12 (doc_payload d)) (str_drop 12 (doc_payload d)) ASSOCIATED_DATA with
        | Some plaintext => Ok plaintext
        | None => Err (CryptoError "decryption failed: invalid master key or corrupted store")
        end
  end.

(** *** The store's file

    The file is absent, holds a text [json.loads] refuses, or holds a JSON
    value. *)
Inductive StoreFile := NoFile | NotJson | JsonFile (d : json).

Definition load (path master : string) (file : StoreFile) : result secrets_exc Payload :=
  match file with
  | NoFile => Err (SecretStoreError ("secret store does not exist: " ++ path))
  | NotJson => Err (SecretStoreError "secret store is not valid JSON")
  | JsonFile d =>
      plaintext ← decrypt_bytes d master;
      match load_payload plaintext with Some p => Ok p | None => Err ValidationError end
  end.

Definition save (salt nonce master : string) (p : Payload) : result secrets_exc StoreFile :=
  d ← encrypt_bytes salt nonce (dump_payload p) master; Ok (JsonFile d).

(** [create]; an existing file is loaded and left as it is. *)
Definition create (path salt nonce master : string) (file : StoreFile) : result secrets_exc StoreFile :=
  match file with
  | NoFile => save salt nonce master []
  | _ => _ ← load path master file; Ok file
  end.
End Secrets.
