(* ===== verification/SecretsCli.v ===== *)
(** The audit log, the tables and the commands of apexquant-secrets: [audit.py],
    [persistence.py] and [cli.py].

    argparse has parsed the command line; [Args] holds what it gives, [Env] what
    the process reads: environment, standard input, the value file, the clock,
    random bytes, and whether the database answers and the audit file can be
    written.  The database keeps 0001_secrets_key_management.sql. *)
From stdpp Require Import base strings list gmap pretty numbers.
From Stdlib Require Import Ascii.
From S2P Require Import Prelude PyStr Json Base64 Secrets.

(** ** The tables *)

Record MetadataRow := {
  secret_id : Z; row_name : string; row_classification : SecretClassification;
  row_description : string; row_version : Z }.
Record VersionRow := { v_secret_id : Z; v_version : Z; v_status : SecretVersionStatus }.
(** [subject_plane] is a text; the other columns are enums of the database. *)
Record PolicyRow := {
  p_plane : option string; p_classification : option string; p_action : option string;
  p_effect : string; priority : Z; p_created_at : Z }.

Record SecretsDB := {
  secret_metadata : list MetadataRow;
  secret_versions : list VersionRow;
  secret_access_policies : list PolicyRow;
  secret_access_audit : list AuditEvent;
  next_id : Z
}.

(** What a command prints. *)
Inductive Output :=
| PrintJson (j : json)
| PrintIndented (j : json)
| PrintLine (s : string)
| Write (s : string).

Record World := {
  store_file : StoreFile;
  audit_file : list AuditEvent;
  db : SecretsDB;
  out : list Output
}.
Definition with_store f w := {| store_file := f; audit_file := audit_file w; db := db w; out := out w |}.
Definition with_audit l w := {| store_file := store_file w; audit_file := l; db := db w; out := out w |}.
Definition with_db d w := {| store_file := store_file w; audit_file := audit_file w; db := d; out := out w |}.
Definition with_out o w := {| store_file := store_file w; audit_file := audit_file w; db := db w; out := o |}.

Record Env := {
  APEX_MASTER_KEY : option string; APEX_MASTER_PASSPHRASE : option string;
  stdin_text : string; read_file : string -> option string;
  database_up : bool; audit_writable : bool;
  audit_time : Z; version_time : Z; uuid4 : string; rnd_salt : string; rnd_nonce : string
}.

(** The options of the commands that take a store. *)
Record Args := {
  store_path : string; audit_path : string; database_url : option string;
  subject_service : string; arg_plane : SecretPlane;
  arg_name : string; arg_classification : SecretClassification; arg_description : string;
  value_stdin : bool; value_file : option string; reveal : bool
}.

Inductive cli_exc :=
| SystemExit (message : string)
| Uncaught (e : secrets_exc)
| DatabaseError (constraint : string).

(** [str(exc)] *)
Definition exc_message (e : secrets_exc) : string :=
  match e with
  | CryptoError m | SecretStoreError m | AuditError m | ValueError m => m
  | ValidationError => ""
  end.

Notation CliM := (st World cli_exc).

Definition print_out (o : Output) : CliM unit := fun w => (Ok tt, with_out (out w ++ [o]) w).

(** ** persistence.py *)

Definition db_metadata l (d : SecretsDB) := {| secret_metadata := l; secret_versions := secret_versions d;
  secret_access_policies := secret_access_policies d; secret_access_audit := secret_access_audit d;
  next_id := next_id d |}.
Definition db_versions l (d : SecretsDB) := {| secret_metadata := secret_metadata d; secret_versions := l;
  secret_access_policies := secret_access_policies d; secret_access_audit := secret_access_audit d;
  next_id := next_id d |}.
Definition db_audit l (d : SecretsDB) := {| secret_metadata := secret_metadata d;
  secret_versions := secret_versions d; secret_access_policies := secret_access_policies d;
  secret_access_audit := l; next_id := next_id d |}.
Definition db_next n (d : SecretsDB) := {| secret_metadata := secret_metadata d;
  secret_versions := secret_versions d; secret_access_policies := secret_access_policies d;
  secret_access_audit := secret_access_audit d; next_id := n |}.

(** One statement of a connection; an error leaves the tables as they were. *)
Definition persist_secret_metadata (name : string) (c : SecretClassification) (desc : string) (version : Z)
    (d : SecretsDB) : result cli_exc SecretsDB :=
  if negb (int4 version) then Err (DatabaseError "integer out of range")
  else if negb (not_blank name) then Err (DatabaseError "secret_metadata_name_not_empty")
  else if (version <? 0)%Z then Err (DatabaseError "secret_metadata_current_version_nonnegative")
  else match tbl_find (fun r => row_name r =? name) (secret_metadata d) with
  | Some _ =>
      Ok (db_metadata (tbl_update (fun r => row_name r =? name)
        (fun r => {| secret_id := secret_id r; row_name := row_name r; row_classification := c;
                     row_description := desc; row_version := version |}) (secret_metadata d)) d)
  | None =>
      Ok (db_next (next_id d + 1) (db_metadata (secret_metadata d ++
        [{| secret_id := next_id d; row_name := name; row_classification := c; row_description := desc;
            row_version := version |}]) d))
  end.

Definition persist_secret_version (name : string) (version : Z) (d : SecretsDB) : result cli_exc SecretsDB :=
  match tbl_find (fun r => row_name r =? name) (secret_metadata d) with
  | None => Err (Uncaught (ValueError ("secret metadata does not exist: " ++ name)))
  | Some r =>
      let same v := (v_secret_id v =? secret_id r)%Z && (v_version v =? version)%Z in
      if negb (int4 version) then Err (DatabaseError "integer out of range")
      else if (version <=? 0)%Z then Err (DatabaseError "secret_versions_version_positive")
      else if existsb same (secret_versions d)
      then Ok (db_versions (tbl_update same
        (fun v => {| v_secret_id := v_secret_id v; v_version := v_version v; v_status := ACTIVE |})
        (secret_versions d)) d)
      else Ok (db_versions (secret_versions d ++
        [{| v_secret_id := secret_id r; v_version := version; v_status := ACTIVE |}]) d)
  end.

Definition persist_audit_event (e : AuditEvent) (d : SecretsDB) : result cli_exc SecretsDB :=
  if negb (not_blank (subject_service_name e))
  then Err (DatabaseError "secret_access_audit_subject_service_not_empty")
  else if negb (not_blank (secret_name e)) then Err (DatabaseError "secret_access_audit_secret_name_not_empty")
  else Ok (db_audit (secret_access_audit d ++ [e]) d).

(** [Enum(raw)] *)
Definition enum_of {A} (value_of : A -> string) (members : list A) (raw : string) : result secrets_exc A :=
  match head (filter (fun x => (value_of x =? raw) = true) members) with
  | Some x => Ok x
  | None => Err (ValueError (raw ++ " is not a valid value"))
  end.
Definition all_planes : list SecretPlane :=
  [CONTROL; MARKET_DATA; TRADING; RISK; AI; DATA_RESEARCH; P_OBSERVABILITY].
Definition all_classifications : list SecretClassification :=
  [INFRASTRUCTURE; DATABASE; BROKER; EXECUTION; API; MODEL; KNOWLEDGE; C_OBSERVABILITY].
Definition all_actions : list SecretAction := [READ; WRITE; ROTATE; ADMIN].
Definition effect_value (e : PolicyEffect) : string := match e with ALLOW => "ALLOW" | DENY => "DENY" end.

(** [if raw and raw != "*": Enum(raw)] *)
Definition optional_enum {A} (value_of : A -> string) (members : list A) (raw : option string)
    : result secrets_exc (option A) :=
  match raw with
  | None => Ok None
  | Some s => if str_empty s || (s =? "*") then Ok None else x ← enum_of value_of members s; Ok (Some x)
  end.

Definition policy_rule_of (r : PolicyRow) : result secrets_exc PolicyRule :=
  p ← optional_enum plane_value all_planes (p_plane r);
  c ← optional_enum classification_value all_classifications (p_classification r);
  a ← optional_enum action_value all_actions (p_action r);
  e ← enum_of effect_value [ALLOW; DENY] (p_effect r);
  Ok {| subject_plane := p; classification := c; action := a; effect := e |}.

(** [ORDER BY priority DESC, created_at ASC] *)
Definition policy_before (x y : PolicyRow) : bool :=
  (priority y <? priority x)%Z
  || ((priority x =? priority y)%Z && (p_created_at x <? p_created_at y)%Z).

Definition load_policy_rules (d : SecretsDB) : result secrets_exc (list PolicyRule) :=
  map_result policy_rule_of (py_sorted policy_before (secret_access_policies d)).

(** ** audit.py *)

Definition audit_error (m : string) : cli_exc := Uncaught (AuditError m).

(** [persist_audit_event] and [commit] on a connection of its own. *)
Definition log_to_database (env : Env) (e : AuditEvent) : CliM unit := fun w =>
  match (if database_up env then persist_audit_event e (db w) else Err (DatabaseError "connection")) with
  | Ok d => (Ok tt, with_db d w)
  | Err _ => (Err (audit_error "failed writing secret audit event to database"), w)
  end.

Definition log_to_file (env : Env) (e : AuditEvent) : CliM unit := fun w =>
  if audit_writable env then (Ok tt, with_audit (audit_file w ++ [e]) w)
  else (Err (audit_error "failed writing secret audit event to file"), w).

(** [AuditLogger.log]; an empty path or URL counts as none. *)
Definition log (env : Env) (args : Args) (e : AuditEvent) : CliM unit :=
  let to_db := negb (str_empty (default "" (database_url args))) in
  let to_file := negb (str_empty (audit_path args)) in
  (if to_db then log_to_database env e else mret tt) ≫= fun _ =>
  (if to_file then log_to_file env e else mret tt) ≫= fun _ =>
  if to_db || to_file then mret tt
  else raise (audit_error "secret access cannot proceed because no audit sink is configured").

(** ** cli.py *)

Definition read_value (env : Env) (args : Args) : result secrets_exc string :=
  if value_stdin args then
    let value := strip (stdin_text env) in
    if str_empty value then Err (ValueError "secret value from stdin must not be empty") else Ok value
  else
    match default "" (value_file args) with
    | "" => Err (ValueError "either --value-stdin or --value-file is required")
    | path =>
        match read_file env path with
        | None => Err (ValueError ("value file does not exist: " ++ path))
        | Some text =>
            let value := strip text in
            if str_empty value then Err (ValueError ("value file must not be empty: " ++ path)) else Ok value
        end
    end.

Definition build_audit_event (env : Env) (args : Args) (name : string) (a : SecretAction)
    (d : PolicyEffect) (why : string) : AuditEvent :=
  {| occurred_at := audit_time env; request_id := uuid4 env; subject_service_name := subject_service args;
     au_plane := arg_plane args; secret_name := name; au_action := a; decision := d; reason := why |}.

(** [except SecretStoreError as exc: raise SystemExit(prefix + str(exc))] *)
Definition store_error_exits {A} (prefix : string) (r : result secrets_exc A) : CliM A :=
  match r with
  | Ok a => mret a
  | Err (SecretStoreError m) => raise (SystemExit (prefix ++ m))
  | Err e => raise (Uncaught e)
  end.

Definition master_key (env : Env) : CliM string :=
  match master_secret_from_env (APEX_MASTER_KEY env) (APEX_MASTER_PASSPHRASE env) with
  | Ok key => mret key
  | Err e => raise (SystemExit ("master key error: " ++ exc_message e))
  end.

Definition audit_or_exit (env : Env) (args : Args) (e : AuditEvent) : CliM unit := fun w =>
  match log env args e w with
  | (Err (Uncaught x), w') => (Err (SystemExit ("secret audit failure: " ++ exc_message x)), w')
  | r => r
  end.

Definition evaluated (env : Env) (args : Args) (name : string) (a : SecretAction) (v : PolicyEvaluation)
    : AuditEvent :=
  build_audit_event env args name a (if allowed v then ALLOW else DENY) (ev_reason v).

Definition denied_json (v : PolicyEvaluation) : json :=
  JDict [("allowed", JBool false); ("reason", JStr (ev_reason v))].

Definition metadata_json (m : SecretMetadata) : json :=
  JDict [("name", JStr (md_name m)); ("classification", JStr (classification_value (md_classification m)));
         ("description", JStr (md_description m)); ("current_version", JNum (md_version m))].

Section Commands.
Context {primitives : Primitives} (env : Env) (args : Args).

Definition load_store : CliM (string * Payload) :=
  master ← master_key env;
  w ← get_state;
  match load (store_path args) master (store_file w) with
  | Ok p => mret (master, p)
  | Err (SecretStoreError m) => raise (SystemExit ("secret store error: " ++ m))
  | Err (CryptoError m) => raise (SystemExit ("secret store decryption error: " ++ m))
  | Err e => raise (Uncaught e)
  end.

(** [save] of a store: the file is replaced at once. *)
Definition save_store (master : string) (p : Payload) : CliM unit := fun w =>
  match save (rnd_salt env) (rnd_nonce env) master p with
  | Ok f => (Ok tt, with_store f w)
  | Err e => (Err (Uncaught e), w)
  end.

(** [with psycopg.connect(...)]: each of the two functions commits; an error of
    the second keeps the first. *)
Definition persist_version (c : SecretClassification) (desc : string) (version : Z) : CliM unit :=
  if str_empty (default "" (database_url args)) then mret tt
  else if negb (database_up env) then raise (DatabaseError "connection")
  else
    let run (f : SecretsDB -> result cli_exc SecretsDB) : CliM unit :=
      w ← get_state; d ← lift (f (db w)); put_state (with_db d w) in
    run (persist_secret_metadata (arg_name args) c desc version) ≫= fun _ =>
    run (persist_secret_version (arg_name args) version).

(** Deny with exit code 1, or go on. *)
Definition when_allowed (v : PolicyEvaluation) (k : CliM Z) : CliM Z :=
  if allowed v then k else print_out (PrintJson (denied_json v)) ≫= fun _ => mret 1%Z.

Definition cmd_init_store : CliM Z :=
  master ← master_key env;
  w ← get_state;
  f ← store_error_exits "secret store error: "
        (create (store_path args) (rnd_salt env) (rnd_nonce env) master (store_file w));
  put_state (with_store f w) ≫= fun _ =>
  audit_or_exit env args (build_audit_event env args "<store>" ADMIN ALLOW "secret store initialized") ≫= fun _ =>
  print_out (PrintJson (JDict [("initialized", JBool true); ("store_path", JStr (store_path args))])) ≫= fun _ =>
  mret 0%Z.

(** [except ValueError as exc: raise SystemExit(str(exc))] *)
Definition value_or_exit : CliM string :=
  match read_value env args with Ok v => mret v | Err e => raise (SystemExit (exc_message e)) end.

Definition cmd_set_secret : CliM Z :=
  '(master, p) ← load_store;
  value ← value_or_exit;
  let action := if dict_has (arg_name args) p then ROTATE else WRITE in
  let evaluation := evaluate_access (arg_plane args) (arg_classification args) action [] in
  audit_or_exit env args (evaluated env args (arg_name args) action evaluation) ≫= fun _ =>
  when_allowed evaluation
    ('(p', (created_new, version)) ← store_error_exits "secret store error: "
        (set_secret (version_time env) (arg_name args) value (arg_classification args) (arg_description args) p);
     save_store master p' ≫= fun _ =>
     persist_version (arg_classification args) (arg_description args) version ≫= fun _ =>
     print_out (PrintJson (JDict [("created", JBool created_new); ("name", JStr (arg_name args));
        ("classification", JStr (classification_value (arg_classification args)));
        ("version", JNum version)])) ≫= fun _ =>
     mret 0%Z).

Definition cmd_rotate_secret : CliM Z :=
  '(master, p) ← load_store;
  value ← value_or_exit;
  metadata ← store_error_exits "" (get_metadata (arg_name args) p);
  let evaluation := evaluate_access (arg_plane args) (md_classification metadata) ROTATE [] in
  audit_or_exit env args (evaluated env args (arg_name args) ROTATE evaluation) ≫= fun _ =>
  when_allowed evaluation
    ('(p', version) ← store_error_exits "secret store error: "
        (rotate_secret (version_time env) (arg_name args) value p);
     save_store master p' ≫= fun _ =>
     persist_version (md_classification metadata) (md_description metadata) version ≫= fun _ =>
     print_out (PrintJson (JDict [("name", JStr (arg_name args));
        ("classification", JStr (classification_value (md_classification metadata)));
        ("version", JNum version)])) ≫= fun _ =>
     mret 0%Z).

Definition cmd_get_secret : CliM Z :=
  '(_, p) ← load_store;
  metadata ← store_error_exits "" (get_metadata (arg_name args) p);
  let evaluation := evaluate_access (arg_plane args) (md_classification metadata) READ [] in
  audit_or_exit env args (evaluated env args (arg_name args) READ evaluation) ≫= fun _ =>
  when_allowed evaluation
    (if negb (reveal args) then print_out (PrintJson (metadata_json metadata)) ≫= fun _ => mret 0%Z
     else
       value ← store_error_exits "" (get_secret (arg_name args) p);
       print_out (Write value) ≫= fun _ => mret 0%Z).

Definition cmd_list_secrets : CliM Z :=
  '(_, p) ← load_store;
  let evaluation := evaluate_access (arg_plane args) INFRASTRUCTURE READ [] in
  audit_or_exit env args (evaluated env args "<metadata>" READ evaluation) ≫= fun _ =>
  when_allowed evaluation
    (print_out (PrintIndented (JList (map metadata_json (list_metadata p)))) ≫= fun _ => mret 0%Z).

Definition cmd_evaluate_access (a : SecretAction) : CliM Z :=
  let evaluation := evaluate_access (arg_plane args) (arg_classification args) a [] in
  print_out (PrintJson (JDict [("allowed", JBool (allowed evaluation)); ("reason", JStr (ev_reason evaluation))])) ≫= fun _ =>
  mret (if allowed evaluation then 0 else 1)%Z.

Definition cmd_generate_master_key : CliM Z :=
  print_out (PrintLine (generate_master_key_b64 (rnd_salt env))) ≫= fun _ => mret 0%Z.

Inductive Command :=
  GenerateMasterKey | InitStore | SetSecret | RotateSecret | GetSecret | ListSecrets | EvaluateAccess (a : SecretAction).
Definition args_func (c : Command) : CliM Z :=
  match c with
  | GenerateMasterKey => cmd_generate_master_key
  | InitStore => cmd_init_store
  | SetSecret => cmd_set_secret
  | RotateSecret => cmd_rotate_secret
  | GetSecret => cmd_get_secret
  | ListSecrets => cmd_list_secrets
  | EvaluateAccess a => cmd_evaluate_access a
  end.

(** [main] after parsing: a SystemExit prints its message and exits with 1. *)
Definition main (c : Command) : CliM Z := fun w =>
  match args_func c w with
  | (Err (SystemExit m), w') => (print_out (PrintLine m) ≫= fun _ => mret 1%Z) w'
  | r => r
  end.
End Commands.
