(* ===== verification/SecretsProps.v ===== *)
(** Properties of the secret store: what a policy decision means, the versions
    of a secret, what comes back from the encrypted file, and what the commands
    reveal. *)
From stdpp Require Import base strings list gmap pretty numbers countable.
From Stdlib Require Import Ascii.
From S2P Require Import Prelude PyStr Json Base64 Secrets SecretsCli.

(** ** Decisions *)

(** A rule of the list in force that covers the request with this effect. *)
Definition some_rule (eff : PolicyEffect) p c a (rules : list PolicyRule) : Prop :=
  exists r, r ∈ rules /\ rule_matches p c a r = true /\ effect r = eff.

Lemma existsb_effect eff p c a rules :
  existsb (fun r => bool_decide (effect r = eff)) (filter (fun r => rule_matches p c a r = true) rules) = true
  <-> some_rule eff p c a rules.
Proof.
  rewrite existsb_exists. unfold some_rule. split.
  - intros (r & Hr%list_elem_of_In & He%bool_decide_eq_true).
    apply list_elem_of_filter in Hr as [? ?]. eauto.
  - intros (r & Hr & Hm & He). exists r. split; [|by apply bool_decide_eq_true].
    apply list_elem_of_In, list_elem_of_filter. done.
Qed.

Lemma some_rule_dec eff p c a rules : {some_rule eff p c a rules} + {~ some_rule eff p c a rules}.
Proof.
  destruct (existsb (fun r => bool_decide (effect r = eff))
              (filter (fun r => rule_matches p c a r = true) rules)) eqn:E.
  - left. by apply existsb_effect.
  - right. rewrite <- existsb_effect, E. done.
Qed.

Lemma some_rule_app eff p c a l k :
  some_rule eff p c a l -> some_rule eff p c a (l ++ k).
Proof. intros (r & ? & ?). exists r. split; [|done]. apply elem_of_app. by left. Qed.

(** [existsb] decides [some_rule]. *)
Lemma evaluate_allowed p c a extra :
  allowed (evaluate_access p c a extra) = true <->
  some_rule ALLOW p c a (default_policy_rules ++ extra) /\ ~ some_rule DENY p c a (default_policy_rules ++ extra).
Proof.
  unfold evaluate_access. rewrite <- !existsb_effect.
  destruct (existsb (fun r => bool_decide (effect r = DENY)) _), (existsb (fun r => bool_decide (effect r = ALLOW)) _);
    simpl; intuition congruence.
Qed.

(** The two planes and the classes the default rules deny them. *)
Lemma default_denies p c a : p = AI \/ p = DATA_RESEARCH -> c ∈ AI_FORBIDDEN_CLASSIFICATIONS ->
  some_rule DENY p c a default_policy_rules.
Proof.
  intros Hp Hc. apply existsb_effect.
  unfold AI_FORBIDDEN_CLASSIFICATIONS in Hc. rewrite !elem_of_cons, elem_of_nil in Hc.
  destruct Hp as [-> | ->], Hc as [-> |[-> |[-> |[-> |[]]]]], a; reflexivity.
Qed.

(** Access is granted exactly when some rule in force allows the request
    and none denies it, whatever the order of the rules; so no rule added to
    the defaults opens broker, execution, database or infrastructure secrets to
    the AI and research planes, and only a denial closes a secret to the
    control plane. *)
Theorem policy_deny_wins p c a extra :
  (allowed (evaluate_access p c a extra) = true <->
     some_rule ALLOW p c a (default_policy_rules ++ extra) /\
     ~ some_rule DENY p c a (default_policy_rules ++ extra)) /\
  (p = AI \/ p = DATA_RESEARCH -> c ∈ AI_FORBIDDEN_CLASSIFICATIONS ->
     allowed (evaluate_access p c a extra) = false) /\
  (p = CONTROL -> ~ some_rule DENY p c a extra -> allowed (evaluate_access p c a extra) = true) /\
  (forall extra', extra ≡ₚ extra' ->
     allowed (evaluate_access p c a extra) = allowed (evaluate_access p c a extra')).
Proof.
  split_and!; [apply evaluate_allowed| | |].
  - intros Hp Hc. apply not_true_iff_false. rewrite evaluate_allowed. intros [_ []].
    by apply some_rule_app, default_denies.
  - intros -> Hno. apply evaluate_allowed. split.
    + apply some_rule_app, existsb_effect. by destruct c, a.
    + intros (r & [Hr|Hr]%elem_of_app & Hm & He); [|apply Hno; by exists r].
      assert (some_rule DENY CONTROL c a default_policy_rules) as Hd by (by exists r).
      apply existsb_effect in Hd. by destruct c, a.
  - intros extra' Hperm. apply eq_true_iff_eq. rewrite !evaluate_allowed. unfold some_rule.
    by setoid_rewrite Hperm.
Qed.

Lemma policy_deny_wins_witness :
  allowed (evaluate_access AI BROKER READ [rule AI (Some BROKER) None ALLOW]) = false /\
  allowed (evaluate_access CONTROL BROKER READ []) = true.
Proof.
  split.
  - apply (policy_deny_wins AI BROKER READ [rule AI (Some BROKER) None ALLOW]).
    + by left.
    + by left.
  - apply (policy_deny_wins CONTROL BROKER READ []); [done|].
    intros (r & Hr & _). by apply elem_of_nil in Hr.
Defined.

(** The API class is on the list of what the research plane must not see, but no
    rule denies it. *)
Lemma research_reaches_api :
  API ∈ RESEARCH_FORBIDDEN_CLASSIFICATIONS /\
  allowed (evaluate_access DATA_RESEARCH API READ [rule DATA_RESEARCH (Some API) (Some READ) ALLOW]) = true.
Proof. split; [by do 4 right; left|reflexivity]. Qed.

(** ** The versions of a secret *)

(** Versions are numbered from 1 and only the last is active, at the current
    number. *)
Definition entry_ok (e : SecretEntry) : Prop :=
  exists old last, versions e = (old ++ [last])%list /\ Forall (fun v => status v = REVOKED) old /\
    status last = ACTIVE /\ version last = current_version e /\
    version <$> versions e = Z.of_nat <$> seq 1 (length (versions e)) /\
    current_version e = Z.of_nat (length (versions e)).
Definition payload_ok (p : Payload) : Prop :=
  dict_wf p /\ forall name e, (name, e) ∈ p -> validate_secret_name name = Ok tt /\ entry_ok e.

(** What [add_version] needs: the numbering. *)
Definition numbered (e : SecretEntry) : Prop :=
  version <$> versions e = Z.of_nat <$> seq 1 (length (versions e)) /\
  current_version e = Z.of_nat (length (versions e)).

Definition retire (v : SecretVersion) : SecretVersion :=
  if bool_decide (status v = ACTIVE) then revoke_active v else v.

Lemma retire_facts v : status (retire v) = REVOKED /\ version (retire v) = version v /\ value (retire v) = value v.
Proof. unfold retire. case_bool_decide; simpl; split_and!; try done. by destruct (status v). Qed.

Lemma add_version_ok now v e : numbered e -> entry_ok (add_version now v e).
Proof.
  intros [Hn Hc]. unfold entry_ok, add_version. cbn [versions current_version].
  eexists _, _. split_and!; [reflexivity| |done|done| |].
  - apply list.Forall_forall. intros x Hx. apply list_elem_of_fmap in Hx as (y & -> & _). apply retire_facts.
  - change (map ?f ?l) with (f <$> l). rewrite fmap_app, length_app, length_fmap. cbn [length].
    rewrite Nat.add_1_r, seq_S, fmap_app, <- Hn. f_equal; [|cbn; f_equal; lia].
    rewrite <- list_fmap_compose. apply list_fmap_ext. intros i x _. apply retire_facts.
  - rewrite length_app, length_map. cbn. lia.
Qed.

Lemma entry_ok_numbered e : entry_ok e -> numbered e.
Proof. by intros (old & last & _ & _ & _ & _ & ? & ?). Qed.

Lemma payload_ok_entry p name e : payload_ok p -> dict_get name p = Some e -> entry_ok e.
Proof. intros [_ Hp] He. by eapply Hp, dict_get_Some_elem. Qed.

Lemma payload_ok_set p name e :
  payload_ok p -> validate_secret_name name = Ok tt -> entry_ok e -> payload_ok (dict_set name e p).
Proof.
  intros [Hwf Hp] Hn He. split; [by apply dict_wf_set|].
  intros name' e' [[= -> ->]|Hin]%dict_set_elem; [done|by apply Hp].
Qed.

(** The active version is the one [get_secret] finds. *)
Lemma get_secret_last p name e v :
  validate_secret_name name = Ok tt -> dict_get name p = Some e -> entry_ok e ->
  list.last (versions e) = Some v -> get_secret name p = Ok (value v).
Proof.
  intros Hn Hg (old & l & Hv & Hold & Hl & Hc & _) Hlast.
  unfold get_secret. rewrite Hn. cbn. rewrite Hg.
  rewrite Hv, list.last_snoc in Hlast. injection Hlast as ->.
  rewrite Hv, list.filter_app, (filter_none _ old); cycle 1.
  { eapply list.Forall_impl; [exact Hold|]. intros x Hx [_ Hx']. congruence. }
  by rewrite filter_cons_True.
Qed.

Lemma get_metadata_Ok name p m :
  get_metadata name p = Ok m -> exists e, dict_get name p = Some e /\ m = metadata_of name e.
Proof.
  unfold get_metadata. destruct (validate_secret_name name); [|done]. cbn.
  destruct (dict_get name p) as [e|]; [|done]. intros [= <-]. eauto.
Qed.

Lemma get_secret_other p name name' e :
  name <> name' -> get_secret name' (dict_set name e p) = get_secret name' p.
Proof. intros Hne. unfold get_secret. by rewrite dict_get_set_ne. Qed.

(** The value and the number of every version; only the status may change. *)
Definition history (p : Payload) (name : string) : list (Z * string) :=
  match dict_get name p with Some e => map (fun v => (version v, value v)) (versions e) | None => [] end.

Lemma history_add now v e :
  map (fun v => (version v, value v)) (versions (add_version now v e)) =
  (map (fun v => (version v, value v)) (versions e) ++ [((current_version e + 1)%Z, v)])%list.
Proof.
  unfold add_version. cbn. rewrite map_app, map_map. f_equal. apply map_ext.
  intros x. by destruct (retire_facts x) as (_ & <- & <-).
Qed.

(** A successful write: version [n] of [name] holds [v], nothing else changed. *)
Definition writes (name v : string) (n : Z) (p p' : Payload) : Prop :=
  payload_ok p' /\ get_secret name p' = Ok v /\
  n = Z.of_nat (S (length (history p name))) /\
  history p' name = (history p name ++ [(n, v)])%list /\
  forall name', name' <> name -> dict_get name' p' = dict_get name' p.

Lemma writes_intro p name v e e' n now :
  current_version e' = n ->
  payload_ok p -> validate_secret_name name = Ok tt -> numbered e ->
  map (fun v => (version v, value v)) (versions e) = history p name ->
  e' = add_version now v e \/
  (versions e' = versions (add_version now v e) /\ current_version e' = current_version (add_version now v e)) ->
  writes name v n p (dict_set name e' p).
Proof.
  intros <- Hp Hn He Hh Heq.
  assert (Heq' : versions e' = versions (add_version now v e) /\
                 current_version e' = current_version (add_version now v e)) by (destruct Heq as [->|]; done).
  destruct Heq' as [Hv Hc]. assert (Hok : entry_ok e').
  { destruct (add_version_ok now v e He) as (old & l & H). exists old, l. by rewrite Hv, Hc. }
  assert (Hlen : length (history p name) = length (versions e)) by (by rewrite <- Hh, length_map).
  unfold writes. split_and!.
  - by apply payload_ok_set.
  - erewrite get_secret_last; [|done|apply dict_get_set_eq|done|].
    2: { rewrite Hv. unfold add_version. cbn [versions]. apply list.last_snoc. }
    done.
  - rewrite Hc, Hlen. destruct He as [_ He]. unfold add_version. cbn. lia.
  - unfold history at 1. rewrite dict_get_set_eq, Hv, history_add, Hh, Hc. done.
  - intros name' Hne. by apply dict_get_set_ne.
Qed.

Lemma validate_unit name u : validate_secret_name name = Ok u -> validate_secret_name name = Ok tt.
Proof. by destruct u. Qed.

Lemma set_secret_writes now name v c desc p p' new n :
  payload_ok p -> set_secret now name v c desc p = Ok (p', (new, n)) ->
  writes name v n p p' /\ new = bool_decide (dict_get name p = None) /\
  (exists e, dict_get name p' = Some e /\ e_classification e = c).
Proof.
  intros Hp. unfold set_secret. destruct (validate_secret_name name) as [u|] eqn:Hn; [|done].
  cbn -[default add_version]. destruct (str_empty v); [done|].
  set (e0 := default _ (dict_get name p)). intros [= <- <- <-]. split_and!; [|done|].
  - eapply (writes_intro p name v e0 _ _ now);
      [cbn; reflexivity|done|by eapply validate_unit| |by unfold history, e0; destruct (dict_get name p)|by right].
    subst e0. destruct (dict_get name p) as [e|] eqn:He; [|by split]. by eapply entry_ok_numbered, payload_ok_entry.
  - eexists. by rewrite dict_get_set_eq.
Qed.

Lemma rotate_secret_writes now name v p p' n :
  payload_ok p -> rotate_secret now name v p = Ok (p', n) -> writes name v n p p'.
Proof.
  intros Hp. unfold rotate_secret. destruct (validate_secret_name name) as [u|] eqn:Hn; [|done].
  cbn. destruct (dict_get name p) as [e|] eqn:He; [|done]. destruct (str_empty v); [done|].
  intros [= <- <-]. apply (writes_intro p name v e _ _ now); [done|done|by eapply validate_unit| |unfold history; by rewrite He|by left].
  by eapply entry_ok_numbered, payload_ok_entry.
Qed.

(** The writes a store goes through, refused ones included. *)
Inductive StoreOp :=
| Set_ (now : Z) (name v : string) (c : SecretClassification) (desc : string)
| Rotate (now : Z) (name v : string).
Definition store_step (p : Payload) (op : StoreOp) : Payload :=
  match op with
  | Set_ now name v c desc => match set_secret now name v c desc p with Ok (p', _) => p' | Err _ => p end
  | Rotate now name v => match rotate_secret now name v p with Ok (p', _) => p' | Err _ => p end
  end.

Lemma store_step_ok p op : payload_ok p ->
  payload_ok (store_step p op) /\ forall name, history p name `prefix_of` history (store_step p op) name.
Proof.
  intros Hp. assert (Hw : forall name v n p', writes name v n p p' ->
    payload_ok p' /\ forall name', history p name' `prefix_of` history p' name').
  { intros name v n p' (? & _ & _ & Hh & Ho). split; [done|]. intros name'.
    destruct (decide (name' = name)) as [->|Hne].
    - rewrite Hh. by apply prefix_app_r.
    - unfold history. by rewrite Ho. }
  destruct op as [now name v c desc|now name v]; cbn.
  - destruct (set_secret now name v c desc p) as [[p' [new n]]|] eqn:E; [|done].
    by eapply Hw, (set_secret_writes _ _ _ _ _ _ _ _ _ Hp E).
  - destruct (rotate_secret now name v p) as [[p' n]|] eqn:E; [|done].
    by eapply Hw, rotate_secret_writes.
Qed.

Lemma payload_ok_nil : payload_ok [].
Proof. split; [constructor|]. intros ? ? Hin. by apply elem_of_nil in Hin. Qed.

(** C15: whatever writes a new store goes through, refused ones included, every
    secret keeps one active version, the last, at its current number, the
    versions are numbered from 1 without a gap, names satisfy the pattern, and
    no version is ever dropped or changes its value. *)
Theorem versions_never_lost ops op :
  let p := foldl store_step [] ops in
  payload_ok p /\ forall name, history p name `prefix_of` history (foldl store_step p op) name.
Proof.
  assert (Hstep : forall l p, payload_ok p -> payload_ok (foldl store_step p l) /\
    forall name, history p name `prefix_of` history (foldl store_step p l) name).
  { induction l as [|x l IH]; intros p Hp; [done|]. cbn.
    destruct (store_step_ok p x Hp) as [Hp' Hh]. destruct (IH _ Hp') as [Hp'' Hh''].
    split; [done|]. intros name. etrans; [apply Hh|apply Hh'']. }
  cbn. destruct (Hstep ops [] payload_ok_nil) as [Hp _]. split; [done|]. by apply Hstep.
Qed.

(** ** What comes back from the file *)

(** What the store relies on: Scrypt accepts the default parameters, AES-GCM
    decrypts what it encrypted and adds its tag, and pydantic reads back the
    payloads it wrote. *)
Class PrimitivesLaws (P : Primitives) : Prop := {
  scrypt_defaults salt master :
    is_Some (scrypt salt master DEFAULT_SCRYPT_N DEFAULT_SCRYPT_R DEFAULT_SCRYPT_P);
  aes_roundtrip key nonce text data :
    aes_decrypt key nonce (aes_encrypt key nonce text data) data = Some text;
  aes_tag key nonce text data : aes_encrypt key nonce text data <> "";
  payload_roundtrip p : payload_ok p -> load_payload (dump_payload p) = Some p
}.

Lemma str_take_app a b : str_take (String.length a) (a ++ b) = a.
Proof. unfold str_take. induction a as [|c a IH]; simpl; [by destruct b|by rewrite IH]. Qed.

Lemma str_drop_app a b : str_drop (String.length a) (a ++ b) = b.
Proof. induction a as [|c a IH]; simpl; [by destruct b|done]. Qed.

Section StoreFile.
Context {primitives : Primitives} `{!PrimitivesLaws primitives}.

(** Reading a document of the shape [encrypt_bytes] gives it. *)
Lemma read_store_document salt_b64 key_id payload_b64 :
  read_document (JDict [("version", JNum STORE_VERSION);
             ("kdf", JDict [("name", JStr "scrypt"); ("n", JNum DEFAULT_SCRYPT_N);
                            ("r", JNum DEFAULT_SCRYPT_R); ("p", JNum DEFAULT_SCRYPT_P);
                            ("salt", JStr salt_b64)]);
             ("key_id", JStr key_id); ("cipher", JDict [("name", JStr "AES-256-GCM")]);
             ("payload", JStr payload_b64)]) =
  match b64decode true salt_b64, b64decode true payload_b64 with
  | Ok salt, Ok data =>
      Some {| doc_version := STORE_VERSION; doc_kdf_name := "scrypt"; doc_n := DEFAULT_SCRYPT_N;
              doc_r := DEFAULT_SCRYPT_R; doc_p := DEFAULT_SCRYPT_P; doc_salt := salt; doc_payload := data |}
  | _, _ => None
  end.
Proof.
  lazy -[b64decode]. destruct (b64decode true salt_b64) as [salt|]; [|done].
  by destruct (b64decode true payload_b64).
Qed.

(** The right key recovers the text. *)
Lemma decrypt_encrypt salt nonce text master :
  String.length nonce = 12%nat ->
  exists d, encrypt_bytes salt nonce text master = Ok d /\ decrypt_bytes d master = Ok text.
Proof.
  intros Hnonce. unfold encrypt_bytes, derive_key.
  destruct (scrypt_defaults salt master) as [key Hkey]. rewrite Hkey. cbn [mbind result_bind].
  eexists. split; [reflexivity|]. unfold decrypt_bytes.
  rewrite read_store_document, !b64_strict_roundtrip.
  cbn [doc_version doc_kdf_name doc_n doc_r doc_p doc_salt doc_payload].
  rewrite Z.eqb_refl, String.eqb_refl. cbn [negb].
  rewrite length_app_str, Hnonce.
  destruct (aes_encrypt key nonce text ASSOCIATED_DATA) as [|c cs] eqn:E.
  { by apply aes_tag in E. }
  replace (_ <=? 12)%nat with false by (symmetry; apply Nat.leb_gt; simpl; lia).
  unfold derive_key. rewrite Hkey. cbn [mbind result_bind].
  rewrite <- E, <- Hnonce, str_take_app, str_drop_app, aes_roundtrip. done.
Qed.

Lemma load_save path salt nonce master p :
  String.length nonce = 12%nat -> payload_ok p ->
  exists f, save salt nonce master p = Ok f /\ load path master f = Ok p.
Proof.
  intros Hn Hp. unfold save. destruct (decrypt_encrypt salt nonce (dump_payload p) master Hn) as (d & -> & Hd).
  exists (JsonFile d). split; [done|]. unfold load. rewrite Hd. cbn. by rewrite payload_roundtrip.
Qed.

(** C14: a secret that was set or rotated and saved is read back from the
    encrypted file with the same master key: its value is the new one, its
    version the next one, and every other secret is as it was. *)
Theorem stored_secret_reads_back op p p' path salt nonce master name v n :
  payload_ok p -> String.length nonce = 12%nat ->
  (exists now c desc new, op = Set_ now name v c desc /\ set_secret now name v c desc p = Ok (p', (new, n))) \/
  (exists now, op = Rotate now name v /\ rotate_secret now name v p = Ok (p', n)) ->
  exists f, save salt nonce master p' = Ok f /\ load path master f = Ok p' /\
    get_secret name p' = Ok v /\ n = Z.of_nat (S (length (history p name))) /\
    forall name', name' <> name -> get_secret name' p' = get_secret name' p /\
                                   get_metadata name' p' = get_metadata name' p.
Proof.
  intros Hp Hn Hop. assert (Hw : writes name v n p p').
  { destruct Hop as [(now & c & desc & new & _ & H)|(now & _ & H)].
    - by eapply set_secret_writes.
    - by eapply rotate_secret_writes. }
  destruct Hw as (Hp' & Hg & Hlen & _ & Ho).
  destruct (load_save path salt nonce master p' Hn Hp') as (f & Hs & Hl).
  exists f. split_and!; try done. intros name' Hne.
  unfold get_secret, get_metadata. by rewrite Ho.
Qed.
End StoreFile.

(** Concrete primitives: the key is the salt and the master, the cipher puts a
    tag before the text, the payload is written in binary. *)
Fixpoint bits_of (p : positive) : string :=
  match p with xH => "" | xO p => String "0" (bits_of p) | xI p => String "1" (bits_of p) end.
Fixpoint of_bits (s : string) : positive :=
  match s with "" => xH | String c s => if (c =? "0")%char then xO (of_bits s) else xI (of_bits s) end.

Lemma of_bits_of p : of_bits (bits_of p) = p.
Proof. induction p; cbn; congruence. Qed.

Definition class_code (c : SecretClassification) : nat :=
  match c with
  | INFRASTRUCTURE => 0 | DATABASE => 1 | BROKER => 2 | EXECUTION => 3 | API => 4 | MODEL => 5
  | KNOWLEDGE => 6 | C_OBSERVABILITY => 7
  end.
Definition class_of (n : nat) : SecretClassification := default INFRASTRUCTURE (all_classifications !! n).

Definition plain_version (v : SecretVersion) :=
  (version v, value v, bool_decide (status v = ACTIVE), created_at v).
Definition version_of (t : Z * string * bool * Z) : SecretVersion :=
  match t with (n, v, a, t) => {| version := n; value := v; status := if a then ACTIVE else REVOKED; created_at := t |} end.
Definition plain_entry (kv : string * SecretEntry) :=
  (kv.1, class_code (e_classification kv.2), description kv.2, current_version kv.2, map plain_version (versions kv.2)).
Definition entry_of (t : string * nat * string * Z * list (Z * string * bool * Z)) : string * SecretEntry :=
  match t with (k, c, d, n, l) =>
    (k, {| e_classification := class_of c; description := d; current_version := n; versions := map version_of l |})
  end.

Lemma version_of_plain l : map version_of (map plain_version l) = l.
Proof. induction l as [|[n v st t] l IH]; cbn; [done|]. rewrite IH. by destruct st. Qed.

Lemma entry_of_plain p : map entry_of (map plain_entry p) = p.
Proof.
  induction p as [|[k [c d n l]] p IH]; cbn; [done|]. rewrite IH, version_of_plain. by destruct c.
Qed.

#[local] Instance toy_primitives : Primitives := {
  repr _ := "";
  scrypt salt master n r p := Some (salt ++ master);
  aes_encrypt key nonce text data := String "t" text;
  aes_decrypt key nonce text data := match text with String _ s => Some s | "" => None end;
  sha256_digest s := s;
  dump_payload p := bits_of (countable.encode (map plain_entry p));
  load_payload s := map entry_of <$> countable.decode (of_bits s)
}.

#[local] Instance toy_laws : PrimitivesLaws toy_primitives.
Proof.
  split; [by eexists|done|done|]. intros p _. cbn. by rewrite of_bits_of, countable.decode_encode; cbn; rewrite entry_of_plain.
Qed.

Lemma stored_secret_reads_back_witness :
  exists f, save "salt" "twelve bytes" "master"
    (store_step [] (Set_ 7 "broker/key" "hunter2" BROKER "main account")) = Ok f /\
    load "store" "master" f = Ok (store_step [] (Set_ 7 "broker/key" "hunter2" BROKER "main account")).
Proof.
  destruct (stored_secret_reads_back (Set_ 7 "broker/key" "hunter2" BROKER "main account") []
    (store_step [] (Set_ 7 "broker/key" "hunter2" BROKER "main account"))
    "store" "salt" "twelve bytes" "master" "broker/key" "hunter2" 1 payload_ok_nil eq_refl) as (f & Hs & Hl & _).
  - left. exists 7%Z, BROKER, "main account", true. split; reflexivity.
  - by exists f.
Defined.

(** ** What the commands reveal and change *)

(** The event reached every sink that is configured, and there is one. *)
Definition audited (args : Args) (e : AuditEvent) (w w' : World) : Prop :=
  (str_empty (audit_path args) = false \/ str_empty (default "" (database_url args)) = false) /\
  (str_empty (audit_path args) = false -> audit_file w' = (audit_file w ++ [e])%list) /\
  (str_empty (default "" (database_url args)) = false ->
     secret_access_audit (db w') = (secret_access_audit (db w) ++ [e])%list).

(** Neither a secret's value is printed nor the store changed. *)
Definition discreet (w w' : World) : Prop :=
  store_file w' = store_file w /\ exists o, out w' = (out w ++ o)%list /\ forall v, Write v ∉ o.
Definition audit_kept (w w' : World) : Prop :=
  audit_file w' = audit_file w /\ secret_access_audit (db w') = secret_access_audit (db w).

#[local] Instance discreet_preorder : PreOrder discreet.
Proof.
  split.
  - intros w. split; [done|]. exists []. rewrite app_nil_r. split; [done|]. intros v. by intros ?%elem_of_nil.
  - intros w1 w2 w3 [H1 (o1 & E1 & N1)] [H2 (o2 & E2 & N2)]. split; [congruence|].
    exists (o1 ++ o2)%list. rewrite E2, E1, app_assoc. split; [done|].
    intros v [Hv|Hv]%elem_of_app; [by eapply N1|by eapply N2].
Qed.
#[local] Instance audit_kept_preorder : PreOrder audit_kept.
Proof. split; [done|]. unfold audit_kept. intros w1 w2 w3 [] []. split; congruence. Qed.

(** The request a command makes of the policy, on the payload it loads. *)
Definition requested (args : Args) (c : Command) (p : Payload)
    : option (string * SecretAction * SecretClassification) :=
  match c with
  | SetSecret =>
      Some (arg_name args, if dict_has (arg_name args) p then ROTATE else WRITE, arg_classification args)
  | RotateSecret | GetSecret =>
      e ← dict_get (arg_name args) p;
      Some (arg_name args, match c with GetSecret => READ | _ => ROTATE end, e_classification e)
  | ListSecrets => Some ("<metadata>", READ, INFRASTRUCTURE)
  | _ => None
  end.

Section Commands.
Context {primitives : Primitives} (env : Env) (args : Args).

Lemma load_store_reads w r w' : load_store env args w = (r, w') -> w' = w.
Proof.
  unfold load_store, master_key.
  destruct (master_secret_from_env _ _) as [a|]; cbv [mbind st_bind mret st_ret raise get_state];
    [|by intros [= _ <-]].
  destruct (load (store_path args) a (store_file w)) as [p|[]]; by intros [= _ <-].
Qed.

Lemma store_error_exits_reads {A} prefix (x : result secrets_exc A) w r w' :
  store_error_exits prefix x w = (r, w') -> w' = w /\ forall a, r = Ok a -> x = Ok a.
Proof. destruct x as [a|[]]; intros [= <- <-]; naive_solver. Qed.

Lemma value_or_exit_reads w r w' : value_or_exit env args w = (r, w') -> w' = w.
Proof. unfold value_or_exit. destruct (read_value env args); by intros [= _ <-]. Qed.

(** The event is in every sink before the access goes on; a failing sink may
    leave it in the database only, but the access ends there. *)
Lemma audit_or_exit_spec e w r w' :
  audit_or_exit env args e w = (r, w') -> discreet w w' /\ (is_ok r = true -> audited args e w w').
Proof.
  unfold audit_or_exit, log, audited.
  destruct (str_empty (audit_path args)) eqn:Hf, (str_empty (default "" (database_url args))) eqn:Hd;
    cbn -[log_to_database log_to_file]; unfold mbind, st_bind, log_to_database, log_to_file;
    destruct (database_up env), (audit_writable env); cbn;
    try destruct (persist_audit_event e (db w)) as [d|] eqn:Hp; cbn; intros [= <- <-];
    unfold persist_audit_event in *; repeat case_match; simplify_eq; cbn;
    (split; [split; [done|exists []; rewrite app_nil_r; split; [done|by intros v ?%elem_of_nil]]|]);
    intros ?; naive_solver.
Qed.

Lemma print_spec o w r w' : print_out o w = (r, w') -> audit_kept w w' /\ ((forall v, o <> Write v) -> discreet w w').
Proof.
  intros [= <- <-]. split; [done|]. intros Ho. split; [done|]. exists [o]. split; [done|].
  intros v Hv%list_elem_of_singleton. by eapply Ho.
Qed.

(** The step every command takes: ask the policy, log, then go on or refuse. *)
Lemma gated_spec name a v (k : CliM Z) w r w' :
  st_within audit_kept k ->
  (audit_or_exit env args (evaluated env args name a v) ≫= fun _ => when_allowed v k) w = (r, w') ->
  discreet w w' \/ (allowed v = true /\ audited args (evaluated env args name a v) w w').
Proof.
  intros Hk H. st_inv H as u w1 Ha.
  - destruct (audit_or_exit_spec _ _ _ _ Ha) as [Hd Hau]. specialize (Hau eq_refl).
    unfold when_allowed in H. destruct (allowed v); [right; split; [done|]|left].
    + apply Hk in H as [Hf Hdb]. unfold audited in *. by rewrite Hf, Hdb.
    + st_inv H as u' w2 Hp; [|done]. injection H as <- <-.
      etrans; [done|]. by apply (proj2 (print_spec _ _ _ _ Hp)).
  - left. by apply audit_or_exit_spec in Ha as [Hd _].
Qed.

(** A command that only loads, asks, logs and goes on. *)
Definition accessed (c : Command) (w w' : World) : Prop :=
  exists master p name a cls, load_store env args w = (Ok (master, p), w) /\
    requested args c p = Some (name, a, cls) /\
    allowed (evaluate_access (arg_plane args) cls a []) = true /\
    audited args (evaluated env args name a (evaluate_access (arg_plane args) cls a [])) w w'.

Lemma save_store_kept master p : st_within audit_kept (save_store env master p).
Proof. intros w r w'. unfold save_store. by destruct (save _ _ master p); intros [= _ <-]. Qed.

Lemma persist_kept (f : SecretsDB -> result cli_exc SecretsDB) :
  (forall d d', f d = Ok d' -> secret_access_audit d' = secret_access_audit d) ->
  st_within audit_kept (w ← get_state; d ← lift (f (db w)); put_state (with_db d w) : CliM unit).
Proof.
  intros Hf w r w'. cbv [mbind st_bind get_state lift put_state].
  destruct (f (db w)) as [d|] eqn:E; intros [= _ <-]; [|done]. split; [done|]. by apply Hf.
Qed.

Lemma persist_version_kept cls desc n : st_within audit_kept (persist_version env args cls desc n).
Proof.
  unfold persist_version. destruct (str_empty _); [apply within_ret, _|].
  destruct (negb _); [apply within_raise, _|].
  apply within_bind; [apply _| |intros _]; apply persist_kept; intros d d';
    unfold persist_secret_metadata, persist_secret_version; intros; repeat case_match; by simplify_eq.
Qed.

Lemma exits_kept {A} prefix (x : result secrets_exc A) : st_within audit_kept (store_error_exits prefix x).
Proof. intros w r w' H. by destruct (store_error_exits_reads _ _ _ _ _ H) as [-> _]. Qed.

Lemma print_kept o : st_within audit_kept (print_out o).
Proof. intros w r w' H. by apply print_spec in H as [? _]. Qed.

#[local] Hint Resolve save_store_kept persist_version_kept exits_kept print_kept audit_kept_preorder : within.

Lemma set_spec w r w' : cmd_set_secret env args w = (r, w') -> discreet w w' \/ accessed SetSecret w w'.
Proof.
  unfold cmd_set_secret. intros H. st_inv H as mp w1 H1; [|apply load_store_reads in H1 as ->; by left].
  pose proof (load_store_reads _ _ _ H1) as ->. destruct mp as [master p].
  st_inv H as v w2 H2; pose proof (value_or_exit_reads _ _ _ H2) as ->; [|by left].
  apply gated_spec in H as [?|[? ?]]; [by left| |].
  - right. do 5 eexists. split_and!; done.
  - apply within_bind; [apply _|auto with within|intros [p' [new n]]]. eauto 10 with within.
Qed.

Lemma rotate_spec w r w' : cmd_rotate_secret env args w = (r, w') -> discreet w w' \/ accessed RotateSecret w w'.
Proof.
  unfold cmd_rotate_secret. intros H. st_inv H as mp w1 H1; [|apply load_store_reads in H1 as ->; by left].
  pose proof (load_store_reads _ _ _ H1) as ->. destruct mp as [master p].
  st_inv H as v w2 H2; pose proof (value_or_exit_reads _ _ _ H2) as ->; [|by left].
  st_inv H as md w3 H3; destruct (store_error_exits_reads _ _ _ _ _ H3) as [-> Hmd]; [|by left].
  apply gated_spec in H as [?|[? ?]]; [by left| |].
  - right. destruct (get_metadata_Ok _ _ _ (Hmd _ eq_refl)) as (e & E & ->).
    do 5 eexists. split_and!; [done|cbn; by rewrite E|done|done].
  - apply within_bind; [apply _|auto with within|intros [p' n]]. eauto 10 with within.
Qed.

Lemma get_spec w r w' : cmd_get_secret env args w = (r, w') -> discreet w w' \/ accessed GetSecret w w'.
Proof.
  unfold cmd_get_secret. intros H. st_inv H as mp w1 H1; [|apply load_store_reads in H1 as ->; by left].
  pose proof (load_store_reads _ _ _ H1) as ->. destruct mp as [master p].
  st_inv H as md w3 H3; destruct (store_error_exits_reads _ _ _ _ _ H3) as [-> Hmd]; [|by left].
  apply gated_spec in H as [?|[? ?]]; [by left| |].
  - right. destruct (get_metadata_Ok _ _ _ (Hmd _ eq_refl)) as (e & E & ->).
    do 5 eexists. split_and!; [done|cbn; by rewrite E|done|done].
  - destruct (negb (reveal args)); eauto 10 with within.
Qed.

Lemma list_spec w r w' : cmd_list_secrets env args w = (r, w') -> discreet w w' \/ accessed ListSecrets w w'.
Proof.
  unfold cmd_list_secrets. intros H. st_inv H as mp w1 H1; [|apply load_store_reads in H1 as ->; by left].
  pose proof (load_store_reads _ _ _ H1) as ->. destruct mp as [master p].
  apply gated_spec in H as [?|[? ?]]; [by left|right; do 5 eexists; split_and!; done|].
  eauto 10 with within.
Qed.

(** *** What is printed does not depend on the values

    Payloads, and worlds, that differ in the values of secrets only. *)
Definition hide (v : SecretVersion) : SecretVersion :=
  {| version := version v; value := ""; status := status v; created_at := created_at v |}.
Definition hide_entry (e : SecretEntry) : SecretEntry :=
  {| e_classification := e_classification e; description := description e; current_version := current_version e;
     versions := map hide (versions e) |}.
Definition blind (p : Payload) : Payload := map (fun kv => (kv.1, hide_entry kv.2)) p.

Definition same_outside (w1 w2 : World) : Prop :=
  audit_file w1 = audit_file w2 /\ db w1 = db w2 /\ out w1 = out w2.
Definition related {E A B} (R : A -> B -> Prop) (x : result E A) (y : result E B) : Prop :=
  match x, y with Ok a, Ok b => R a b | Err e, Err f => e = f | _, _ => False end.
Definition alike (w1 w2 : World) : Prop :=
  same_outside w1 w2 /\
  forall m, master_secret_from_env (APEX_MASTER_KEY env) (APEX_MASTER_PASSPHRASE env) = Ok m ->
    match load (store_path args) m (store_file w1), load (store_path args) m (store_file w2) with
    | Ok p1, Ok p2 => blind p1 = blind p2
    | Err e1, Err e2 => e1 = e2
    | _, _ => False
    end.

(** Two computations that do the same outside the store. *)
Definition blindly {A B} (R : A -> B -> Prop) (m1 : CliM A) (m2 : CliM B) : Prop :=
  forall w1 w2 r1 r2 w1' w2', same_outside w1 w2 -> m1 w1 = (r1, w1') -> m2 w2 = (r2, w2') ->
    same_outside w1' w2' /\ related R r1 r2.

Lemma blindly_bind {A B A' B'} (R : A -> B -> Prop) (S : A' -> B' -> Prop) m1 m2 (k1 : A -> CliM A') (k2 : B -> CliM B') :
  blindly R m1 m2 -> (forall a b, R a b -> blindly S (k1 a) (k2 b)) -> blindly S (m1 ≫= k1) (m2 ≫= k2).
Proof.
  intros Hm Hk w1 w2 r1 r2 w1' w2' Hw. unfold mbind, st_bind.
  destruct (m1 w1) as [x1 v1] eqn:E1, (m2 w2) as [x2 v2] eqn:E2.
  destruct (Hm _ _ _ _ _ _ Hw E1 E2) as [Hv Hx]. destruct x1, x2; try done.
  - intros H1 H2. by eapply Hk.
  - intros [= <- <-] [= <- <-]. done.
Qed.
Lemma blindly_ret {A B} (R : A -> B -> Prop) a b : R a b -> blindly R (mret a) (mret b).
Proof. by intros HR w1 w2 r1 r2 w1' w2' Hw [= <- <-] [= <- <-]. Qed.
Lemma blindly_raise {A B} (R : A -> B -> Prop) e : blindly R (raise e) (raise e).
Proof. by intros w1 w2 r1 r2 w1' w2' Hw [= <- <-] [= <- <-]. Qed.
Lemma blindly_print o : blindly eq (print_out o) (print_out o).
Proof. intros w1 w2 r1 r2 w1' w2' (Ha & Hd & Ho) [= <- <-] [= <- <-]. split; [|done]. split_and!; cbn; congruence. Qed.
Lemma blindly_audit e : blindly eq (audit_or_exit env args e) (audit_or_exit env args e).
Proof.
  intros w1 w2 r1 r2 w1' w2' (Ha & Hd & Ho). unfold audit_or_exit, log.
  destruct (str_empty (audit_path args)), (str_empty (default "" (database_url args)));
    cbn -[log_to_database log_to_file]; unfold mbind, st_bind, log_to_database, log_to_file; rewrite <- ?Hd;
    destruct (database_up env), (audit_writable env); cbn;
    try destruct (persist_audit_event e (db w1)) as [d|]; cbn; intros [= <- <-] [= <- <-]; split; try done;
    split_and!; cbn; congruence.
Qed.
Lemma blindly_db (f : SecretsDB -> result cli_exc SecretsDB) :
  blindly eq (w ← get_state; d ← lift (f (db w)); put_state (with_db d w) : CliM unit)
             (w ← get_state; d ← lift (f (db w)); put_state (with_db d w) : CliM unit).
Proof.
  intros w1 w2 r1 r2 w1' w2' (Ha & Hd & Ho). cbv [mbind st_bind get_state lift put_state]. rewrite Hd.
  by destruct (f (db w2)) as [d|e]; intros [= <- <-] [= <- <-].
Qed.
Lemma blindly_persist cls desc n : blindly eq (persist_version env args cls desc n) (persist_version env args cls desc n).
Proof.
  unfold persist_version. destruct (str_empty _); [by apply blindly_ret|].
  destruct (negb _); [apply blindly_raise|].
  eapply blindly_bind; [apply blindly_db|intros _ _ _; apply blindly_db].
Qed.
Lemma blindly_save m p1 p2 : blindly eq (save_store env m p1) (save_store env m p2).
Proof.
  intros w1 w2 r1 r2 w1' w2' Hw. unfold save_store, save, encrypt_bytes.
  by destruct (derive_key _ _ _ _ _); cbn; intros [= <- <-] [= <- <-].
Qed.
Lemma blindly_exits {A B} (R : A -> B -> Prop) prefix x y :
  related R x y -> blindly R (store_error_exits prefix x) (store_error_exits prefix y).
Proof.
  intros HR w1 w2 r1 r2 w1' w2' Hw.
  destruct x as [a|e], y as [b|f]; try done; [by intros [= <- <-] [= <- <-]|].
  cbn in HR. subst f. by destruct e; intros [= <- <-] [= <- <-].
Qed.
Lemma blindly_value : blindly eq (value_or_exit env args) (value_or_exit env args).
Proof. unfold value_or_exit. destruct (read_value env args); [by apply blindly_ret|apply blindly_raise]. Qed.
Lemma blindly_allowed v k1 k2 : blindly eq k1 k2 -> blindly eq (when_allowed v k1) (when_allowed v k2).
Proof.
  intros Hk. unfold when_allowed. destruct (allowed v); [done|].
  eapply blindly_bind; [apply blindly_print|intros _ _ _; by apply blindly_ret].
Qed.

Lemma blind_get p1 p2 name : blind p1 = blind p2 -> hide_entry <$> dict_get name p1 = hide_entry <$> dict_get name p2.
Proof.
  assert (H : forall p, dict_get name (blind p) = hide_entry <$> dict_get name p).
  { induction p as [|[k e] p IH]; [done|]. cbn. by destruct (decide (name = k)). }
  intros Hb. by rewrite <- !H, Hb.
Qed.
Lemma blind_metadata p1 p2 name : blind p1 = blind p2 -> get_metadata name p1 = get_metadata name p2.
Proof.
  intros Hb%(blind_get _ _ name). unfold get_metadata. f_equal.
  destruct (dict_get name p1) as [e1|], (dict_get name p2) as [e2|]; try done.
  cbn in Hb. injection Hb as Hc Hd Hv _. unfold metadata_of. by rewrite Hc, Hd, Hv.
Qed.
Lemma blind_list p1 p2 : blind p1 = blind p2 -> list_metadata p1 = list_metadata p2.
Proof.
  intros Hb. assert (H : forall p, list_metadata p = list_metadata (blind p)); [|by rewrite (H p1), Hb, <- H].
  intros p. unfold list_metadata, blind. rewrite (py_sorted_map _ (fun a b => str_lt a.1 b.1)) by done.
  by rewrite map_map.
Qed.
Lemma blind_set name v cls desc p1 p2 : blind p1 = blind p2 ->
  related (fun a b => snd a = snd b) (set_secret (version_time env) name v cls desc p1)
    (set_secret (version_time env) name v cls desc p2).
Proof.
  intros Hb%(blind_get _ _ name). unfold set_secret. destruct (validate_secret_name name); [|done].
  cbn [mbind result_bind]. destruct (str_empty v); [done|].
  destruct (dict_get name p1) as [e1|], (dict_get name p2) as [e2|]; try done.
  cbn in Hb. injection Hb as _ _ Hv _. cbn. by rewrite Hv.
Qed.
Lemma blind_rotate name v p1 p2 : blind p1 = blind p2 ->
  related (fun a b => snd a = snd b) (rotate_secret (version_time env) name v p1)
    (rotate_secret (version_time env) name v p2).
Proof.
  intros Hb%(blind_get _ _ name). unfold rotate_secret. destruct (validate_secret_name name); [|done].
  cbn [mbind result_bind]. destruct (dict_get name p1) as [e1|], (dict_get name p2) as [e2|]; try done.
  cbn in Hb. injection Hb as _ _ Hv _. destruct (str_empty v); [done|]. cbn. by rewrite Hv.
Qed.

Lemma load_alike w1 w2 x1 x2 v1 v2 : alike w1 w2 ->
  load_store env args w1 = (x1, v1) -> load_store env args w2 = (x2, v2) ->
  v1 = w1 /\ v2 = w2 /\ related (fun a b => a.1 = b.1 /\ blind a.2 = blind b.2) x1 x2.
Proof.
  intros [Hs Hl]. unfold load_store, master_key.
  destruct (master_secret_from_env _ _) as [m|]; cbv [mbind st_bind mret st_ret raise get_state];
    [|by intros [= <- <-] [= <- <-]].
  specialize (Hl m eq_refl).
  destruct (load (store_path args) m (store_file w1)) as [p1|e1], (load (store_path args) m (store_file w2)) as [p2|e2];
    try done.
  - by intros [= <- <-] [= <- <-].
  - subst e2. by destruct e1; intros [= <- <-] [= <- <-].
Qed.

(** A command that loads the store and then goes on without regard to values. *)
Lemma alike_load (k : string * Payload -> CliM Z) w1 w2 r1 r2 w1' w2' :
  (forall m p1 p2, blind p1 = blind p2 -> blindly eq (k (m, p1)) (k (m, p2))) -> alike w1 w2 ->
  (load_store env args ≫= k) w1 = (r1, w1') -> (load_store env args ≫= k) w2 = (r2, w2') ->
  same_outside w1' w2' /\ related eq r1 r2.
Proof.
  intros Hk Ha. unfold mbind, st_bind.
  destruct (load_store env args w1) as [x1 v1] eqn:E1, (load_store env args w2) as [x2 v2] eqn:E2.
  destruct (load_alike _ _ _ _ _ _ Ha E1 E2) as (-> & -> & Hx). destruct Ha as [Hs _].
  destruct x1 as [[m p1]|], x2 as [[m' p2]|]; try done.
  - destruct Hx as [Hm Hb]. cbn in Hm, Hb. subst m'. by apply Hk.
  - cbn in Hx. subst. by intros [= <- <-] [= <- <-].
Qed.

#[local] Hint Resolve blindly_print blindly_audit blindly_persist blindly_save blindly_value blindly_allowed
  blindly_raise : blind.
#[local] Hint Extern 1 (blindly eq (mret _) (mret _)) => by apply blindly_ret : blind.
Ltac blindly_go := repeat (eapply blindly_bind; [eauto with blind|intros ? _ <-]); auto with blind.

Lemma set_alike w1 w2 r1 r2 w1' w2' : alike w1 w2 ->
  cmd_set_secret env args w1 = (r1, w1') -> cmd_set_secret env args w2 = (r2, w2') ->
  same_outside w1' w2' /\ related eq r1 r2.
Proof.
  apply alike_load. intros m p1 p2 Hb. cbn beta iota.
  assert (Hh : dict_has (arg_name args) p1 = dict_has (arg_name args) p2).
  { unfold dict_has. apply bool_decide_ext. pose proof (blind_get _ _ (arg_name args) Hb) as Hg.
    by destruct (dict_get (arg_name args) p1), (dict_get (arg_name args) p2). }
  rewrite Hh. eapply blindly_bind; [eauto with blind|intros v _ <-]. cbn zeta.
  eapply blindly_bind; [eauto with blind|intros _ _ _]. apply blindly_allowed.
  eapply blindly_bind; [by eapply blindly_exits, blind_set|].
  intros [q1 [n1 v1]] [q2 [n2 v2]] [= <- <-]. blindly_go.
Qed.

Lemma rotate_alike w1 w2 r1 r2 w1' w2' : alike w1 w2 ->
  cmd_rotate_secret env args w1 = (r1, w1') -> cmd_rotate_secret env args w2 = (r2, w2') ->
  same_outside w1' w2' /\ related eq r1 r2.
Proof.
  apply alike_load. intros m p1 p2 Hb. cbn beta iota. rewrite (blind_metadata p1 p2) by done.
  eapply blindly_bind; [eauto with blind|intros v _ <-].
  eapply blindly_bind; [apply (blindly_exits eq); by destruct (get_metadata _ p2)|intros md _ <-]. cbn zeta.
  eapply blindly_bind; [eauto with blind|intros _ _ _]. apply blindly_allowed.
  eapply blindly_bind; [by eapply blindly_exits, blind_rotate|].
  intros [q1 n1] [q2 n2] [= <-]. blindly_go.
Qed.

Lemma list_alike w1 w2 r1 r2 w1' w2' : alike w1 w2 ->
  cmd_list_secrets env args w1 = (r1, w1') -> cmd_list_secrets env args w2 = (r2, w2') ->
  same_outside w1' w2' /\ related eq r1 r2.
Proof.
  apply alike_load. intros m p1 p2 Hb. cbn beta iota zeta. rewrite (blind_list p1 p2) by done. blindly_go.
  apply blindly_allowed. blindly_go.
Qed.

Lemma gated_alike e v (k1 k2 : CliM Z) w1 w2 r1 r2 w1' w2' :
  st_within audit_kept k1 -> same_outside w1 w2 ->
  (audit_or_exit env args e ≫= fun _ => when_allowed v k1) w1 = (r1, w1') ->
  (audit_or_exit env args e ≫= fun _ => when_allowed v k2) w2 = (r2, w2') ->
  same_outside w1' w2' /\ related eq r1 r2 \/ allowed v = true /\ audited args e w1 w1'.
Proof.
  intros Hk Hs H1 H2. destruct (allowed v) eqn:Hv.
  - unfold mbind, st_bind in H1, H2.
    destruct (audit_or_exit env args e w1) as [x1 v1] eqn:E1, (audit_or_exit env args e w2) as [x2 v2] eqn:E2.
    destruct (blindly_audit e _ _ _ _ _ _ Hs E1 E2) as [Hs' Hx]. destruct x1 as [u|f].
    + right. split; [done|]. destruct (audit_or_exit_spec _ _ _ _ E1) as [_ Hau]. specialize (Hau eq_refl).
      unfold when_allowed in H1. rewrite Hv in H1. apply Hk in H1 as [Hf Hdb]. unfold audited in *. by rewrite Hf, Hdb.
    + left. destruct x2; [done|]. cbn in Hx. subst. injection H1 as <- <-. by injection H2 as <- <-.
  - left. revert H1 H2. apply blindly_bind with eq; [apply blindly_audit|intros _ _ _|done].
    unfold when_allowed. rewrite Hv. blindly_go.
Qed.

Lemma get_alike w1 w2 r1 r2 w1' w2' : alike w1 w2 ->
  cmd_get_secret env args w1 = (r1, w1') -> cmd_get_secret env args w2 = (r2, w2') ->
  same_outside w1' w2' /\ related eq r1 r2 \/ reveal args = true /\ accessed GetSecret w1 w1'.
Proof.
  intros Ha. destruct (reveal args) eqn:Hr; cycle 1.
  { intros H1 H2. left. revert Ha H1 H2. apply alike_load. intros m p1 p2 Hb. cbn beta iota.
    rewrite (blind_metadata p1 p2), Hr by done.
    eapply blindly_bind; [apply (blindly_exits eq); by destruct (get_metadata _ p2)|intros md _ <-]. cbn zeta.
    blindly_go. apply blindly_allowed. blindly_go. }
  unfold cmd_get_secret. match goal with |- (_ ≫= ?g) _ = _ -> _ => set (k := g) end.
  change ((load_store env args ≫= k) w2) with
    (match load_store env args w2 with (Ok a, w') => k a w' | (Err e, w') => (Err e, w') end).
  change ((load_store env args ≫= k) w1) with
    (match load_store env args w1 with (Ok a, w') => k a w' | (Err e, w') => (Err e, w') end).
  destruct (load_store env args w1) as [x1 v1] eqn:E1, (load_store env args w2) as [x2 v2] eqn:E2.
  destruct (load_alike _ _ _ _ _ _ Ha E1 E2) as (-> & -> & Hx). destruct Ha as [Hs _].
  destruct x1 as [[m p1]|], x2 as [[m' p2]|]; try done; cycle 1.
  { cbn in Hx. subst. intros [= <- <-] [= <- <-]. by left. }
  destruct Hx as [Hm Hb]. cbn in Hm, Hb. subst m'. unfold k. rewrite <- (blind_metadata p1 p2), Hr by done. cbn [negb].
  destruct (get_metadata (arg_name args) p1) as [md|e] eqn:Hmd; cycle 1.
  { intros H1 H2. left. revert Hs H1 H2. apply blindly_bind with (fun _ _ => False); [by apply blindly_exits|done]. }
  cbn [store_error_exits]. cbn zeta. intros H1 H2.
  assert (Hk : st_within audit_kept (store_error_exits "" (get_secret (arg_name args) p1) ≫= fun v =>
    print_out (Write v) ≫= fun _ => mret 0%Z)) by eauto 10 with within.
  set (ev := evaluate_access (arg_plane args) (md_classification md) READ []).
  destruct (gated_alike (evaluated env args (arg_name args) READ ev) ev _ _ w1 w2 r1 r2 w1' w2' Hk Hs H1 H2)
    as [?|[Hal Hau]]; [by left|right].
  split; [done|]. destruct (get_metadata_Ok _ _ _ Hmd) as (e & E & ->).
  do 5 eexists. split_and!; [exact E1|cbn; by rewrite E|exact Hal|exact Hau].
Qed.
#[local] Instance store_file_absent f : Decision (f = NoFile).
Proof. by destruct f; [left|right..]. Defined.
Lemma load_absent m f x : load (store_path args) m f = Err x ->
  f = NoFile <-> x = SecretStoreError ("secret store does not exist: " ++ store_path args).
Proof.
  destruct f as [| |d]; cbn [load].
  - by intros [= <-].
  - by intros [= <-].
  - intros H. split; [done|]. intros ->. revert H. unfold decrypt_bytes, derive_key.
    repeat (case_match; cbn; try done).
Qed.

Lemma create_alike m w1 w2 : alike w1 w2 ->
  master_secret_from_env (APEX_MASTER_KEY env) (APEX_MASTER_PASSPHRASE env) = Ok m ->
  related (fun _ _ => True) (create (store_path args) (rnd_salt env) (rnd_nonce env) m (store_file w1))
    (create (store_path args) (rnd_salt env) (rnd_nonce env) m (store_file w2)).
Proof.
  intros [_ Hl] Hm. specialize (Hl m Hm).
  assert (Hc : forall f, f <> NoFile -> create (store_path args) (rnd_salt env) (rnd_nonce env) m f =
    (_ ← load (store_path args) m f; Ok f)) by (by intros []).
  destruct (load (store_path args) m (store_file w1)) as [p1|e1] eqn:E1,
    (load (store_path args) m (store_file w2)) as [p2|e2] eqn:E2; try done.
  - rewrite !Hc, E1, E2; [done|by intros H; rewrite H in E2|by intros H; rewrite H in E1].
  - subst e2. pose proof (load_absent _ _ _ E1) as H1. pose proof (load_absent _ _ _ E2) as H2.
    assert (Hn : store_file w1 = NoFile <-> store_file w2 = NoFile) by naive_solver.
    destruct (decide (store_file w1 = NoFile)) as [Hf|Hf].
    + rewrite Hf, (proj1 Hn Hf). cbn [create]. by destruct (save _ _ _ _).
    + rewrite !Hc, E1, E2 by naive_solver. done.
Qed.

Lemma init_alike w1 w2 r1 r2 w1' w2' : alike w1 w2 ->
  cmd_init_store env args w1 = (r1, w1') -> cmd_init_store env args w2 = (r2, w2') ->
  same_outside w1' w2' /\ related eq r1 r2.
Proof.
  intros Ha. unfold cmd_init_store, master_key. pose proof (create_alike) as Hc.
  destruct (master_secret_from_env _ _) as [m|x]; cycle 1.
  { destruct Ha as [Hs _]. revert Hs. by apply blindly_bind with (fun _ _ => False); [apply blindly_raise|]. }
  specialize (Hc m w1 w2 Ha eq_refl). destruct Ha as [Hs _].
  set (body w0 := (f ← store_error_exits "secret store error: "
        (create (store_path args) (rnd_salt env) (rnd_nonce env) m (store_file w0));
    put_state (with_store f w0) ≫= fun _ =>
    audit_or_exit env args (build_audit_event env args "<store>" ADMIN ALLOW "secret store initialized") ≫= fun _ =>
    print_out (PrintJson (JDict [("initialized", JBool true); ("store_path", JStr (store_path args))])) ≫= fun _ =>
    mret 0%Z) : CliM Z).
  change (body w1 w1 = (r1, w1') -> body w2 w2 = (r2, w2') -> same_outside w1' w2' /\ related eq r1 r2).
  assert (Hb : blindly eq (body w1) (body w2)); [|by apply Hb].
  apply blindly_bind with (fun _ _ => True); [by apply blindly_exits|intros f1 f2 _].
  apply blindly_bind with eq; [|intros _ _ _; blindly_go].
  by intros v1 v2 x1 x2 v1' v2' _ [= <- <-] [= <- <-].
Qed.

(** What [init-store] does to the store: nothing, unless there is none. *)
Lemma init_spec w r w' : cmd_init_store env args w = (r, w') -> store_file w' = store_file w \/ store_file w = NoFile.
Proof.
  destruct (decide (store_file w = NoFile)) as [|Hf]; [by right|]. intros H. left.
  unfold cmd_init_store in H. st_inv H as m w1 H1; cycle 1.
  { unfold master_key in H1. by destruct (master_secret_from_env _ _); injection H1 as _ <-. }
  assert (w1 = w) as -> by (unfold master_key in H1; destruct (master_secret_from_env _ _); by injection H1 as _ <-).
  st_inv H as w0 w2 H2; [|done]. injection H2 as <- <-.
  st_inv H as f w2 H2; destruct (store_error_exits_reads _ _ _ _ _ H2) as [-> Hc]; [|done].
  specialize (Hc f eq_refl).
  assert (f = store_file w) as ->.
  { destruct (store_file w); [done| |]; cbn [create] in Hc; destruct (load _ _ _); by inversion Hc. }
  st_inv H as u w2 H3; [|done]. injection H3 as _ <-.
  st_inv H as u' w3 H4; apply audit_or_exit_spec in H4 as [[Hd _] _]; [|done].
  st_inv H as u2 w4 H5; [|done]. injection H as _ <-. injection H5 as _ <-. done.
Qed.

Lemma main_kept c w r w' : main env args c w = (r, w') -> exists r1 w1, args_func env args c w = (r1, w1) /\
    discreet w1 w' /\ audit_kept w1 w'.
Proof.
  unfold main. intros H.
  destruct (args_func env args c w) as [[z|[m|e|m]] w1]; do 2 eexists; (split; [reflexivity|]);
    try (by injection H as <- <-; split; reflexivity).
  st_inv H as u w2 Hp; [|done]. injection H as <- <-.
  destruct (print_spec _ _ _ _ Hp) as [Hk Hd]. split; [by apply Hd|done].
Qed.

Lemma accessed_later c w w1 w' : accessed c w w1 -> audit_kept w1 w' -> accessed c w w'.
Proof.
  intros (master & p & name & a & cls & Hl & Hr & Ha & Hau) [Hf Hdb].
  exists master, p, name, a, cls. split_and!; try done. unfold audited in *. by rewrite Hf, Hdb.
Qed.

Lemma command_discreet c w r w' : main env args c w = (r, w') ->
  discreet w w' \/ c = InitStore /\ (store_file w' = store_file w \/ store_file w = NoFile) \/ accessed c w w'.
Proof.
  intros (r1 & w1 & H1 & Hd & Hk)%main_kept.
  assert (Hc : discreet w w1 \/ c = InitStore /\ (store_file w1 = store_file w \/ store_file w = NoFile) \/ accessed c w w1).
  { destruct c; cbn in H1.
    - left. unfold cmd_generate_master_key in H1. st_inv H1 as u w2 Hp; [|done]. injection H1 as <- <-.
      by apply (proj2 (print_spec _ _ _ _ Hp)).
    - right; left. split; [done|]. by apply init_spec in H1.
    - destruct (set_spec _ _ _ H1); auto.
    - destruct (rotate_spec _ _ _ H1); auto.
    - destruct (get_spec _ _ _ H1); auto.
    - destruct (list_spec _ _ _ H1); auto.
    - left. unfold cmd_evaluate_access in H1. st_inv H1 as u w2 Hp; [|done]. injection H1 as <- <-.
      by apply (proj2 (print_spec _ _ _ _ Hp)). }
  destruct Hc as [Hc|[[-> Hi]|Ha]]; [left; by etrans| |].
  - right; left. split; [done|]. destruct Hd as [-> _]. done.
  - right; right. by eapply accessed_later.
Qed.

Lemma command_blind c w r w' w2 r2 w2' : alike w w2 ->
  main env args c w = (r, w') -> main env args c w2 = (r2, w2') ->
  same_outside w' w2' /\ related eq r r2 \/ c = GetSecret /\ reveal args = true /\ accessed c w w'.
Proof.
  intros Ha H1 H2. assert (Hc : (forall r1 w1 x2 v2, args_func env args c w = (r1, w1) -> args_func env args c w2 = (x2, v2) ->
    same_outside w1 v2 /\ related eq r1 x2 \/ c = GetSecret /\ reveal args = true /\ accessed c w w1)).
  { intros r1 w1 x2 v2. assert (Hs : same_outside w w2) by apply Ha. destruct c; cbn [args_func]; intros E1 E2.
    - left. revert Hs E1 E2. unfold cmd_generate_master_key.
      apply blindly_bind with eq; [apply blindly_print|intros _ _ _; by apply blindly_ret].
    - left. by eapply init_alike.
    - left. by eapply set_alike.
    - left. by eapply rotate_alike.
    - destruct (get_alike _ _ _ _ _ _ Ha E1 E2); auto.
    - left. by eapply list_alike.
    - left. revert Hs E1 E2. unfold cmd_evaluate_access.
      apply blindly_bind with eq; [apply blindly_print|intros _ _ _; by apply blindly_ret]. }
  destruct (main_kept _ _ _ _ H1) as (r1 & w1 & E1 & _ & Hk). unfold main in H1, H2. rewrite E1 in H1.
  destruct (args_func env args c w2) as [x2 v2] eqn:E2.
  destruct (Hc _ _ _ _ E1 eq_refl) as [[Hs Hrel]|(-> & Hr & Hacc)].
  - left. destruct r1 as [z|e], x2 as [z2|e2]; cbn in Hrel; [subst|done|done|subst].
    + by injection H1 as <- <-; injection H2 as <- <-.
    + destruct e2; [|by injection H1 as <- <-; injection H2 as <- <-..].
      revert Hs H1 H2. apply blindly_bind with eq; [apply blindly_print|intros _ _ _; by apply blindly_ret].
  - right. split_and!; [done..|]. by eapply accessed_later.
Qed.

(** C7: the store changes only by [init-store] where there is none, or when the
    policy allows that very request, on the class of the stored secret for a
    rotation, and the event that says so has reached every configured sink, of
    which there is at least one.  What a command prints, answers, logs and
    writes to the database does not depend on the values of the stored secrets,
    two stores that differ in them only giving the same, unless it reads a
    secret with [--reveal], allowed and logged in the same way. *)
Theorem access_is_audited c w r w' :
  main env args c w = (r, w') ->
  (store_file w' = store_file w \/ c = InitStore /\ store_file w = NoFile \/ accessed c w w') /\
  forall w2 r2 w2', alike w w2 -> main env args c w2 = (r2, w2') ->
    same_outside w' w2' /\ related eq r r2 \/ c = GetSecret /\ reveal args = true /\ accessed c w w'.
Proof.
  intros H. split.
  - destruct (command_discreet c w r w' H) as [[Hd _]|[[-> [Hi|Hi]]|Ha]]; auto.
  - intros w2 r2 w2' Ha H2. by eapply command_blind.
Qed.


End Commands.

(** A process over one store of one broker secret. *)
Definition sample_env : Env :=
  {| APEX_MASTER_KEY := None; APEX_MASTER_PASSPHRASE := Some "passphrase"; stdin_text := "hunter3";
     read_file _ := None; database_up := true; audit_writable := true; audit_time := 1; version_time := 2;
     uuid4 := "id"; rnd_salt := "salt"; rnd_nonce := "twelve bytes" |}.
Definition sample_args : Args :=
  {| store_path := "store"; audit_path := "audit"; database_url := None; subject_service := "desk";
     arg_plane := RISK; arg_name := "broker/key"; arg_classification := BROKER; arg_description := "";
     value_stdin := true; value_file := None; reveal := true |}.
Definition no_rows : SecretsDB :=
  {| secret_metadata := []; secret_versions := []; secret_access_policies := []; secret_access_audit := [];
     next_id := 1 |}.
Definition sample_payload : Payload := store_step [] (Set_ 7 "broker/key" "hunter2" BROKER "main account").
Definition sample_world : World :=
  {| store_file := match save "salt" "twelve bytes" "passphrase" sample_payload with Ok f => f | Err _ => NoFile end;
     audit_file := []; db := no_rows; out := [] |}.

Definition other_world : World :=
  {| store_file := match save "salt" "twelve bytes" "passphrase"
       (store_step [] (Set_ 7 "broker/key" "hunter9" BROKER "main account")) with Ok f => f | Err _ => NoFile end;
     audit_file := []; db := no_rows; out := [] |}.

Lemma access_is_audited_witness :
  (exists r w', main sample_env sample_args GetSecret sample_world = (r, w') /\ out w' = [Write "hunter2"] /\
     accessed sample_env sample_args GetSecret sample_world w').
Proof.
  destruct (main sample_env sample_args GetSecret sample_world) as [r w'] eqn:E.
  assert (Ho : out w' = [Write "hunter2"]).
  { change w' with (snd (r, w')). rewrite <- E. vm_compute. reflexivity. }
  exists r, w'. split; [done|]. split; [done|].
  destruct (access_is_audited sample_env sample_args GetSecret sample_world r w' E) as [_ Hblind].
  destruct (main sample_env sample_args GetSecret other_world) as [r2 w2'] eqn:E2.
  destruct (Hblind other_world r2 w2') as [[(_ & _ & Hout) _]|(_ & _ & H)]; [|done| |done].
  - split; [repeat split; reflexivity|]. intros m Hm. vm_compute in Hm. injection Hm as <-. vm_compute. reflexivity.
  - exfalso. assert (Ho2 : out w2' = [Write "hunter9"]).
    { change w2' with (snd (r2, w2')). rewrite <- E2. vm_compute. reflexivity. }
    rewrite Ho, Ho2 in Hout. discriminate.
Defined.

(** Creating the store is logged after the fact: with no sink configured the
    command fails, and the store is there. *)
Lemma init_store_before_audit :
  exists env args w w', fst (main env args InitStore w) = Ok 1%Z /\ snd (main env args InitStore w) = w' /\
    store_file w = NoFile /\ store_file w' <> NoFile /\ audit_file w' = [].
Proof.
  exists sample_env,
    {| store_path := "store"; audit_path := ""; database_url := None; subject_service := "desk";
       arg_plane := RISK; arg_name := ""; arg_classification := BROKER; arg_description := "";
       value_stdin := true; value_file := None; reveal := true |},
    {| store_file := NoFile; audit_file := []; db := no_rows; out := [] |}.
  eexists. split_and!; [vm_compute; reflexivity|reflexivity|done|vm_compute; discriminate|vm_compute; reflexivity].
Qed.
