(* ===== verification/Migrations.v ===== *)
(** Schema migrations: [models.py], [discovery.py] and [planner.py] of
    apexquant-migrations.

    The migrations root is a tree of two levels, as discovery reads it, of which
    the files next to the domain directories are names only; file contents are
    bytes.  SHA-256 is a parameter.  Filenames are ASCII where the
    pattern of a migration looks at them. *)
From stdpp Require Import base strings list gmap pretty numbers.
From Stdlib Require Import Ascii.
From S2P Require Import Prelude PyStr Json.

(** ** models.py *)

Inductive MigrationEngine := POSTGRES | CLICKHOUSE.
#[export] Instance engine_eq_dec : EqDecision MigrationEngine.
Proof. solve_decision. Defined.
Definition engine_value (e : MigrationEngine) : string :=
  match e with POSTGRES => "postgres" | CLICKHOUSE => "clickhouse" end.

Record MigrationFile := {
  f_engine : MigrationEngine; f_domain : string; f_filename : string; f_path : string;
  f_version : string; f_migration_id : string; f_checksum : string }.
Record AppliedMigration := {
  migration_id : string; engine : MigrationEngine; domain : string; version : string;
  filename : string; checksum_sha256 : string; applied_at : Z }.
Record Drift := { d_migration_id : string; expected_checksum : string; recorded_checksum : string }.
Record MigrationPlan := {
  pl_engine : MigrationEngine; pl_ok : bool; pending : list MigrationFile;
  pl_applied : list AppliedMigration; drift : list Drift }.

(** An entry of the [details] of a report. *)
Inductive Detail :=
| DriftDetail (items : list Drift)
| PendingDetail (items : list string)
| PendingOne (id : string)
| AppliedOne (id : string) (execution_time_ms : option Z)
| BaselinedOne (id : string).
Record MigrationRunReport := {
  rp_engine : MigrationEngine; mode : string; started_at : Z; completed_at : Z; ok : bool;
  planned : nat; applied : nat; skipped : nat; failed : nat; details : list Detail }.

(** ** The migrations root *)

(** An entry of a domain directory: a file with its bytes, or a directory. *)
Inductive Entry := AFile (bytes : string) | ADirectory.
Inductive Node := FileNode | DirNode (entries : pydict string Entry).
Inductive Root := Missing | NotDirectory | Directory (entries : pydict string Node).

Inductive migration_exc :=
| MigrationDiscoveryError (message : string)
| IsADirectoryError (path : string)
| FileNotFoundError (path : string)
| DriftError (engine : MigrationEngine) (items : list Drift)
| MigrationError (engine : MigrationEngine) (message : string)
| BaselineNotConfirmed
| InFailedSqlTransaction
| NotADirectoryError (path : string)
| FileExistsError (path : string).

(** ** discovery.py *)

Definition slug_char (c : ascii) : bool := is_lower c || is_digit c || (c =? "_")%char.
Definition slug_word (s : string) : bool := negb (str_empty s) && str_forall slug_char s.

(** The longest prefix of digits, and the rest. *)
Fixpoint take_digits (s : string) : string * string :=
  match s with
  | String c s' => if is_digit c then let '(d, r) := take_digits s' in (String c d, r) else ("", s)
  | "" => ("", "")
  end.
(** [s] without the suffix [suf]. *)
Fixpoint remove_suffix (suf s : string) : option string :=
  if s =? suf then Some ""
  else match s with
       | "" => None
       | String c s' => String c <$> remove_suffix suf s'
       end.

(** [FILENAME_PATTERN]: the version of a name, group 1. *)
Definition filename_body (name : string) : option string :=
  match take_digits name with
  | (digits, String "_" rest) =>
      if (4 <=? String.length digits)%nat then
        match remove_suffix ".sql" rest with
        | Some slug => if slug_word slug then Some digits else None
        | None => None
        end
      else None
  | _ => None
  end.
Definition FILENAME_PATTERN (name : string) : option string := re_dollar filename_body name.

Definition SLUG_PATTERN (slug : string) : option unit :=
  re_dollar (fun s => if slug_word s then Some tt else None) slug.
Definition validate_slug (slug : string) : result migration_exc unit :=
  match SLUG_PATTERN slug with
  | Some _ => Ok tt
  | None => Err (MigrationDiscoveryError
      "migration slug may only contain lowercase letters, digits, and underscores")
  end.

(** [int(version)] *)
Definition version_number (f : MigrationFile) : N := dec_value (f_version f).

(** [key=lambda file: (file.domain, int(file.version), file.filename)] *)
Definition file_key (f : MigrationFile) : string * (N * string) :=
  (f_domain f, (version_number f, f_filename f)).
Definition str_cmp (a b : string) : comparison := (a ?= b)%string.
Definition key_cmp : MigrationFile -> MigrationFile -> comparison :=
  cmp_by file_key (cmp_pair str_cmp (cmp_pair N.compare str_cmp)).
Definition file_lt (a b : MigrationFile) : bool := bool_decide (key_cmp a b = Lt).

Definition by_name {A} (x y : string * A) : bool := str_lt x.1 y.1.

Definition dirs_of (l : pydict string Node) : list (string * pydict string Entry) :=
  omap (fun kv : string * Node => match kv.2 with DirNode es => Some (kv.1, es) | FileNode => None end) l.
(** [domain_dir.glob("*.sql")] *)
Definition glob_sql (l : pydict string Entry) : pydict string Entry :=
  filter (fun kv => ends_with ".sql" kv.1 = true) l.

Section Discovery.
(** [hashlib.sha256(bytes).hexdigest()] *)
Variable sha256_hex : string -> string.

Definition compute_checksum (path : string) (e : Entry) : result migration_exc string :=
  match e with AFile bytes => Ok (sha256_hex bytes) | ADirectory => Err (IsADirectoryError path) end.

Definition migration_file (root : string) (eng : MigrationEngine) (dom : string) (kv : string * Entry)
    : result migration_exc MigrationFile :=
  let path := root ++ "/" ++ dom ++ "/" ++ kv.1 in
  match FILENAME_PATTERN kv.1 with
  | None => Err (MigrationDiscoveryError
      ("invalid migration filename: " ++ path ++ ". Expected format: NNNN_slug.sql"))
  | Some v =>
      checksum ← compute_checksum path kv.2;
      Ok {| f_engine := eng; f_domain := dom; f_filename := kv.1; f_path := path; f_version := v;
            f_migration_id := engine_value eng ++ "/" ++ dom ++ "/" ++ kv.1; f_checksum := checksum |}
  end.

Definition discover_domain (root : string) (eng : MigrationEngine) (d : string * pydict string Entry)
    : result migration_exc (list MigrationFile) :=
  map_result (migration_file root eng d.1) (py_sorted by_name (glob_sql d.2)).

Definition wanted (domain_filter : option string) (d : string * pydict string Entry) : bool :=
  match domain_filter with None => true | Some x => d.1 =? x end.

Definition discover_migrations (root : string) (tree : Root) (eng : MigrationEngine)
    (domain_filter : option string) : result migration_exc (list MigrationFile) :=
  match tree with
  | Missing => Err (MigrationDiscoveryError ("migration root does not exist: " ++ root))
  | NotDirectory => Err (MigrationDiscoveryError ("migration root is not a directory: " ++ root))
  | Directory entries =>
      files ← map_result (discover_domain root eng)
                (filter (fun d => wanted domain_filter d = true) (py_sorted by_name (dirs_of entries)));
      Ok (py_sorted file_lt (concat files))
  end.

(** ** Creating a migration *)

Fixpoint zeros (n : nat) : string := match n with O => "" | S n => String "0" (zeros n) end.
Definition zfill (width : nat) (s : string) : string := zeros (width - String.length s) ++ s.

Definition next_version (existing : list MigrationFile) : string :=
  match existing with
  | [] => "0001"
  | f :: fs =>
      let next_value := (foldl N.max (version_number f) (map version_number fs) + 1)%N in
      let width := Nat.max 4 (String.length (pretty next_value)) in
      zfill width (pretty next_value)
  end.

Definition newline_str : string := String newline "".

Definition render_template (eng : MigrationEngine) (dom slug version filename : string) : string :=
  let header := ["-- ApexQuant Ultra"; "-- Domain: " ++ dom; "-- Migration: " ++ filename;
                 "-- Generated by apexquant-migrate."; ""] in
  let body := match eng with
              | POSTGRES => ["BEGIN;"; ""; "SELECT 1;"; ""; "COMMIT;"; ""]
              | CLICKHOUSE => ["SELECT 1;"; ""]
              end in
  join newline_str (header ++ body)%list.

(** [domain_dir.mkdir(parents=True, exist_ok=True)] for a domain that is the
    name of one directory. *)
Definition mkdir (root dom : string) (tree : Root) : result migration_exc (pydict string Node) :=
  match tree with
  | Missing => Ok [(dom, DirNode [])]
  | NotDirectory => Err (NotADirectoryError (root ++ "/" ++ dom))
  | Directory l =>
      match dict_get dom l with
      | None => Ok (dict_set dom (DirNode []) l)
      | Some (DirNode _) => Ok l
      | Some FileNode => Err (FileExistsError (root ++ "/" ++ dom))
      end
  end.
Definition entries_of (dom : string) (l : pydict string Node) : pydict string Entry :=
  match dict_get dom l with Some (DirNode es) => es | _ => [] end.

(** The same where [root / domain] is the root itself. *)
Definition mkdir_root (root : string) (tree : Root) : result migration_exc (pydict string Node) :=
  match tree with
  | Missing => Ok []
  | NotDirectory => Err (FileExistsError root)
  | Directory l => Ok l
  end.

(** Whether [root / domain] is a directory directly under the root, or the root
    itself.  Any other domain (several components, "..", an absolute path) leads
    out of the two levels that a [Root] models. *)
Definition one_directory (dom : string) : bool :=
  negb (str_empty dom) && negb (dom =? ".") && negb (dom =? "..") &&
  str_forall (fun c => negb (c =? "/")%char && negb (c =? zero)%char) dom.
Definition root_itself (dom : string) : bool := str_empty dom || (dom =? ".").

(** The version and the name of the next migration of [dom], unless [taken]. *)
Definition next_file (root : string) (l : pydict string Node) (eng : MigrationEngine) (dom slug dir : string)
    (taken : string -> bool) : result migration_exc (string * string) :=
  existing ← discover_migrations root (Directory l) eng (Some dom);
  let version := next_version existing in
  let filename := version ++ "_" ++ slug ++ ".sql" in
  if taken filename then Err (MigrationDiscoveryError ("migration already exists: " ++ dir ++ "/" ++ filename))
  else Ok (version, filename).

Definition create_in_directory (root : string) (tree : Root) (eng : MigrationEngine) (dom slug : string)
    : result migration_exc string * Root :=
  let dir := root ++ "/" ++ dom in
  match mkdir root dom tree with
  | Err e => (Err e, tree)
  | Ok l =>
      match next_file root l eng dom slug dir (fun n => bool_decide (is_Some (dict_get n (entries_of dom l)))) with
      | Err e => (Err e, Directory l)
      | Ok (version, filename) =>
          (Ok (dir ++ "/" ++ filename), Directory (dict_set dom (DirNode (dict_set filename
             (AFile (render_template eng dom slug version filename)) (entries_of dom l))) l))
      end
  end.
Definition create_in_root (root : string) (tree : Root) (eng : MigrationEngine) (dom slug : string)
    : result migration_exc string * Root :=
  match mkdir_root root tree with
  | Err e => (Err e, tree)
  | Ok l =>
      match next_file root l eng dom slug root (fun n => bool_decide (is_Some (dict_get n l))) with
      | Err e => (Err e, Directory l)
      | Ok (_, filename) => (Ok (root ++ "/" ++ filename), Directory (dict_set filename FileNode l))
      end
  end.

(** [None] for a domain that leads out of the two levels. *)
Definition create_migration (root : string) (tree : Root) (eng : MigrationEngine) (dom slug : string)
    : option (result migration_exc string * Root) :=
  match validate_slug slug with
  | Err e => Some (Err e, tree)
  | Ok _ =>
      if root_itself dom then Some (create_in_root root tree eng dom slug)
      else if one_directory dom then Some (create_in_directory root tree eng dom slug)
      else None
  end.
End Discovery.

(** ** planner.py *)

Definition is_pending (applied : pydict string AppliedMigration) (f : MigrationFile) : bool :=
  bool_decide (dict_get (f_migration_id f) applied = None).
Definition drift_of (applied : pydict string AppliedMigration) (f : MigrationFile) : option Drift :=
  existing ← dict_get (f_migration_id f) applied;
  if checksum_sha256 existing =? f_checksum f then None
  else Some {| d_migration_id := f_migration_id f; expected_checksum := f_checksum f;
               recorded_checksum := checksum_sha256 existing |}.

Definition build_plan (eng : MigrationEngine) (files : list MigrationFile)
    (applied : pydict string AppliedMigration) : MigrationPlan :=
  let drift := omap (drift_of applied) files in
  {| pl_engine := eng; pl_ok := bool_decide (drift = []);
     pending := filter (fun f => is_pending applied f = true) files;
     pl_applied := dict_values applied; drift := drift |}.

(** ** Reading a migration

    [Path.read_text] of a path discovery gave, with universal newlines. *)
Definition read_text (tree : Root) (f : MigrationFile) : result migration_exc string :=
  match tree with
  | Directory l =>
      match dict_get (f_filename f) (entries_of (f_domain f) l) with
      | Some (AFile bytes) => Ok (universal_newlines bytes)
      | Some ADirectory => Err (IsADirectoryError (f_path f))
      | None => Err (FileNotFoundError (f_path f))
      end
  | _ => Err (FileNotFoundError (f_path f))
  end.
