(* ===== verification/MigrationsPostgres.v ===== *)
(** The Postgres migrator: [postgres.py] of apexquant-migrations.

    The registry tables of BOOTSTRAP_SQL are there from the start, as
    [ensure_registry] makes them before any use.  What a migration does to the
    rest of the database is a parameter, [run_sql]; a migration does not touch
    the registry.  The connections autocommit; a migration that fails inside its
    own BEGIN leaves the session in an aborted transaction, where every further
    statement fails, and one that succeeds leaves no transaction open.  Columns nothing reads
    ([started_at] and [completed_at] of a run, [metadata]) are left out, and the
    database answers. *)
From stdpp Require Import base strings list gmap pretty numbers.
From Stdlib Require Import Ascii.
From S2P Require Import Prelude PyStr Json Migrations.

(** ** The registry *)

Record RegistryRow := { migration : AppliedMigration; applied_by : string; execution_time_ms : Z }.
Inductive RunStatus := RUNNING | SUCCESS | FAILED.
Record RunRow := {
  run_id : nat; run_mode : string; run_status : RunStatus; planned_count : nat; applied_count : nat;
  failed_count : nat; run_error : option string }.

(** [data] is the rest of the database; [lock] the session that holds the
    advisory lock; [ticks] counts the clock readings, [next_run] names the
    runs. *)
Record Database (D : Type) := {
  data : D; applied_migrations : list RegistryRow; migration_runs : list RunRow;
  lock : option nat; ticks : nat; next_run : nat }.
Arguments data {D}. Arguments applied_migrations {D}. Arguments migration_runs {D}.
Arguments lock {D}. Arguments ticks {D}. Arguments next_run {D}.

Section Setters.
Context {D : Type}.
Implicit Types w : Database D.
Definition set_data (x : D) w := {| data := x; applied_migrations := applied_migrations w;
  migration_runs := migration_runs w; lock := lock w; ticks := ticks w; next_run := next_run w |}.
Definition set_applied x w := {| data := data w; applied_migrations := x;
  migration_runs := migration_runs w; lock := lock w; ticks := ticks w; next_run := next_run w |}.
Definition set_runs x w := {| data := data w; applied_migrations := applied_migrations w;
  migration_runs := x; lock := lock w; ticks := ticks w; next_run := next_run w |}.
Definition set_lock x w := {| data := data w; applied_migrations := applied_migrations w;
  migration_runs := migration_runs w; lock := x; ticks := ticks w; next_run := next_run w |}.
Definition tick w := {| data := data w; applied_migrations := applied_migrations w;
  migration_runs := migration_runs w; lock := lock w; ticks := S (ticks w); next_run := next_run w |}.
Definition take_run w := {| data := data w; applied_migrations := applied_migrations w;
  migration_runs := migration_runs w; lock := lock w; ticks := ticks w; next_run := S (next_run w) |}.
End Setters.

(** [str(exc)] of what a file may raise. *)
Definition os_message (e : migration_exc) : string :=
  match e with
  | IsADirectoryError p => "[Errno 21] Is a directory: '" ++ p ++ "'"
  | FileNotFoundError p => "[Errno 2] No such file or directory: '" ++ p ++ "'"
  | MigrationDiscoveryError m | MigrationError _ m => m
  | InFailedSqlTransaction => "current transaction is aborted, commands ignored until end of transaction block"
  | _ => ""
  end.

(** Why a file of the loop failed, and whether the session is then in an
    aborted transaction. *)
Record Failure := { failure_text : string; in_transaction : bool }.
Definition plain_failure (m : string) : Failure := {| failure_text := m; in_transaction := false |}.

(** [ORDER BY domain, version, filename] *)
Definition registry_lt (a b : RegistryRow) : bool :=
  let key r := (domain (migration r), (version (migration r), filename (migration r))) in
  bool_decide (cmp_by key (cmp_pair str_cmp (cmp_pair str_cmp str_cmp)) a b = Lt).

Section Postgres.
Context {D : Type}.
(** A migration's text against the database: its outcome and what it changed,
    also when it fails half-way; of a transaction it aborts, nothing. *)
Variable run_sql : string -> D -> result Failure unit * D.
Variable sha256_hex : string -> string.
(** The clock, and [int((b - a).total_seconds() * 1000)]. *)
Variable utc_now : nat -> Z.
Variable millis : Z -> Z -> Z.
(** The migrator's own settings. *)
Variable migrations_root : string.
Variable migrator : string.

Notation DB := (Database D).

Definition now {E} : st DB E Z := fun w => (Ok (utc_now (ticks w)), tick w).

Definition stripped (m : AppliedMigration) : AppliedMigration :=
  {| migration_id := migration_id m; engine := engine m; domain := domain m; version := version m;
     filename := filename m; checksum_sha256 := strip (checksum_sha256 m); applied_at := applied_at m |}.

Definition get_applied (w : DB) : pydict string AppliedMigration :=
  foldl (fun acc r => dict_set (migration_id (migration r)) (stripped (migration r)) acc) []
    (py_sorted registry_lt (filter (fun r => engine (migration r) = POSTGRES) (applied_migrations w))).

Definition plan (tree : Root) (domain_filter : option string) (w : DB) : result migration_exc MigrationPlan :=
  files ← discover_migrations sha256_hex migrations_root tree POSTGRES domain_filter;
  Ok (build_plan POSTGRES files (get_applied w)).

(** [verify]; the registry is read, nothing is written. *)
Definition verify (tree : Root) (domain_filter : option string) : st DB migration_exc MigrationRunReport :=
  t0 ← now;
  w ← get_state;
  p ← lift (plan tree domain_filter w);
  t1 ← now;
  mret {| rp_engine := POSTGRES; mode := "verify"; started_at := t0; completed_at := t1;
          ok := pl_ok p && bool_decide (pending p = []);
          planned := length (pending p); applied := 0; skipped := length (pending p);
          failed := length (drift p);
          details := ((if bool_decide (drift p = []) then [] else [DriftDetail (drift p)]) ++
                      (if bool_decide (pending p = []) then []
                       else [PendingDetail (map f_migration_id (pending p))]))%list |}.

(** ** Applying *)

Definition insert_run (count : nat) : st DB migration_exc nat := fun w =>
  let id := next_run w in
  (Ok id, take_run (set_runs (migration_runs w ++
     [{| run_id := id; run_mode := "apply"; run_status := RUNNING; planned_count := count;
         applied_count := 0; failed_count := 0; run_error := None |}]) w)).

Definition succeed_run (count : nat) (r : RunRow) : RunRow :=
  {| run_id := run_id r; run_mode := run_mode r; run_status := SUCCESS; planned_count := planned_count r;
     applied_count := count; failed_count := failed_count r; run_error := run_error r |}.
Definition fail_run (count : nat) (message : string) (r : RunRow) : RunRow :=
  {| run_id := run_id r; run_mode := run_mode r; run_status := FAILED; planned_count := planned_count r;
     applied_count := count; failed_count := 1; run_error := Some message |}.
Definition update_run (id : nat) (f : RunRow -> RunRow) (w : DB) : DB :=
  set_runs (tbl_update (fun r => (run_id r =? id)%nat) f (migration_runs w)) w.

(** [conn.execute(sql)] between two readings of the clock. *)
Definition execute_file (tree : Root) (f : MigrationFile) : st DB Failure Z :=
  t0 ← now;
  sql ← lift (map_err (fun x => plain_failure (os_message x)) (read_text tree f));
  (fun w => let '(r, d) := run_sql sql (data w) in (r, set_data d w)) ≫= fun _ : unit =>
  t1 ← now;
  mret (millis t0 t1).

(** [INSERT ... ON CONFLICT (migration_id) DO NOTHING], [applied_at] from the
    clock. *)
Definition register (f : MigrationFile) (ms : Z) : st DB Failure unit := fun w =>
  let row := {| migration := {| migration_id := f_migration_id f; engine := POSTGRES; domain := f_domain f;
                                version := f_version f; filename := f_filename f;
                                checksum_sha256 := f_checksum f; applied_at := utc_now (ticks w) |};
                applied_by := migrator; execution_time_ms := ms |} in
  if negb (not_blank (f_domain f)) then (Err (plain_failure "applied_migrations_domain_not_empty"), w)
  else if negb (not_blank (f_version f)) then (Err (plain_failure "applied_migrations_version_not_empty"), w)
  else if negb (not_blank (f_filename f)) then (Err (plain_failure "applied_migrations_filename_not_empty"), w)
  else if negb (checksum_format (f_checksum f)) then (Err (plain_failure "applied_migrations_checksum_format"), w)
  else if existsb (fun r => migration_id (migration r) =? f_migration_id f) (applied_migrations w)
  then (Ok tt, tick w)
  else (Ok tt, tick (set_applied (applied_migrations w ++ [row]) w)).

(** The loop over the pending files: the details of those done, and how it
    ended. *)
Fixpoint apply_files (tree : Root) (todo : list MigrationFile) (done : list Detail) (w : DB)
    : list Detail * result Failure unit * DB :=
  match todo with
  | [] => (done, Ok tt, w)
  | f :: todo' =>
      match execute_file tree f w with
      | (Err e, w1) => (done, Err e, w1)
      | (Ok ms, w1) =>
          match register f ms w1 with
          | (Err e, w2) => (done, Err e, w2)
          | (Ok _, w2) => apply_files tree todo' (done ++ [AppliedOne (f_migration_id f) (Some ms)]) w2
          end
      end
  end.

(** After the loop: the run is closed and the lock released, in this order, on
    both ways out.  In an aborted transaction the statement that closes the run
    is refused itself: its exception leaves [apply], and the lock goes with the
    connection, which [with] rolls back and closes. *)
Definition finish_apply (p : MigrationPlan) (t0 : Z) (run : nat) (done : list Detail) (r : result Failure unit)
    : st DB migration_exc MigrationRunReport :=
  match r with
  | Ok _ =>
      w ← get_state;
      put_state (set_lock None (update_run run (succeed_run (length done)) w)) ≫= fun _ =>
      t1 ← now;
      mret {| rp_engine := POSTGRES; mode := "apply"; started_at := t0; completed_at := t1; ok := true;
              planned := length (pending p); applied := length done; skipped := 0; failed := 0;
              details := done |}
  | Err e =>
      w ← get_state;
      if in_transaction e then
        put_state (set_lock None w) ≫= fun _ => raise InFailedSqlTransaction
      else
        put_state (set_lock None (update_run run (fail_run (length done) (failure_text e)) w)) ≫= fun _ =>
        raise (MigrationError POSTGRES (failure_text e))
  end.

(** [pg_advisory_lock]: granted when no other session holds it, otherwise the
    call waits. *)
Definition acquire_lock (session : nat) (w : DB) : option DB :=
  match lock w with
  | None => Some (set_lock (Some session) w)
  | Some s => if (s =? session)%nat then Some w else None
  end.

(** The first part of [apply], without the lock: the plan and when it began. *)
Definition planned_apply (tree : Root) (domain_filter : option string) : st DB migration_exc (Z * MigrationPlan) :=
  t0 ← now;
  w ← get_state;
  p ← lift (plan tree domain_filter w);
  if negb (pl_ok p) then raise (DriftError POSTGRES (drift p)) else mret (t0, p).

Definition locked_apply (tree : Root) (t0 : Z) (p : MigrationPlan) : st DB migration_exc MigrationRunReport :=
  run ← insert_run (length (pending p));
  w ← get_state;
  let '(done, r, w') := apply_files tree (pending p) [] w in
  put_state w' ≫= fun _ => finish_apply p t0 run done r.

(** [apply]; [None] while another session holds the lock. *)
Definition apply (session : nat) (tree : Root) (domain_filter : option string) (dry_run : bool) (w : DB)
    : option (result migration_exc MigrationRunReport * DB) :=
  match planned_apply tree domain_filter w with
  | (Err e, w1) => Some (Err e, w1)
  | (Ok (t0, p), w1) =>
      if dry_run then
        Some ((t1 ← now;
               mret {| rp_engine := POSTGRES; mode := "dry-run"; started_at := t0; completed_at := t1; ok := true;
                       planned := length (pending p); applied := 0; skipped := length (pending p); failed := 0;
                       details := map (fun f => PendingOne (f_migration_id f)) (pending p) |}) w1)
      else w2 ← acquire_lock session w1; Some (locked_apply tree t0 p w2)
  end.

(** ** Baseline: the pending files are registered, not executed *)

Fixpoint register_all (todo : list MigrationFile) (done : list Detail) (w : DB)
    : list Detail * result Failure unit * DB :=
  match todo with
  | [] => (done, Ok tt, w)
  | f :: todo' =>
      match register f 0 w with
      | (Err e, w1) => (done, Err e, w1)
      | (Ok _, w1) => register_all todo' (done ++ [BaselinedOne (f_migration_id f)]) w1
      end
  end.

Definition baseline (session : nat) (tree : Root) (domain_filter : option string) (confirm : bool) (w : DB)
    : option (result migration_exc MigrationRunReport * DB) :=
  if negb confirm then Some (Err BaselineNotConfirmed, w)
  else
    match (t0 ← now; w' ← get_state; p ← lift (plan tree domain_filter w'); mret (t0, p)) w with
    | (Err e, w1) => Some (Err e, w1)
    | (Ok (t0, p), w1) =>
        w2 ← acquire_lock session w1;
        let '(done, r, w3) := register_all (pending p) [] w2 in
        Some (match r with
              | Ok _ =>
                  (t1 ← now;
                   mret {| rp_engine := POSTGRES; mode := "baseline"; started_at := t0; completed_at := t1;
                           ok := true; planned := length (pending p); applied := length done; skipped := 0;
                           failed := 0; details := done |}) (set_lock None w3)
              | Err e => (Err (MigrationError POSTGRES (failure_text e)), set_lock None w3)
              end)
    end.

(** ** Several migrators at once

    A session applying without dry run, one statement at a time: the plan is
    read before the lock is asked for. *)
Inductive Phase :=
| Start (domain_filter : option string)
| Waiting (t0 : Z) (p : MigrationPlan)
| Running (t0 : Z) (p : MigrationPlan) (run : nat) (todo : list MigrationFile) (done : list Detail)
| Recording (t0 : Z) (p : MigrationPlan) (run : nat) (f : MigrationFile) (ms : Z)
    (todo : list MigrationFile) (done : list Detail)
| Stopped (r : result migration_exc MigrationRunReport).

Definition stop (t0 : Z) (p : MigrationPlan) (run : nat) (done : list Detail) (r : result Failure unit) (w : DB)
    : Phase * DB :=
  let '(res, w') := finish_apply p t0 run done r w in (Stopped res, w').

(** The next statement of a session; [None] when it waits or is over. *)
Definition session_step (session : nat) (tree : Root) (ph : Phase) (w : DB) : option (Phase * DB) :=
  match ph with
  | Start filt =>
      Some (match planned_apply tree filt w with
            | (Err e, w1) => (Stopped (Err e), w1)
            | (Ok (t0, p), w1) => (Waiting t0 p, w1)
            end)
  | Waiting t0 p =>
      w1 ← acquire_lock session w;
      Some (match insert_run (length (pending p)) w1 with
            | (Ok run, w2) => (Running t0 p run (pending p) [], w2)
            | (Err e, w2) => (Stopped (Err e), w2)
            end)
  | Running t0 p run [] done => Some (stop t0 p run done (Ok tt) w)
  | Running t0 p run (f :: todo) done =>
      Some (match execute_file tree f w with
            | (Ok ms, w1) => (Recording t0 p run f ms todo done, w1)
            | (Err e, w1) => stop t0 p run done (Err e) w1
            end)
  | Recording t0 p run f ms todo done =>
      Some (match register f ms w with
            | (Ok _, w1) => (Running t0 p run todo (done ++ [AppliedOne (f_migration_id f) (Some ms)]), w1)
            | (Err e, w1) => stop t0 p run done (Err e) w1
            end)
  | Stopped _ => None
  end.

(** Sessions over one database, in any order of their steps. *)
Definition System : Type := (list Phase * DB).
Inductive system_step (tree : Root) : System -> System -> Prop :=
| one_session i phs ph ph' w w' :
    phs !! i = Some ph -> session_step i tree ph w = Some (ph', w') ->
    system_step tree (phs, w) (<[i := ph']> phs, w').

(** Steps of one session alone, until it stops or [n] are done. *)
Fixpoint session_run (n : nat) (session : nat) (tree : Root) (ph : Phase) (w : DB) : option (Phase * DB) :=
  match n, ph with
  | _, Stopped _ => Some (ph, w)
  | O, _ => None
  | S n', _ => '(ph', w') ← session_step session tree ph w; session_run n' session tree ph' w'
  end.
End Postgres.
