(* ===== verification/MigrationsProps.v ===== *)
(** Properties of the schema migrations: what discovery finds and in which
    order, what one run applies and where the next one resumes, what verify
    reports, and what concurrent migrators keep. *)
From stdpp Require Import base strings list gmap pretty numbers sorting.
From Stdlib Require Import Ascii.
From S2P Require Import Prelude PyStr Json Migrations MigrationsPostgres.

(** ** Order *)

#[export] Instance str_cmp_laws : CmpLaws str_cmp.
Proof.
  unfold str_cmp. split.
  - intros x y. apply String.compare_antisym.
  - intros x y z H. by apply String.compare_eq_iff in H as ->.
  - intros x y z Hxy Hyz. assert (str_lt x y = true) as H1 by (unfold str_lt; by rewrite Hxy).
    assert (str_lt y z = true) as H2 by (unfold str_lt; by rewrite Hyz).
    pose proof (str_lt_trans _ _ _ H1 H2) as H. unfold str_lt in H. by destruct (x ?= z)%string.
Qed.

#[export] Instance key_cmp_laws : CmpLaws key_cmp.
Proof. unfold key_cmp. apply _. Qed.

(** A list sorted by a comparison is in order. *)
Section CmpSorted.
Context {A : Type} (cmp : A -> A -> comparison) `{!CmpLaws cmp}.

Lemma cmp_sort_le x y : sort_le (fun x y => bool_decide (cmp x y = Lt)) x y <-> cmp x y <> Gt.
Proof. unfold sort_le. rewrite bool_decide_eq_false, (cmp_antisym (cmp:=cmp) y x). by destruct (cmp y x). Qed.

Lemma cmp_sorted l :
  StronglySorted (fun x y => cmp x y <> Gt) (py_sorted (fun x y => bool_decide (cmp x y = Lt)) l).
Proof.
  rewrite <- (list_fmap_id (py_sorted _ l)).
  eapply (StronglySorted_fmap id (sort_le (fun x y => bool_decide (cmp x y = Lt)))).
  - intros x y. apply cmp_sort_le.
  - apply py_sorted_sorted.
    + intros x y H%bool_decide_eq_true. apply bool_decide_eq_false. by rewrite (cmp_antisym (cmp:=cmp) x y), H.
    + intros x y z. rewrite !cmp_sort_le. by apply cmp_le_trans.
Qed.
End CmpSorted.

(** ** Discovery *)

(** Names are keys of their directory. *)
Definition tree_ok (tree : Root) : Prop :=
  match tree with
  | Directory l => dict_wf l /\ forall dom es, (dom, DirNode es) ∈ l -> dict_wf es
  | _ => True
  end.

Lemma slug_no_slash s : slug_word s = true -> no_char "/" s.
Proof.
  unfold slug_word. intros [_ H]%andb_true_iff. eapply no_char_forall; [|exact H]. done.
Qed.

Lemma ends_with_remove suf s r : remove_suffix suf s = Some r -> s = r ++ suf.
Proof.
  revert r; induction s as [|c s IH]; intros r; cbn [remove_suffix].
  - destruct ("" =? suf) eqn:E; [|done]. intros [= <-]. by apply String.eqb_eq in E.
  - destruct (String c s =? suf) eqn:E; [intros [= <-]; by apply String.eqb_eq in E|].
    destruct (remove_suffix suf s) as [r'|]; [|done]. intros [= <-]. cbn. f_equal. by apply IH.
Qed.

Lemma take_digits_spec s : let '(d, r) := take_digits s in s = d ++ r /\ str_forall is_digit d = true.
Proof.
  induction s as [|c s IH]; cbn; [done|]. destruct (is_digit c) eqn:Hc; [|done].
  destruct (take_digits s) as [d r]. destruct IH as [-> Hd]. cbn. by rewrite Hc.
Qed.

Lemma filename_body_spec name v : filename_body name = Some v ->
  exists slug, name = v ++ "_" ++ slug ++ ".sql" /\ slug_word slug = true /\
    str_forall is_digit v = true /\ (4 <= String.length v)%nat.
Proof.
  unfold filename_body. pose proof (take_digits_spec name) as H.
  destruct (take_digits name) as [d r]. destruct H as [-> Hd]. destruct r as [|c r]; [done|].
  intros H. assert (c = "_"%char) as ->.
  { revert H. clear. destruct c as [[] [] [] [] [] [] [] []]; done. }
  destruct (4 <=? String.length d)%nat eqn:Hl; [|done].
  destruct (remove_suffix ".sql" r) as [slug|] eqn:Hs; [|done].
  destruct (slug_word slug) eqn:Hw; [|done]. injection H as <-.
  exists slug. apply ends_with_remove in Hs as ->. apply Nat.leb_le in Hl. done.
Qed.

Lemma filename_no_slash name v : FILENAME_PATTERN name = Some v -> no_char "/" name.
Proof.
  assert (Hbody : forall s u, filename_body s = Some u -> no_char "/" s).
  { intros s u (slug & -> & Hs & Hd & _)%filename_body_spec.
    rewrite !no_char_app. split_and!; [|done|by apply slug_no_slash|by vm_compute].
    eapply no_char_forall; [|exact Hd]. done. }
  unfold FILENAME_PATTERN, re_dollar. destruct (filename_body name) as [u|] eqn:E.
  - intros _. by eapply Hbody.
  - destruct (chop_newline name) as [s'|] eqn:Hc; [|done]. intros H.
    apply chop_newline_Some in Hc as ->. rewrite no_char_app. split; [by eapply Hbody|].
    by vm_compute.
Qed.

Section DiscoveryFacts.
Context (sha256_hex : string -> string).

Lemma migration_file_spec root eng dom kv f :
  migration_file sha256_hex root eng dom kv = Ok f ->
  f_engine f = eng /\ f_domain f = dom /\ f_filename f = kv.1 /\
  FILENAME_PATTERN kv.1 = Some (f_version f) /\
  f_migration_id f = engine_value eng ++ "/" ++ dom ++ "/" ++ kv.1 /\
  exists bytes, kv.2 = AFile bytes /\ f_checksum f = sha256_hex bytes.
Proof.
  unfold migration_file. destruct (FILENAME_PATTERN kv.1) as [v|] eqn:Hv; [|done].
  destruct kv.2 as [bytes|] eqn:He; cbn; [|done]. intros [= <-]. cbn. split_and!; try done. eauto.
Qed.

(** A migration of the tree, as discovery reads it. *)
Definition in_tree (root : string) (eng : MigrationEngine) (filt : option string) (tree : Root)
    (f : MigrationFile) : Prop :=
  exists l es e, tree = Directory l /\ (f_domain f, DirNode es) ∈ l /\ wanted filt (f_domain f, es) = true /\
    (f_filename f, e) ∈ es /\ ends_with ".sql" (f_filename f) = true /\
    migration_file sha256_hex root eng (f_domain f) (f_filename f, e) = Ok f.

Lemma dirs_of_elem l dom es : (dom, es) ∈ dirs_of l <-> (dom, DirNode es) ∈ l.
Proof.
  unfold dirs_of. rewrite list_elem_of_omap. split.
  - intros ([d [|es']] & Hin & [= -> ->]). done.
  - intros Hin. by exists (dom, DirNode es).
Qed.

Lemma dirs_of_keys l : dict_wf l -> NoDup (dirs_of l).*1.
Proof.
  unfold dict_wf, dict_keys, dirs_of. induction l as [|[d [|es]] l IH]; csimpl; [constructor|..];
    rewrite list.NoDup_cons; intros [Hn Hl]; [by apply IH|].
  apply list.NoDup_cons. split; [|by apply IH]. intros (kv & Heq & Hin)%list_elem_of_fmap.
  destruct kv as [d' es']. cbn in Heq. subst d'. apply dirs_of_elem in Hin. apply Hn.
  apply list_elem_of_fmap. by exists (d, DirNode es').
Qed.

Lemma discover_domain_elem root eng d fs f : discover_domain sha256_hex root eng d = Ok fs ->
  f ∈ fs <-> f_domain f = d.1 /\ exists e, (f_filename f, e) ∈ d.2 /\ ends_with ".sql" (f_filename f) = true /\
    migration_file sha256_hex root eng d.1 (f_filename f, e) = Ok f.
Proof.
  unfold discover_domain. intros H%map_result_ok. split.
  - intros (i & Hi)%list_elem_of_lookup. destruct (Forall2_lookup_r _ _ _ _ _ H Hi) as (kv & Hkv & Hf).
    apply list_elem_of_lookup_2, elem_of_py_sorted in Hkv. unfold glob_sql in Hkv.
    apply list_elem_of_filter in Hkv as [He Hin].
    pose proof (migration_file_spec _ _ _ _ _ Hf) as (_ & Hd & Hn & _). split; [done|].
    exists kv.2. rewrite Hn. by destruct kv.
  - intros (_ & e & Hin & He & Hf).
    assert (Hk : (f_filename f, e) ∈ py_sorted by_name (glob_sql d.2)).
    { apply elem_of_py_sorted, list_elem_of_filter. done. }
    apply list_elem_of_lookup in Hk as [i Hi].
    destruct (Forall2_lookup_l _ _ _ _ _ H Hi) as (f' & Hf' & Heq).
    assert (f' = f) as -> by congruence. by eapply list_elem_of_lookup_2.
Qed.

Lemma discover_domain_names root eng d fs : dict_wf d.2 -> discover_domain sha256_hex root eng d = Ok fs ->
  NoDup (f_filename <$> fs).
Proof.
  unfold discover_domain. intros Hwf H%map_result_ok.
  assert (Hnames : f_filename <$> fs = (py_sorted by_name (glob_sql d.2)).*1).
  { clear Hwf. induction H as [|kv f l fs Hf _ IH]; [done|].
    pose proof (migration_file_spec _ _ _ _ _ Hf) as (_ & _ & Hn & _). csimpl. by rewrite Hn, IH. }
  rewrite Hnames, py_sorted_perm. by apply (NoDup_fmap_filter fst).
Qed.

(** Identifiers tell files apart. *)
Lemma id_inj root root' eng d d' kv kv' f f' :
  migration_file sha256_hex root eng d kv = Ok f -> migration_file sha256_hex root' eng d' kv' = Ok f' ->
  f_migration_id f = f_migration_id f' -> d = d' /\ kv.1 = kv'.1.
Proof.
  intros (_ & _ & _ & Hv & Hi & _)%migration_file_spec (_ & _ & _ & Hv' & Hi' & _)%migration_file_spec.
  rewrite Hi, Hi'. intros H%app_inv_head_str. injection H as H.
  apply split_last_inj in H; [done|by eapply filename_no_slash..].
Qed.

Lemma domain_ids root eng d fs : dict_wf d.2 -> discover_domain sha256_hex root eng d = Ok fs ->
  NoDup (f_migration_id <$> fs).
Proof.
  intros Hwf Hd. pose proof (discover_domain_names _ _ _ _ Hwf Hd) as Hn.
  assert (Hall : forall f, f ∈ fs -> exists e, migration_file sha256_hex root eng d.1 (f_filename f, e) = Ok f).
  { intros f (_ & e & _ & _ & He)%(discover_domain_elem _ _ _ _ f Hd). eauto. }
  clear Hd. induction fs as [|f fs IH]; [constructor|]. revert Hn. csimpl. rewrite !list.NoDup_cons.
  intros [Hf Hn]. split; [|apply IH; [done|]; intros; apply Hall; by right].
  intros (f' & Heq & Hin)%list_elem_of_fmap. apply Hf. apply list_elem_of_fmap. exists f'. split; [|done].
  destruct (Hall f) as [e He]; [left|]. destruct (Hall f') as [e' He']; [by right|].
  by destruct (id_inj _ _ _ _ _ _ _ _ _ He He' Heq).
Qed.

Lemma domains_ids root eng doms lss :
  Forall2 (fun d fs => discover_domain sha256_hex root eng d = Ok fs) doms lss ->
  NoDup doms.*1 -> (forall d, d ∈ doms -> dict_wf d.2) -> NoDup (f_migration_id <$> concat lss).
Proof.
  induction 1 as [|d fs doms lss Hd H IH]; csimpl; [constructor|]. rewrite list.NoDup_cons. intros [Hn Hnd] Hwf.
  rewrite fmap_app. apply list.NoDup_app. split_and!.
  - eapply domain_ids; [|exact Hd]. apply Hwf. left.
  - intros id (f & -> & Hf)%list_elem_of_fmap (f' & Heq & (k & Hf' & (i & Hi)%list_elem_of_lookup)%elem_of_concat)%list_elem_of_fmap.
    destruct (Forall2_lookup_r _ _ _ _ _ H Hi) as (d' & Hl & Hd').
    apply (discover_domain_elem _ _ _ _ f Hd) in Hf as (_ & e & _ & _ & He).
    apply (discover_domain_elem _ _ _ _ f' Hd') in Hf' as (_ & e' & _ & _ & He').
    destruct (id_inj _ _ _ _ _ _ _ _ _ He He' Heq) as [Hdd _]. apply Hn. rewrite Hdd.
    apply list_elem_of_fmap_2. by eapply list_elem_of_lookup_2.
  - apply IH; [done|]. intros d' Hd'. apply Hwf. by right.
Qed.

(** Discovery of a tree lists exactly the migration files of its domain
    directories, each once and with its own identifier, in the order of domain,
    version number and name. *)
Theorem discovery_exact root tree eng filt files :
  tree_ok tree -> discover_migrations sha256_hex root tree eng filt = Ok files ->
  (forall f, f ∈ files <-> in_tree root eng filt tree f) /\
  NoDup (f_migration_id <$> files) /\
  StronglySorted (fun a b => key_cmp a b <> Gt) files.
Proof.
  unfold discover_migrations. destruct tree as [| |l]; [done|done|]. intros [Hwf Hes].
  destruct (map_result _ _) as [lss|] eqn:Hm; [|done]. cbn. intros [= <-]. apply map_result_ok in Hm.
  set (doms := filter _ _) in Hm.
  assert (Hdoms : forall d, d ∈ doms <-> (d.1, DirNode d.2) ∈ l /\ wanted filt d = true).
  { intros [d es]. unfold doms. rewrite list_elem_of_filter, elem_of_py_sorted, dirs_of_elem. tauto. }
  split_and!.
  - intros f. rewrite elem_of_py_sorted, elem_of_concat. split.
    + intros (fs & Hf & (i & Hi)%list_elem_of_lookup).
      destruct (Forall2_lookup_r _ _ _ _ _ Hm Hi) as (d & Hd & Hfs).
      apply list_elem_of_lookup_2, Hdoms in Hd as [Hin Hw].
      apply (discover_domain_elem _ _ _ _ _ Hfs) in Hf as (Hfd & e & He & Hs & Hok).
      exists l, d.2, e. rewrite Hfd. destruct d. split_and!; done.
    + intros (l' & es & e & [= <-] & Hin & Hw & He & Hs & Hok).
      assert (Hd : (f_domain f, es) ∈ doms) by (by apply Hdoms).
      apply list_elem_of_lookup in Hd as [i Hi].
      destruct (Forall2_lookup_l _ _ _ _ _ Hm Hi) as (fs & Hl & Hfs).
      exists fs. split; [|by eapply list_elem_of_lookup_2].
      apply (discover_domain_elem _ _ _ _ _ Hfs). split; [done|]. by exists e.
  - rewrite py_sorted_perm. eapply domains_ids; [exact Hm| |].
    + apply (NoDup_fmap_filter fst). rewrite py_sorted_perm. by apply dirs_of_keys.
    + intros d Hd. eapply Hes. by apply Hdoms.
  - apply cmp_sorted, _.
Qed.
End DiscoveryFacts.

(** ** The registry *)

Definition row_id (r : RegistryRow) : string := migration_id (migration r).
(** The registry holds a migration once, and only this engine's. *)
Definition registry_ok {D} (w : Database D) : Prop :=
  NoDup (row_id <$> applied_migrations w) /\
  forall r, r ∈ applied_migrations w -> engine (migration r) = POSTGRES.

Lemma foldl_set_get rows acc id m :
  NoDup (row_id <$> rows) -> (forall r, r ∈ rows -> dict_get (row_id r) acc = None) ->
  dict_get id (foldl (fun acc r => dict_set (migration_id (migration r)) (stripped (migration r)) acc) acc rows) = Some m
  <-> dict_get id acc = Some m \/ exists r, r ∈ rows /\ row_id r = id /\ m = stripped (migration r).
Proof.
  revert acc; induction rows as [|r rows IH]; intros acc; csimpl.
  - intros _ _. split; [auto|]. intros [?|(r & ?%elem_of_nil & _)]; done.
  - rewrite list.NoDup_cons. intros [Hn Hnd] Hacc. rewrite IH; [|done|].
    + destruct (decide (row_id r = id)) as [<-|Hne].
      * rewrite dict_get_set_eq. rewrite (Hacc r) by left. split.
        -- intros [[= <-]|(r' & Hr' & Heq & ->)]; [right; exists r; split_and!; [left|done..]|].
           exfalso. apply Hn. rewrite <- Heq. by apply list_elem_of_fmap_2.
        -- intros [[=]|(r' & [->|Hr']%elem_of_cons & Heq & ->)]; [by left|]. right. by exists r'.
      * rewrite dict_get_set_ne by done. split; intros [?|(r' & Hr' & ? & ->)]; [by left| |by left|].
        -- right. exists r'. split_and!; [by right|done..].
        -- apply elem_of_cons in Hr' as [->|Hr']; [done|]. right. by exists r'.
    + intros r' Hr'. rewrite dict_get_set_ne; [apply Hacc; by right|].
      intros Heq. apply Hn. unfold row_id. rewrite Heq. by apply (list_elem_of_fmap_2 row_id).
Qed.

Lemma get_applied_Some {D} (w : Database D) id m : registry_ok w ->
  dict_get id (get_applied w) = Some m <->
  exists r, r ∈ applied_migrations w /\ row_id r = id /\ m = stripped (migration r).
Proof.
  intros [Hnd Hpg]. unfold get_applied. set (rows := py_sorted _ _).
  assert (Hel : forall r, r ∈ rows <-> r ∈ applied_migrations w).
  { intros r. unfold rows. rewrite elem_of_py_sorted, list_elem_of_filter. split; [tauto|]. auto. }
  rewrite foldl_set_get.
  - setoid_rewrite Hel. split; [|auto]. intros [[=]|?]; done.
  - unfold rows. rewrite py_sorted_perm. by apply (NoDup_fmap_filter row_id).
  - done.
Qed.

Lemma get_applied_None {D} (w : Database D) id : registry_ok w ->
  dict_get id (get_applied w) = None <-> id ∉ row_id <$> applied_migrations w.
Proof.
  intros Hok. split.
  - intros Hg (r & -> & Hr)%list_elem_of_fmap.
    assert (Hs : dict_get (row_id r) (get_applied w) = Some (stripped (migration r))).
    { apply get_applied_Some; [done|]. by exists r. }
    congruence.
  - intros Hn. destruct (dict_get id (get_applied w)) as [m|] eqn:Hg; [|done].
    apply get_applied_Some in Hg as (r & Hr & <- & _); [|done]. exfalso. apply Hn.
    by apply list_elem_of_fmap_2.
Qed.

(** A row that registers a file with the checksum it has. *)
Definition registers (f : MigrationFile) (r : RegistryRow) : Prop :=
  row_id r = f_migration_id f /\ engine (migration r) = POSTGRES /\ domain (migration r) = f_domain f /\
  version (migration r) = f_version f /\ filename (migration r) = f_filename f /\
  checksum_sha256 (migration r) = f_checksum f /\ checksum_format (f_checksum f) = true.

Lemma checksum_strip s : checksum_format s = true -> strip s = s.
Proof.
  unfold checksum_format. intros [_ H]%andb_true_iff. apply strip_no_space.
  eapply str_forall_impl; [|exact H]. intros c. unfold hex_char, is_digit, is_space, between.
  rewrite orb_true_iff, !andb_true_iff, !N.leb_le, negb_true_iff, orb_false_iff, !andb_false_iff, !N.leb_gt. lia.
Qed.

(** ** Plans of any engine *)

Lemma pl_ok_iff eng files a : pl_ok (build_plan eng files a) = true <->
  forall f m, f ∈ files -> dict_get (f_migration_id f) a = Some m -> checksum_sha256 m = f_checksum f.
Proof.
  cbn. rewrite bool_decide_eq_true. split.
  - intros Hnil f m Hf Hm. destruct (decide (checksum_sha256 m = f_checksum f)) as [|Hne]; [done|].
    exfalso. assert (Hd : drift_of a f = Some {| d_migration_id := f_migration_id f;
      expected_checksum := f_checksum f; recorded_checksum := checksum_sha256 m |}).
    { unfold drift_of. rewrite Hm. cbn. by apply String.eqb_neq in Hne as ->. }
    assert (Hin : {| d_migration_id := f_migration_id f; expected_checksum := f_checksum f;
      recorded_checksum := checksum_sha256 m |} ∈ omap (drift_of a) files).
    { apply list_elem_of_omap. eauto. }
    rewrite Hnil in Hin. by apply elem_of_nil in Hin.
  - intros H. induction files as [|f files IH]; [done|]. csimpl.
    assert (drift_of a f = None) as ->.
    { unfold drift_of. destruct (dict_get (f_migration_id f) a) as [m|] eqn:E; [|done]. cbn.
      apply H in E as ->; [|left]. by rewrite String.eqb_refl. }
    apply IH. intros f' m Hf'. apply H. by right.
Qed.

Lemma pending_elem eng files a f :
  f ∈ pending (build_plan eng files a) <-> f ∈ files /\ dict_get (f_migration_id f) a = None.
Proof.
  cbn. rewrite list_elem_of_filter. unfold is_pending. rewrite bool_decide_eq_true. tauto.
Qed.

(** Filtering further what is left of a prefix. *)
Lemma filter_rest (g h : MigrationFile -> bool) l ran rest :
  NoDup (f_migration_id <$> l) -> filter (fun x => g x = true) l = (ran ++ rest)%list ->
  (forall x, x ∈ l -> h x = true <-> g x = true /\ f_migration_id x ∉ f_migration_id <$> ran) ->
  filter (fun x => h x = true) l = rest.
Proof.
  intros Hnd Hg Hh.
  assert (Hnd' : NoDup (f_migration_id <$> (ran ++ rest)%list)) by (rewrite <- Hg; by apply NoDup_fmap_filter).
  transitivity (filter (fun x => f_migration_id x ∉ f_migration_id <$> ran) (ran ++ rest)%list).
  - rewrite <- Hg, list_filter_filter. apply filter_ext_elem. intros x Hx. rewrite (Hh x Hx). tauto.
  - rewrite fmap_app in Hnd'. apply list.NoDup_app in Hnd' as (_ & Hdisj & _).
    rewrite list.filter_app, filter_none, filter_all; [done| |].
    + apply list.Forall_forall. intros x Hx Hr. eapply Hdisj; [done|]. by apply list_elem_of_fmap_2.
    + apply list.Forall_forall. intros x Hx []. by apply list_elem_of_fmap_2.
Qed.

(** Planning again once a prefix of what was pending is recorded with its
    checksums and the rest of the record is as it was. *)
Lemma rebuild_plan eng files a a' ran rest :
  NoDup (f_migration_id <$> files) -> pl_ok (build_plan eng files a) = true ->
  pending (build_plan eng files a) = (ran ++ rest)%list ->
  (forall f, f ∈ ran -> exists m, dict_get (f_migration_id f) a' = Some m /\ checksum_sha256 m = f_checksum f) ->
  (forall f, f ∈ files -> f_migration_id f ∉ f_migration_id <$> ran ->
     dict_get (f_migration_id f) a' = dict_get (f_migration_id f) a) ->
  pending (build_plan eng files a') = rest /\ pl_ok (build_plan eng files a') = true.
Proof.
  intros Hnd Hok Hpend Hran Hother.
  assert (Hranf : forall f, f ∈ files -> f_migration_id f ∈ f_migration_id <$> ran -> f ∈ ran).
  { intros f Hf (g & Heq & Hg)%list_elem_of_fmap.
    assert (Hgf : g ∈ pending (build_plan eng files a)) by (rewrite Hpend; apply elem_of_app; by left).
    apply pending_elem in Hgf as [Hgf _].
    by rewrite (NoDup_fmap_elem_inj f_migration_id files f g Hnd Hf Hgf Heq). }
  split.
  - eapply filter_rest; [done|exact Hpend|]. intros x Hx. unfold is_pending. rewrite !bool_decide_eq_true.
    destruct (decide (f_migration_id x ∈ f_migration_id <$> ran)) as [Hin|Hnin].
    + destruct (Hran x (Hranf x Hx Hin)) as (m & -> & _). split; [done|]. by intros [_ []].
    + rewrite (Hother x Hx Hnin). tauto.
  - apply pl_ok_iff. intros f m Hf Hm.
    destruct (decide (f_migration_id f ∈ f_migration_id <$> ran)) as [Hin|Hnin].
    + destruct (Hran f (Hranf f Hf Hin)) as (m' & Hm' & Hc). congruence.
    + rewrite (Hother f Hf Hnin) in Hm. by eapply (proj1 (pl_ok_iff eng files a) Hok).
Qed.

Section PostgresFacts.
Context {D : Type} (run_sql : string -> D -> result Failure unit * D) (sha256_hex : string -> string)
  (utc_now : nat -> Z) (millis : Z -> Z -> Z) (migrations_root migrator : string).
Implicit Types w : Database D.

(** Only the rest of the database and the clock moved. *)
Definition registry_same w w' : Prop :=
  applied_migrations w' = applied_migrations w /\ migration_runs w' = migration_runs w /\
  lock w' = lock w /\ next_run w' = next_run w.

(** The texts of these files, run one after the other, lead from [d] to [d']. *)
Inductive executed (tree : Root) : list MigrationFile -> D -> D -> Prop :=
| executed_nil d : executed tree [] d d
| executed_cons f fs sql d d1 d2 :
    read_text tree f = Ok sql -> run_sql sql d = (Ok tt, d1) -> executed tree fs d1 d2 ->
    executed tree (f :: fs) d d2.

Lemma executed_snoc tree fs f sql d d1 d2 : executed tree fs d d1 -> read_text tree f = Ok sql ->
  run_sql sql d1 = (Ok tt, d2) -> executed tree (fs ++ [f]) d d2.
Proof. induction 1; intros; econstructor; try done; [by constructor|eauto]. Qed.

(** How a file failed with [e], and what it did all the same: it could not be
    read, its text failed, or its row was refused. *)
Definition attempted (tree : Root) (f : MigrationFile) (e : Failure) (d d' : D) : Prop :=
  (exists x, read_text tree f = Err x /\ e = plain_failure (os_message x) /\ d' = d) \/
  (exists sql, read_text tree f = Ok sql /\
     (run_sql sql d = (Err e, d') \/ run_sql sql d = (Ok tt, d') /\ in_transaction e = false)).

Lemma execute_file_spec tree f w r w' : execute_file run_sql utc_now millis tree f w = (r, w') ->
  registry_same w w' /\
  match r with
  | Ok _ => exists sql, read_text tree f = Ok sql /\ run_sql sql (data w) = (Ok tt, data w')
  | Err e => attempted tree f e (data w) (data w')
  end.
Proof.
  unfold execute_file, now. cbv [mbind st_bind lift mret st_ret tick]. cbn.
  destruct (read_text tree f) as [sql|e] eqn:Hr; cbn; [|intros [= <- <-]; split; [done|left; eauto]].
  destruct (run_sql sql (data w)) as [[[]|m] d] eqn:Hs; cbn; intros [= <- <-]; (split; [done|]).
  - by exists sql.
  - right. exists sql. auto.
Qed.

Lemma register_spec f ms w r w' : register utc_now migrator f ms w = (r, w') ->
  data w' = data w /\ migration_runs w' = migration_runs w /\ lock w' = lock w /\ next_run w' = next_run w /\
  match r with
  | Ok _ => (f_migration_id f ∈ row_id <$> applied_migrations w /\ applied_migrations w' = applied_migrations w) \/
            (f_migration_id f ∉ row_id <$> applied_migrations w /\
             exists row, registers f row /\ applied_migrations w' = (applied_migrations w ++ [row])%list)
  | Err e => applied_migrations w' = applied_migrations w /\ in_transaction e = false
  end.
Proof.
  unfold register. repeat (destruct (negb _) eqn:? at 1; [by intros [= <- <-]|]).
  destruct (existsb _ _) eqn:He; intros [= <- <-]; cbn; (split_and!; [done..|]).
  - left. split; [|done]. apply existsb_exists in He as (row & Hin & Heq).
    apply String.eqb_eq in Heq. rewrite <- Heq. apply list_elem_of_In in Hin.
    by apply (list_elem_of_fmap_2 row_id).
  - right. split.
    + intros (row & Heq & Hin)%list_elem_of_fmap. apply not_true_iff_false in He. apply He.
      apply existsb_exists. exists row. rewrite <- list_elem_of_In. split; [done|]. by apply String.eqb_eq.
    + eexists. split; [|reflexivity]. unfold registers. cbn. split_and!; try done. by apply negb_false_iff.
Qed.

Lemma registry_ok_snoc w w' f row : registry_ok w -> f_migration_id f ∉ row_id <$> applied_migrations w ->
  registers f row -> applied_migrations w' = (applied_migrations w ++ [row])%list -> registry_ok w'.
Proof.
  intros [Hnd Hpg] Hn (Hid & Hp & _) Heq. split; rewrite Heq.
  - apply NoDup_fmap_snoc; [done|]. by rewrite Hid.
  - intros r [Hr|Hr%list_elem_of_singleton]%elem_of_app; [by apply Hpg|by subst].
Qed.

(** The loop: the files split into those that ran and were registered, in
    order, and the rest, the first of which is the one that failed. *)
Lemma apply_files_spec tree todo done w done' r w' :
  registry_ok w -> NoDup (f_migration_id <$> todo) ->
  (forall f, f ∈ todo -> f_migration_id f ∉ row_id <$> applied_migrations w) ->
  apply_files run_sql utc_now millis migrator tree todo done w = (done', r, w') ->
  exists ran rest rows d, todo = (ran ++ rest)%list /\ registry_ok w' /\
    applied_migrations w' = (applied_migrations w ++ rows)%list /\ Forall2 registers ran rows /\
    migration_runs w' = migration_runs w /\ lock w' = lock w /\ next_run w' = next_run w /\
    length done' = (length done + length ran)%nat /\ executed tree ran (data w) d /\
    match r with
    | Ok _ => rest = [] /\ data w' = d
    | Err e => exists f rest', rest = f :: rest' /\ attempted tree f e d (data w')
    end.
Proof.
  revert done w; induction todo as [|f todo IH]; intros done w Hok; csimpl.
  - intros _ _ [= <- <- <-]. exists [], [], [], (data w). rewrite (app_nil_r (applied_migrations w)).
    split_and!; try done; try lia; constructor.
  - rewrite list.NoDup_cons. intros [Hf Hnd] Hnew H.
    destruct (execute_file _ _ _ tree f w) as [[ms|e] w1] eqn:He;
      apply execute_file_spec in He as [(Ha & Hr & Hl & Hnx) Hd].
    2: { injection H as <- <- <-. exists [], (f :: todo), [], (data w). rewrite Ha, (app_nil_r (applied_migrations w)).
         split_and!; [done|by unfold registry_ok; rewrite Ha|done|constructor|done..|cbn; lia|constructor|eauto]. }
    destruct Hd as (sql & Hsql & Hd).
    destruct (register _ _ f ms w1) as [[[]|e] w2] eqn:Hreg;
      apply register_spec in Hreg as (Hd2 & Hr2 & Hl2 & Hn2 & Ha2).
    2: { destruct Ha2 as [Ha2 Htx]. injection H as <- <- <-. exists [], (f :: todo), [], (data w). rewrite Ha2, Ha, (app_nil_r (applied_migrations w)).
         split_and!; [done|by unfold registry_ok; rewrite Ha2, Ha|done|constructor|congruence..|cbn; lia|constructor|].
         exists f, todo. split; [done|]. right. exists sql. split; [done|]. right. by rewrite Hd2. }
    rewrite Ha in Ha2. destruct Ha2 as [[Hin _]|(Hnin & row & Hrow & Ha2)].
    { exfalso. apply (Hnew f); [left|done]. }
    assert (Hok2 : registry_ok w2) by (eapply (registry_ok_snoc w); eauto).
    apply IH in H; [|done|done|].
    + destruct H as (ran & rest & rows & d & -> & Hok' & Ha' & Hrows & Hr' & Hl' & Hn' & Hlen & Hex & Hres).
      exists (f :: ran), rest, (row :: rows), d. rewrite Ha', Ha2, <- app_assoc.
      rewrite Hlen, length_app, Hd2 in *.
      split_and!; [done|done|done|by constructor|congruence..|cbn; lia|by econstructor|done].
    + intros f' Hf'. rewrite Ha2, fmap_app, elem_of_app. intros [Hin|Hin].
      * apply (Hnew f'); [by right|done].
      * cbn in Hin. apply list_elem_of_singleton in Hin. destruct Hrow as [Hid _]. rewrite Hid in Hin.
        apply Hf. rewrite <- Hin. by apply list_elem_of_fmap_2.
Qed.

(** ** Plans *)

Lemma plan_Ok tree filt w p : plan sha256_hex migrations_root tree filt w = Ok p ->
  exists files, discover_migrations sha256_hex migrations_root tree POSTGRES filt = Ok files /\
    p = build_plan POSTGRES files (get_applied w).
Proof.
  unfold plan. destruct (discover_migrations _ _ _ _ _) as [files|]; [|done]. intros [= <-]. eauto.
Qed.

Lemma registers_ids ran rows : Forall2 registers ran rows -> row_id <$> rows = f_migration_id <$> ran.
Proof. induction 1 as [|f r ran rows (Hid & _) _ IH]; [done|]. csimpl. by rewrite Hid, IH. Qed.

(** What has been registered is no longer pending, and its checksum agrees. *)
Lemma replan tree filt w w' p ran rest rows :
  tree_ok tree -> registry_ok w -> registry_ok w' ->
  plan sha256_hex migrations_root tree filt w = Ok p -> pl_ok p = true -> pending p = (ran ++ rest)%list ->
  Forall2 registers ran rows -> applied_migrations w' = (applied_migrations w ++ rows)%list ->
  exists p', plan sha256_hex migrations_root tree filt w' = Ok p' /\ pending p' = rest /\ pl_ok p' = true.
Proof.
  intros Ht Hok Hok' (files & Hd & ->)%plan_Ok Hpl Hpend Hrows Ha.
  destruct (discovery_exact _ _ _ _ _ _ Ht Hd) as (_ & Hnd & _).
  eexists. unfold plan. rewrite Hd. split; [reflexivity|].
  eapply rebuild_plan; [done|exact Hpl|exact Hpend|..].
  - intros f (i & Hi)%list_elem_of_lookup. destruct (Forall2_lookup_l _ _ _ _ _ Hrows Hi) as (r & Hr & Hreg).
    destruct Hreg as (Hid & _ & _ & _ & _ & Hc & Hck). exists (stripped (migration r)). split.
    + apply get_applied_Some; [done|]. exists r. split_and!; [|done..]. rewrite Ha. apply elem_of_app. right.
      by eapply list_elem_of_lookup_2.
    + cbn. by rewrite Hc, checksum_strip.
  - intros f Hf Hn. apply option_eq. intros m. rewrite !get_applied_Some, Ha by done.
    setoid_rewrite elem_of_app. split; intros (r & Hr & Hid & ->); exists r; [|by auto].
    destruct Hr as [Hr|Hr]; [done|]. exfalso. apply Hn. rewrite <- (registers_ids _ _ Hrows), <- Hid.
    by apply (list_elem_of_fmap_2 row_id).
Qed.

(** ** One run *)

(** Run numbers are fresh. *)
Definition runs_ok w : Prop := forall r, r ∈ migration_runs w -> run_id r < next_run w.

Lemma update_last_run w run f (l : list RunRow) :
  (forall r, r ∈ l -> run_id r < run_id run) -> migration_runs w = (l ++ [run])%list ->
  migration_runs (update_run (run_id run) f w) = (l ++ [f run])%list.
Proof.
  intros Hl Hw. unfold update_run. cbn. rewrite Hw. unfold tbl_update. rewrite fmap_app. cbn.
  rewrite Nat.eqb_refl. f_equal. apply tbl_update_none. intros r Hr%Hl. apply Nat.eqb_neq. lia.
Qed.

Lemma planned_apply_spec tree filt w :
  exists w1, data w1 = data w /\ registry_same w w1 /\
    planned_apply sha256_hex utc_now migrations_root tree filt w =
    (match plan sha256_hex migrations_root tree filt w with
     | Err e => Err e
     | Ok p => if pl_ok p then Ok (utc_now (ticks w), p) else Err (DriftError POSTGRES (drift p))
     end, w1).
Proof.
  exists (tick w). split; [done|]. split; [done|].
  unfold planned_apply, now. cbv [mbind st_bind get_state lift mret st_ret].
  change (plan sha256_hex migrations_root tree filt (tick w)) with (plan sha256_hex migrations_root tree filt w).
  destruct (plan _ _ tree filt w) as [p|e]; [|done]. by destruct (pl_ok p).
Qed.

(** The end of a run: what it reports and what it leaves in the log.  A failure
    inside the migration's own transaction is not logged: the run stays as it
    began, and the report is of the refused statement. *)
Definition ends (p : MigrationPlan) (n : nat) (err : option Failure)
    (r : result migration_exc MigrationRunReport) (run : RunRow) : Prop :=
  planned_count run = length (pending p) /\ run_mode run = "apply" /\
  match err with
  | None => exists rep, r = Ok rep /\ ok rep = true /\ planned rep = length (pending p) /\ applied rep = n /\
              failed rep = 0 /\ run_status run = SUCCESS /\ applied_count run = n
  | Some e =>
      if in_transaction e
      then r = Err InFailedSqlTransaction /\ run_status run = RUNNING /\ applied_count run = 0 /\
           failed_count run = 0 /\ run_error run = None
      else r = Err (MigrationError POSTGRES (failure_text e)) /\ run_status run = FAILED /\ applied_count run = n /\
           failed_count run = 1 /\ run_error run = Some (failure_text e)
  end.

Lemma locked_apply_spec tree t0 p w r w' :
  runs_ok w -> locked_apply run_sql utc_now millis migrator tree t0 p w = (r, w') ->
  exists done res w1 run,
    apply_files run_sql utc_now millis migrator tree (pending p) []
      (take_run (set_runs (migration_runs w ++
         [{| run_id := next_run w; run_mode := "apply"; run_status := RUNNING; planned_count := length (pending p);
             applied_count := 0; failed_count := 0; run_error := None |}])%list w)) = (done, res, w1) /\
    data w' = data w1 /\ applied_migrations w' = applied_migrations w1 /\ lock w' = None /\
    (next_run w1 = S (next_run w) ->
     migration_runs w1 = (migration_runs w ++
         [{| run_id := next_run w; run_mode := "apply"; run_status := RUNNING; planned_count := length (pending p);
             applied_count := 0; failed_count := 0; run_error := None |}])%list ->
     migration_runs w' = (migration_runs w ++ [run])%list /\ runs_ok w') /\
    ends p (length done) (match res with Ok _ => None | Err e => Some e end) r run.
Proof.
  intros Hruns. unfold locked_apply, insert_run, get_state. cbv [mbind st_bind].
  destruct (apply_files _ _ _ _ tree (pending p) [] _) as [[done res] w1].
  set (run0 := {| run_id := next_run w; run_mode := "apply"; run_status := RUNNING;
    planned_count := length (pending p); applied_count := 0; failed_count := 0; run_error := None |}).
  assert (Hlog : forall f w2, next_run w1 = S (next_run w) -> migration_runs w1 = (migration_runs w ++ [run0])%list ->
    run_id (f run0) = run_id run0 ->
    next_run w2 = next_run w1 -> migration_runs w2 = migration_runs (update_run (next_run w) f w1) ->
    migration_runs w2 = (migration_runs w ++ [f run0])%list /\ runs_ok w2).
  { intros f w2 Hn Hr Hid Hn2 Hr2.
    assert (migration_runs w2 = (migration_runs w ++ [f run0])%list) as Hlog.
    { rewrite Hr2. apply (update_last_run w1 run0 f); [|done]. exact Hruns. }
    split; [done|]. unfold runs_ok. rewrite Hlog, Hn2, Hn.
    intros r0 [Hr0|Hr0%list_elem_of_singleton]%elem_of_app; [apply Hruns in Hr0; lia|].
    subst r0. rewrite Hid. cbn. lia. }
  unfold finish_apply, put_state, get_state, now, raise. destruct res as [[]|e]; cbn; [|destruct (in_transaction e) eqn:Htx; cbn]; intros [= <- <-].
  - exists done, (Ok tt), w1, (succeed_run (length done) run0). cbn.
    split_and!; try done; [intros Hn Hr; by apply (Hlog (succeed_run (length done))
      (tick (set_lock None (update_run (next_run w) (succeed_run (length done)) w1))))|].
    unfold ends. cbn. split_and!; try done. eexists. split; [reflexivity|]. done.
  - exists done, (Err e), w1, run0. unfold ends. rewrite Htx. cbn.
    split_and!; try done. intros Hn Hr. apply (Hlog (fun x => x) (set_lock None w1)); try done.
    etrans; [|symmetry; exact (update_last_run w1 run0 (fun x => x) (migration_runs w) Hruns Hr)]. exact Hr.
  - exists done, (Err e), w1, (fail_run (length done) (failure_text e) run0). unfold ends. rewrite Htx. cbn.
    split_and!; try done. intros Hn Hr. by apply (Hlog (fail_run (length done) (failure_text e))
      (set_lock None (update_run (next_run w) (fail_run (length done) (failure_text e)) w1))).
Qed.

(** With the lock free, what applying does to the database and to the next plan. *)
Lemma apply_lock_free session tree filt w :
  tree_ok tree -> registry_ok w -> runs_ok w -> lock w = None ->
  exists r w', apply run_sql sha256_hex utc_now millis migrations_root migrator session tree filt false w = Some (r, w') /\
    registry_ok w' /\ runs_ok w' /\ lock w' = None /\
    match plan sha256_hex migrations_root tree filt w with
    | Err e => r = Err e /\ data w' = data w /\ registry_same w w'
    | Ok p =>
        if pl_ok p then
          exists ran rest rows d p' run err,
            pending p = (ran ++ rest)%list /\ executed tree ran (data w) d /\
            applied_migrations w' = (applied_migrations w ++ rows)%list /\ Forall2 registers ran rows /\
            plan sha256_hex migrations_root tree filt w' = Ok p' /\ pending p' = rest /\ pl_ok p' = true /\
            migration_runs w' = (migration_runs w ++ [run])%list /\ ends p (length ran) err r run /\
            match err with
            | None => rest = [] /\ data w' = d
            | Some e => exists f rest', rest = f :: rest' /\ attempted tree f e d (data w')
            end
        else r = Err (DriftError POSTGRES (drift p)) /\ data w' = data w /\ registry_same w w'
    end.
Proof.
  intros Ht Hok Hruns Hlock. unfold apply.
  destruct (planned_apply_spec tree filt w) as (w1 & Hd1 & Hs1 & ->). pose proof Hs1 as (Ha1 & Hr1 & Hl1 & Hn1).
  assert (Hok1 : registry_ok w1) by (unfold registry_ok; by rewrite Ha1).
  assert (Hruns1 : runs_ok w1) by (unfold runs_ok; by rewrite Hr1, Hn1).
  destruct (plan _ _ tree filt w) as [p|e] eqn:Hp; cycle 1.
  { do 2 eexists. split; [reflexivity|]. rewrite Hl1. done. }
  destruct (pl_ok p) eqn:Hpl; cycle 1.
  { do 2 eexists. split; [reflexivity|]. rewrite Hl1. done. }
  unfold acquire_lock. rewrite Hl1, Hlock. cbn [mbind option_bind].
  destruct (locked_apply _ _ _ _ tree _ p _) as [r w'] eqn:Hrun. exists r, w'. split; [reflexivity|].
  apply locked_apply_spec in Hrun; [|exact Hruns1].
  destruct Hrun as (done & res & w2 & run & Happ & Hd & Ha & Hl & Hlog & Hend).
  destruct (plan_Ok _ _ _ _ Hp) as (files & Hdisc & ->).
  destruct (discovery_exact _ _ _ _ _ _ Ht Hdisc) as (_ & Hnd & _).
  apply apply_files_spec in Happ; [|exact Hok1|by apply NoDup_fmap_filter|]; cycle 1.
  { intros f [_ Hf]%pending_elem. cbn. rewrite Ha1. by apply get_applied_None. }
  destruct Happ as (ran & rest & rows & d & Hpend & Hok2 & Ha2 & Hrows & Hr2 & _ & Hn2 & Hlen & Hex & Hres).
  cbn in Ha2, Hr2, Hn2, Hlen, Hex. destruct Hlog as [Hlog Hruns']; [done|done|].
  assert (Hok' : registry_ok w') by (unfold registry_ok; by rewrite Ha).
  assert (Ha' : applied_migrations w' = (applied_migrations w ++ rows)%list) by (by rewrite Ha, Ha2, Ha1).
  split_and!; try done.
  destruct (replan tree filt w w' _ ran rest rows Ht Hok Hok' Hp Hpl Hpend Hrows Ha') as (p' & Hp' & Hpend' & Hpl').
  exists ran, rest, rows, d, p', run, (match res with Ok _ => None | Err e => Some e end).
  cbn in Hlog. rewrite Hr1 in Hlog. rewrite Hlen in Hend. rewrite Hd1 in Hex. rewrite Hlog, Hd.
  split_and!; try done. by destruct res.
Qed.

(** C3: with the lock free, applying plans what is not registered and runs it
    in order.  It stops at the first file that fails: exactly the files before
    it have run and are registered with their checksums, the lock is released,
    and the next plan starts at that file.  Such a run is logged as failed with
    its count, unless the file failed inside its own transaction: then the log
    cannot be written, the run stays RUNNING with a count of 0, and what is
    raised is the refusal of that statement.  When none fails everything pending has run, once each, and
    nothing is pending.  A checksum that differs from the registered one, or a
    root that cannot be read, stops the run before anything happens. *)
Theorem apply_resumes session tree filt w :
  tree_ok tree -> registry_ok w -> runs_ok w -> lock w = None ->
  exists r w', apply run_sql sha256_hex utc_now millis migrations_root migrator session tree filt false w = Some (r, w') /\
    registry_ok w' /\ runs_ok w' /\ lock w' = None /\
    match plan sha256_hex migrations_root tree filt w with
    | Err e => r = Err e /\ data w' = data w /\ registry_same w w'
    | Ok p =>
        if pl_ok p then
          exists ran rest rows d p' run err,
            pending p = (ran ++ rest)%list /\ executed tree ran (data w) d /\
            applied_migrations w' = (applied_migrations w ++ rows)%list /\ Forall2 registers ran rows /\
            plan sha256_hex migrations_root tree filt w' = Ok p' /\ pending p' = rest /\ pl_ok p' = true /\
            migration_runs w' = (migration_runs w ++ [run])%list /\ ends p (length ran) err r run /\
            match err with
            | None => rest = [] /\ data w' = d
            | Some e => exists f rest', rest = f :: rest' /\ attempted tree f e d (data w')
            end
        else r = Err (DriftError POSTGRES (drift p)) /\ data w' = data w /\ registry_same w w'
    end.
Proof. exact (apply_lock_free session tree filt w). Qed.

(** Verify says ok exactly when every migration file of the tree is
    registered with the checksum of its bytes; otherwise it counts the missing
    and the changed ones.  It writes nothing. *)
Theorem verify_exact tree filt w rep w' :
  tree_ok tree -> registry_ok w ->
  verify sha256_hex utc_now migrations_root tree filt w = (Ok rep, w') ->
  data w' = data w /\ registry_same w w' /\
  (ok rep = true <-> forall f, in_tree sha256_hex migrations_root POSTGRES filt tree f ->
     exists r, r ∈ applied_migrations w /\ row_id r = f_migration_id f /\
               strip (checksum_sha256 (migration r)) = f_checksum f).
Proof.
  clear run_sql. intros Ht Hok. unfold verify, now. cbv [mbind st_bind get_state lift mret st_ret].
  change (plan sha256_hex migrations_root tree filt (tick w)) with (plan sha256_hex migrations_root tree filt w).
  destruct (plan _ _ tree filt w) as [p|e] eqn:Hp; [|done]. intros [= <- <-]. split; [done|]. split; [done|].
  destruct (plan_Ok _ _ _ _ Hp) as (files & Hd & ->).
  destruct (discovery_exact _ _ _ _ _ _ Ht Hd) as (Hel & _ & _).
  cbn [ok]. rewrite andb_true_iff, pl_ok_iff, bool_decide_eq_true. split.
  - intros [Hdr Hpe] f Hf%Hel. destruct (dict_get (f_migration_id f) (get_applied w)) as [m|] eqn:Hm.
    + pose proof (Hdr f m Hf Hm) as Hc. apply get_applied_Some in Hm as (r & Hr & Hid & ->); [|done]. eauto.
    + exfalso. assert (Hin : f ∈ pending (build_plan POSTGRES files (get_applied w))) by (by apply pending_elem).
      rewrite Hpe in Hin. by apply elem_of_nil in Hin.
  - intros H. split.
    + intros f m Hf%Hel Hm. apply get_applied_Some in Hm as (r & Hr & Hid & ->); [|done].
      destruct (H f Hf) as (r' & Hr' & Hid' & Hc). cbn. rewrite <- Hc. do 3 f_equal.
      destruct Hok as [Hnd _]. eapply (NoDup_fmap_elem_inj row_id); [exact Hnd|done|done|congruence].
    + apply elem_of_nil_inv. intros f [Hf%Hel Hn]%pending_elem.
      apply get_applied_None in Hn; [|done]. destruct (H f Hf) as (r & Hr & Hid & _). apply Hn. rewrite <- Hid.
      by apply list_elem_of_fmap_2.
Qed.

(** ** Sessions *)

Abbreviation step := (session_step run_sql sha256_hex utc_now millis migrations_root migrator).
Abbreviation srun := (session_run run_sql sha256_hex utc_now millis migrations_root migrator).

Lemma srun_stopped n session tree r w : srun n session tree (Stopped r) w = Some (Stopped r, w).
Proof. by destruct n. Qed.

Lemma srun_S n session tree ph w : (forall r, ph <> Stopped r) ->
  srun (S n) session tree ph w = '(ph', w') ← step session tree ph w; srun n session tree ph' w'.
Proof. destruct ph; try done. intros H. by destruct (H r). Qed.

Lemma stop_stopped t0 p run done r w : exists res w', stop utc_now t0 p run done r w = (Stopped res, w').
Proof. unfold stop. destruct (finish_apply _ _ _ _ _ _ w). eauto. Qed.

Lemma srun_files session tree t0 p run todo done w :
  srun (S (2 * length todo)) session tree (Running t0 p run todo done) w =
  let '(done', r, w') := apply_files run_sql utc_now millis migrator tree todo done w in
  Some (stop utc_now t0 p run done' r w').
Proof.
  revert done w; induction todo as [|f todo IH]; intros done w.
  - rewrite srun_S by done. cbn [session_step apply_files mbind option_bind].
    destruct (stop_stopped t0 p run done (Ok tt) w) as (res & w' & ->). done.
  - replace (S (2 * length (f :: todo))) with (S (S (S (2 * length todo)))) by (cbn; lia).
    rewrite srun_S by done. cbn [session_step apply_files mbind option_bind].
    destruct (execute_file _ _ _ tree f w) as [[ms|e] w1].
    + rewrite srun_S by done. cbn [session_step mbind option_bind].
      destruct (register _ _ f ms w1) as [[[]|e] w2]; [apply IH|].
      destruct (stop_stopped t0 p run done (Err e) w2) as (res & w' & ->). apply srun_stopped.
    + destruct (stop_stopped t0 p run done (Err e) w1) as (res & w' & ->). apply srun_stopped.
Qed.

(** The statements a session runs at most: two a pending file and three more. *)
Definition session_bound (tree : Root) (filt : option string) (w : Database D) : nat :=
  match plan sha256_hex migrations_root tree filt w with
  | Ok p => 3 + 2 * length (pending p)
  | Err _ => 1
  end.

(** A session that runs alone, statement by statement, stops after at most
    two steps a pending file and three more, with the outcome and the database
    of [apply]; it waits exactly when [apply] does. *)
Theorem session_refines_apply session tree filt w :
  exists n, n <= session_bound tree filt w /\
    srun n session tree (Start filt) w =
    '(r, w') ← apply run_sql sha256_hex utc_now millis migrations_root migrator session tree filt false w;
    Some (Stopped r, w').
Proof.
  unfold apply, session_bound. destruct (planned_apply_spec tree filt w) as (w1 & _ & _ & Hpl).
  destruct (plan _ _ tree filt w) as [p|e]; cycle 1.
  { exists 1. split; [lia|]. cbn. by rewrite Hpl. }
  destruct (pl_ok p); cycle 1.
  { exists 1. split; [lia|]. cbn. by rewrite Hpl. }
  exists (S (S (S (2 * length (pending p))))). split; [lia|].
  remember (S (2 * length (pending p))) as n eqn:Hn. cbn. rewrite Hpl. cbn.
  destruct (acquire_lock session w1) as [w2|]; [|done]. cbn [mbind option_bind].
  unfold locked_apply, insert_run, get_state. cbv [mbind st_bind option_bind].
  rewrite Hn, srun_files. destruct (apply_files _ _ _ _ tree (pending p) [] _) as [[done r] w3].
  unfold stop, put_state. by destruct (finish_apply _ _ _ _ _ _ w3).
Qed.

Definition in_critical (ph : Phase) : Prop :=
  match ph with Running _ _ _ _ _ | Recording _ _ _ _ _ _ _ => True | _ => False end.

Definition system_ok (w0 : Database D) (sys : list Phase * Database D) : Prop :=
  registry_ok (snd sys) /\ applied_migrations w0 `prefix_of` applied_migrations (snd sys) /\
  forall i ph, fst sys !! i = Some ph -> in_critical ph -> lock (snd sys) = Some i.

Lemma finish_apply_spec t0 p run done r w res w' : finish_apply utc_now t0 p run done r w = (res, w') ->
  applied_migrations w' = applied_migrations w /\ lock w' = None.
Proof. unfold finish_apply, put_state, get_state, now, raise. destruct r as [[]|e]; cbn; [|destruct (in_transaction e)]; by intros [= <- <-]. Qed.

(** A step of a session keeps the registry and hands the lock over properly. *)
Lemma session_step_spec session tree ph w ph' w' :
  step session tree ph w = Some (ph', w') -> registry_ok w -> (in_critical ph -> lock w = Some session) ->
  registry_ok w' /\ applied_migrations w `prefix_of` applied_migrations w' /\
  (lock w' = lock w \/ lock w = None \/ lock w = Some session) /\ (in_critical ph' -> lock w' = Some session).
Proof.
  intros Hs Hok Hcrit. assert (Hsame : forall w2, applied_migrations w2 = applied_migrations w ->
    registry_ok w2 /\ applied_migrations w `prefix_of` applied_migrations w2).
  { intros w2 Heq. unfold registry_ok. by rewrite Heq. }
  assert (Hstop : forall t0 p run done r w1, applied_migrations w1 = applied_migrations w -> lock w = Some session ->
    stop utc_now t0 p run done r w1 = (ph', w') ->
    registry_ok w' /\ applied_migrations w `prefix_of` applied_migrations w' /\
    (lock w' = lock w \/ lock w = None \/ lock w = Some session) /\ (in_critical ph' -> lock w' = Some session)).
  { intros t0 p run done r w1 Ha Hl Hst. unfold stop in Hst.
    destruct (finish_apply _ _ _ _ _ r w1) as [res w2] eqn:Hf. injection Hst as <- <-.
    apply finish_apply_spec in Hf as [Ha2 _]. destruct (Hsame w2) as [? ?]; [congruence|].
    split_and!; [done|done|by right; right|by intros []]. }
  destruct ph as [filt|t0 p|t0 p run [|f todo] dn|t0 p run f ms todo dn|r]; cbn [session_step] in Hs; [|..|done].
  - destruct (planned_apply_spec tree filt w) as (w1 & _ & (Ha & _ & Hl & _) & Hpl). rewrite Hpl in Hs.
    destruct (Hsame w1 Ha) as [? ?].
    destruct (plan _ _ tree filt w) as [p|e]; [destruct (pl_ok p)|]; injection Hs as <- <-;
      (split_and!; [done|done|by left|by intros []]).
  - unfold acquire_lock in Hs. destruct (lock w) as [s|] eqn:Hl.
    + destruct (s =? session)%nat eqn:E; [|done]. cbn in Hs. injection Hs as <- <-.
      apply Nat.eqb_eq in E as ->. destruct (Hsame (take_run (set_runs (migration_runs w ++ [
        {| run_id := next_run w; run_mode := "apply"; run_status := RUNNING; planned_count := length (pending p);
           applied_count := 0; failed_count := 0; run_error := None |}])%list w))) as [? ?]; [done|].
      split_and!; [done|done|by left|done].
    + cbn in Hs. injection Hs as <- <-. split_and!; [apply Hok..|done|by right; left|done].
  - apply (inj Some) in Hs. by apply Hstop in Hs; [|done|apply Hcrit].
  - destruct (execute_file _ _ _ tree f w) as [[ms|e] w1] eqn:He;
      apply execute_file_spec in He as [(Ha & _ & Hl & _) _]; apply (inj Some) in Hs.
    + injection Hs as <- <-. destruct (Hsame w1 Ha) as [? ?]. split_and!; auto. intros _. rewrite Hl. by apply Hcrit.
    + by apply Hstop in Hs; [|done|apply Hcrit].
  - destruct (register _ _ f ms w) as [[[]|e] w1] eqn:Hr; apply register_spec in Hr as (_ & _ & Hl & _ & Ha);
      apply (inj Some) in Hs; [|destruct Ha as [Ha _]; by apply Hstop in Hs; [|done|apply Hcrit]].
    injection Hs as <- <-. assert (Hl' : lock w1 = Some session) by (rewrite Hl; by apply Hcrit).
    destruct Ha as [[_ Ha]|(Hn & row & Hrow & Ha)].
    + destruct (Hsame w1 Ha) as [? ?]. auto.
    + split_and!; [by eapply registry_ok_snoc|rewrite Ha; by apply prefix_app_r|auto|done].
Qed.

Lemma system_step_ok tree w0 sys sys' :
  system_step run_sql sha256_hex utc_now millis migrations_root migrator tree sys sys' ->
  system_ok w0 sys -> system_ok w0 sys'.
Proof.
  intros Hstep (Hok & Hpre & Hcrit). destruct Hstep as [i phs ph ph' w w' Hi Hs]. cbn in *.
  apply session_step_spec in Hs as (Hok' & Hpre' & Hl & Hc'); [|done|by apply Hcrit].
  split_and!; [done|by etrans|]. intros j ph2 Hj Hc2. cbn in *.
  destruct (decide (i = j)) as [<-|Hne].
  - rewrite list_lookup_insert_eq in Hj by (by eapply lookup_lt_Some). injection Hj as <-. by apply Hc'.
  - rewrite list_lookup_insert_ne in Hj by done. pose proof (Hcrit j ph2 Hj Hc2) as Hlj.
    destruct Hl as [Hl|[Hl|Hl]]; congruence.
Qed.

(** C12: however the steps of any number of migrators interleave, at most one is
    between taking the lock and giving it back, the registry holds a migration
    at most once, and what is registered stays as it is. *)
Theorem migrators_exclude tree filters w0 phs w :
  registry_ok w0 ->
  rtc (system_step run_sql sha256_hex utc_now millis migrations_root migrator tree) (map Start filters, w0) (phs, w) ->
  registry_ok w /\ applied_migrations w0 `prefix_of` applied_migrations w /\
  forall i j ph ph', phs !! i = Some ph -> phs !! j = Some ph' -> in_critical ph -> in_critical ph' -> i = j.
Proof.
  intros Hok Hsteps. assert (Hinv : system_ok w0 (phs, w)).
  { eapply (rtc_ind_r (system_ok w0)); [|intros ? ? _; apply system_step_ok|exact Hsteps].
    split_and!; [done|done|]. cbn. intros i ph Hi Hc. change (map Start filters) with (Start <$> filters) in Hi.
    rewrite list_lookup_fmap in Hi. destruct (filters !! i); [|done]. by injection Hi as <-. }
  destruct Hinv as (Hok' & Hpre & Hcrit). split_and!; [done|done|].
  intros i j ph ph' Hi Hj Hc Hc'. apply Hcrit in Hi, Hj; [|done..]. congruence.
Qed.
End PostgresFacts.

(** ** A root of two migrations, the second of which fails at first *)

Definition sample_root (second : string) : Root :=
  Directory [("auth", DirNode [("0002_b.sql", AFile second); ("0001_a.sql", AFile "CREATE a;")])].
Definition sample_command (sql : string) (d : list string) : result string unit * list string :=
  if sql =? "CREAT b;" then (Err "syntax error", d) else (Ok tt, (d ++ [sql])%list).
Definition sample_sql (sql : string) (d : list string) : result Failure unit * list string :=
  if sql =? "BEGIN; CREAT b; COMMIT;" then (Err {| failure_text := "syntax error"; in_transaction := true |}, d)
  else let '(r, d') := sample_command sql d in (map_err plain_failure r, d').
Definition sample_sha (s : string) : string := zeros (64 - String.length s) ++ String.substring 0 (String.length s) (zeros 64).
Definition sample_now (n : nat) : Z := Z.of_nat n.
Definition sample_millis (a b : Z) : Z := (b - a)%Z.
Definition sample_db : Database (list string) :=
  {| data := []; applied_migrations := []; migration_runs := []; lock := None; ticks := 0; next_run := 0 |}.

Lemma sample_root_ok second : tree_ok (sample_root second).
Proof.
  split; [apply list.NoDup_cons; split; [by intros ?%elem_of_nil|constructor]|].
  intros dom es Hin. apply list_elem_of_singleton in Hin. injection Hin as -> ->.
  unfold dict_wf. cbn. by apply (bool_decide_unpack (NoDup ["0002_b.sql"; "0001_a.sql"])).
Qed.

Lemma sample_db_ok : registry_ok sample_db /\ runs_ok sample_db.
Proof. split; [split; [constructor|by intros r ?%elem_of_nil]|by intros r ?%elem_of_nil]. Qed.

Lemma discovery_exact_witness :
  exists files, discover_migrations sample_sha "migrations" (sample_root "CREATE b;") POSTGRES None = Ok files /\
    f_migration_id <$> files = ["postgres/auth/0001_a.sql"; "postgres/auth/0002_b.sql"] /\
    StronglySorted (fun a b => key_cmp a b <> Gt) files.
Proof.
  destruct (discover_migrations sample_sha "migrations" (sample_root "CREATE b;") POSTGRES None) as [files|] eqn:E;
    [|by vm_compute in E].
  exists files. split; [done|]. split.
  - vm_compute in E. injection E as <-. reflexivity.
  - eapply discovery_exact; [|exact E]. apply sample_root_ok.
Defined.

Lemma apply_resumes_witness :
  exists r w', apply sample_sql sample_sha sample_now sample_millis "migrations" "me" 7 (sample_root "CREAT b;") None
      false sample_db = Some (r, w') /\ lock w' = None /\ r = Err (MigrationError POSTGRES "syntax error") /\
    data w' = ["CREATE a;"].
Proof.
  destruct (apply_resumes sample_sql sample_sha sample_now sample_millis "migrations" "me" 7 (sample_root "CREAT b;")
    None sample_db (sample_root_ok _) (proj1 sample_db_ok) (proj2 sample_db_ok) eq_refl)
    as (r & w' & Hrun & _ & _ & Hl & _).
  exists r, w'. split; [done|]. split; [done|].
  assert (Hr : fst <$> Some (r, w') = Some (Err (MigrationError POSTGRES "syntax error")) /\
               (data ∘ snd) <$> Some (r, w') = Some ["CREATE a;"])
    by (rewrite <- Hrun; split; vm_compute; reflexivity).
  destruct Hr as [Hr Hd]. injection Hr as ->. injection Hd as Hd. done.
Defined.

(** A migration that fails inside its own BEGIN: the statement that would log
    the failure is refused, the run stays RUNNING with nothing counted, and no
    [PostgresMigrationError] is raised. *)
Lemma aborted_run_stays_running :
  match apply sample_sql sample_sha sample_now sample_millis "migrations" "me" 7
      (sample_root "BEGIN; CREAT b; COMMIT;") None false sample_db with
  | Some (r, w') => r = Err InFailedSqlTransaction /\ length (applied_migrations w') = 1 /\
      (fun x => (run_status x, applied_count x, run_error x)) <$> migration_runs w' = [(RUNNING, 0, None)]
  | None => False
  end.
Proof. vm_compute. done. Qed.

Lemma verify_exact_witness :
  exists rep w', verify sample_sha sample_now "migrations" (sample_root "CREATE b;") None sample_db = (Ok rep, w') /\
    ok rep = false /\ data w' = [].
Proof.
  destruct (verify sample_sha sample_now "migrations" (sample_root "CREATE b;") None sample_db) as [[rep|] w'] eqn:E;
    [|by vm_compute in E].
  exists rep, w'. split; [done|]. split; [vm_compute in E; by injection E as <- <-|].
  by destruct (verify_exact sample_sha sample_now "migrations" (sample_root "CREATE b;") None sample_db rep w'
    (sample_root_ok _) (proj1 sample_db_ok) E) as [Hd _].
Defined.

(** ** Two migrators *)

Abbreviation sample_step := (session_step sample_sql sample_sha sample_now sample_millis "migrations" "me").

(** The steps of the sessions in a given order. *)
Fixpoint schedule (tree : Root) (order : list nat) (phs : list Phase) (w : Database (list string))
    : option (list Phase * Database (list string)) :=
  match order with
  | [] => Some (phs, w)
  | i :: order' =>
      ph ← phs !! i; '(ph', w') ← sample_step i tree ph w; schedule tree order' (<[i := ph']> phs) w'
  end.

Lemma schedule_steps tree order phs w phs' w' : schedule tree order phs w = Some (phs', w') ->
  rtc (system_step sample_sql sample_sha sample_now sample_millis "migrations" "me" tree) (phs, w) (phs', w').
Proof.
  revert phs w; induction order as [|i order IH]; intros phs w; cbn.
  - by intros [= <- <-].
  - destruct (phs !! i) as [ph|] eqn:Hi; [|done]. cbn.
    destruct (sample_step i tree ph w) as [[ph' w2]|] eqn:Hs; [|done]. cbn. intros H.
    eapply rtc_l; [by econstructor|]. by apply IH.
Qed.

(** Both plan before either has the lock. *)
Definition race : list nat := [0; 1; 0; 0; 0; 0; 0; 0; 1; 1; 1; 1; 1; 1].

(** The plan is made before the lock is taken and not made again after: the
    second of two migrators runs every migration a second time, and both report
    success. *)
Lemma migrations_run_twice :
  exists phs w, rtc (system_step sample_sql sample_sha sample_now sample_millis "migrations" "me" (sample_root "CREATE b;"))
      ([Start None; Start None], sample_db) (phs, w) /\
    data w = ["CREATE a;"; "CREATE b;"; "CREATE a;"; "CREATE b;"] /\
    length (applied_migrations w) = 2 /\ run_status <$> migration_runs w = [SUCCESS; SUCCESS].
Proof.
  destruct (schedule (sample_root "CREATE b;") race [Start None; Start None] sample_db) as [[phs w]|] eqn:E;
    [|by vm_compute in E].
  exists phs, w. split; [by eapply schedule_steps|]. vm_compute in E. injection E as <- <-. done.
Qed.

Lemma migrators_exclude_witness :
  exists phs w, registry_ok w /\ length phs = 2 /\ lock w = Some 0 /\
    schedule (sample_root "CREATE b;") [0; 1; 0; 0] [Start None; Start None] sample_db = Some (phs, w).
Proof.
  destruct (schedule (sample_root "CREATE b;") [0; 1; 0; 0] [Start None; Start None] sample_db) as [[phs w]|] eqn:E;
    [|by vm_compute in E].
  exists phs, w. split; [|by vm_compute in E; injection E as <- <-].
  apply (migrators_exclude sample_sql sample_sha sample_now sample_millis "migrations" "me"
    (sample_root "CREATE b;") [None; None] sample_db phs w (proj1 sample_db_ok)).
  by eapply schedule_steps.
Defined.
