(* ===== verification/MigrationsCreate.v ===== *)
(** Creating a migration: the file that [create_migration] writes is the next
    one of its domain, whatever versions the domain already has. *)
From stdpp Require Import base strings list gmap pretty numbers sorting.
From Stdlib Require Import Ascii.
From S2P Require Import Prelude PyStr Json Migrations MigrationsPostgres MigrationsProps.

(** ** Version numbers *)

Lemma zeros_digits n : str_forall is_digit (zeros n) = true /\ String.length (zeros n) = n /\ dec_value (zeros n) = 0%N.
Proof.
  assert (H : forall a, dec_acc a (zeros n) = (10 ^ N.of_nat n * a)%N).
  { induction n as [|n IH]; intros a; [cbn; lia|]. cbn [zeros dec_acc]. rewrite IH.
    rewrite Nat2N.inj_succ, N.pow_succ_r by lia. change (digit_value "0") with 0%N. lia. }
  split_and!; [clear H; by induction n as [|n IH]; [|exact IH]|clear H; by induction n as [|n IH]; [|cbn; rewrite IH]|].
  unfold dec_value. rewrite H. lia.
Qed.

Lemma zfill_digits w n : str_forall is_digit (zfill w (pretty n)) = true /\ dec_value (zfill w (pretty n)) = n /\
  (w <= String.length (zfill w (pretty n)))%nat.
Proof.
  unfold zfill. set (k := w - _). destruct (zeros_digits k) as (Hz & Hl & Hv). destruct (pretty_dec n) as [Hp Hd].
  split_and!.
  - by rewrite str_forall_app, Hz, Hp.
  - unfold dec_value in *. by rewrite dec_acc_app, Hv.
  - rewrite length_app_str, Hl. lia.
Qed.

Lemma foldl_max_le (l : list N) (a x : N) : x = a \/ x ∈ l -> (x <= foldl N.max a l)%N.
Proof.
  revert a x; induction l as [|y l IH]; intros a x; cbn.
  - intros [->|Hx]; [lia|by apply elem_of_nil in Hx].
  - assert (Ha : (N.max a y <= foldl N.max (N.max a y) l)%N) by (apply IH; by left).
    intros [->|[->|Hx]%elem_of_cons]; [lia|lia|apply IH; by right].
Qed.

(** The next version is a decimal of at least four digits above every version
    there is. *)
Lemma next_version_spec fs :
  str_forall is_digit (next_version fs) = true /\ (4 <= String.length (next_version fs))%nat /\
  (0 < dec_value (next_version fs))%N /\
  forall f, f ∈ fs -> (version_number f < dec_value (next_version fs))%N.
Proof.
  destruct fs as [|f fs]; [split_and!; [done|cbn; lia|by vm_compute|by intros f ?%elem_of_nil]|].
  unfold next_version. set (n := (_ + 1)%N). set (w := Nat.max 4 _).
  destruct (zfill_digits w n) as (Hd & Hv & Hl). rewrite Hv. split_and!; [done|lia|lia|].
  intros g Hg. assert (version_number g <= foldl N.max (version_number f) (map version_number fs))%N; [|lia].
  apply foldl_max_le. apply elem_of_cons in Hg as [->|Hg]; [by left|right].
  by apply list_elem_of_fmap_2.
Qed.

(** The name [create_migration] builds satisfies the pattern. *)
Lemma take_digits_app d c r : str_forall is_digit d = true -> is_digit c = false ->
  take_digits (d ++ String c r) = (d, String c r).
Proof.
  intros Hd Hc. induction d as [|x d IH]; cbn; [by rewrite Hc|].
  cbn in Hd. apply andb_true_iff in Hd as [-> Hd]. by rewrite IH.
Qed.

Lemma remove_suffix_app suf s : remove_suffix suf (s ++ suf) = Some s.
Proof.
  induction s as [|c s IH]; cbn [String.append remove_suffix].
  - destruct suf; cbn [remove_suffix]; by rewrite String.eqb_refl.
  - destruct (String c (s ++ suf) =? suf) eqn:E; [|by rewrite IH].
    apply String.eqb_eq in E. apply (f_equal String.length) in E. cbn in E. rewrite length_app_str in E. lia.
Qed.

Lemma pattern_built v slug : str_forall is_digit v = true -> (4 <= String.length v)%nat -> slug_word slug = true ->
  FILENAME_PATTERN (v ++ "_" ++ slug ++ ".sql") = Some v.
Proof.
  intros Hv Hl Hs. unfold FILENAME_PATTERN, re_dollar, filename_body.
  change ("_" ++ slug ++ ".sql") with (String "_" (slug ++ ".sql")). rewrite take_digits_app by done.
  apply Nat.leb_le in Hl as ->. rewrite remove_suffix_app.
  by rewrite Hs.
Qed.

(** ** Directories *)

Lemma sorted_one_domain l dom es : dict_wf l -> dict_get dom l = Some (DirNode es) ->
  filter (fun d => wanted (Some dom) d = true) (py_sorted by_name (dirs_of l)) = [(dom, es)].
Proof.
  intros Hwf Hg. set (L := py_sorted _ _).
  assert (Hin : (dom, es) ∈ L).
  { unfold L. apply elem_of_py_sorted, dirs_of_elem. by apply dict_get_Some_elem. }
  assert (Hnd : NoDup L.*1) by (unfold L; rewrite py_sorted_perm; by apply dirs_of_keys).
  clearbody L. induction L as [|[d e] L IH]; [by apply elem_of_nil in Hin|].
  revert Hnd. csimpl. rewrite list.NoDup_cons. intros [Hn Hnd].
  rewrite filter_cons. case_decide as E; cbn in E.
  - apply String.eqb_eq in E as ->.
    apply elem_of_cons in Hin as [[= ->]|Hin].
    + f_equal. apply filter_none, list.Forall_forall. intros [d' e'] Hd' [=Heq%String.eqb_eq]. cbn in Heq.
      subst d'. apply Hn. by apply (list_elem_of_fmap_2' fst _ (dom, e')).
    + exfalso. apply Hn. by apply (list_elem_of_fmap_2' fst _ (dom, es)).
  - apply IH; [|done].
    apply elem_of_cons in Hin as [[= -> ->]|Hin]; [by rewrite String.eqb_refl in E|done].
Qed.

Lemma filename_of_id sha root eng dom kv f : migration_file sha root eng dom kv = Ok f -> f_filename f = kv.1.
Proof. by intros (_ & _ & ? & _)%migration_file_spec. Qed.

Section Create.
Context (sha256_hex : string -> string).

(** Discovery of one domain reads its files. *)
Lemma discover_one root l eng dom es : dict_wf l -> dict_get dom l = Some (DirNode es) ->
  discover_migrations sha256_hex root (Directory l) eng (Some dom) =
  fs ← map_result (migration_file sha256_hex root eng dom) (py_sorted by_name (glob_sql es));
  Ok (py_sorted file_lt (concat [fs])).
Proof.
  intros Hwf Hg. unfold discover_migrations. rewrite (sorted_one_domain _ _ es) by done.
  cbn [map_result]. unfold discover_domain. cbn.
  by destruct (map_result (migration_file sha256_hex root eng dom) _).
Qed.

Lemma one_domain_elem root l eng dom es f : dict_wf l -> dict_get dom l = Some (DirNode es) ->
  in_tree sha256_hex root eng (Some dom) (Directory l) f <->
  f_domain f = dom /\ exists e, (f_filename f, e) ∈ es /\ ends_with ".sql" (f_filename f) = true /\
    migration_file sha256_hex root eng dom (f_filename f, e) = Ok f.
Proof.
  intros Hwf Hg. unfold in_tree. split.
  - intros (l' & es' & e & [= <-] & Hin & Hw & He & Hs & Hok). cbn in Hw. apply String.eqb_eq in Hw. rewrite Hw in *.
    assert (es' = es) as -> by (apply (dict_elem_get _ _ _ Hwf) in Hin; congruence). split; [done|]. by exists e.
  - intros (Hd & e & He & Hs & Hok). rewrite Hd. exists l, es, e. split_and!; try done.
    + by apply dict_get_Some_elem.
    + cbn. apply String.eqb_refl.
Qed.

Lemma mkdir_spec root eng dom tree l : tree_ok tree -> mkdir root dom tree = Ok l ->
  exists es, tree_ok (Directory l) /\ dict_get dom l = Some (DirNode es) /\
    forall f, in_tree sha256_hex root eng (Some dom) tree f <-> in_tree sha256_hex root eng (Some dom) (Directory l) f.
Proof.
  intros Ht. destruct tree as [| |l0]; cbn [mkdir]; [|done|].
  - intros [= <-]. exists []. assert (Hok : tree_ok (Directory [(dom, DirNode [])])).
    { split; [apply list.NoDup_cons; split; [by intros ?%elem_of_nil|constructor]|].
      intros d es Hin%list_elem_of_singleton. injection Hin as -> ->. constructor. }
    assert (Hg : dict_get dom [(dom, DirNode [])] = Some (DirNode [])) by (cbn; by rewrite decide_True).
    split_and!; [done|done|]. intros f. rewrite (one_domain_elem _ _ _ _ _ _ (proj1 Hok) Hg).
    split; [by intros (? & ? & ? & ? & _)|]. by intros (_ & e & He%elem_of_nil & _).
  - destruct Ht as [Hwf Hes]. destruct (dict_get dom l0) as [[|es]|] eqn:Hg; [done| |]; intros [= <-].
    + by exists es.
    + exists []. assert (Hwf' : dict_wf (dict_set dom (DirNode []) l0)) by (by apply dict_wf_set).
      assert (Hg' : dict_get dom (dict_set dom (DirNode []) l0) = Some (DirNode [])) by apply dict_get_set_eq.
      split_and!; [split; [done|]|done|].
      * intros d es [[= -> ->]|Hin]%dict_set_elem; [constructor|by eapply Hes].
      * intros f. rewrite (one_domain_elem _ _ _ _ _ _ Hwf' Hg').
        split; [|by intros (_ & e & He%elem_of_nil & _)].
        intros (l' & es & e & [= <-] & Hin & Hw & _). cbn in Hw. apply String.eqb_eq in Hw. rewrite Hw in Hin.
        apply (dict_elem_get _ _ _ Hwf) in Hin. congruence.
Qed.

(** Two migrations of a tree with the same key are the same. *)
Lemma key_eq_same root eng dom tree f g : tree_ok tree ->
  in_tree sha256_hex root eng (Some dom) tree f -> in_tree sha256_hex root eng (Some dom) tree g ->
  key_cmp f g <> Gt -> key_cmp g f <> Gt -> f = g.
Proof.
  intros Ht (l & es & e & -> & Hin & _ & He & _ & Hok) (l' & es' & e' & [= <-] & Hin' & _ & He' & _ & Hok') H1 H2.
  destruct Ht as [Hwf Hes].
  assert (Heq : key_cmp f g = Eq) by (rewrite (cmp_antisym (cmp:=key_cmp) f g) in H2; by destruct (key_cmp f g)).
  unfold key_cmp, cmp_by, cmp_pair, str_cmp in Heq. cbn in Heq.
  destruct (f_domain f ?= f_domain g)%string eqn:E1; [|done|done].
  destruct (version_number f ?= version_number g)%N; [|done|done].
  apply String.compare_eq_iff in E1. apply String.compare_eq_iff in Heq.
  rewrite E1 in Hin, Hok. rewrite Heq in He, Hok.
  assert (es' = es) as -> by (apply (dict_elem_get _ _ _ Hwf) in Hin, Hin'; congruence).
  assert (Hes' : dict_wf es) by (by eapply Hes).
  apply (dict_elem_get _ _ _ Hes') in He, He'. congruence.
Qed.

(** A file added to a domain, above its other versions, comes last. *)
Section Added.
Context (root : string) (eng : MigrationEngine) (dom name : string) (body : Entry) (l : pydict string Node)
  (es : pydict string Entry) (f : MigrationFile) (old : list MigrationFile).
Context (Hl : tree_ok (Directory l)) (Hg : dict_get dom l = Some (DirNode es)) (Hnew : dict_get name es = None)
  (Hf : migration_file sha256_hex root eng dom (name, body) = Ok f) (Hsql : ends_with ".sql" name = true)
  (Hold : discover_migrations sha256_hex root (Directory l) eng (Some dom) = Ok old)
  (Hmax : forall g, g ∈ old -> (version_number g < version_number f)%N).

Abbreviation es' := (dict_set name body es).
Abbreviation l' := (dict_set dom (DirNode es') l).

Lemma added_ok : tree_ok (Directory l').
Proof.
  destruct Hl as [Hwf Hes]. split; [by apply dict_wf_set|].
  intros d e [[= -> ->]|Hin]%dict_set_elem; [|by eapply Hes].
  apply dict_wf_set. by eapply Hes, dict_get_Some_elem.
Qed.

Lemma added_get : dict_get dom l' = Some (DirNode es').
Proof. apply dict_get_set_eq. Qed.

Lemma added_elem kv : kv ∈ es' <-> kv = (name, body) \/ kv ∈ es.
Proof.
  assert (Hes0 : dict_wf es) by (by eapply (proj2 Hl), dict_get_Some_elem).
  destruct kv as [k e]. split; [apply dict_set_elem|]. intros [[= -> ->]|Hin].
  - apply dict_get_Some_elem, dict_get_set_eq.
  - apply dict_get_Some_elem. rewrite dict_get_set_ne; [by apply dict_elem_get|].
    intros <-. apply (dict_elem_get _ _ _ Hes0) in Hin. congruence.
Qed.

Lemma added_in_tree g : in_tree sha256_hex root eng (Some dom) (Directory l') g <->
  g = f \/ in_tree sha256_hex root eng (Some dom) (Directory l) g.
Proof.
  rewrite (one_domain_elem _ _ _ _ _ _ (proj1 added_ok) added_get), (one_domain_elem _ _ _ _ _ _ (proj1 Hl) Hg).
  pose proof (migration_file_spec _ _ _ _ _ _ Hf) as (_ & Hfd & Hfn & _). cbn in Hfn.
  setoid_rewrite added_elem. split.
  - intros (Hd & e & [Heq|He] & Hs & Hok); [|by right; eauto]. rewrite Heq in Hok. left. congruence.
  - intros [->|(Hd & e & He & Hs & Hok)]; [|split; [done|]; exists e; eauto].
    split; [done|]. exists body. rewrite Hfn. split_and!; [by left|done|done].
Qed.

Lemma added_discovered : exists files, discover_migrations sha256_hex root (Directory l') eng (Some dom) = Ok files.
Proof.
  rewrite (discover_one _ _ _ _ es' (proj1 added_ok) added_get).
  destruct (map_result_total (migration_file sha256_hex root eng dom) (py_sorted by_name (glob_sql es'))) as [fs ->];
    [|cbn; eauto].
  intros kv [Hs Hin]%elem_of_py_sorted%list_elem_of_filter. apply added_elem in Hin as [->|Hin]; [eauto|].
  revert Hold. rewrite (discover_one _ _ _ _ es (proj1 Hl) Hg).
  destruct (map_result _ _) as [fs|] eqn:Hm; [|done]. intros _. apply map_result_ok in Hm.
  assert (Hk : kv ∈ py_sorted by_name (glob_sql es)) by (by apply elem_of_py_sorted, list_elem_of_filter).
  apply list_elem_of_lookup in Hk as [i Hi]. destruct (Forall2_lookup_l _ _ _ _ _ Hm Hi) as (g & _ & Hok). eauto.
Qed.

Lemma added_last : discover_migrations sha256_hex root (Directory l') eng (Some dom) = Ok (old ++ [f])%list.
Proof.
  destruct added_discovered as [files Hfiles]. rewrite Hfiles. f_equal.
  destruct (discovery_exact _ _ _ _ _ _ Hl Hold) as (Hel & Hnd & Hsort).
  destruct (discovery_exact _ _ _ _ _ _ added_ok Hfiles) as (Hel' & Hnd' & Hsort').
  assert (Hfold : f ∉ old) by (intros Hin%Hmax; lia).
  pose proof (migration_file_spec _ _ _ _ _ _ Hf) as (_ & Hfd & _).
  apply (StronglySorted_unique_strong (fun a b => key_cmp a b <> Gt)); [|done| |].
  - intros x y Hx Hy H1 H2. eapply key_eq_same; [exact added_ok|by apply Hel'| |done|done].
    apply added_in_tree. apply elem_of_app in Hy as [Hy|Hy%list_elem_of_singleton]; [right; by apply Hel|by left].
  - apply StronglySorted_app. split_and!; [|done|repeat constructor].
    intros x y Hx Hy%list_elem_of_singleton. subst y. pose proof (Hmax x Hx) as Hlt. apply Hel in Hx.
    apply (one_domain_elem _ _ _ _ _ _ (proj1 Hl) Hg) in Hx as (Hxd & _).
    unfold key_cmp, cmp_by, cmp_pair, str_cmp. cbn. rewrite Hxd, Hfd, str_compare_refl.
    apply N.compare_lt_iff in Hlt as ->. done.
  - apply NoDup_Permutation.
    + by apply NoDup_fmap_1 in Hnd'.
    + apply list.NoDup_app. split_and!; [by apply NoDup_fmap_1 in Hnd| |apply NoDup_singleton].
      intros x Hx Hxf%list_elem_of_singleton. congruence.
    + intros x. rewrite Hel', added_in_tree, elem_of_app, list_elem_of_singleton, Hel. tauto.
Qed.
End Added.

Lemma validate_slug_ok slug : slug_word slug = true -> validate_slug slug = Ok tt.
Proof. intros H. unfold validate_slug, SLUG_PATTERN, re_dollar. by rewrite H. Qed.
Lemma one_directory_not_root dom : one_directory dom = true -> root_itself dom = false.
Proof. unfold one_directory, root_itself. by destruct (str_empty dom), (dom =? "."). Qed.

(** A file whose version is above those of all the others. *)
Definition newest_of (f : MigrationFile) (old : list MigrationFile) : Prop :=
  forall g, g ∈ old -> (version_number g < version_number f)%N.

(** C36: a slug of lower-case letters, digits and underscores and a domain that
    names one directory give the next migration of that domain: when a file is
    created it has the returned path, discovery finds it after all the
    migrations the domain had, which are as they were, and its version is above
    all of theirs, in at least four digits.  When none is created, the
    migrations of the domain are as they were. *)
Theorem created_is_next root tree eng dom slug :
  tree_ok tree -> slug_word slug = true -> one_directory dom = true ->
  exists r tree', create_migration sha256_hex root tree eng dom slug = Some (r, tree') /\ tree_ok tree' /\
    match r with
    | Ok path => exists old f,
        (forall g, g ∈ old <-> in_tree sha256_hex root eng (Some dom) tree g) /\
        discover_migrations sha256_hex root tree' eng (Some dom) = Ok (old ++ [f])%list /\
        f_path f = path /\ f_domain f = dom /\ f_filename f = f_version f ++ "_" ++ slug ++ ".sql" /\
        (4 <= String.length (f_version f))%nat /\ newest_of f old
    | Err _ => forall g, in_tree sha256_hex root eng (Some dom) tree' g <-> in_tree sha256_hex root eng (Some dom) tree g
    end.
Proof.
  intros Ht Hslug Hdom. unfold create_migration.
  rewrite (validate_slug_ok slug Hslug), (one_directory_not_root dom Hdom), Hdom. unfold create_in_directory.
  destruct (mkdir root dom tree) as [l|e] eqn:Hmk; cycle 1.
  { do 2 eexists. split; [reflexivity|]. done. }
  destruct (mkdir_spec root eng dom tree l Ht Hmk) as (es & Hl & Hg & Hsame). unfold next_file, entries_of. rewrite Hg.
  destruct (discover_migrations _ root (Directory l) eng (Some dom)) as [old|e] eqn:Hold; cbn [mbind result_bind]; cycle 1.
  { do 2 eexists. split; [reflexivity|]. split; [done|]. intros g. by rewrite Hsame. }
  destruct (discovery_exact _ _ _ _ _ _ Hl Hold) as (Hel & _ & _).
  set (v := next_version old). destruct (next_version_spec old) as (Hv & Hv4 & _ & Hmax). fold v in Hv, Hv4, Hmax.
  set (name := v ++ "_" ++ slug ++ ".sql").
  destruct (bool_decide_reflect (is_Some (dict_get name es))) as [Hnew|Hnew].
  { do 2 eexists. split; [reflexivity|]. split; [done|]. intros g. by rewrite Hsame. }
  apply eq_None_not_Some in Hnew.
  assert (Hpat : FILENAME_PATTERN name = Some v) by (by apply pattern_built).
  set (text := render_template eng dom slug v name).
  set (f := {| f_engine := eng; f_domain := dom; f_filename := name; f_path := root ++ "/" ++ dom ++ "/" ++ name;
    f_version := v; f_migration_id := engine_value eng ++ "/" ++ dom ++ "/" ++ name;
    f_checksum := sha256_hex text |}).
  assert (Hf : migration_file sha256_hex root eng dom (name, AFile text) = Ok f).
  { unfold migration_file. cbn [fst snd]. by rewrite Hpat. }
  assert (Hlast : ends_with ".sql" name = true).
  { unfold name. rewrite <- !str_app_assoc. apply ends_with_app. }
  do 2 eexists. split; [reflexivity|]. split; [by apply (added_ok dom name (AFile text) l es)|].
  exists old, f. split_and!; try done.
  - intros g. by rewrite Hsame, Hel.
  - by apply (added_last root eng dom name (AFile text) l es f old).
  - unfold f. cbn [f_path]. by rewrite <- !str_app_assoc.
Qed.
End Create.

Lemma created_is_next_witness :
  exists tree' old f, create_migration sample_sha "migrations" (sample_root "CREATE b;") POSTGRES "auth" "keys" =
      Some (Ok "migrations/auth/0003_keys.sql", tree') /\
    discover_migrations sample_sha "migrations" tree' POSTGRES (Some "auth") = Ok (old ++ [f])%list /\
    f_path f = "migrations/auth/0003_keys.sql".
Proof.
  destruct (created_is_next sample_sha "migrations" (sample_root "CREATE b;") POSTGRES "auth" "keys")
    as (r & tree' & Hrun & _ & Hr); [apply sample_root_ok|done|done|].
  assert (Hp : fst <$> Some (r, tree') = Some (Ok "migrations/auth/0003_keys.sql"))
    by (rewrite <- Hrun; vm_compute; reflexivity).
  injection Hp as ->. destruct Hr as (old & f & _ & Hd & Hp & _). by exists tree', old, f.
Defined.

(** The pattern of a slug ends in [$] too: a slug that ends in a newline is
    accepted, and from then on nothing of the root is discovered. *)
Lemma newline_slug_blocks :
  exists tree' path tree2 e, create_migration sample_sha "migrations" (sample_root "CREATE b;") POSTGRES "auth" ("keys" ++ newline_str) = Some (Ok path, tree') /\
    create_migration sample_sha "migrations" tree' POSTGRES "auth" "more" = Some (Err e, tree2).
Proof. do 4 eexists. split; vm_compute; reflexivity. Qed.

(** A domain that is the root itself is accepted: the file is written next to
    the domain directories, where discovery does not look. *)
Lemma root_migration_lost :
  exists tree' path, create_migration sample_sha "migrations" (sample_root "CREATE b;") POSTGRES "." "keys" = Some (Ok path, tree') /\
    discover_migrations sample_sha "migrations" tree' POSTGRES None =
    discover_migrations sample_sha "migrations" (sample_root "CREATE b;") POSTGRES None.
Proof. do 2 eexists. split; vm_compute; reflexivity. Qed.
