(* ===== verification/MigrationsClickHouse.v ===== *)
(** The ClickHouse migrator: [clickhouse.py] of apexquant-migrations.

    A statement's effect on the rest of the database is the parameter
    [run_command].  The registry is an append-only table of
    ReplacingMergeTree(applied_at): [FINAL] shows one row for an identifier, the
    one with the greatest time, the last inserted among equals.  Inserting into
    the registry and the run log succeeds. *)
From stdpp Require Import base strings list gmap pretty numbers sorting.
From Stdlib Require Import Ascii.
From S2P Require Import Prelude PyStr Json Migrations MigrationsPostgres.

(** ** [split_sql] *)

(** [s.rstrip(";")] *)
Fixpoint rstrip_semicolons (s : string) : string :=
  match s with
  | "" => ""
  | String c s' =>
      match rstrip_semicolons s' with
      | "" => if (c =? ";")%char then "" else String c ""
      | r => String c r
      end
  end.
(** ["\n".join(current).strip().rstrip(";").strip()] *)
Definition clean (current : list string) : string := strip (rstrip_semicolons (strip (join newline_str current))).

(** [if statement: statements.append(statement)] *)
Definition keep (statement : string) (statements : list string) : list string :=
  if str_empty statement then statements else (statements ++ [statement])%list.

(** The body of the loop over the lines. *)
Definition split_line (raw_line : string) (acc : list string * list string) : list string * list string :=
  let '(statements, current) := acc in
  let stripped := strip raw_line in
  if starts_with "--" stripped then acc
  else
    let current := (current ++ [raw_line])%list in
    if ends_with ";" stripped then (keep (clean current) statements, []) else (statements, current).

Definition split_sql (sql : string) : list string :=
  let '(statements, current) := foldl (fun acc l => split_line l acc) ([], []) (splitlines sql) in
  keep (clean current) statements.

(** ** The registry *)

Record ChRow := { ch_migration : AppliedMigration; ch_applied_by : string }.
Record ChRun := {
  ch_run_id : nat; ch_status : RunStatus; ch_planned : nat; ch_applied : nat; ch_failed : nat; ch_error : string }.

(** The migrators of one host take a file lock, those with a Postgres database
    an advisory lock in it. *)
Inductive LockKind := FileLock | PostgresAdvisoryLock.
#[export] Instance lock_kind_eq_dec : EqDecision LockKind.
Proof. solve_decision. Defined.

Record ChDatabase (D : Type) := {
  ch_data : D; ch_rows : list ChRow; ch_runs : list ChRun; ch_locks : LockKind -> option nat;
  ch_ticks : nat; ch_next_run : nat }.
Arguments ch_data {D}. Arguments ch_rows {D}. Arguments ch_runs {D}. Arguments ch_locks {D}.
Arguments ch_ticks {D}. Arguments ch_next_run {D}.

Section Setters.
Context {D : Type}.
Implicit Types w : ChDatabase D.
Definition ch_set_data (x : D) w := {| ch_data := x; ch_rows := ch_rows w; ch_runs := ch_runs w;
  ch_locks := ch_locks w; ch_ticks := ch_ticks w; ch_next_run := ch_next_run w |}.
Definition ch_set_rows x w := {| ch_data := ch_data w; ch_rows := x; ch_runs := ch_runs w;
  ch_locks := ch_locks w; ch_ticks := ch_ticks w; ch_next_run := ch_next_run w |}.
Definition ch_set_runs x w := {| ch_data := ch_data w; ch_rows := ch_rows w; ch_runs := x;
  ch_locks := ch_locks w; ch_ticks := ch_ticks w; ch_next_run := ch_next_run w |}.
Definition ch_set_lock k x w := {| ch_data := ch_data w; ch_rows := ch_rows w; ch_runs := ch_runs w;
  ch_locks := fun k' => if decide (k' = k) then x else ch_locks w k'; ch_ticks := ch_ticks w;
  ch_next_run := ch_next_run w |}.
Definition ch_tick w := {| ch_data := ch_data w; ch_rows := ch_rows w; ch_runs := ch_runs w;
  ch_locks := ch_locks w; ch_ticks := S (ch_ticks w); ch_next_run := ch_next_run w |}.
Definition ch_take_run w := {| ch_data := ch_data w; ch_rows := ch_rows w; ch_runs := ch_runs w;
  ch_locks := ch_locks w; ch_ticks := ch_ticks w; ch_next_run := S (ch_next_run w) |}.
End Setters.

Section ClickHouse.
Context {D : Type}.
Variable run_command : string -> D -> result string unit * D.
Variable sha256_hex : string -> string.
Variable utc_now : nat -> Z.
Variable migrations_root : string.
Variable migrator : string.
(** [postgres_url]; an empty one counts as none. *)
Variable postgres_url : option string.

Notation DB := (ChDatabase D).

Definition ch_now {E} : st DB E Z := fun w => (Ok (utc_now (ch_ticks w)), ch_tick w).

Definition lock_kind : LockKind :=
  if str_empty (default "" postgres_url) then FileLock else PostgresAdvisoryLock.

(** [SELECT ... FINAL WHERE engine = 'clickhouse'], as the dict it is read
    into. *)
Definition final_rows (rows : list ChRow) : pydict string AppliedMigration :=
  foldl (fun acc r =>
    let m := ch_migration r in
    match dict_get (migration_id m) acc with
    | Some old => if (applied_at m <? applied_at old)%Z then acc else dict_set (migration_id m) m acc
    | None => dict_set (migration_id m) m acc
    end) [] rows.
Definition ch_get_applied (w : DB) : pydict string AppliedMigration :=
  final_rows (filter (fun r => engine (ch_migration r) = CLICKHOUSE) (ch_rows w)).

Definition ch_plan (tree : Root) (domain_filter : option string) (w : DB) : result migration_exc MigrationPlan :=
  files ← discover_migrations sha256_hex migrations_root tree CLICKHOUSE domain_filter;
  Ok (build_plan CLICKHOUSE files (ch_get_applied w)).

Definition ch_verify (tree : Root) (domain_filter : option string) : st DB migration_exc MigrationRunReport :=
  t0 ← ch_now;
  w ← get_state;
  p ← lift (ch_plan tree domain_filter w);
  t1 ← ch_now;
  mret {| rp_engine := CLICKHOUSE; mode := "verify"; started_at := t0; completed_at := t1;
          ok := pl_ok p && bool_decide (pending p = []);
          planned := length (pending p); applied := 0; skipped := length (pending p);
          failed := length (drift p);
          details := ((if bool_decide (drift p = []) then [] else [DriftDetail (drift p)]) ++
                      (if bool_decide (pending p = []) then []
                       else [PendingDetail (map f_migration_id (pending p))]))%list |}.

(** ** Applying *)

(** [client.command(statement)] *)
Definition command (statement : string) : st DB string unit := fun w =>
  let '(r, d) := run_command statement (ch_data w) in (r, ch_set_data d w).

Definition ch_execute (tree : Root) (f : MigrationFile) : st DB string unit :=
  sql ← lift (map_err os_message (read_text tree f));
  for_each command (split_sql sql).

Definition ch_row (f : MigrationFile) (t : Z) : ChRow :=
  {| ch_migration := {| migration_id := f_migration_id f; engine := CLICKHOUSE; domain := f_domain f;
       version := f_version f; filename := f_filename f; checksum_sha256 := f_checksum f; applied_at := t |};
     ch_applied_by := migrator |}.
Definition ch_register (f : MigrationFile) : st DB string unit :=
  t ← ch_now; w ← get_state; put_state (ch_set_rows (ch_rows w ++ [ch_row f t])%list w).

Fixpoint ch_apply_files (tree : Root) (todo : list MigrationFile) (done : list Detail) (w : DB)
    : list Detail * result string unit * DB :=
  match todo with
  | [] => (done, Ok tt, w)
  | f :: todo' =>
      match (ch_execute tree f ≫= fun _ => ch_register f) w with
      | (Err e, w1) => (done, Err e, w1)
      | (Ok _, w1) => ch_apply_files tree todo' (done ++ [AppliedOne (f_migration_id f) None]) w1
      end
  end.

Definition insert_ch_run (id : nat) (s : RunStatus) (count applied fails : nat) (err : string) (w : DB) : DB :=
  ch_set_runs (ch_runs w ++ [{| ch_run_id := id; ch_status := s; ch_planned := count; ch_applied := applied;
                                ch_failed := fails; ch_error := err |}])%list w.

(** The [try] block with its handler and [finally]: the run is logged, then the
    lock released. *)
Definition ch_locked_apply (tree : Root) (t0 : Z) (p : MigrationPlan) (w : DB)
    : result migration_exc MigrationRunReport * DB :=
  let run := ch_next_run w in
  let '(done, r, w1) := ch_apply_files tree (pending p) [] (ch_take_run w) in
  match r with
  | Ok _ =>
      let w2 := insert_ch_run run SUCCESS (length (pending p)) (length done) 0 "" (ch_tick w1) in
      (Ok {| rp_engine := CLICKHOUSE; mode := "apply"; started_at := t0; completed_at := utc_now (ch_ticks w2);
             ok := true; planned := length (pending p); applied := length done; skipped := 0; failed := 0;
             details := done |}, ch_set_lock lock_kind None (ch_tick w2))
  | Err m =>
      let w2 := insert_ch_run run FAILED (length (pending p)) (length done) 1 m (ch_tick w1) in
      (Err (MigrationError CLICKHOUSE m), ch_set_lock lock_kind None w2)
  end.

(** [lock.acquire()] *)
Definition ch_acquire (session : nat) (w : DB) : option DB :=
  match ch_locks w lock_kind with
  | None => Some (ch_set_lock lock_kind (Some session) w)
  | Some _ => None
  end.

Definition ch_apply (session : nat) (tree : Root) (domain_filter : option string) (dry_run : bool) (w : DB)
    : option (result migration_exc MigrationRunReport * DB) :=
  let t0 := utc_now (ch_ticks w) in
  let w1 := ch_tick w in
  match ch_plan tree domain_filter w1 with
  | Err e => Some (Err e, w1)
  | Ok p =>
      if negb (pl_ok p) then Some (Err (DriftError CLICKHOUSE (drift p)), w1)
      else if dry_run then
        Some ((t1 ← ch_now;
               mret {| rp_engine := CLICKHOUSE; mode := "dry-run"; started_at := t0; completed_at := t1; ok := true;
                       planned := length (pending p); applied := 0; skipped := length (pending p); failed := 0;
                       details := map (fun f => PendingOne (f_migration_id f)) (pending p) |}) w1)
      else w2 ← ch_acquire session w1; Some (ch_locked_apply tree t0 p w2)
  end.
End ClickHouse.

(** ** Properties of [split_sql] *)

(** A script: statements over several lines, each closed by [;] and a newline,
    and comment lines. *)
Inductive Item := Comment (line : string) | Statement (lines : list string) (last : string).

Definition body (lines : list string) (last : string) : string := join newline_str (lines ++ [last])%list.

Definition item_ok (i : Item) : Prop :=
  match i with
  | Comment l => one_line l /\ starts_with "--" (strip l) = true
  | Statement ls last =>
      Forall (fun l => one_line l /\ starts_with "--" (strip l) = false /\ ends_with ";" (strip l) = false) ls /\
      one_line last /\ starts_with "--" (strip (last ++ ";")) = false /\
      body ls last <> "" /\ strip (body ls last) = body ls last /\ rstrip_semicolons (body ls last) = body ls last
  end.

Definition item_lines (i : Item) : list string :=
  match i with Comment l => [l] | Statement ls last => (ls ++ [(last ++ ";")%string])%list end.
Definition item_statements (i : Item) : list string :=
  match i with Comment _ => [] | Statement ls last => [body ls last] end.
(** Every line ends in a newline. *)
Definition text_of (lines : list string) : string := foldr (fun l s => l ++ String newline s) "" lines.

Lemma splitlines_text lines : Forall one_line lines -> splitlines (text_of lines) = lines.
Proof. induction 1 as [|l ls Hl _ IH]; [done|]. cbn [text_of foldr]. rewrite splitlines_line by done. by f_equal. Qed.

Lemma rstrip_semicolons_snoc s : rstrip_semicolons (s ++ ";") = rstrip_semicolons s.
Proof.
  induction s as [|c s IH]; [done|]. cbn [String.append rstrip_semicolons]. by rewrite IH.
Qed.

Lemma join_snoc_app ls last : join newline_str (ls ++ [(last ++ ";")%string])%list = body ls last ++ ";".
Proof.
  unfold body. induction ls as [|l ls IH]; [done|].
  cbn [app]. destruct ls as [|l' ls]; cbn [app] in *.
  - cbn [join]. by rewrite !str_app_assoc.
  - rewrite !join_cons, IH, !str_app_assoc. done.
Qed.

Lemma clean_statement ls last : item_ok (Statement ls last) -> clean (ls ++ [(last ++ ";")%string])%list = body ls last.
Proof.
  intros (_ & _ & _ & Hne & Hs & Hr). unfold clean. rewrite join_snoc_app, strip_snoc by done.
  by rewrite rstrip_semicolons_snoc, Hr.
Qed.

Lemma ends_with_semicolon_strip l : ends_with ";" (strip (l ++ ";")) = true.
Proof.
  assert (H : forall s, ends_with ";" (s ++ ";") = true).
  { intros s. induction s as [|c s IH]; [done|]. cbn [String.append ends_with]. by rewrite IH, orb_true_r. }
  induction l as [|c l IH]; [done|]. unfold strip in *. cbn [String.append lstrip].
  destruct (is_space c); [exact IH|].
  change (rstrip (String c l ++ String ";" "")) with (rstrip (String c l ++ ";")).
  assert (rstrip (String c (l ++ ";")) = String c (l ++ ";")) as -> by (by apply (rstrip_last (String c l))).
  apply (H (String c l)).
Qed.

(** Lines inside a statement pile up. *)
Lemma split_middle ls stmts cur :
  Forall (fun l => one_line l /\ starts_with "--" (strip l) = false /\ ends_with ";" (strip l) = false) ls ->
  foldl (fun acc l => split_line l acc) (stmts, cur) ls = (stmts, (cur ++ ls)%list).
Proof.
  intros Hls. revert cur; induction Hls as [|l ls (_ & Hc & Hs) _ IH]; intros cur; cbn [foldl];
    [by rewrite app_nil_r|].
  unfold split_line at 2. rewrite Hc, Hs, IH. by rewrite <- app_assoc.
Qed.

Lemma split_item i stmts : item_ok i ->
  foldl (fun acc l => split_line l acc) (stmts, []) (item_lines i) = ((stmts ++ item_statements i)%list, []).
Proof.
  destruct i as [l|ls last]; cbn [item_lines item_statements].
  - intros [_ Hc]. cbn. rewrite Hc. by rewrite app_nil_r.
  - intros Hok. pose proof (clean_statement ls last Hok) as Hclean. destruct Hok as (Hls & _ & Hlast & Hne & _).
    rewrite foldl_app, split_middle by done. cbn [foldl app]. unfold split_line. rewrite Hlast, ends_with_semicolon_strip, Hclean.
    unfold keep. by destruct (body ls last).
Qed.

Lemma one_line_semicolon l : one_line l -> one_line (l ++ ";").
Proof. unfold one_line. intros H. by rewrite str_forall_app, H. Qed.

(** A script of statements that end in [;] at the end of a line, over as
    many lines as they like, with comment lines between them, is split into
    exactly those statements, in order and unchanged. *)
Theorem split_sql_statements items : Forall item_ok items ->
  split_sql (text_of (concat (map item_lines items))) = concat (map item_statements items).
Proof.
  intros Hok. unfold split_sql. rewrite splitlines_text; cycle 1.
  { induction Hok as [|i items Hi _ IH]; [constructor|]. cbn. apply Forall_app. split; [|done].
    destruct i as [l|ls last]; cbn in *; [by repeat constructor; apply Hi|].
    destruct Hi as (Hls & Hl & _). apply Forall_app. split.
    - eapply list.Forall_impl; [exact Hls|]. by intros l (? & _).
    - constructor; [by apply one_line_semicolon|constructor]. }
  assert (H : forall stmts, foldl (fun acc l => split_line l acc) (stmts, []) (concat (map item_lines items)) =
    ((stmts ++ concat (map item_statements items))%list, [])).
  { induction Hok as [|i items Hi _ IH]; intros stmts; cbn [map concat foldl]; [by rewrite app_nil_r|].
    by rewrite foldl_app, split_item, IH, <- app_assoc. }
  by rewrite H.
Qed.

Definition sample_items : list Item :=
  [Comment "-- tables"; Statement ["CREATE TABLE t (x UInt32)"; "  ENGINE = MergeTree"] "  ORDER BY x";
   Statement [] "SELECT 1"].

Lemma split_sql_statements_witness :
  Forall item_ok sample_items /\ length (split_sql (text_of (concat (map item_lines sample_items)))) = 2.
Proof.
  assert (Hok : Forall item_ok sample_items).
  { repeat constructor; vm_compute; discriminate. }
  split; [exact Hok|]. by rewrite (split_sql_statements sample_items Hok).
Defined.

(** A line of a text literal that looks like a comment is dropped, and a
    semicolon at the end of one of its lines cuts the statement. *)
Lemma split_sql_breaks_literals :
  split_sql ("INSERT INTO t VALUES ('a" ++ newline_str ++ "-- b" ++ newline_str ++ "c;" ++ newline_str ++ "d');") =
  ["INSERT INTO t VALUES ('a" ++ newline_str ++ "c"; "d')"].
Proof. reflexivity. Qed.
