(* ===== verification/MigrationsClickHouseProps.v ===== *)
(** What one run of the ClickHouse migrator applies and where the next one
    resumes. *)
From stdpp Require Import base strings list gmap pretty numbers sorting.
From Stdlib Require Import Ascii.
From S2P Require Import Prelude PyStr Json Migrations MigrationsPostgres MigrationsProps MigrationsClickHouse.

Definition ch_id (r : ChRow) : string := migration_id (ch_migration r).
Definition ch_registry_ok {D} (w : ChDatabase D) : Prop :=
  forall r, r ∈ ch_rows w -> engine (ch_migration r) = CLICKHOUSE.

(** The step of [final_rows]. *)
Definition final_step (acc : pydict string AppliedMigration) (r : ChRow) : pydict string AppliedMigration :=
  let m := ch_migration r in
  match dict_get (migration_id m) acc with
  | Some old => if (applied_at m <? applied_at old)%Z then acc else dict_set (migration_id m) m acc
  | None => dict_set (migration_id m) m acc
  end.

Lemma final_step_other acc r id : ch_id r <> id -> dict_get id (final_step acc r) = dict_get id acc.
Proof.
  unfold final_step, ch_id. intros Hne. destruct (dict_get _ acc); [case_match|]; rewrite ?dict_get_set_ne by done; done.
Qed.

(** An identifier is in the record when some row has it. *)
Lemma final_step_None acc r id : dict_get id (final_step acc r) = None <-> dict_get id acc = None /\ ch_id r <> id.
Proof.
  destruct (decide (ch_id r = id)) as [<-|Hne].
  - unfold final_step, ch_id. destruct (dict_get _ acc) eqn:E; [case_match|]; rewrite ?dict_get_set_eq; naive_solver.
  - rewrite final_step_other by done. tauto.
Qed.

Lemma final_fold_None rows acc id :
  dict_get id (foldl final_step acc rows) = None <-> dict_get id acc = None /\ id ∉ ch_id <$> rows.
Proof.
  revert acc; induction rows as [|r rows IH]; intros acc; csimpl.
  - split; [|tauto]. intros H. split; [done|]. apply not_elem_of_nil.
  - rewrite IH, final_step_None, not_elem_of_cons. naive_solver.
Qed.

Lemma final_fold_other rows acc id : id ∉ ch_id <$> rows -> dict_get id (foldl final_step acc rows) = dict_get id acc.
Proof.
  revert acc; induction rows as [|r rows IH]; intros acc; csimpl; [done|].
  rewrite not_elem_of_cons. intros [Hr Hn]. rewrite IH by done. by apply final_step_other.
Qed.

Lemma final_fold_new rows acc r : NoDup (ch_id <$> rows) -> r ∈ rows -> dict_get (ch_id r) acc = None ->
  dict_get (ch_id r) (foldl final_step acc rows) = Some (ch_migration r).
Proof.
  revert acc; induction rows as [|r' rows IH]; intros acc; csimpl; [by intros _ ?%elem_of_nil|].
  rewrite list.NoDup_cons. intros [Hn Hnd] [<-|Hr]%elem_of_cons Hacc.
  - rewrite final_fold_other by done. unfold final_step, ch_id in *. rewrite Hacc. apply dict_get_set_eq.
  - apply IH; [done|done|]. apply final_step_None. split; [done|]. intros Heq. apply Hn. rewrite Heq.
    by apply (list_elem_of_fmap_2 ch_id).
Qed.

Lemma ch_get_applied_fold {D} (w : ChDatabase D) : ch_registry_ok w ->
  ch_get_applied w = foldl final_step [] (ch_rows w).
Proof.
  intros Hok. unfold ch_get_applied. rewrite filter_all; [done|]. by apply list.Forall_forall.
Qed.

Section ClickHouseFacts.
Context {D : Type} (run_command : string -> D -> result string unit * D) (sha256_hex : string -> string)
  (utc_now : nat -> Z) (migrations_root migrator : string) (postgres_url : option string).
Implicit Types w : ChDatabase D.

(** The statements of a script, one after the other, as far as they succeed. *)
Fixpoint run_statements (l : list string) (d : D) : result string unit * D :=
  match l with
  | [] => (Ok tt, d)
  | s :: l' => match run_command s d with (Ok _, d') => run_statements l' d' | (Err e, d') => (Err e, d') end
  end.
Definition run_script (sql : string) (d : D) : result Failure unit * D :=
  let '(r, d') := run_statements (split_sql sql) d in (map_err plain_failure r, d').

Definition ch_same w w' : Prop :=
  ch_rows w' = ch_rows w /\ ch_runs w' = ch_runs w /\ ch_next_run w' = ch_next_run w.

Lemma commands_spec l w r w' : for_each (command run_command) l w = (r, w') ->
  ch_same w w' /\ run_statements l (ch_data w) = (r, ch_data w').
Proof.
  revert w; induction l as [|s l IH]; intros w; cbn [for_each run_statements].
  - by intros [= <- <-].
  - unfold mbind at 1, st_bind at 1, command. destruct (run_command s (ch_data w)) as [[[]|e] d].
    + intros H. apply IH in H as [(Hr & Hs & Hn) Hd]. split; [split_and!; [by rewrite Hr|by rewrite Hs|by rewrite Hn]|exact Hd].
    + by intros [= <- <-].
Qed.

(** A file: its statements run and the row is inserted, or something failed and
    the registry is as it was. *)
Lemma ch_file_spec tree f w r w' :
  (ch_execute run_command tree f ≫= fun _ => ch_register utc_now migrator f) w = (r, w') ->
  ch_runs w' = ch_runs w /\ ch_next_run w' = ch_next_run w /\
  match r with
  | Ok _ => (exists sql, read_text tree f = Ok sql /\ run_script sql (ch_data w) = (Ok tt, ch_data w')) /\
            exists t, ch_rows w' = (ch_rows w ++ [ch_row migrator f t])%list
  | Err m => ch_rows w' = ch_rows w /\ attempted run_script tree f (plain_failure m) (ch_data w) (ch_data w')
  end.
Proof.
  intros H. st_inv H as u w1 He; cycle 1.
  - unfold ch_execute in He. st_inv He as sql w2 Hr.
    + unfold lift in Hr. injection Hr as Hr <-. apply commands_spec in He as [(? & ? & ?) Hd]. split_and!; try done.
      right. destruct (read_text tree f) as [sql'|]; [|done]. injection Hr as ->. exists sql. split; [done|].
      left. unfold run_script. by rewrite Hd.
    + unfold lift in Hr. injection Hr as Hr <-. split_and!; try done. left.
      destruct (read_text tree f) as [|x]; [done|]. injection Hr as <-. by exists x.
  - unfold ch_execute in He. st_inv He as sql w2 Hr. unfold lift in Hr. injection Hr as Hr <-.
    destruct (read_text tree f) as [sql'|]; [|done]. injection Hr as ->.
    apply commands_spec in He as [(Hrows & Hruns & Hnx) Hd]. destruct u.
    unfold ch_register, ch_now in H. cbv [mbind st_bind get_state put_state ch_tick ch_set_rows] in H. cbn in H.
    injection H as <- <-. cbn. split_and!; try done; [exists sql; split; [done|]; unfold run_script; by rewrite Hd|]. eexists. by rewrite Hrows.
Qed.

(** A row that records a file with the checksum it has. *)
Definition ch_registers (f : MigrationFile) (r : ChRow) : Prop :=
  ch_id r = f_migration_id f /\ engine (ch_migration r) = CLICKHOUSE /\ checksum_sha256 (ch_migration r) = f_checksum f.

Lemma ch_apply_files_spec tree todo dn w dn' r w' :
  ch_apply_files run_command utc_now migrator tree todo dn w = (dn', r, w') ->
  exists ran rest rows d, todo = (ran ++ rest)%list /\ ch_rows w' = (ch_rows w ++ rows)%list /\
    Forall2 ch_registers ran rows /\ ch_runs w' = ch_runs w /\ ch_next_run w' = ch_next_run w /\
    length dn' = (length dn + length ran)%nat /\ executed run_script tree ran (ch_data w) d /\
    match r with
    | Ok _ => rest = [] /\ ch_data w' = d
    | Err m => exists f rest', rest = f :: rest' /\ attempted run_script tree f (plain_failure m) d (ch_data w')
    end.
Proof.
  revert dn w; induction todo as [|f todo IH]; intros dn w; cbn [ch_apply_files].
  - intros [= <- <- <-]. exists [], [], [], (ch_data w). rewrite (app_nil_r (ch_rows w)).
    split_and!; try done; try (cbn; lia); constructor.
  - destruct ((ch_execute run_command tree f ≫= fun _ => ch_register utc_now migrator f) w) as [[u|e] w1] eqn:He; apply ch_file_spec in He as (Hruns & Hnx & He).
    + destruct He as ((sql & Hsql & Hd) & t & Hrows). intros H. apply IH in H.
      destruct H as (ran & rest & rows & d & -> & Hr' & Hf & Hruns' & Hnx' & Hlen & Hex & Hres).
      exists (f :: ran), rest, (ch_row migrator f t :: rows), d. rewrite Hr', Hrows, <- app_assoc.
      rewrite Hlen, length_app.
      split_and!; [done|done|by constructor|congruence..|cbn; lia|by econstructor|done].
    + destruct He as [Hrows Hatt]. intros [= <- <- <-].
      exists [], (f :: todo), [], (ch_data w). rewrite Hrows, (app_nil_r (ch_rows w)).
      split_and!; [done|done|constructor|done|done|cbn; lia|constructor|eauto].
Qed.

(** How a run is logged and reported. *)
Definition ch_ends (p : MigrationPlan) (id n : nat) (err : option string)
    (r : result migration_exc MigrationRunReport) (run : ChRun) : Prop :=
  ch_planned run = length (pending p) /\ ch_applied run = n /\ ch_run_id run = id /\
  match err with
  | None => exists rep, r = Ok rep /\ ok rep = true /\ applied rep = n /\ ch_status run = SUCCESS /\ ch_failed run = 0
  | Some m => r = Err (MigrationError CLICKHOUSE m) /\ ch_status run = FAILED /\ ch_failed run = 1 /\ ch_error run = m
  end.

Lemma registers_new ran rows acc : Forall2 ch_registers ran rows -> NoDup (f_migration_id <$> ran) ->
  (forall f, f ∈ ran -> dict_get (f_migration_id f) acc = None) ->
  forall f, f ∈ ran -> exists m, dict_get (f_migration_id f) (foldl final_step acc rows) = Some m /\
                                 checksum_sha256 m = f_checksum f.
Proof.
  intros Hrows Hnd Hacc f Hf. assert (Hids : ch_id <$> rows = f_migration_id <$> ran).
  { clear Hnd Hacc Hf. induction Hrows as [|g r ran rows (Hid & _) _ IH]; [done|]. csimpl. by rewrite Hid, IH. }
  pose proof Hf as (i & Hi)%list_elem_of_lookup. destruct (Forall2_lookup_l _ _ _ _ _ Hrows Hi) as (r & Hr & Hid & _ & Hc).
  exists (ch_migration r). split; [|done]. rewrite <- Hid. apply final_fold_new.
  - by rewrite Hids.
  - by eapply list_elem_of_lookup_2.
  - rewrite Hid. by apply Hacc.
Qed.

(** The ClickHouse run, with its lock free: exactly the pending files before
    the first that fails have run to the end and are recorded with their
    checksums; the lock is released, the run logged with its count, and the
    next plan starts at the file that failed, whose earlier statements may have
    run. *)
Theorem ch_apply_resumes session tree filt w p :
  tree_ok tree -> ch_registry_ok w -> ch_locks w (lock_kind postgres_url) = None ->
  ch_plan sha256_hex migrations_root tree filt w = Ok p -> pl_ok p = true ->
  exists r w' ran rest rows d p' run err,
    ch_apply run_command sha256_hex utc_now migrations_root migrator postgres_url session tree filt false w = Some (r, w') /\
    ch_registry_ok w' /\ ch_locks w' (lock_kind postgres_url) = None /\
    pending p = (ran ++ rest)%list /\ executed run_script tree ran (ch_data w) d /\
    ch_rows w' = (ch_rows w ++ rows)%list /\ Forall2 ch_registers ran rows /\
    ch_plan sha256_hex migrations_root tree filt w' = Ok p' /\ pending p' = rest /\ pl_ok p' = true /\
    ch_runs w' = (ch_runs w ++ [run])%list /\ ch_ends p (ch_next_run w) (length ran) err r run /\
    match err with
    | None => rest = [] /\ ch_data w' = d
    | Some m => exists f rest', rest = f :: rest' /\ attempted run_script tree f (plain_failure m) d (ch_data w')
    end.
Proof.
  intros Ht Hok Hlock Hp Hpl.
  assert (Hp1 : ch_plan sha256_hex migrations_root tree filt (ch_tick w) = Ok p) by exact Hp.
  unfold ch_apply. rewrite Hp1, Hpl. cbn [negb]. unfold ch_acquire. cbn [ch_locks ch_tick]. rewrite Hlock.
  cbn [mbind option_bind]. unfold ch_locked_apply.
  destruct (ch_apply_files _ _ _ tree (pending p) [] _) as [[dn res] w1] eqn:Happ.
  apply ch_apply_files_spec in Happ as (ran & rest & rows & d & Hpend & Hrows' & Hrows & Hruns & Hnx & Hlen & Hex & Hres).
  cbn in Hrows', Hruns, Hnx, Hlen, Hex.
  unfold ch_plan in Hp. destruct (discover_migrations _ _ _ _ _) as [files|] eqn:Hd; [|done]. injection Hp as <-.
  destruct (discovery_exact _ _ _ _ _ _ Ht Hd) as (_ & Hnd & _).
  assert (Hfresh : forall f, f ∈ ran -> f ∈ files /\ dict_get (f_migration_id f) (ch_get_applied w) = None).
  { intros f Hf. apply (pending_elem CLICKHOUSE). rewrite Hpend. apply elem_of_app. by left. }
  assert (Hndr : NoDup (f_migration_id <$> ran)).
  { assert (Hall : NoDup (f_migration_id <$> (ran ++ rest)%list)) by (rewrite <- Hpend; by apply NoDup_fmap_filter).
    rewrite fmap_app in Hall. by apply list.NoDup_app in Hall as (? & _). }
  assert (Hok' : forall w', ch_rows w' = (ch_rows w ++ rows)%list -> ch_registry_ok w').
  { intros w' Hw r. rewrite Hw. intros [Hr|Hr]%elem_of_app; [by apply Hok|].
    apply list_elem_of_lookup in Hr as [i Hi]. by destruct (Forall2_lookup_r _ _ _ _ _ Hrows Hi) as (f & _ & _ & He & _). }
  assert (Hreplan : forall w', ch_rows w' = (ch_rows w ++ rows)%list ->
    pending (build_plan CLICKHOUSE files (ch_get_applied w')) = rest /\
    pl_ok (build_plan CLICKHOUSE files (ch_get_applied w')) = true).
  { intros w' Hw. rewrite (ch_get_applied_fold w) in Hpl, Hpend, Hfresh by done.
    rewrite (ch_get_applied_fold w'), Hw, foldl_app by (by apply Hok').
    eapply rebuild_plan; [done|exact Hpl|exact Hpend|..].
    - by apply registers_new; [|done|apply Hfresh].
    - intros f Hf Hn. apply final_fold_other. intros (r & Heq & Hr)%list_elem_of_fmap. apply Hn.
      apply list_elem_of_lookup in Hr as [i Hi]. destruct (Forall2_lookup_r _ _ _ _ _ Hrows Hi) as (g & Hg & Hid & _).
      rewrite Heq, Hid. apply list_elem_of_fmap_2. by eapply list_elem_of_lookup_2. }
  unfold ch_plan. rewrite Hd.
  destruct res as [u|m]; do 2 eexists; exists ran, rest, rows, d; do 2 eexists; [exists None|exists (Some m)];
    (split; [reflexivity|]); (split; [apply Hok', Hrows'|]);
    (split; [cbn; by rewrite decide_True|]); (split_and!; [done|done|exact Hrows'|done|reflexivity|..]);
    try (by apply Hreplan); try (cbn; by rewrite Hruns); try apply Hres; try done; unfold ch_ends; cbn; rewrite ?Hlen, ?Hnx; eauto 10.
Qed.
End ClickHouseFacts.

Lemma ch_apply_resumes_witness :
  exists r w', ch_apply sample_command sample_sha sample_now "migrations" "me" None 7 (sample_root "CREATE b;") None false
    {| ch_data := []; ch_rows := []; ch_runs := []; ch_locks := fun _ => None; ch_ticks := 0; ch_next_run := 0 |} =
      Some (r, w') /\ ch_locks w' FileLock = None /\ ch_data w' = ["CREATE a"; "CREATE b"].
Proof.
  set (w0 := {| ch_data := []; ch_rows := []; ch_runs := []; ch_locks := fun _ => None; ch_ticks := 0; ch_next_run := 0 |}).
  destruct (ch_plan sample_sha "migrations" (sample_root "CREATE b;") None w0) as [p|] eqn:Hp; [|by vm_compute in Hp].
  destruct (ch_apply_resumes sample_command sample_sha sample_now "migrations" "me" None 7 (sample_root "CREATE b;") None w0 p)
    as (r & w' & ran & rest & rows & d & p' & run & err & Hrun & _ & Hl & _).
  - apply sample_root_ok.
  - by intros r ?%elem_of_nil.
  - done.
  - done.
  - vm_compute in Hp. injection Hp as <-. reflexivity.
  - exists r, w'. split; [done|]. split; [done|].
    assert (Hd : (ch_data ∘ snd) <$> Some (r, w') = Some ["CREATE a"; "CREATE b"])
      by (rewrite <- Hrun; vm_compute; reflexivity).
    by injection Hd.
Defined.
