(* ===== verification/PyUrl.v ===== *)
(** What the sources use of [urllib.parse]: [urlparse], the parts of a network
    location, [urlunparse], on ASCII text. *)
From stdpp Require Import base strings list gmap sorting numbers pretty.
From Stdlib Require Import Ascii.
From S2P Require Import Prelude PyStr Json PyPath.

#[local] Open Scope string_scope.

Record ParseResult := {
  scheme : string; netloc : string; path : string; params : string; query : string; fragment : string }.

(** ** Cutting strings *)

(** [s.partition(c)], and whether [c] was found *)
Definition partition (c : ascii) (s : string) : string * bool * string :=
  match split_first c s with Some (a, b) => (a, true, b) | None => (s, false, "") end.

(** [s.rpartition(c)] *)
Fixpoint split_last (c : ascii) (s : string) : option (string * string) :=
  match s with
  | "" => None
  | String x s' =>
      match split_last c s' with
      | Some (a, b) => Some (String x a, b)
      | None => if (x =? c)%char then Some ("", s') else None
      end
  end.
Definition rpartition (c : ascii) (s : string) : string * bool * string :=
  match split_last c s with Some (a, b) => (a, true, b) | None => ("", false, s) end.

(** The longest prefix whose characters satisfy [p], and the rest. *)
Fixpoint span (p : ascii -> bool) (s : string) : string * string :=
  match s with
  | "" => ("", "")
  | String x s' => if p x then let '(a, b) := span p s' in (String x a, b) else ("", s)
  end.

Definition is_alpha (c : ascii) : bool := is_upper c || is_lower c.
Definition scheme_char (c : ascii) : bool := is_alnum c || char_in c "+-.".

(** Blanks and control characters at the start, tabs and line ends anywhere *)
Fixpoint lstrip_c0 (s : string) : string :=
  match s with String c s' => if between 0 32 c then lstrip_c0 s' else s | "" => "" end.
Definition unsafe_url_char (c : ascii) : bool := between 9 10 c || (c =? "013")%char.
Fixpoint drop_chars (p : ascii -> bool) (s : string) : string :=
  match s with "" => "" | String c s' => if p c then drop_chars p s' else String c (drop_chars p s') end.

(** The scheme, lower-cased, when the text before the first colon is one. *)
Definition split_scheme (url : string) : string * string :=
  match split_first ":" url with
  | Some (String c s, rest) =>
      if is_alpha c && str_forall scheme_char (String c s) then (str_lower (String c s), rest) else ("", url)
  | _ => ("", url)
  end.

Definition netloc_char (c : ascii) : bool := negb (char_in c "/?#").

(** [uses_params] *)
Definition uses_params : list string :=
  [""; "ftp"; "hdl"; "prospero"; "http"; "https"; "shttp"; "rtsp"; "rtsps"; "sip"; "sips"; "mms"; "sftp"; "tel"].

(** [_splitparams]: the parameters of the last segment *)
Definition split_params (url : string) : string * string :=
  match split_last "/" url with
  | Some (dir, file) =>
      match split_first ";" file with Some (a, b) => (dir ++ "/" ++ a, b) | None => (url, "") end
  | None => match split_first ";" url with Some (a, b) => (a, b) | None => (url, "") end
  end.

(** [urlparse(value)].  Of the checks of a bracketed host only the balance of the
    brackets is made. *)
Definition urlparse (value : string) : result string ParseResult :=
  let '(sch, url) := split_scheme (drop_chars unsafe_url_char (lstrip_c0 value)) in
  let '(loc, url) :=
    match url with
    | String "/" (String "/" rest) => span netloc_char rest
    | _ => ("", url)
    end in
  if xorb (char_in "[" loc) (char_in "]" loc) then Err "Invalid IPv6 URL"
  else
    let '(url, _, frag) := partition "#" url in
    let '(url, _, q) := partition "?" url in
    let '(url, par) := if bool_decide (sch ∈ uses_params) && char_in ";" url then split_params url else (url, "") in
    Ok {| scheme := sch; netloc := loc; path := url; params := par; query := q; fragment := frag |}.

(** ** The parts of a network location *)

Definition password (r : ParseResult) : option string :=
  match rpartition "@" (netloc r) with
  | (info, true, _) => match partition ":" info with (_, true, pw) => Some pw | _ => None end
  | _ => None
  end.
Definition username (r : ParseResult) : option string :=
  match rpartition "@" (netloc r) with
  | (info, true, _) => Some (partition ":" info).1.1
  | _ => None
  end.

Definition hostinfo (r : ParseResult) : string * option string :=
  let host := (rpartition "@" (netloc r)).2 in
  let '(name, port) :=
    match partition "[" host with
    | (_, true, bracketed) => let '(name, _, rest) := partition "]" bracketed in (name, (partition ":" rest).2)
    | _ => let '(name, _, port) := partition ":" host in (name, port)
    end in
  (name, if str_empty port then None else Some port).

Definition hostname (r : ParseResult) : option string :=
  let '(name, _) := hostinfo r in
  if str_empty name then None
  else let '(h, found, zone) := partition "%" name in
       Some (if found : bool then str_lower h ++ "%" ++ zone else str_lower h).

Definition port (r : ParseResult) : result string (option N) :=
  match (hostinfo r).2 with
  | None => Ok None
  | Some p =>
      if negb (str_forall is_digit p)
      then Err ("Port could not be cast to integer value as " ++ py_repr p)
      else if (dec_value p <=? 65535)%N then Ok (Some (dec_value p)) else Err "Port out of range 0-65535"
  end.

(** [urlunparse] of a result with a network location *)
Definition urlunparse (r : ParseResult) : string :=
  let url := if str_empty (params r) then path r else path r ++ ";" ++ params r in
  let url := if negb (str_empty url) && negb (starts_with "/" url) then "/" ++ url else url in
  let url := "//" ++ netloc r ++ url in
  let url := if str_empty (scheme r) then url else scheme r ++ ":" ++ url in
  let url := if str_empty (query r) then url else url ++ "?" ++ query r in
  if str_empty (fragment r) then url else url ++ "#" ++ fragment r.
