(* ===== verification/BackupStore.v ===== *)
(** The stores of backups: [repository.py] of apexquant-backup-recovery.

    [BackupRepository] is the protocol, [BackupRepositoryLaws] what the service
    may rely on, over the four maps a store amounts to.
    [InMemoryBackupRepository] keeps dicts of shared objects,
    [PostgresBackupRepository] tables with the constraints of
    0001_backup_recovery.sql.  The argument [now] of an operation is the time at
    the call, [utc_now()] of one and the server's [now()] of the other.  Rows of
    equal age come in the order of insertion. *)
From stdpp Require Import base strings list gmap sorting pretty numbers.
From Stdlib Require Import Ascii.
From S2P Require Import Prelude PyStr Backup.

#[local] Open Scope string_scope.

(** ** The protocol *)

Class BackupRepository (R : Type) := {
  create_policy : Z -> BackupPolicy -> st R backup_exc BackupPolicy;
  get_policy : Uuid -> R -> option BackupPolicy;
  get_policy_by_name : string -> R -> option BackupPolicy;
  list_policies : R -> list BackupPolicy;
  update_policy_next_run : Z -> Uuid -> Z -> st R backup_exc unit;
  create_run : BackupRun -> st R backup_exc BackupRun;
  update_run : BackupRun -> st R backup_exc unit;
  get_run : Uuid -> R -> option BackupRun;
  list_runs : option Uuid -> Z -> R -> result backup_exc (list BackupRun);
  create_artifact : Z -> BackupArtifact -> st R backup_exc BackupArtifact;
  list_artifacts : Uuid -> R -> list BackupArtifact;
  get_artifact_by_run : Uuid -> R -> option BackupArtifact;
  update_artifact_status : Uuid -> ArtifactStatus -> st R backup_exc unit;
  create_restore : RestoreRun -> st R backup_exc RestoreRun;
  update_restore : RestoreRun -> st R backup_exc unit;
  (** What an artifact returned before shows now: a caller of the in-memory
      store holds the stored object itself. *)
  held_artifact : BackupArtifact -> R -> BackupArtifact
}.

Definition has_id (o : option Uuid) (id : Uuid) : bool := bool_decide (o = Some id).

Definition by_name (a b : BackupPolicy) : bool := str_lt (name a) (name b).
Definition by_start (a b : BackupRun) : bool := (started_at a <? started_at b)%Z.
Definition by_creation (a b : BackupArtifact) : bool := (art_created_at a <? art_created_at b)%Z.

(** [l[:n]] *)
Definition py_take {A} (n : Z) (l : list A) : list A :=
  take (Z.to_nat (if (n <? 0)%Z then Z.of_nat (length l) + n else n)%Z) l.

(** ** InMemoryBackupRepository *)

Record InMemoryBackupRepository := {
  im_policies : pydict Uuid BackupPolicy;
  im_runs : pydict Uuid BackupRun;
  im_artifacts : pydict Uuid BackupArtifact;
  im_restores : pydict Uuid RestoreRun;
  im_next : Uuid
}.
Definition im_empty : InMemoryBackupRepository :=
  {| im_policies := []; im_runs := []; im_artifacts := []; im_restores := []; im_next := 1%N |}.

Definition im_with_policies d s := {| im_policies := d; im_runs := im_runs s; im_artifacts := im_artifacts s;
  im_restores := im_restores s; im_next := im_next s |}.
Definition im_with_runs d s := {| im_policies := im_policies s; im_runs := d; im_artifacts := im_artifacts s;
  im_restores := im_restores s; im_next := im_next s |}.
Definition im_with_artifacts d s := {| im_policies := im_policies s; im_runs := im_runs s; im_artifacts := d;
  im_restores := im_restores s; im_next := im_next s |}.
Definition im_with_restores d s := {| im_policies := im_policies s; im_runs := im_runs s;
  im_artifacts := im_artifacts s; im_restores := d; im_next := im_next s |}.

(** [new_uuid()], unless the model has an id *)
Definition im_id (o : option Uuid) (s : InMemoryBackupRepository) : Uuid * InMemoryBackupRepository :=
  match o with
  | Some id => (id, s)
  | None => (im_next s, {| im_policies := im_policies s; im_runs := im_runs s; im_artifacts := im_artifacts s;
                           im_restores := im_restores s; im_next := (im_next s + 1)%N |})
  end.

Definition im_create_policy (now : Z) (p : BackupPolicy) : st InMemoryBackupRepository backup_exc BackupPolicy :=
  fun s =>
  let '(id, s) := im_id (policy_id p) s in
  let p' := set_policy_ids id (default now (created_at p)) now p in
  (Ok p', im_with_policies (dict_set id p' (im_policies s)) s).

Definition im_update_policy_next_run (now : Z) (id : Uuid) (next : Z)
    : st InMemoryBackupRepository backup_exc unit := fun s =>
  match dict_get id (im_policies s) with
  | None => (Err (BackupRepositoryError ("policy not found: " ++ uuid_text id)), s)
  | Some p => (Ok tt, im_with_policies (dict_set id (set_next_run next (Some now) p) (im_policies s)) s)
  end.

Definition im_create_run (r : BackupRun) : st InMemoryBackupRepository backup_exc BackupRun := fun s =>
  let '(id, s) := im_id (run_id r) s in
  (Ok (set_run_id id r), im_with_runs (dict_set id (set_run_id id r) (im_runs s)) s).

Definition im_update_run (r : BackupRun) : st InMemoryBackupRepository backup_exc unit := fun s =>
  match run_id r with
  | None => (Err (BackupRepositoryError "run has no run_id"), s)
  | Some id => (Ok tt, im_with_runs (dict_set id r (im_runs s)) s)
  end.

Definition of_policy (o : option Uuid) (r : BackupRun) : bool :=
  match o with Some id => (run_policy_id r =? id)%N | None => true end.

Definition im_list_runs (policy : option Uuid) (limit : Z) (s : InMemoryBackupRepository)
    : result backup_exc (list BackupRun) :=
  Ok (py_take limit (py_sorted_rev by_start (tbl_select (of_policy policy) (dict_values (im_runs s))))).

Definition im_create_artifact (a : BackupArtifact) : st InMemoryBackupRepository backup_exc BackupArtifact := fun s =>
  let '(id, s) := im_id (artifact_id a) s in
  (Ok (set_artifact_id id a), im_with_artifacts (dict_set id (set_artifact_id id a) (im_artifacts s)) s).

Definition im_list_artifacts (policy : Uuid) (s : InMemoryBackupRepository) : list BackupArtifact :=
  py_sorted_rev by_creation (tbl_select (fun a => art_policy_id a =? policy)%N (dict_values (im_artifacts s))).

Definition im_get_artifact_by_run (run : Uuid) (s : InMemoryBackupRepository) : option BackupArtifact :=
  tbl_find (fun a => art_run_id a =? run)%N (dict_values (im_artifacts s)).

Definition im_update_artifact_status (id : Uuid) (x : ArtifactStatus)
    : st InMemoryBackupRepository backup_exc unit := fun s =>
  match dict_get id (im_artifacts s) with
  | None => (Err (BackupRepositoryError ("artifact not found: " ++ uuid_text id)), s)
  | Some a => (Ok tt, im_with_artifacts (dict_set id (set_artifact_status x a) (im_artifacts s)) s)
  end.

Definition im_create_restore (r : RestoreRun) : st InMemoryBackupRepository backup_exc RestoreRun := fun s =>
  let '(id, s) := im_id (restore_id r) s in
  (Ok (set_restore_id id r), im_with_restores (dict_set id (set_restore_id id r) (im_restores s)) s).

Definition im_update_restore (r : RestoreRun) : st InMemoryBackupRepository backup_exc unit := fun s =>
  match restore_id r with
  | None => (Err (BackupRepositoryError "restore has no restore_id"), s)
  | Some id => (Ok tt, im_with_restores (dict_set id r (im_restores s)) s)
  end.

#[export] Instance InMemoryBackupRepository_ops : BackupRepository InMemoryBackupRepository := {
  create_policy := im_create_policy;
  get_policy id s := dict_get id (im_policies s);
  get_policy_by_name n s := tbl_find (fun p => name p =? n) (dict_values (im_policies s));
  list_policies s := py_sorted by_name (dict_values (im_policies s));
  update_policy_next_run := im_update_policy_next_run;
  create_run := im_create_run;
  update_run := im_update_run;
  get_run id s := dict_get id (im_runs s);
  list_runs := im_list_runs;
  create_artifact _ a := im_create_artifact a;
  list_artifacts := im_list_artifacts;
  get_artifact_by_run := im_get_artifact_by_run;
  update_artifact_status := im_update_artifact_status;
  create_restore := im_create_restore;
  update_restore := im_update_restore;
  held_artifact a s := default a (id ← artifact_id a; dict_get id (im_artifacts s))
}.

(** ** PostgresBackupRepository *)

Record PostgresBackupRepository := {
  backup_policies : list BackupPolicy;
  backup_runs : list BackupRun;
  backup_artifacts : list BackupArtifact;
  restore_runs : list RestoreRun;
  gen_uuid : Uuid
}.
Definition pg_empty : PostgresBackupRepository :=
  {| backup_policies := []; backup_runs := []; backup_artifacts := []; restore_runs := []; gen_uuid := 1%N |}.

Definition pg_with_policies t s := {| backup_policies := t; backup_runs := backup_runs s;
  backup_artifacts := backup_artifacts s; restore_runs := restore_runs s; gen_uuid := gen_uuid s |}.
Definition pg_with_runs t s := {| backup_policies := backup_policies s; backup_runs := t;
  backup_artifacts := backup_artifacts s; restore_runs := restore_runs s; gen_uuid := gen_uuid s |}.
Definition pg_with_artifacts t s := {| backup_policies := backup_policies s; backup_runs := backup_runs s;
  backup_artifacts := t; restore_runs := restore_runs s; gen_uuid := gen_uuid s |}.
Definition pg_with_restores t s := {| backup_policies := backup_policies s; backup_runs := backup_runs s;
  backup_artifacts := backup_artifacts s; restore_runs := t; gen_uuid := gen_uuid s |}.
Definition pg_take_uuid s := {| backup_policies := backup_policies s; backup_runs := backup_runs s;
  backup_artifacts := backup_artifacts s; restore_runs := restore_runs s; gen_uuid := (gen_uuid s + 1)%N |}.

Notation PGM := (st PostgresBackupRepository backup_exc).

(** [ref LIKE 'env://%' OR ref LIKE 'vault://%' OR ref LIKE 'secret://%'] *)
Definition ref_safe (ref : string) : bool :=
  starts_with "env://" ref || starts_with "vault://" ref || starts_with "secret://" ref.

(** The checks of backup_policies. *)
Definition policy_checks (p : BackupPolicy) : bool :=
  not_blank (name p) && not_blank (target_name p) && not_blank (storage_bucket p)
  && (0 <? interval_minutes p)%Z && int4 (interval_minutes p)
  && (0 <? backup_timeout_seconds p)%Z && int4 (backup_timeout_seconds p)
  && opt_holds (fun n => (0 <? n)%Z && int4 n) (retention_count p)
  && opt_holds (fun n => (0 <? n)%Z && int4 n) (retention_days p)
  && ref_safe (target_connection_ref p).

(** The checks of backup_runs that bear on the columns UPDATE sets. *)
Definition run_checks (r : BackupRun) : bool :=
  opt_holds checksum_format (checksum_sha256 r)
  && opt_holds (fun n => (0 <=? n)%Z && int8 n) (artifact_size_bytes r).

Definition artifact_checks (a : BackupArtifact) : bool :=
  not_blank (storage_key a) && not_blank (uri a) && (0 <=? size_bytes a)%Z && int8 (size_bytes a)
  && checksum_format (art_checksum a).

Definition pg_create_policy (now : Z) (p : BackupPolicy) : PGM BackupPolicy := fun s =>
  if negb (policy_checks p) then (Err (DatabaseError "backup_policies_check"), s)
  else if existsb (fun q => name q =? name p) (backup_policies s)
  then (Err (DatabaseError "backup_policies_name_key"), s)
  else
    let row := set_policy_ids (gen_uuid s) now now p in
    (Ok row, pg_take_uuid (pg_with_policies (backup_policies s ++ [row]) s)).

Definition pg_get_policy (id : Uuid) (s : PostgresBackupRepository) : option BackupPolicy :=
  tbl_find (fun p => has_id (policy_id p) id) (backup_policies s).

(** The trigger of the table sets [updated_at]. *)
Definition pg_update_policy_next_run (now : Z) (id : Uuid) (next : Z) : PGM unit := fun s =>
  (Ok tt, pg_with_policies (tbl_update (fun p => has_id (policy_id p) id) (set_next_run next (Some now))
                              (backup_policies s)) s).

(** The row INSERT makes: the columns it does not name are NULL. *)
Definition run_row (id : Uuid) (r : BackupRun) : BackupRun :=
  {| run_id := Some id; run_policy_id := run_policy_id r; trigger := trigger r; status := status r;
     started_at := started_at r; completed_at := None; artifact_uri := None; artifact_size_bytes := None;
     checksum_sha256 := None; error := None; verification_status := None; last_verified_at := None |}.

Definition pg_create_run (r : BackupRun) : PGM BackupRun := fun s =>
  if negb (not_blank (trigger r)) then (Err (DatabaseError "backup_runs_trigger_not_empty"), s)
  else match pg_get_policy (run_policy_id r) s with
       | None => (Err (DatabaseError "backup_runs_policy_id_fkey"), s)
       | Some _ =>
           let row := run_row (gen_uuid s) r in
           (Ok row, pg_take_uuid (pg_with_runs (backup_runs s ++ [row]) s))
       end.

(** The columns UPDATE sets, from [new]. *)
Definition run_update (new old : BackupRun) : BackupRun :=
  {| run_id := run_id old; run_policy_id := run_policy_id old; trigger := trigger old; status := status new;
     started_at := started_at old; completed_at := completed_at new; artifact_uri := artifact_uri new;
     artifact_size_bytes := artifact_size_bytes new; checksum_sha256 := checksum_sha256 new;
     error := error new; verification_status := verification_status new;
     last_verified_at := last_verified_at new |}.

Definition pg_get_run (id : Uuid) (s : PostgresBackupRepository) : option BackupRun :=
  tbl_find (fun r => has_id (run_id r) id) (backup_runs s).

Definition pg_update_run (r : BackupRun) : PGM unit := fun s =>
  match run_id r with
  | None => (Err (BackupRepositoryError "run has no run_id"), s)
  | Some id =>
      match pg_get_run id s with
      | None => (Ok tt, s)
      | Some _ =>
          if run_checks r
          then (Ok tt, pg_with_runs (tbl_update (fun x => has_id (run_id x) id) (run_update r) (backup_runs s)) s)
          else (Err (DatabaseError "backup_runs_check"), s)
      end
  end.

Definition pg_list_runs (policy : option Uuid) (limit : Z) (s : PostgresBackupRepository)
    : result backup_exc (list BackupRun) :=
  if (limit <? 0)%Z then Err (DatabaseError "LIMIT must not be negative")
  else Ok (take (Z.to_nat limit) (py_sorted_rev by_start (tbl_select (of_policy policy) (backup_runs s)))).

Definition pg_create_artifact (now : Z) (a : BackupArtifact) : PGM BackupArtifact := fun s =>
  if negb (artifact_checks a) then (Err (DatabaseError "backup_artifacts_check"), s)
  else match pg_get_run (art_run_id a) s, pg_get_policy (art_policy_id a) s with
       | Some _, Some _ =>
           let row := set_artifact_id (gen_uuid s) (set_artifact_created now a) in
           (Ok row, pg_take_uuid (pg_with_artifacts (backup_artifacts s ++ [row]) s))
       | _, _ => (Err (DatabaseError "backup_artifacts_fkey"), s)
       end.

(** [ORDER BY created_at DESC] *)
Definition pg_list_artifacts (policy : Uuid) (s : PostgresBackupRepository) : list BackupArtifact :=
  py_sorted_rev by_creation (tbl_select (fun a => art_policy_id a =? policy)%N (backup_artifacts s)).

Definition pg_get_artifact_by_run (run : Uuid) (s : PostgresBackupRepository) : option BackupArtifact :=
  tbl_find (fun a => art_run_id a =? run)%N (backup_artifacts s).

Definition pg_update_artifact_status (id : Uuid) (x : ArtifactStatus) : PGM unit := fun s =>
  (Ok tt, pg_with_artifacts (tbl_update (fun a => has_id (artifact_id a) id) (set_artifact_status x)
                               (backup_artifacts s)) s).

Definition restore_row (id : Uuid) (r : RestoreRun) : RestoreRun :=
  {| restore_id := Some id; backup_run_id := backup_run_id r; restore_connection_ref := restore_connection_ref r;
     target_connection_redacted := target_connection_redacted r; command_redacted := command_redacted r;
     restore_status := restore_status r; dry_run := dry_run r; restore_started_at := restore_started_at r;
     restore_completed_at := None; restore_error := None |}.

Definition pg_create_restore (r : RestoreRun) : PGM RestoreRun := fun s =>
  if negb (ref_safe (restore_connection_ref r))
  then (Err (DatabaseError "restore_runs_target_connection_ref_safe"), s)
  else match pg_get_run (backup_run_id r) s with
       | None => (Err (DatabaseError "restore_runs_backup_run_id_fkey"), s)
       | Some _ =>
           let row := restore_row (gen_uuid s) r in
           (Ok row, pg_take_uuid (pg_with_restores (restore_runs s ++ [row]) s))
       end.

Definition restore_update (new old : RestoreRun) : RestoreRun :=
  {| restore_id := restore_id old; backup_run_id := backup_run_id old;
     restore_connection_ref := restore_connection_ref old;
     target_connection_redacted := target_connection_redacted old; command_redacted := command_redacted new;
     restore_status := restore_status new; dry_run := dry_run old; restore_started_at := restore_started_at old;
     restore_completed_at := restore_completed_at new; restore_error := restore_error new |}.

Definition pg_update_restore (r : RestoreRun) : PGM unit := fun s =>
  match restore_id r with
  | None => (Err (BackupRepositoryError "restore has no restore_id"), s)
  | Some id => (Ok tt, pg_with_restores (tbl_update (fun x => has_id (restore_id x) id) (restore_update r)
                                           (restore_runs s)) s)
  end.

#[export] Instance PostgresBackupRepository_ops : BackupRepository PostgresBackupRepository := {
  create_policy := pg_create_policy;
  get_policy := pg_get_policy;
  get_policy_by_name n s := tbl_find (fun p => name p =? n) (backup_policies s);
  list_policies s := py_sorted by_name (backup_policies s);
  update_policy_next_run := pg_update_policy_next_run;
  create_run := pg_create_run;
  update_run := pg_update_run;
  get_run := pg_get_run;
  list_runs := pg_list_runs;
  create_artifact := pg_create_artifact;
  list_artifacts := pg_list_artifacts;
  get_artifact_by_run := pg_get_artifact_by_run;
  update_artifact_status := pg_update_artifact_status;
  create_restore := pg_create_restore;
  update_restore := pg_update_restore;
  held_artifact a _ := a
}.

(** ** What the service relies on *)

Record BackupState := {
  policies : gmap Uuid BackupPolicy;
  runs : gmap Uuid BackupRun;
  artifacts : gmap Uuid BackupArtifact;
  restores : gmap Uuid RestoreRun
}.
Definition put_policy id p b := {| policies := <[id := p]> (policies b); runs := runs b; artifacts := artifacts b;
  restores := restores b |}.
Definition put_run id r b := {| policies := policies b; runs := <[id := r]> (runs b); artifacts := artifacts b;
  restores := restores b |}.
Definition put_artifact id a b := {| policies := policies b; runs := runs b; artifacts := <[id := a]> (artifacts b);
  restores := restores b |}.
Definition put_restore id r b := {| policies := policies b; runs := runs b; artifacts := artifacts b;
  restores := <[id := r]> (restores b) |}.

(** Every object is stored under its own id. *)
Definition ids_ok (b : BackupState) : Prop :=
  (forall id p, policies b !! id = Some p -> policy_id p = Some id) /\
  (forall id r, runs b !! id = Some r -> run_id r = Some id) /\
  (forall id a, artifacts b !! id = Some a -> artifact_id a = Some id) /\
  (forall id r, restores b !! id = Some r -> restore_id r = Some id).

(** [BackupRun(policy_id=..., trigger=..., status=RUNNING, started_at=...)] *)
Definition new_run (policy : Uuid) (trig : string) (now : Z) : BackupRun :=
  {| run_id := None; run_policy_id := policy; trigger := trig; status := RUN_RUNNING; started_at := now;
     completed_at := None; artifact_uri := None; artifact_size_bytes := None; checksum_sha256 := None;
     error := None; verification_status := None; last_verified_at := None |}.

(** The columns of a run, and of a restore, that an update leaves. *)
Definition same_run (new old : BackupRun) : Prop :=
  run_policy_id new = run_policy_id old /\ trigger new = trigger old /\ started_at new = started_at old.
Definition same_restore (new old : RestoreRun) : Prop :=
  backup_run_id new = backup_run_id old /\ restore_connection_ref new = restore_connection_ref old /\
  target_connection_redacted new = target_connection_redacted old /\ dry_run new = dry_run old /\
  restore_started_at new = restore_started_at old.

Class BackupRepositoryLaws (R : Type) `{BackupRepository R} := {
  view : R -> BackupState;
  repo_ok : R -> Prop;
  (** The runs whose measures the columns can hold. *)
  run_storable : BackupRun -> Prop;

  law_stored_run id r s : repo_ok s -> runs (view s) !! id = Some r -> run_storable r;
  law_same_measures r r' : checksum_sha256 r' = checksum_sha256 r ->
    artifact_size_bytes r' = artifact_size_bytes r -> run_storable r -> run_storable r';
  law_ids s : repo_ok s -> ids_ok (view s);
  law_get_policy id s : repo_ok s -> get_policy id s = policies (view s) !! id;
  law_get_run id s : repo_ok s -> get_run id s = runs (view s) !! id;
  law_list_policies s : repo_ok s ->
    list_policies s ≡ₚ (map_to_list (policies (view s))).*2 /\
    StronglySorted (fun a b => str_lt (name b) (name a) = false) (list_policies s);
  law_list_artifacts pid s : repo_ok s ->
    list_artifacts pid s ≡ₚ filter (fun a => art_policy_id a = pid) (map_to_list (artifacts (view s))).*2;
  law_get_artifact_by_run run s : repo_ok s ->
    match get_artifact_by_run run s with
    | Some a => art_run_id a = run /\ exists id, artifacts (view s) !! id = Some a
    | None => forall id a, artifacts (view s) !! id = Some a -> art_run_id a <> run
    end;

  law_create_policy now p s : repo_ok s -> policy_id p = None ->
    (exists id created s', let p' := set_policy_ids id created now p in
       create_policy now p s = (Ok p', s') /\ repo_ok s' /\ policies (view s) !! id = None /\
       view s' = put_policy id p' (view s)) \/
    (exists e, create_policy now p s = (Err e, s) /\ is_backup_error e = false);
  law_update_policy_next_run now id next p s : repo_ok s -> policies (view s) !! id = Some p ->
    exists s', update_policy_next_run now id next s = (Ok tt, s') /\ repo_ok s' /\
      view s' = put_policy id (set_next_run next (Some now) p) (view s);

  law_create_run pid trig now s : repo_ok s ->
    (exists id s', let r := set_run_id id (new_run pid trig now) in
       create_run (new_run pid trig now) s = (Ok r, s') /\ repo_ok s' /\ runs (view s) !! id = None /\
       view s' = put_run id r (view s)) \/
    (exists e, create_run (new_run pid trig now) s = (Err e, s) /\ is_backup_error e = false /\
       (not_blank trig = false \/ policies (view s) !! pid = None));
  law_update_run id new old s : repo_ok s -> run_id new = Some id -> runs (view s) !! id = Some old ->
    same_run new old -> run_storable new ->
    exists s', update_run new s = (Ok tt, s') /\ repo_ok s' /\ view s' = put_run id new (view s);

  law_create_artifact now a s : repo_ok s -> artifact_id a = None ->
    (exists id t s', let a' := set_artifact_id id (set_artifact_created t a) in
       create_artifact now a s = (Ok a', s') /\ repo_ok s' /\ artifacts (view s) !! id = None /\
       view s' = put_artifact id a' (view s) /\
       forall r, checksum_sha256 r = Some (art_checksum a) -> artifact_size_bytes r = Some (size_bytes a) ->
         run_storable r) \/
    (exists e, create_artifact now a s = (Err e, s) /\
       ~ (artifact_checks a = true /\ is_Some (runs (view s) !! art_run_id a) /\
          is_Some (policies (view s) !! art_policy_id a)));
  law_update_artifact_status id x a s : repo_ok s -> artifacts (view s) !! id = Some a ->
    exists s', update_artifact_status id x s = (Ok tt, s') /\ repo_ok s' /\
      view s' = put_artifact id (set_artifact_status x a) (view s);

  law_create_restore r s : repo_ok s -> restore_id r = None -> restore_completed_at r = None ->
    restore_error r = None ->
    (exists id s', let r' := set_restore_id id r in
       create_restore r s = (Ok r', s') /\ repo_ok s' /\ restores (view s) !! id = None /\
       view s' = put_restore id r' (view s)) \/
    (exists e, create_restore r s = (Err e, s) /\
       ~ (ref_safe (restore_connection_ref r) = true /\ is_Some (runs (view s) !! backup_run_id r)));
  law_update_restore id new old s : repo_ok s -> restore_id new = Some id -> restores (view s) !! id = Some old ->
    same_restore new old -> command_redacted new = command_redacted old ->
    exists s', update_restore new s = (Ok tt, s') /\ repo_ok s' /\ view s' = put_restore id new (view s);

  law_held a s : repo_ok s -> held_artifact a s = a \/
    exists id, artifact_id a = Some id /\ artifacts (view s) !! id = Some (held_artifact a s)
}.

(** ** Tables and dicts of objects that carry their id *)

Section Ids.
Context {V : Type} (key : V -> option Uuid).

Definition rows_ok (next : Uuid) (t : list V) : Prop :=
  (forall v, v ∈ t -> exists id, key v = Some id /\ (id < next)%N) /\ NoDup (key <$> t).
Definition rows_view (t : list V) : gmap Uuid V := by_key (fun v => default 0%N (key v)) t.

Definition dict_ids_ok (next : Uuid) (d : pydict Uuid V) : Prop :=
  dict_wf d /\ forall k v, (k, v) ∈ d -> key v = Some k /\ (k < next)%N.

Lemma rows_nodup next t : rows_ok next t -> NoDup ((fun v => default 0%N (key v)) <$> t).
Proof.
  intros [Hk Hnd]. assert (Heq : Some <$> ((fun v => default 0%N (key v)) <$> t) = key <$> t).
  { rewrite <- list_fmap_compose. apply list_fmap_ext. intros i v Hv%list_elem_of_lookup_2.
    destruct (Hk v Hv) as (id & Hid & _). simpl. by rewrite Hid. }
  rewrite <- Heq in Hnd. by apply NoDup_fmap_1 in Hnd.
Qed.

Lemma rows_has_id next t v id : rows_ok next t -> v ∈ t -> has_id (key v) id = true <-> default 0%N (key v) = id.
Proof.
  intros [Hk _] Hv. destruct (Hk v Hv) as (id' & Hid & _). unfold has_id. rewrite Hid, bool_decide_eq_true.
  simpl. naive_solver.
Qed.

Lemma rows_find next t id : rows_ok next t -> tbl_find (fun v => has_id (key v) id) t = rows_view t !! id.
Proof. intros Hok. symmetry. apply by_key_find. intros v Hv. by eapply rows_has_id. Qed.

Lemma rows_elem next t id v : rows_ok next t -> rows_view t !! id = Some v <-> v ∈ t /\ key v = Some id.
Proof.
  intros Hok. pose proof (rows_nodup _ _ Hok) as Hnd. split.
  - intros [Hv Hid]%by_key_Some. split; [done|]. destruct Hok as [Hk _].
    destruct (Hk v Hv) as (id' & Hid' & _). rewrite Hid' in Hid |- *. simpl in Hid. congruence.
  - intros [Hv Hid]. apply (by_key_elem _ _ _ Hnd) in Hv. by rewrite Hid in Hv.
Qed.

Lemma rows_fresh next t : rows_ok next t -> rows_view t !! next = None.
Proof.
  intros Hok. destruct (rows_view t !! next) as [v|] eqn:Hv; [|done].
  apply (rows_elem _ _ _ _ Hok) in Hv as [Hin Hid]. destruct Hok as [Hk _].
  destruct (Hk v Hin) as (id & Hid' & Hlt). rewrite Hid in Hid'. injection Hid' as <-. lia.
Qed.

Lemma rows_values next t : rows_ok next t -> (map_to_list (rows_view t)).*2 ≡ₚ t.
Proof.
  intros Hok. unfold rows_view, by_key. rewrite map_to_list_to_map.
  - by rewrite <- list_fmap_compose, list_fmap_id.
  - rewrite <- list_fmap_compose. exact (rows_nodup _ _ Hok).
Qed.

Lemma rows_weaken next t : rows_ok next t -> rows_ok (next + 1)%N t.
Proof. intros [Hk Hnd]. split; [|done]. intros v Hv. destruct (Hk v Hv) as (id & ? & ?). exists id. split; [done|lia]. Qed.

Lemma rows_snoc next t v : rows_ok next t -> key v = Some next ->
  rows_ok (next + 1)%N (t ++ [v]) /\ rows_view (t ++ [v]) = <[next := v]> (rows_view t).
Proof.
  intros Hok Hv. pose proof (rows_fresh _ _ Hok) as Hfresh. split.
  - destruct Hok as [Hk Hnd]. split.
    + intros w [Hw|Hw%list_elem_of_singleton]%elem_of_app; [|subst w; exists next; split; [done|lia]].
      destruct (Hk w Hw) as (id & ? & ?). exists id. split; [done|lia].
    + apply NoDup_fmap_snoc; [done|]. rewrite Hv. intros (w & Hw & Hin)%list_elem_of_fmap.
      destruct (Hk w Hin) as (id & Hid & Hlt). rewrite <- Hw in Hid. injection Hid as <-. lia.
  - apply by_key_None in Hfresh. unfold rows_view. rewrite by_key_snoc; [by rewrite Hv|by rewrite Hv].
Qed.

Lemma rows_update next t id f : rows_ok next t -> (forall v, key (f v) = key v) ->
  rows_ok next (tbl_update (fun v => has_id (key v) id) f t) /\
  rows_view (tbl_update (fun v => has_id (key v) id) f t) =
    match rows_view t !! id with Some v => <[id := f v]> (rows_view t) | None => rows_view t end.
Proof.
  intros Hok Hf. split.
  - destruct Hok as [Hk Hnd]. split; [|by rewrite keys_update].
    intros v (w & -> & Hw)%list_elem_of_fmap. destruct (Hk w Hw) as (i & Hi & Hlt). exists i.
    split; [|done]. by case_match; rewrite ?Hf.
  - rewrite <- (rows_find _ _ _ Hok). destruct (tbl_find _ t) as [v|] eqn:Hfind.
    + apply (by_key_update (fun v => default 0%N (key v)) (fun v => has_id (key v) id) f id v t); try done.
      * intros r Hr. by eapply rows_has_id.
      * intros r Hr Hid. rewrite Hf. by eapply rows_has_id.
      * by eapply rows_nodup.
    + f_equal. apply tbl_update_none. by apply tbl_find_None.
Qed.

Lemma dict_values_perm next (d : pydict Uuid V) : dict_ids_ok next d ->
  (map_to_list (list_to_map d : gmap Uuid V)).*2 ≡ₚ dict_values d.
Proof. intros [Hwf _]. by rewrite map_to_list_to_map. Qed.

Lemma dict_ids_fresh next (d : pydict Uuid V) : dict_ids_ok next d -> dict_get next d = None.
Proof.
  intros [_ Hk]. apply dict_get_None_keys. intros ((k & v) & -> & Hin)%list_elem_of_fmap.
  destruct (Hk k v Hin). simpl in *. lia.
Qed.

Lemma dict_ids_set next next' (d : pydict Uuid V) k v : dict_ids_ok next d -> key v = Some k -> (k < next')%N ->
  (next <= next')%N -> dict_ids_ok next' (dict_set k v d).
Proof.
  intros [Hwf Hk] Hv Hlt Hle. split; [by apply dict_wf_set|].
  intros k' v' [[= -> ->]|Hin]%dict_set_elem; [done|]. destruct (Hk k' v' Hin). split; [done|lia].
Qed.

Lemma dict_ids_weaken next (d : pydict Uuid V) : dict_ids_ok next d -> dict_ids_ok (next + 1)%N d.
Proof. intros [Hwf Hk]. split; [done|]. intros k v Hin. destruct (Hk k v Hin). split; [done|lia]. Qed.
End Ids.
