(* ===== verification/BackupLaws.v ===== *)
(** Both stores of backups keep what the service relies on. *)
From stdpp Require Import base strings list gmap sorting pretty numbers.
From Stdlib Require Import Ascii.
From S2P Require Import Prelude PyStr Backup BackupStore.

(** ** The in-memory store *)

Definition im_view (s : InMemoryBackupRepository) : BackupState :=
  {| policies := list_to_map (im_policies s); runs := list_to_map (im_runs s);
     artifacts := list_to_map (im_artifacts s); restores := list_to_map (im_restores s) |}.
Definition im_ok (s : InMemoryBackupRepository) : Prop :=
  dict_ids_ok policy_id (im_next s) (im_policies s) /\ dict_ids_ok run_id (im_next s) (im_runs s) /\
  dict_ids_ok artifact_id (im_next s) (im_artifacts s) /\ dict_ids_ok restore_id (im_next s) (im_restores s).

Lemma dict_ids_get {V} (key : V -> option Uuid) next d id v :
  dict_ids_ok key next d -> (list_to_map d : gmap Uuid V) !! id = Some v -> key v = Some id /\ (id < next)%N.
Proof. intros [_ Hk]. rewrite dict_to_map_get. intros Hin%dict_get_Some_elem. by apply Hk. Qed.

Lemma policies_by_name (l : list BackupPolicy) :
  StronglySorted (fun a b => str_lt (name b) (name a) = false) (py_sorted by_name l).
Proof.
  apply py_sorted_sorted; unfold by_name.
  - intros x y. apply str_lt_asym.
  - intros x y z. unfold sort_le. intros H1 H2.
    destruct (str_lt (name z) (name x)) eqn:E; [|done].
    destruct (decide (name x = name y)) as [Heq|Hne]; [congruence|].
    destruct (str_lt_total _ _ Hne) as [Hlt|Hlt]; [|congruence].
    pose proof (str_lt_trans _ _ _ E Hlt). congruence.
Qed.

#[local] Hint Extern 2 (_ < _)%N => lia : core.
#[local] Hint Extern 2 (_ <= _)%N => lia : core.
#[local] Hint Resolve dict_ids_weaken : core.

Ltac im_done := unfold im_view; simpl; rewrite ?dict_to_map_set; done.

#[export] Instance InMemoryBackupRepository_laws : BackupRepositoryLaws InMemoryBackupRepository.
Proof.
  refine {| view := im_view; repo_ok := im_ok; run_storable _ := True |}.
  - done.
  - done.
  - intros s (Hp & Hr & Ha & Hs). split_and!; intros id x Hx; by eapply dict_ids_get.
  - intros id s _. symmetry. apply dict_to_map_get.
  - intros id s _. symmetry. apply dict_to_map_get.
  - intros s (Hp & _). split; [|apply policies_by_name]. simpl.
    by rewrite (dict_values_perm _ _ _ Hp), py_sorted_perm.
  - intros pid s (_ & _ & Ha & _). simpl. unfold im_list_artifacts.
    rewrite py_sorted_rev_perm, (dict_values_perm _ _ _ Ha). unfold tbl_select. apply reflexive_eq.
    apply list_filter_iff. intros a. apply N.eqb_eq.
  - intros run s (_ & _ & Ha & _). simpl. unfold im_get_artifact_by_run.
    destruct (tbl_find _ _) as [a|] eqn:Hf.
    + apply tbl_find_elem in Hf as [Hin Hid%N.eqb_eq]. split; [done|].
      apply dict_values_elem in Hin as [id Hin]. exists id. rewrite dict_to_map_get. apply dict_elem_get; [apply Ha|done].
    + intros id a Hid Heq. rewrite dict_to_map_get in Hid. apply dict_get_Some_elem in Hid.
      assert (Hin : a ∈ dict_values (im_artifacts s)) by (apply dict_values_elem; eauto).
      apply (proj1 (tbl_find_None _ _) Hf) in Hin. apply N.eqb_neq in Hin. done.
  - intros now p s (Hp & Hr & Ha & Hs) Hid. left. exists (im_next s), (default now (created_at p)).
    eexists. cbn zeta. split_and!.
    + simpl. unfold im_create_policy, im_id. rewrite Hid. done.
    + split_and!; simpl; auto. eapply dict_ids_set; eauto.
    + simpl. rewrite dict_to_map_get. by eapply dict_ids_fresh.
    + im_done.
  - intros now id next p s (Hp & Hr & Ha & Hs) Hget. eexists. split_and!.
    + simpl. unfold im_update_policy_next_run. simpl in Hget. rewrite dict_to_map_get in Hget. rewrite Hget. done.
    + destruct (dict_ids_get _ _ _ _ _ Hp Hget). split_and!; simpl; auto. eapply dict_ids_set; eauto.
    + im_done.
  - intros pid trig now s (Hp & Hr & Ha & Hs). left. exists (im_next s). eexists. cbn zeta. split_and!.
    + done.
    + split_and!; simpl; auto. eapply dict_ids_set; eauto.
    + simpl. rewrite dict_to_map_get. by eapply dict_ids_fresh.
    + im_done.
  - intros id new old s (Hp & Hr & Ha & Hs) Hid Hget _ _. eexists. split_and!.
    + simpl. unfold im_update_run. rewrite Hid. done.
    + destruct (dict_ids_get _ _ _ _ _ Hr Hget). split_and!; simpl; auto. eapply dict_ids_set; eauto.
    + im_done.
  - intros now a s (Hp & Hr & Ha & Hs) Hid. left. exists (im_next s), (art_created_at a). eexists. cbn zeta. split_and!.
    + simpl. unfold im_create_artifact, im_id. rewrite Hid. by destruct a.
    + split_and!; simpl; auto. eapply dict_ids_set; eauto.
    + simpl. rewrite dict_to_map_get. by eapply dict_ids_fresh.
    + unfold im_view. simpl. rewrite dict_to_map_set. by destruct a.
    + done.
  - intros id x a s (Hp & Hr & Ha & Hs) Hget. eexists. split_and!.
    + simpl. unfold im_update_artifact_status. simpl in Hget. rewrite dict_to_map_get in Hget. rewrite Hget. done.
    + destruct (dict_ids_get _ _ _ _ _ Ha Hget). split_and!; simpl; auto. eapply dict_ids_set; eauto.
    + im_done.
  - intros r s (Hp & Hr & Ha & Hs) Hid _ _. left. exists (im_next s). eexists. cbn zeta. split_and!.
    + simpl. unfold im_create_restore, im_id. rewrite Hid. done.
    + split_and!; simpl; auto. eapply dict_ids_set; eauto.
    + simpl. rewrite dict_to_map_get. by eapply dict_ids_fresh.
    + im_done.
  - intros id new old s (Hp & Hr & Ha & Hs) Hid Hget _ _. eexists. split_and!.
    + simpl. unfold im_update_restore. rewrite Hid. done.
    + destruct (dict_ids_get _ _ _ _ _ Hs Hget). split_and!; simpl; auto. eapply dict_ids_set; eauto.
    + im_done.
  - intros a s _. simpl. destruct (artifact_id a) as [id|] eqn:Hid; [|by left]. simpl.
    destruct (dict_get id (im_artifacts s)) eqn:Hget; [|by left]. right. exists id.
    split; [done|]. by rewrite dict_to_map_get.
Defined.

(** ** The tables *)

Definition pg_view (s : PostgresBackupRepository) : BackupState :=
  {| policies := rows_view policy_id (backup_policies s); runs := rows_view run_id (backup_runs s);
     artifacts := rows_view artifact_id (backup_artifacts s); restores := rows_view restore_id (restore_runs s) |}.
Definition pg_ok (s : PostgresBackupRepository) : Prop :=
  rows_ok policy_id (gen_uuid s) (backup_policies s) /\ rows_ok run_id (gen_uuid s) (backup_runs s) /\
  rows_ok artifact_id (gen_uuid s) (backup_artifacts s) /\ rows_ok restore_id (gen_uuid s) (restore_runs s) /\
  Forall (fun r => run_checks r = true) (backup_runs s).

Lemma run_row_new id pid trig now : run_row id (new_run pid trig now) = set_run_id id (new_run pid trig now).
Proof. done. Qed.

Lemma run_update_same id new old : run_id new = Some id -> run_id old = Some id -> same_run new old ->
  run_update new old = new.
Proof. destruct new, old. unfold same_run, run_update. simpl. intros ? ? (? & ? & ?). congruence. Qed.

Lemma restore_update_same id new old : restore_id new = Some id -> restore_id old = Some id ->
  same_restore new old -> command_redacted new = command_redacted old -> restore_update new old = new.
Proof. destruct new, old. unfold same_restore, restore_update. simpl. intros ? ? (? & ? & ? & ? & ?) ?. congruence. Qed.

#[local] Hint Resolve rows_weaken : core.

Section PgLaws.
Implicit Types s : PostgresBackupRepository.

Lemma pg_ids s : pg_ok s -> ids_ok (pg_view s).
Proof.
  intros (Hp & Hr & Ha & Hs & _). split_and!; intros id x Hx.
  - by apply (rows_elem _ _ _ _ _ Hp) in Hx as [_ ?].
  - by apply (rows_elem _ _ _ _ _ Hr) in Hx as [_ ?].
  - by apply (rows_elem _ _ _ _ _ Ha) in Hx as [_ ?].
  - by apply (rows_elem _ _ _ _ _ Hs) in Hx as [_ ?].
Qed.

Lemma pg_policy_find id s : pg_ok s -> pg_get_policy id s = policies (pg_view s) !! id.
Proof. intros (Hp & _). exact (rows_find _ _ _ _ Hp). Qed.

Lemma pg_run_find id s : pg_ok s -> pg_get_run id s = runs (pg_view s) !! id.
Proof. intros (_ & Hr & _). exact (rows_find _ _ _ _ Hr). Qed.

Lemma pg_stored_run id r s : pg_ok s -> runs (pg_view s) !! id = Some r -> run_checks r = true.
Proof.
  intros (_ & Hr & _ & _ & Hck) Hget. apply (rows_elem _ _ _ _ _ Hr) in Hget as [Hin _].
  by apply (proj1 (list.Forall_forall _ _) Hck).
Qed.

Lemma pg_artifacts_of pid s : pg_ok s ->
  pg_list_artifacts pid s ≡ₚ filter (fun a => art_policy_id a = pid) (map_to_list (artifacts (pg_view s))).*2.
Proof.
  intros (_ & _ & Ha & _). unfold pg_list_artifacts. simpl.
  rewrite py_sorted_rev_perm, (rows_values _ _ _ Ha). apply reflexive_eq. unfold tbl_select.
  apply list_filter_iff. intros a. apply N.eqb_eq.
Qed.

Lemma pg_artifact_of_run run s : pg_ok s ->
  match pg_get_artifact_by_run run s with
  | Some a => art_run_id a = run /\ exists id, artifacts (pg_view s) !! id = Some a
  | None => forall id a, artifacts (pg_view s) !! id = Some a -> art_run_id a <> run
  end.
Proof.
  intros (_ & _ & Ha & _). unfold pg_get_artifact_by_run. destruct (tbl_find _ _) as [a|] eqn:Hf.
  - apply tbl_find_elem in Hf as [Hin Hid%N.eqb_eq]. split; [done|]. destruct (proj1 Ha a Hin) as (id & Hk & _).
    exists id. by apply (rows_elem _ _ _ _ _ Ha).
  - intros id a Hid Heq. apply (rows_elem _ _ _ _ _ Ha) in Hid as [Hin _].
    apply (proj1 (tbl_find_None _ _) Hf) in Hin. apply N.eqb_neq in Hin. done.
Qed.

(** A row added to one of the tables under the next id. *)
Lemma pg_insert_policy p s : pg_ok s -> policy_id p = Some (gen_uuid s) ->
  let s' := pg_take_uuid (pg_with_policies (backup_policies s ++ [p]) s) in
  pg_ok s' /\ policies (pg_view s) !! gen_uuid s = None /\ pg_view s' = put_policy (gen_uuid s) p (pg_view s).
Proof.
  intros (Hp & Hr & Ha & Hs & Hck) Hid. destruct (rows_snoc _ _ _ _ Hp Hid) as [Hok Hv]. cbv zeta. split_and!.
  - split_and!; simpl; auto.
  - by eapply rows_fresh.
  - unfold pg_view, put_policy. simpl. by rewrite Hv.
Qed.

Lemma pg_insert_run r s : pg_ok s -> run_id r = Some (gen_uuid s) -> run_checks r = true ->
  let s' := pg_take_uuid (pg_with_runs (backup_runs s ++ [r]) s) in
  pg_ok s' /\ runs (pg_view s) !! gen_uuid s = None /\ pg_view s' = put_run (gen_uuid s) r (pg_view s).
Proof.
  intros (Hp & Hr & Ha & Hs & Hck) Hid Hrc. destruct (rows_snoc _ _ _ _ Hr Hid) as [Hok Hv]. cbv zeta. split_and!.
  - split_and!; simpl; auto. apply Forall_app; auto.
  - by eapply rows_fresh.
  - unfold pg_view, put_run. simpl. by rewrite Hv.
Qed.

Lemma pg_insert_artifact a s : pg_ok s -> artifact_id a = Some (gen_uuid s) ->
  let s' := pg_take_uuid (pg_with_artifacts (backup_artifacts s ++ [a]) s) in
  pg_ok s' /\ artifacts (pg_view s) !! gen_uuid s = None /\ pg_view s' = put_artifact (gen_uuid s) a (pg_view s).
Proof.
  intros (Hp & Hr & Ha & Hs & Hck) Hid. destruct (rows_snoc _ _ _ _ Ha Hid) as [Hok Hv]. cbv zeta. split_and!.
  - split_and!; simpl; auto.
  - by eapply rows_fresh.
  - unfold pg_view, put_artifact. simpl. by rewrite Hv.
Qed.

Lemma pg_insert_restore r s : pg_ok s -> restore_id r = Some (gen_uuid s) ->
  let s' := pg_take_uuid (pg_with_restores (restore_runs s ++ [r]) s) in
  pg_ok s' /\ restores (pg_view s) !! gen_uuid s = None /\ pg_view s' = put_restore (gen_uuid s) r (pg_view s).
Proof.
  intros (Hp & Hr & Ha & Hs & Hck) Hid. destruct (rows_snoc _ _ _ _ Hs Hid) as [Hok Hv]. cbv zeta. split_and!.
  - split_and!; simpl; auto.
  - by eapply rows_fresh.
  - unfold pg_view, put_restore. simpl. by rewrite Hv.
Qed.

Lemma pg_update_run_law id new old s : pg_ok s -> run_id new = Some id -> runs (pg_view s) !! id = Some old ->
  same_run new old -> run_checks new = true ->
  exists s', pg_update_run new s = (Ok tt, s') /\ pg_ok s' /\ pg_view s' = put_run id new (pg_view s).
Proof.
  intros Hok Hid Hget Hsame Hst. unfold pg_update_run. rewrite Hid, (pg_run_find _ _ Hok), Hget, Hst.
  destruct Hok as (Hp & Hr & Ha & Hs & Hck). destruct (rows_update run_id _ _ id (run_update new) Hr) as [Hrk Hv]; [done|].
  eexists. split_and!; [done| |].
  - split_and!; try done. simpl. apply list.Forall_forall. intros x (y & -> & Hy)%list_elem_of_fmap.
    destruct (has_id (run_id y) id); [exact Hst|]. exact (proj1 (list.Forall_forall _ _) Hck y Hy).
  - unfold pg_view, put_run. simpl. simpl in Hget. rewrite Hv, Hget.
    f_equal. f_equal. apply (rows_elem _ _ _ _ _ Hr) in Hget as [_ Hold]. by eapply run_update_same.
Qed.

Lemma pg_update_restore_law id new old s : pg_ok s -> restore_id new = Some id ->
  restores (pg_view s) !! id = Some old -> same_restore new old -> command_redacted new = command_redacted old ->
  exists s', pg_update_restore new s = (Ok tt, s') /\ pg_ok s' /\ pg_view s' = put_restore id new (pg_view s).
Proof.
  intros (Hp & Hr & Ha & Hs & Hck) Hid Hget Hsame Hcmd. unfold pg_update_restore. rewrite Hid.
  destruct (rows_update restore_id _ _ id (restore_update new) Hs) as [Hok Hv]; [done|].
  eexists. split_and!; [done|by split_and!|]. unfold pg_view, put_restore. simpl. simpl in Hget. rewrite Hv, Hget.
  f_equal. f_equal. apply (rows_elem _ _ _ _ _ Hs) in Hget as [_ Hold]. by eapply restore_update_same.
Qed.

Lemma artifact_run_checks a r : artifact_checks a = true -> checksum_sha256 r = Some (art_checksum a) ->
  artifact_size_bytes r = Some (size_bytes a) -> run_checks r = true.
Proof.
  unfold artifact_checks, run_checks. intros Hck Hc Hz. rewrite Hc, Hz. cbn [opt_holds].
  destruct (checksum_format _), (_ <=? _)%Z, (int8 _); rewrite ?andb_false_r in Hck; done.
Qed.
End PgLaws.

#[export] Instance PostgresBackupRepository_laws : BackupRepositoryLaws PostgresBackupRepository.
Proof.
  refine {| view := pg_view; repo_ok := pg_ok; run_storable r := run_checks r = true |}.
  - exact pg_stored_run.
  - intros r r' Hc Hz. unfold run_checks. by rewrite Hc, Hz.
  - exact pg_ids.
  - exact pg_policy_find.
  - exact pg_run_find.
  - intros s (Hp & _). split; [|apply policies_by_name]. simpl. by rewrite (rows_values _ _ _ Hp), py_sorted_perm.
  - exact pg_artifacts_of.
  - exact pg_artifact_of_run.
  - intros now p s Hok Hid. simpl. unfold pg_create_policy.
    destruct (policy_checks p); [|right; eauto]. destruct (existsb _ _); [right; eauto|].
    left. exists (gen_uuid s), now. eexists. cbn zeta. split; [done|]. by apply pg_insert_policy.
  - intros now id next p s (Hp & Hr & Ha & Hs & Hck) Hget.
    destruct (rows_update policy_id _ _ id (set_next_run next (Some now)) Hp) as [Hok Hv]; [done|].
    eexists. split_and!; [done|by split_and!|]. unfold pg_view, put_policy. simpl. simpl in Hget.
    by rewrite Hv, Hget.
  - intros pid trig now s Hok. simpl. unfold pg_create_run. cbn [trigger new_run run_policy_id].
    destruct (not_blank trig); [|right; eexists; split_and!; eauto].
    rewrite (pg_policy_find _ _ Hok). destruct (_ !! pid) eqn:Hp; [|right; eexists; split_and!; eauto].
    left. exists (gen_uuid s). eexists. cbn zeta. split; [done|]. by apply pg_insert_run.
  - exact pg_update_run_law.
  - intros now a s Hok Hid. simpl. unfold pg_create_artifact.
    destruct (artifact_checks a) eqn:Hck; [|right; eexists; split; [done|naive_solver]].
    rewrite (pg_policy_find _ _ Hok), (pg_run_find _ _ Hok).
    destruct (runs _ !! _) eqn:Hr; [|right; eexists; split; [done|intros (_ & [? Hx] & _); simpl in Hr; congruence]].
    destruct (policies _ !! _) eqn:Hp; [|right; eexists; split; [done|intros (_ & _ & [? Hx]); simpl in Hp; congruence]].
    left. exists (gen_uuid s), now. eexists. cbn zeta. split; [done|].
    destruct (pg_insert_artifact (set_artifact_id (gen_uuid s) (set_artifact_created now a)) s Hok eq_refl)
      as (Hi1 & Hi2 & Hi3).
    split_and!; [exact Hi1|exact Hi2|exact Hi3|]. intros r. by apply artifact_run_checks.
  - intros id x a s (Hp & Hr & Ha & Hs & Hck) Hget.
    destruct (rows_update artifact_id _ _ id (set_artifact_status x) Ha) as [Hok Hv]; [done|].
    eexists. split_and!; [done|by split_and!|]. unfold pg_view, put_artifact. simpl. simpl in Hget.
    by rewrite Hv, Hget.
  - intros r s Hok Hid Hcompl Herr. simpl. unfold pg_create_restore.
    destruct (ref_safe (restore_connection_ref r)); [|right; eexists; split; [done|naive_solver]].
    rewrite (pg_run_find _ _ Hok).
    destruct (runs _ !! _) eqn:Hr; [|right; eexists; split; [done|intros (_ & [? Hx]); simpl in Hr; congruence]].
    assert (Hrow : forall id, restore_row id r = set_restore_id id r)
      by (intros id; destruct r; simpl in *; by subst).
    left. exists (gen_uuid s). rewrite Hrow. eexists. cbn zeta. split; [done|]. by apply pg_insert_restore.
  - exact pg_update_restore_law.
  - intros a s _. by left.
Defined.
