(* ===== verification/BackupStorage.v ===== *)
(** The object storages of backups: [storage.py] of apexquant-backup-recovery.

    A client works on the local file system and on a remote state; the directory
    storage has no remote state, since its objects are files. *)
From stdpp Require Import base strings list gmap sorting pretty numbers.
From Stdlib Require Import Ascii.
From S2P Require Import Prelude PyStr PyPath Backup.

#[local] Open Scope string_scope.

Class ObjectStorageClient (S : Type) := {
  upload_file : Path -> string -> st (FileSystem * S) backup_exc string;
  download_file : string -> Path -> st (FileSystem * S) backup_exc unit;
  list_objects : string -> FileSystem * S -> result backup_exc (list string);
  delete_object : string -> st (FileSystem * S) backup_exc unit;
  object_exists : string -> FileSystem * S -> result backup_exc bool
}.

(** A call that works on the files only. *)
Definition on_files {S A} (f : FileSystem -> result os_exc A * FileSystem) : st (FileSystem * S) backup_exc A :=
  fun s => let '(r, fs) := f s.1 in (map_err FileError r, (fs, s.2)).

(** ** LocalDirectoryStorage *)
Section Local.
(** [self._base], the directory of the bucket *)
Context (base : Path).

Definition path_for_key (key : string) : st (FileSystem * unit) backup_exc Path :=
  let path := path_div base key in
  on_files (mkdir_parents (path_parent path)) ≫= fun _ => mret path.

Definition local_upload_file (local_path : Path) (key : string) : st (FileSystem * unit) backup_exc string :=
  target ← path_for_key key;
  on_files (copyfile local_path target) ≫= fun _ =>
  lift (map_err FileError (as_uri target)).

Definition local_download_file (key : string) (local_path : Path) : st (FileSystem * unit) backup_exc unit := fun s =>
  let source := path_div base key in
  if negb (path_exists source s.1)
  then (Err (ObjectStorageError ("backup object does not exist: " ++ key)), s)
  else (on_files (mkdir_parents (path_parent local_path)) ≫= fun _ => on_files (copyfile source local_path)) s.

Definition local_list_objects (prefix : string) (s : FileSystem * unit) : result backup_exc (list string) :=
  if negb (path_exists base s.1) then Ok []
  else Ok (py_sorted str_lt (filter (fun k => starts_with prefix k = true)
             (omap (path_below base) (map_to_list (files s.1)).*1))).

Definition local_delete_object (key : string) : st (FileSystem * unit) backup_exc unit := fun s =>
  let path := path_div base key in
  if path_exists path s.1 then on_files (unlink path) s else (Ok tt, s).

Definition LocalDirectoryStorage : ObjectStorageClient unit := {|
  upload_file := local_upload_file;
  download_file := local_download_file;
  list_objects := local_list_objects;
  delete_object := local_delete_object;
  object_exists key s := Ok (path_exists (path_div base key) s.1)
|}.
End Local.

(** [LocalDirectoryStorage(root, bucket)] makes the directory of the bucket. *)
Definition local_base (root : Path) (bucket : string) : Path := path_div root bucket.
Definition new_local_storage (root : Path) (bucket : string) : st (FileSystem * unit) backup_exc unit :=
  on_files (mkdir_parents (local_base root bucket)).

(** ** S3Storage, over the calls of the boto3 client *)
Section S3.
Context {B : Type} (client_upload : string -> string -> string -> bool -> FileSystem * B -> result string unit * (FileSystem * B))
  (client_download : string -> string -> string -> FileSystem * B -> result string unit * (FileSystem * B))
  (client_pages : string -> string -> B -> result string (list (option (list string))))
  (client_delete : string -> string -> B -> result string unit * B)
  (client_head : string -> string -> B -> result (bool * string) unit).
Context (bucket : string) (server_side_encryption : bool).

Definition other {S A} (m : S -> result string A * S) : st S backup_exc A := fun s =>
  let '(r, s') := m s in (map_err OtherError r, s').

Definition s3_upload_file (local_path : Path) (key : string) : st (FileSystem * B) backup_exc string :=
  other (client_upload (path_str local_path) bucket key server_side_encryption) ≫= fun _ =>
  mret ("s3://" ++ bucket ++ "/" ++ key).

Definition s3_download_file (key : string) (local_path : Path) : st (FileSystem * B) backup_exc unit :=
  on_files (mkdir_parents (path_parent local_path)) ≫= fun _ =>
  other (client_download bucket key (path_str local_path)).

Definition s3_list_objects (prefix : string) (s : FileSystem * B) : result backup_exc (list string) :=
  pages ← map_err OtherError (client_pages bucket prefix s.2);
  Ok (py_sorted str_lt (concat ((default []) <$> pages))).

Definition s3_delete_object (key : string) : st (FileSystem * B) backup_exc unit := fun s =>
  let '(r, b) := client_delete bucket key s.2 in (map_err OtherError r, (s.1, b)).

(** A ClientError says that the object does not exist. *)
Definition s3_exists (key : string) (s : FileSystem * B) : result backup_exc bool :=
  match client_head bucket key s.2 with
  | Ok _ => Ok true
  | Err (true, _) => Ok false
  | Err (false, m) => Err (OtherError m)
  end.

Definition S3Storage : ObjectStorageClient B := {|
  upload_file := s3_upload_file;
  download_file := s3_download_file;
  list_objects := s3_list_objects;
  delete_object := s3_delete_object;
  object_exists := s3_exists
|}.
End S3.
