(* ===== verification/BackupService.v ===== *)
(** The backup service: [service.py] and [runner.py] of
    apexquant-backup-recovery.

    A world is the store, the files and the storage, the commands handed to the
    operating system so far and the readings of the clock.  An operation that
    changes its run inside a [try] raises with the run as it was then, since the
    handler goes on with it. *)
From stdpp Require Import base strings list gmap sorting pretty numbers.
From Stdlib Require Import Ascii.
From S2P Require Import Prelude PyStr PyPath Backup BackupStore BackupStorage.

#[local] Open Scope string_scope.

Record World (R S : Type) := { repo : R; store : FileSystem * S; executed : list (list string); ticks : nat }.
Arguments repo {R S}. Arguments store {R S}. Arguments executed {R S}. Arguments ticks {R S}.
Arguments Build_World {R S}.

(** What [subprocess.run] does: a completed process, or an exception that is not
    one of the package. *)
Inductive Process := Completed (returncode : Z) (stdout stderr : string) | Raised (text : string).

(** ** Times, in microseconds since 1970 *)

Definition minutes (n : Z) : Z := n * 60000000.
Definition days (n : Z) : Z := n * 86400000000.
(** The end of the year 9999. *)
Definition MAX_TIME : Z := 253402300800000000.
(** [now + timedelta] *)
Definition later (now delta : Z) : result backup_exc Z :=
  let d := (delta / 86400000000)%Z in
  if (999999999 <? d)%Z
  then Err (OtherError ("days=" ++ pretty d ++ "; must have magnitude <= 999999999"))
  else if (now + delta <? MAX_TIME)%Z then Ok (now + delta)%Z
  else Err (OtherError "date value out of range").

Section Service.
Context {R S : Type} `{BackupRepository R} `{ObjectStorageClient S}.
Context (environment : string) (workdir : Path) (environ : string -> option string)
  (subprocess_run : list string -> option Z -> FileSystem -> Process * FileSystem)
  (sha256_hex : string -> string) (read_clock : nat -> Z).

Notation W := (World R S).
Notation WM := (st W backup_exc).

Definition tick (w : W) : W :=
  {| repo := repo w; store := store w; executed := executed w; ticks := (ticks w + 1)%nat |}.
Definition with_repo (s : R) (w : W) : W :=
  {| repo := s; store := store w; executed := executed w; ticks := ticks w |}.

Definition utc_now {E} : st W E Z := fun w => (Ok (read_clock (ticks w)), tick w).
Definition on_repo {A} (m : st R backup_exc A) : WM A := fun w => let '(r, s) := m (repo w) in (r, with_repo s w).
Definition on_store {A} (m : st (FileSystem * S) backup_exc A) : WM A := fun w =>
  let '(r, s) := m (store w) in
  (r, {| repo := repo w; store := s; executed := executed w; ticks := ticks w |}).

(** ** runner.py *)

Definition run_command (command : list string) (timeout : option Z) : WM unit := fun w =>
  let '(p, fs) := subprocess_run command timeout (store w).1 in
  (match p with
   | Completed 0 _ _ => Ok tt
   | Completed rc _ stderr =>
       Err (CommandError ("command failed with exit code " ++ pretty rc ++ ": " ++ stderr))
   | Raised text => Err (OtherError text)
   end,
   {| repo := repo w; store := (fs, (store w).2); executed := executed w ++ [command]; ticks := ticks w |}).

(** ** checksum.py *)

Definition file_bytes (p : Path) : WM string := fun w => (map_err FileError (read_bytes p (store w).1), w).
Definition sha256_file (p : Path) : WM string := b ← file_bytes p; mret (sha256_hex b).

(** ** service.py *)

(** [try: m except Exception as exc: h exc] *)
Definition try_except {E F A} (m : st W E A) (h : E -> st W F A) : st W F A := fun w =>
  match m w with
  | (Ok a, w') => (Ok a, w')
  | (Err e, w') => h e w'
  end.
(** A part of a [try] during which [run] is as given. *)
Definition with_run {A} (run : BackupRun) (m : WM A) : st W (BackupRun * backup_exc) A := fun w =>
  let '(r, w') := m w in (map_err (pair run) r, w').

(** The ids of stored objects: [create_run] and [create_policy] set them. *)
Definition run_ident (r : BackupRun) : Uuid := default 0%N (run_id r).
Definition policy_ident (p : BackupPolicy) : Uuid := default 0%N (policy_id p).
Definition artifact_ident (a : BackupArtifact) : Uuid := default 0%N (artifact_id a).

Definition service_create_policy (p : BackupPolicy) : WM BackupPolicy :=
  p ← (if enabled p && bool_decide (next_run_at p = None) then
         now ← utc_now;
         next ← lift (later now (minutes (interval_minutes p)));
         mret (set_next_run next (updated_at p) p)
       else mret p);
  now ← utc_now;
  on_repo (create_policy now p).

(** [prefix.strip("/")] *)
Fixpoint lstrip_slashes (s : string) : string :=
  match s with String "/" s' => lstrip_slashes s' | _ => s end.
Definition strip_slashes (s : string) : string := rstrip_char "/" (lstrip_slashes s).

Definition object_key (policy : BackupPolicy) (run : Uuid) : string :=
  strip_slashes (storage_prefix policy) ++ "/" ++ str_lower (target_system_value (target_system policy)) ++ "/"
  ++ target_name policy ++ "/" ++ uuid_text run ++ ".dump".

Definition new_artifact (policy : BackupPolicy) (run : BackupRun) (u : string) (size : Z) (checksum : string)
    (created : Z) (expires : option Z) : BackupArtifact :=
  {| artifact_id := None; art_run_id := run_ident run; art_policy_id := run_policy_id run;
     art_target_system := target_system policy; art_target_name := target_name policy;
     storage_key := object_key policy (run_ident run); uri := u; size_bytes := size; art_checksum := checksum;
     art_encryption_key_ref := encryption_key_ref policy; art_status := ACTIVE; art_created_at := created;
     expires_at := expires |}.

(** The dump written by the command: its path and its checksum and size. *)
Definition make_dump (policy : BackupPolicy) (run : BackupRun) : WM (Path * string * Z) :=
  connection ← lift (resolve_connection_ref environ (target_connection_ref policy));
  '(command, output_path) ← lift (build_backup_command policy workdir (uuid_text (run_ident run)) connection);
  run_command command (Some (backup_timeout_seconds policy)) ≫= fun _ =>
  checksum ← sha256_file output_path;
  bytes ← file_bytes output_path;
  mret (output_path, checksum, Z.of_nat (String.length bytes)).

Definition expiry (policy : BackupPolicy) : WM (option Z) :=
  match retention_days policy with
  | Some n => now ← utc_now; t ← lift (later now (days n)); mret (Some t)
  | None => mret None
  end.

(** The backup made and stored: its URI, its size and its checksum. *)
Definition make_backup (policy : BackupPolicy) (run : BackupRun) : WM (string * Z * string) :=
  '(output_path, checksum, size) ← make_dump policy run;
  u ← on_store (upload_file output_path (object_key policy (run_ident run)));
  expires ← expiry policy;
  created ← utc_now;
  on_repo (create_artifact created (new_artifact policy run u size checksum created expires)) ≫= fun _ =>
  mret (u, size, checksum).

(** The run recorded, and the next one scheduled. *)
Definition finish_backup (policy : BackupPolicy) (run : BackupRun) : WM BackupRun :=
  on_repo (update_run run) ≫= fun _ =>
  (if enabled policy && negb (interval_minutes policy =? 0)%Z then
     now ← utc_now;
     next ← lift (later now (minutes (interval_minutes policy)));
     now ← utc_now;
     on_repo (update_policy_next_run now (run_policy_id run) next)
   else mret tt) ≫= fun _ =>
  mret run.

Definition backup_body (policy : BackupPolicy) (run : BackupRun) : st W (BackupRun * backup_exc) BackupRun :=
  '(u, size, checksum) ← with_run run (make_backup policy run);
  now ← utc_now;
  let run := run_succeeded now u size checksum run in
  with_run run (finish_backup policy run).

Definition backup_failed (p : BackupRun * backup_exc) : WM BackupRun :=
  now ← utc_now;
  on_repo (update_run (run_failed now (exc_text p.2) p.1)) ≫= fun _ =>
  raise (BackupError (exc_text p.2)).

Definition create_backup (pid : Uuid) (trig : string) : WM BackupRun :=
  w ← get_state;
  match get_policy pid (repo w) with
  | None => raise (BackupNotFoundError ("backup policy not found: " ++ uuid_text pid))
  | Some policy =>
      guard_raise (negb (enabled policy)) (BackupError ("backup policy is disabled: " ++ name policy)) ≫= fun _ =>
      now ← utc_now;
      run ← on_repo (create_run (new_run pid trig now));
      try_except (backup_body policy run) backup_failed
  end.

Definition local_dump (what : string) (run : Uuid) : Path := path_div workdir (what ++ "-" ++ uuid_text run ++ ".dump").

(** The artifact downloaded, and its checksum compared. *)
Definition fetch_artifact (artifact : BackupArtifact) (local_path : Path) (mismatch : string) : WM unit :=
  on_store (download_file (storage_key artifact) local_path) ≫= fun _ =>
  checksum ← sha256_file local_path;
  guard_raise (negb (checksum =? art_checksum artifact)) (BackupError mismatch).

Definition check_artifact (policy : BackupPolicy) (artifact : BackupArtifact) (local_path : Path) : WM unit :=
  fetch_artifact artifact local_path "backup artifact checksum mismatch; backup is corrupt" ≫= fun _ =>
  run_command (build_verify_command local_path) (Some (backup_timeout_seconds policy)).

Definition verify_body (rid : Uuid) (policy : BackupPolicy) (artifact : BackupArtifact) (run : BackupRun)
    : st W (BackupRun * backup_exc) BackupRun :=
  with_run run (check_artifact policy artifact (local_dump "verify" rid)) ≫= fun _ =>
  now ← utc_now;
  let run := run_verified now run in
  with_run run (on_repo (update_run run)) ≫= fun _ =>
  mret run.

Definition verify_failed (p : BackupRun * backup_exc) : WM BackupRun :=
  on_repo (update_run (run_unverified (exc_text p.2) p.1)) ≫= fun _ =>
  raise (BackupError (exc_text p.2)).

Definition verify_backup (rid : Uuid) : WM BackupRun :=
  w ← get_state;
  match get_run rid (repo w) with
  | None => raise (BackupNotFoundError ("backup run not found: " ++ uuid_text rid))
  | Some run =>
      match get_artifact_by_run rid (repo w) with
      | None => raise (BackupNotFoundError ("backup artifact not found for run: " ++ uuid_text rid))
      | Some artifact =>
          match get_policy (run_policy_id run) (repo w) with
          | None => raise (BackupNotFoundError ("backup policy not found: " ++ uuid_text (run_policy_id run)))
          | Some policy => try_except (verify_body rid policy artifact run) verify_failed
          end
      end
  end.

(** The guards of a restore, its run found. *)
Definition restore_guards (rid : Uuid) (run : BackupRun) (artifact : option BackupArtifact)
    (dry confirm allow_production_restore : bool) : result backup_exc BackupArtifact :=
  if negb (bool_decide (status run = RUN_SUCCEEDED)) then Err (BackupError "only succeeded backup runs may be restored")
  else match artifact with
       | None => Err (BackupNotFoundError ("backup artifact not found for run: " ++ uuid_text rid))
       | Some a =>
           if (environment =? "production") && negb allow_production_restore
           then Err (RestoreSafetyError "production restores require explicit allow_production_restore")
           else if negb dry && negb confirm
           then Err (RestoreSafetyError "restore execution requires confirm=true; default is dry-run")
           else Ok a
       end.

Definition value_error {A} (r : result string A) : result backup_exc A := map_err OtherError r.

Definition new_restore (rid : Uuid) (ref url command : string) (dry : bool) (now : Z) : RestoreRun :=
  {| restore_id := None; backup_run_id := rid; restore_connection_ref := ref; target_connection_redacted := url;
     command_redacted := Some command; restore_status := if dry then DRY_RUN else RESTORE_RUNNING; dry_run := dry;
     restore_started_at := now; restore_completed_at := None; restore_error := None |}.

(** [try: run the command, record it; except: record the failure] *)
Definition execute_restore (command : list string) (restore : RestoreRun) : WM RestoreRun :=
  try_except
    (run_command command None ≫= fun _ =>
     now ← utc_now;
     let restore := restore_done RESTORE_SUCCEEDED now (restore_error restore) restore in
     on_repo (update_restore restore) ≫= fun _ =>
     mret restore)
    (fun exc =>
     now ← utc_now;
     on_repo (update_restore (restore_done RESTORE_FAILED now (Some (exc_text exc)) restore)) ≫= fun _ =>
     raise (BackupError (exc_text exc))).

Definition restore_backup (rid : Uuid) (target_ref : string) (dry confirm allow_production_restore : bool)
    : WM RestoreRun :=
  w ← get_state;
  match get_run rid (repo w) with
  | None => raise (BackupNotFoundError ("backup run not found: " ++ uuid_text rid))
  | Some run =>
      artifact ← lift (restore_guards rid run (get_artifact_by_run rid (repo w)) dry confirm allow_production_restore);
      connection ← lift (resolve_connection_ref environ target_ref);
      let local_path := local_dump "restore" rid in
      fetch_artifact artifact local_path "backup artifact checksum mismatch; refusing restore" ≫= fun _ =>
      let command := build_restore_command local_path connection in
      redacted_command ← lift (value_error (redact_command command));
      redacted_url ← lift (value_error (redact_url connection));
      now ← utc_now;
      restore ← on_repo (create_restore (new_restore rid target_ref redacted_url (Json.join " " redacted_command) dry now));
      if dry then
        now ← utc_now;
        let restore := restore_done (restore_status restore) now (restore_error restore) restore in
        on_repo (update_restore restore) ≫= fun _ =>
        mret restore
      else execute_restore command restore
  end.

Definition is_active (a : BackupArtifact) : bool := bool_decide (art_status a = ACTIVE).

(** Whether an active artifact, the [index]-th from the newest, is expired. *)
Definition expired_by_count (policy : BackupPolicy) (index : nat) : bool :=
  match retention_count policy with Some n => (n <=? Z.of_nat index)%Z | None => false end.
Definition expired_by_age (policy : BackupPolicy) (now : Z) (a : BackupArtifact) : bool :=
  match retention_days policy, expires_at a with Some _, Some t => (t <=? now)%Z | _, _ => false end.
Fixpoint select_expired (policy : BackupPolicy) (now : Z) (index : nat) (l : list BackupArtifact)
    : list BackupArtifact :=
  match l with
  | [] => []
  | a :: l' =>
      if expired_by_count policy index || expired_by_age policy now a
      then a :: select_expired policy now (index + 1) l'
      else select_expired policy now (index + 1) l'
  end.

Definition expire_artifact (policy : BackupPolicy) (a : BackupArtifact) : WM unit :=
  on_repo (update_artifact_status (artifact_ident a) EXPIRED) ≫= fun _ =>
  if delete_expired policy then
    on_store (delete_object (storage_key a)) ≫= fun _ =>
    on_repo (update_artifact_status (artifact_ident a) DELETED)
  else mret tt.

Definition apply_retention (pid : Uuid) : WM (list BackupArtifact) :=
  w ← get_state;
  match get_policy pid (repo w) with
  | None => raise (BackupNotFoundError ("backup policy not found: " ++ uuid_text pid))
  | Some policy =>
      let active := filter (fun a => is_active a = true) (list_artifacts pid (repo w)) in
      let active := py_sorted_rev by_creation active in
      now ← utc_now;
      let expired := select_expired policy now 0 active in
      for_each (expire_artifact policy) expired ≫= fun _ =>
      w' ← get_state;
      mret ((fun a => held_artifact a (repo w')) <$> expired)
  end.

Definition is_due (now : Z) (p : BackupPolicy) : bool :=
  enabled p && match next_run_at p with Some t => (t <=? now)%Z | None => false end.

(** The loop over the due policies: an exception of the package is passed over. *)
Fixpoint run_policies (l : list BackupPolicy) : WM (list BackupRun) :=
  match l with
  | [] => mret []
  | p :: l' => fun w =>
      match create_backup (policy_ident p) "scheduled" w with
      | (Ok run, w') => (runs ← run_policies l'; mret (run :: runs)) w'
      | (Err e, w') => if is_backup_error e then run_policies l' w' else (Err e, w')
      end
  end.

Definition run_due : WM (list BackupRun) :=
  now ← utc_now;
  w ← get_state;
  run_policies (filter (fun p => is_due now p = true) (list_policies (repo w))).
End Service.
