(* ===== verification/BackupProps.v ===== *)
(** Backups, over any store that keeps its laws and any storage: what a restore
    needs before it runs and leaves behind, what a backup records on every
    branch, which policies a sweep attempts, which artifacts retention expires. *)
From stdpp Require Import base strings list gmap sorting pretty numbers.
From Stdlib Require Import Ascii.
From S2P Require Import Prelude PyStr PyPath Backup BackupStore BackupStorage BackupService.

#[local] Open Scope string_scope.

Section Props.
Context {R S : Type} `{HR : BackupRepositoryLaws R} `{HS : ObjectStorageClient S}.
Context (workdir : Path) (environ : string -> option string)
  (subprocess_run : list string -> option Z -> FileSystem -> Process * FileSystem)
  (sha256_hex : string -> string) (read_clock : nat -> Z).
Implicit Types w : World R S.

Notation WM := (st (World R S) backup_exc).
Abbreviation state w := (view (repo w)).
Abbreviation clock := (utc_now (R := R) (S := S) read_clock).
Abbreviation exec := (run_command (R := R) (S := S) subprocess_run).
Abbreviation backup := (create_backup (R := R) (S := S) workdir environ subprocess_run sha256_hex read_clock).
Abbreviation retain := (apply_retention (R := R) (S := S) read_clock).
Abbreviation sweep := (run_due (R := R) (S := S) workdir environ subprocess_run sha256_hex read_clock).

(** ** Steps of an operation *)

Lemma st_bind_clock {E A} (f : Z -> st (World R S) E A) w :
  (utc_now read_clock ≫= f) w = f (read_clock (ticks w)) (tick w).
Proof. done. Qed.

(** A step that leaves the store of rows and the commands executed as they were. *)
Definition calm (w w' : World R S) : Prop := repo w' = repo w /\ executed w' = executed w.
#[local] Instance calm_preorder : PreOrder calm.
Proof. split; [by split|]. intros w1 w2 w3 [Ha Hb] [Hc Hd]. split; congruence. Qed.

Lemma calm_clock : st_within (E := backup_exc) calm clock.
Proof. intros w r w' [= <- <-]. done. Qed.

Lemma calm_store {A} (m : st (FileSystem * S) backup_exc A) : st_within calm (on_store (R := R) m).
Proof. intros w r w'. unfold on_store. destruct (m (store w)). intros [= <- <-]. done. Qed.

Lemma calm_file p : st_within calm (file_bytes (R := R) (S := S) p).
Proof. intros w r w' [= <- <-]. done. Qed.

Lemma calm_sha p : st_within calm (sha256_file (R := R) (S := S) sha256_hex p).
Proof. apply within_bind; [apply calm_preorder|apply calm_file|]. intros b. apply within_ret, calm_preorder. Qed.

Lemma on_repo_ok {A B} (m : st R backup_exc A) (f : A -> WM B) w a s : m (repo w) = (Ok a, s) ->
  (on_repo m ≫= f) w = f a (with_repo s w).
Proof. intros Hm. unfold on_repo, mbind, st_bind. by rewrite Hm. Qed.

Lemma on_repo_err {A B} (m : st R backup_exc A) (f : A -> WM B) w e s : m (repo w) = (Err e, s) ->
  (on_repo m ≫= f) w = (Err e, with_repo s w).
Proof. intros Hm. unfold on_repo, mbind, st_bind. by rewrite Hm. Qed.

Lemma on_repo_inv {A} (m : st R backup_exc A) w r w' : on_repo (S := S) m w = (r, w') ->
  m (repo w) = (r, repo w') /\ store w' = store w /\ executed w' = executed w /\ ticks w' = ticks w.
Proof. unfold on_repo. destruct (m (repo w)). by intros [= <- <-]. Qed.

Lemma on_store_inv {A} (m : st (FileSystem * S) backup_exc A) w r w' : on_store (R := R) m w = (r, w') ->
  m (store w) = (r, store w') /\ repo w' = repo w /\ executed w' = executed w.
Proof. unfold on_store. destruct (m (store w)). by intros [= <- <-]. Qed.

Lemma sha_inv p w r w' : sha256_file (R := R) (S := S) sha256_hex p w = (r, w') -> w' = w /\
  match r with
  | Ok h => exists b, files (store w).1 !! p = Some b /\ h = sha256_hex b
  | Err _ => True
  end.
Proof.
  unfold sha256_file, file_bytes, mbind, st_bind, read_bytes. destruct (files (store w).1 !! p) as [b|].
  - intros [= <- <-]. split; [done|]. by exists b.
  - intros Heq. repeat case_match; simplify_eq; by split.
Qed.

(** A command runs on the files as they are, and is the last executed. *)
Lemma exec_inv command timeout w r w' : exec command timeout w = (r, w') ->
  repo w' = repo w /\ executed w' = (executed w ++ [command])%list /\ ticks w' = ticks w /\
  (store w').1 = (subprocess_run command timeout (store w).1).2 /\ (store w').2 = (store w).2.
Proof. unfold run_command. destruct (subprocess_run _ _ _). intros [= <- <-]. done. Qed.

(** ** Restores *)

Section Restores.
Context (environment : string).
Abbreviation restore := (restore_backup (R := R) (S := S) environment workdir environ subprocess_run sha256_hex read_clock).

Definition is_dumped (w : World R S) (p : Path) (b : string) : Prop := files (store w).1 !! p = Some b.

(** The row of the restore [id], finished with the outcome [res]. *)
Definition restore_recorded (id rid : Uuid) (res : result backup_exc RestoreRun) (w : World R S) : Prop :=
  exists row, restores (state w) !! id = Some row /\ backup_run_id row = rid /\ dry_run row = false /\
    is_Some (restore_completed_at row) /\
    match res with
    | Ok r => row = r /\ restore_status row = RESTORE_SUCCEEDED
    | Err e => restore_status row = RESTORE_FAILED /\ restore_error row = Some (exc_text e)
    end.

Lemma execute_restore_spec command row id w res w' :
  repo_ok (repo w) -> restores (state w) !! id = Some row -> restore_id row = Some id ->
  dry_run row = false ->
  execute_restore subprocess_run read_clock command row w = (res, w') ->
  executed w' = (executed w ++ [command])%list /\ repo_ok (repo w') /\
  (store w').1 = (subprocess_run command None (store w).1).2 /\ (store w').2 = (store w).2 /\
  restore_recorded id (backup_run_id row) res w' /\
  exists row', state w' = put_restore id row' (state w).
Proof.
  intros Hok Hget Hid Hdry. unfold execute_restore, try_except.
  destruct (exec command None w) as [[[]|e] w1] eqn:Hex; pose proof (exec_inv _ _ _ _ _ Hex) as (Hr & Hx & _ & Hf & Hs).
  - run Hex. rewrite st_bind_clock.
    destruct (law_update_restore id (restore_done RESTORE_SUCCEEDED (read_clock (ticks w1)) (restore_error row) row)
                row (repo (tick w1))) as (s & Hup & Hok' & Hv); [by simpl; rewrite Hr|done|by simpl; rewrite Hr|done..|].
    rewrite (on_repo_ok _ _ _ _ _ Hup). intros [= <- <-]. simpl. rewrite Hv. simpl. rewrite Hr.
    split_and!; try done; [|by eexists].
    eexists. simpl. rewrite Hv. simpl. rewrite lookup_insert_eq. done.
  - run_err Hex. rewrite st_bind_clock.
    destruct (law_update_restore id (restore_done RESTORE_FAILED (read_clock (ticks w1)) (Some (exc_text e)) row)
                row (repo (tick w1))) as (s & Hup & Hok' & Hv); [by simpl; rewrite Hr|done|by simpl; rewrite Hr|done..|].
    rewrite (on_repo_ok _ _ _ _ _ Hup). intros [= <- <-]. simpl. rewrite Hv. simpl. rewrite Hr.
    split_and!; try done; [|by eexists].
    eexists. simpl. rewrite Hv. simpl. rewrite lookup_insert_eq. done.
Qed.

Lemma restore_guards_ok rid run oart dry confirm allow art :
  restore_guards environment rid run oart dry confirm allow = Ok art ->
  status run = RUN_SUCCEEDED /\ oart = Some art /\ (environment = "production" -> allow = true) /\
  (dry = false -> confirm = true).
Proof.
  unfold restore_guards. case_bool_decide as Hst; [|done]. destruct oart as [a|]; [|done]. simpl.
  destruct (String.eqb_spec environment "production") as [He|He]; destruct allow, dry, confirm; simpl; try done;
    intros [= <-]; by split_and!.
Qed.

Abbreviation fetch := (fetch_artifact (R := R) (S := S) sha256_hex).

Lemma fetch_spec art p m w r w' : fetch art p m w = (r, w') ->
  calm w w' /\ (r = Ok tt -> exists b, is_dumped w' p b /\ sha256_hex b = art_checksum art).
Proof.
  intros Hf. unfold fetch_artifact in Hf. st_inv Hf as u w1 Hdl; [|split; [by eapply calm_store|done]].
  pose proof (calm_store _ _ _ _ Hdl) as Hc1.
  st_inv Hf as sum w2 Hsum; [|apply sha_inv in Hsum as [-> _]; by split].
  apply sha_inv in Hsum as (-> & b & Hb & ->). unfold guard_raise in Hf.
  destruct (String.eqb_spec (sha256_hex b) (art_checksum art)); simpl in Hf; injection Hf as <- <-; split; try done.
  intros _. by exists b.
Qed.

(** Only rows of restores differ. *)
Definition restores_only (b b' : BackupState) : Prop :=
  policies b' = policies b /\ runs b' = runs b /\ artifacts b' = artifacts b.

Lemma calm_restores w w' : repo_ok (repo w) -> calm w w' ->
  repo_ok (repo w') /\ restores_only (state w) (state w') /\ executed w' = executed w.
Proof. intros Hok [Hr Hx]. unfold restores_only. by rewrite Hr. Qed.

(** What a restore needs before it executes [cmd] on [fs], and what it records. *)
Definition restore_executed (rid : Uuid) (ref : string) (dry confirm allow : bool) (w : World R S)
    (res : result backup_exc RestoreRun) (w' : World R S) : Prop :=
  exists run art conn b id fs, let file := local_dump workdir "restore" rid in
    runs (state w) !! rid = Some run /\ status run = RUN_SUCCEEDED /\
    get_artifact_by_run rid (repo w) = Some art /\
    dry = false /\ confirm = true /\ (environment = "production" -> allow = true) /\
    resolve_connection_ref environ ref = Ok conn /\
    files fs !! file = Some b /\ sha256_hex b = art_checksum art /\
    executed w' = (executed w ++ [build_restore_command file conn])%list /\
    (store w').1 = (subprocess_run (build_restore_command file conn) None fs).2 /\
    restores (state w) !! id = None /\ restore_recorded id rid res w'.

Lemma restore_cases rid ref dry confirm allow w res w' :
  repo_ok (repo w) -> restore rid ref dry confirm allow w = (res, w') ->
  repo_ok (repo w') /\ restores_only (state w) (state w') /\
  (executed w' = executed w \/ restore_executed rid ref dry confirm allow w res w').
Proof.
  intros Hok. assert (Hcalm : forall w0 P, calm w w0 -> repo_ok (repo w0) /\ restores_only (state w) (state w0) /\
    (executed w0 = executed w \/ P)) by (intros w0 P Hc; destruct (calm_restores w w0 Hok Hc) as (? & ? & ?); auto).
  unfold restore_backup. rewrite st_bind_get. rewrite (law_get_run _ _ Hok).
  destruct (runs (state w) !! rid) as [run|] eqn:Hrun; [|intros [= _ <-]; by apply Hcalm].
  rewrite st_bind_lift. destruct (restore_guards _ _ _ _ _ _ _) as [art|] eqn:Hg; [|intros [= _ <-]; by apply Hcalm].
  apply restore_guards_ok in Hg as (Hst & Hart & Hprod & Hconf).
  rewrite st_bind_lift. destruct (resolve_connection_ref _ _) as [conn|] eqn:Hconn; [|intros [= _ <-]; by apply Hcalm].
  set (file := local_dump workdir "restore" rid). intros Hr.
  st_inv Hr as u w1 Hf; apply fetch_spec in Hf as [Hc Hfile]; [|by apply Hcalm].
  rewrite st_bind_lift in Hr. destruct (value_error (redact_command _)) as [red|]; [|injection Hr as _ <-; by apply Hcalm].
  rewrite st_bind_lift in Hr. destruct (value_error (redact_url conn)) as [url|]; [|injection Hr as _ <-; by apply Hcalm].
  rewrite st_bind_clock in Hr. set (rs := new_restore _ _ _ _ _ _) in Hr. destruct Hc as [Hrepo Hexec].
  destruct (law_create_restore rs (repo (tick w1))) as [(id & s & Heq & Hok2 & Hfresh & Hv)|(e & Heq & _)]; try done;
    [simpl; by rewrite Hrepo| |rewrite (on_repo_err _ _ _ _ _ Heq) in Hr; injection Hr as _ <-; by apply Hcalm].
  rewrite (on_repo_ok _ _ _ _ _ Heq) in Hr. simpl in Hfresh, Hv. rewrite Hrepo in Hfresh, Hv.
  set (row := set_restore_id id rs) in *. set (w2 := with_repo s (tick w1)) in Hr.
  assert (Hv2 : state w2 = put_restore id row (state w)) by exact Hv.
  assert (Hrow : restores (state w2) !! id = Some row) by (rewrite Hv2; apply lookup_insert_eq).
  destruct dry.
  - rewrite st_bind_clock in Hr.
    destruct (law_update_restore id (restore_done (restore_status row) (read_clock (ticks w2)) (restore_error row) row)
                row (repo (tick w2))) as (s' & Hup & Hok' & Hv'); try done.
    rewrite (on_repo_ok _ _ _ _ _ Hup) in Hr. injection Hr as _ <-. split_and!; [done| |by left].
    simpl. rewrite Hv'. simpl. by rewrite Hv.
  - destruct u. destruct (Hfile eq_refl) as (b & Hb & Hsum).
    destruct (execute_restore_spec _ _ id w2 _ _ Hok2 Hrow eq_refl eq_refl Hr) as (Hx & Hok' & Hfs & _ & Hrec & row' & Hv').
    split_and!; [done|by rewrite Hv', Hv2|]. right.
    exists run, art, conn, b, id, (store w1).1. cbv zeta. split_and!; try done; [by apply Hconf|].
    rewrite Hx. simpl. by rewrite Hexec.
Qed.

(** A restore runs a command only for a succeeded run with an artifact, when
    it is not a dry run, confirmed, allowed in production, and the file fetched
    has the checksum recorded for the artifact; the command is the one built for
    that file and the resolved target, and the restore is recorded with its
    outcome.  In every other case nothing is executed, and in no case does a row of
    another kind change. *)
Theorem restore_guarded rid ref dry confirm allow w res w' :
  repo_ok (repo w) -> restore rid ref dry confirm allow w = (res, w') ->
  restores_only (state w) (state w') /\
  (executed w' = executed w \/ restore_executed rid ref dry confirm allow w res w').
Proof. intros Hok Hr. by apply restore_cases in Hr as (_ & ? & ?). Qed.

End Restores.

(** ** Backups *)

Abbreviation dump := (make_dump (R := R) (S := S) workdir environ subprocess_run sha256_hex).
Abbreviation make := (make_backup (R := R) (S := S) workdir environ subprocess_run sha256_hex read_clock).

(** The dump command of a policy, and the files as it leaves them. *)
Definition builds (policy : BackupPolicy) (id : Uuid) (cmd : list string) (out : Path) : Prop :=
  exists conn, resolve_connection_ref environ (target_connection_ref policy) = Ok conn /\
    build_backup_command policy workdir (uuid_text id) conn = Ok (cmd, out).
Definition dumped (policy : BackupPolicy) (cmd : list string) (s : FileSystem * S) : FileSystem * S :=
  ((subprocess_run cmd (Some (backup_timeout_seconds policy)) s.1).2, s.2).

(** What a backup can have done to the files and the storage. *)
Definition files_touched (policy : BackupPolicy) (id : Uuid) (s s' : FileSystem * S) : Prop :=
  s' = s \/ exists cmd out, builds policy id cmd out /\
    (s' = dumped policy cmd s \/ exists r, upload_file out (object_key policy id) (dumped policy cmd s) = (r, s')).

(** The artifact [art], recorded under [aid], of the bytes [b] that the dump
    command wrote and the upload stored as [u]. *)
Definition artifact_made (policy : BackupPolicy) (run : BackupRun) (u b : string) (aid : Uuid) (art : BackupArtifact)
    (w w' : World R S) : Prop :=
  exists cmd out t created expires,
    art = set_artifact_id aid (set_artifact_created t
      (new_artifact policy run u (Z.of_nat (String.length b)) (sha256_hex b) created expires)) /\
    builds policy (run_ident run) cmd out /\ files (dumped policy cmd (store w)).1 !! out = Some b /\
    upload_file out (object_key policy (run_ident run)) (dumped policy cmd (store w)) = (Ok u, store w') /\
    executed w' = (executed w ++ [cmd])%list /\ artifacts (state w) !! aid = None.

(** A step that leaves the files too. *)
Definition quiet (w w' : World R S) : Prop := calm w w' /\ store w' = store w.
#[local] Instance quiet_preorder : PreOrder quiet.
Proof.
  split; [by split|]. intros w1 w2 w3 [Ha Hb] [Hc Hd]. split; [by transitivity w2|congruence].
Qed.

Lemma quiet_clock : st_within (E := backup_exc) quiet clock.
Proof. intros w r w' [= <- <-]. done. Qed.

Lemma dump_spec policy run w r w' : dump policy run w = (r, w') ->
  repo w' = repo w /\
  match r with
  | Ok (out, checksum, size) => exists cmd b, builds policy (run_ident run) cmd out /\
      store w' = dumped policy cmd (store w) /\ files (store w').1 !! out = Some b /\
      executed w' = (executed w ++ [cmd])%list /\ checksum = sha256_hex b /\ size = Z.of_nat (String.length b)
  | Err _ => store w' = store w \/
      exists cmd out, builds policy (run_ident run) cmd out /\ store w' = dumped policy cmd (store w)
  end.
Proof.
  unfold make_dump. rewrite st_bind_lift.
  destruct (resolve_connection_ref _ _) as [conn|] eqn:Hc; [|intros [= <- <-]; split; [done|by left]].
  rewrite st_bind_lift.
  destruct (build_backup_command _ _ _ _) as [[cmd out]|] eqn:Hcmd; [|intros [= <- <-]; split; [done|by left]].
  assert (Hb : builds policy (run_ident run) cmd out) by (by exists conn).
  assert (Hex : forall u w1, exec cmd (Some (backup_timeout_seconds policy)) w = (u, w1) ->
            repo w1 = repo w /\ executed w1 = (executed w ++ [cmd])%list /\ store w1 = dumped policy cmd (store w)).
  { intros u w1 (Hr & Hx & _ & Hf & Hs)%exec_inv. split_and!; [done|done|]. unfold dumped.
    rewrite <- Hf, <- Hs. by destruct (store w1). }
  intros Hd. st_inv Hd as u w1 H1; apply Hex in H1 as (Hr & Hx & Hs); [|split; [done|right; eauto]].
  st_inv Hd as sum w2 Hsum; apply sha_inv in Hsum as [-> Hsum]; [|split; [done|right; eauto]].
  destruct Hsum as (b & Hbytes & ->). unfold file_bytes, read_bytes in Hd. unfold mbind, st_bind in Hd.
  rewrite Hbytes in Hd. injection Hd as <- <-. split; [done|]. by exists cmd, b.
Qed.

Lemma quiet_expiry policy : st_within quiet (expiry (R := R) (S := S) read_clock policy).
Proof.
  unfold expiry. pose proof quiet_preorder. destruct (retention_days policy); [|by apply within_ret].
  apply within_bind; [done|apply quiet_clock|]. intros now. apply within_bind; [done|by apply within_lift|].
  intros t. by apply within_ret.
Qed.

Lemma make_spec policy run w r w' : repo_ok (repo w) -> make policy run w = (r, w') ->
  repo_ok (repo w') /\
  match r with
  | Ok (u, size, checksum) => exists b aid art, artifact_made policy run u b aid art w w' /\
      checksum = sha256_hex b /\ size = Z.of_nat (String.length b) /\ state w' = put_artifact aid art (state w) /\
      forall r, checksum_sha256 r = Some checksum -> artifact_size_bytes r = Some size -> run_storable r
  | Err _ => repo w' = repo w /\ files_touched policy (run_ident run) (store w) (store w')
  end.
Proof.
  intros Hok. unfold make_backup. intros Hm. st_inv Hm as d w1 Hd; apply dump_spec in Hd as [Hr1 Hd].
  2:{ rewrite Hr1. split; [done|]. split; [done|]. destruct Hd as [Hd|(cmd & out & Hd)]; [by left|].
      right. exists cmd, out. naive_solver. }
  destruct d as [[out checksum] size]. destruct Hd as (cmd & b & Hbuild & Hs1 & Hb & Hx1 & -> & ->).
  st_inv Hm as u w2 Hup; apply on_store_inv in Hup as (Hup & Hr2 & Hx2); rewrite Hs1 in Hup.
  2:{ rewrite Hr2, Hr1. split; [done|]. split; [done|]. right. exists cmd, out. eauto. }
  assert (Hft : files_touched policy (run_ident run) (store w) (store w2)) by (right; exists cmd, out; eauto).
  st_inv Hm as expires w3 Hexp; apply quiet_expiry in Hexp as [[Hr3 Hx3] Hs3];
    [|rewrite Hs3, Hr3, Hr2, Hr1; by split].
  rewrite st_bind_clock in Hm. assert (Hr : repo (tick w3) = repo w) by (simpl; congruence).
  set (art := new_artifact _ _ _ _ _ _ _) in Hm.
  destruct (law_create_artifact (read_clock (ticks w3)) art (repo (tick w3)))
    as [(aid & t & s & Heq & Hok' & Hfresh & Hv & Hst)|(e & Heq & _)]; [by rewrite Hr|done| |].
  - rewrite (on_repo_ok _ _ _ _ _ Heq) in Hm. injection Hm as <- <-. split; [done|]. rewrite Hr in Hfresh, Hv.
    exists b, aid, (set_artifact_id aid (set_artifact_created t art)). split_and!; try done.
    exists cmd, out, t, (read_clock (ticks w3)), expires. simpl. rewrite Hs3, Hx3, Hx2, Hx1.
    split_and!; try done. by rewrite Hs1 in Hb.
  - rewrite (on_repo_err _ _ _ _ _ Heq) in Hm. injection Hm as <- <-. simpl in Hr |- *. rewrite Hr, Hs3. by split.
Qed.

Lemma finish_spec policy run old id w r w' :
  repo_ok (repo w) -> run_id run = Some id -> runs (state w) !! id = Some old -> same_run run old ->
  run_storable run -> policies (state w) !! run_policy_id run = Some policy -> enabled policy = true ->
  (interval_minutes policy <> 0)%Z ->
  finish_backup (S := S) read_clock policy run w = (r, w') ->
  repo_ok (repo w') /\ executed w' = executed w /\ store w' = store w /\
  match r with
  | Ok run' => run' = run /\ exists next upd,
      state w' = put_policy (run_policy_id run) (set_next_run next (Some upd) policy) (put_run id run (state w))
  | Err e => state w' = put_run id run (state w)
  end.
Proof.
  intros Hok Hid Hget Hsame Hst Hp Hen Hint. unfold finish_backup.
  destruct (law_update_run id run old (repo w)) as (s & Heq & Hok1 & Hv1); try done.
  rewrite (on_repo_ok _ _ _ _ _ Heq), Hen. apply Z.eqb_neq in Hint. rewrite Hint. cbn [negb andb].
  assert (Hup : forall t next, exists s', update_policy_next_run t (run_policy_id run) next s = (Ok tt, s') /\ repo_ok s' /\
            view s' = put_policy (run_policy_id run) (set_next_run next (Some t) policy) (put_run id run (state w))).
  { intros t next. rewrite <- Hv1. apply law_update_policy_next_run; [done|]. by rewrite Hv1. }
  intros Hf. st_inv Hf as u w1 Hn; rewrite st_bind_clock, st_bind_lift in Hn.
  - injection Hf as <- <-. destruct (later _ _) as [next|]; [|done].
    rewrite st_bind_clock in Hn. apply on_repo_inv in Hn as (Hn & Hs & Hx & _). simpl in Hn.
    edestruct Hup as (s' & Heq' & Hok' & Hv'). rewrite Heq' in Hn. injection Hn as _ Hn.
    rewrite <- Hn. split_and!; [done|done|done|done|]. do 2 eexists. exact Hv'.
  - destruct (later _ _) as [next|]; [|injection Hn as _ <-; by split_and!].
    rewrite st_bind_clock in Hn. apply on_repo_inv in Hn as (Hn & _ & _ & _). simpl in Hn.
    edestruct Hup as (s' & Heq' & _). rewrite Heq' in Hn. discriminate Hn.
Qed.

Lemma with_run_inv {A} run (m : WM A) w r w' : with_run run m w = (r, w') ->
  exists r0, m w = (r0, w') /\ r = map_err (pair run) r0.
Proof. unfold with_run. destruct (m w) as [r0 w0]. intros [= <- <-]. by exists r0. Qed.

(** The run of a backup that failed is recorded so, with its error. *)
Lemma backup_failed_spec run old e id w :
  repo_ok (repo w) -> run_id run = Some id -> runs (state w) !! id = Some old -> same_run run old ->
  run_storable run ->
  exists w' now, backup_failed (S := S) read_clock (run, e) w = (Err (BackupError (exc_text e)), w') /\ repo_ok (repo w') /\
    executed w' = executed w /\ store w' = store w /\
    state w' = put_run id (run_failed now (exc_text e) run) (state w).
Proof.
  intros Hok Hid Hget Hsame Hst. unfold backup_failed. rewrite st_bind_clock.
  destruct (law_update_run id (run_failed (read_clock (ticks w)) (exc_text e) run) old (repo (tick w)))
    as (s & Heq & Hok' & Hv); try done.
  { by eapply law_same_measures; [| |exact Hst]. }
  rewrite (on_repo_ok _ _ _ _ _ Heq). do 2 eexists. split_and!; [done|done|done|done|exact Hv].
Qed.

(** What a succeeded backup records: the run, the artifact with the checksum and
    the size of the dump, the time of the next run. *)
Definition backup_recorded (policy : BackupPolicy) (run : BackupRun) (w w' : World R S) : Prop :=
  exists u b aid art next upd, artifact_made policy run u b aid art w w' /\
    checksum_sha256 run = Some (sha256_hex b) /\ artifact_size_bytes run = Some (Z.of_nat (String.length b)) /\
    artifact_uri run = Some u /\ error run = None /\
    state w' = put_policy (run_policy_id run) (set_next_run next (Some upd) policy)
                 (put_artifact aid art (put_run (run_ident run) run (state w))).

(** What a failed backup leaves: its run and its artifact if the failure came
    after it was recorded. *)
Definition backup_left (policy : BackupPolicy) (run : BackupRun) (w w' : World R S) : Prop :=
  policies (state w') = policies (state w) /\ restores (state w') = restores (state w) /\
  runs (state w') = <[run_ident run := run]> (runs (state w)) /\
  (artifacts (state w') = artifacts (state w) /\ files_touched policy (run_ident run) (store w) (store w') \/
   exists u b aid art, artifact_made policy run u b aid art w w' /\
     artifacts (state w') = <[aid := art]> (artifacts (state w))).

(** The body of a backup, for the run [run0] just created. *)
Lemma backup_body_spec policy id pid trig t0 w r w' :
  let run0 := set_run_id id (new_run pid trig t0) in
  repo_ok (repo w) -> runs (state w) !! id = Some run0 ->
  policies (state w) !! pid = Some policy -> enabled policy = true -> (interval_minutes policy <> 0)%Z ->
  backup_body workdir environ subprocess_run sha256_hex read_clock policy run0 w = (r, w') ->
  repo_ok (repo w') /\
  match r with
  | Ok run => run_id run = Some id /\ same_run run run0 /\ status run = RUN_SUCCEEDED /\
      backup_recorded policy run w w'
  | Err (run, _) => run_id run = Some id /\ same_run run run0 /\ run_storable run /\
      exists old, run_id old = Some id /\ same_run run old /\ backup_left policy old w w'
  end.
Proof.
  intros run0 Hok Hget Hp Hen Hint. unfold backup_body. intros Hb.
  st_inv Hb as d w1 Hm; apply with_run_inv in Hm as (r0 & Hm & Hr0); apply (make_spec _ _ _ _ _ Hok) in Hm as [Hok1 Hm].
  - destruct r0 as [[[u size] checksum]|]; [|done]. injection Hr0 as ->.
    destruct Hm as (b & aid & art & Hmade & -> & -> & Hv & Hst).
    rewrite st_bind_clock in Hb. set (now := read_clock (ticks w1)) in Hb.
    set (run := run_succeeded _ _ _ _ _) in Hb. apply with_run_inv in Hb as (r1 & Hf & ->).
    assert (Hst' : run_storable run) by (by apply Hst).
    apply (finish_spec policy run run0 id (tick w1)) in Hf as (Hok' & Hx' & Hs' & Hf); try done;
      [|simpl; by rewrite Hv..].
    assert (Hmade' : artifact_made policy run u b aid art w w').
    { destruct Hmade as (cmd & out & t & created & expires & Hmade). exists cmd, out, t, created, expires.
      rewrite Hs', Hx'. exact Hmade. }
    split; [done|]. destruct r1 as [run'|e]; simpl.
    + destruct Hf as (-> & next & upd & Hv'). split_and!; try done. exists u, b, aid, art, next, upd.
      split_and!; try done. rewrite Hv'. simpl. by rewrite Hv.
    + split_and!; try done. exists run. split_and!; [done|done|]. unfold backup_left. rewrite Hf. simpl. rewrite Hv. simpl.
      split_and!; try done. right. by exists u, b, aid, art.
  - destruct r0 as [|e]; [done|]. injection Hr0 as ->. destruct Hm as [Hm Hft]. split; [done|]. split_and!; try done.
    + by apply (law_stored_run id run0 (repo w)).
    + exists run0. split_and!; [done|done|]. unfold backup_left. rewrite Hm. split_and!; try done; [|by left].
      unfold run_ident. simpl. by rewrite insert_id.
Qed.

(** What a backup leaves behind. *)
Definition backup_ran (pid : Uuid) (trig : string) (policy : BackupPolicy) (w : World R S)
    (res : result backup_exc BackupRun) (w' : World R S) : Prop :=
  exists id run, runs (state w) !! id = None /\ run_id run = Some id /\ run_policy_id run = pid /\ trigger run = trig /\
    match res with
    | Ok r => r = run /\ status run = RUN_SUCCEEDED /\ backup_recorded policy run w w'
    | Err e => e = BackupError (exc_text e) /\ status run = RUN_FAILED /\ error run = Some (exc_text e) /\
        backup_left policy run w w'
    end.

Lemma backup_cases pid trig policy w res w' :
  repo_ok (repo w) -> policies (state w) !! pid = Some policy -> enabled policy = true ->
  (interval_minutes policy <> 0)%Z -> backup pid trig w = (res, w') ->
  repo_ok (repo w') /\
  (backup_ran pid trig policy w res w' \/ not_blank trig = false /\ (exists e, res = Err e /\ is_backup_error e = false) /\ repo w' = repo w /\ store w' = store w).
Proof.
  intros Hok Hp Hen Hint. unfold create_backup. rewrite st_bind_get, (law_get_policy _ _ Hok), Hp, Hen.
  rewrite guard_raise_bind, st_bind_clock. cbn [negb].
  destruct (law_create_run pid trig (read_clock (ticks w)) (repo (tick w)) Hok)
    as [(id & s & Heq & Hok1 & Hfresh & Hv1)|(e & Heq & Hne & [Hb|Hn])]; [| |simpl in Hn; congruence].
  2:{ rewrite (on_repo_err _ _ _ _ _ Heq). intros [= <- <-]. split; [done|]. right. split_and!; [done|by exists e|done|done]. }
  rewrite (on_repo_ok _ _ _ _ _ Heq). set (run0 := set_run_id id _) in *. set (w1 := with_repo s (tick w)).
  assert (Hw1 : state w1 = put_run id run0 (state w)) by exact Hv1.
  assert (Hmade : forall run u b aid art w2, artifact_made policy run u b aid art w1 w2 ->
            artifact_made policy run u b aid art w w2).
  { intros run u b aid art w2 (cmd & out & t & created & expires & Hm). exists cmd, out, t, created, expires.
    rewrite Hw1 in Hm. exact Hm. }
  unfold try_except. destruct (backup_body _ _ _ _ _ _ _ w1) as [[run|[run e]] w2] eqn:Hbody;
    apply (backup_body_spec policy id pid trig _ w1) in Hbody as [Hok2 Hb]; try done;
    try (rewrite Hw1; first [exact Hp|apply lookup_insert_eq]).
  - intros [= <- <-]. split; [done|]. left. destruct Hb as (Hid & Hsame & Hst & u & b & aid & art & next & upd & Hm & Hrec).
    exists id, run. split_and!; try done; [by apply Hsame..|]. exists u, b, aid, art, next, upd.
    split; [by apply Hmade|]. destruct Hrec as (Hc & Hz & Hu & He & Hv). split_and!; try done.
    rewrite Hv, Hw1. unfold put_policy, put_artifact, put_run, run_ident. rewrite Hid. simpl. by rewrite insert_insert_eq.
  - destruct Hb as (Hid & Hsame & Hst & old & Hold & Hso & Hpol & Hres & Hruns & Hart).
    assert (Hget : runs (state w2) !! id = Some old).
    { rewrite Hruns. unfold run_ident. rewrite Hold. apply lookup_insert_eq. }
    destruct (backup_failed_spec run old e id w2) as (w3 & now & -> & Hok3 & Hx3 & Hs3 & Hv3); try done.
    intros [= <- <-]. split; [done|]. left. exists id, (run_failed now (exc_text e) run).
    destruct Hsame as (? & ? & _). split_and!; try done. unfold backup_left. rewrite Hv3. simpl. rewrite Hpol, Hres, Hs3.
    unfold run_ident in *. simpl. rewrite Hid, Hruns, Hold. simpl. rewrite !Hv1. simpl.
    rewrite !insert_insert_eq. split_and!; try done.
    destruct Hart as [[Ha Hft]|(u & b & aid & art & Hm & Ha)]; [left|right]; rewrite Ha; simpl; rewrite Hv1.
    + split; [done|]. by rewrite Hold in Hft.
    + exists u, b, aid, art. split; [|done]. apply Hmade in Hm as (cmd & out & t & created & expires & Hm).
      exists cmd, out, t, created, expires. unfold run_ident in *. simpl. rewrite Hid, Hs3, Hx3. rewrite Hold in Hm.
      destruct Hso as (Hpid & _). unfold new_artifact, run_ident in *. simpl. rewrite Hid, Hpid. rewrite Hold in Hm. exact Hm.
Qed.

(** C17: a backup of an enabled policy adds one run and finishes it.  When it
    succeeds, one command was executed, the dump it wrote was uploaded, and the
    run, its artifact and the time of the next run are recorded, and nothing else.
    When it fails, with an error of the package, the run is FAILED with that error
    and every policy and other run is as it was. *)
Theorem backup_outcome pid trig policy w res w' :
  repo_ok (repo w) -> policies (state w) !! pid = Some policy -> enabled policy = true ->
  (interval_minutes policy <> 0)%Z -> not_blank trig = true ->
  backup pid trig w = (res, w') -> repo_ok (repo w') /\ backup_ran pid trig policy w res w'.
Proof.
  intros Hok Hp Hen Hint Htrig Hb. apply (backup_cases _ _ policy) in Hb as [Hok' [Hb|(Hb & _)]]; try done.
  congruence.
Qed.

(** ** The sweep over the due policies *)

(** What an attempt leaves of a policy: its next run is moved only by a success. *)
Definition attempted (m : gmap Uuid BackupPolicy) (p : BackupPolicy) (row : BackupRun) : Prop :=
  run_policy_id row = policy_ident p /\ trigger row = "scheduled" /\ is_Some (run_id row) /\
  match status row with
  | RUN_SUCCEEDED => exists next upd, m !! policy_ident p = Some (set_next_run next (Some upd) p)
  | RUN_FAILED => m !! policy_ident p = Some p
  | RUN_RUNNING => False
  end.

(** Rows added to the runs, under ids that were free. *)
Fixpoint rows_added (m : gmap Uuid BackupRun) (rows : list BackupRun) (m' : gmap Uuid BackupRun) : Prop :=
  match rows with
  | [] => m' = m
  | r :: rows' => m !! run_ident r = None /\ rows_added (<[run_ident r := r]> m) rows' m'
  end.

Lemma attempt_spec p w : repo_ok (repo w) -> policies (state w) !! policy_ident p = Some p -> enabled p = true ->
  (interval_minutes p <> 0)%Z ->
  exists res w' row, backup (policy_ident p) "scheduled" w = (res, w') /\ repo_ok (repo w') /\
    attempted (policies (state w')) p row /\ rows_added (runs (state w)) [row] (runs (state w')) /\
    (forall pid, pid <> policy_ident p -> policies (state w') !! pid = policies (state w) !! pid) /\
    match res with
    | Ok r => r = row /\ status row = RUN_SUCCEEDED
    | Err e => status row = RUN_FAILED /\ is_backup_error e = true
    end.
Proof.
  intros Hok Hp Hen Hint. destruct (backup (policy_ident p) "scheduled" w) as [res w'] eqn:Hb.
  apply (backup_cases _ _ p) in Hb as [Hok' [(id & run & Hfresh & Hid & Hpid & Htrig & Hb)|(Hb & _)]]; try done.
  exists res, w', run. split_and!; [done|done| | | |].
  - split_and!; [done|done|by eexists|]. destruct res.
    + destruct Hb as (_ & -> & u & b & aid & art & next & upd & _ & _ & _ & _ & _ & ->).
      exists next, upd. rewrite Hpid. apply lookup_insert_eq.
    + destruct Hb as (_ & -> & _ & -> & _). done.
  - simpl. unfold run_ident. rewrite Hid. split; [done|]. destruct res.
    + destruct Hb as (_ & _ & u & b & aid & art & next & upd & _ & _ & _ & _ & _ & ->).
      unfold run_ident. by rewrite Hid.
    + destruct Hb as (_ & _ & _ & _ & _ & -> & _). unfold run_ident. by rewrite Hid.
  - intros q Hq. destruct res.
    + destruct Hb as (_ & _ & u & b & aid & art & next & upd & _ & _ & _ & _ & _ & ->).
      rewrite Hpid. by apply lookup_insert_ne.
    + by destruct Hb as (_ & _ & _ & -> & _).
  - destruct res; [by destruct Hb as (-> & ? & _)|]. destruct Hb as (He & Hs & _). split; [done|by rewrite He].
Qed.

Lemma run_policies_spec l w : repo_ok (repo w) -> NoDup (policy_ident <$> l) ->
  Forall (fun p => policies (state w) !! policy_ident p = Some p /\ enabled p = true /\ interval_minutes p <> 0%Z) l ->
  exists rs w' rows,
    run_policies (S := S) workdir environ subprocess_run sha256_hex read_clock l w = (Ok rs, w') /\ repo_ok (repo w') /\
    Forall2 (attempted (policies (state w'))) l rows /\ rows_added (runs (state w)) rows (runs (state w')) /\
    (forall pid, pid ∉ policy_ident <$> l -> policies (state w') !! pid = policies (state w) !! pid) /\
    rs = filter (fun r => status r = RUN_SUCCEEDED) rows.
Proof.
  revert w. induction l as [|p l IH]; intros w Hok Hnd Hl.
  { exists [], w, []. split_and!; try done. }
  apply list.Forall_cons in Hl as [(Hp & Hen & Hint) Hl]. rewrite fmap_cons, list.NoDup_cons in Hnd. destruct Hnd as [Hn Hnd].
  destruct (attempt_spec p w Hok Hp Hen Hint) as (res & w1 & row & Hb & Hok1 & Hat & Hrow & Hother & Hres).
  destruct (IH w1 Hok1 Hnd) as (rs & w' & rows & Hrun & Hok' & Hats & Hrows & Hothers & Hrs).
  { apply list.Forall_forall. intros q Hq. pose proof (proj1 (list.Forall_forall _ _) Hl q Hq) as (Hq1 & ? & ?).
    split_and!; [|done|done]. rewrite Hother; [done|]. intros Heq. apply Hn. rewrite <- Heq. by apply list_elem_of_fmap_2. }
  destruct Hrow as [Hfresh Hadd]. simpl in Hadd.
  exists (match res with Ok r => r :: rs | Err _ => rs end), w', (row :: rows). split_and!; [|done| | | |].
  - cbn [run_policies]. rewrite Hb. destruct res as [r|e].
    + by rewrite (st_bind_ok _ _ _ _ _ Hrun).
    + destruct Hres as [_ ->]. exact Hrun.
  - constructor; [|done]. unfold attempted. rewrite (Hothers _ Hn). exact Hat.
  - simpl. split; [done|]. by rewrite <- Hadd.
  - intros pid Hpid. rewrite fmap_cons, not_elem_of_cons in Hpid. rewrite Hothers by tauto. apply Hother. tauto.
  - rewrite filter_cons. destruct res as [r|e].
    + destruct Hres as [-> Hst]. by rewrite decide_True, Hrs.
    + destruct Hres as [Hst _]. by rewrite decide_False by congruence.
Qed.

Lemma list_policies_ids w : repo_ok (repo w) ->
  NoDup (policy_ident <$> list_policies (repo w)) /\
  forall p, p ∈ list_policies (repo w) -> policies (state w) !! policy_ident p = Some p.
Proof.
  intros Hok. destruct (law_list_policies _ Hok) as [Hperm _]. destruct (law_ids _ Hok) as (Hids & _).
  assert (Hkey : forall id p, policies (state w) !! id = Some p -> policy_ident p = id).
  { intros id p Hp. unfold policy_ident. by rewrite (Hids _ _ Hp). }
  split.
  - rewrite Hperm. rewrite <- list_fmap_compose.
    rewrite (list_fmap_ext _ fst); [apply NoDup_fst_map_to_list|].
    intros i [id p] Hi. apply list_elem_of_lookup_2 in Hi. apply elem_of_map_to_list in Hi. simpl. by apply Hkey.
  - intros p Hp. rewrite Hperm in Hp. apply list_elem_of_fmap in Hp as ([id q] & -> & Hin).
    apply elem_of_map_to_list in Hin. simpl. by rewrite (Hkey _ _ Hin).
Qed.

(** C18: a sweep never raises.  It attempts exactly the enabled policies whose next
    run is due, in the order of their names, each once: each gets one new run,
    scheduled and finished, and the sweep returns those that succeeded.  A policy
    whose backup failed, or that was not due, is as it was. *)
Theorem run_due_attempts w :
  repo_ok (repo w) -> (forall id p, policies (state w) !! id = Some p -> interval_minutes p <> 0%Z) ->
  exists rs w' rows, sweep w = (Ok rs, w') /\ repo_ok (repo w') /\
    let due := filter (fun p => is_due (read_clock (ticks w)) p = true) (list_policies (repo w)) in
    Forall2 (attempted (policies (state w'))) due rows /\
    rows_added (runs (state w)) rows (runs (state w')) /\
    rs = filter (fun r => status r = RUN_SUCCEEDED) rows /\
    forall pid, pid ∉ policy_ident <$> due -> policies (state w') !! pid = policies (state w) !! pid.
Proof.
  intros Hok Hint. unfold run_due. rewrite st_bind_clock, st_bind_get.
  destruct (list_policies_ids w Hok) as [Hnd Hget].
  destruct (run_policies_spec (filter (fun p => is_due (read_clock (ticks w)) p = true) (list_policies (repo w))) (tick w))
    as (rs & w' & rows & Hrun & Hok' & Hats & Hrows & Hothers & Hrs); [done| | |].
  - by apply NoDup_fmap_filter.
  - apply list.Forall_forall. intros p [Hdue Hp]%list_elem_of_filter. pose proof (Hget p Hp) as Hp'.
    unfold is_due in Hdue. apply andb_true_iff in Hdue as [Hen _]. split_and!; [done|done|by eapply Hint].
  - exists rs, w', rows. by split_and!.
Qed.

(** ** Retention *)

Definition final_status (policy : BackupPolicy) : ArtifactStatus := if delete_expired policy then DELETED else EXPIRED.

(** The artifacts of a policy that are active, and how many of them are newer
    than one, or not older. *)
Definition actives (pid : Uuid) (b : BackupState) : list BackupArtifact :=
  filter (fun a => art_policy_id a = pid /\ art_status a = ACTIVE) (map_to_list (artifacts b)).*2.
Definition newer (a : BackupArtifact) (l : list BackupArtifact) : nat :=
  length (filter (fun x => (art_created_at a < art_created_at x)%Z) l).
Definition not_older (a : BackupArtifact) (l : list BackupArtifact) : nat :=
  length (filter (fun x => (art_created_at a <= art_created_at x)%Z) l).

Lemma select_expired_elem policy now l i a : a ∈ select_expired policy now i l <->
  exists j, l !! j = Some a /\ expired_by_count policy (i + j) || expired_by_age policy now a = true.
Proof.
  revert i. induction l as [|x l IH]; intros i; simpl.
  { split; [by intros ?%elem_of_nil|]. by intros (j & Hj & _). }
  assert (Hstep : a ∈ select_expired policy now (i + 1) l <->
    exists j, (x :: l) !! Datatypes.S j = Some a /\ expired_by_count policy (i + Datatypes.S j) || expired_by_age policy now a = true).
  { rewrite IH. simpl. setoid_rewrite <- Nat.add_assoc. simpl. done. }
  destruct (_ || _) eqn:Hx; rewrite ?elem_of_cons, Hstep; split.
  - intros [->|(j & Hj)]; [exists 0%nat|by exists (Datatypes.S j)]. by rewrite Nat.add_0_r.
  - intros ([|j] & Hj & He); [left; by injection Hj|right; by exists j].
  - intros (j & Hj). by exists (Datatypes.S j).
  - intros ([|j] & Hj & He); [|by exists j]. injection Hj as ->. rewrite Nat.add_0_r in He. congruence.
Qed.

Definition newest_first (l : list BackupArtifact) : Prop :=
  StronglySorted (fun a b => (art_created_at b <= art_created_at a)%Z) l.

Lemma newest_first_sorted l : newest_first (py_sorted_rev by_creation l).
Proof.
  assert (Hs : StronglySorted (flip (sort_le by_creation)) (py_sorted_rev by_creation l)).
  { apply py_sorted_rev_sorted; unfold sort_le, by_creation.
    - intros x y Hxy%Z.ltb_lt. apply Z.ltb_ge. lia.
    - intros x y z Hxy%Z.ltb_ge Hyz%Z.ltb_ge. apply Z.ltb_ge. lia. }
  induction Hs as [|x l' Hs IH Hall]; constructor; [exact IH|]. eapply list.Forall_impl; [exact Hall|].
  intros y Hy%Z.ltb_ge. exact Hy.
Qed.

(** In a list from the newest, the artifacts before one are not older, and the
    newer ones are before it. *)
Lemma newest_rank l j a : newest_first l -> l !! j = Some a -> (newer a l <= j /\ j < not_older a l)%nat.
Proof.
  unfold newest_first, newer, not_older. intros Hs. revert j. induction Hs as [|x l Hs IH Hx]; intros j Hj; [done|].
  rewrite list.Forall_forall in Hx. rewrite !filter_cons. destruct j as [|j].
  - injection Hj as ->. rewrite decide_False by lia. rewrite decide_True by lia. simpl. split; [|lia].
    assert (Hn : filter (fun y => (art_created_at a < art_created_at y)%Z) l = []); [|by rewrite Hn].
    apply filter_none, list.Forall_forall. intros y Hy%Hx. lia.
  - simpl in Hj. destruct (IH j Hj) as [Ha Hb]. assert (Hle := Hx a (list_elem_of_lookup_2 _ _ _ Hj)).
    rewrite (decide_True (P := (art_created_at a <= art_created_at x)%Z)) by done. simpl. case_decide; simpl; lia.
Qed.

(** What retention does to one artifact. *)
Definition expired_in (policy : BackupPolicy) (gone : list BackupArtifact) (a : BackupArtifact) : BackupArtifact :=
  if decide (a ∈ gone) then set_artifact_status (final_status policy) a else a.

Lemma expire_spec policy a id w r w' : repo_ok (repo w) -> artifact_id a = Some id ->
  artifacts (state w) !! id = Some a -> expire_artifact (S := S) policy a w = (r, w') ->
  repo_ok (repo w') /\ executed w' = executed w /\
  (exists x, state w' = put_artifact id x (state w) /\ (r = Ok tt -> x = set_artifact_status (final_status policy) a)) /\
  (delete_expired policy = false -> r = Ok tt).
Proof.
  intros Hok Hid Hget. unfold expire_artifact, artifact_ident, final_status. rewrite Hid. simpl.
  destruct (law_update_artifact_status id EXPIRED a (repo w) Hok Hget) as (s1 & Heq1 & Hok1 & Hv1).
  rewrite (on_repo_ok _ _ _ _ _ Heq1). set (w1 := with_repo s1 w). assert (Hw1 : state w1 = view s1) by done.
  destruct (delete_expired policy); cycle 1.
  { intros [= <- <-]. split_and!; [done|done| |done]. rewrite Hw1, Hv1. by eexists. }
  intros He. st_inv He as u w2 Hdel; apply calm_store in Hdel as [Hr2 Hx2].
  - destruct (law_update_artifact_status id DELETED (set_artifact_status EXPIRED a) (repo w2)) as (s2 & Heq2 & Hok2 & Hv2).
    { by rewrite Hr2. } { rewrite Hr2, Hw1, Hv1. apply lookup_insert_eq. }
    unfold on_repo in He. rewrite Heq2 in He. injection He as <- <-. split_and!; [done|done| |done].
    eexists. split; [|done]. simpl. rewrite Hv2, Hr2, Hw1, Hv1. unfold put_artifact. simpl.
    by rewrite insert_insert_eq.
  - rewrite Hr2. split_and!; [done|done| |done]. rewrite Hw1, Hv1. by eexists.
Qed.

Lemma expire_all_spec policy l w r w' : repo_ok (repo w) -> NoDup l ->
  (forall a, a ∈ l -> exists id, artifact_id a = Some id /\ artifacts (state w) !! id = Some a) ->
  for_each (expire_artifact (S := S) policy) l w = (r, w') ->
  repo_ok (repo w') /\ executed w' = executed w /\ policies (state w') = policies (state w) /\
  runs (state w') = runs (state w) /\ restores (state w') = restores (state w) /\
  (forall id a, artifacts (state w) !! id = Some a -> a ∉ l -> artifacts (state w') !! id = Some a) /\
  (r = Ok tt -> artifacts (state w') = expired_in policy l <$> artifacts (state w)) /\
  (delete_expired policy = false -> r = Ok tt).
Proof.
  revert w. induction l as [|a l IH]; intros w Hok Hnd Hl.
  { simpl. intros [= <- <-]. split_and!; try done. intros _. apply map_eq. intros id. rewrite lookup_fmap.
    destruct (artifacts (state w) !! id); [|done]. simpl. unfold expired_in. by rewrite decide_False by (apply not_elem_of_nil). }
  apply list.NoDup_cons in Hnd as [Hn Hnd]. destruct (Hl a) as (id & Hid & Hget); [left|].
  assert (Hl' : forall b, b ∈ l -> exists i, artifact_id b = Some i /\ artifacts (state w) !! i = Some b /\ i <> id).
  { intros b Hb. destruct (Hl b) as (i & Hi & Hgi); [by right|]. exists i. split_and!; [done|done|].
    intros ->. congruence. }
  cbn [for_each]. intros He. st_inv He as u w1 H1; apply (expire_spec _ _ id) in H1 as (Hok1 & Hx1 & (x & Hv1 & Hx) & Hd1); try done.
  - apply IH in He as (Hok' & Hx' & Hp & Hr & Hs & Hkeep & Hall & Hd); [|done|done|].
    2:{ intros b Hb. destruct (Hl' b Hb) as (i & Hi & Hgi & Hne). exists i. split; [done|].
        rewrite Hv1. simpl. by rewrite lookup_insert_ne. }
    rewrite Hv1 in Hp, Hr, Hs. split_and!; try done; [congruence| |].
    + intros i b Hgi Hnot. apply not_elem_of_cons in Hnot as [Hne Hnot]. apply Hkeep; [|done]. rewrite Hv1. simpl.
      rewrite lookup_insert_ne; [done|]. intros <-. congruence.
    + intros Hres. destruct u. rewrite (Hall Hres), Hv1. simpl. rewrite (Hx eq_refl). apply map_eq. intros i.
      rewrite !lookup_fmap. destruct (decide (i = id)) as [->|Hne].
      * rewrite lookup_insert_eq, Hget. simpl. unfold expired_in. rewrite (decide_True (P := a ∈ a :: l)) by left.
        case_decide as Hin; [|done]. destruct (Hl' _ Hin) as (i & Hi & _ & Hne). simpl in Hi. congruence.
      * rewrite lookup_insert_ne by done. destruct (artifacts (state w) !! i) as [b|] eqn:Hgi; [|done]. simpl. f_equal.
        unfold expired_in. assert (Hb : b ∈ a :: l <-> b ∈ l); [|repeat case_decide; tauto].
        rewrite elem_of_cons. split; [|tauto]. intros [->|?]; [|done]. destruct (law_ids _ Hok) as (_ & _ & Ha & _).
        apply Ha in Hgi. congruence.
  - split_and!; try done; [by rewrite Hv1..|].
    intros i b Hgi Hnot. apply not_elem_of_cons in Hnot as [Hne _]. rewrite Hv1. simpl.
    rewrite lookup_insert_ne; [done|]. intros <-. congruence.
Qed.

Lemma actives_perm pid w : repo_ok (repo w) ->
  filter (fun a => is_active a = true) (list_artifacts pid (repo w)) ≡ₚ actives pid (state w).
Proof.
  intros Hok. rewrite (law_list_artifacts pid _ Hok), list_filter_filter. apply reflexive_eq. unfold actives.
  apply list_filter_iff. intros a. unfold is_active. rewrite bool_decide_eq_true. tauto.
Qed.

Lemma actives_elem pid w a : repo_ok (repo w) -> a ∈ actives pid (state w) ->
  art_policy_id a = pid /\ art_status a = ACTIVE /\
  exists id, artifact_id a = Some id /\ artifacts (state w) !! id = Some a.
Proof.
  intros Hok [[Hp Hst] Hin]%list_elem_of_filter. split_and!; [done|done|].
  apply list_elem_of_fmap in Hin as ([id b] & -> & Hin%elem_of_map_to_list). exists id.
  destruct (law_ids _ Hok) as (_ & _ & Ha & _). split; [by apply Ha|done].
Qed.

Lemma actives_nodup pid w : repo_ok (repo w) -> NoDup (actives pid (state w)).
Proof.
  intros Hok. destruct (law_ids _ Hok) as (_ & _ & Ha & _).
  apply (NoDup_fmap_1 artifact_id), NoDup_fmap_filter. rewrite <- list_fmap_compose.
  rewrite (list_fmap_ext _ (Some ∘ fst)).
  - rewrite list_fmap_compose. apply (NoDup_fmap_2 Some), NoDup_fst_map_to_list.
  - intros i [id a] Hi. apply list_elem_of_lookup_2 in Hi. apply elem_of_map_to_list, Ha in Hi. done.
Qed.

Lemma select_expired_nodup policy now l i : NoDup l -> NoDup (select_expired policy now i l).
Proof.
  intros Hnd. revert i. induction Hnd as [|x l Hx Hnd IH]; intros i; simpl; [constructor|].
  case_match; [|done]. apply list.NoDup_cons. split; [|done]. intros (j & Hj & _)%select_expired_elem.
  by apply list_elem_of_lookup_2 in Hj.
Qed.

(** Retention expires, of the active artifacts of the policy, those past their
    age and those that [retention_count] others are at least as new as; those it
    keeps are within their age and among the newest.  Expired artifacts become
    EXPIRED, or DELETED with their objects, every other row is as it was, and only
    the deletion of an object can make it fail. *)
Theorem retention_exact pid policy w res w' :
  repo_ok (repo w) -> policies (state w) !! pid = Some policy -> retain pid w = (res, w') ->
  repo_ok (repo w') /\ executed w' = executed w /\ exists gone, let active := actives pid (state w) in
    let aged a := expired_by_age policy (read_clock (ticks w)) a = true in
    (forall a, a ∈ gone -> a ∈ active /\
       (aged a \/ exists n, retention_count policy = Some n /\ (n < Z.of_nat (not_older a active))%Z)) /\
    (forall a, a ∈ active -> a ∉ gone ->
       ~ aged a /\ forall n, retention_count policy = Some n -> (Z.of_nat (newer a active) < n)%Z) /\
    policies (state w') = policies (state w) /\ runs (state w') = runs (state w) /\
    (forall id a, artifacts (state w) !! id = Some a -> a ∉ gone -> artifacts (state w') !! id = Some a) /\
    (delete_expired policy = false -> is_ok res = true) /\
    forall l, res = Ok l ->
      l = (fun a => held_artifact a (repo w')) <$> gone /\
      artifacts (state w') = expired_in policy gone <$> artifacts (state w).
Proof.
  intros Hok Hp. unfold apply_retention. rewrite st_bind_get, (law_get_policy _ _ Hok), Hp, st_bind_clock.
  pose proof (actives_perm pid w Hok) as Hperm. set (sorted := py_sorted_rev by_creation _).
  assert (Hsp : sorted ≡ₚ actives pid (state w)) by (unfold sorted; by rewrite py_sorted_rev_perm).
  set (now := read_clock (ticks w)). set (gone := select_expired policy now 0 sorted).
  assert (Hnew : newest_first sorted) by apply newest_first_sorted.
  intros Hr. assert (Hgone : forall a, a ∈ gone -> a ∈ actives pid (state w)).
  { intros a (j & Hj & _)%select_expired_elem. rewrite <- Hsp. by eapply list_elem_of_lookup_2. }
  assert (Hnd : NoDup gone) by (apply select_expired_nodup; rewrite Hsp; by apply actives_nodup).
  assert (Hrank : forall j a, sorted !! j = Some a ->
            (newer a (actives pid (state w)) <= j /\ j < not_older a (actives pid (state w)))%nat).
  { intros j a Hj. destruct (newest_rank _ _ _ Hnew Hj) as [Ha Hb]. unfold newer, not_older in *.
    rewrite <- Hsp. done. }
  assert (Hfor : exists r1 w1, for_each (expire_artifact (S := S) policy) gone (tick w) = (r1, w1) /\ w' = w1 /\
            res = match r1 with Ok _ => Ok ((fun a => held_artifact a (repo w')) <$> gone) | Err e => Err e end).
  { st_inv Hr as u w1 H1.
    - exists (Ok u), w1. rewrite st_bind_get in Hr. injection Hr as <- <-. by split_and!.
    - exists (Err u), w'. by split_and!. }
  destruct Hfor as (r1 & w1 & Hfor & -> & Hres).
  apply (expire_all_spec policy) in Hfor as (Hok' & Hx & Hpol & Hruns & _ & Hkeep & Hall & Hd); [|done|done|].
  2:{ intros a Ha%Hgone. by apply (actives_elem pid w). }
  split; [done|]. split; [done|]. exists gone. cbv zeta. split_and!; try done.
  - intros a Ha. split; [by apply Hgone|]. apply select_expired_elem in Ha as (j & Hj & He).
    apply orb_true_iff in He as [He|He]; [|by left]. right. unfold expired_by_count in He. simpl in He.
    destruct (retention_count policy) as [n|]; [|done]. exists n. split; [done|]. apply Z.leb_le in He.
    destruct (Hrank j a Hj). lia.
  - intros a Ha Hn. rewrite <- Hsp in Ha. apply list_elem_of_lookup in Ha as [j Hj].
    assert (He : expired_by_count policy (0 + j) || expired_by_age policy now a = false).
    { destruct (_ || _) eqn:E; [|done]. exfalso. apply Hn, select_expired_elem. by exists j. }
    apply orb_false_iff in He as [He Hage]. split; [congruence|]. intros n Hcount. unfold expired_by_count in He.
    rewrite Hcount in He. simpl in He. apply Z.leb_gt in He. destruct (Hrank j a Hj). lia.
  - intros Hdel. rewrite Hres, (Hd Hdel). done.
  - intros l Hl. rewrite Hl in Hres. destruct r1 as [[]|]; [|done]. injection Hres as ->. split; [done|by apply Hall].
Qed.

(** ** Verification *)

Abbreviation verify := (verify_backup (R := R) (S := S) workdir subprocess_run sha256_hex read_clock).

Lemma check_repo policy art file w r w' :
  check_artifact subprocess_run sha256_hex policy art file w = (r, w') -> repo w' = repo w.
Proof.
  unfold check_artifact. intros Hc. st_inv Hc as u w1 Hf; apply fetch_spec in Hf as [[Hr _] _]; [|done].
  apply exec_inv in Hc as (Hr' & _). congruence.
Qed.

(** A backup is verified only if the artifact fetched has the checksum recorded
    for it and the tool that lists it succeeds on it; otherwise the verification is
    FAILED with the error.  In both cases the run is otherwise as it was, and so is
    every other row. *)
Lemma verify_outcome rid run art policy w res w' :
  repo_ok (repo w) -> runs (state w) !! rid = Some run -> get_artifact_by_run rid (repo w) = Some art ->
  policies (state w) !! run_policy_id run = Some policy -> verify rid w = (res, w') ->
  let file := local_dump workdir "verify" rid in let cmd := build_verify_command file in
  repo_ok (repo w') /\
  match res with
  | Ok r => exists t b fs out err, r = run_verified t run /\ state w' = put_run rid r (state w) /\
      files fs !! file = Some b /\ sha256_hex b = art_checksum art /\
      executed w' = (executed w ++ [cmd])%list /\
      subprocess_run cmd (Some (backup_timeout_seconds policy)) fs = (Completed 0 out err, (store w').1)
  | Err e => is_backup_error e = true /\ state w' = put_run rid (run_unverified (exc_text e) run) (state w)
  end.
Proof.
  intros Hok Hrun Hart Hp. unfold verify_backup. rewrite st_bind_get, (law_get_run _ _ Hok), Hrun, Hart.
  rewrite (law_get_policy _ _ Hok), Hp. destruct (law_ids _ Hok) as (_ & Hids & _). pose proof (Hids _ _ Hrun) as Hid.
  unfold try_except. set (file := local_dump workdir "verify" rid).
  assert (Hverified : forall t, exists s, update_run (run_verified t run) (repo w) = (Ok tt, s) /\ repo_ok s /\
            view s = put_run rid (run_verified t run) (state w)).
  { intros t. apply (law_update_run _ _ run); try done. apply (law_same_measures run); [done..|].
    by apply (law_stored_run rid run (repo w)). }
  destruct (verify_body _ _ _ _ rid policy art run w) as [[r|[run' e]] w1] eqn:Hb; intros Hres; cbv zeta.
  - injection Hres as <- <-. unfold verify_body in Hb. st_inv Hb as u w2 H1.
    apply with_run_inv in H1 as (r0 & Hc & Hr0). destruct r0 as [[]|]; [|done].
    unfold check_artifact in Hc. st_inv Hc as v w3 Hf; apply fetch_spec in Hf as [[Hr3 Hx3] Hfile].
    destruct v, (Hfile eq_refl) as (b & Hfb & Hsum). unfold run_command in Hc.
    destruct (subprocess_run _ _ _) as [[rc out err|] fs] eqn:Hex; [|done]. injection Hc as Hrc <-.
    rewrite st_bind_clock in Hb. st_inv Hb as v w4 Hup. apply with_run_inv in Hup as (r1 & Hup & Hr1).
    destruct r1; [|done]. apply on_repo_inv in Hup as (Hup & Hs4 & Hx4 & _). simpl in Hup. rewrite Hr3 in Hup.
    injection Hb as <- <-. set (r := run_verified _ run) in *.
    destruct (Hverified (read_clock (ticks w3))) as (s & Heq & Hok' & Hv). fold r in Heq, Hv. rewrite Heq in Hup. injection Hup as _ ->. split; [done|].
    exists (read_clock (ticks w3)), b, (store w3).1, out, err. rewrite Hs4, Hx4. simpl. rewrite Hx3.
    assert (rc = 0%Z) as -> by (by destruct rc). split_and!; try done.
  - assert (Hrun' : run' = run /\ repo w1 = repo w).
    { unfold verify_body in Hb. st_inv Hb as u w2 H1; apply with_run_inv in H1 as (r0 & Hc & Hr0).
      - apply check_repo in Hc. rewrite st_bind_clock in Hb. st_inv Hb as v w3 Hup; [done|].
        apply with_run_inv in Hup as (r1 & Hup & Hr1). apply on_repo_inv in Hup as (Hup & _). simpl in Hup. rewrite Hc in Hup.
        destruct (Hverified (read_clock (ticks w2))) as (s & Heq & _). rewrite Heq in Hup. by destruct r1.
      - apply check_repo in Hc. destruct r0; [done|]. by injection Hr0 as -> ->. }
    destruct Hrun' as [-> Hr1]. unfold verify_failed in Hres. cbn [fst snd] in Hres.
    destruct (law_update_run rid (run_unverified (exc_text e) run) run (repo w1)) as (s & Heq & Hok' & Hv);
      rewrite ?Hr1; try done.
    { apply (law_same_measures run); [done..|]. by apply (law_stored_run rid run (repo w)). }
    rewrite (on_repo_ok _ _ _ _ _ Heq) in Hres. injection Hres as <- <-. split; [done|]. simpl. by rewrite Hv, Hr1.
Qed.
End Props.
