(* ===== verification/BackupVault.v ===== *)
(** Backups in the directory storage: the objects of the artifacts stay as they
    were uploaded, whatever requests are served in between, and a restore hands
    the tool the bytes the dump command wrote. *)
From stdpp Require Import base strings list gmap sorting pretty numbers.
From Stdlib Require Import Ascii.
From S2P Require Import Prelude PyStr Json PyPath Backup BackupStore BackupStorage BackupService BackupProps.

#[local] Open Scope string_scope.

(** What the documentation of the tools says of the files: pg_dump writes its
    [--file] only, pg_restore reads one. *)
Class DumpTools (workdir : Path) (subprocess_run : list string -> option Z -> FileSystem -> Process * FileSystem) : Prop := {
  dump_writes policy id conn cmd out t fs p :
    build_backup_command policy workdir id conn = Ok (cmd, out) -> p <> out ->
    files (subprocess_run cmd t fs).2 !! p = files fs !! p;
  list_reads file t fs p : files (subprocess_run (build_verify_command file) t fs).2 !! p = files fs !! p;
  restore_reads file conn t fs p : files (subprocess_run (build_restore_command file conn) t fs).2 !! p = files fs !! p
}.

(** ** Requests *)

Inductive request :=
| CreatePolicy (p : BackupPolicy)
| RunPolicy (policy : Uuid) (trigger : string)
| Verify (run : Uuid)
| Restore (run : Uuid) (ref : string) (dry confirm allow_production_restore : bool)
| Retention (policy : Uuid)
| RunDue.

(** What the models of the requests accept. *)
Definition valid_request (q : request) : Prop :=
  match q with
  | CreatePolicy p => policy_id p = None /\ policy_fields_ok p = true
  | _ => True
  end.

Section Vault.
Context {R : Type} `{HR : BackupRepositoryLaws R}.
Context (base : Path) (environment : string) (workdir : Path) (environ : string -> option string)
  (subprocess_run : list string -> option Z -> FileSystem -> Process * FileSystem)
  (sha256_hex : string -> string) (read_clock : nat -> Z).
Context `{HT : !DumpTools workdir subprocess_run}.
#[local] Instance storage : ObjectStorageClient unit := LocalDirectoryStorage base.
Implicit Types w : World R unit.

Definition serve (q : request) (w : World R unit) : World R unit :=
  match q with
  | CreatePolicy p => (service_create_policy read_clock p w).2
  | RunPolicy pid trig => (create_backup workdir environ subprocess_run sha256_hex read_clock pid trig w).2
  | Verify rid => (verify_backup workdir subprocess_run sha256_hex read_clock rid w).2
  | Restore rid ref dry confirm allow =>
      (restore_backup environment workdir environ subprocess_run sha256_hex read_clock rid ref dry confirm allow w).2
  | Retention pid => (apply_retention read_clock pid w).2
  | RunDue => (run_due workdir environ subprocess_run sha256_hex read_clock w).2
  end.

Abbreviation state w := (view (repo w)).
Abbreviation bytes w p := (files (store w).1 !! p).

Definition dump_name (id : Uuid) : string := uuid_text id ++ ".dump".
Definition object (a : BackupArtifact) : Path := path_div base (storage_key a).

(** Every artifact has its run, which has no other, and unless it is deleted its
    object, whose bytes have the checksum recorded. *)
Definition vault_ok w : Prop :=
  repo_ok (repo w) /\
  (forall id p, policies (state w) !! id = Some p -> interval_minutes p <> 0%Z) /\
  (forall id a, artifacts (state w) !! id = Some a ->
     is_Some (runs (state w) !! art_run_id a) /\ path_name (object a) = dump_name (art_run_id a) /\
     (art_status a <> DELETED -> exists b, bytes w (object a) = Some b /\ sha256_hex b = art_checksum a)) /\
  (forall id1 a1 id2 a2, artifacts (state w) !! id1 = Some a1 -> artifacts (state w) !! id2 = Some a2 ->
     art_run_id a1 = art_run_id a2 -> id1 = id2).

(** What no request undoes: artifacts keep what they record, and their objects
    unless they are deleted; a deletion and a success are final. *)
Definition vault_kept w w' : Prop :=
  (forall id a, artifacts (state w) !! id = Some a -> exists x,
     artifacts (state w') !! id = Some (set_artifact_status x a) /\
     (art_status a = DELETED -> x = DELETED) /\ (x <> DELETED -> bytes w' (object a) = bytes w (object a))) /\
  (forall id r, runs (state w) !! id = Some r -> exists r', runs (state w') !! id = Some r' /\
     same_run r' r /\ (status r = RUN_SUCCEEDED -> status r' = RUN_SUCCEEDED)).

(** ** Names of files *)

Lemma uuid_text_no_char c id : is_digit c = false -> no_char c (uuid_text id).
Proof. intros Hc. eapply no_char_forall; [exact Hc|]. apply pretty_dec. Qed.

Lemma dump_name_inj i j : dump_name i = dump_name j -> i = j.
Proof.
  unfold dump_name. intros Heq. change ".dump" with (String "." "dump") in Heq.
  apply split_last_inj in Heq as [Heq _]; [|by vm_compute..]. unfold uuid_text in Heq. by apply (inj pretty).
Qed.

Lemma dump_name_plain id : no_char "/" (dump_name id) /\ kept_part (dump_name id) = true /\ no_char "-" (dump_name id) /\
  (1 < String.length (dump_name id))%nat.
Proof.
  unfold dump_name. rewrite !no_char_app. split_and!; try (by apply uuid_text_no_char); try by vm_compute.
  - destruct (uuid_text id) as [|c u]; [done|]. unfold kept_part. apply negb_true_iff. simpl.
    destruct (c =? ".")%char; by destruct u.
  - rewrite length_app_str. simpl. lia.
Qed.

Lemma local_name what id p j : path_name (path_div p (what ++ "-" ++ dump_name id)) <> dump_name j.
Proof.
  destruct (dump_name_plain id) as (Hs & Hk & Hd & Hl).
  assert (Hs' : no_char "/" ("-" ++ dump_name id)) by (apply no_char_cons; split; [done|exact Hs]).
  destruct (path_of_last what ("-" ++ dump_name id) Hs') as [x Hx]; [done|simpl; lia|].
  rewrite (path_div_name _ _ _ Hx). intros Heq. destruct (dump_name_plain j) as (_ & _ & Hj & _).
  rewrite <- Heq in Hj. apply no_char_app in Hj as [_ Hj]. by apply no_char_cons in Hj as [? _].
Qed.

Lemma object_key_name policy id : path_name (path_div base (object_key policy id)) = dump_name id.
Proof.
  destruct (dump_name_plain id) as (Hs & Hk & _). apply path_div_name. unfold object_key.
  pose proof (path_of_last_part (strip_slashes (storage_prefix policy) ++ "/" ++
    str_lower (target_system_value (target_system policy)) ++ "/" ++ target_name policy) _ Hs Hk) as Hl.
  rewrite <- Hl. unfold dump_name. by rewrite !str_app_assoc.
Qed.

Lemma local_dump_name what id j : path_name (local_dump workdir what id) <> dump_name j.
Proof. apply (local_name what id workdir j). Qed.

Lemma builds_out policy id cmd out j : builds workdir environ policy id cmd out -> path_name out <> dump_name j.
Proof.
  intros (conn & _ & Hb). unfold build_backup_command in Hb. destruct (target_system policy); try done.
  injection Hb as _ <-. apply (local_name (target_name policy) id workdir j).
Qed.

(** ** What the storage changes *)

Lemma on_files_inv {A} (f : FileSystem -> result os_exc A * FileSystem) (s : FileSystem * unit) r s' :
  on_files f s = (r, s') -> exists r0, f s.1 = (r0, s'.1) /\ r = map_err FileError r0.
Proof. unfold on_files. destruct (f s.1) as [r0 fs]. intros [= <- <-]. by exists r0. Qed.

Lemma upload_files file key s r s' : upload_file file key s = (r, s') ->
  (forall q, q <> path_div base key -> files s'.1 !! q = files s.1 !! q) /\
  forall u, r = Ok u -> exists b, files s.1 !! file = Some b /\ files s'.1 !! path_div base key = Some b.
Proof.
  cbn [upload_file storage LocalDirectoryStorage]. unfold local_upload_file, path_for_key. intros Hu.
  st_inv Hu as target s1 Ht.
  - st_inv Ht as v s2 Hm. apply on_files_inv in Hm as (r0 & Hm%mkdir_parents_files & _). injection Ht as <- ->.
    st_inv Hu as v' s3 Hc; apply on_files_inv in Hc as (r1 & [Hq Hd]%copyfile_files & Hr).
    + injection Hu as <- ->. rewrite Hm in Hq, Hd. split; [done|]. intros u _. destruct r1 as [[]|]; [|done]. auto.
    + rewrite Hm in Hq. split; done.
  - st_inv Ht as v s2 Hm; [done|]. apply on_files_inv in Hm as (r0 & Hm%mkdir_parents_files & _).
    by rewrite Hm.
Qed.

Lemma download_files key file s r s' : download_file key file s = (r, s') ->
  (forall q, q <> file -> files s'.1 !! q = files s.1 !! q) /\
  (r = Ok tt -> exists b, files s.1 !! path_div base key = Some b /\ files s'.1 !! file = Some b).
Proof.
  cbn [download_file storage LocalDirectoryStorage]. unfold local_download_file.
  case_match; [by intros [= <- <-]|]. intros Hd. st_inv Hd as v s1 Hm;
    apply on_files_inv in Hm as (r0 & Hm%mkdir_parents_files & _); [|by rewrite Hm].
  apply on_files_inv in Hd as (r1 & [Hq Hc]%copyfile_files & ->). rewrite Hm in Hq, Hc. split; [done|].
  intros Hr. destruct r1 as [[]|]; [|done]. auto.
Qed.

Lemma delete_files key s r s' : delete_object key s = (r, s') ->
  (forall q, q <> path_div base key -> files s'.1 !! q = files s.1 !! q) /\ forall e, r = Err e -> s'.1 = s.1.
Proof.
  cbn [delete_object storage LocalDirectoryStorage]. unfold local_delete_object.
  case_match; [|by intros [= <- <-]]. intros (r0 & [Hq He]%unlink_files & ->)%on_files_inv. split; [done|].
  intros e. destruct r0 as [[]|e0]; [done|]. intros _. by eapply He.
Qed.

(** ** Steps that leave the objects *)

Definition objects_kept w w' : Prop := forall p id, path_name p = dump_name id -> bytes w' p = bytes w p.
#[local] Instance objects_kept_preorder : PreOrder objects_kept.
Proof. split; [done|]. intros w1 w2 w3 Ha Hb p id Hp. by rewrite (Hb p id Hp), (Ha p id Hp). Qed.

Lemma kept_repo {A} (m : st R backup_exc A) : st_within objects_kept (on_repo (S := unit) m).
Proof. intros w r w' (_ & Hs & _)%on_repo_inv p id _. by rewrite Hs. Qed.

Lemma kept_clock {E} : st_within (E := E) objects_kept (utc_now read_clock).
Proof. intros w r w' [= _ <-]. done. Qed.

Lemma kept_guard c e : st_within objects_kept (guard_raise (S := World R unit) (E := backup_exc) c e).
Proof. destruct c; [apply within_raise|apply within_ret]; apply objects_kept_preorder. Qed.

Lemma kept_fetch art file m : (forall id, path_name file <> dump_name id) ->
  st_within objects_kept (fetch_artifact (R := R) (S := unit) sha256_hex art file m).
Proof.
  intros Hfile. unfold fetch_artifact. apply within_bind; [apply objects_kept_preorder| |].
  - intros w r w' (Hd & _)%on_store_inv p id Hp. apply download_files in Hd as [Hd _]. apply Hd. intros ->. by apply (Hfile id).
  - intros _. apply within_bind; [apply objects_kept_preorder| |intros sum; apply kept_guard].
    intros w r w' [-> _]%sha_inv. done.
Qed.

Lemma kept_command cmd t : (forall fs p, files (subprocess_run cmd t fs).2 !! p = files fs !! p) ->
  st_within objects_kept (run_command (R := R) (S := unit) subprocess_run cmd t).
Proof. intros Hc w r w' (_ & _ & _ & Hf & _)%exec_inv p id _. rewrite Hf. apply Hc. Qed.

Lemma kept_list file t : st_within objects_kept (run_command (R := R) (S := unit) subprocess_run (build_verify_command file) t).
Proof. apply kept_command. intros. apply list_reads. Qed.

Lemma kept_pg_restore file conn t :
  st_within objects_kept (run_command (R := R) (S := unit) subprocess_run (build_restore_command file conn) t).
Proof. apply kept_command. intros. apply restore_reads. Qed.

Lemma kept_try {E A} (m : st (World R unit) E A) (h : E -> st (World R unit) backup_exc A) :
  st_within objects_kept m -> (forall e, st_within objects_kept (h e)) -> st_within objects_kept (try_except m h).
Proof.
  intros Hm Hh w r w'. unfold try_except. destruct (m w) as [[a|e] w1] eqn:Hw; pose proof (Hm _ _ _ Hw) as Hk.
  - by intros [= _ <-].
  - intros He%Hh. by transitivity w1.
Qed.

Lemma kept_with_run {A} run (m : st (World R unit) backup_exc A) :
  st_within objects_kept m -> st_within objects_kept (with_run run m).
Proof. intros Hm w r w' (r0 & Hw & _)%with_run_inv. by eapply Hm. Qed.

#[local] Hint Resolve objects_kept_preorder kept_repo kept_clock kept_guard kept_fetch kept_list kept_pg_restore kept_try
  kept_with_run local_dump_name : within.

Lemma verify_kept rid : st_within objects_kept
  (verify_backup (R := R) (S := unit) workdir subprocess_run sha256_hex read_clock rid).
Proof.
  apply within_bind; [auto with within..|]. intros w. repeat case_match; auto with within.
  unfold verify_body, check_artifact, verify_failed. auto 10 with within.
Qed.

Lemma restore_kept rid ref dry confirm allow : st_within objects_kept
  (restore_backup (R := R) (S := unit) environment workdir environ subprocess_run sha256_hex read_clock
     rid ref dry confirm allow).
Proof.
  apply within_bind; [auto with within..|]. intros w. case_match; auto with within.
  unfold execute_restore. repeat (apply within_bind; [auto with within..|]; intros ?). destruct dry; auto 10 with within.
Qed.

(** ** Requests keep the vault *)

Definition vault_step w w' : Prop := vault_ok w -> vault_ok w' /\ vault_kept w w'.

Lemma set_status_same a : set_artifact_status (art_status a) a = a.
Proof. by destruct a. Qed.

Lemma same_run_trans r1 r2 r3 : same_run r2 r1 -> same_run r3 r2 -> same_run r3 r1.
Proof. unfold same_run. intros (? & ? & ?) (? & ? & ?). split_and!; congruence. Qed.

#[local] Instance vault_kept_preorder : PreOrder vault_kept.
Proof.
  split.
  - intros w. split; [|intros id r Hr; by exists r]. intros id a Ha. exists (art_status a). by rewrite set_status_same.
  - intros w1 w2 w3 [Ha1 Hr1] [Ha2 Hr2]. split.
    + intros id a Ha. destruct (Ha1 _ _ Ha) as (x & Hx & Hdel & Hb).
      destruct (Ha2 _ _ Hx) as (y & Hy & Hdel' & Hb'). exists y. split; [done|]. split; [auto|].
      intros Hne. rewrite <- Hb by auto. by apply Hb'.
    + intros id r Hr. destruct (Hr1 _ _ Hr) as (r2 & Hg2 & Hs2 & Hst2). destruct (Hr2 _ _ Hg2) as (r3 & Hg3 & Hs3 & Hst3).
      exists r3. split_and!; [done|by eapply same_run_trans|auto].
Qed.

#[local] Instance vault_step_preorder : PreOrder vault_step.
Proof.
  split; [by intros w|]. intros w1 w2 w3 H1 H2 Hw. destruct (H1 Hw) as [Hw2 Hk1]. destruct (H2 Hw2) as [Hw3 Hk2].
  split; [done|by transitivity w2].
Qed.

Definition intervals_ok (m : gmap Uuid BackupPolicy) : Prop := forall id p, m !! id = Some p -> interval_minutes p <> 0%Z.
Definition runs_kept (m m' : gmap Uuid BackupRun) : Prop := forall id r, m !! id = Some r -> exists r', m' !! id = Some r' /\
  same_run r' r /\ (status r = RUN_SUCCEEDED -> status r' = RUN_SUCCEEDED).

Lemma runs_kept_refl m : runs_kept m m.
Proof. intros id r Hr. exists r. done. Qed.

Lemma runs_kept_fresh m id r : m !! id = None -> runs_kept m (<[id := r]> m).
Proof. intros Hf i x Hx. exists x. rewrite lookup_insert_ne by congruence. done. Qed.

(** A step that touches no artifact. *)
Lemma vault_rows w w' : repo_ok (repo w') -> (vault_ok w -> intervals_ok (policies (state w'))) ->
  runs_kept (runs (state w)) (runs (state w')) -> artifacts (state w') = artifacts (state w) -> objects_kept w w' ->
  vault_step w w'.
Proof.
  intros Hok' Hint Hruns Hart Hobj Hw. pose proof Hw as (Hok & _ & Hall & Hinj). split.
  - split_and!; [done|by apply Hint| |by rewrite Hart]. intros id a Ha. rewrite Hart in Ha.
    destruct (Hall _ _ Ha) as ([r Hr] & Hname & Hb). destruct (Hruns _ _ Hr) as (r' & Hr' & _).
    split_and!; [by eexists|done|]. intros Hne. rewrite (Hobj _ _ Hname). by apply Hb.
  - split; [|done]. intros id a Ha. exists (art_status a). rewrite Hart, set_status_same. split_and!; [done|done|].
    intros _. destruct (Hall _ _ Ha) as (_ & Hname & _). by apply (Hobj _ (art_run_id a)).
Qed.

Lemma set_interval next upd p : interval_minutes (set_next_run next upd p) = interval_minutes p.
Proof. done. Qed.

Lemma intervals_insert m id p : intervals_ok m -> interval_minutes p <> 0%Z -> intervals_ok (<[id := p]> m).
Proof. intros Hm Hp i q [[<- <-]|[_ Hq]]%lookup_insert_Some; [done|by eapply Hm]. Qed.

(** ** One request at a time *)

Lemma create_policy_vault p : valid_request (CreatePolicy p) ->
  st_within vault_step (service_create_policy (R := R) (S := unit) read_clock p).
Proof.
  intros [Hid Hf] w r w' Hc Hw. pose proof Hw as (Hok & Hint & _). revert Hw. unfold service_create_policy in Hc.
  assert (Hp : interval_minutes p <> 0%Z).
  { unfold policy_fields_ok, gt0, opt_holds in Hf. rewrite !andb_true_iff in Hf. destruct Hf as [[[Hf _] _] _].
    apply Z.ltb_lt in Hf. lia. }
  st_inv Hc as q w1 Hq.
  - assert (Hq' : repo w1 = repo w /\ store w1 = store w /\ policy_id q = None /\ interval_minutes q <> 0%Z).
    { destruct (_ && _); [|by injection Hq as <- <-]. rewrite st_bind_clock, st_bind_lift in Hq.
      destruct (later _ _); [|done]. injection Hq as <- <-. done. }
    destruct Hq' as (Hr1 & Hs1 & Hid1 & Hp1). rewrite st_bind_clock in Hc. apply on_repo_inv in Hc as (Hc & Hs & _).
    simpl in Hc. rewrite Hr1 in Hc. simpl in Hs.
    destruct (law_create_policy (read_clock (ticks w1)) q (repo w) Hok Hid1) as [(id & created & s & Heq & Hok' & _ & Hv)|(e & Heq & _)];
      rewrite Heq in Hc; injection Hc as _ Hc; apply vault_rows; rewrite <- ?Hc; try done;
      try apply runs_kept_refl; try (intros ? ? _; by rewrite Hs, Hs1); rewrite ?Hv; try done.
    + intros _. by apply intervals_insert.
    + apply runs_kept_refl.
  - assert (Hq' : repo w' = repo w /\ store w' = store w).
    { destruct (_ && _); [|done]. rewrite st_bind_clock, st_bind_lift in Hq. destruct (later _ _); [done|].
      by injection Hq as _ <-. }
    destruct Hq' as [Hr Hs]. apply vault_rows; rewrite ?Hr; try done; [apply runs_kept_refl|]. intros ? ? _. by rewrite Hs.
Qed.

Lemma restore_vault rid ref dry confirm allow : st_within vault_step
  (restore_backup (R := R) (S := unit) environment workdir environ subprocess_run sha256_hex read_clock
     rid ref dry confirm allow).
Proof.
  intros w r w' Hr Hw. pose proof (restore_kept _ _ _ _ _ _ _ _ Hr) as Hobj. pose proof Hw as (Hok & Hint & _).
  apply restore_cases in Hr as (Hok' & (Hp & Hruns & Ha) & _); [|done]. revert Hw.
  apply vault_rows; rewrite ?Hp, ?Hruns; try done. apply runs_kept_refl.
Qed.

Lemma verify_vault rid : st_within vault_step
  (verify_backup (R := R) (S := unit) workdir subprocess_run sha256_hex read_clock rid).
Proof.
  intros w r w' Hv Hw. pose proof (verify_kept _ _ _ _ Hv) as Hobj. pose proof Hw as (Hok & Hint & _).
  destruct (runs (state w) !! rid) as [run|] eqn:Hrun; cycle 1.
  { unfold verify_backup in Hv. rewrite st_bind_get, (law_get_run _ _ Hok), Hrun in Hv. by injection Hv as _ <-. }
  destruct (get_artifact_by_run rid (repo w)) as [art|] eqn:Hart; cycle 1.
  { unfold verify_backup in Hv. rewrite st_bind_get, (law_get_run _ _ Hok), Hrun, Hart in Hv. by injection Hv as _ <-. }
  destruct (policies (state w) !! run_policy_id run) as [policy|] eqn:Hp; cycle 1.
  { unfold verify_backup in Hv. rewrite st_bind_get, (law_get_run _ _ Hok), Hrun, Hart, (law_get_policy _ _ Hok), Hp in Hv.
    by injection Hv as _ <-. }
  apply (verify_outcome _ _ _ _ rid run art policy) in Hv as [Hok' Hv]; try done.
  assert (Hput : exists run', same_run run' run /\ status run' = status run /\ state w' = put_run rid run' (state w)).
  { destruct r as [r|e]; [destruct Hv as (t & b & fs & out & err & -> & Hv & _)|destruct Hv as [_ Hv]]; eexists; (split_and!; [| |exact Hv]; done). }
  destruct Hput as (run' & Hsame & Hst & Hput). revert Hw. apply vault_rows; rewrite ?Hput; try done.
  intros id x Hx. simpl. destruct (decide (id = rid)) as [->|Hne].
  - exists run'. rewrite lookup_insert_eq. assert (x = run) as -> by congruence. split_and!; [done|done|congruence].
  - exists x. by rewrite lookup_insert_ne.
Qed.

(** *** Backups *)

Lemma dumped_kept policy id cmd out (s : FileSystem * unit) q j :
  builds workdir environ policy id cmd out -> path_name q = dump_name j ->
  files (dumped subprocess_run policy cmd s).1 !! q = files s.1 !! q.
Proof.
  intros Hb Hq. pose proof (builds_out _ _ _ _ j Hb) as Hne. destruct Hb as (conn & _ & Hb).
  eapply dump_writes; [exact Hb|]. by intros ->.
Qed.

Lemma key_path_ne policy id q j : path_name q = dump_name j -> j <> id -> q <> path_div base (object_key policy id).
Proof. intros Hq Hne ->. rewrite object_key_name in Hq. by apply dump_name_inj in Hq. Qed.

Lemma touched_kept policy id (s s' : FileSystem * unit) q j :
  files_touched workdir environ subprocess_run policy id s s' -> path_name q = dump_name j -> j <> id ->
  files s'.1 !! q = files s.1 !! q.
Proof.
  intros [->|(cmd & out & Hb & [->|[r Hu]])] Hq Hne; [done|by eapply dumped_kept|].
  apply upload_files in Hu as [Hu _]. rewrite Hu by (by eapply key_path_ne). by eapply dumped_kept.
Qed.

Abbreviation made := (artifact_made (R := R) (S := unit) workdir environ subprocess_run sha256_hex).

Lemma made_kept policy run u b aid art w w' q j : made policy run u b aid art w w' ->
  path_name q = dump_name j -> j <> run_ident run -> bytes w' q = bytes w q.
Proof.
  intros (cmd & out & t & created & expires & _ & Hb & _ & Hu & _) Hq Hne.
  apply upload_files in Hu as [Hu _]. rewrite Hu by (by eapply key_path_ne). by eapply dumped_kept.
Qed.

Lemma made_object policy run u b aid art w w' : made policy run u b aid art w w' ->
  bytes w' (object art) = Some b /\ path_name (object art) = dump_name (art_run_id art) /\
  art_run_id art = run_ident run /\ art_checksum art = sha256_hex b /\ artifact_id art = Some aid /\
  artifacts (state w) !! aid = None.
Proof.
  intros (cmd & out & t & created & expires & -> & Hb & Hout & Hu & _ & Hn).
  apply upload_files in Hu as [_ Hu]. destruct (Hu u eq_refl) as (b' & Hb' & Hobj). assert (b' = b) as -> by congruence.
  split_and!; try done. apply object_key_name.
Qed.

(** A run added, and with it an artifact or nothing. *)
Lemma vault_added w w' run : repo_ok (repo w') -> intervals_ok (policies (state w')) ->
  runs (state w) !! run_ident run = None -> runs (state w') = <[run_ident run := run]> (runs (state w)) ->
  (artifacts (state w') = artifacts (state w) /\
     (forall q j, path_name q = dump_name j -> j <> run_ident run -> bytes w' q = bytes w q) \/
   exists policy u b aid art, made policy run u b aid art w w' /\
     artifacts (state w') = <[aid := art]> (artifacts (state w))) ->
  vault_step w w'.
Proof.
  intros Hok' Hint Hfresh Hruns Hart Hw. pose proof Hw as (Hok & _ & Hall & Hinj).
  assert (Hold : forall id a, artifacts (state w) !! id = Some a -> art_run_id a <> run_ident run).
  { intros id a Ha Heq. destruct (Hall _ _ Ha) as ([r Hr] & _). congruence. }
  assert (Hobj : forall id a, artifacts (state w) !! id = Some a -> bytes w' (object a) = bytes w (object a)).
  { intros id a Ha. destruct (Hall _ _ Ha) as (_ & Hn & _). pose proof (Hold _ _ Ha) as Hne.
    destruct Hart as [[_ Hq]|(policy & u & b & aid & art & Hm & _)]; [by eapply Hq|by eapply made_kept]. }
  assert (Hkeep : forall id a, artifacts (state w) !! id = Some a -> artifacts (state w') !! id = Some a).
  { intros id a Ha. destruct Hart as [[-> _]|(policy & u & b & aid & art & Hm & ->)]; [done|].
    apply made_object in Hm as (_ & _ & _ & _ & _ & Hn). rewrite lookup_insert_ne by congruence. done. }
  assert (Hnew : forall id a, artifacts (state w') !! id = Some a -> artifacts (state w) !! id = Some a \/
            art_run_id a = run_ident run /\ path_name (object a) = dump_name (art_run_id a) /\
            (exists b, bytes w' (object a) = Some b /\ sha256_hex b = art_checksum a) /\
            forall id', artifacts (state w') !! id' <> None -> artifacts (state w) !! id' = None -> id' = id).
  { intros id a Ha. destruct Hart as [[Heq _]|(policy & u & b & aid & art & Hm & Heq)]; rewrite Heq in Ha |- *; [by left|].
    apply lookup_insert_Some in Ha as [[<- <-]|[_ Ha]]; [|by left]. right.
    apply made_object in Hm as (Hb & Hn & Hr & Hc & _). split_and!; [done|done|by eauto|].
    intros id' Hin Hno. destruct (decide (id' = aid)) as [|Hne]; [done|]. by rewrite lookup_insert_ne in Hin. }
  split.
  - split_and!; [done|done| |].
    + intros id a [Ha|(Hr & Hn & Hb & _)]%Hnew; [|split_and!; [rewrite Hruns, Hr, lookup_insert_eq; by eexists|done|by intros _]].
      destruct (Hall _ _ Ha) as ([r Hr] & Hn & Hb). rewrite Hruns, lookup_insert_ne by (intros Heq; by apply (Hold _ _ Ha)).
      split_and!; [by eexists|done|]. rewrite (Hobj _ _ Ha). done.
    + intros i1 a1 i2 a2 H1 H2 Heq. pose proof H1 as H1'. pose proof H2 as H2'.
      apply Hnew in H1 as [H1|(Hr1 & _ & _ & Hu1)]; apply Hnew in H2 as [H2|(Hr2 & _ & _ & Hu2)].
      * by eapply Hinj.
      * exfalso. apply (Hold _ _ H1). congruence.
      * exfalso. apply (Hold _ _ H2). congruence.
      * apply Hu2; [by rewrite H1'|]. destruct (artifacts (state w) !! i1) as [a|] eqn:Ha; [|done].
        exfalso. pose proof (Hkeep _ _ Ha) as Ha'. assert (a = a1) as -> by congruence. by apply (Hold _ _ Ha).
  - split.
    + intros id a Ha. exists (art_status a). rewrite set_status_same. split_and!; [by apply Hkeep|done|].
      intros _. by eapply Hobj.
    + rewrite Hruns. by apply runs_kept_fresh.
Qed.

Lemma backup_vault pid trig : st_within vault_step
  (create_backup (R := R) (S := unit) workdir environ subprocess_run sha256_hex read_clock pid trig).
Proof.
  intros w r w' Hb Hw. pose proof Hw as (Hok & Hint & _).
  destruct (policies (state w) !! pid) as [policy|] eqn:Hp; cycle 1.
  { unfold create_backup in Hb. rewrite st_bind_get, (law_get_policy _ _ Hok), Hp in Hb. by injection Hb as _ <-. }
  destruct (enabled policy) eqn:Hen; cycle 1.
  { unfold create_backup in Hb. rewrite st_bind_get, (law_get_policy _ _ Hok), Hp, guard_raise_bind, Hen in Hb.
    by injection Hb as _ <-. }
  apply (backup_cases _ _ _ _ _ pid trig policy) in Hb as [Hok' [(id & run & Hfresh & Hid & _ & _ & Hb)|(_ & _ & Hr & Hs)]];
    try done; [| |by eapply Hint].
  2:{ revert Hw. apply vault_rows; rewrite ?Hr; try done; [apply runs_kept_refl|]. intros ? ? _. by rewrite Hs. }
  assert (Hident : run_ident run = id) by (unfold run_ident; by rewrite Hid).
  revert Hw. destruct r as [r|e].
  - destruct Hb as (-> & _ & u & b & aid & art & next & upd & Hm & _ & _ & _ & _ & Hv).
    apply (vault_added w w' run); rewrite ?Hident; try done; rewrite ?Hv; simpl.
    + apply intervals_insert; [done|]. exact (Hint _ _ Hp).
    + by rewrite Hident.
    + right. by exists policy, u, b, aid, art.
  - destruct Hb as (_ & _ & _ & Hpol & _ & Hruns & Hart).
    apply (vault_added w w' run); rewrite ?Hpol, ?Hident; try done; [by rewrite Hruns, Hident|].
    destruct Hart as [[Ha Hft]|(u & b & aid & art & Hm & Ha)]; [left|right; by exists policy, u, b, aid, art].
    split; [done|]. intros q j Hq Hne. rewrite Hident in Hft. by eapply touched_kept.
Qed.

(** *** Retention and the sweep *)

(** An artifact gets another status, and its object may go if it is deleted. *)
Lemma vault_status w w' id a x : repo_ok (repo w') -> artifacts (state w) !! id = Some a -> art_status a <> DELETED ->
  state w' = put_artifact id (set_artifact_status x a) (state w) ->
  (forall q, q <> object a -> bytes w' q = bytes w q) -> (x <> DELETED -> bytes w' (object a) = bytes w (object a)) ->
  vault_step w w'.
Proof.
  intros Hok' Ha Hne Hv Hq Hobj Hw. pose proof Hw as (Hok & Hint & Hall & Hinj).
  assert (Hrow : forall i b, artifacts (state w') !! i = Some b <->
            i = id /\ b = set_artifact_status x a \/ i <> id /\ artifacts (state w) !! i = Some b).
  { intros i b. rewrite Hv. simpl. rewrite lookup_insert_Some. naive_solver. }
  assert (Hother : forall i b, i <> id -> artifacts (state w) !! i = Some b -> bytes w' (object b) = bytes w (object b)).
  { intros i b Hi Hb. apply Hq. intros Heq. destruct (Hall _ _ Ha) as (_ & Hn & _). destruct (Hall _ _ Hb) as (_ & Hn' & _).
    rewrite Heq, Hn in Hn'. apply dump_name_inj in Hn'. apply Hi. by eapply Hinj. }
  split.
  - split_and!; [done|by rewrite Hv| |].
    + intros i b [[-> ->]|[Hi Hb]]%Hrow.
      * destruct (Hall _ _ Ha) as (Hr & Hn & Hb). rewrite Hv. split_and!; [done|done|].
        intros Hx. change (object (set_artifact_status x a)) with (object a). rewrite Hobj by done. by apply Hb.
      * destruct (Hall _ _ Hb) as (Hr & Hn & Hbytes). rewrite Hv. split_and!; [done|done|]. by rewrite (Hother _ _ Hi Hb).
    + intros i1 b1 i2 b2 [[-> ->]|[Hi1 H1]]%Hrow [[-> ->]|[Hi2 H2]]%Hrow Heq; [done|by eapply Hinj..].
  - split; [|rewrite Hv; apply runs_kept_refl]. intros i b Hb. destruct (decide (i = id)) as [->|Hi].
    + assert (b = a) as -> by congruence. exists x. split_and!; [apply Hrow; by left|done|done].
    + exists (art_status b). rewrite set_status_same. split_and!; [apply Hrow; by right|done|]. intros _. by eapply Hother.
Qed.

Lemma expire_vault policy a id w r w' : artifact_id a = Some id -> artifacts (state w) !! id = Some a ->
  art_status a <> DELETED -> expire_artifact (R := R) (S := unit) policy a w = (r, w') -> vault_step w w'.
Proof.
  intros Hid Ha Hne He Hw. pose proof Hw as (Hok & _). revert Hw. unfold expire_artifact, artifact_ident in He.
  rewrite Hid in He. simpl in He. destruct (law_update_artifact_status id EXPIRED a (repo w) Hok Ha) as (s1 & Heq1 & Hok1 & Hv1).
  rewrite (on_repo_ok _ _ _ _ _ Heq1) in He. set (w1 := with_repo s1 w) in He. destruct (delete_expired policy); cycle 1.
  { injection He as _ <-. by eapply (vault_status w w1 id a EXPIRED). }
  st_inv He as u w2 Hdel; apply on_store_inv in Hdel as (Hdel & Hr2 & _).
  - apply delete_files in Hdel as [Hq _].
    destruct (law_update_artifact_status id DELETED (set_artifact_status EXPIRED a) (repo w2)) as (s2 & Heq2 & Hok2 & Hv2).
    { by rewrite Hr2. } { rewrite Hr2. simpl. rewrite Hv1. apply lookup_insert_eq. }
    unfold on_repo in He. rewrite Heq2 in He. injection He as _ <-.
    eapply (vault_status w _ id a DELETED); try done. simpl. rewrite Hv2, Hr2. simpl. rewrite Hv1.
    unfold put_artifact. simpl. by rewrite insert_insert_eq.
  - apply delete_files in Hdel as [_ Hsame]. eapply (vault_status w _ id a EXPIRED); rewrite ?Hr2; try done.
    + intros q _. by rewrite (Hsame u eq_refl).
    + intros _. by rewrite (Hsame u eq_refl).
Qed.

Lemma expire_all_vault policy l : NoDup l -> forall w r w',
  (forall a, a ∈ l -> exists id, artifact_id a = Some id /\ artifacts (state w) !! id = Some a /\ art_status a <> DELETED) ->
  for_each (expire_artifact (R := R) (S := unit) policy) l w = (r, w') -> vault_step w w'.
Proof.
  induction 1 as [|a l Hn Hnd IH]; intros w r w' Hl He; [by injection He as _ <-|].
  destruct (Hl a) as (id & Hid & Ha & Hne); [left|]. cbn [for_each] in He.
  st_inv He as u w1 H1; [|by eapply expire_vault].
  intros Hw. pose proof Hw as (Hok & _). pose proof (expire_vault _ _ _ _ _ _ Hid Ha Hne H1) as Hstep.
  apply (expire_spec _ _ id) in H1 as (_ & _ & (x & Hv1 & _) & _); [|done..].
  assert (Hrest : vault_step w1 w'); [|revert Hw; change (vault_step w w'); by transitivity w1].
  eapply IH; [|exact He]. intros b Hb. destruct (Hl b) as (i & Hi & Hgi & Hbe); [by right|]. exists i.
  rewrite Hv1. simpl. rewrite lookup_insert_ne; [done|]. intros <-. congruence.
Qed.

Lemma retention_vault pid : st_within vault_step (apply_retention (R := R) (S := unit) read_clock pid).
Proof.
  intros w r w' Hr Hw. pose proof Hw as (Hok & _).
  destruct (policies (state w) !! pid) as [policy|] eqn:Hp; unfold apply_retention in Hr;
    rewrite st_bind_get, (law_get_policy _ _ Hok), Hp in Hr; [|by injection Hr as _ <-].
  rewrite st_bind_clock in Hr. pose proof (actives_perm pid w Hok) as Hperm.
  set (sorted := py_sorted_rev by_creation _) in Hr.
  assert (Hsp : sorted ≡ₚ actives pid (state w)) by (unfold sorted; by rewrite py_sorted_rev_perm).
  set (gone := select_expired _ _ _ _) in Hr.
  assert (Hw' : exists r1, for_each (expire_artifact (R := R) (S := unit) policy) gone (tick w) = (r1, w')).
  { st_inv Hr as u w1 H1; [|by eexists]. rewrite st_bind_get in Hr. injection Hr as _ <-. by eexists. }
  destruct Hw' as [r1 Hfor]. revert Hw. change (vault_step (tick w) w'). eapply expire_all_vault; [| |exact Hfor].
  - apply select_expired_nodup. rewrite Hsp. by apply actives_nodup.
  - intros a (j & Hj & _)%select_expired_elem. apply list_elem_of_lookup_2 in Hj. rewrite Hsp in Hj.
    apply (actives_elem _ _ _ Hok) in Hj as (_ & Hst & id & Hid & Ha). exists id. split_and!; [done|done|congruence].
Qed.

Lemma run_policies_vault l : st_within vault_step
  (run_policies (R := R) (S := unit) workdir environ subprocess_run sha256_hex read_clock l).
Proof.
  induction l as [|p l IH]; intros w r w'; cbn [run_policies]; [by intros [= _ <-]|].
  destruct (create_backup _ _ _ _ _ _ _ w) as [[run|e] w1] eqn:Hb; apply backup_vault in Hb; intros Hr.
  - transitivity w1; [done|]. st_inv Hr as rs w2 H1; [injection Hr as _ <-|]; by eapply IH.
  - transitivity w1; [done|]. destruct (is_backup_error e); [by eapply IH|]. by injection Hr as _ <-.
Qed.

Lemma run_due_vault : st_within vault_step
  (run_due (R := R) (S := unit) workdir environ subprocess_run sha256_hex read_clock).
Proof.
  intros w r w' Hr. unfold run_due in Hr. rewrite st_bind_clock, st_bind_get in Hr.
  change (vault_step (tick w) w'). by eapply run_policies_vault.
Qed.

Lemma serve_vault q w : valid_request q -> vault_step w (serve q w).
Proof.
  intros Hq. destruct q; cbn [serve].
  all: match goal with |- vault_step _ (?m ?w).2 => destruct (m w) as [res w1] eqn:Hm end; cbn [snd].
  - by eapply create_policy_vault.
  - by eapply backup_vault.
  - by eapply verify_vault.
  - by eapply restore_vault.
  - by eapply retention_vault.
  - by eapply run_due_vault.
Qed.

Fixpoint serve_all (qs : list request) (w : World R unit) : World R unit :=
  match qs with
  | [] => w
  | q :: qs' => serve_all qs' (serve q w)
  end.

Lemma serve_all_vault qs w : Forall valid_request qs -> vault_step w (serve_all qs w).
Proof.
  intros Hqs. revert w. induction Hqs as [|q qs Hq Hqs IH]; intros w; [reflexivity|]. cbn [serve_all].
  transitivity (serve q w); [by apply serve_vault|apply IH].
Qed.

(** ** The bytes restored *)

Lemma download_ok key file s b : files s.1 !! path_div base key = Some b -> writable file s.1 ->
  path_div base key <> file -> exists s', download_file key file s = (Ok tt, s') /\ files s'.1 !! file = Some b.
Proof.
  intros Hb Hw Hne. destruct (write_new file b s.1 Hw) as (fs & Hm & Hf & Hwr).
  exists (with_file file b fs, tt). split; [|apply lookup_insert_eq].
  cbn [download_file storage LocalDirectoryStorage]. unfold local_download_file, path_exists, is_file.
  rewrite Hb. cbn [negb orb bool_decide]. rewrite bool_decide_true by (by eexists). cbn [negb orb].
  unfold mbind, st_bind, on_files. rewrite Hm. unfold copyfile, read_bytes. cbn [fst snd map_err].
  rewrite bool_decide_false by done. cbn [andb]. rewrite Hf, Hb, Hwr. by destruct s as [? []].
Qed.

Lemma resolved_safe ref conn : resolve_connection_ref environ ref = Ok conn -> ref_safe ref = true.
Proof. unfold resolve_connection_ref, ref_safe. by destruct (starts_with "env://" ref), (starts_with "vault://" ref), (starts_with "secret://" ref). Qed.

(** The artifact of a run, from the run. *)
Lemma artifact_of_run id a w : vault_ok w -> artifacts (state w) !! id = Some a ->
  get_artifact_by_run (art_run_id a) (repo w) = Some a.
Proof.
  intros (Hok & _ & _ & Hinj) Ha. pose proof (law_get_artifact_by_run (art_run_id a) _ Hok) as Hl.
  destruct (get_artifact_by_run _ _) as [a'|]; [|by exfalso; eapply Hl].
  destruct Hl as (Heq & id' & Ha'). assert (id' = id) as -> by (by eapply Hinj). congruence.
Qed.

(** A confirmed restore of a succeeded run whose artifact is not deleted. *)
Lemma restore_runs_command rid ref conn run id a w :
  vault_ok w -> runs (state w) !! rid = Some run -> status run = RUN_SUCCEEDED ->
  artifacts (state w) !! id = Some a -> art_run_id a = rid -> art_status a <> DELETED ->
  resolve_connection_ref environ ref = Ok conn ->
  let file := local_dump workdir "restore" rid in let cmd := build_restore_command file conn in
  is_ok (redact_command cmd) = true -> is_ok (redact_url conn) = true -> writable file (store w).1 ->
  exists b fs res w', bytes w (object a) = Some b /\ files fs !! file = Some b /\
    restore_backup environment workdir environ subprocess_run sha256_hex read_clock rid ref false true true w = (res, w') /\
    executed w' = (executed w ++ [cmd])%list /\ (store w').1 = (subprocess_run cmd None fs).2.
Proof.
  intros Hw Hrun Hst Ha Hrid Hdel Hconn file cmd Hred Hurl Hwr. pose proof Hw as (Hok & _ & Hall & _).
  destruct (Hall _ _ Ha) as (_ & Hname & Hbytes). destruct (Hbytes Hdel) as (b & Hb & Hsum).
  assert (Hne : object a <> file).
  { intros Heq. rewrite Heq in Hname. by apply local_dump_name in Hname. }
  destruct (download_ok _ _ _ _ Hb Hwr Hne) as (s1 & Hdl & Hs1).
  unfold restore_backup. rewrite st_bind_get, (law_get_run _ _ Hok), Hrun, st_bind_lift.
  assert (Hget : get_artifact_by_run rid (repo w) = Some a) by (rewrite <- Hrid; by eapply artifact_of_run).
  rewrite Hget. unfold restore_guards. rewrite bool_decide_true by done.
  rewrite andb_false_r. cbn [negb andb]. rewrite st_bind_lift, Hconn.
  set (w1 := {| repo := repo w; store := s1; executed := executed w; ticks := ticks w |}).
  assert (Hf : fetch_artifact sha256_hex a file "backup artifact checksum mismatch; refusing restore" w = (Ok tt, w1)).
  { unfold fetch_artifact, mbind, st_bind, on_store. rewrite Hdl. unfold sha256_file, file_bytes, read_bytes, mbind, st_bind.
    cbn [store fst]. rewrite Hs1. cbn [map_err]. rewrite Hsum. unfold mret, st_ret. by rewrite String.eqb_refl. }
  rewrite (st_bind_ok _ _ _ _ _ Hf). fold file. fold cmd.
  destruct (redact_command cmd) as [red|] eqn:Hr1; [|done]. destruct (redact_url conn) as [url|] eqn:Hr2; [|done].
  cbn [value_error map_err]. rewrite st_bind_lift. rewrite st_bind_lift, st_bind_clock.
  set (rs := new_restore _ _ _ _ _ _).
  destruct (law_create_restore rs (repo (tick w1))) as [(i & s & Heq & Hok2 & Hfresh & Hv)|(e & _ & Hno)]; try done;
    [|exfalso; apply Hno; split; [by eapply resolved_safe|by eexists]].
  rewrite (on_repo_ok _ _ _ _ _ Heq). destruct (execute_restore _ _ _ _ _) as [res w'] eqn:Hx.
  exists b, s1.1, res, w'. apply (execute_restore_spec _ _ _ _ i) in Hx as (Hx & _ & Hfs & _); try done.
  simpl. rewrite Hv. apply lookup_insert_eq.
Qed.

(** Whatever requests are served, every artifact keeps what it records and,
    unless it is deleted, its object with the bytes and the checksum it had; a
    deletion and the success of a run are final. *)
Theorem objects_survive qs w : vault_ok w -> Forall valid_request qs ->
  vault_ok (serve_all qs w) /\ vault_kept w (serve_all qs w).
Proof. intros Hw Hqs. by apply serve_all_vault. Qed.

(** C8: a backup that succeeded can be restored: whatever requests are served in
    between, as long as its artifact is not deleted, a confirmed restore runs, and
    the file it hands to the tool holds the bytes the dump command wrote. *)
Theorem restore_returns_dump pid trig w run w1 qs ref conn :
  vault_ok w -> Forall valid_request qs ->
  create_backup workdir environ subprocess_run sha256_hex read_clock pid trig w = (Ok run, w1) ->
  let rid := run_ident run in let w2 := serve_all qs w1 in
  let file := local_dump workdir "restore" rid in let cmd := build_restore_command file conn in
  (forall id a, artifacts (state w2) !! id = Some a -> art_run_id a = rid -> art_status a <> DELETED) ->
  resolve_connection_ref environ ref = Ok conn -> is_ok (redact_command cmd) = true -> is_ok (redact_url conn) = true ->
  writable file (store w2).1 ->
  exists policy dump out b fs res w3,
    policies (state w) !! pid = Some policy /\ builds workdir environ policy rid dump out /\
    files (dumped subprocess_run policy dump (store w)).1 !! out = Some b /\
    restore_backup environment workdir environ subprocess_run sha256_hex read_clock rid ref false true true w2 = (res, w3) /\
    files fs !! file = Some b /\ executed w3 = (executed w2 ++ [cmd])%list /\
    (store w3).1 = (subprocess_run cmd None fs).2.
Proof.
  intros Hw Hqs Hb rid w2 file cmd Hdel Hconn Hred Hurl Hwr. pose proof Hw as (Hok & Hint & _).
  pose proof (backup_vault _ _ _ _ _ Hb Hw) as [Hw1 _].
  destruct (serve_all_vault qs w1 Hqs Hw1) as [Hw2 [Harts Hruns]]. fold w2 in Hw2, Harts, Hruns.
  destruct (policies (state w) !! pid) as [policy|] eqn:Hp; cycle 1.
  { unfold create_backup in Hb. by rewrite st_bind_get, (law_get_policy _ _ Hok), Hp in Hb. }
  destruct (enabled policy) eqn:Hen; cycle 1.
  { unfold create_backup in Hb. by rewrite st_bind_get, (law_get_policy _ _ Hok), Hp, guard_raise_bind, Hen in Hb. }
  pose proof Hb as Hcase.
  apply (backup_cases _ _ _ _ _ pid trig policy) in Hcase as [_ [(id & r & _ & _ & _ & _ & <- & Hst & Hrec)|(_ & (? & Hr & _) & _)]];
    try done; [|by eapply Hint].
  destruct Hrec as (u & b & aid & art & next & upd & Hm & _ & _ & _ & _ & Hv).
  destruct (made_object _ _ _ _ _ _ _ _ Hm) as (Hobj & _ & Harun & _).
  destruct (Harts aid art) as (x & Hart2 & _ & Hbytes); [rewrite Hv; apply lookup_insert_eq|].
  destruct (Hruns rid run) as (run2 & Hrun2 & _ & Hst2); [rewrite Hv; apply lookup_insert_eq|].
  assert (Hx : x <> DELETED) by (by apply (Hdel _ _ Hart2)).
  destruct (restore_runs_command rid ref conn run2 aid (set_artifact_status x art) w2) as (b' & fs & res & w3 & Hb' & Hrest);
    auto. destruct Hm as (dump & out & t & created & expires & _ & Hbuild & Hout & _).
  exists policy, dump, out, b, fs, res, w3. destruct Hrest as (Hfile & Hres & Hx3 & Hfs).
  change (object (set_artifact_status x art)) with (object art) in Hb'. rewrite (Hbytes Hx), Hobj in Hb'.
  injection Hb' as <-. by split_and!.
Qed.
End Vault.
