(* ===== verification/RedisLock.v ===== *)
(** Distributed locks: [lock.py] of apexquant-redis.

    The Redis server is a parameter: the class [Redis] has the three commands the
    package sends, [RedisLaws] what their documentation says, observed through
    [redis_get] at the present and at later times.  Clients interleave at the
    commands, each of which is atomic; a command may not arrive, or its reply be
    lost.  Times are in milliseconds. *)
From stdpp Require Import base strings list gmap numbers.
From S2P Require Import Prelude.

#[local] Open Scope string_scope.
#[local] Open Scope Z_scope.

Inductive lock_exc := ResponseError (m : string) | ConnectionError | RuntimeError (m : string).

(** ** The server *)

Class Redis (S : Type) := {
  (** GET key, at a time *)
  redis_get : Z -> string -> S -> option string;
  (** SET key value NX PX ms: whether it was set *)
  redis_set_nx_px : Z -> string -> string -> Z -> st S lock_exc bool;
  (** DEL key: how many keys were removed *)
  redis_del : Z -> string -> st S lock_exc Z
}.

Section Server.
Context {S : Type} `{Redis S}.

(** From [now] on, [s'] answers like [s] on the keys of [P]. *)
Definition same_keys (P : string -> Prop) (now : Z) (s s' : S) : Prop :=
  forall t k, now <= t -> P k -> redis_get t k s' = redis_get t k s.
Definition unseen : Z -> S -> S -> Prop := same_keys (fun _ => True).
Definition seen_at (key : string) : Z -> S -> S -> Prop := same_keys (fun k => k <> key).

(** A key is free from [t] on. *)
Definition free_from (t : Z) (k : string) (s : S) : Prop := forall t', t <= t' -> redis_get t' k s = None.
(** A key keeps a value until [d], and has none after it. *)
Definition leased (now d : Z) (k v : string) (s : S) : Prop :=
  forall t, now <= t -> (t < d -> redis_get t k s = Some v) /\ (d < t -> redis_get t k s = None).
End Server.

Class RedisLaws (S : Type) `{Redis S} := {
  law_expired now t k s : redis_get now k s = None -> now <= t -> redis_get t k s = None;
  law_value now t k v s : redis_get now k s = Some v -> now <= t -> redis_get t k s ∈ [None; Some v];
  law_set_bad now k v px s : px <= 0 ->
    exists m s', redis_set_nx_px now k v px s = (Err (ResponseError m), s') /\ unseen now s s';
  law_set_held now k v px u s : 0 < px -> redis_get now k s = Some u ->
    exists s', redis_set_nx_px now k v px s = (Ok false, s') /\ unseen now s s';
  law_set_free now k v px s : 0 < px -> redis_get now k s = None ->
    exists s', redis_set_nx_px now k v px s = (Ok true, s') /\ seen_at k now s s' /\ leased now (now + px) k v s';
  law_del now k s : exists s',
    redis_del now k s = (Ok (match redis_get now k s with Some _ => 1 | None => 0 end), s') /\
    seen_at k now s s' /\ free_from now k s'
}.

(** ** The lock objects *)

(** How a command fares. *)
Inductive Net := Delivered | ReplyLost | NotSent.

(** [ttl_ms] is [int(ttl_seconds * 1000)]. *)
Record DistributedLock := { lock_key : string; ttl_ms : Z; token : string; acquired : bool }.
Definition set_acquired (b : bool) (l : DistributedLock) : DistributedLock :=
  {| lock_key := lock_key l; ttl_ms := ttl_ms l; token := token l; acquired := b |}.

Section Lock.
Context {S : Type} `{Redis S}.

Notation LM := (st (S * DistributedLock) lock_exc).

Definition command {A} (net : Net) (m : st S lock_exc A) : LM A := fun sl =>
  match net with
  | Delivered => let '(r, s) := m sl.1 in (r, (s, sl.2))
  | ReplyLost => (Err ConnectionError, ((m sl.1).2, sl.2))
  | NotSent => (Err ConnectionError, sl)
  end.
Definition assign_acquired (b : bool) : LM unit := fun sl => (Ok tt, (sl.1, set_acquired b sl.2)).

Definition UNLOCK_SCRIPT (now : Z) (key arg : string) : st S lock_exc Z := fun s =>
  if bool_decide (redis_get now key s = Some arg) then redis_del now key s else (Ok 0, s).

Definition try_acquire (now : Z) (net : Net) : LM bool :=
  sl ← get_state;
  result ← command net (redis_set_nx_px now (lock_key sl.2) (token sl.2) (ttl_ms sl.2));
  assign_acquired result ≫= fun _ =>
  mret result.

Definition release (now : Z) (net : Net) : LM bool :=
  sl ← get_state;
  if negb (acquired sl.2) then mret false
  else
    result ← command net (UNLOCK_SCRIPT now (lock_key sl.2) (token sl.2));
    assign_acquired false ≫= fun _ =>
    mret (negb (result =? 0)).

(** [__aenter__] of a lock that does not block *)
Definition aenter (now : Z) (net : Net) : LM unit :=
  got ← try_acquire now net;
  sl ← get_state;
  guard_raise (negb got) (RuntimeError ("failed to acquire lock: " ++ lock_key sl.2)).

(** ** Clients that interleave *)

Record LockWorld := { server : S; now : Z; locks : gmap nat DistributedLock }.

(** What happens next: time passes, or an object sends its command. *)
Inductive Action :=
| Elapse (ms : N)
| TryAcquire (i : nat) (net : Net)
| Release (i : nat) (net : Net).

Definition on_lock (i : nat) (m : LM bool) (w : LockWorld) : option (result lock_exc bool) * LockWorld :=
  match locks w !! i with
  | None => (None, w)
  | Some l =>
      let '(r, (s, l')) := m (server w, l) in
      (Some r, {| server := s; now := now w; locks := <[i := l']> (locks w) |})
  end.

Definition perform (a : Action) (w : LockWorld) : option (result lock_exc bool) * LockWorld :=
  match a with
  | Elapse ms => (None, {| server := server w; now := now w + Z.of_N ms; locks := locks w |})
  | TryAcquire i net => on_lock i (try_acquire (now w) net) w
  | Release i net => on_lock i (release (now w) net) w
  end.

(** The actions performed, each with what its caller got, and the world left. *)
Fixpoint schedule (l : list Action) (w : LockWorld) : list (Action * option (result lock_exc bool)) * LockWorld :=
  match l with
  | [] => ([], w)
  | a :: l' =>
      let '(r, w') := perform a w in
      let '(tr, w'') := schedule l' w' in
      ((a, r) :: tr, w'')
  end.

(** [acquire] of a lock that blocks.  Each round is what the others do, and the
    time that passes, while it sleeps; [None] when it still waits after them. *)
Fixpoint acquire_blocking (i : nat) (rounds : list (list Action)) (w : LockWorld)
    : option (result lock_exc bool) * LockWorld :=
  match perform (TryAcquire i Delivered) w with
  | (Some (Ok false), w') =>
      match rounds with
      | [] => (None, w')
      | r :: rounds' => acquire_blocking i rounds' (schedule r w').2
      end
  | (r, w') => (r, w')
  end.
End Lock.

Arguments LockWorld S : clear implicits.
Arguments Build_LockWorld {S}.

(** ** What one command changes *)
Section Commands.
Context {S : Type} `{HL : RedisLaws S}.
Implicit Types (s : S) (w : LockWorld S).

Lemma leased_kept (P : string -> Prop) now now' d k v s s' : P k -> same_keys P now s s' -> now <= now' ->
  leased now d k v s -> leased now' d k v s'.
Proof. intros Hk Hs Hle Hl t Ht. rewrite Hs by (done || lia). apply Hl. lia. Qed.

Lemma free_kept (P : string -> Prop) now t k s s' : P k -> same_keys P now s s' -> now <= t ->
  free_from t k s -> free_from t k s'.
Proof. intros Hk Hs Hle Hf t' Ht. rewrite Hs by (done || lia). by apply Hf. Qed.

Lemma set_view now k v px s r s' : redis_set_nx_px now k v px s = (r, s') ->
  (unseen now s s' /\ r <> Ok true /\ (0 < px -> r = Ok false)) \/
  (0 < px /\ redis_get now k s = None /\ r = Ok true /\ seen_at k now s s' /\ leased now (now + px) k v s').
Proof.
  intros Hr. destruct (decide (0 < px)) as [Hpx|Hpx].
  - destruct (redis_get now k s) as [u|] eqn:Hg.
    + destruct (law_set_held now k v px u s Hpx Hg) as (s1 & Hs & Hv). rewrite Hs in Hr. injection Hr as <- <-. by left.
    + destruct (law_set_free now k v px s Hpx Hg) as (s1 & Hs & Hv & Hl). rewrite Hs in Hr. injection Hr as <- <-.
      right. by split_and!.
  - destruct (law_set_bad now k v px s) as (m & s1 & Hs & Hv); [lia|]. rewrite Hs in Hr. injection Hr as <- <-.
    left. split_and!; [done|done|lia].
Qed.

Lemma unlock_view now k v s r s' : UNLOCK_SCRIPT now k v s = (r, s') ->
  (redis_get now k s <> Some v /\ s' = s /\ r = Ok 0) \/
  (redis_get now k s = Some v /\ r = Ok 1 /\ seen_at k now s s' /\ free_from now k s').
Proof.
  unfold UNLOCK_SCRIPT. case_bool_decide as Hg; intros Hr; [|injection Hr as <- <-; by left].
  destruct (law_del now k s) as (s1 & Hs & Hv & Hf). rewrite Hg in Hs. rewrite Hs in Hr. injection Hr as <- <-.
  right. by split_and!.
Qed.

(** The outcomes of [SET] as the object sees them. *)
Lemma try_acquire_view now net s l r s' l' : try_acquire now net (s, l) = (r, (s', l')) ->
  (l' = match r with Ok b => set_acquired b l | Err _ => l end) /\
  ((unseen now s s' /\ r <> Ok true /\ (net = Delivered -> 0 < ttl_ms l -> r = Ok false)) \/
   (0 < ttl_ms l /\ redis_get now (lock_key l) s = None /\ (net = Delivered -> r = Ok true) /\
    seen_at (lock_key l) now s s' /\ leased now (now + ttl_ms l) (lock_key l) (token l) s')).
Proof.
  unfold try_acquire. rewrite st_bind_get. unfold mbind, st_bind at 1, command. cbn [fst snd].
  destruct (redis_set_nx_px now (lock_key l) (token l) (ttl_ms l) s) as [r1 s1] eqn:Hset.
  apply set_view in Hset.
  destruct net; cbn [fst snd].
  - destruct r1 as [b|e]; cbn; intros [= <- <- <-]; (split; [done|]); destruct Hset as [(?&?&?)|(?&?&?&?&?)]; naive_solver.
  - intros [= <- <- <-]. split; [done|]. destruct Hset as [(?&?&?)|(?&?&?&?&?)]; naive_solver.
  - intros [= <- <- <-]. split; [done|]. left. by split_and!.
Qed.

Lemma release_view now net s l r s' l' : release now net (s, l) = (r, (s', l')) ->
  (exists b, l' = set_acquired b l) /\
  ((unseen now s s' /\ r <> Ok true) \/
   (redis_get now (lock_key l) s = Some (token l) /\ (net = Delivered -> r = Ok true) /\
    seen_at (lock_key l) now s s' /\ free_from now (lock_key l) s')).
Proof.
  assert (Hself : l = set_acquired (acquired l) l) by by destruct l.
  unfold release. rewrite st_bind_get. cbn [snd]. destruct (acquired l) eqn:Hacq; cbn [negb]; cycle 1.
  { intros [= <- <- <-]. split; [by eexists|]. by left. }
  unfold mbind, st_bind at 1, command. cbn [fst snd].
  destruct (UNLOCK_SCRIPT now (lock_key l) (token l) s) as [r1 s1] eqn:Hu. apply unlock_view in Hu.
  destruct net; cbn [fst snd].
  - destruct Hu as [(_ & -> & ->)|(Hg & -> & Hv & Hf)]; cbn; intros [= <- <- <-]; (split; [by eexists|]).
    + by left.
    + right. by split_and!.
  - intros [= <- <- <-]. split; [by eexists|].
    destruct Hu as [(_ & -> & _)|(Hg & _ & Hv & Hf)]; [by left|right; by split_and!].
  - intros [= <- <- <-]. split; [by eexists|]. by left.
Qed.

(** A release that arrives, of a lock whose lease is in force. *)
Lemma release_held now d s l : acquired l = true -> leased now d (lock_key l) (token l) s -> now < d ->
  exists s', release now Delivered (s, l) = (Ok true, (s', set_acquired false l)) /\ free_from now (lock_key l) s'.
Proof.
  intros Hacq Hl Hd. destruct (Hl now) as [Hg _]; [lia|].
  destruct (law_del now (lock_key l) s) as (s' & Hdel & _ & Hf). exists s'. split; [|done].
  unfold release. rewrite st_bind_get. cbn [snd]. rewrite Hacq. cbn [negb].
  unfold mbind, st_bind at 1, command, UNLOCK_SCRIPT. cbn [fst snd].
  rewrite bool_decide_eq_true_2 by auto. rewrite Hdel, Hg by done. done.
Qed.

(** ** Worlds *)

(** Tokens are drawn at random: no two objects have the same. *)
Definition tokens_distinct (ls : gmap nat DistributedLock) : Prop :=
  forall i j l m, ls !! i = Some l -> ls !! j = Some m -> token l = token m -> i = j.
(** What never changes of the objects. *)
Definition same_objects (ls ls' : gmap nat DistributedLock) : Prop :=
  forall i, match ls !! i, ls' !! i with
            | Some l, Some l' => exists b, l' = set_acquired b l
            | None, None => True
            | _, _ => False
            end.

Lemma same_objects_insert ls i l b : ls !! i = Some l -> same_objects ls (<[i := set_acquired b l]> ls).
Proof.
  intros Hl j. destruct (decide (i = j)) as [<-|Hne].
  - rewrite Hl, lookup_insert_eq. by eexists.
  - rewrite lookup_insert_ne by done. destruct (ls !! j) as [m|]; [|done]. exists (acquired m). by destruct m.
Qed.

#[export] Instance same_objects_preorder : PreOrder same_objects.
Proof.
  split.
  - intros ls i. destruct (ls !! i) as [l|]; [|done]. exists (acquired l). by destruct l.
  - intros x y z Hxy Hyz i. specialize (Hxy i). specialize (Hyz i).
    destruct (x !! i), (y !! i), (z !! i); try done. destruct Hxy as [b ->], Hyz as [c ->]. by exists c.
Qed.

Lemma same_objects_lookup ls ls' i l : same_objects ls ls' -> ls !! i = Some l ->
  exists b, ls' !! i = Some (set_acquired b l).
Proof. intros Hs Hl. specialize (Hs i). rewrite Hl in Hs. destruct (ls' !! i); [|done]. destruct Hs as [b ->]. by exists b. Qed.

Lemma same_objects_back ls ls' i l' : same_objects ls ls' -> ls' !! i = Some l' ->
  exists l b, ls !! i = Some l /\ l' = set_acquired b l.
Proof. intros Hs Hl. specialize (Hs i). rewrite Hl in Hs. destruct (ls !! i) as [l|]; [|done]. destruct Hs as [b ->]. by exists l, b. Qed.

Lemma tokens_kept ls ls' : same_objects ls ls' -> tokens_distinct ls -> tokens_distinct ls'.
Proof.
  intros Hs Hd i j l m (l0 & b & Hl & ->)%(same_objects_back _ _ _ _ Hs) (m0 & c & Hm & ->)%(same_objects_back _ _ _ _ Hs).
  apply (Hd i j l0 m0 Hl Hm).
Qed.

(** ** Steps *)

Definition by_object (i : nat) (a : Action) : Prop :=
  match a with TryAcquire j _ | Release j _ => j = i | Elapse _ => False end.
Definition elapsed (a : Action) : Z := match a with Elapse ms => Z.of_N ms | _ => 0 end.

(** What an action does to a key: nothing, or an object sets it free to its own
    token, or frees it from its own token. *)
Definition key_untouched (k : string) w w' : Prop :=
  forall t, now w <= t -> redis_get t k (server w') = redis_get t k (server w).
Definition key_taken (k : string) (a : Action) w w' (r : option (result lock_exc bool)) : Prop :=
  exists i net l, a = TryAcquire i net /\ locks w !! i = Some l /\ lock_key l = k /\ 0 < ttl_ms l /\
    redis_get (now w) k (server w) = None /\ leased (now w) (now w + ttl_ms l) k (token l) (server w') /\
    (net = Delivered -> r = Some (Ok true)).
Definition key_freed (k : string) (a : Action) w w' : Prop :=
  exists i net l, a = Release i net /\ locks w !! i = Some l /\ lock_key l = k /\
    redis_get (now w) k (server w) = Some (token l) /\ free_from (now w) k (server w').

Lemma perform_spec a w r w' : perform a w = (r, w') ->
  now w' = now w + elapsed a /\ same_objects (locks w) (locks w') /\
  (forall j, ~ by_object j a -> locks w' !! j = locks w !! j) /\
  forall k, (key_untouched k w w' /\
             (forall i net l, a = TryAcquire i net -> locks w !! i = Some l -> lock_key l = k -> r <> Some (Ok true))) \/
            key_taken k a w w' r \/ key_freed k a w w'.
Proof.
  destruct a as [ms|i net|i net]; cbn.
  - intros [= <- <-]. split_and!; try done. intros k. left. by split.
  - unfold on_lock. destruct (locks w !! i) as [l|] eqn:Hl; cycle 1.
    { intros [= <- <-]. split_and!; [lia|done|done|]. intros k. left. by split. }
    destruct (try_acquire _ _ _) as [r1 [s1 l1]] eqn:Ht. intros [= <- <-]. cbn.
    apply try_acquire_view in Ht as [Hl1 Hv]. assert (Hb : exists b, l1 = set_acquired b l).
    { rewrite Hl1. destruct r1; [by eexists|]. exists (acquired l). by destruct l. }
    destruct Hb as [b ->]. split_and!; [lia|by apply same_objects_insert|intros; by apply lookup_insert_ne|].
    intros k. destruct (decide (lock_key l = k)) as [<-|Hk]; cycle 1.
    + left. split; [|intros ? ? ? [= <- <-]; congruence].
      destruct Hv as [(Hv & _)|(_ & _ & _ & Hv & _)]; intros t0 Ht; apply Hv; done.
    + destruct Hv as [(Hv & Hne & _)|(Httl & Hg & Hr & Hv & Hls)].
      * left. split; [intros t0 Ht; by apply Hv|]. intros. congruence.
      * right; left. exists i, net, l. split_and!; try done. intros Hnet. by rewrite Hr.
  - unfold on_lock. destruct (locks w !! i) as [l|] eqn:Hl; cycle 1.
    { intros [= <- <-]. split_and!; [lia|done|done|]. intros k. left. by split. }
    destruct (release _ _ _) as [r1 [s1 l1]] eqn:Ht. intros [= <- <-]. cbn.
    apply release_view in Ht as [[b ->] Hv].
    split_and!; [lia|by apply same_objects_insert|intros; by apply lookup_insert_ne|].
    intros k. destruct (decide (lock_key l = k)) as [<-|Hk]; cycle 1.
    + left. split; [|by intros]. destruct Hv as [(Hv & _)|(_ & _ & Hv & _)]; intros t0 Ht; apply Hv; done.
    + destruct Hv as [(Hv & _)|(Hg & Hr & Hv & Hf)].
      * left. split; [intros t0 Ht; by apply Hv|by intros].
      * right; right. by exists i, net, l.
Qed.

Lemma elapsed_pos a : 0 <= elapsed a.
Proof. destruct a; cbn; lia. Qed.

Fixpoint elapsed_all (l : list Action) : Z := match l with [] => 0 | a :: l' => elapsed a + elapsed_all l' end.

Lemma elapsed_all_pos l : 0 <= elapsed_all l.
Proof. induction l as [|a l IH]; cbn; [lia|]. pose proof (elapsed_pos a). lia. Qed.

Lemma schedule_spec acts : forall w tr w', schedule acts w = (tr, w') ->
  now w' = now w + elapsed_all acts /\ same_objects (locks w) (locks w').
Proof.
  induction acts as [|a acts IH]; cbn; intros w tr w'; [intros [= _ <-]; split; [lia|done]|].
  destruct (perform a w) as [r w1] eqn:Hp. destruct (schedule acts w1) as [tr1 w2] eqn:Hs. intros [= _ <-].
  apply perform_spec in Hp as (Hnow & Hobj & _). apply IH in Hs as [Hn Ho]. split; [lia|by etrans].
Qed.

(** ** Holding a lock *)

Definition holds (i : nat) (d : Z) w : Prop :=
  exists l, locks w !! i = Some l /\ acquired l = true /\ leased (now w) d (lock_key l) (token l) (server w).

Lemma holds_step i d a w r w' : tokens_distinct (locks w) -> holds i d w -> now w < d -> ~ by_object i a ->
  perform a w = (r, w') -> holds i d w' /\
  forall j m net l, a = TryAcquire j net -> locks w !! j = Some m -> locks w !! i = Some l -> lock_key m = lock_key l ->
    r <> Some (Ok true).
Proof.
  intros Htok (l & Hl & Hacq & Hls) Hd Hna Hp. apply perform_spec in Hp as (Hnow & _ & Hsame & Hkey).
  destruct (Hls (now w)) as [Hg _]; [lia|]. specialize (Hg Hd). pose proof (elapsed_pos a).
  destruct (Hkey (lock_key l)) as [[Hu Hr]|[(j & net & m & -> & Hm & Hk & _ & Hg' & _)|(j & net & m & -> & Hm & Hk & Hg' & _)]].
  - split.
    + exists l. rewrite Hsame by done. split_and!; [done|done|]. intros t0 Ht. rewrite Hu by lia. apply Hls. lia.
    + intros j m net l' -> Hm Hl' Hk. eapply Hr; [done|done|congruence].
  - congruence.
  - exfalso. apply Hna. cbn. eapply Htok; [done|done|congruence].
Qed.

Lemma holds_schedule i d acts : forall w tr w', tokens_distinct (locks w) -> holds i d w ->
  Forall (fun a => ~ by_object i a) acts -> schedule acts w = (tr, w') -> now w' < d ->
  holds i d w' /\ now w <= now w' /\
  forall j m net l, locks w !! j = Some m -> locks w !! i = Some l -> lock_key m = lock_key l ->
    (TryAcquire j net, Some (Ok true)) ∉ tr.
Proof.
  induction acts as [|a acts IH]; cbn; intros w tr w' Htok Hh Hacts Hs Hd.
  { injection Hs as <- <-. split_and!; [done|lia|]. intros. apply not_elem_of_nil. }
  apply list.Forall_cons in Hacts as [Ha Hacts].
  destruct (perform a w) as [r w1] eqn:Hp. destruct (schedule acts w1) as [tr1 w2] eqn:Hs1. injection Hs as <- <-.
  pose proof Hp as (Hnow & Hobj & _)%perform_spec. pose proof (elapsed_pos a).
  assert (Hle : now w1 <= now w2) by (apply schedule_spec in Hs1 as [-> _]; pose proof (elapsed_all_pos acts); lia).
  destruct (holds_step i d a w r w1) as [Hh1 Hr]; try done; [lia|].
  destruct (IH w1 tr1 w2) as (Hh2 & _ & Htr); try done; [by eapply tokens_kept|].
  split_and!; [done|lia|]. intros j m net l Hm Hl Hk. rewrite elem_of_cons. intros [[= <- <-]|Hin].
  - by eapply Hr.
  - apply (same_objects_lookup _ _ _ _ Hobj) in Hm as [b Hm], Hl as [c Hl].
    revert Hin. by eapply Htr.
Qed.

Lemma acquire_delivered i l w : locks w !! i = Some l -> 0 < ttl_ms l ->
  exists b w', perform (TryAcquire i Delivered) w = (Some (Ok b), w') /\
    (redis_get (now w) (lock_key l) (server w) = None -> b = true) /\
    if b then holds i (now w' + ttl_ms l) w' else key_untouched (lock_key l) w w'.
Proof.
  intros Hl Httl. cbn. unfold on_lock. rewrite Hl.
  destruct (try_acquire _ _ _) as [r [s' l']] eqn:Ht. pose proof Ht as Hres.
  apply try_acquire_view in Ht as [-> [(Hv & Hne & Hr)|(_ & Hg & Hr & _ & Hls)]].
  - rewrite Hr in * by done. exists false. eexists. split; [reflexivity|]. split; [|by intros t ?; apply Hv].
    intros Hg. exfalso. clear Hr Hne. revert Hres. unfold try_acquire. rewrite st_bind_get.
    unfold mbind, st_bind at 1, command. cbn [fst snd].
    destruct (law_set_free (now w) (lock_key l) (token l) (ttl_ms l) (server w)) as (s1 & -> & _); done.
  - rewrite Hr by done. exists true. eexists. split; [reflexivity|]. split; [done|].
    exists (set_acquired true l). cbn. rewrite lookup_insert_eq. by split_and!.
Qed.

(** ** Waiting for a lock *)

(** The key of a blocking lock is free once [d] is over. *)
Definition freed_by (k : string) (d : Z) w : Prop :=
  forall t, d < t -> now w <= t -> redis_get t k (server w) = None.
Definition acquires (k : string) (ls : gmap nat DistributedLock) (a : Action) : Prop :=
  match a with TryAcquire j _ => exists m, ls !! j = Some m /\ lock_key m = k | _ => False end.

Lemma acquires_kept k ls ls' a : same_objects ls ls' -> acquires k ls' a -> acquires k ls a.
Proof.
  intros Hs. destruct a as [|j net|]; [done| |done]. cbn.
  intros (m' & (m & b & Hm & ->)%(same_objects_back _ _ _ _ Hs) & Hk). by exists m.
Qed.

Lemma freed_step k d a w r w' : freed_by k d w -> ~ acquires k (locks w) a -> perform a w = (r, w') -> freed_by k d w'.
Proof.
  intros Hf Ha (Hnow & _ & _ & Hkey)%perform_spec t Hd Ht. pose proof (elapsed_pos a).
  destruct (Hkey k) as [[Hu _]|[(j & net & m & -> & Hm & Hk & _)|(j & net & m & -> & Hm & Hk & _ & Hfree)]].
  - rewrite Hu by lia. apply Hf; lia.
  - exfalso. apply Ha. by exists m.
  - apply Hfree. lia.
Qed.

Lemma freed_schedule k d acts : forall w tr w', freed_by k d w ->
  Forall (fun a => ~ acquires k (locks w) a) acts -> schedule acts w = (tr, w') -> freed_by k d w'.
Proof.
  induction acts as [|a acts IH]; cbn; intros w tr w' Hf Hacts; [by intros [= _ <-]|].
  apply list.Forall_cons in Hacts as [Ha Hacts].
  destruct (perform a w) as [r w1] eqn:Hp. destruct (schedule acts w1) as [tr1 w2] eqn:Hs. intros [= _ <-].
  pose proof Hp as (_ & Hobj & _)%perform_spec. eapply IH; [by eapply freed_step| |done].
  eapply list.Forall_impl; [exact Hacts|]. intros b Hb Hb'. apply Hb. by eapply acquires_kept.
Qed.

(** No lease is longer than the longest of the objects of its key. *)
Lemma leases_bounded k M acts : 0 <= M -> forall w tr w', freed_by k (now w + M) w ->
  (forall j m, locks w !! j = Some m -> lock_key m = k -> ttl_ms m <= M) ->
  schedule acts w = (tr, w') -> freed_by k (now w' + M) w'.
Proof.
  intros HM. induction acts as [|a acts IH]; cbn; intros w tr w' Hf Httl; [by intros [= _ <-]|].
  destruct (perform a w) as [r w1] eqn:Hp. destruct (schedule acts w1) as [tr1 w2] eqn:Hs. intros [= _ <-].
  pose proof Hp as (Hnow & Hobj & _ & Hkey)%perform_spec. pose proof (elapsed_pos a).
  apply (IH w1 tr1 w2); [|intros j m' (m & b & Hm & ->)%(same_objects_back _ _ _ _ Hobj); apply (Httl j m Hm)|done].
  intros t Hd Ht.
  destruct (Hkey k) as [[Hu _]|[(j & net & m & -> & Hm & Hk & _ & _ & Hls & _)|(j & net & m & -> & Hm & Hk & _ & Hfree)]].
  - rewrite Hu by lia. apply Hf; lia.
  - specialize (Httl j m Hm Hk). cbn in Hnow. apply (Hls t); lia.
  - apply Hfree. lia.
Qed.

Lemma blocking_waits i l d delay : 0 < ttl_ms l -> forall rounds w b,
  locks w !! i = Some (set_acquired b l) -> freed_by (lock_key l) d w ->
  Forall (fun r => delay <= elapsed_all r /\ Forall (fun a => ~ acquires (lock_key l) (locks w) a) r) rounds ->
  d < now w + delay * Z.of_nat (length rounds) ->
  exists w', acquire_blocking i rounds w = (Some (Ok true), w') /\ holds i (now w' + ttl_ms l) w'.
Proof.
  intros Httl. induction rounds as [|r rounds IH]; intros w b Hl Hf Hrs Hd.
  - destruct (acquire_delivered i (set_acquired b l) w) as (got & w' & Hp & Hgot & Hh); [done..|].
    unfold acquire_blocking. rewrite Hp. rewrite Hgot in Hh |- * by (apply Hf; cbn in *; lia). by exists w'.
  - apply list.Forall_cons in Hrs as [[Hel Hr] Hrs]. cbn [length] in Hd.
    destruct (acquire_delivered i (set_acquired b l) w) as (got & w1 & Hp & _ & Hh); [done..|].
    cbn [acquire_blocking]. rewrite Hp. destruct got; [by exists w1|].
    pose proof Hp as (Hnow & Hobj & _)%perform_spec. cbn in Hnow.
    destruct (schedule r w1) as [tr w2] eqn:Hs. cbn [snd]. pose proof Hs as [Hnow2 Hobj2]%schedule_spec.
    assert (Hl2 : exists c, locks w2 !! i = Some (set_acquired c l)).
    { apply (same_objects_lookup _ _ _ _ (transitivity Hobj Hobj2)) in Hl as [c Hl]. by exists c. }
    destruct Hl2 as [c Hl2]. apply (IH w2 c Hl2).
    + eapply freed_schedule; [|eapply list.Forall_impl; [exact Hr|intros a Ha Ha'; apply Ha; by eapply acquires_kept]|done].
      intros t Htd Ht. cbn in Hh. rewrite Hh by lia. apply Hf; lia.
    + eapply list.Forall_impl; [exact Hrs|]. intros r' [? Hr']. split; [done|].
      eapply list.Forall_impl; [exact Hr'|]. intros a Ha Ha'. apply Ha. by eapply acquires_kept, acquires_kept.
    + lia.
Qed.
End Commands.

(** ** A server *)

(** Keys with a value and the last millisecond of their life. *)
Abbreviation RedisDb := (gmap string (string * Z)).
Definition db_get (now : Z) (k : string) (s : RedisDb) : option string :=
  '(v, d) ← s !! k; if now <=? d then Some v else None.

#[export] Instance RedisDb_ops : Redis RedisDb := {
  redis_get := db_get;
  redis_set_nx_px now k v px s :=
    if px <=? 0 then (Err (ResponseError "invalid expire time in 'set' command"), s)
    else match db_get now k s with
         | Some _ => (Ok false, s)
         | None => (Ok true, <[k := (v, now + px)]> s)
         end;
  redis_del now k s := (Ok (match db_get now k s with Some _ => 1 | None => 0 end), delete k s)
}.

Lemma db_get_ne now k k' x (s : RedisDb) : k' <> k -> db_get now k' (<[k := x]> s) = db_get now k' s.
Proof. intros Hne. unfold db_get. by rewrite lookup_insert_ne. Qed.

#[export] Instance RedisDb_laws : RedisLaws RedisDb.
Proof.
  split; cbn; unfold unseen, seen_at, same_keys, leased, free_from; cbn.
  - intros now t k s. unfold db_get. destruct (s !! k) as [[v d]|]; [|done]. cbn. repeat case_match; try done. lia.
  - intros now t k v s. unfold db_get. destruct (s !! k) as [[v' d]|]; [|done]. cbn.
    repeat case_match; intros [= <-] _; rewrite !elem_of_cons; auto.
  - intros now k v px s Hpx. rewrite (proj2 (Z.leb_le _ _)) by done. by eexists _, _.
  - intros now k v px u s Hpx Hg. rewrite (proj2 (Z.leb_gt _ _)) by done. rewrite Hg. by eexists.
  - intros now k v px s Hpx Hg. rewrite (proj2 (Z.leb_gt _ _)) by done. rewrite Hg. eexists. split_and!; [done| |].
    + intros t k' _ Hk. by apply db_get_ne.
    + intros t Ht. unfold db_get. rewrite lookup_insert_eq. cbn. split; intros ?; case_match; try done; lia.
  - intros now k s. eexists. split_and!; [done| |].
    + intros t k' _ Hk. unfold db_get. by rewrite lookup_delete_ne.
    + intros t _. unfold db_get. by rewrite lookup_delete_eq.
Qed.

(** ** Properties *)
Section Properties.
Context {S : Type} `{HL : RedisLaws S}.
Implicit Types w : LockWorld S.

(** C10: a lock acquired is exclusive until its time is over: whatever the other
    objects do and the network does to them, no other object with the same key
    acquires it, the key keeps the token, and a release succeeds and frees the
    key. *)
Theorem lease_excludes i l acts w w1 tr w2 :
  tokens_distinct (locks w) -> locks w !! i = Some l ->
  perform (TryAcquire i Delivered) w = (Some (Ok true), w1) ->
  Forall (fun a => ~ by_object i a) acts -> schedule acts w1 = (tr, w2) -> now w2 < now w + ttl_ms l ->
  (forall j m net, locks w !! j = Some m -> lock_key m = lock_key l -> (TryAcquire j net, Some (Ok true)) ∉ tr) /\
  redis_get (now w2) (lock_key l) (server w2) = Some (token l) /\
  exists w3, perform (Release i Delivered) w2 = (Some (Ok true), w3) /\ free_from (now w3) (lock_key l) (server w3).
Proof.
  intros Htok Hl Hp Hacts Hs Hnow.
  pose proof Hp as (Hn1 & Hobj & _ & Hkey)%perform_spec. cbn in Hn1. rewrite Z.add_0_r in Hn1.
  assert (Hh : holds i (now w + ttl_ms l) w1).
  { destruct (decide (0 < ttl_ms l)) as [Httl|Httl].
    - destruct (acquire_delivered i l w) as (b & w1' & Hp' & _ & Hh); [done..|].
      rewrite Hp in Hp'. injection Hp' as <- <-. by rewrite Hn1 in Hh.
    - apply schedule_spec in Hs as [Hn2 _]. pose proof (elapsed_all_pos acts). lia. }
  destruct (holds_schedule i (now w + ttl_ms l) acts w1 tr w2) as ((l2 & Hl2 & Hacq & Hls) & _ & Htr); try done.
  { by eapply tokens_kept. }
  destruct (same_objects_lookup _ _ _ _ Hobj Hl) as [b Hl1].
  assert (l2 = set_acquired true l) as ->.
  { apply schedule_spec in Hs as [_ Hobj2]. destruct (same_objects_lookup _ _ _ _ Hobj2 Hl1) as [c Hc].
    rewrite Hc in Hl2. injection Hl2 as <-. cbn in Hacq. by subst c. }
  split_and!.
  - intros j m net Hm Hk. destruct (same_objects_lookup _ _ _ _ Hobj Hm) as [c Hm1]. by eapply Htr.
  - apply (Hls (now w2)); lia.
  - destruct (release_held (now w2) (now w + ttl_ms l) (server w2) (set_acquired true l)) as (s' & Hr & Hf); [done..|].
    cbn. unfold on_lock. rewrite Hl2, Hr. eexists. split; [reflexivity|]. exact Hf.
Qed.

(** C20: a blocking acquisition ends: from a server without keys on, whatever was
    done before and however commands were lost, if no other object asks for the
    key while it waits and its sleeps add up to more than the longest lease, it
    returns true and holds the lock for its full time. *)
Theorem blocking_acquires w0 acts tr w i l M delay rounds :
  (forall k, free_from (now w0) k (server w0)) -> schedule acts w0 = (tr, w) ->
  locks w !! i = Some l -> 0 < ttl_ms l ->
  (forall j m, locks w0 !! j = Some m -> lock_key m = lock_key l -> ttl_ms m <= M) ->
  Forall (fun r => delay <= elapsed_all r /\ Forall (fun a => ~ acquires (lock_key l) (locks w0) a) r) rounds ->
  M < delay * Z.of_nat (length rounds) ->
  exists w', acquire_blocking i rounds w = (Some (Ok true), w') /\ holds i (now w' + ttl_ms l) w'.
Proof.
  intros Hfree Hs Hl Httl HM Hrs Hlen. pose proof Hs as [Hnow Hobj]%schedule_spec.
  pose proof Hl as (l0 & b & Hl0 & Hll)%(same_objects_back _ _ _ _ Hobj).
  assert (HM0 : ttl_ms l <= M) by (rewrite Hll; cbn; apply (HM i l0 Hl0); by rewrite Hll).
  destruct (blocking_waits i l (now w + M) delay Httl rounds w (acquired l)) as (w' & ? & ?); [by destruct l| | |lia|by exists w'].
  - eapply (leases_bounded (lock_key l) M acts); [lia| |done|done]. intros t _ Ht. by apply (Hfree (lock_key l)).
  - eapply list.Forall_impl; [exact Hrs|]. intros r [? Hr]. split; [done|].
    eapply list.Forall_impl; [exact Hr|]. intros a Ha Ha'. apply Ha. by eapply acquires_kept.
Qed.
End Properties.

(** ** Instances *)

Definition sample_lock (tok : string) (ttl : Z) : DistributedLock :=
  {| lock_key := "reconciler"; ttl_ms := ttl; token := tok; acquired := false |}.
Definition lock_world : LockWorld RedisDb :=
  {| server := ∅; now := 1000; locks := <[0%nat := sample_lock "a" 500]> {[1%nat := sample_lock "b" 300]} |}.

Lemma lock_world_tokens : tokens_distinct (locks lock_world).
Proof.
  intros i j l m. cbn [locks lock_world]. rewrite !lookup_insert_Some, !lookup_singleton_Some.
  intros [[<- <-]|[_ [<- <-]]] [[<- <-]|[_ [<- <-]]]; cbn; done.
Qed.

(** The other object tries twice, once with its reply lost, and is refused. *)
Definition rivals : list Action := [TryAcquire 1 Delivered; Elapse 200; TryAcquire 1 ReplyLost; Release 1 Delivered; Elapse 200].

Lemma lease_excludes_witness : exists w1 tr w2,
  perform (TryAcquire 0 Delivered) lock_world = (Some (Ok true), w1) /\ schedule rivals w1 = (tr, w2) /\
  redis_get (now w2) "reconciler" (server w2) = Some "a" /\
  exists w3, perform (Release 0 Delivered) w2 = (Some (Ok true), w3).
Proof.
  eexists _, _, _. split; [reflexivity|]. split; [reflexivity|].
  edestruct (lease_excludes 0 (sample_lock "a" 500) rivals lock_world) as (_ & Hg & w3 & Hr & _);
    [exact lock_world_tokens|reflexivity|reflexivity| |reflexivity|reflexivity|].
  - repeat constructor; cbn; lia.
  - split; [exact Hg|]. exists w3. exact Hr.
Defined.

(** Object 1 waits while the lease of object 0 runs out: its reply was lost. *)
Definition waits : list (list Action) := repeat [Elapse 100] 6.

Definition lost_reply : list Action := [TryAcquire 0 ReplyLost; Elapse 50].
Definition waiting_world : LockWorld RedisDb := (schedule lost_reply lock_world).2.

Lemma blocking_acquires_witness : redis_get (now waiting_world) "reconciler" (server waiting_world) = Some "a" /\
  exists w', acquire_blocking 1 waits waiting_world = (Some (Ok true), w') /\ holds 1 (now w' + 300) w'.
Proof.
  split; [reflexivity|].
  assert (Hs : schedule lost_reply lock_world = ((schedule lost_reply lock_world).1, waiting_world)) by reflexivity.
  apply (blocking_acquires lock_world lost_reply (schedule lost_reply lock_world).1 waiting_world 1 (sample_lock "b" 300) 500 100 waits);
    [| exact Hs|reflexivity|reflexivity| | |reflexivity].
  - intros k t Ht. cbn. unfold db_get. by rewrite lookup_empty.
  - intros j m. cbn [locks lock_world]. rewrite !lookup_insert_Some, !lookup_singleton_Some.
    intros [[<- <-]|[_ [<- <-]]] _; cbn; lia.
  - unfold waits. cbn [repeat]. repeat (apply list.Forall_cons; split; [split; [cbn; lia|]|]); repeat constructor; by intros ?.
Defined.

(** An object that acquires a second time while it holds the lock is refused and
    forgets that it holds it: its release does nothing, and the key stays. *)
Lemma reacquire_forgets : exists tr w,
  schedule [TryAcquire 0 Delivered; TryAcquire 0 Delivered; Release 0 Delivered] lock_world = (tr, w) /\
  tr.*2 = [Some (Ok true); Some (Ok false); Some (Ok false)] /\
  redis_get (now w) "reconciler" (server w) = Some "a".
Proof. eexists _, _. by split_and!. Qed.
