(* ===== verification/Compose.v ===== *)
(** Compose files: [compose.py] of apexquant-container-policy.

    [yaml.safe_load] is a parameter: a document is the value it returns.  A set
    of names is a dict without values, in no particular order. *)
From stdpp Require Import base strings list gmap pretty numbers.
From Stdlib Require Import Ascii.
From S2P Require Import Prelude PyStr Json PyPath Yaml.

#[local] Open Scope string_scope.

(** The exceptions of reading a document: pydantic's ValidationError is a
    ValueError. *)
Inductive compose_exc :=
| ComposeValueError (m : string)
| ComposeOtherError (m : string)
| ReadError (e : os_exc).
Definition is_value_error (e : compose_exc) : bool := match e with ComposeValueError _ => true | _ => false end.
Definition validation_error (field : string) : compose_exc :=
  ComposeValueError ("1 validation error for ComposeService: " ++ field).

Inductive HealthcheckTest := TestText (s : string) | TestList (l : list string).
Record ComposeHealthcheck := {
  test : option HealthcheckTest; interval : option string; timeout : option string; retries : option Z;
  start_period : option string
}.
Inductive ComposeBuild := BuildText (s : string) | BuildDict (d : pydict string yaml).
Record ComposeService := {
  name : string; image : option string; build : option ComposeBuild; user : option string; read_only : bool;
  privileged : bool; security_opt : list string; cap_drop : list string; healthcheck : option ComposeHealthcheck;
  environment : pydict string string; networks : gset string; labels : pydict string string;
  deploy : option (pydict string yaml)
}.
Record ComposeDocument := {
  services : pydict string ComposeService; doc_networks : gset string; doc_volumes : gset string
}.

(** ** Values *)

Definition optional_str (y : yaml) : option string := match y with YNone => None | _ => Some (yaml_str y) end.
Definition optional_int (y : yaml) : result compose_exc (option Z) :=
  match y with
  | YNone => Ok None
  | _ => map_err (fun e => if (e.1 : bool) then ComposeValueError e.2 else ComposeOtherError e.2)
           (z ← yaml_int y; Ok (Some z))
  end.

Definition parse_string_list (raw : yaml) : list string :=
  match raw with
  | YStr s => [s]
  | YList l => yaml_str <$> l
  | _ => []
  end.

(** [{f k: g v for k, v in l}] *)
Definition dict_build {A} (l : list A) (key value : A -> string) : pydict string string :=
  foldl (fun d x => dict_set (key x) (value x) d) [] l.
(** An item of a list of settings, [KEY=VALUE] or [KEY]. *)
Definition setting (item : yaml) : string * string :=
  match split_first "=" (yaml_str item) with
  | Some (k, v) => (strip k, strip v)
  | None => (strip (yaml_str item), "")
  end.
Definition parse_settings (value_str : yaml -> string) (raw : yaml) : pydict string string :=
  match raw with
  | YDict d => dict_build d (fun kv => yaml_str kv.1) (fun kv => value_str kv.2)
  | YList l => dict_build (setting <$> l) fst snd
  | _ => []
  end.

Definition environment_value (y : yaml) : string := match y with YNone => "" | _ => yaml_str y end.
Definition parse_environment (raw : yaml) : pydict string string := parse_settings environment_value raw.
Definition label_value (y : yaml) : string :=
  match y with YBool b => if b then "true" else "false" | YNone => "" | _ => yaml_str y end.
Definition parse_labels (raw : yaml) : pydict string string := parse_settings label_value raw.

Definition parse_networks (raw : yaml) : gset string :=
  match raw with
  | YStr s => {[s]}
  | YList l => list_to_set (yaml_str <$> l)
  | YDict d => list_to_set ((fun kv => yaml_str kv.1) <$> d)
  | _ => ∅
  end.

(** ** Services *)

(** What pydantic makes of [test: str | list[str] | None]. *)
Definition parse_test (y : yaml) : result compose_exc (option HealthcheckTest) :=
  let of_option o := match o with Some t => Ok (Some t) | None => Err (validation_error "test") end in
  match y with
  | YNone => Ok None
  | YList l => of_option (TestList <$> texts_of l)
  | YOther o => of_option (match obj_text o with Some s => Some (TestText s) | None => TestList <$> obj_texts o end)
  | _ => of_option (TestText <$> text_of y)
  end.

Definition parse_healthcheck (raw : yaml) : result compose_exc (option ComposeHealthcheck) :=
  match raw with
  | YDict d =>
      n ← optional_int (yaml_get "retries" d);
      t ← parse_test (yaml_get "test" d);
      Ok (Some {| test := t; interval := optional_str (yaml_get "interval" d);
                  timeout := optional_str (yaml_get "timeout" d); retries := n;
                  start_period := optional_str (yaml_get "start_period" d) |})
  | _ => Ok None
  end.

Definition parse_build (raw : yaml) : result compose_exc (option ComposeBuild) :=
  match raw with
  | YStr s => Ok (Some (BuildText s))
  | YDict d => match text_dict d with Some d' => Ok (Some (BuildDict d')) | None => Err (validation_error "build") end
  | _ => Ok None
  end.
Definition parse_deploy (raw : yaml) : result compose_exc (option (pydict string yaml)) :=
  match raw with
  | YDict d => match text_dict d with Some d' => Ok (Some d') | None => Err (validation_error "deploy") end
  | _ => Ok None
  end.

Definition parse_service (n : string) (raw : list (yaml * yaml)) : result compose_exc ComposeService :=
  hc ← parse_healthcheck (yaml_get "healthcheck" raw);
  b ← parse_build (yaml_get "build" raw);
  dep ← parse_deploy (yaml_get "deploy" raw);
  Ok {| name := n; image := optional_str (yaml_get "image" raw); build := b;
        user := optional_str (yaml_get "user" raw);
        read_only := yaml_true (yaml_get "read_only" raw); privileged := yaml_true (yaml_get "privileged" raw);
        security_opt := parse_string_list (yaml_get "security_opt" raw);
        cap_drop := parse_string_list (yaml_get "cap_drop" raw); healthcheck := hc;
        environment := parse_environment (yaml_get "environment" raw);
        networks := parse_networks (yaml_get "networks" raw); labels := parse_labels (yaml_get "labels" raw);
        deploy := dep |}.

(** [raw if isinstance(raw, dict) else {}] *)
Definition dict_or_empty (y : yaml) : list (yaml * yaml) := match y with YDict d => d | _ => [] end.
Definition key_names (y : yaml) : gset string := list_to_set ((fun kv => yaml_str kv.1) <$> dict_or_empty y).

Fixpoint parse_services (l : list (yaml * yaml)) (acc : pydict string ComposeService)
    : result compose_exc (pydict string ComposeService) :=
  match l with
  | [] => Ok acc
  | (k, raw) :: l' =>
      s ← parse_service (yaml_str k) (dict_or_empty raw);
      parse_services l' (dict_set (yaml_str k) s acc)
  end.

Definition parse_document (raw : yaml) : result compose_exc ComposeDocument :=
  match raw with
  | YDict d =>
      match yaml_get "services" d with
      | YDict l =>
          ss ← parse_services l [];
          Ok {| services := ss; doc_networks := key_names (yaml_get "networks" d);
                doc_volumes := key_names (yaml_get "volumes" d) |}
      | _ => Err (ComposeValueError "compose file must define a services mapping")
      end
  | _ => Err (ComposeValueError "compose file must contain a YAML mapping")
  end.

Section Load.
(** [yaml.safe_load] of the text of a file, decoded as UTF-8 *)
Context (safe_load : string -> result compose_exc yaml).

Definition load_compose (path : Path) (fs : FileSystem) : result compose_exc ComposeDocument :=
  raw_text ← map_err ReadError (read_bytes path fs);
  raw ← safe_load raw_text;
  parse_document raw.
End Load.
