(* ===== verification/PolicyReport.v ===== *)
(** What the two verifiers (apexquant-container-policy and
    apexquant-repo-architecture) share: the severity of a violation, the verdict
    of a report and the tables a report is stored in.  A violation has a
    subject: the service, or the path, it is about. *)
From stdpp Require Import base strings list numbers.
From S2P Require Import Prelude PyStr.

#[local] Open Scope string_scope.

Inductive Severity := ERROR | WARNING.
#[export] Instance severity_eq_dec : EqDecision Severity.
Proof. solve_decision. Defined.
Definition severity_value (s : Severity) : string := match s with ERROR => "ERROR" | WARNING => "WARNING" end.

Record Violation := { subject : string; code : string; severity : Severity; message : string }.
#[export] Instance violation_eq_dec : EqDecision Violation.
Proof. solve_decision. Defined.

Definition count_severity (x : Severity) (l : list Violation) : nat :=
  length (filter (fun v => severity v = x) l).
Definition verdict (strict_warnings : bool) (l : list Violation) : bool :=
  (count_severity ERROR l =? 0)%nat && (negb strict_warnings || (count_severity WARNING l =? 0)%nat).

(** [[v] if c else []] *)
Definition report_if (c : bool) (v : Violation) : list Violation := if c then [v] else [].

(** [verification_runs] and [verification_violations], with the constraints of
    0001_container_policy.sql and 0001_repository_architecture.sql.  [I] is what
    a report holds besides: the path and the names it checked. *)
Record RunRow (I : Type) := {
  run_id : nat; run_info : I; run_started : Z; run_completed : Z; run_ok : bool; run_errors : nat; run_warnings : nat;
  run_violations : list Violation
}.
Arguments run_id {I}. Arguments run_info {I}. Arguments run_started {I}. Arguments run_completed {I}.
Arguments run_ok {I}. Arguments run_errors {I}. Arguments run_warnings {I}. Arguments run_violations {I}.
Arguments Build_RunRow {I}.
Record PolicyDb (I : Type) := {
  verification_runs : list (RunRow I);
  verification_violations : list (nat * Violation)
}.
Arguments verification_runs {I}. Arguments verification_violations {I}. Arguments Build_PolicyDb {I}.

Section Persist.
Context {I : Type}.
Notation DBM := (st (PolicyDb I) string).

Definition insert_run (r : RunRow I) : DBM unit := fun d =>
  if existsb (fun r' => run_id r' =? run_id r)%nat (verification_runs d) then (Err "verification_runs_pkey", d)
  else if negb (int4 (Z.of_nat (run_errors r)) && int4 (Z.of_nat (run_warnings r))) then (Err "integer out of range", d)
  else if negb (run_started r <=? run_completed r)%Z then (Err "verification_runs_started_before_completed", d)
  else (Ok tt, {| verification_runs := (verification_runs d ++ [r])%list;
                  verification_violations := verification_violations d |}).

Definition violation_checks (v : Violation) : bool :=
  not_blank (subject v) && not_blank (code v) && not_blank (message v).
Definition insert_violation (id : nat) (v : Violation) : DBM unit := fun d =>
  if negb (violation_checks v) then (Err "verification_violations_not_empty", d)
  else (Ok tt, {| verification_runs := verification_runs d;
                  verification_violations := (verification_violations d ++ [(id, v)])%list |}).

(** The statements of a report, on one connection. *)
Definition persist_rows (r : RunRow I) : DBM unit :=
  insert_run r ≫= fun _ => for_each (insert_violation (run_id r)) (run_violations r).

(** How a command ends: with an exit code, or with an exception while it reads or
    while it stores the report. *)
Inductive Exit (E : Type) := Code (n : Z) | ReadFailed (e : E) | DatabaseError (m : string).
#[global] Arguments Code {E}. #[global] Arguments ReadFailed {E}. #[global] Arguments DatabaseError {E}.

(** The end of both commands, the report printed: what was printed, the exit and
    the tables left. *)
Definition finish {E} (has_database passed : bool) (out : list string) (r : RunRow I) (d : PolicyDb I)
    : list string * Exit E * PolicyDb I :=
  let code := Code (if passed then 0 else 1)%Z in
  if has_database then
    match transaction (persist_rows r) d with
    | (Ok _, d') => (out, code, d')
    | (Err m, d') => (out, DatabaseError m, d')
    end
  else (out, code, d).

Lemma insert_violations_spec id l : forall d, Forall (fun v => violation_checks v = true) l ->
  for_each (insert_violation id) l d =
    (Ok tt, {| verification_runs := verification_runs d;
               verification_violations := (verification_violations d ++ (pair id <$> l))%list |}).
Proof.
  induction l as [|v l IH]; intros d Hl; [by destruct d; rewrite app_nil_r|].
  apply list.Forall_cons in Hl as [Hv Hl]. cbn [for_each]. unfold mbind, st_bind, insert_violation at 1. rewrite Hv. cbn [negb].
  rewrite IH by done. cbn. by rewrite <- (assoc_L (++)%list).
Qed.

(** A report is stored as a whole, or not at all. *)
Lemma report_stored_whole r d res d' : transaction (persist_rows r) d = (res, d') ->
  (is_ok res = true /\ d' = {| verification_runs := (verification_runs d ++ [r])%list;
     verification_violations := (verification_violations d ++ (pair (run_id r) <$> run_violations r))%list |} /\
     Forall (fun v => violation_checks v = true) (run_violations r) /\ (run_started r <= run_completed r)%Z) \/
  (is_ok res = false /\ d' = d).
Proof.
  unfold transaction, persist_rows, mbind, st_bind, insert_run.
  destruct (existsb _ _); [intros [= <- <-]; by right|].
  destruct (int4 _ && int4 _); [|intros [= <- <-]; by right].
  cbn [negb]. destruct (Z.leb_spec (run_started r) (run_completed r)); [|intros [= <- <-]; by right]. cbn [negb].
  destruct (decide (Forall (fun v => violation_checks v = true) (run_violations r))) as [Hl|Hl].
  - rewrite insert_violations_spec by done. cbn. intros [= <- <-]. left. by split_and!.
  - destruct (for_each _ _ _) as [[[]|e] d1] eqn:Hf; [|intros [= <- <-]; by right]. exfalso. apply Hl. clear -Hf.
    revert Hf. generalize {| verification_runs := (verification_runs d ++ [r])%list;
                             verification_violations := verification_violations d |}.
    induction (run_violations r) as [|v l IH]; [constructor|]. intros d0. cbn [for_each]. intros Hf.
    st_inv Hf as u d2 Hv. constructor; [|by eapply IH].
    unfold insert_violation in Hv. by destruct (violation_checks v).
Qed.

Lemma command_ends {E} has_database passed lines r d out (exit : Exit E) d' :
  finish has_database passed lines r d = (out, exit, d') ->
  (exit = Code (if passed then 0 else 1)%Z /\
   d' = if has_database
        then {| verification_runs := (verification_runs d ++ [r])%list;
                verification_violations := (verification_violations d ++ (pair (run_id r) <$> run_violations r))%list |}
        else d) \/
  ((forall n, exit <> Code n) /\ d' = d).
Proof.
  unfold finish. destruct has_database; [|intros [= <- <- <-]; by left].
  destruct (transaction (persist_rows r) d) as [res d1] eqn:Ht. apply report_stored_whole in Ht.
  destruct res as [[]|m]; intros [= <- <- <-].
  - left. by destruct Ht as [(_ & -> & _)|[[=] _]].
  - right. by destruct Ht as [([=] & _)|[_ ->]].
Qed.
End Persist.

(** ** Verdicts *)

Lemma report_if_nil c v : report_if c v = [] <-> c = false.
Proof. by destruct c. Qed.

Lemma bind_nil {A B} (f : A -> list B) l : l ≫= f = [] <-> forall x, x ∈ l -> f x = [].
Proof.
  induction l as [|x l IH]; [split; [by intros _ x ?%elem_of_nil|done]|].
  rewrite bind_cons, app_nil, IH. split.
  - intros [Hx Hl] y [->|Hy]%elem_of_cons; auto.
  - intros H. split; [apply H; left|intros; apply H; by right].
Qed.

Lemma count_all x l : Forall (fun v => severity v = x) l ->
  forall y, count_severity y l = if decide (y = x) then length l else 0%nat.
Proof.
  intros Hl y. unfold count_severity. case_decide as Hy.
  - subst y. by rewrite filter_all.
  - rewrite filter_none; [done|]. eapply list.Forall_impl; [exact Hl|]. intros v Hv. cbn. congruence.
Qed.

Section Split.
Context (es ws : list Violation) (Hes : Forall (fun v => severity v = ERROR) es)
  (Hws : Forall (fun v => severity v = WARNING) ws).

Lemma count_split : count_severity ERROR (es ++ ws) = length es /\ count_severity WARNING (es ++ ws) = length ws.
Proof using Hes Hws.
  unfold count_severity. rewrite !list.filter_app, !length_app.
  fold (count_severity ERROR es) (count_severity ERROR ws) (count_severity WARNING es) (count_severity WARNING ws).
  rewrite !(count_all ERROR es Hes), !(count_all WARNING ws Hws). split; [apply Nat.add_0_r|done].
Qed.

(** Errors must not be; warnings must not be when they are taken strictly. *)
Lemma verdict_split strict : verdict strict (es ++ ws) = true <-> es = [] /\ (strict = true -> ws = []).
Proof using Hes Hws.
  destruct count_split as [He Hw].
  unfold verdict. rewrite He, Hw, andb_true_iff, orb_true_iff, !Nat.eqb_eq, negb_true_iff, !length_zero_iff_nil.
  split; [intros [-> Hor]|intros [-> Hs]]; (split; [done|]).
  - intros Hst. destruct Hor; congruence.
  - destruct strict; [right; by apply Hs|by left].
Qed.
End Split.
