(* ===== verification/ContainerPolicy.v ===== *)
(** Container policy: [policy.py], [persistence.py] and the command of
    apexquant-container-policy.

    Violations are appended to one list; the definition of a check is the list
    it appends. *)
From stdpp Require Import base strings list gmap sorting pretty numbers.
From Stdlib Require Import Ascii.
From S2P Require Import Prelude PyStr Json PyPath Yaml Compose PolicyReport.

#[local] Open Scope string_scope.

Definition MANAGED_LABEL : string := "apexquant.managed".
Definition READ_ONLY_EXEMPT_LABEL : string := "apexquant.container.read_only_exempt".
Definition HEALTHCHECK_EXEMPT_LABEL : string := "apexquant.container.healthcheck_exempt".
Definition REQUIRED_LABELS : list string :=
  ["apexquant.service.name"; "apexquant.service.plane"; "apexquant.environment"; "apexquant.feature";
   "apexquant.version"; "apexquant.fail_closed_policy"].
Definition SECRET_KEY_MARKERS : list string :=
  ["password"; "secret"; "token"; "api_key"; "apikey"; "private_key"; "credential"].
Definition ROOT_USERS : list string := ["root"; "0"; "0:0"; "uid=0"; "uid=0 gid=0"].

(** ** Checks *)
Section Checks.
Context (service : ComposeService).

Definition error (c m : string) : Violation := {| subject := name service; code := c; severity := ERROR; message := m |}.
Definition label (l : string) : option string := dict_get l (labels service).
(** [service.labels.get(l) == "true"] *)
Definition has_label (l : string) : bool := bool_decide (label l = Some "true").

Definition verify_label (l : string) : list Violation :=
  match label l with
  | None => [error "MISSING_LABEL" ("required label is missing: " ++ l)]
  | Some v => report_if (str_empty (strip v)) (error "EMPTY_LABEL" ("required label is empty: " ++ l))
  end.
Definition verify_labels : list Violation := REQUIRED_LABELS ≫= verify_label.

Definition verify_image : list Violation :=
  match image service with
  | None | Some "" => [error "MISSING_IMAGE" "managed services must declare an explicit image"]
  | Some i =>
      if str_contains "@sha256:" i then []
      else match split_first ":" i with
           | None => [error "MISSING_IMAGE_TAG" "image must include an explicit version tag"]
           | Some (_, tag) =>
               if str_empty (strip tag) then [error "EMPTY_IMAGE_TAG" "image tag must not be empty"]
               else report_if (tag =? "latest") (error "LATEST_IMAGE_TAG_FORBIDDEN" "latest image tag is forbidden")
           end
  end.

Definition verify_user : list Violation :=
  match user service with
  | None | Some "" => [error "MISSING_USER" "managed services must run as an explicit non-root user"]
  | Some u => report_if (bool_decide (str_lower (strip u) ∈ ROOT_USERS))
                (error "ROOT_USER_FORBIDDEN" "managed services must not run as root")
  end.

Definition verify_privilege : list Violation :=
  (report_if (privileged service) (error "PRIVILEGED_FORBIDDEN" "privileged containers are forbidden")
   ++ report_if (negb (bool_decide ("no-new-privileges:true" ∈ security_opt service)))
        (error "NO_NEW_PRIVILEGES_MISSING" "security_opt must include no-new-privileges:true"))%list.

Definition verify_capabilities : list Violation :=
  (report_if (negb (existsb (fun cap => str_upper cap =? "ALL") (cap_drop service)))
     (error "CAP_DROP_ALL_MISSING" "cap_drop must include ALL")
   ++ report_if (negb (read_only service) && negb (has_label READ_ONLY_EXEMPT_LABEL))
        (error "READ_ONLY_REQUIRED" "managed services must use a read-only root filesystem"))%list.

(** [not test] *)
Definition test_empty (t : option HealthcheckTest) : bool :=
  match t with None | Some (TestText "") | Some (TestList []) => true | _ => false end.
Definition verify_healthcheck : list Violation :=
  if has_label HEALTHCHECK_EXEMPT_LABEL then []
  else match healthcheck service with
       | None => [error "HEALTHCHECK_MISSING" "managed services must define a healthcheck"]
       | Some h => report_if (test_empty (test h)) (error "INVALID_HEALTHCHECK" "healthcheck test must not be empty")
       end.

Definition verify_networks : list Violation :=
  if bool_decide (networks service = ∅)
  then [error "NETWORKS_MISSING" "managed services must attach to explicit networks"]
  else report_if (bool_decide ("default" ∈ networks service))
         (error "DEFAULT_NETWORK_FORBIDDEN" "managed services must not use the default network").

(** [y is None] *)
Definition is_none (y : yaml) : bool := match y with YNone => true | _ => false end.
Definition verify_resource_limits : list Violation :=
  let missing m := [error "RESOURCE_LIMITS_MISSING" m] in
  match deploy service with
  | None => missing "managed services must define deploy resource limits"
  | Some d =>
      match dict_get "resources" d with
      | Some (YDict resources) =>
          match yaml_get "limits" resources with
          | YDict limits =>
              (report_if (is_none (yaml_get "memory" limits)) (error "MEMORY_LIMIT_MISSING" "memory limit must be defined")
               ++ report_if (is_none (yaml_get "cpus" limits)) (error "CPU_LIMIT_MISSING" "CPU limit must be defined"))%list
          | _ => missing "deploy.resources.limits must be defined"
          end
      | _ => missing "deploy.resources must be defined"
      end
  end.

Definition is_secret_name (key : string) : bool := existsb (fun m => str_contains m (str_lower key)) SECRET_KEY_MARKERS.
Definition is_reference (value : string) : bool := starts_with "${" value && ends_with "}" value.
Definition verify_environment_secret (kv : string * string) : list Violation :=
  if negb (is_secret_name kv.1) then []
  else if str_empty kv.2 then []
  else if is_reference kv.2 then []
  else [error "LITERAL_SECRET_IN_ENVIRONMENT"
          ("environment variable " ++ kv.1 ++ " appears to contain a literal secret")].
Definition verify_environment_secrets : list Violation := environment service ≫= verify_environment_secret.

Definition verify_service : list Violation :=
  (verify_labels ++ verify_image ++ verify_user ++ verify_privilege ++ verify_capabilities ++ verify_healthcheck
   ++ verify_networks ++ verify_resource_limits ++ verify_environment_secrets)%list.
Definition is_managed : bool := has_label MANAGED_LABEL.
End Checks.

(** ** Documents *)

Record VerificationReport := {
  compose_path : string; started_at : Z; completed_at : Z; ok : bool; errors_count : nat; warnings_count : nat;
  services_checked : list string; violations : list Violation
}.

(** The loop over the sorted names: the services checked and the violations. *)
Fixpoint verify_services (document : ComposeDocument) (names : list string) : list string * list Violation :=
  match names with
  | [] => ([], [])
  | n :: names' =>
      let '(checked, vs) := verify_services document names' in
      match dict_get n (services document) with
      | Some s => if is_managed s then (n :: checked, (verify_service s ++ vs)%list) else (checked, vs)
      | None => (checked, vs)
      end
  end.

Definition verify_document (document : ComposeDocument) (strict_warnings : bool) (start stop : Z) : VerificationReport :=
  let '(checked, vs) := verify_services document (py_sorted str_lt (dict_keys (services document))) in
  {| compose_path := ""; started_at := start; completed_at := stop; ok := verdict strict_warnings vs;
     errors_count := count_severity ERROR vs; warnings_count := count_severity WARNING vs;
     services_checked := checked; violations := vs |}.

(** ** persistence.py *)

Definition with_path (p : string) (r : VerificationReport) : VerificationReport :=
  {| compose_path := p; started_at := started_at r; completed_at := completed_at r; ok := ok r;
     errors_count := errors_count r; warnings_count := warnings_count r;
     services_checked := services_checked r; violations := violations r |}.
Definition report_row (run : nat) (r : VerificationReport) : RunRow (string * list string) :=
  {| run_id := run; run_info := (compose_path r, services_checked r); run_started := started_at r;
     run_completed := completed_at r; run_ok := ok r; run_errors := errors_count r; run_warnings := warnings_count r;
     run_violations := violations r |}.

(** ** cli.py *)

Record Args := { compose : Path; has_database : bool; strict : bool; output_json : bool }.

Section Main.
Context (safe_load : string -> result compose_exc yaml) (dump_json : VerificationReport -> string)
  (compose_text : compose_exc -> string).

Definition violation_line (v : Violation) : string :=
  severity_value (severity v) ++ " " ++ subject v ++ " " ++ code v ++ ": " ++ message v.
Definition report_lines (json : bool) (r : VerificationReport) : list string :=
  if json then [dump_json r]
  else ("container policy verification " ++ (if ok r then "PASSED" else "FAILED"))
    :: ("errors=" ++ pretty (Z.of_nat (errors_count r)) ++ " warnings=" ++ pretty (Z.of_nat (warnings_count r)))
    :: (violation_line <$> violations r).

(** What the command prints, how it ends, and the tables it leaves; [compose] is
    the resolved path, [run] the identifier drawn, [start] and [stop] the clock. *)
Definition main (args : Args) (fs : FileSystem) (run : nat) (start stop : Z) (db : PolicyDb (string * list string))
    : list string * Exit compose_exc * PolicyDb (string * list string) :=
  if negb (path_exists (compose args) fs)
  then (["compose file does not exist: " ++ path_str (compose args)], Code 2, db)
  else match load_compose safe_load (compose args) fs with
       | Err e =>
           if is_value_error e then (["invalid compose file: " ++ compose_text e], Code 2, db) else ([], ReadFailed e, db)
       | Ok document =>
           let report := with_path (path_str (compose args)) (verify_document document (strict args) start stop) in
           finish (has_database args) (ok report) (report_lines (output_json args) report) (report_row run report) db
       end.
End Main.
