(* ===== verification/ContainerProps.v ===== *)
(** What a container policy report says of the services of a compose file. *)
From stdpp Require Import base strings list gmap sorting pretty numbers.
From Stdlib Require Import Ascii.
From S2P Require Import Prelude PyStr Json PyPath Yaml Compose PolicyReport ContainerPolicy.

#[local] Open Scope string_scope.

(** ** What the policy asks of a service *)
Section Hardened.
Implicit Types s : ComposeService.

Definition fully_labelled s : Prop :=
  forall l, l ∈ REQUIRED_LABELS -> exists v, label s l = Some v /\ strip v <> "".
(** An image by digest, or with a tag: what follows the first colon. *)
Definition pinned s : Prop :=
  exists i, image s = Some i /\ i <> "" /\
    (infix "@sha256:" i \/
     exists repo tag, i = repo ++ ":" ++ tag /\ no_char ":" repo /\ strip tag <> "" /\ tag <> "latest").
Definition named_user s : Prop :=
  exists u, user s = Some u /\ u <> "" /\ str_lower (strip u) ∉ ROOT_USERS.
Definition unprivileged s : Prop := privileged s = false /\ "no-new-privileges:true" ∈ security_opt s.
Definition confined s : Prop :=
  (exists cap, cap ∈ cap_drop s /\ str_upper cap = "ALL") /\
  (read_only s = true \/ label s READ_ONLY_EXEMPT_LABEL = Some "true").
Definition health_checked s : Prop :=
  label s HEALTHCHECK_EXEMPT_LABEL = Some "true" \/
  exists h, healthcheck s = Some h /\ exists t, test h = Some t /\ t <> TestText "" /\ t <> TestList [].
Definition on_networks s : Prop := networks s <> ∅ /\ "default" ∉ networks s.
Definition limited s : Prop :=
  exists d resources limits, deploy s = Some d /\ dict_get "resources" d = Some (YDict resources) /\
    yaml_get "limits" resources = YDict limits /\
    yaml_get "memory" limits <> YNone /\ yaml_get "cpus" limits <> YNone.
(** A variable with the name of a secret is empty or refers to another one. *)
Definition no_literal_secrets s : Prop :=
  forall k v, (k, v) ∈ environment s -> (exists m, m ∈ SECRET_KEY_MARKERS /\ infix m (str_lower k)) ->
    v = "" \/ exists x, v = "${" ++ x ++ "}".

Definition hardened s : Prop :=
  fully_labelled s /\ pinned s /\ named_user s /\ unprivileged s /\ confined s /\ health_checked s /\
  on_networks s /\ limited s /\ no_literal_secrets s.
End Hardened.

(** ** The checks decide it *)
Section Checks.
Implicit Types s : ComposeService.

Lemma str_empty_true t : str_empty t = true <-> t = "".
Proof. by destruct t. Qed.
Lemma str_empty_false t : str_empty t = false <-> t <> "".
Proof. by destruct t. Qed.

Lemma has_label_true s l : has_label s l = true <-> label s l = Some "true".
Proof. apply bool_decide_eq_true. Qed.

Lemma labels_ok s : verify_labels s = [] <-> fully_labelled s.
Proof.
  unfold verify_labels. rewrite bind_nil. unfold fully_labelled, verify_label.
  split; intros H l Hl; specialize (H l Hl).
  - destruct (label s l) as [v|]; [|done]. apply report_if_nil, str_empty_false in H. by exists v.
  - destruct H as (v & -> & Hv). by apply report_if_nil, str_empty_false.
Qed.

Lemma image_ok s : verify_image s = [] <-> pinned s.
Proof.
  unfold verify_image, pinned. destruct (image s) as [i|]; [|split; [done|by intros (i & [=] & _)]].
  destruct (decide (i = "")) as [->|Hi]; [split; [done|by intros (i & [= <-] & ? & _)]|].
  transitivity ((if str_contains "@sha256:" i then [] else
     match split_first ":" i with
     | None => [error s "MISSING_IMAGE_TAG" "image must include an explicit version tag"]
     | Some (_, tag) => if str_empty (strip tag) then [error s "EMPTY_IMAGE_TAG" "image tag must not be empty"]
         else report_if (tag =? "latest") (error s "LATEST_IMAGE_TAG_FORBIDDEN" "latest image tag is forbidden")
     end) = []); [by destruct i|].
  destruct (str_contains "@sha256:" i) eqn:Hd.
  { apply str_contains_iff in Hd. split; [|done]. intros _. exists i. auto. }
  assert (Hn : ~ infix "@sha256:" i) by (rewrite <- str_contains_iff; congruence).
  destruct (split_first ":" i) as [[repo tag]|] eqn:Hs.
  - apply split_first_Some in Hs as [-> Hr]. destruct (str_empty (strip tag)) eqn:Ht.
    + apply str_empty_true in Ht. split; [done|]. intros (i & [= <-] & _ & [?|(r & t & He & Hr' & Ht' & _)]); [done|].
      exfalso. apply Ht'. assert (Heq : split_first ":" (r ++ ":" ++ t) = Some (r, t)) by by apply split_first_Some.
      rewrite <- He in Heq. assert (split_first ":" (repo ++ String ":" tag) = Some (repo, tag)) by by apply split_first_Some.
      congruence.
    + apply str_empty_false in Ht. rewrite report_if_nil, String.eqb_neq. split.
      * intros Hl. eexists. split; [done|]. split; [done|]. right. by exists repo, tag.
      * intros (i & [= <-] & _ & [?|(r & t & He & Hr' & _ & Hl)]); [done|].
        assert (Heq : split_first ":" (r ++ ":" ++ t) = Some (r, t)) by by apply split_first_Some.
        rewrite <- He in Heq. assert (split_first ":" (repo ++ String ":" tag) = Some (repo, tag)) by by apply split_first_Some.
        congruence.
  - apply split_first_None in Hs. split; [done|]. intros (i' & [= <-] & _ & [?|(r & t & -> & Hr & _)]); [done|].
    apply no_char_app in Hs as [_ Hs]. by apply no_char_cons in Hs as [? _].
Qed.

Lemma user_ok s : verify_user s = [] <-> named_user s.
Proof.
  unfold verify_user, named_user. destruct (user s) as [u|]; [|split; [done|by intros (u & [=] & _)]].
  destruct (decide (u = "")) as [->|Hu]; [split; [done|by intros (u & [= <-] & ? & _)]|].
  transitivity (report_if (bool_decide (str_lower (strip u) ∈ ROOT_USERS))
    (error s "ROOT_USER_FORBIDDEN" "managed services must not run as root") = []); [by destruct u|].
  rewrite report_if_nil, bool_decide_eq_false. split; [intros; by exists u|by intros (u' & [= <-] & _ & ?)].
Qed.

Lemma privilege_ok s : verify_privilege s = [] <-> unprivileged s.
Proof.
  unfold verify_privilege, unprivileged. by rewrite app_nil, !report_if_nil, negb_false_iff, bool_decide_eq_true.
Qed.

Lemma capabilities_ok s : verify_capabilities s = [] <-> confined s.
Proof.
  unfold verify_capabilities, confined. rewrite app_nil, !report_if_nil, negb_false_iff, existsb_elem.
  rewrite <- negb_orb, negb_false_iff, orb_true_iff, has_label_true. by setoid_rewrite String.eqb_eq.
Qed.

Lemma test_empty_false t : test_empty t = false <-> exists x, t = Some x /\ x <> TestText "" /\ x <> TestList [].
Proof.
  split.
  - destruct t as [[[|]|[|]]|]; try done; intros _; by eexists.
  - intros (x & -> & H1 & H2). by destruct x as [[|]|[|]].
Qed.

Lemma healthcheck_ok s : verify_healthcheck s = [] <-> health_checked s.
Proof.
  unfold verify_healthcheck, health_checked. rewrite <- has_label_true. destruct (has_label _ _); [tauto|].
  destruct (healthcheck s) as [h|]; [|split; [done|by intros [?|(h & [=] & _)]]].
  rewrite report_if_nil, test_empty_false. split; [intros; right; by exists h|by intros [?|(h' & [= <-] & ?)]].
Qed.

Lemma networks_ok s : verify_networks s = [] <-> on_networks s.
Proof.
  unfold verify_networks, on_networks. case_bool_decide as Hn; [split; [done|by intros [? _]]|].
  rewrite report_if_nil, bool_decide_eq_false. tauto.
Qed.

Lemma is_none_false y : is_none y = false <-> y <> YNone.
Proof. by destruct y. Qed.

Lemma limits_ok s : verify_resource_limits s = [] <-> limited s.
Proof.
  unfold verify_resource_limits, limited. split.
  - destruct (deploy s) as [d|]; [|done]. destruct (dict_get "resources" d) as [[]|] eqn:Hr; try done.
    destruct (yaml_get "limits" _) as [| | | | | |limits] eqn:Hl; try done.
    rewrite app_nil, !report_if_nil, !is_none_false. intros [? ?]. by eexists _, _, _.
  - intros (d & r & l & -> & -> & -> & Hm & Hc). by rewrite app_nil, !report_if_nil, !is_none_false.
Qed.

Lemma reference_iff v : is_reference v = true <-> exists x, v = "${" ++ x ++ "}".
Proof.
  unfold is_reference. rewrite andb_true_iff. split.
  - intros [[b ->]%prefix_inv [a Ha]%ends_with_inv]. destruct a as [|a1 [|a2 a]]; [done|by destruct b|].
    injection Ha as <- <- ->. by exists a.
  - intros [x ->]. split; [apply prefix_app|]. rewrite <- str_app_assoc. apply ends_with_app.
Qed.

Lemma secret_name_iff k : is_secret_name k = true <-> exists m, m ∈ SECRET_KEY_MARKERS /\ infix m (str_lower k).
Proof. unfold is_secret_name. rewrite existsb_elem. by setoid_rewrite str_contains_iff. Qed.

Lemma secrets_ok s : verify_environment_secrets s = [] <-> no_literal_secrets s.
Proof.
  unfold verify_environment_secrets, no_literal_secrets. rewrite bind_nil. unfold verify_environment_secret.
  setoid_rewrite <- secret_name_iff. setoid_rewrite <- reference_iff. split.
  - intros H k v Hkv Hs. specialize (H _ Hkv). cbn [fst snd] in H. rewrite Hs in H. cbn [negb] in H.
    destruct (str_empty v) eqn:Hv; [left; by apply str_empty_true|]. right. by destruct (is_reference v).
  - intros H [k v] Hkv. cbn [fst snd]. destruct (is_secret_name k) eqn:Hs; [|done]. cbn [negb].
    destruct (H k v Hkv Hs) as [->|Hr]; [done|]. rewrite Hr. by destruct (str_empty v).
Qed.

Lemma service_ok s : verify_service s = [] <-> hardened s.
Proof.
  unfold verify_service, hardened. rewrite !app_nil.
  rewrite labels_ok, image_ok, user_ok, privilege_ok, capabilities_ok, healthcheck_ok, networks_ok, limits_ok, secrets_ok.
  tauto.
Qed.
End Checks.

(** ** Documents *)
Section Documents.
Implicit Types (s : ComposeService) (document : ComposeDocument).

(** A violation of the service [s]; the policy has errors only. *)
Definition about s (v : Violation) : Prop := subject v = name s /\ severity v = ERROR.

Lemma about_error s c m : about s (error s c m).
Proof. done. Qed.
Lemma about_bind {A} s (f : A -> list Violation) l : (forall x, Forall (about s) (f x)) -> Forall (about s) (l ≫= f).
Proof. intros Hf. induction l; [constructor|]. rewrite bind_cons. apply Forall_app. split; [apply Hf|done]. Qed.
Lemma about_if s c v : about s v -> Forall (about s) (report_if c v).
Proof. intros Hv. destruct c; [by apply list.Forall_singleton|by apply list.Forall_nil]. Qed.

Lemma service_about s : Forall (about s) (verify_service s).
Proof.
  unfold verify_service, verify_labels, verify_environment_secrets, verify_label, verify_environment_secret,
    verify_image, verify_user, verify_privilege, verify_capabilities, verify_healthcheck, verify_networks,
    verify_resource_limits.
  repeat match goal with |- Forall _ (_ ++ _) => apply Forall_app; split end;
    try (apply about_bind; intros ?); repeat case_match;
    repeat first [apply about_if | apply Forall_app; split | apply list.Forall_cons; split | apply list.Forall_nil];
    try apply about_error; try exact I.
Qed.

Definition managed_in document (n : string) : bool :=
  match dict_get n (services document) with Some s => is_managed s | None => false end.

Lemma verify_services_spec document names : forall checked vs, verify_services document names = (checked, vs) ->
  checked = filter (fun n => managed_in document n = true) names /\
  forall v, v ∈ vs <-> exists n s, n ∈ names /\ dict_get n (services document) = Some s /\ is_managed s = true /\
    v ∈ verify_service s.
Proof.
  induction names as [|n names IH]; intros checked vs; cbn [verify_services].
  { intros [= <- <-]. split; [done|]. intros v. split; [by intros ?%elem_of_nil|by intros (? & ? & ?%elem_of_nil & _)]. }
  destruct (verify_services document names) as [checked' vs'] eqn:Hv. destruct (IH _ _ eq_refl) as [-> Hvs]. clear IH Hv.
  assert (Hrest : forall v, (exists m s, m ∈ n :: names /\ dict_get m (services document) = Some s /\ is_managed s = true /\
      v ∈ verify_service s) <-> (exists s, dict_get n (services document) = Some s /\ is_managed s = true /\
      v ∈ verify_service s) \/ v ∈ vs').
  { intros v. rewrite Hvs. split.
    - intros (m & s & [->|Hm]%elem_of_cons & Hs); [left|right]; eauto.
    - intros [(s & Hs)|(m & s & Hm & Hs)]; [exists n, s|exists m, s]; rewrite elem_of_cons; tauto. }
  assert (Hm : managed_in document n = match dict_get n (services document) with Some s => is_managed s | None => false end)
    by done.
  destruct (dict_get n (services document)) as [s|] eqn:Hn; [destruct (is_managed s) eqn:Hs|]; intros [= <- <-].
  - rewrite filter_cons_True by done. split; [done|]. intros v. rewrite Hrest, elem_of_app. split.
    + intros [?|?]; [left; by exists s|tauto].
    + intros [(s' & [= <-] & _ & ?)|?]; tauto.
  - rewrite filter_cons_False by congruence. split; [done|]. intros v. rewrite Hrest. split; [tauto|].
    intros [(s' & [= <-] & ? & _)|?]; [congruence|done].
  - rewrite filter_cons_False by congruence. split; [done|]. intros v. rewrite Hrest. split; [tauto|].
    by intros [(s & [=] & _)|?].
Qed.

Lemma parse_services_wf l : forall acc r, dict_wf acc -> parse_services l acc = Ok r -> dict_wf r.
Proof.
  induction l as [|[k raw] l IH]; cbn; intros acc r Hacc; [by intros [= <-]|].
  unfold mbind, result_bind. destruct (parse_service _ _); [|done]. apply IH. by apply dict_wf_set.
Qed.

Lemma parse_document_wf raw document : parse_document raw = Ok document -> dict_wf (services document).
Proof.
  unfold parse_document. destruct raw; try done. destruct (yaml_get _ _); try done.
  unfold mbind, result_bind. destruct (parse_services _ _) as [ss|] eqn:Hs; [|done]. intros [= <-]. cbn.
  eapply parse_services_wf; [|done]. constructor.
Qed.

(** Every managed service of a document is as the policy asks. *)
Definition all_hardened document : Prop :=
  forall n s, (n, s) ∈ services document -> is_managed s = true -> hardened s.

Lemma document_verdict document strict_warnings start stop : dict_wf (services document) ->
  let r := verify_document document strict_warnings start stop in
  (ok r = true <-> all_hardened document) /\
  services_checked r = filter (fun n => managed_in document n = true) (py_sorted str_lt (dict_keys (services document))) /\
  errors_count r = length (violations r) /\ warnings_count r = 0%nat /\
  forall v, v ∈ violations r <-> exists n s, (n, s) ∈ services document /\ is_managed s = true /\ v ∈ verify_service s.
Proof.
  intros Hwf. unfold verify_document.
  destruct (verify_services document _) as [checked vs] eqn:Hv. apply verify_services_spec in Hv as [-> Hvs]. cbn.
  assert (Hall : forall v, v ∈ vs <-> exists n s, (n, s) ∈ services document /\ is_managed s = true /\ v ∈ verify_service s).
  { intros v. rewrite Hvs. split; intros (n & s & H).
    - destruct H as (_ & Hn%dict_get_Some_elem & H). eauto.
    - destruct H as (Hn & H). exists n, s. split_and!; try tauto; [|by apply dict_elem_get].
      rewrite py_sorted_perm. apply list_elem_of_fmap. by exists (n, s). }
  assert (Herr : Forall (fun v => severity v = ERROR) vs).
  { apply list.Forall_forall. intros v (n & s & _ & _ & Hin)%Hall.
    by apply (proj1 (list.Forall_forall _ _) (service_about s)) in Hin as [_ ?]. }
  pose proof (count_all ERROR vs Herr ERROR) as He. pose proof (count_all ERROR vs Herr WARNING) as Hw.
  pose proof (verdict_split vs [] Herr (list.Forall_nil_2 _) strict_warnings) as Hok. rewrite app_nil_r in Hok.
  split_and!; try done. rewrite Hok. split.
  - intros [H _] n s Hin Hm. apply service_ok. destruct (verify_service s) as [|v l] eqn:Hs; [done|].
    assert (Hv : v ∈ vs) by (apply Hall; exists n, s; rewrite Hs; split_and!; [done|done|left]).
    rewrite H in Hv. by apply elem_of_nil in Hv.
  - intros Hh. split; [|done]. destruct vs as [|v vs]; [done|]. exfalso. destruct (proj1 (Hall v)) as (n & s & Hin & Hm & Hv); [left|].
    apply Hh, service_ok in Hin; [|done]. rewrite Hin in Hv. by apply elem_of_nil in Hv.
Qed.
End Documents.

(** ** Properties *)

(** C27: the report of a compose file passes exactly when every managed service
    is hardened: labelled, pinned to a version, not root, unprivileged, confined,
    health checked, on named networks, limited, and without literal secrets.
    It has no warnings, checks the managed services in order, and every
    violation is an error of the service it names. *)
Theorem verdict_exact raw document strict_warnings start stop : parse_document raw = Ok document ->
  let r := verify_document document strict_warnings start stop in
  (ok r = true <-> all_hardened document) /\
  services_checked r = filter (fun n => managed_in document n = true) (py_sorted str_lt (dict_keys (services document))) /\
  warnings_count r = 0%nat /\ errors_count r = length (violations r) /\
  forall v, v ∈ violations r -> severity v = ERROR /\ exists n s, (n, s) ∈ services document /\
    is_managed s = true /\ subject v = name s /\ ~ hardened s.
Proof.
  intros Hwf%parse_document_wf. destruct (document_verdict document strict_warnings start stop Hwf) as (Hok & Hc & He & Hw & Hv).
  cbv zeta. split_and!; try done. intros v (n & s & Hin & Hm & Hvs)%Hv.
  pose proof (service_about s) as Hab. rewrite list.Forall_forall in Hab. destruct (Hab v Hvs) as [Hsub Hsev].
  split; [done|]. exists n, s. split_and!; try done. rewrite <- service_ok. intros Hnil. rewrite Hnil in Hvs. by apply elem_of_nil in Hvs.
Qed.

Section Command.
Context (safe_load : string -> result compose_exc yaml) (dump_json : VerificationReport -> string)
  (compose_text : compose_exc -> string).

(** The command exits with 0 only if the file was read and all its managed
    services are hardened, with 1 only if one is not, with 2 only if there is no
    document to judge; with a database it exits only after the report and all
    its violations were stored, and otherwise leaves the tables as they were. *)
Theorem exit_code_means args fs run start stop db out exit db' :
  main safe_load dump_json compose_text args fs run start stop db = (out, exit, db') ->
  (exit = Code 2 /\ db' = db /\ ~ exists d, load_compose safe_load (compose args) fs = Ok d) \/
  (exists document, load_compose safe_load (compose args) fs = Ok document /\
     let r := with_path (path_str (compose args)) (verify_document document (strict args) start stop) in
     (exit = Code 0 /\ all_hardened document \/ exit = Code 1 /\ ~ all_hardened document) /\
     if has_database args
     then db' = {| verification_runs := (verification_runs db ++ [report_row run r])%list;
                   verification_violations := (verification_violations db ++ (pair run <$> violations r))%list |}
     else db' = db) \/
  ((forall n, exit <> Code n) /\ db' = db).
Proof.
  unfold main. destruct (path_exists (compose args) fs) eqn:Hex; cbn [negb]; cycle 1.
  { intros [= <- <- <-]. left. split_and!; [done|done|]. intros [d Hd]. revert Hd.
    unfold load_compose, mbind, result_bind. destruct (read_bytes (compose args) fs) as [b|e'] eqn:Hr; [|done].
    unfold path_exists, is_file in Hex. unfold read_bytes in Hr. destruct (files fs !! compose args); [done|].
    by repeat case_match. }
  destruct (load_compose safe_load (compose args) fs) as [document|e] eqn:Hload; cycle 1.
  { destruct (is_value_error e); intros [= <- <- <-]; [left|by right; right]. split_and!; [done|done|by intros [d [=]]]. }
  assert (Hwf : dict_wf (services document)).
  { unfold load_compose, mbind, result_bind in Hload. destruct (map_err _ _); [|done]. destruct (safe_load _); [|done].
    by apply parse_document_wf in Hload. }
  destruct (document_verdict document (strict args) start stop Hwf) as (Hok & _).
  set (r := with_path _ _). assert (Hokr : ok r = true <-> all_hardened document) by done.
  intros [[-> ->]|[? ->]]%command_ends; [right; left|by right; right]. exists document. split_and!; [done| |by destruct (has_database args)].
  destruct (ok r); [left; tauto|right; split; [done|]]. intros H%Hokr. done.
Qed.
End Command.

(** ** Instances *)

Definition sample_service (img usr ro : yaml) : yaml :=
  YDict [(YStr "image", img); (YStr "user", usr); (YStr "read_only", ro);
         (YStr "security_opt", YList [YStr "no-new-privileges:true"]); (YStr "cap_drop", YList [YStr "ALL"]);
         (YStr "healthcheck", YDict [(YStr "test", YList [YStr "CMD"; YStr "true"]); (YStr "retries", YInt 20)]);
         (YStr "networks", YDict [(YStr "platform", YNone)]);
         (YStr "labels", YDict ((YStr MANAGED_LABEL, YStr "true") :: ((fun l => (YStr l, YStr "x")) <$> REQUIRED_LABELS)));
         (YStr "deploy", YDict [(YStr "resources", YDict [(YStr "limits",
            YDict [(YStr "memory", YStr "256M"); (YStr "cpus", YStr "0.50")])])]);
         (YStr "environment", YList [YStr "APEX_ENVIRONMENT=local"; YStr "DB_PASSWORD=${DB_PASSWORD}"])].
Definition sample_compose (img usr ro : yaml) : yaml :=
  YDict [(YStr "services", YDict [(YStr "web", sample_service img usr ro);
    (YStr "postgres", YDict [(YStr "image", YStr "postgres:16"); (YStr "environment", YDict [(YStr "POSTGRES_PASSWORD", YStr "apex")])])])].
Definition good_compose : yaml := sample_compose (YStr "apexquant/web:0.1.0") (YInt 10001) (YBool true).
Definition passes (raw : yaml) : bool :=
  match parse_document raw with Ok d => ok (verify_document d true 0 1) | Err _ => false end.

Lemma verdict_exact_witness : exists document, parse_document good_compose = Ok document /\ all_hardened document.
Proof.
  assert (Hpass : passes good_compose = true) by (vm_compute; reflexivity). unfold passes in Hpass.
  destruct (parse_document good_compose) as [document|e] eqn:Hp; [|discriminate Hpass].
  exists document. split; [reflexivity|]. apply (verdict_exact good_compose document true 0 1 Hp). exact Hpass.
Defined.

Definition sample_fs : FileSystem := {| files := {[path_of "/w/compose.yaml" := "services: ..."]}; dirs := {[path_of "/w"]} |}.
Definition sample_args : Args :=
  {| compose := path_of "/w/compose.yaml"; has_database := true; strict := false; output_json := false |}.
Definition no_rows : PolicyDb (string * list string) := {| verification_runs := []; verification_violations := [] |}.
(** A service without a user, stored with its violation. *)
Definition bad_load (text : string) : result compose_exc yaml :=
  Ok (sample_compose (YStr "apexquant/web:0.1.0") YNone (YBool true)).
Definition sample_main := main bad_load (fun _ => "") (fun _ => "") sample_args sample_fs 7 10 20 no_rows.

Lemma exit_code_means_witness : exists document r,
  load_compose bad_load (compose sample_args) sample_fs = Ok document /\ ~ all_hardened document /\
  sample_main.2 = {| verification_runs := [report_row 7 r]; verification_violations := pair 7%nat <$> violations r |}.
Proof.
  destruct sample_main as [[out exit] db'] eqn:Hm. cbn [fst snd].
  pose proof (exit_code_means bad_load (fun _ => "") (fun _ => "") sample_args sample_fs 7 10 20 no_rows out exit db' Hm) as H.
  assert (Hexit : exit = Code 1).
  { assert (Hc : sample_main.1.2 = Code 1) by (vm_compute; reflexivity). rewrite Hm in Hc. exact Hc. }
  destruct H as [(He & _)|[(document & Hl & [[He _]|[_ Hbad]] & Hdb)|[He _]]];
    [congruence|congruence| |by destruct (He 1%Z)].
  eexists document, _. split; [exact Hl|]. split; [exact Hbad|]. exact Hdb.
Defined.

(** ** What the policy lets through *)

(** Only the spellings listed are root: any other group goes with user 0. *)
Lemma root_with_group_passes :
  passes (sample_compose (YStr "apexquant/web:0.1.0") (YStr "0:1000") (YBool true)) = true /\
  passes (sample_compose (YStr "apexquant/web:0.1.0") (YStr "root:root") (YBool true)) = true.
Proof. vm_compute. split; reflexivity. Qed.

(** The port of a registry passes for a tag, and hides [latest]. *)
Lemma registry_port_passes :
  passes (sample_compose (YStr "localhost:5000/web") (YInt 10001) (YBool true)) = true /\
  passes (sample_compose (YStr "localhost:5000/web:latest") (YInt 10001) (YBool true)) = true.
Proof. vm_compute. split; reflexivity. Qed.

(** A quoted [false] is true. *)
Lemma quoted_false_passes : passes (sample_compose (YStr "apexquant/web:0.1.0") (YInt 10001) (YStr "false")) = true.
Proof. vm_compute. reflexivity. Qed.
