(* ===== verification/RepoScanner.v ===== *)
(** The repository scanner: [scanner.py], [persistence.py] and the command of
    apexquant-repo-architecture.

    The file system is that of PyPath: no symbolic links.  [tomllib.loads] is an
    argument, and a TOML document the value it returns. *)
From stdpp Require Import base strings list gmap sorting pretty numbers.
From Stdlib Require Import Ascii.
From S2P Require Import Prelude PyStr Json PyPath Yaml PolicyReport.

#[local] Open Scope string_scope.

Inductive PathKind := DIR | FILE.
Record RequiredPath := { path : string; kind : PathKind; description : string }.
Definition required (p : string) (k : PathKind) (d : string) : RequiredPath :=
  {| path := p; kind := k; description := d |}.

Definition REQUIRED_DIRS : list RequiredPath :=
  [required ".github/workflows" DIR "CI workflows";
   required "docs" DIR "Documentation root";
   required "proto/apexquant/common/v1" DIR "Common Protobuf contracts";
   required "openapi" DIR "OpenAPI contracts";
   required "crates/common" DIR "Shared Rust crates";
   required "crates/control" DIR "Control-plane Rust crates";
   required "crates/market_data" DIR "Market-data Rust crates";
   required "crates/broker" DIR "Broker Rust crates";
   required "crates/orders" DIR "Order Rust crates";
   required "crates/execution" DIR "Execution Rust crates";
   required "crates/positions" DIR "Position Rust crates";
   required "crates/reconciliation" DIR "Reconciliation Rust crates";
   required "crates/risk" DIR "Risk Rust crates";
   required "crates/ledger" DIR "Ledger Rust crates";
   required "crates/telemetry" DIR "Telemetry Rust crates";
   required "crates/testing" DIR "Testing Rust crates";
   required "python" DIR "Python packages";
   required "services/control" DIR "Control-plane services";
   required "services/market_data" DIR "Market-data services";
   required "services/broker" DIR "Broker services";
   required "services/trading" DIR "Trading services";
   required "services/risk" DIR "Risk services";
   required "services/ledger" DIR "Ledger services";
   required "services/strategy" DIR "Strategy services";
   required "services/intelligence" DIR "Intelligence services";
   required "services/decision" DIR "Decision services";
   required "services/portfolio" DIR "Portfolio services";
   required "services/routing" DIR "Routing services";
   required "services/news_events" DIR "News and event services";
   required "services/knowledge" DIR "Knowledge services";
   required "services/learning" DIR "Continuous-learning services";
   required "services/research" DIR "Research services";
   required "services/reliability" DIR "Reliability services";
   required "services/security" DIR "Security services";
   required "services/observability" DIR "Observability services";
   required "services/reporting" DIR "Reporting services";
   required "apps" DIR "User applications";
   required "ai" DIR "AI artifacts and governance";
   required "backtesting" DIR "Backtesting engine assets";
   required "data" DIR "Data schemas and contracts";
   required "migrations/postgres" DIR "PostgreSQL migrations";
   required "migrations/clickhouse" DIR "ClickHouse migrations";
   required "migrations/qdrant" DIR "Qdrant collections";
   required "migrations/kafka" DIR "Kafka topic definitions";
   required "infra/docker/dockerfiles" DIR "Dockerfiles";
   required "infra/docker/compose/local" DIR "Local Docker Compose stack";
   required "infra/kubernetes" DIR "Kubernetes manifests";
   required "infra/helm" DIR "Helm charts";
   required "infra/opentofu" DIR "OpenTofu infrastructure";
   required "infra/ansible" DIR "Ansible automation";
   required "infra/monitoring/prometheus" DIR "Prometheus configuration";
   required "infra/security" DIR "Security infrastructure";
   required "infra/environments" DIR "Environment definitions";
   required "templates" DIR "Feature and service templates";
   required "tests" DIR "Cross-service tests";
   required "scripts" DIR "Automation scripts"].

Definition REQUIRED_FILES : list RequiredPath :=
  [required "Cargo.toml" FILE "Rust workspace manifest";
   required "rust-toolchain.toml" FILE "Rust toolchain pin";
   required "pyproject.toml" FILE "Root Python tooling manifest";
   required "Makefile" FILE "Repository automation entrypoint";
   required "README.md" FILE "Repository README";
   required "buf.yaml" FILE "Protobuf workspace configuration";
   required "buf.gen.yaml" FILE "Protobuf generation configuration";
   required ".gitignore" FILE "Git ignore rules";
   required ".gitattributes" FILE "Git attribute rules";
   required ".editorconfig" FILE "Editor configuration";
   required ".rustfmt.toml" FILE "Rust formatting rules";
   required "clippy.toml" FILE "Rust lint configuration";
   required ".github/workflows/ci.yml" FILE "CI workflow";
   required "proto/apexquant/common/v1/service_framework.proto" FILE "Service framework Protobuf contract";
   required "migrations/postgres/service_framework/0001_service_framework.sql" FILE "Feature 0.1 PostgreSQL migration";
   required "migrations/postgres/repository_architecture/0001_repository_architecture.sql" FILE "Feature 0.2 PostgreSQL migration";
   required "migrations/clickhouse/service_framework/0001_service_framework.sql" FILE "Feature 0.1 ClickHouse migration";
   required "crates/control/service-framework-core/Cargo.toml" FILE "Feature 0.1 Rust crate manifest";
   required "python/apexquant-service-framework/pyproject.toml" FILE "Feature 0.1 Python package manifest";
   required "python/apexquant-repo-architecture/pyproject.toml" FILE "Feature 0.2 Python package manifest";
   required "infra/docker/dockerfiles/Dockerfile.service-framework" FILE "Feature 0.1 service Dockerfile";
   required "infra/docker/dockerfiles/Dockerfile.repo-architecture-verifier" FILE "Feature 0.2 repository verifier Dockerfile";
   required "infra/docker/compose/local/docker-compose.yaml" FILE "Local Docker Compose stack";
   required "infra/monitoring/prometheus/prometheus.yml" FILE "Prometheus configuration"].

Definition ALLOWED_TOP_LEVEL : list string :=
  [".git"; ".github"; ".editorconfig"; ".gitattributes"; ".gitignore"; ".rustfmt.toml"; "clippy.toml";
   "Cargo.toml"; "Cargo.lock"; "rust-toolchain.toml"; "pyproject.toml"; "uv.lock"; "Makefile"; "README.md";
   "LICENSE"; "buf.yaml"; "buf.gen.yaml"; "buf.lock"; ".pre-commit-config.yaml"; "docs"; "proto"; "openapi";
   "crates"; "python"; "services"; "apps"; "ai"; "backtesting"; "data"; "migrations"; "infra"; "templates";
   "tests"; "scripts"; "target"; ".venv"; "node_modules"].

Definition REQUIRED_WORKSPACE_MEMBER : string := "crates/control/service-framework-core".

Definition error (c p m : string) : Violation := {| subject := p; code := c; severity := ERROR; message := m |}.
Definition warning (c p m : string) : Violation := {| subject := p; code := c; severity := WARNING; message := m |}.

(** What [tomllib.loads(path.read_text())] raises: a TOMLDecodeError, or an
    exception the scanner does not catch. *)
Inductive toml_exc := TOMLDecodeError (m : string) | DecodeError (m : string).

Section Scan.
Context (toml_loads : string -> result toml_exc yaml).
Context (repo_root : Path) (fs : FileSystem).

Definition below (p : string) : Path := path_div repo_root p.

Definition check_required (r : RequiredPath) : list Violation :=
  match kind r with
  | DIR => if is_dir (below (path r)) fs then []
           else [error "MISSING_DIRECTORY" (path r) ("required directory is missing: " ++ description r)]
  | FILE => if is_file (below (path r)) fs then []
            else [error "MISSING_FILE" (path r) ("required file is missing: " ++ description r)]
  end.
Definition check_required_paths : list string * list Violation :=
  let all := (REQUIRED_DIRS ++ REQUIRED_FILES)%list in (path <$> all, all ≫= check_required).

(** The members that are strings, and a violation for each other one. *)
Fixpoint normalize_members (l : list yaml) : list string * list Violation :=
  match l with
  | [] => ([], [])
  | m :: l' =>
      let '(ms, vs) := normalize_members l' in
      match m with
      | YStr s => (s :: ms, vs)
      | _ => (ms, error "INVALID_WORKSPACE_MEMBER" "Cargo.toml" "workspace members must be strings" :: vs)
      end
  end.

Definition workspace_members (raw : list (yaml * yaml)) : list string * list Violation :=
  match yaml_get "workspace" raw with
  | YDict workspace =>
      match yaml_get "members" workspace with
      | YList members =>
          let '(ms, vs) := normalize_members members in
          (ms, (vs ++ if bool_decide (REQUIRED_WORKSPACE_MEMBER ∈ ms) then []
                      else [error "MISSING_WORKSPACE_MEMBER" "Cargo.toml"
                              ("workspace must include " ++ REQUIRED_WORKSPACE_MEMBER)])%list)
      | _ => ([], [error "MISSING_WORKSPACE_MEMBERS" "Cargo.toml" "[workspace].members must be a list"])
      end
  | _ => ([], [error "MISSING_WORKSPACE_SECTION" "Cargo.toml" "root Cargo.toml must define [workspace]"])
  end.

(** A TOML document is a table. *)
Definition table (y : yaml) : list (yaml * yaml) := match y with YDict d => d | _ => [] end.

Definition load_cargo_members : result toml_exc (list string * list Violation) :=
  match files fs !! below "Cargo.toml" with
  | None => Ok ([], [])
  | Some text =>
      match toml_loads text with
      | Ok raw => Ok (workspace_members (table raw))
      | Err (TOMLDecodeError m) =>
          Ok ([], [error "INVALID_CARGO_TOML" "Cargo.toml" ("root Cargo.toml could not be parsed: " ++ m)])
      | Err e => Err e
      end
  end.

Definition check_cargo_member (member : string) : list Violation :=
  if char_in "*" member
  then [error "UNSUPPORTED_WORKSPACE_GLOB" "Cargo.toml" ("workspace member glob patterns are not allowed: " ++ member)]
  else if is_file (path_div (below member) "Cargo.toml") fs then []
  else [error "MISSING_CARGO_MANIFEST" (member ++ "/Cargo.toml") "workspace member does not contain a Cargo.toml manifest"].
Definition check_cargo_members (cargo_members : list string) : list Violation := cargo_members ≫= check_cargo_member.

Definition is_package (name : string) : bool :=
  is_dir (path_div (below "python") name) fs && negb (starts_with "." name)
  && negb ((name =? "generated") || (name =? "__pycache__")).
Definition check_package (name : string) : list Violation :=
  let child := path_div (below "python") name in
  ((if is_file (path_div child "pyproject.toml") fs then []
    else [error "MISSING_PYPROJECT" ("python/" ++ name ++ "/pyproject.toml") "Python package is missing pyproject.toml"])
   ++ (if is_dir (path_div child "src") fs then []
       else [error "MISSING_SRC_LAYOUT" ("python/" ++ name ++ "/src") "Python package must use the src/ package layout"]))%list.
Definition scan_python_packages : list string * list Violation :=
  if is_dir (below "python") fs
  then let packages := filter (fun n => is_package n = true) (iterdir (below "python") fs) in
       (packages, packages ≫= check_package)
  else ([], []).

Definition check_top_level : list Violation :=
  (fun n => warning "UNEXPECTED_TOP_LEVEL_ENTRY" n "unexpected top-level repository entry")
    <$> filter (fun n => n ∉ ALLOWED_TOP_LEVEL) (iterdir repo_root fs).

(** ** Reports *)

Record VerificationReport := {
  root_text : string; started_at : Z; completed_at : Z; ok : bool; errors_count : nat; warnings_count : nat;
  violations : list Violation; checked_paths : list string; cargo_members : list string; python_packages : list string
}.

Definition scan_repo (strict_warnings : bool) (start stop : Z) : result toml_exc VerificationReport :=
  if negb (path_exists repo_root fs) || negb (is_dir repo_root fs)
  then Ok {| root_text := path_str repo_root; started_at := start; completed_at := stop; ok := false; errors_count := 1;
             warnings_count := 0;
             violations := [error "MISSING_REPOSITORY_ROOT" (path_str repo_root)
                              "repository root does not exist or is not a directory"];
             checked_paths := []; cargo_members := []; python_packages := [] |}
  else
    let '(checked, vs1) := check_required_paths in
    '(members, vs2) ← load_cargo_members;
    let vs3 := check_cargo_members members in
    let '(packages, vs4) := scan_python_packages in
    let vs := (vs1 ++ vs2 ++ vs3 ++ vs4 ++ check_top_level)%list in
    Ok {| root_text := path_str repo_root; started_at := start; completed_at := stop;
          ok := verdict strict_warnings vs; errors_count := count_severity ERROR vs;
          warnings_count := count_severity WARNING vs; violations := vs; checked_paths := checked;
          cargo_members := members; python_packages := packages |}.
End Scan.

(** ** persistence.py and cli.py *)

Definition report_row (run : nat) (r : VerificationReport)
    : RunRow (string * list string * list string * list string) :=
  {| run_id := run; run_info := (root_text r, checked_paths r, cargo_members r, python_packages r);
     run_started := started_at r; run_completed := completed_at r; run_ok := ok r; run_errors := errors_count r;
     run_warnings := warnings_count r; run_violations := violations r |}.

Definition persist_report (run : nat) (r : VerificationReport)
    : st (PolicyDb (string * list string * list string * list string)) string unit := persist_rows (report_row run r).

Record Args := { root : Path; has_database : bool; strict : bool; output_json : bool }.

Section Main.
Context (toml_loads : string -> result toml_exc yaml) (dump_json : VerificationReport -> string).

Definition violation_line (v : Violation) : string :=
  severity_value (severity v) ++ " " ++ code v ++ " " ++ subject v ++ ": " ++ message v.
Definition report_lines (json : bool) (r : VerificationReport) : list string :=
  if json then [dump_json r]
  else ("repository verification " ++ (if ok r then "PASSED" else "FAILED"))
    :: ("errors=" ++ pretty (Z.of_nat (errors_count r)) ++ " warnings=" ++ pretty (Z.of_nat (warnings_count r)))
    :: (violation_line <$> violations r).

(** What the command prints, how it ends, and the tables it leaves. *)
Definition main (args : Args) (fs : FileSystem) (run : nat) (start stop : Z)
    (db : PolicyDb (string * list string * list string * list string))
    : list string * Exit toml_exc * PolicyDb (string * list string * list string * list string) :=
  if negb (path_exists (root args) fs)
  then (["repository root does not exist: " ++ path_str (root args)], Code 2, db)
  else match scan_repo toml_loads (root args) fs (strict args) start stop with
       | Err e => ([], ReadFailed e, db)
       | Ok report =>
           finish (has_database args) (ok report) (report_lines (output_json args) report) (report_row run report) db
       end.
End Main.
