(* ===== verification/RepoProps.v ===== *)
(** What the repository scanner finds, and what its commands stores. *)
From stdpp Require Import base strings list gmap sorting pretty numbers.
From Stdlib Require Import Ascii.
From S2P Require Import Prelude PyStr Json PyPath Yaml PolicyReport RepoScanner.

#[local] Open Scope string_scope.

Section Scan.
Context (toml_loads : string -> result toml_exc yaml) (root : Path) (fs : FileSystem).
Notation here p := (below root p).

(** ** What a repository must be *)

Definition has_required_paths : Prop :=
  (forall r, r ∈ REQUIRED_DIRS -> is_dir (here (path r)) fs = true) /\
  (forall r, r ∈ REQUIRED_FILES -> is_file (here (path r)) fs = true).
(** The members of the workspace: strings without globs, the required one among
    them, each with a manifest. *)
Definition members_listed (members : list string) : Prop :=
  exists text raw ws, files fs !! here "Cargo.toml" = Some text /\ toml_loads text = Ok raw /\
    yaml_get "workspace" (table raw) = YDict ws /\ yaml_get "members" ws = YList (YStr <$> members).
Definition workspace_sound : Prop :=
  exists members, members_listed members /\ REQUIRED_WORKSPACE_MEMBER ∈ members /\
    forall m, m ∈ members -> no_char "*" m /\ is_file (path_div (here m) "Cargo.toml") fs = true.
Definition packages_sound : Prop :=
  forall n, n ∈ entries (here "python") fs -> is_package root fs n = true ->
    is_file (path_div (path_div (here "python") n) "pyproject.toml") fs = true /\
    is_dir (path_div (path_div (here "python") n) "src") fs = true.
Definition conforms : Prop := has_required_paths /\ workspace_sound /\ packages_sound.
Definition tidy : Prop := forall n, n ∈ entries root fs -> n ∈ ALLOWED_TOP_LEVEL.

(** ** The checks decide it *)


Lemma if_nil {A} (b : bool) (x : A) : (if b then [] else [x]) = [] <-> b = true.
Proof. by destruct b. Qed.

Lemma required_kinds :
  Forall (fun r => kind r = DIR) REQUIRED_DIRS /\ Forall (fun r => kind r = FILE) REQUIRED_FILES.
Proof. split; repeat constructor. Qed.

Lemma required_ok : (check_required_paths root fs).2 = [] <-> has_required_paths.
Proof.
  unfold check_required_paths, has_required_paths. cbn [snd]. rewrite bind_nil.
  destruct required_kinds as [Hd Hf]. rewrite list.Forall_forall in Hd, Hf. split.
  - intros H. split; intros r Hr; specialize (H r); rewrite elem_of_app in H; specialize (H (ltac:(auto)));
      unfold check_required in H; [rewrite (Hd r Hr) in H|rewrite (Hf r Hr) in H]; by apply if_nil in H.
  - intros [H1 H2] r [Hr|Hr]%elem_of_app; unfold check_required; [rewrite (Hd r Hr)|rewrite (Hf r Hr)];
      apply if_nil; auto.
Qed.

Lemma normalize_ok l ms vs : normalize_members l = (ms, vs) -> vs = [] -> l = YStr <$> ms.
Proof.
  revert ms vs. induction l as [|y l IH]; cbn; intros ms vs; [by intros [= <- <-]|].
  destruct (normalize_members l) as [ms' vs'] eqn:Hn. destruct y; intros [= <- <-] Hnil; try done.
  cbn. f_equal. by eapply IH.
Qed.
Lemma normalize_strings ms : normalize_members (YStr <$> ms) = (ms, []).
Proof. induction ms as [|m ms IH]; cbn; [done|]. by rewrite IH. Qed.

Lemma member_ok m : check_cargo_member root fs m = [] <-> no_char "*" m /\ is_file (path_div (here m) "Cargo.toml") fs = true.
Proof.
  unfold check_cargo_member, char_in, no_char. destruct (str_forall _ m); cbn [negb]; [|split; [done|by intros [? _]]].
  rewrite if_nil. split; [done|by intros [_ ?]].
Qed.

(** The members and the violations of the workspace, when the root manifest is
    there. *)
Lemma workspace_ok ms vs : is_file (here "Cargo.toml") fs = true -> load_cargo_members toml_loads root fs = Ok (ms, vs) ->
  (vs ++ check_cargo_members root fs ms)%list = [] <-> workspace_sound.
Proof.
  intros Hfile Hload. unfold is_file in Hfile. apply bool_decide_eq_true in Hfile as [text Htext].
  unfold load_cargo_members in Hload. rewrite Htext in Hload.
  assert (Hraw : forall members, members_listed members -> exists raw ws, toml_loads text = Ok raw /\
            yaml_get "workspace" (table raw) = YDict ws /\ yaml_get "members" ws = YList (YStr <$> members)).
  { intros members (t & raw & ws & Ht & ? & ? & ?). rewrite Htext in Ht. injection Ht as <-. by exists raw, ws. }
  destruct (toml_loads text) as [raw|[m|m]] eqn:Htoml; [|injection Hload as <- <-|done]; cycle 1.
  { split; [done|]. intros (members & Hm & _). by apply Hraw in Hm as (? & ? & [=] & _). }
  injection Hload as Hload. unfold workspace_members in Hload. split.
  - intros Hnil. apply app_nil in Hnil as [Hvs Hms]. unfold check_cargo_members in Hms. rewrite bind_nil in Hms.
    destruct (yaml_get "workspace" _) as [| | | | | |ws] eqn:Hws; try (by injection Hload as <- <-).
    destruct (yaml_get "members" ws) as [| | | | |l|] eqn:Hl; try (by injection Hload as <- <-).
    destruct (normalize_members l) as [ms' vs'] eqn:Hn. injection Hload as <- Hload.
    rewrite Hvs in Hload. apply app_nil in Hload as [Hv' Hreq]. case_bool_decide as Hin; [|done].
    exists ms'. split_and!; [|done|intros m Hm; apply member_ok; by apply Hms].
    exists text, raw, ws. split_and!; try done. by rewrite <- (normalize_ok l ms' vs').
  - intros (members & Hm & Hreq & Hall). apply Hraw in Hm as (raw' & ws & [= <-] & Hws & Hmem).
    rewrite Hws, Hmem, normalize_strings, bool_decide_eq_true_2 in Hload by done. injection Hload as <- <-.
    cbn [app]. apply bind_nil. intros m Hin. by apply member_ok, Hall.
Qed.

Lemma packages_ok : is_dir (here "python") fs = true -> (scan_python_packages root fs).2 = [] <-> packages_sound.
Proof.
  intros Hd. unfold scan_python_packages, packages_sound. rewrite Hd. cbn [snd]. rewrite bind_nil.
  setoid_rewrite list_elem_of_filter. setoid_rewrite iterdir_elem. unfold check_package.
  setoid_rewrite app_nil. setoid_rewrite if_nil. split; intros H n; [intros; by apply H|intros [? ?]; by apply H].
Qed.

Lemma top_level_ok : check_top_level root fs = [] <-> tidy.
Proof.
  unfold check_top_level, tidy. split.
  - intros H%fmap_nil_inv n Hn. destruct (decide (n ∈ ALLOWED_TOP_LEVEL)) as [|Hna]; [done|]. exfalso.
    assert (Hin : n ∈ filter (fun n => n ∉ ALLOWED_TOP_LEVEL) (iterdir root fs)) by (rewrite list_elem_of_filter, iterdir_elem; done).
    rewrite H in Hin. by apply elem_of_nil in Hin.
  - intros H. rewrite filter_none; [done|]. apply list.Forall_forall. intros n Hn Hna. apply Hna, H. by apply iterdir_elem.
Qed.

(** Everything but the top level is an error. *)
Definition is_error (v : Violation) : Prop := severity v = ERROR.

Lemma errors_bind {A} (f : A -> list Violation) l : (forall x, Forall is_error (f x)) -> Forall is_error (l ≫= f).
Proof. intros Hf. induction l; [constructor|]. rewrite bind_cons. apply Forall_app. split; [apply Hf|done]. Qed.
Lemma errors_if (b : bool) v : is_error v -> Forall is_error (if b then [] else [v]).
Proof. intros Hv. destruct b; [by apply list.Forall_nil|by apply list.Forall_singleton]. Qed.

Lemma required_errors : Forall is_error (check_required_paths root fs).2.
Proof. apply errors_bind. intros r. unfold check_required. destruct (kind r); by apply errors_if. Qed.

Lemma normalize_errors l : Forall is_error (normalize_members l).2.
Proof.
  induction l as [|y l IH]; cbn; [by apply list.Forall_nil|]. destruct (normalize_members l) as [ms vs]. cbn in IH.
  destruct y; cbn; try done; by apply list.Forall_cons.
Qed.

Lemma cargo_errors ms vs : load_cargo_members toml_loads root fs = Ok (ms, vs) -> Forall is_error vs.
Proof.
  unfold load_cargo_members. destruct (files fs !! _); [|intros [= _ <-]; by apply list.Forall_nil].
  destruct (toml_loads _) as [raw|[m|m]]; [| |done]; [|intros [= _ <-]; by apply list.Forall_singleton].
  intros [= H]. unfold workspace_members in H.
  destruct (yaml_get "workspace" _); try (injection H as _ <-; by apply list.Forall_singleton).
  destruct (yaml_get "members" _) as [| | | | |l|]; try (injection H as _ <-; by apply list.Forall_singleton).
  pose proof (normalize_errors l) as Hn. destruct (normalize_members l) as [ms' vs']. injection H as _ <-.
  apply Forall_app. split; [done|]. by apply errors_if.
Qed.

Lemma members_errors ms : Forall is_error (check_cargo_members root fs ms).
Proof.
  apply errors_bind. intros m. unfold check_cargo_member. destruct (char_in _ _); [by apply list.Forall_singleton|by apply errors_if].
Qed.

Lemma packages_errors : Forall is_error (scan_python_packages root fs).2.
Proof.
  unfold scan_python_packages. destruct (is_dir _ _); [|by apply list.Forall_nil]. apply errors_bind. intros n.
  apply Forall_app. split; by apply errors_if.
Qed.

Lemma top_level_warnings : Forall (fun v => severity v = WARNING) (check_top_level root fs).
Proof. apply Forall_fmap, list.Forall_forall. done. Qed.

Lemma scan_conforms strict start stop : path_exists root fs = true -> is_dir root fs = true ->
  match scan_repo toml_loads root fs strict start stop with
  | Ok r => (ok r = true <-> conforms /\ (strict = true -> tidy)) /\
      warnings_count r = length (check_top_level root fs) /\
      (errors_count r + warnings_count r)%nat = length (violations r)
  | Err e => exists text m, files fs !! here "Cargo.toml" = Some text /\ toml_loads text = Err e /\ e = DecodeError m
  end.
Proof.
  intros Hex Hdir. unfold scan_repo. rewrite Hex, Hdir. cbn [negb orb].
  destruct (check_required_paths root fs) as [checked vs1] eqn:H1.
  pose proof required_ok as Hok1. pose proof required_errors as He1. rewrite H1 in Hok1, He1. cbn [snd] in Hok1, He1.
  unfold mbind, result_bind. destruct (load_cargo_members toml_loads root fs) as [[ms vs2]|e] eqn:H2; cycle 1.
  { unfold load_cargo_members in H2. destruct (files fs !! here "Cargo.toml") as [text|]; [|done].
    destruct (toml_loads text) as [raw|[m|m]] eqn:Ht; [done|done|]. injection H2 as <-. exists text, m. split_and!; [done|exact Ht|done]. }
  destruct (scan_python_packages root fs) as [packages vs4] eqn:H4.
  pose proof packages_ok as Hok4. pose proof packages_errors as He4. rewrite H4 in Hok4, He4. cbn [snd] in Hok4, He4.
  set (es := (vs1 ++ vs2 ++ check_cargo_members root fs ms ++ vs4)%list).
  assert (Hes : Forall is_error es).
  { unfold es. rewrite !Forall_app. split_and!; [done|by eapply cargo_errors|apply members_errors|done]. }
  replace (vs1 ++ vs2 ++ check_cargo_members root fs ms ++ vs4 ++ check_top_level root fs)%list
    with (es ++ check_top_level root fs)%list by (unfold es; by rewrite <- !(assoc_L (++)%list)).
  cbn [ok warnings_count errors_count violations]. pose proof top_level_warnings as Hw.
  destruct (count_split es (check_top_level root fs) Hes Hw) as [Ce Cw].
  split; [|by rewrite Ce, Cw, length_app].
  rewrite (verdict_split _ _ Hes Hw), top_level_ok. apply and_iff_compat_r. unfold es, conforms.
  assert (Hreq : has_required_paths -> is_dir (here "python") fs = true /\ is_file (here "Cargo.toml") fs = true).
  { intros [Hd Hf]. split; [apply (Hd (required "python" DIR "Python packages"))|
      apply (Hf (required "Cargo.toml" FILE "Rust workspace manifest"))]; unfold REQUIRED_DIRS, REQUIRED_FILES; repeat first [left | right]. }
  split.
  - intros [Hv1 Hv]%app_nil. rewrite (assoc_L (++)%list) in Hv. apply app_nil in Hv as [Hv2 Hv4]. apply Hok1 in Hv1. destruct (Hreq Hv1) as [Hpy Hcargo].
    split_and!; [done|by eapply workspace_ok|by apply Hok4].
  - intros (Hr & Hm & Hp). destruct (Hreq Hr) as [Hpy Hcargo]. apply app_nil. split; [by apply Hok1|].
    rewrite (assoc_L (++)%list). apply app_nil. split; [by apply (workspace_ok ms vs2)|by apply Hok4].
Qed.

(** C26: A scan of a directory passes exactly when the required directories and
    files are there, the workspace lists the required crate and only members
    with a manifest, every Python package has its manifest and sources, and,
    when warnings are strict, the top level holds nothing else than what is
    allowed; it raises only when the root manifest is not text. *)
Theorem scan_verdict strict start stop : path_exists root fs = true -> is_dir root fs = true ->
  match scan_repo toml_loads root fs strict start stop with
  | Ok r => (ok r = true <-> conforms /\ (strict = true -> tidy)) /\
      warnings_count r = length (check_top_level root fs) /\
      (errors_count r + warnings_count r)%nat = length (violations r)
  | Err e => exists text m, files fs !! here "Cargo.toml" = Some text /\ toml_loads text = Err e /\ e = DecodeError m
  end.
Proof. apply scan_conforms. Qed.
End Scan.

(** The command exits with 0 only for a repository that conforms, after its
    report was stored when there is a database. *)
Lemma main_zero toml_loads dump_json args fs run start stop db out db' :
  main toml_loads dump_json args fs run start stop db = (out, Code 0, db') ->
  conforms toml_loads (root args) fs /\ exists r, scan_repo toml_loads (root args) fs (strict args) start stop = Ok r /\
    db' = if has_database args
          then {| verification_runs := (verification_runs db ++ [report_row run r])%list;
                  verification_violations := (verification_violations db ++ (pair run <$> violations r))%list |}
          else db.
Proof.
  unfold main. destruct (path_exists (root args) fs) eqn:Hex; [|done]. cbn [negb].
  destruct (scan_repo _ _ _ _ _ _) as [r|e] eqn:Hs; [|done].
  intros [[Hcode Hdb]|[Hn _]]%command_ends; [|by destruct (Hn 0%Z)].
  destruct (ok r) eqn:Hok; [|done]. destruct (is_dir (root args) fs) eqn:Hd; cycle 1.
  { revert Hs. unfold scan_repo. rewrite Hex, Hd. cbn. by intros [= <-]. }
  pose proof (scan_conforms toml_loads (root args) fs (strict args) start stop Hex Hd) as H. rewrite Hs in H.
  split; [by apply H|]. by exists r.
Qed.

(** ** An instance *)

Definition sample_root : Path := path_of "/repo".
Definition sample_toml (text : string) : result toml_exc yaml :=
  Ok (YDict [(YStr "workspace", YDict [(YStr "members", YList [YStr REQUIRED_WORKSPACE_MEMBER])])]).
Definition sample_fs : FileSystem :=
  {| files := list_to_map ((fun r => (below sample_root (path r), "text")) <$> REQUIRED_FILES);
     dirs := list_to_set (sample_root :: ((fun r => below sample_root (path r)) <$> REQUIRED_DIRS)
                          ++ [below sample_root "python/apexquant-auth"; below sample_root "python/apexquant-auth/src"]) |}.
Definition sample_fs' : FileSystem := with_file (below sample_root "python/apexquant-auth/pyproject.toml") "[project]" sample_fs.

Lemma scan_verdict_witness : conforms sample_toml sample_root sample_fs'.
Proof.
  pose proof (scan_verdict sample_toml sample_root sample_fs' true 0 1) as H.
  assert (Hr : match scan_repo sample_toml sample_root sample_fs' true 0 1 with Ok r => ok r = true | Err _ => False end)
    by (vm_compute; reflexivity).
  destruct (scan_repo sample_toml sample_root sample_fs' true 0 1) as [r|]; [|destruct Hr].
  apply H; [vm_compute; reflexivity|vm_compute; reflexivity|exact Hr].
Defined.
