(* ===== verification/ConfigValidation.v ===== *)
(** Configuration validation: [canonical.py], [policy.py], [schemas.py] and
    [validator.py] of apexquant-config-validation.

    A document is a JSON value (numbers are integers, strings ASCII).  The JSON
    Schema validator is third-party: an argument gives the errors of a document,
    each with its path.  So is SHA-256. *)
From stdpp Require Import base strings list gmap sorting pretty numbers.
From Stdlib Require Import Ascii.
From S2P Require Import Prelude PyStr Json PyPath PolicyReport.

#[local] Open Scope string_scope.

Inductive config_exc :=
| KeyError (m : string)
| FileNotFoundError (m : string)
| JSONDecodeError
| TypeError (m : string).

(** ** canonical.py *)

(** [{key: canonicalize(value[key]) for key in sorted(value.keys())}] *)
Fixpoint canonicalize (value : json) : json :=
  match value with
  | JDict d => JDict (py_sorted key_before (map (fun kv => (kv.1, canonicalize kv.2)) d))
  | JList l => JList (map canonicalize l)
  | _ => value
  end.
Definition canonical_json (value : json) : string := dumps compact (canonicalize value).
Definition hash_config (sha256_hex : string -> string) (value : json) : string := sha256_hex (canonical_json value).

(** ** models.py *)

Record ValidationIssue := { issue_severity : Severity; issue_path : string; issue_message : string }.
Definition issue (p m : string) : ValidationIssue := {| issue_severity := ERROR; issue_path := p; issue_message := m |}.
Record ValidationReport := {
  schema_key : string; ok : bool; config_hash : option string; errors : list ValidationIssue;
  warnings : list ValidationIssue
}.

(** ** policy.py *)

Record ValidationPolicy := {
  version : Z; secret_key_markers : list string; allowed_secret_reference_prefixes : list string;
  environments : list string; planes : list string; fail_closed_policies : list string;
  trading_mode_by_environment : pydict string string; require_fail_closed_for : list string
}.

(** [a or b] on optional texts *)
Definition text_or (a b : option string) : option string := match a with Some "" | None => b | _ => a end.

(** The cache of the module is the state. *)
Definition load_policy (packaged repo_text : option string) (model_validate : string -> result config_exc ValidationPolicy)
    : st (option ValidationPolicy) config_exc ValidationPolicy :=
  cached ← get_state;
  match cached with
  | Some p => mret p
  | None =>
      match text_or packaged repo_text with
      | None => raise (FileNotFoundError "validation_policy.yaml not found")
      | Some text => p ← lift (model_validate text); put_state (Some p) ≫= fun _ => mret p
      end
  end.

Section Policy.
Context (policy : ValidationPolicy).

Definition is_secret_key (key : string) : bool :=
  existsb (fun marker => str_contains marker (str_lower key)) (secret_key_markers policy).
Definition is_secret_reference (value : string) : bool :=
  (starts_with "${" value && ends_with "}" value)
  || existsb (fun prefix => starts_with prefix value) (allowed_secret_reference_prefixes policy).

Definition LITERAL_SECRET : string := "literal secret detected; use env://, vault://, secret://, or ${VAR} references only".
Definition key_path (path key : string) : string := path ++ "." ++ key.
Definition index_path (path : string) (index : nat) : string := path ++ "[" ++ pretty (Z.of_nat index) ++ "]".

(** The text of a literal secret. *)
Definition literal_secret (key : string) (item : json) : bool :=
  is_secret_key key && match item with JStr s => negb (is_secret_reference s) | _ => false end.

Fixpoint scan_secrets (value : json) (path : string) : list ValidationIssue :=
  match value with
  | JDict d =>
      (fix items (d : list (string * json)) : list ValidationIssue :=
         match d with
         | [] => []
         | (key, item) :: d' =>
             (if literal_secret key item then [issue (key_path path key) LITERAL_SECRET]
              else scan_secrets item (key_path path key)) ++ items d'
         end) d
  | JList l =>
      (fix elements (index : nat) (l : list json) : list ValidationIssue :=
         match l with
         | [] => []
         | item :: l' => scan_secrets item (index_path path index) ++ elements (S index) l'
         end) 0%nat l
  | _ => []
  end%list.
End Policy.

(** ** schemas.py *)

Inductive PathPart := PKey (k : string) | PIndex (n : nat).
#[export] Instance path_part_eq_dec : EqDecision PathPart.
Proof. solve_decision. Defined.
Definition part_text (p : PathPart) : string := match p with PKey k => k | PIndex n => pretty (Z.of_nat n) end.
(** [<] on parts; siblings are of one kind. *)
Definition part_lt (a b : PathPart) : bool :=
  match a, b with PKey x, PKey y => str_lt x y | PIndex x, PIndex y => (x <? y)%nat | _, _ => false end.
Fixpoint parts_lt (a b : list PathPart) : bool :=
  match a, b with
  | _, [] => false
  | [], _ :: _ => true
  | x :: a', y :: b' => if decide (x = y) then parts_lt a' b' else part_lt x y
  end.

Definition SCHEMA_FILES : pydict string string :=
  [("service_manifest/v1", "service_manifest.schema.json"); ("environment_manifest/v1", "environment_manifest.schema.json")].

Section Schemas.
(** The texts of a schema file, in the package and in the repository, and the
    errors [Draft202012Validator(schema).iter_errors(document)] yields. *)
Context (packaged repo_text : string -> option string) (iter_errors : json -> json -> list (list PathPart * string)).

Definition load_schema (key : string) : result config_exc json :=
  match dict_get key SCHEMA_FILES with
  | None => Err (KeyError ("unknown schema_key: " ++ key))
  | Some filename =>
      match text_or (packaged filename) (repo_text filename) with
      | None => Err (FileNotFoundError ("schema file not found: " ++ filename))
      | Some text => match loads text with Some schema => Ok schema | None => Err JSONDecodeError end
      end
  end.

Definition schema_issue (e : list PathPart * string) : ValidationIssue :=
  issue (match e.1 with [] => "$" | p => "$." ++ join "." (part_text <$> p) end) e.2.
Definition validate_json_schema (document : json) (key : string) : result config_exc (list ValidationIssue) :=
  schema ← load_schema key;
  Ok (schema_issue <$> py_sorted (fun a b => parts_lt a.1 b.1) (iter_errors schema document)).

(** ** validator.py *)
Context (policy : ValidationPolicy) (sha256_hex : string -> string).

(** [document.get(k)], [None] where it is not there *)
Definition field (document : list (string * json)) (k : string) : json := default JNull (dict_get k document).
Definition is_str (j : json) (s : string) : bool := match j with JStr t => t =? s | _ => false end.
(** [j in l] *)
Definition in_strings (j : json) (l : list string) : bool := existsb (is_str j) l.
Definition json_true (j : json) : bool :=
  match j with
  | JNull => false | JBool b => b | JNum n => negb (n =? 0)%Z | JStr s => negb (str_empty s)
  | JList l => negb (bool_decide (length l = 0%nat)) | JDict d => negb (bool_decide (length d = 0%nat))
  end.
(** [j is True] *)
Definition is_true (j : json) : bool := match j with JBool true => true | _ => false end.
Definition strings_repr (l : list string) : string := "[" ++ join ", " (py_repr <$> l) ++ "]".
Definition issue_if (c : bool) (p m : string) : list ValidationIssue := if c then [issue p m] else [].

Definition validate_service_manifest (document : json) : list ValidationIssue :=
  match document with
  | JDict d =>
      (issue_if (negb (is_str (field d "schema_version") "service_manifest/v1"))
         "$.schema_version" "schema_version must be service_manifest/v1"
       ++ issue_if (negb (in_strings (field d "environment") (environments policy)))
            "$.environment" ("environment must be one of " ++ strings_repr (environments policy))
       ++ issue_if (negb (in_strings (field d "plane") (planes policy)))
            "$.plane" ("plane must be one of " ++ strings_repr (planes policy))
       ++ issue_if (negb (in_strings (field d "fail_closed_policy") (fail_closed_policies policy)))
            "$.fail_closed_policy" ("fail_closed_policy must be one of " ++ strings_repr (fail_closed_policies policy))
       ++ issue_if (json_true (field d "live_trading_allowed") && negb (is_str (field d "environment") "production"))
            "$.live_trading_allowed" "live_trading_allowed may only be true in production")%list
  | _ => []
  end.

(** [trading_mode_by_environment.get(environment)]: lists and dicts have no hash. *)
Definition expected_trading_mode (environment : json) : result config_exc (option string) :=
  match environment with
  | JStr e => Ok (dict_get e (trading_mode_by_environment policy))
  | JList _ => Err (TypeError "unhashable type: 'list'")
  | JDict _ => Err (TypeError "unhashable type: 'dict'")
  | _ => Ok None
  end.
(** [f"{j}"] where it is a string *)
Definition text (j : json) : string := match j with JStr s => s | _ => "" end.

Definition validate_environment_manifest (document : json) : result config_exc (list ValidationIssue) :=
  match document with
  | JDict d =>
      let environment := field d "environment" in
      expected ← expected_trading_mode environment;
      Ok (issue_if (negb (is_str (field d "schema_version") "environment_manifest/v1"))
            "$.schema_version" "schema_version must be environment_manifest/v1"
          ++ issue_if (negb (in_strings environment (environments policy)))
               "$.environment" ("environment must be one of " ++ strings_repr (environments policy))
          ++ match expected with
             | Some mode => issue_if (negb (is_str (field d "trading_mode") mode))
                 "$.trading_mode" ("environment " ++ text environment ++ " must use trading mode " ++ mode)
             | None => []
             end
          ++ issue_if (json_true (field d "live_capital_allowed") && negb (is_str environment "production"))
               "$.live_capital_allowed" "live_capital_allowed may only be true in production"
          ++ issue_if (in_strings environment (require_fail_closed_for policy) && negb (is_true (field d "fail_closed_default")))
               "$.fail_closed_default" ("environment " ++ text environment ++ " must have fail_closed_default=true")
          ++ issue_if (negb (is_true (default (JBool true) (dict_get "observability_required" d))))
               "$.observability_required" "observability_required must be true")%list
  | _ => Ok []
  end.

Definition validate (key : string) (document : json) : result config_exc ValidationReport :=
  schema_errors ← (match dict_get key SCHEMA_FILES with
                   | None => Ok [issue "$.schema_version" ("unknown schema_key: " ++ key)]
                   | Some _ => validate_json_schema document key
                   end);
  let secrets := scan_secrets policy document "$" in
  let service := if key =? "service_manifest/v1" then validate_service_manifest document else [] in
  environment ← (if key =? "environment_manifest/v1" then validate_environment_manifest document else Ok []);
  let errors := (schema_errors ++ secrets ++ service ++ environment)%list in
  Ok {| schema_key := key; ok := bool_decide (length errors = 0%nat); config_hash := Some (hash_config sha256_hex document);
        errors := errors; warnings := [] |}.
End Schemas.
