(* ===== verification/ConfigStore.v ===== *)
(** The registry of configurations: [repository.py] and the endpoint of [app.py]
    of apexquant-config-validation.

    The tables keep the constraints of 0001_config_validation.sql; each call of
    the repository is one statement in its own transaction.  [jsonb] is what a
    JSONB column makes of a value. *)
From stdpp Require Import base strings list gmap sorting pretty numbers.
From Stdlib Require Import Ascii.
From S2P Require Import Prelude PyStr Json PyPath PolicyReport ConfigValidation.

#[local] Open Scope string_scope.

(** ** repository.py *)

Inductive DocumentStatus := DRAFT | ACTIVE | RETIRED.
Record SchemaRow := {
  sr_key : string; sr_version : string; sr_schema : json; sr_description : string; sr_created_at : Z; sr_updated_at : Z
}.
Record DocumentRow := {
  document_id : nat; dr_schema_key : string; dr_schema_version : string; dr_service_name : option string;
  dr_environment : option string; dr_config_hash : string; dr_values : json; dr_status : DocumentStatus;
  created_by : string; created_at : Z; dr_updated_at : Z
}.
Record RunRow := {
  rr_document_id : option nat; rr_schema_key : string; rr_environment : option string; trigger : string; rr_ok : bool;
  rr_errors : list ValidationIssue; rr_warnings : list ValidationIssue; rr_config_hash : option string
}.
Record EventRow := {
  er_document_id : nat; event_type : string; actor : string; reason : string; before_hash : option string;
  after_hash : option string
}.
Record ConfigDb := {
  config_schemas : list SchemaRow; config_documents : list DocumentRow; config_validation_runs : list RunRow;
  config_events : list EventRow
}.
Definition no_configs : ConfigDb :=
  {| config_schemas := []; config_documents := []; config_validation_runs := []; config_events := [] |}.

Section Repository.
Context (jsonb : json -> json).
Notation DBM := (st ConfigDb string).

Definition is_schema (key version : string) (r : SchemaRow) : bool := (sr_key r =? key) && (sr_version r =? version).
Definition register_schema (now : Z) (key version : string) (schema : json) (description : string) : DBM unit := fun d =>
  if negb (not_blank key) then (Err "config_schemas_schema_key_not_empty", d)
  else if negb (not_blank version) then (Err "config_schemas_schema_version_not_empty", d)
  else
    let put l := {| config_schemas := l; config_documents := config_documents d;
                    config_validation_runs := config_validation_runs d; config_events := config_events d |} in
    match tbl_find (is_schema key version) (config_schemas d) with
    | None => (Ok tt, put (config_schemas d ++ [{| sr_key := key; sr_version := version; sr_schema := jsonb schema;
                 sr_description := description; sr_created_at := now; sr_updated_at := now |}])%list)
    | Some _ => (Ok tt, put (tbl_update (is_schema key version) (fun r =>
                 {| sr_key := key; sr_version := version; sr_schema := jsonb schema; sr_description := description;
                    sr_created_at := sr_created_at r; sr_updated_at := now |}) (config_schemas d)))
    end.

(** The rows without their schemas. *)
Definition list_schemas (d : ConfigDb) : list (string * string * string * Z * Z) :=
  (fun r => (sr_key r, sr_version r, sr_description r, sr_created_at r, sr_updated_at r)) <$>
  py_sorted (fun a b => str_lt (sr_key a) (sr_key b) || (sr_key a =? sr_key b) && str_lt (sr_version a) (sr_version b))
    (config_schemas d).

Definition persist_document (now : Z) (key version : string) (service_name environment : option string)
    (hash : string) (values : json) (by_whom : string) : DBM nat := fun d =>
  let id := length (config_documents d) in
  if negb (not_blank key) then (Err "config_documents_schema_key_not_empty", d)
  else if negb (not_blank version) then (Err "config_documents_schema_version_not_empty", d)
  else if negb (checksum_format hash) then (Err "config_documents_hash_format", d)
  else (Ok id,
        {| config_schemas := config_schemas d;
           config_documents := (config_documents d ++ [{| document_id := id; dr_schema_key := key;
             dr_schema_version := version; dr_service_name := service_name; dr_environment := environment;
             dr_config_hash := hash; dr_values := jsonb values; dr_status := DRAFT; created_by := by_whom;
             created_at := now; dr_updated_at := now |}])%list;
           config_validation_runs := config_validation_runs d; config_events := config_events d |}).

Definition get_document (id : nat) (d : ConfigDb) : option DocumentRow :=
  tbl_find (fun r => document_id r =? id)%nat (config_documents d).
Definition has_document (id : nat) (d : ConfigDb) : bool := bool_decide (is_Some (get_document id d)).

Definition persist_validation_run (r : RunRow) : DBM unit := fun d =>
  if negb (not_blank (rr_schema_key r)) then (Err "config_validation_runs_schema_key_not_empty", d)
  else if negb (not_blank (trigger r)) then (Err "config_validation_runs_trigger_not_empty", d)
  else if negb (opt_holds (fun h => String.length h <=? 64)%nat (rr_config_hash r)) then (Err "value too long", d)
  else if negb (opt_holds (fun id => has_document id d) (rr_document_id r)) then (Err "config_validation_runs_document_id_fkey", d)
  else (Ok tt, {| config_schemas := config_schemas d; config_documents := config_documents d;
                  config_validation_runs := (config_validation_runs d ++ [r])%list; config_events := config_events d |}).

Definition record_event (e : EventRow) : DBM unit := fun d =>
  if negb (not_blank (event_type e)) then (Err "config_events_event_type_not_empty", d)
  else if negb (not_blank (actor e)) then (Err "config_events_actor_not_empty", d)
  else if negb (opt_holds (fun h => String.length h <=? 64)%nat (before_hash e)) then (Err "value too long", d)
  else if negb (opt_holds (fun h => String.length h <=? 64)%nat (after_hash e)) then (Err "value too long", d)
  else if negb (has_document (er_document_id e) d) then (Err "config_events_document_id_fkey", d)
  else (Ok tt, {| config_schemas := config_schemas d; config_documents := config_documents d;
                  config_validation_runs := config_validation_runs d; config_events := (config_events d ++ [e])%list |}).
End Repository.

(** ** app.py *)

Record ValidateRequest := { rq_schema_key : string; document : list (string * json); persist : bool; rq_actor : string }.
Inductive Response :=
| Rejected (report : ValidationReport)  (* 422 *)
| NoDatabase  (* 503 *)
| Accepted (report : ValidationReport) (id : option nat).
(** What the endpoint does not catch. *)
Inductive endpoint_exc := ValidatorError (e : config_exc) | DatabaseError (m : string).

(** The database, when one is configured, and the counter of validations. *)
Record AppState := { repository : option ConfigDb; validations_total : list (string * bool) }.

Section App.
Context (jsonb : json -> json) (validator : string -> json -> result config_exc ValidationReport).
Notation AppM := (st AppState endpoint_exc).

Definition count_validation (key : string) (passed : bool) : AppM unit := fun s =>
  (Ok tt, {| repository := repository s; validations_total := (validations_total s ++ [(key, passed)])%list |}).
(** A call of the repository, there being one. *)
Definition on_db {A} (m : st ConfigDb string A) : AppM A := fun s =>
  match repository s with
  | Some d => let '(r, d') := m d in
      (map_err DatabaseError r, {| repository := Some d'; validations_total := validations_total s |})
  | None => (Err (DatabaseError "no repository"), s)
  end.

(** A value for a column of type TEXT. *)
Definition text_column (j : json) : result endpoint_exc (option string) :=
  match j with
  | JStr s => Ok (Some s)
  | JNull => Ok None
  | _ => Err (DatabaseError "column is of type text")
  end.
Definition schema_version_of (key : string) : string := match split_first "/" key with Some (_, v) => v | None => "v1" end.

Definition store_validated (now : Z) (payload : ValidateRequest) (report : ValidationReport) : AppM nat :=
  service_name ← lift (text_column (field (document payload) "service_name"));
  environment ← lift (text_column (field (document payload) "environment"));
  id ← on_db (persist_document jsonb now (rq_schema_key payload) (schema_version_of (rq_schema_key payload)) service_name
                environment (default "" (config_hash report)) (JDict (document payload)) (rq_actor payload));
  on_db (persist_validation_run {| rr_document_id := Some id; rr_schema_key := rq_schema_key payload;
    rr_environment := environment; trigger := "api"; rr_ok := ok report; rr_errors := errors report;
    rr_warnings := warnings report; rr_config_hash := config_hash report |}) ≫= fun _ =>
  on_db (record_event {| er_document_id := id; event_type := "CONFIG_VALIDATED"; actor := rq_actor payload;
    reason := "configuration validated"; before_hash := None; after_hash := config_hash report |}) ≫= fun _ =>
  mret id.

Definition validate_config (now : Z) (payload : ValidateRequest) : AppM Response :=
  report ← lift (map_err ValidatorError (validator (rq_schema_key payload) (JDict (document payload))));
  count_validation (rq_schema_key payload) (ok report) ≫= fun _ =>
  s ← get_state;
  if negb (ok report) then mret (Rejected report)
  else if persist payload then
    match repository s with
    | None => mret NoDatabase
    | Some _ => id ← store_validated now payload report; mret (Accepted report (Some id))
    end
  else mret (Accepted report None).
End App.
