(* ===== verification/ConfigProps.v ===== *)
(** What the hash of a configuration identifies, which secrets the scan finds,
    and what the registry holds. *)
From stdpp Require Import base strings list gmap sorting pretty numbers.
From Stdlib Require Import Ascii.
From S2P Require Import Prelude PyStr Json PyPath PolicyReport ConfigValidation ConfigStore.

#[local] Open Scope string_scope.

(** ** Documents by their paths *)

(** The value at a path. *)
Fixpoint value_at (p : list PathPart) (j : json) : option json :=
  match p, j with
  | [], _ => Some j
  | PKey k :: p', JDict d => dict_get k d ≫= value_at p'
  | PIndex n :: p', JList l => l !! n ≫= value_at p'
  | _, _ => None
  end.

(** A value but for the order of the keys. *)
Inductive shape := Scalar (j : json) | ListOf (n : nat) | DictOf (keys : gset string).
Definition shape_of (j : json) : shape :=
  match j with
  | JList l => ListOf (length l)
  | JDict d => DictOf (list_to_set (dict_keys d))
  | _ => Scalar j
  end.
Definition shape_at (p : list PathPart) (j : json) : option shape := shape_of <$> value_at p j.

(** The same document: the same values at the same paths, whatever the order of
    the keys. *)
Definition same_document (a b : json) : Prop := forall p, shape_at p a = shape_at p b.
#[export] Instance same_document_equivalence : Equivalence same_document.
Proof. split; [by intros ? ?|by intros ? ? H p|intros ? ? ? H1 H2 p; by rewrite H1]. Qed.

Lemma canonicalize_normalize j : canonicalize j = normalize canonical j.
Proof.
  induction j as [| | | |l IH|d IH] using json_induction; try done; cbn.
  - f_equal. induction IH as [|x l Hx Hl IHl]; [done|]. cbn. by rewrite Hx, IHl.
  - f_equal. unfold in_order. cbn. f_equal. induction IH as [|[k v] d Hv Hd IHd]; [done|]. cbn in *. by rewrite Hv, IHd.
Qed.

Lemma canonical_wf j : json_wf j = true -> json_wf (canonicalize j) = true.
Proof.
  induction j as [| | | |l IH|d IH] using json_induction; try done; cbn.
  - rewrite !forallb_forall. intros Hl x Hx. apply in_map_iff in Hx as (y & <- & Hy).
    rewrite list.Forall_forall in IH. apply IH; [by apply list_elem_of_In|by apply Hl].
  - rewrite !andb_true_iff, !bool_decide_eq_true, !forallb_forall. intros [Hnd Hd]. split.
    + rewrite py_sorted_perm, map_map. exact Hnd.
    + intros kv Hkv. apply list_elem_of_In in Hkv. rewrite py_sorted_perm in Hkv. apply list_elem_of_In in Hkv.
      apply in_map_iff in Hkv as (x & <- & Hx). rewrite list.Forall_forall in IH. cbn.
      apply IH; [by apply list_elem_of_In|by apply Hd].
Qed.

Lemma dict_get_values {A B} (f : A -> B) k (d : pydict string A) :
  dict_get k (map (fun kv => (kv.1, f kv.2)) d) = f <$> dict_get k d.
Proof. induction d as [|[k' v] d IH]; [done|]. cbn. by case_decide. Qed.

Lemma wf_keys d : json_wf (JDict d) = true -> dict_wf d.
Proof. cbn. rewrite andb_true_iff, bool_decide_eq_true. by intros [H _]. Qed.
Lemma wf_value d k v : json_wf (JDict d) = true -> dict_get k d = Some v -> json_wf v = true.
Proof.
  cbn. rewrite andb_true_iff, forallb_forall. intros [_ H] Hv%dict_get_Some_elem. apply (H (k, v)). by apply list_elem_of_In.
Qed.
Lemma wf_item l n v : json_wf (JList l) = true -> l !! n = Some v -> json_wf v = true.
Proof. cbn. rewrite forallb_forall. intros H Hv%list_elem_of_lookup_2. by apply H, list_elem_of_In. Qed.

(** The canonical members of a dict: sorted, the same under each key. *)
Definition members (d : list (string * json)) : list (string * json) :=
  py_sorted key_before (map (fun kv => (kv.1, canonicalize kv.2)) d).

Lemma members_get k d : dict_wf d -> dict_get k (members d) = canonicalize <$> dict_get k d.
Proof.
  intros Hwf. rewrite <- dict_get_values. symmetry. apply dict_get_perm; [|symmetry; apply py_sorted_perm].
  unfold dict_wf, dict_keys in *. rewrite <- list_fmap_compose. exact Hwf.
Qed.
Lemma members_keys d : dict_keys (members d) ≡ₚ dict_keys d.
Proof. unfold members, dict_keys. rewrite py_sorted_perm, <- list_fmap_compose. done. Qed.

Lemma shape_canonical j : shape_of (canonicalize j) = shape_of j.
Proof.
  destruct j; try done; cbn [canonicalize shape_of]; f_equal; [by rewrite length_map|].
  apply set_eq. intros k. rewrite !elem_of_list_to_set. change (py_sorted key_before _) with (members d). by rewrite members_keys.
Qed.

Lemma value_canonical p : forall j, json_wf j = true -> value_at p (canonicalize j) = canonicalize <$> value_at p j.
Proof.
  induction p as [|[k|n] p IH]; intros j Hj; [done| |]; destruct j as [| | | |l|d]; try done; cbn [canonicalize value_at].
  - change (py_sorted key_before _) with (members d). rewrite members_get by by apply wf_keys.
    destruct (dict_get k d) as [v|] eqn:Hv; [|done]. cbn. apply IH. by eapply wf_value.
  - rewrite list_lookup_fmap. destruct (l !! n) as [v|] eqn:Hv; [|done]. cbn. apply IH. by eapply wf_item.
Qed.

Lemma same_canonical j : json_wf j = true -> same_document (canonicalize j) j.
Proof.
  intros Hj p. unfold shape_at. rewrite value_canonical by done. destruct (value_at p j) as [v|]; [|done]. cbn. by rewrite shape_canonical.
Qed.

(** Sorted by distinct keys, members are determined by what they hold. *)
Lemma key_before_asym {A} (x y : string * A) : key_before x y = true -> key_before y x = false.
Proof. apply str_lt_asym. Qed.
Lemma member_le_trans {A} (x y z : string * A) : sort_le key_before x y -> sort_le key_before y z -> sort_le key_before x z.
Proof.
  unfold sort_le, key_before. intros Hxy Hyz. destruct (str_lt z.1 x.1) eqn:Hzx; [|done].
  destruct (decide (x.1 = y.1)) as [He|He]; [congruence|]. destruct (str_lt_total _ _ He) as [Hlt|Hlt]; [|congruence].
  by rewrite (str_lt_trans _ _ _ Hzx Hlt) in Hyz.
Qed.

Lemma sorted_members_eq {A} (l l' : pydict string A) : dict_wf l -> l ≡ₚ l' -> py_sorted key_before l = py_sorted key_before l'.
Proof.
  intros Hwf Hp. apply (StronglySorted_unique_strong (sort_le key_before)).
  - intros x y Hx Hy Hxy Hyx. unfold sort_le, key_before in Hxy, Hyx. rewrite py_sorted_perm in Hx, Hy. rewrite <- Hp in Hy.
    apply (NoDup_fmap_elem_inj fst l); try done. destruct (decide (x.1 = y.1)) as [|Hne]; [done|].
    destruct (str_lt_total _ _ Hne) as [H|H]; [by rewrite H in Hyx|by rewrite H in Hxy].
  - apply py_sorted_sorted; [apply key_before_asym|apply member_le_trans].
  - apply py_sorted_sorted; [apply key_before_asym|apply member_le_trans].
  - by rewrite !py_sorted_perm.
Qed.

Lemma canonical_same a : forall b, json_wf a = true -> json_wf b = true -> same_document a b ->
  canonicalize a = canonicalize b.
Proof.
  induction a as [| | | |l IH|d IH] using json_induction; intros c Ha Hb Hs; pose proof (Hs []) as Hroot;
    destruct c as [| | | |l'|d']; try done; try (injection Hroot as ->; done); injection Hroot as Hroot; cbn [canonicalize]; f_equal.
  - apply list_eq. intros n. change (map canonicalize) with (fmap (M := list) canonicalize). rewrite !list_lookup_fmap.
    destruct (l !! n) as [x|] eqn:Hx.
    + assert (Hn : is_Some (l' !! n)) by (apply lookup_lt_is_Some; rewrite <- Hroot; apply lookup_lt_is_Some; by eexists).
      destruct Hn as [y Hy]. rewrite Hy. cbn. f_equal. rewrite Forall_lookup in IH.
      apply (IH n x Hx y); [by apply (wf_item l n)|by apply (wf_item l' n)|]. intros p. specialize (Hs (PIndex n :: p)).
      unfold shape_at in Hs |- *. cbn in Hs. by rewrite Hx, Hy in Hs.
    + by rewrite (proj2 (lookup_ge_None l' n)) by (rewrite <- Hroot; by apply lookup_ge_None).
  - pose proof (wf_keys d Ha) as Hd. pose proof (wf_keys d' Hb) as Hd'.
    assert (Hwf : forall e, dict_wf e -> dict_wf (map (fun kv : string * json => (kv.1, canonicalize kv.2)) e))
      by (intros e He; unfold dict_wf, dict_keys in *; rewrite <- list_fmap_compose; exact He).
    assert (Hget : forall k, dict_get k (map (fun kv => (kv.1, canonicalize kv.2)) d) =
                             dict_get k (map (fun kv => (kv.1, canonicalize kv.2)) d')).
    { intros k. rewrite !dict_get_values. destruct (dict_get k d) as [x|] eqn:Hx, (dict_get k d') as [y|] eqn:Hy; try done; cbn.
      - f_equal. rewrite list.Forall_forall in IH. apply (IH (k, x)); [by apply dict_get_Some_elem|by apply (wf_value d k)|by apply (wf_value d' k)|].
        intros p. specialize (Hs (PKey k :: p)). unfold shape_at in Hs |- *. cbn in Hs. by rewrite Hx, Hy in Hs.
      - exfalso. assert (Hk : k ∉ dict_keys d') by by apply dict_get_None_keys. apply Hk.
        apply (elem_of_list_to_set (C := gset string)). rewrite <- Hroot. apply elem_of_list_to_set, list_elem_of_fmap.
        exists (k, x). split; [done|by apply dict_get_Some_elem].
      - exfalso. assert (Hk : k ∉ dict_keys d) by by apply dict_get_None_keys. apply Hk.
        apply (elem_of_list_to_set (C := gset string)). rewrite Hroot. apply elem_of_list_to_set, list_elem_of_fmap.
        exists (k, y). split; [done|by apply dict_get_Some_elem]. }
    apply sorted_members_eq; [by apply Hwf|]. apply NoDup_Permutation.
    + eapply NoDup_fmap_1. apply (Hwf d Hd).
    + eapply NoDup_fmap_1. apply (Hwf d' Hd').
    + intros [k v]. split; intros Hin%dict_elem_get; auto; apply dict_get_Some_elem; congruence.
Qed.

(** ** Literal secrets *)

(** The text of a path below another. *)
Fixpoint render (path : string) (p : list PathPart) : string :=
  match p with
  | [] => path
  | PKey k :: p' => render (key_path path k) p'
  | PIndex n :: p' => render (index_path path n) p'
  end.

Section Secrets.
Context (policy : ValidationPolicy).

Lemma scan_dict d path : scan_secrets policy (JDict d) path =
  d ≫= fun kv => if literal_secret policy kv.1 kv.2 then [issue (key_path path kv.1) LITERAL_SECRET]
                 else scan_secrets policy kv.2 (key_path path kv.1).
Proof. cbn [scan_secrets]. induction d as [|[k v] d IH]; [done|]. rewrite bind_cons. by rewrite IH. Qed.

Lemma scan_list l path : scan_secrets policy (JList l) path =
  concat (imap (fun n x => scan_secrets policy x (index_path path n)) l).
Proof.
  cbn [scan_secrets].
  change (imap (fun n x => scan_secrets policy x (index_path path n)) l)
    with (imap (fun n x => scan_secrets policy x (index_path path (0 + n)%nat)) l).
  generalize 0%nat. induction l as [|x l IH]; intros m; [done|]. cbn. rewrite IH, Nat.add_0_r. f_equal. f_equal.
  apply imap_ext. intros n y _. cbn. do 2 f_equal. lia.
Qed.

(** A literal secret at a path: text under the name of a secret. *)
Definition secret_at (p : list PathPart) (j : json) : Prop :=
  exists q k s, p = (q ++ [PKey k])%list /\ value_at p j = Some (JStr s) /\
    is_secret_key policy k = true /\ is_secret_reference policy s = false.

Lemma literal_iff k v : literal_secret policy k v = true <->
  exists s, v = JStr s /\ is_secret_key policy k = true /\ is_secret_reference policy s = false.
Proof.
  unfold literal_secret. rewrite andb_true_iff. split.
  - intros [Hk Hv]. destruct v; try done. apply negb_true_iff in Hv. eauto.
  - intros (s & -> & -> & ->). done.
Qed.

Lemma secret_at_key k p d : secret_at (PKey k :: p) (JDict d) <->
  exists v, dict_get k d = Some v /\ if literal_secret policy k v then p = [] else secret_at p v.
Proof.
  unfold secret_at. cbn [value_at]. split.
  - intros (q & k' & s & Hq & Hv & Hk & Hs). destruct (dict_get k d) as [v|] eqn:Hget; [|done]. exists v. split; [done|].
    cbn in Hv. destruct q as [|x q]; injection Hq as Hq1 Hq2; [subst|].
    + injection Hv as ->. by rewrite (proj2 (literal_iff k' (JStr s))) by eauto.
    + destruct (literal_secret policy k v) eqn:Hl; [|by exists q, k', s]. apply literal_iff in Hl as (s' & -> & _).
      subst p. by destruct q as [|[]]; cbn in Hv.
  - intros (v & -> & H). cbn. destruct (literal_secret policy k v) eqn:Hl.
    + subst p. apply literal_iff in Hl as (s & -> & Hk & Hs). by exists [], k, s.
    + destruct H as (q & k' & s & -> & Hv & Hk & Hs). by exists (PKey k :: q), k', s.
Qed.

Lemma secret_at_index n p l : secret_at (PIndex n :: p) (JList l) <-> exists v, l !! n = Some v /\ secret_at p v.
Proof.
  unfold secret_at. cbn [value_at]. split.
  - intros (q & k' & s & Hq & Hv & Hk & Hs). destruct (l !! n) as [v|]; [|done]. exists v. split; [done|].
    destruct q as [|x q]; injection Hq as Hq1 Hq2; [done|]. by exists q, k', s.
  - intros (v & -> & (q & k' & s & -> & Hv & Hk & Hs)). by exists (PIndex n :: q), k', s.
Qed.

Lemma scan_spec j : json_wf j = true -> forall path i,
  i ∈ scan_secrets policy j path <-> exists p, secret_at p j /\ i = issue (render path p) LITERAL_SECRET.
Proof.
  assert (Hno : forall j, match j with JList _ | JDict _ => False | _ => True end -> forall p, ~ secret_at p j).
  { intros j' Hj p (q & k & s & -> & Hv & _). destruct j'; try done; by destruct q as [|[]]; cbn in Hv. }
  induction j as [| | | |l IH|d IH] using json_induction; intros Hj path i;
    try (split; [by intros ?%elem_of_nil|by intros (p & Hp%Hno & _)]).
  - rewrite scan_list, elem_of_concat. setoid_rewrite list_elem_of_lookup at 2. setoid_rewrite list_lookup_imap.
    rewrite Forall_lookup in IH. split.
    + intros (found & Hi & n & Hn). destruct (l !! n) as [v|] eqn:Hv; [|done]. injection Hn as <-.
      apply (IH n v Hv (wf_item l n v Hj Hv)) in Hi as (p & Hp & ->).
      exists (PIndex n :: p). split; [|done]. apply secret_at_index. by exists v.
    + intros (p & Hp & ->). destruct p as [|[k|n] p]; [by destruct Hp as ([] & ? & ? & ? & _)| |].
      { destruct Hp as (q & k' & s & Hq & Hv & _). by cbn in Hv. }
      apply secret_at_index in Hp as (v & Hv & Hp). exists (scan_secrets policy v (index_path path n)). split.
      * apply (IH n v Hv (wf_item l n v Hj Hv)). by exists p.
      * exists n. by rewrite Hv.
  - rewrite scan_dict, list_elem_of_bind. rewrite list.Forall_forall in IH. split.
    + intros ([k v] & Hi & Hin). cbn [fst snd] in Hi. apply dict_elem_get in Hin as Hget; [|by apply wf_keys].
      destruct (literal_secret policy k v) eqn:Hl.
      * apply list_elem_of_singleton in Hi as ->. exists [PKey k]. split; [|done].
        apply secret_at_key. exists v. by rewrite Hl.
      * apply (IH (k, v) Hin (wf_value d k v Hj Hget)) in Hi as (p & Hp & ->). exists (PKey k :: p). split; [|done].
        apply secret_at_key. exists v. by rewrite Hl.
    + intros (p & Hp & ->). destruct p as [|[k|n] p]; [by destruct Hp as ([] & ? & ? & ? & _)| |].
      2: { destruct Hp as (q & k' & s & Hq & Hv & _). by cbn in Hv. }
      apply secret_at_key in Hp as (v & Hget & Hp). pose proof (dict_get_Some_elem _ _ _ Hget) as Hin.
      exists (k, v). split; [|done]. cbn [fst snd]. destruct (literal_secret policy k v).
      * subst p. apply list_elem_of_singleton. done.
      * apply (IH (k, v) Hin (wf_value d k v Hj Hget)). by exists p.
Qed.
End Secrets.

(** ** Reports *)

Lemma same_scalar a b p v : same_document a b -> (forall j, shape_of v = shape_of j -> j = v) ->
  value_at p a = Some v -> value_at p b = Some v.
Proof.
  intros Hs Hv Ha. specialize (Hs p). unfold shape_at in Hs. rewrite Ha in Hs. destruct (value_at p b) as [j|]; [|done].
  injection Hs as Hs. by rewrite (Hv j Hs).
Qed.
Lemma str_scalar s j : shape_of (JStr s) = shape_of j -> j = JStr s.
Proof. destruct j; intros H; by inversion H. Qed.
Lemma bool_scalar c j : shape_of (JBool c) = shape_of j -> j = JBool c.
Proof. destruct j; intros H; by inversion H. Qed.

Lemma same_secret policy a b p : same_document a b -> secret_at policy p a -> secret_at policy p b.
Proof.
  intros Hs (q & k & s & -> & Hv & Hk). exists q, k, s. split; [done|]. split; [|done].
  eapply same_scalar; [done| |done]. apply str_scalar.
Qed.

Lemma same_hash sha a b : json_wf a = true -> json_wf b = true -> same_document a b -> hash_config sha a = hash_config sha b.
Proof. intros Ha Hb Hs. unfold hash_config, canonical_json. by rewrite (canonical_same a b). Qed.

Lemma issue_if_nil c p m : issue_if c p m = [] <-> c = false.
Proof. by destruct c. Qed.

Lemma is_str_iff j s : is_str j s = true <-> j = JStr s.
Proof.
  split; [|by intros ->; apply String.eqb_refl]. destruct j; try done. cbn. by intros ->%String.eqb_eq.
Qed.

Lemma field_value d k v : value_at [PKey k] (JDict d) = Some v -> field d k = v.
Proof. unfold field. cbn. destruct (dict_get k d); [|done]. by intros [= ->]. Qed.
Lemma field_str d k s : field d k = JStr s -> value_at [PKey k] (JDict d) = Some (JStr s).
Proof. unfold field. cbn. destruct (dict_get k d); [|done]. cbn. by intros ->. Qed.

(** The names under which a manifest allows real money. *)
Definition live_field (key : string) : option string :=
  if key =? "service_manifest/v1" then Some "live_trading_allowed"
  else if key =? "environment_manifest/v1" then Some "live_capital_allowed" else None.
(** Real money is for production. *)
Definition live_in_production (key : string) (j : json) : Prop :=
  forall k, live_field key = Some k -> value_at [PKey k] j = Some (JBool true) ->
    value_at [PKey "environment"] j = Some (JStr "production").

Section Validated.
Context (packaged repo_text : string -> option string) (iter_errors : json -> json -> list (list PathPart * string))
  (policy : ValidationPolicy) (sha256_hex : string -> string).
Notation validator := (validate packaged repo_text iter_errors policy sha256_hex).

Lemma validated key d report : json_wf (JDict d) = true -> validator key (JDict d) = Ok report -> ok report = true ->
  is_Some (dict_get key SCHEMA_FILES) /\ config_hash report = Some (hash_config sha256_hex (JDict d)) /\
  (forall p, ~ secret_at policy p (JDict d)) /\ live_in_production key (JDict d).
Proof.
  intros Hwf. unfold validate, mbind, result_bind.
  destruct (match dict_get key SCHEMA_FILES with Some _ => _ | None => _ end) as [se|] eqn:Hse; [|done].
  destruct (if key =? "environment_manifest/v1" then _ else _) as [ee|] eqn:Hee; [|done].
  intros [= <-]. cbn [ok config_hash]. rewrite bool_decide_eq_true, length_zero_iff_nil, !app_nil.
  intros (-> & Hsec & Hsv & ->). split_and!; [|done| |].
  - destruct (dict_get key SCHEMA_FILES); [by eexists|done].
  - intros p Hp. assert (Hin : issue (render "$" p) LITERAL_SECRET ∈ scan_secrets policy (JDict d) "$")
      by (apply scan_spec; [done|]; by exists p).
    assert (Hnil : scan_secrets policy (JDict d) "$" = []) by exact Hsec.
    rewrite Hnil in Hin. by apply elem_of_nil in Hin.
  - intros k Hk Hv%field_value. apply field_str. unfold live_field in Hk.
    destruct (key =? "service_manifest/v1").
    + injection Hk as <-. unfold validate_service_manifest in Hsv. rewrite !app_nil, !issue_if_nil in Hsv.
      destruct Hsv as (_ & _ & _ & _ & Hlive). rewrite Hv in Hlive. cbn in Hlive. by apply negb_false_iff, is_str_iff in Hlive.
    + destruct (key =? "environment_manifest/v1"); [|done]. injection Hk as <-.
      unfold validate_environment_manifest, mbind, result_bind in Hee. destruct (expected_trading_mode _ _) as [e|]; [|done].
      injection Hee as Hee. rewrite !app_nil, !issue_if_nil in Hee. destruct Hee as (_ & _ & _ & Hlive & _).
      rewrite Hv in Hlive. cbn in Hlive. by apply negb_false_iff, is_str_iff in Hlive.
Qed.

(** ** The registry *)
Context (jsonb : json -> json).
(** JSONB keeps the values, not the order of the keys. *)
Definition jsonb_law : Prop := forall j, json_wf j = true -> json_wf (jsonb j) = true /\ same_document (jsonb j) j.

(** What a stored document is: one that was validated, under its hash. *)
Definition document_ok (r : DocumentRow) : Prop :=
  exists d report, validator (dr_schema_key r) (JDict d) = Ok report /\ ok report = true /\
    same_document (dr_values r) (JDict d) /\ dr_config_hash r = hash_config sha256_hex (dr_values r) /\
    (forall p, ~ secret_at policy p (dr_values r)) /\ live_in_production (dr_schema_key r) (dr_values r).
Definition registry_ok (db : ConfigDb) : Prop :=
  forall n r, config_documents db !! n = Some r -> document_id r = n /\ document_ok r.

(** What a call may do to the documents: nothing but add some. *)
Definition grows (a b : AppState) : Prop := forall db, repository a = Some db ->
  exists db', repository b = Some db' /\ config_documents db `prefix_of` config_documents db'.
#[local] Instance grows_preorder : PreOrder grows.
Proof.
  split; [by intros s db Hdb; exists db|]. intros a b c Hab Hbc da Hda.
  destruct (Hab da Hda) as (db & Hdb & Hpre). destruct (Hbc db Hdb) as (dc & Hdc & Hpre'). exists dc. split; [done|by etrans].
Qed.
(** Statements that do not touch the documents. *)
Definition same_documents (a b : AppState) : Prop :=
  config_documents <$> repository b = config_documents <$> repository a.
#[local] Instance same_documents_preorder : PreOrder same_documents.
Proof. split; [by intros ?|by intros ? ? ? H1 H2; unfold same_documents in *; rewrite H2]. Qed.

Lemma same_grows a b : same_documents a b -> grows a b.
Proof.
  unfold same_documents. intros Hs da Hda. rewrite Hda in Hs. destruct (repository b) as [db|] eqn:Hdb; [|done].
  injection Hs as Hs. exists db. by rewrite Hs.
Qed.

Definition app_ok (s : AppState) : Prop := forall db, repository s = Some db -> registry_ok db.

Lemma app_ok_same a b : same_documents a b -> app_ok a -> app_ok b.
Proof.
  unfold same_documents. intros Hs Ha db Hdb n r Hr. rewrite Hdb in Hs. destruct (repository a) as [da|] eqn:Hda; [|done].
  injection Hs as Hs. rewrite Hs in Hr. by apply (Ha da Hda).
Qed.

Lemma within_on_db {A} (m : st ConfigDb string A) :
  (forall d, config_documents (m d).2 = config_documents d) -> st_within same_documents (on_db m).
Proof.
  intros Hm s r s'. unfold on_db, same_documents. destruct (repository s) as [d|] eqn:Hd; cycle 1.
  { intros [= <- <-]. by rewrite Hd. }
  specialize (Hm d). destruct (m d) as [x d']. intros [= <- <-]. cbn in *. by rewrite Hm.
Qed.
Lemma run_documents r d : config_documents (persist_validation_run r d).2 = config_documents d.
Proof. unfold persist_validation_run. by repeat case_match. Qed.
Lemma event_documents e d : config_documents (record_event e d).2 = config_documents d.
Proof. unfold record_event. by repeat case_match. Qed.

(** The document stored under an identifier. *)
Definition stored_at (s : AppState) (id : nat) (hash : string) (values : json) : Prop :=
  exists db r, repository s = Some db /\ config_documents db !! id = Some r /\ dr_config_hash r = hash /\ dr_values r = values.
Lemma stored_grows a b id hash values : grows a b -> stored_at a id hash values -> stored_at b id hash values.
Proof.
  intros Hg (da & r & Hda & Hr & Hh & Hv). destruct (Hg da Hda) as (db & Hdb & Hpre). exists db, r.
  split_and!; [done|by eapply prefix_lookup_Some|done..].
Qed.

Lemma persist_document_spec now key version service environment hash values by_whom s x s' :
  on_db (persist_document jsonb now key version service environment hash values by_whom) s = (x, s') -> app_ok s ->
  (forall r, dr_schema_key r = key -> dr_config_hash r = hash -> dr_values r = jsonb values -> document_ok r) ->
  app_ok s' /\ grows s s' /\ forall id, x = Ok id -> stored_at s' id hash (jsonb values).
Proof.
  intros Hrun Hok Hrow. unfold on_db, persist_document in Hrun. destruct (repository s) as [d|] eqn:Hd; cycle 1.
  { injection Hrun as <- <-. split_and!; [done..|by intros ?]. }
  assert (Hsame : forall e, (Err (DatabaseError e), {| repository := Some d; validations_total := validations_total s |}) = (x, s') ->
    app_ok s' /\ grows s s' /\ forall id, x = Ok id -> stored_at s' id hash (jsonb values)).
  { intros e [= <- <-]. assert (Hs : same_documents s {| repository := Some d; validations_total := validations_total s |})
      by (unfold same_documents; by rewrite Hd).
    split_and!; [by eapply app_ok_same|by apply same_grows|by intros ?]. }
  destruct (negb (not_blank key)); [by eapply Hsame|]. destruct (negb (not_blank version)); [by eapply Hsame|].
  destruct (negb (checksum_format hash)); [by eapply Hsame|]. clear Hsame. injection Hrun as <- <-. split_and!.
  - intros db [= <-] n r Hr. cbn in Hr. apply lookup_app_Some in Hr as [Hr|[Hn Hr]]; [by apply (Hok d)|].
    apply list_lookup_singleton_Some in Hr as [Hn' <-]. split; [cbn; lia|by apply Hrow].
  - intros db Hdb. eexists. split; [done|]. rewrite Hd in Hdb. injection Hdb as <-. by eexists.
  - intros id [= <-]. eexists _, _. split_and!; [done|apply list_lookup_middle; done|done|done].
Qed.

(** An outcome that stores nothing. *)
Lemma nothing_stored s s' {A} (x : result endpoint_exc A) (P : A -> Prop) : app_ok s -> same_documents s s' ->
  (forall a, x = Ok a -> P a) -> app_ok s' /\ grows s s' /\ forall a, x = Ok a -> P a.
Proof. intros Hok Hs HP. split_and!; [by eapply app_ok_same|by apply same_grows|done]. Qed.

Lemma store_spec now payload report s x s' : jsonb_law -> json_wf (JDict (document payload)) = true ->
  validator (rq_schema_key payload) (JDict (document payload)) = Ok report -> ok report = true -> app_ok s ->
  store_validated jsonb now payload report s = (x, s') ->
  app_ok s' /\ grows s s' /\
  forall id, x = Ok id -> stored_at s' id (default "" (config_hash report)) (jsonb (JDict (document payload))).
Proof.
  intros Hj Hwf Hv Hpass Hok Hrun. unfold store_validated in Hrun.
  rewrite st_bind_lift in Hrun. destruct (text_column _) as [service|e]; [|injection Hrun as <- <-; by apply nothing_stored].
  rewrite st_bind_lift in Hrun. destruct (text_column _) as [environment|e]; [|injection Hrun as <- <-; by apply nothing_stored].
  destruct (validated _ _ _ Hwf Hv Hpass) as (_ & Hhash & Hsec & Hlive). destruct (Hj _ Hwf) as [Hjwf Hsame].
  assert (Hrow : forall r, dr_schema_key r = rq_schema_key payload -> dr_config_hash r = default "" (config_hash report) ->
    dr_values r = jsonb (JDict (document payload)) -> document_ok r).
  { intros r Hkey Hh Hvals. exists (document payload), report. rewrite Hkey, Hh, Hvals, Hhash. split_and!; [done..| | |].
    - cbn. by apply same_hash; [| |symmetry].
    - intros p Hp. by apply (Hsec p), (same_secret _ _ _ _ Hsame).
    - intros k Hk Htrue. apply (same_scalar _ _ _ _ (symmetry Hsame) (str_scalar _)), (Hlive k Hk).
      by apply (same_scalar _ _ _ _ Hsame (bool_scalar _)). }
  st_inv Hrun as id s1 H1; apply persist_document_spec in H1 as (Hok1 & Hg1 & Hst1);
    [|done|done|by (split_and!; [done|done|intros ?])|done|done].
  assert (Htail : same_documents s1 s').
  { eapply (within_bind same_documents); [| |exact Hrun]; [apply within_on_db, run_documents|intros ?].
    apply (within_bind same_documents); [apply within_on_db, event_documents|intros _; apply within_ret, _]. }
  split_and!; [by eapply app_ok_same|etrans; [done|by apply same_grows]|].
  intros id' ->. st_inv Hrun as u s2 H2. st_inv Hrun as u' s3 H3. injection Hrun as -> ->.
  eapply stored_grows; [by apply same_grows|]. by apply Hst1.
Qed.

(** What the caller was told is so: the document is there, under the hash of the
    report. *)
Definition told (s : AppState) (payload : ValidateRequest) (x : result endpoint_exc Response) : Prop :=
  forall report id, x = Ok (Accepted report (Some id)) ->
    stored_at s id (default "" (config_hash report)) (jsonb (JDict (document payload))).

Lemma request_spec now payload s x s' : jsonb_law -> json_wf (JDict (document payload)) = true -> app_ok s ->
  validate_config jsonb validator now payload s = (x, s') -> app_ok s' /\ grows s s' /\ told s' payload x.
Proof.
  intros Hj Hwf Hok Hrun. unfold validate_config in Hrun. rewrite st_bind_lift in Hrun.
  assert (Hquiet : forall x' s1, same_documents s s1 -> (forall report id, x' = Ok (Accepted report (Some id)) -> False) ->
    app_ok s1 /\ grows s s1 /\ told s1 payload x').
  { intros x' s1 Hs Hx. split_and!; [by eapply app_ok_same|by apply same_grows|]. by intros report id ?%Hx. }
  destruct (validator _ _) as [report|e] eqn:Hv; cbn [map_err] in Hrun; cycle 1.
  { injection Hrun as <- <-. by apply Hquiet. }
  rewrite (st_bind_ok _ _ s tt {| repository := repository s; validations_total := validations_total s ++ [(rq_schema_key payload, ok report)] |})
    in Hrun by done.
  set (s1 := {| repository := repository s |}) in Hrun. rewrite st_bind_get in Hrun.
  assert (Hs1 : same_documents s s1) by done.
  destruct (ok report) eqn:Hpass; cbn [negb] in Hrun; cycle 1.
  { injection Hrun as <- <-. by apply Hquiet. }
  destruct (persist payload); [|injection Hrun as <- <-; by apply Hquiet].
  destruct (repository s1) as [d|] eqn:Hd; [|injection Hrun as <- <-; by apply Hquiet].
  apply st_bind_inv in Hrun as [(id & s2 & Hst & Hrun)|(e & Hst & ->)];
    apply (store_spec now payload report) in Hst as (Hok2 & Hg & Hst2); try done; try by eapply app_ok_same.
  injection Hrun as <- <-. split_and!; [done|by etrans; [apply same_grows|]|]. intros rep id' [= <- <-]. by apply Hst2.
Qed.

(** Requests, each with its time, served one after another. *)
Fixpoint serve (requests : list (Z * ValidateRequest)) (s : AppState) : list (result endpoint_exc Response) * AppState :=
  match requests with
  | [] => ([], s)
  | (now, payload) :: rest =>
      let '(x, s1) := validate_config jsonb validator now payload s in
      let '(xs, s2) := serve rest s1 in (x :: xs, s2)
  end.

Lemma serve_spec requests : jsonb_law -> Forall (fun c => json_wf (JDict (document c.2)) = true) requests ->
  forall s xs s', app_ok s -> serve requests s = (xs, s') ->
  app_ok s' /\ grows s s' /\ Forall2 (fun c x => told s' c.2 x) requests xs.
Proof.
  intros Hj Hwf. induction Hwf as [|[now payload] rest Hwf _ IH]; intros s xs s' Hok; cbn [serve].
  { intros [= <- <-]. split_and!; [done|reflexivity|constructor]. }
  destruct (validate_config _ _ _ _ _) as [x s1] eqn:Hx. destruct (serve rest s1) as [ys s2] eqn:Hys.
  intros [= <- <-]. apply request_spec in Hx as (Hok1 & Hg1 & Ht1); [|done..].
  destruct (IH s1 ys s2 Hok1 Hys) as (Hok2 & Hg2 & Ht2). split_and!; [done|by etrans|]. constructor; [|done].
  intros report id Heq. eapply stored_grows; [done|]. by apply Ht1.
Qed.

Lemma get_stored db n r : registry_ok db -> config_documents db !! n = Some r -> get_document n db = Some r.
Proof.
  intros Hok Hr. destruct (Hok n r Hr) as [Hid _]. unfold get_document.
  destruct (tbl_find _ _) as [r'|] eqn:Hf; cycle 1.
  { rewrite tbl_find_None in Hf. apply list_elem_of_lookup_2 in Hr. specialize (Hf r Hr). cbn in Hf.
    by rewrite Hid, Nat.eqb_refl in Hf. }
  apply tbl_find_elem in Hf as [(m & Hm)%list_elem_of_lookup_1 Hn%Nat.eqb_eq].
  destruct (Hok m r' Hm) as [Hid' _]. congruence.
Qed.
End Validated.

(** ** The promises *)

(** The hash of a configuration identifies its content: two documents with
    the same values at the same paths have one hash, whatever the order of their
    keys; and two documents of one hash have the same values at the same paths,
    unless SHA-256 gives one hash to two texts. *)
Theorem hash_is_content (sha256_hex : string -> string) (a b : json)
  (Ha : json_wf a = true) (Hb : json_wf b = true) :
  (same_document a b -> hash_config sha256_hex a = hash_config sha256_hex b) /\
  (hash_config sha256_hex a = hash_config sha256_hex b ->
   same_document a b \/ exists x y, x <> y /\ sha256_hex x = sha256_hex y).
Proof.
  split; [by apply same_hash|]. unfold hash_config. intros Hh.
  destruct (decide (canonical_json a = canonical_json b)) as [He|He]; [left|by right; exists (canonical_json a), (canonical_json b)].
  unfold canonical_json in He. apply dumps_inj in He; [|apply compact_sep|by apply canonical_wf..].
  rewrite !normalize_unsorted in He by done.
  rewrite <- (same_canonical a), <- (same_canonical b) by done. by rewrite He.
Qed.

(** The scan for secrets reports exactly the literal ones: a finding for
    each path that ends in the name of a secret, at any depth, whose value is
    text and no reference; its path is the one of the text, and nothing else is
    reported. *)
Theorem scan_finds_exactly (policy : ValidationPolicy) (document : json) (i : ValidationIssue)
  (Hwf : json_wf document = true) :
  i ∈ scan_secrets policy document "$" <->
  exists p, secret_at policy p document /\ i = issue (render "$" p) LITERAL_SECRET.
Proof. by apply scan_spec. Qed.

(** C29: Whatever requests are served from an empty registry, each document it
    holds is one that passed the validation of its schema key: its hash is the
    hash of the values the column keeps, no secret is written out in it, and it
    allows real money only for production.  [get_document] returns it under its
    identifier, and so does it for every identifier a caller was given, with the
    values that caller sent and the hash that caller was told. *)
Theorem stored_documents_valid (packaged repo_text : string -> option string)
  (iter_errors : json -> json -> list (list PathPart * string)) (policy : ValidationPolicy)
  (sha256_hex : string -> string) (jsonb : json -> json) (Hjsonb : jsonb_law jsonb)
  (requests : list (Z * ValidateRequest))
  (Hwf : Forall (fun c => json_wf (JDict (document c.2)) = true) requests)
  (s s' : AppState) (replies : list (result endpoint_exc Response)) (Hempty : repository s = Some no_configs)
  (Hserve : serve packaged repo_text iter_errors policy sha256_hex jsonb requests s = (replies, s')) :
  exists db, repository s' = Some db /\
    (forall n r, config_documents db !! n = Some r -> get_document n db = Some r /\
       document_ok packaged repo_text iter_errors policy sha256_hex r) /\
    Forall2 (fun c x => forall report id, x = Ok (Accepted report (Some id)) ->
      exists r, get_document id db = Some r /\ same_document (dr_values r) (JDict (document c.2)) /\
        dr_config_hash r = default "" (config_hash report)) requests replies.
Proof.
  apply serve_spec in Hserve as (Hok & Hgrows & Htold); [|done..|intros db; rewrite Hempty; by intros [= <-] ? ?].
  destruct (Hgrows no_configs Hempty) as (db & Hdb & _). exists db. split_and!; [done|intros n r Hr; split|].
  - eapply get_stored; [|done]. by apply Hok.
  - by apply (Hok db Hdb n r Hr).
  - rewrite list.Forall_forall in Hwf. apply Forall2_same_length_lookup.
    apply Forall2_same_length_lookup in Htold as [Hlen Htold]. split; [done|]. intros n c x Hc Hx report id Heq.
    destruct (Htold n c x Hc Hx report id Heq) as (db' & r & Hdb' & Hr & Hh & Hv).
    rewrite Hdb in Hdb'. injection Hdb' as <-. exists r. split_and!; [|rewrite Hv; apply Hjsonb|done].
    + eapply get_stored; [|done]. by apply Hok.
    + apply (Hwf c). by eapply list_elem_of_lookup_2.
Qed.

(** ** Examples *)

(** The policy of data/config/validation_policy.yaml. *)
Definition shipped_policy : ValidationPolicy := {|
  version := 1;
  secret_key_markers := ["password"; "secret"; "token"; "api_key"; "apikey"; "private_key"; "credential"; "access_key"];
  allowed_secret_reference_prefixes := ["env://"; "vault://"; "secret://"];
  environments := ["local"; "sandbox"; "paper"; "shadow"; "production"];
  planes := ["CONTROL"; "MARKET_DATA"; "TRADING"; "RISK"; "AI"; "DATA_RESEARCH"; "OBSERVABILITY"];
  fail_closed_policies := ["READ_ONLY"; "CANCEL_OPEN_ORDERS"; "HALT_TRADING"; "SHUTDOWN"];
  trading_mode_by_environment := [("local", "DEVELOPMENT"); ("sandbox", "SANDBOX"); ("paper", "PAPER");
    ("shadow", "SHADOW"); ("production", "PRODUCTION")];
  require_fail_closed_for := ["paper"; "shadow"; "production"] |}.

Definition sample_schema (f : string) : option string := Some "{}".
Definition no_errors (schema document : json) : list (list PathPart * string) := [].
Definition sample_hash (s : string) : string := if str_contains "TRADING" s then join "" (replicate 64 "a") else join "" (replicate 64 "b").
Definition manifest (plane password : string) : list (string * json) :=
  [("service_name", JStr "router"); ("schema_version", JStr "service_manifest/v1"); ("environment", JStr "paper");
   ("plane", JStr plane); ("fail_closed_policy", JStr "HALT_TRADING"); ("database", JDict [("password", JStr password)]);
   ("live_trading_allowed", JBool false)].
Definition sample_request (plane password actor : string) : Z * ValidateRequest :=
  (7%Z, {| rq_schema_key := "service_manifest/v1"; document := manifest plane password; persist := true; rq_actor := actor |}).
Definition sample_app : AppState := {| repository := Some no_configs; validations_total := [] |}.
Abbreviation sample_serve := (serve sample_schema sample_schema no_errors shipped_policy sample_hash (fun j => j)).

Lemma jsonb_identity : jsonb_law (fun j => j).
Proof. by intros j Hj. Qed.

(** Keys in another order, another value. *)
Lemma hash_is_content_witness :
  (same_document (JDict [("a", JNum 1); ("b", JNull)]) (JDict [("b", JNull); ("a", JNum 1)]) ->
   hash_config sample_hash (JDict [("a", JNum 1); ("b", JNull)]) = hash_config sample_hash (JDict [("b", JNull); ("a", JNum 1)])) /\
  (hash_config (fun s => s) (JDict [("a", JNum 1)]) = hash_config (fun s => s) (JDict [("a", JNum 2)]) ->
   same_document (JDict [("a", JNum 1)]) (JDict [("a", JNum 2)]) \/ exists x y : string, x <> y /\ x = y).
Proof.
  split; [apply (hash_is_content sample_hash)|apply (hash_is_content (fun s => s))]; vm_compute; reflexivity.
Defined.

Lemma scan_finds_exactly_witness :
  json_wf (JDict (manifest "RISK" "hunter2")) = true /\
  (issue "$.database.password" LITERAL_SECRET ∈ scan_secrets shipped_policy (JDict (manifest "RISK" "hunter2")) "$" <->
   exists p, secret_at shipped_policy p (JDict (manifest "RISK" "hunter2")) /\
     issue "$.database.password" LITERAL_SECRET = issue (render "$" p) LITERAL_SECRET).
Proof.
  assert (Hwf : json_wf (JDict (manifest "RISK" "hunter2")) = true) by (vm_compute; reflexivity).
  split; [exact Hwf|]. apply (scan_finds_exactly shipped_policy _ _ Hwf).
Defined.

(** Two documents are stored, one with a secret written out is not. *)
Lemma stored_documents_valid_witness :
  exists replies s' db,
    sample_serve [sample_request "TRADING" "env://PW" "ops"; sample_request "RISK" "hunter2" "ops";
                  sample_request "RISK" "vault://pw" "ops"] sample_app = (replies, s') /\
    repository s' = Some db /\ length (config_documents db) = 2%nat /\
    (forall n r, config_documents db !! n = Some r -> get_document n db = Some r /\
       document_ok sample_schema sample_schema no_errors shipped_policy sample_hash r).
Proof.
  set (requests := [_; _; _]).
  assert (Hwf : Forall (fun c => json_wf (JDict (document c.2)) = true) requests)
    by (repeat constructor; vm_compute; reflexivity).
  destruct (sample_serve requests sample_app) as [replies s'] eqn:Hserve. exists replies, s'.
  destruct (stored_documents_valid _ _ _ _ _ _ jsonb_identity requests Hwf sample_app s' replies eq_refl Hserve)
    as (db & Hdb & Hdocs & _).
  exists db. split; [reflexivity|]. split; [exact Hdb|]. split; [|exact Hdocs].
  assert (Hn : (fun d => length (config_documents d)) <$> repository (sample_serve requests sample_app).2 = Some 2%nat)
    by (vm_compute; reflexivity).
  rewrite Hserve in Hn. cbn in Hn. rewrite Hdb in Hn. injection Hn as Hn. exact Hn.
Defined.

(** ** What the validation lets through *)

(** Texts in a list under the name of a secret are not looked at. *)
Lemma listed_secrets_pass :
  scan_secrets shipped_policy (JDict [("api_tokens", JList [JStr "ghp_literal"])]) "$" = [].
Proof. by vm_compute. Qed.

(** With a blank actor the document and its run are stored, the event is refused,
    and the caller sees an error. *)
Lemma blank_actor_stores_without_event :
  exists s', validate_config (fun j => j) (validate sample_schema sample_schema no_errors shipped_policy sample_hash) 7
    (sample_request "RISK" "vault://pw" " ").2 sample_app = (Err (DatabaseError "config_events_actor_not_empty"), s') /\
  (fun d => (length (config_documents d), length (config_validation_runs d), length (config_events d))) <$> repository s'
    = Some (1, 1, 0)%nat.
Proof. eexists. split; vm_compute; reflexivity. Qed.

(** A list where the environment belongs ends the validation with a [TypeError],
    although the schema would have reported it. *)
Lemma unhashable_environment :
  validate sample_schema sample_schema no_errors shipped_policy sample_hash "environment_manifest/v1"
    (JDict [("environment", JList [])]) = Err (TypeError "unhashable type: 'list'").
Proof. by vm_compute. Qed.
