(* ===== verification/EnvConfig.v ===== *)
(** Environment configuration: [models.py], [loader.py] and [validator.py] of
    apexquant-env-config.

    [yaml.safe_load] and pydantic's reading of the fields of a manifest are
    parameters; the policy that runs on the fields read is the code's.

    The command of apexquant-env-config: [persistence.py] and [cli.py].

    The tables it writes are created by no migration of the repository: the
    database is the history of the statements committed to it, and a parameter
    says which statement it refuses. *)
From stdpp Require Import base strings list gmap sorting pretty numbers.
From Stdlib Require Import Ascii.
From S2P Require Import Prelude PyStr Json PyPath Yaml PolicyReport.

#[local] Open Scope string_scope.

(** ** models.py *)

Inductive EnvironmentName := LOCAL | SANDBOX | PAPER | SHADOW | PRODUCTION.
Inductive TradingMode := DEVELOPMENT_MODE | SANDBOX_MODE | PAPER_MODE | SHADOW_MODE | PRODUCTION_MODE.
Inductive LogLevel := DEBUG_LEVEL | INFO_LEVEL | WARNING_LEVEL | ERROR_LEVEL | CRITICAL_LEVEL.
Inductive PostgresSslMode := SSL_DISABLE | SSL_REQUIRE | SSL_VERIFY_CA | SSL_VERIFY_FULL.
Inductive KafkaSecurityProtocol := PLAINTEXT | SSL | SASL_PLAINTEXT | SASL_SSL.
#[export] Instance environment_name_eq_dec : EqDecision EnvironmentName.
Proof. solve_decision. Defined.
#[export] Instance trading_mode_eq_dec : EqDecision TradingMode.
Proof. solve_decision. Defined.
#[export] Instance ssl_mode_eq_dec : EqDecision PostgresSslMode.
Proof. solve_decision. Defined.
#[export] Instance security_protocol_eq_dec : EqDecision KafkaSecurityProtocol.
Proof. solve_decision. Defined.

Definition environment_value (e : EnvironmentName) : string :=
  match e with LOCAL => "local" | SANDBOX => "sandbox" | PAPER => "paper" | SHADOW => "shadow" | PRODUCTION => "production" end.
Definition mode_value (m : TradingMode) : string :=
  match m with DEVELOPMENT_MODE => "DEVELOPMENT" | SANDBOX_MODE => "SANDBOX" | PAPER_MODE => "PAPER"
             | SHADOW_MODE => "SHADOW" | PRODUCTION_MODE => "PRODUCTION" end.
Definition level_value (l : LogLevel) : string :=
  match l with DEBUG_LEVEL => "DEBUG" | INFO_LEVEL => "INFO" | WARNING_LEVEL => "WARNING" | ERROR_LEVEL => "ERROR"
             | CRITICAL_LEVEL => "CRITICAL" end.
Definition ssl_value (m : PostgresSslMode) : string :=
  match m with SSL_DISABLE => "disable" | SSL_REQUIRE => "require" | SSL_VERIFY_CA => "verify-ca"
             | SSL_VERIFY_FULL => "verify-full" end.
Definition protocol_value (p : KafkaSecurityProtocol) : string :=
  match p with PLAINTEXT => "PLAINTEXT" | SSL => "SSL" | SASL_PLAINTEXT => "SASL_PLAINTEXT" | SASL_SSL => "SASL_SSL" end.

Record PostgresConfig := {
  pg_host : string; pg_port : Z; database : string; user : string; password : string; ssl_mode : PostgresSslMode
}.
Record RedisConfig := { redis_host : string; redis_port : Z; database_index : Z }.
Record KafkaConfig := { bootstrap_servers : string; security_protocol : KafkaSecurityProtocol }.
Record ObjectStorageConfig := { endpoint : string; access_key : string; secret_key : string; secure : bool }.
Record InfrastructureConfig := {
  postgres : PostgresConfig; redis : RedisConfig; kafka : KafkaConfig; object_storage : ObjectStorageConfig
}.
Record ServiceFrameworkConfig := { enabled : bool; log_level : LogLevel; metrics_enabled : bool }.
Record EnvironmentManifest := {
  environment : EnvironmentName; display_name : string; trading_mode : TradingMode; live_capital_allowed : bool;
  fail_closed_default : bool; risk_enforcement_required : bool; ai_direct_execution_allowed : bool;
  observability_required : bool; networks : pydict string string; service_framework : ServiceFrameworkConfig;
  infrastructure : InfrastructureConfig
}.

Definition expected_mode (e : EnvironmentName) : TradingMode :=
  match e with LOCAL => DEVELOPMENT_MODE | SANDBOX => SANDBOX_MODE | PAPER => PAPER_MODE | SHADOW => SHADOW_MODE
             | PRODUCTION => PRODUCTION_MODE end.
Definition secured_environments : list EnvironmentName := [PAPER; SHADOW; PRODUCTION].
Definition required_networks : gset string := {["platform"; "data"; "observability"]}.

(** The first rule that is broken raises. *)
Definition enforce_environment_policy (m : EnvironmentManifest) : result string EnvironmentManifest :=
  let secured := bool_decide (environment m ∈ secured_environments) in
  if negb (bool_decide (trading_mode m = expected_mode (environment m)))
  then Err ("environment " ++ environment_value (environment m) ++ " must use trading mode "
              ++ mode_value (expected_mode (environment m)))
  else if live_capital_allowed m && negb (bool_decide (environment m = PRODUCTION))
  then Err "live capital is only permitted in production"
  else if ai_direct_execution_allowed m then Err "AI direct execution is forbidden"
  else if negb (risk_enforcement_required m) then Err "risk enforcement is required in every environment"
  else if negb (observability_required m) then Err "observability is required in every environment"
  else if negb (fail_closed_default m) && secured
  then Err "fail_closed_default must be true for critical environments"
  else if negb (bool_decide (list_to_set (dict_keys (networks m)) = required_networks))
  then Err "networks must define exactly platform, data, and observability"
  else if existsb (fun kv => str_empty (strip kv.2)) (networks m) then Err "network names must not be empty"
  else if secured && negb (bool_decide (ssl_mode (postgres (infrastructure m)) ∈ [SSL_REQUIRE; SSL_VERIFY_CA; SSL_VERIFY_FULL]))
  then Err "postgres SSL must be enabled for critical environments"
  else if secured && negb (bool_decide (security_protocol (kafka (infrastructure m)) ∈ [SSL; SASL_SSL]))
  then Err "Kafka must use TLS for critical environments"
  else if secured && negb (secure (object_storage (infrastructure m)))
  then Err "object storage must use secure transport for critical environments"
  else Ok m.

(** [manifest.model_dump(mode="json")] *)
Definition model_dump (m : EnvironmentManifest) : json :=
  let pg := postgres (infrastructure m) in
  let rd := redis (infrastructure m) in
  let kf := kafka (infrastructure m) in
  let os := object_storage (infrastructure m) in
  JDict
    [("environment", JStr (environment_value (environment m))); ("display_name", JStr (display_name m));
     ("trading_mode", JStr (mode_value (trading_mode m))); ("live_capital_allowed", JBool (live_capital_allowed m));
     ("fail_closed_default", JBool (fail_closed_default m));
     ("risk_enforcement_required", JBool (risk_enforcement_required m));
     ("ai_direct_execution_allowed", JBool (ai_direct_execution_allowed m));
     ("observability_required", JBool (observability_required m));
     ("networks", JDict (map (fun kv => (kv.1, JStr kv.2)) (networks m)));
     ("services", JDict [("service_framework", JDict
        [("enabled", JBool (enabled (service_framework m)));
         ("log_level", JStr (level_value (log_level (service_framework m))));
         ("metrics_enabled", JBool (metrics_enabled (service_framework m)))])]);
     ("infrastructure", JDict
        [("postgres", JDict [("host", JStr (pg_host pg)); ("port", JNum (pg_port pg)); ("database", JStr (database pg));
                             ("user", JStr (user pg)); ("password", JStr (password pg));
                             ("ssl_mode", JStr (ssl_value (ssl_mode pg)))]);
         ("redis", JDict [("host", JStr (redis_host rd)); ("port", JNum (redis_port rd));
                          ("database_index", JNum (database_index rd))]);
         ("kafka", JDict [("bootstrap_servers", JStr (bootstrap_servers kf));
                          ("security_protocol", JStr (protocol_value (security_protocol kf)))]);
         ("object_storage", JDict [("endpoint", JStr (endpoint os)); ("access_key", JStr (access_key os));
                                   ("secret_key", JStr (secret_key os)); ("secure", JBool (secure os))])])].

Record ConfigViolation := { code : string; severity : Severity; message : string; vpath : option string }.
Record ConfigValidationReport := {
  report_environment : string; manifest_path : string; started_at : Z; completed_at : Z; ok : bool; errors_count : nat;
  warnings_count : nat; required_env_vars : list string; violations : list ConfigViolation
}.

(** ** loader.py *)

(** [[A-Za-z_]] and [[A-Za-z0-9_]] *)
Definition name_start (c : ascii) : bool := is_upper c || is_lower c || (c =? "_")%char.
Definition name_char (c : ascii) : bool := is_alnum c || (c =? "_")%char.
(** The longest name at the start of a text, and what follows. *)
Fixpoint span_name (s : string) : string * string :=
  match s with
  | "" => ("", "")
  | String c s' => if name_char c then prod_map (String c) id (span_name s') else ("", s)
  end.
(** The match of [ENV_VAR_REFERENCE_PATTERN] behind a [$]. *)
Definition match_reference (s : string) : option string :=
  match s with
  | String "{" s' =>
      match span_name s' with
      | (String c n, String "}" _) => if name_start c then Some (String c n) else None
      | _ => None
      end
  | _ => None
  end.
(** [ENV_VAR_REFERENCE_PATTERN.findall(s)]: a match holds no [$] but its first
    character, so that the search may go on one character later. *)
Fixpoint find_references (s : string) : list string :=
  match s with
  | "" => []
  | String c s' =>
      match (if (c =? "$")%char then match_reference s' else None) with
      | Some n => n :: find_references s'
      | None => find_references s'
      end
  end.

Definition extract_required_env_vars (m : EnvironmentManifest) : list string :=
  py_sorted str_lt (elements (list_to_set (find_references (dumps plain (model_dump m))) : gset string)).

Inductive env_exc :=
| ManifestInvalid (errors : list (list string * string))  (* pydantic's ValidationError *)
| ManifestValueError (m : string)
| ManifestOtherError (m : string)  (* yaml.YAMLError and the like *)
| ManifestReadError (e : os_exc).

Section Load.
(** [safe_load] of a file's bytes, and the fields pydantic reads from a mapping,
    or its errors, each a place and a message. *)
Context (safe_load : string -> result env_exc yaml)
  (read_fields : list (yaml * yaml) -> result (list (list string * string)) EnvironmentManifest).

Definition model_validate (raw : list (yaml * yaml)) : result env_exc EnvironmentManifest :=
  m ← map_err ManifestInvalid (read_fields raw);
  map_err (fun e => ManifestInvalid [([], "Value error, " ++ e)]) (enforce_environment_policy m).

Definition load_manifest (p : Path) (fs : FileSystem) : result env_exc EnvironmentManifest :=
  text ← map_err ManifestReadError (read_bytes p fs);
  raw ← safe_load text;
  match raw with
  | YDict d => model_validate d
  | _ => Err (ManifestValueError "environment manifest must be a YAML mapping")
  end.

(** ** validator.py *)

Definition violation (c m : string) (p : option string) : ConfigViolation :=
  {| code := c; severity := ERROR; message := m; vpath := p |}.
Definition count_of (x : Severity) (l : list ConfigViolation) : nat :=
  length (filter (fun v => severity v = x) l).
Definition violation_if (c : bool) (v : ConfigViolation) : list ConfigViolation := if c then [v] else [].

Definition schema_violation (e : list string * string) : ConfigViolation :=
  let p := join "." e.1 in
  violation "SCHEMA_VALIDATION_FAILED" e.2 (if str_empty p then None else Some p).

Definition name_violation (m : EnvironmentManifest) (env : string) : list ConfigViolation :=
  violation_if (negb (environment_value (environment m) =? env))
    (violation "ENVIRONMENT_NAME_MISMATCH"
       ("manifest environment " ++ environment_value (environment m) ++ " does not match directory " ++ env)
       (Some "environment")).

Definition is_set (v : option string) : bool :=
  match v with Some t => negb (str_empty (strip t)) | None => false end.
(** [v is not None and v != t] *)
Definition differs (v : option string) (t : string) : bool :=
  match v with Some u => negb (u =? t) | None => false end.
Definition process_violations (m : EnvironmentManifest) (env : string) (observed : string -> option string)
    : list ConfigViolation :=
  (extract_required_env_vars m ≫= (fun v =>
     violation_if (negb (is_set (observed v)))
       (violation "REQUIRED_ENV_VAR_MISSING" ("required environment variable is missing: " ++ v) None)))
  ++ violation_if (differs (observed "APEX_ENVIRONMENT") env)
       (violation "APEX_ENVIRONMENT_MISMATCH" ("APEX_ENVIRONMENT=" ++ default "" (observed "APEX_ENVIRONMENT")
          ++ " does not match requested environment " ++ env) None)
  ++ violation_if (differs (observed "APEX_TRADING_MODE") (mode_value (trading_mode m)))
       (violation "APEX_TRADING_MODE_MISMATCH" ("APEX_TRADING_MODE=" ++ default "" (observed "APEX_TRADING_MODE")
          ++ " does not match manifest trading mode " ++ mode_value (trading_mode m)) None).

Definition manifest_file (root : Path) (env : string) : Path := path_div (path_div root env) "environment.yaml".

Definition failed_report (env : string) (p : Path) (start stop : Z) (vs : list ConfigViolation) : ConfigValidationReport :=
  {| report_environment := env; manifest_path := path_str p; started_at := start; completed_at := stop; ok := false;
     errors_count := length vs; warnings_count := 0; required_env_vars := []; violations := vs |}.

Definition validate_environment (root : Path) (env : string) (check_process_env : bool) (observed : string -> option string)
    (fs : FileSystem) (start stop : Z) : result env_exc ConfigValidationReport :=
  let p := manifest_file root env in
  if negb (path_exists p fs)
  then Ok (failed_report env p start stop [violation "MANIFEST_MISSING" ("missing manifest: " ++ path_str p) (Some (path_str p))])
  else
    match load_manifest p fs with
    | Err (ManifestInvalid errors) => Ok (failed_report env p start stop (schema_violation <$> errors))
    | Err (ManifestValueError e) => Ok (failed_report env p start stop [violation "INVALID_MANIFEST" e (Some (path_str p))])
    | Err e => Err e
    | Ok m =>
        let vs := (name_violation m env ++ if check_process_env then process_violations m env observed else [])%list in
        Ok {| report_environment := env; manifest_path := path_str p; started_at := start; completed_at := stop;
              ok := (count_of ERROR vs =? 0)%nat; errors_count := count_of ERROR vs; warnings_count := count_of WARNING vs;
              required_env_vars := extract_required_env_vars m; violations := vs |}
    end.
End Load.

(** * The table and the commands *)

(** ** persistence.py *)

Inductive Statement :=
| InsertEnvironment (m : EnvironmentManifest)  (* on conflict, all but the name is updated *)
| InsertRun (run : nat) (r : ConfigValidationReport)
| InsertViolation (run : nat) (v : ConfigViolation).

Record Connection := { committed : list Statement; pending : list Statement }.

(** What the environment gives to the command. *)
Record Args := {
  environments_root : Path; environment_arg : option string; validate_all : bool; check_env : bool; has_database : bool;
  output_json : bool
}.
Inductive main_exc := Uncaught (e : env_exc) | DatabaseError (m : string).
Inductive MainExit := Code (n : Z) | Raised (e : main_exc).

Section Main.
Context (safe_load : string -> result env_exc yaml)
  (read_fields : list (yaml * yaml) -> result (list (list string * string)) EnvironmentManifest)
  (refuses : list Statement -> Statement -> option string)
  (dump_reports : list ConfigValidationReport -> string).

Definition execute (q : Statement) : st Connection main_exc unit := fun c =>
  match refuses (committed c ++ pending c)%list q with
  | Some e => (Err (DatabaseError e), c)
  | None => (Ok tt, {| committed := committed c; pending := (pending c ++ [q])%list |})
  end.
Definition commit : st Connection main_exc unit := fun c =>
  (Ok tt, {| committed := (committed c ++ pending c)%list; pending := [] |}).

Definition register_environment (m : EnvironmentManifest) : st Connection main_exc unit :=
  execute (InsertEnvironment m) ≫= fun _ => commit.
Definition persist_validation_report (run : nat) (r : ConfigValidationReport) : st Connection main_exc unit :=
  execute (InsertRun run r) ≫= fun _ =>
  for_each (fun v => execute (InsertViolation run v)) (violations r) ≫= fun _ =>
  commit.

(** [with psycopg.connect(url) as connection]: commits at the end, rolls back on
    an exception. *)
Definition with_connection (m : st Connection main_exc unit) : st (list Statement) main_exc unit := fun h =>
  match m {| committed := h; pending := [] |} with
  | (Ok _, c) => (Ok tt, (committed c ++ pending c)%list)
  | (Err e, c) => (Err e, committed c)
  end.

(** ** cli.py *)

Context (fs : FileSystem) (observed : string -> option string) (now : nat -> Z) (args : Args).

(** The environment at a position of the list: its report, stored with the
    manifest it accepts. *)
Definition check_environment (index : nat) (env : string) : st (list Statement) main_exc ConfigValidationReport :=
  report ← lift (map_err Uncaught (validate_environment safe_load read_fields (environments_root args) env (check_env args)
                   observed fs (now (2 * index)%nat) (now (2 * index + 1)%nat)));
  (if has_database args then
     with_connection (
       persist_validation_report index report ≫= fun _ =>
       if ok report then
         m ← lift (map_err Uncaught (load_manifest safe_load read_fields (path_of (manifest_path report)) fs));
         register_environment m
       else mret tt)
   else mret tt) ≫= fun _ =>
  mret report.

Fixpoint check_environments (index : nat) (names : list string) : st (list Statement) main_exc (list ConfigValidationReport) :=
  match names with
  | [] => mret []
  | env :: names' =>
      r ← check_environment index env;
      rs ← check_environments (S index) names';
      mret (r :: rs)
  end.

Definition environment_names : list string :=
  filter (fun n => is_dir (path_div (environments_root args) n) fs = true /\
                   path_exists (manifest_file (environments_root args) n) fs = true)
    (iterdir (environments_root args) fs).

Definition violation_line (v : ConfigViolation) : string :=
  "  " ++ severity_value (severity v) ++ " " ++ code v
  ++ (match vpath v with Some p => if str_empty p then "" else " path=" ++ p | None => "" end) ++ ": " ++ message v.
Definition report_lines (r : ConfigValidationReport) : list string :=
  ("environment=" ++ report_environment r ++ " status=" ++ (if ok r then "PASSED" else "FAILED")
    ++ " errors=" ++ pretty (Z.of_nat (errors_count r)) ++ " warnings=" ++ pretty (Z.of_nat (warnings_count r)))
  :: (violation_line <$> violations r).

(** What the command prints, how it ends, and the statements committed. *)
Definition main (h : list Statement) : list string * MainExit * list Statement :=
  if negb (path_exists (environments_root args) fs)
  then (["environments root does not exist: " ++ path_str (environments_root args)], Code 2, h)
  else if negb (validate_all args) && str_empty (default "" (environment_arg args))
  then (["either --environment or --all is required"], Code 2, h)
  else if validate_all args && negb (is_dir (environments_root args) fs)
  then ([], Raised (Uncaught (ManifestReadError (NotADirectoryError (path_str (environments_root args))))), h)
  else
    let names := if validate_all args then environment_names else [default "" (environment_arg args)] in
    match names with
    | [] => (["no environments found under " ++ path_str (environments_root args)], Code 2, h)
    | _ =>
        match check_environments 0 names h with
        | (Ok reports, h') =>
            (if output_json args then [dump_reports reports] else reports ≫= report_lines,
             Code (if forallb ok reports then 0 else 1), h')
        | (Err e, h') => ([], Raised e, h')
        end
    end.
End Main.
