(* ===== verification/EnvProps.v ===== *)
(** Which variables a manifest needs, which environments pass and what the
    command registers. *)
From stdpp Require Import base strings list gmap sorting pretty numbers.
From Stdlib Require Import Ascii.
From S2P Require Import Prelude PyStr Json PyPath Yaml PolicyReport EnvConfig.

#[local] Open Scope string_scope.

(** ** References *)

(** A name a reference may hold. *)
Definition reference_name (v : string) : Prop :=
  str_forall name_char v = true /\ exists c n, v = String c n /\ name_start c = true.
Definition reference (v : string) : string := "${" ++ v ++ "}".

Lemma span_name_spec s : exists r, s = (span_name s).1 ++ r /\ (span_name s).2 = r /\
  str_forall name_char (span_name s).1 = true /\ (forall c r', r = String c r' -> name_char c = false).
Proof.
  induction s as [|c s (r & Hs & Hr & Hall & Hend)]; [by exists ""|]. cbn. destruct (name_char c) eqn:Hc.
  - exists r. destruct (span_name s) as [a b]. cbn in *. rewrite Hc. subst. by split_and!.
  - exists (String c s). split_and!; [done..|]. by intros c' r' [= <- _].
Qed.

Lemma span_name_app n c r : str_forall name_char n = true -> name_char c = false ->
  span_name (n ++ String c r) = (n, String c r).
Proof.
  intros Hn Hc. induction n as [|x n IH]; cbn in *; [by rewrite Hc|].
  apply andb_true_iff in Hn as [Hx Hn]. by rewrite Hx, IH.
Qed.

Lemma match_reference_iff s v : match_reference s = Some v <-> reference_name v /\ exists r, s = "{" ++ v ++ "}" ++ r.
Proof.
  split.
  - unfold match_reference. destruct s as [|c s]; [done|].
    destruct (ascii_dec c "{") as [->|Hc]; [|by destruct c as [[] [] [] [] [] [] [] []]].
    destruct (span_name_spec s) as (r & Hs & Hr & Hall & _). destruct (span_name s) as [[|x n] t]; [done|]. cbn in Hs, Hr, Hall.
    destruct t as [|d t]; [done|]. intros Hm.
    assert (d = "}"%char /\ name_start x = true /\ v = String x n) as (-> & Hx & ->).
    { destruct d as [[] [] [] [] [] [] [] []]; try done; destruct (name_start x); by inversion Hm. }
    split; [split; [done|by eauto]|]. exists t. by rewrite Hs, <- Hr.
  - intros ((Hall & x & n & -> & Hx) & r & ->). cbn [match_reference String.append].
    change (String x (n ++ String "}" r)) with ((String x n) ++ String "}" r).
    rewrite span_name_app by done. cbn [name_start]. by rewrite Hx.
Qed.

Lemma find_references_elem s v : v ∈ find_references s <-> reference_name v /\ infix (reference v) s.
Proof.
  assert (Hne : forall v, ~ infix (reference v) "").
  { intros v' (a & b & H). destruct a; discriminate H. }
  induction s as [|c s IH]; [split; [by intros ?%elem_of_nil|by intros (_ & ?%Hne)]|].
  assert (Hstep : infix (reference v) (String c s) <-> (c = "$"%char /\ exists r, s = "{" ++ v ++ "}" ++ r) \/ infix (reference v) s).
  { split.
    - intros (a & b & H). destruct a as [|x a]; injection H as Hc H; [left|right; by exists a, b].
      split; [done|]. exists b. rewrite H, str_app_assoc. done.
    - intros [[-> [r ->]]|H]; [exists "", r; cbn; by rewrite str_app_assoc|by apply (infix_app_l _ (String c ""))]. }
  rewrite Hstep. cbn [find_references]. destruct (Ascii.eqb_spec c "$") as [->|Hc].
  - destruct (match_reference s) as [n|] eqn:Hm.
    + rewrite elem_of_cons, IH. apply match_reference_iff in Hm as [Hn [r Hs]]. split.
      * intros [->|[Hv Hi]]; [split; [done|left; split; [done|by exists r]]|split; [done|by right]].
      * intros [Hv [[_ [r' Hr]]|Hi]]; [left|by right].
        assert (Hmv : match_reference s = Some v) by (apply match_reference_iff; eauto).
        assert (Hmn : match_reference s = Some n) by (apply match_reference_iff; eauto). congruence.
    + rewrite IH. split; [intros [? ?]; split; [done|by right]|]. intros [Hv [[_ [r Hr]]|Hi]]; [|done].
      assert (Hmv : match_reference s = Some v) by (apply match_reference_iff; eauto). congruence.
  - rewrite IH. split; [intros [? ?]; split; [done|by right]|]. by intros [Hv [[-> _]|Hi]].
Qed.

(** A text without [$] holds no reference, and begins none. *)
Lemma find_no_dollar s t : no_char "$" s -> find_references (s ++ t) = find_references t.
Proof.
  induction s as [|c s IH]; [done|]. intros [Hc Hs]%no_char_cons. cbn [String.append find_references].
  destruct (Ascii.eqb_spec c "$"); [done|]. by apply IH.
Qed.

Lemma match_at_quote s t : match_reference (s ++ String dquote t) = match_reference s.
Proof.
  apply option_eq. intros v. rewrite !match_reference_iff.
  assert (Hq : forall v r, str_forall name_char v = true -> s ++ String dquote t = "{" ++ v ++ "}" ++ r ->
    exists r', s = "{" ++ v ++ "}" ++ r').
  { intros w r Hw He. destruct s as [|c s]; [done|]. injection He as -> He. cbn.
    assert (Hgo : forall s, s ++ String dquote t = w ++ String "}" r -> exists r', s = w ++ String "}" r').
    { clear s He. induction w as [|x w IH]; intros s He; destruct s as [|y s].
      - done.
      - injection He as -> He. by exists s.
      - injection He as <- _. done.
      - injection He as -> He. cbn in Hw. apply andb_true_iff in Hw as [_ Hw]. destruct (IH Hw s He) as [r' ->]. by exists r'. }
    destruct (Hgo s He) as [r' ->]. by exists r'. }
  split; intros [Hv [r Hr]]; (split; [done|]).
  - by apply (Hq v r (proj1 Hv)).
  - exists (r ++ String dquote t). subst s. cbn. f_equal. rewrite str_app_assoc. done.
Qed.

Lemma find_at_quote s t : find_references (s ++ String dquote t) = (find_references s ++ find_references t)%list.
Proof.
  induction s as [|c s IH]; [done|]. cbn [String.append find_references]. rewrite match_at_quote, IH. by case_match.
Qed.

(** The escapes of JSON neither hide nor make references. *)
Lemma escape_char_cases c : escape_char c = String c "" \/
  (name_char c = false /\ c <> "$"%char /\ c <> "{"%char /\ c <> "}"%char /\
   exists x, escape_char c = String backslash x /\ no_char "$" x).
Proof.
  assert (Hb : forall x, str_forall (fun d => negb (d =? "$")%char) x = true -> no_char "$" x)
    by (intros x Hx; by eapply no_char_forall, Hx).
  destruct c as [[] [] [] [] [] [] [] []];
    first [by left | right; split_and!; [done..|]; eexists; (split; [reflexivity|]); apply Hb; reflexivity].
Qed.

Lemma match_escape s : match_reference (escape s) = match_reference s.
Proof.
  apply option_eq. intros v. rewrite !match_reference_iff.
  assert (Hgo : forall w, str_forall name_char w = true -> forall s,
    (exists r, escape s = w ++ String "}" r) <-> (exists r, s = w ++ String "}" r)).
  { clear s. intros w. induction w as [|x w IH]; intros Hw s; (destruct s as [|c s]; [split; by intros [r Hr]|]); cbn in *.
    - destruct (escape_char_cases c) as [->|(_ & _ & _ & Hc & y & -> & _)]; cbn.
      + split; intros [r [= -> Hr]]; by eexists.
      + split; intros [r Hr]; injection Hr as Hb _; [by vm_compute in Hb|done].
    - apply andb_true_iff in Hw as [Hx Hw]. destruct (escape_char_cases c) as [->|(Hn & _ & _ & _ & y & -> & _)]; cbn.
      + split; intros [r [= -> Hr]]; [destruct (proj1 (IH Hw s)) as [r' ->]|destruct (proj2 (IH Hw s)) as [r' ->]]; by eauto.
      + split; intros [r Hr]; injection Hr as Hb _; subst; [by vm_compute in Hx|congruence]. }
  assert (Hopen : forall w, str_forall name_char w = true ->
    (exists r, escape s = "{" ++ w ++ "}" ++ r) <-> (exists r, s = "{" ++ w ++ "}" ++ r)).
  { intros w Hw. destruct s as [|c s]; [split; by intros [r Hr]|]. cbn.
    destruct (escape_char_cases c) as [->|(_ & _ & Hc & _ & y & -> & _)]; cbn.
    - split; intros [r [= -> Hr]]; [destruct (proj1 (Hgo w Hw s)) as [r' ->]|destruct (proj2 (Hgo w Hw s)) as [r' ->]]; by eauto.
    - split; intros [r Hr]; injection Hr as Hb _; [by vm_compute in Hb|done]. }
  split; intros [Hv Hr]; (split; [done|]); by apply (Hopen v (proj1 Hv)).
Qed.

Lemma find_escape s : find_references (escape s) = find_references s.
Proof.
  induction s as [|c s IH]; [done|]. cbn [escape].
  destruct (escape_char_cases c) as [->|(_ & Hc & _ & _ & x & -> & Hx)].
  - cbn [String.append find_references]. by rewrite match_escape, IH.
  - change (String backslash x ++ escape s) with ((String backslash x) ++ escape s).
    rewrite find_no_dollar; [|by apply no_char_cons]. cbn [find_references]. destruct (Ascii.eqb_spec c "$"); [done|]. exact IH.
Qed.

(** The texts of a value: its strings and the keys of its dicts. *)
Fixpoint json_strings (j : json) : list string :=
  match j with
  | JStr s => [s]
  | JList l => concat (map json_strings l)
  | JDict d => concat (map (fun kv => kv.1 :: json_strings kv.2) d)
  | _ => []
  end.
Definition references_of (l : list string) : list string := concat (map find_references l).

Lemma references_app l l' : references_of (l ++ l') = (references_of l ++ references_of l')%list.
Proof. unfold references_of. by rewrite map_app, concat_app. Qed.

Lemma references_concat {A} (f : A -> list string) l :
  references_of (concat (map f l)) = concat (map (fun x => references_of (f x)) l).
Proof. induction l as [|x l IH]; [done|]. cbn [map concat]. by rewrite references_app, IH. Qed.

Lemma find_dumps_str s t : find_references (dumps_str s ++ t) = (find_references s ++ find_references t)%list.
Proof.
  unfold dumps_str. cbn [String.append find_references]. change ((dquote =? "$")%char) with false. cbn iota.
  rewrite str_app_assoc. cbn [String.append]. by rewrite find_at_quote, find_escape.
Qed.

Lemma find_join {A} (text : A -> string) (refs : A -> list string) sep (l : list A) t : no_char "$" sep ->
  Forall (fun x => forall t, find_references (text x ++ t) = (refs x ++ find_references t)%list) l ->
  find_references (join sep (map text l) ++ t) = (concat (map refs l) ++ find_references t)%list.
Proof.
  intros Hsep Hl. induction Hl as [|x l Hx Hl IH]; [done|]. cbn [map concat]. destruct l as [|y l].
  - cbn. by rewrite Hx, app_nil_r.
  - change (join sep (text x :: map text (y :: l))) with (text x ++ sep ++ join sep (map text (y :: l))).
    rewrite !str_app_assoc, Hx, find_no_dollar by done. rewrite IH. by rewrite app_assoc.
Qed.

Lemma no_dollar_pretty (z : Z) : no_char "$" (pretty z).
Proof.
  destruct z as [|p|p].
  - by apply (no_char_forall is_digit).
  - apply (no_char_forall is_digit); [done|]. apply (pretty_dec (N.pos p)).
  - change (pretty (Z.neg p)) with (String "-" (pretty (N.pos p))). apply no_char_cons. split; [done|].
    apply (no_char_forall is_digit); [done|]. apply pretty_dec.
Qed.

Lemma find_dumps j : forall t, find_references (dumps plain j ++ t) = (references_of (json_strings j) ++ find_references t)%list.
Proof.
  induction j as [|b|z|s|l IH|d IH] using json_induction; intros t.
  - done.
  - by destruct b.
  - cbn [dumps json_strings]. by rewrite find_no_dollar by apply no_dollar_pretty.
  - cbn [dumps json_strings]. rewrite find_dumps_str. unfold references_of. cbn. by rewrite app_nil_r.
  - cbn [dumps json_strings]. change (("[" ++ join (item_separator plain) (map (dumps plain) l) ++ "]") ++ t)
      with (String "[" ((join ", " (map (dumps plain) l) ++ "]") ++ t)).
    cbn [find_references]. change (("[" =? "$")%char) with false. cbn iota. rewrite str_app_assoc.
    rewrite (find_join _ (fun j => references_of (json_strings j))); [|done|done].
    cbn [String.append find_references]. change (("]" =? "$")%char) with false. cbn iota. f_equal.
    by rewrite references_concat.
  - cbn [dumps json_strings]. change (in_order plain ?l) with l. rewrite map_map.
    change (("{" ++ join (item_separator plain) ?m ++ "}") ++ t) with (String "{" ((join ", " m ++ "}") ++ t)).
    cbn [find_references]. change (("{" =? "$")%char) with false. cbn iota. rewrite str_app_assoc.
    rewrite (find_join _ (fun kv => references_of (kv.1 :: json_strings kv.2))); [|done|].
    + cbn [String.append find_references]. change (("}" =? "$")%char) with false. cbn iota. f_equal.
      by rewrite references_concat.
    + eapply list.Forall_impl; [exact IH|]. intros [k v] Hv t'. cbn [fst snd] in *. unfold dumps_member. cbn [fst snd].
      rewrite !str_app_assoc, find_dumps_str. change (key_separator plain) with ": ". rewrite find_no_dollar by done.
      rewrite Hv. unfold references_of. cbn. by rewrite app_assoc.
Qed.

(** ** The variables of a manifest *)

(** The texts a manifest is free to choose. *)
Definition settings (m : EnvironmentManifest) : list string :=
  let i := infrastructure m in
  [display_name m] ++ (networks m ≫= fun kv => [kv.1; kv.2])
  ++ [pg_host (postgres i); database (postgres i); user (postgres i); password (postgres i); redis_host (redis i);
      bootstrap_servers (kafka i); endpoint (object_storage i); access_key (object_storage i); secret_key (object_storage i)].

Lemma references_nil_head s l : find_references s = [] -> references_of (s :: l) = references_of l.
Proof. intros H. unfold references_of. cbn. by rewrite H. Qed.

Lemma references_cons s l : references_of (s :: l) = (find_references s ++ references_of l)%list.
Proof. done. Qed.

Lemma network_strings (d : pydict string string) :
  concat (map (fun kv => kv.1 :: json_strings kv.2) (map (fun kv => (kv.1, JStr kv.2)) d)) = d ≫= fun kv => [kv.1; kv.2].
Proof. induction d as [|[k v] d IH]; [done|]. cbn. by rewrite IH. Qed.

Lemma dump_references m : references_of (json_strings (model_dump m)) = references_of (settings m).
Proof.
  unfold model_dump, settings. cbn [json_strings map concat fst snd]. rewrite network_strings.
  generalize (networks m ≫= fun kv => [kv.1; kv.2]). intros nets. cbn [app].
  repeat first [rewrite references_cons | rewrite references_app].
  assert (He : forall e, find_references (environment_value e) = []) by by intros [].
  assert (Hm : forall e, find_references (mode_value e) = []) by by intros [].
  assert (Hl : forall e, find_references (level_value e) = []) by by intros [].
  assert (Hs : forall e, find_references (ssl_value e) = []) by by intros [].
  assert (Hp : forall e, find_references (protocol_value e) = []) by by intros [].
  rewrite He, Hm, Hl, Hs, Hp. cbn [find_references Ascii.eqb Bool.eqb app]. done.
Qed.

Lemma required_elem m v : v ∈ extract_required_env_vars m <->
  reference_name v /\ exists s, s ∈ settings m /\ infix (reference v) s.
Proof.
  unfold extract_required_env_vars. rewrite py_sorted_perm, elem_of_elements, elem_of_list_to_set.
  rewrite <- (str_app_nil_r (dumps plain (model_dump m))), find_dumps, dump_references. cbn [find_references].
  rewrite app_nil_r. unfold references_of. rewrite elem_of_concat_map. setoid_rewrite find_references_elem. naive_solver.
Qed.

(** ** The policy *)

Record manifest_safe (m : EnvironmentManifest) : Prop := {
  safe_mode : trading_mode m = expected_mode (environment m);
  safe_live : live_capital_allowed m = true -> environment m = PRODUCTION;
  safe_ai : ai_direct_execution_allowed m = false;
  safe_risk : risk_enforcement_required m = true;
  safe_observability : observability_required m = true;
  safe_networks : forall n, n ∈ dict_keys (networks m) <-> n = "platform" \/ n = "data" \/ n = "observability";
  safe_names : forall n v, (n, v) ∈ networks m -> strip v <> "";
  safe_secured : environment m ∈ [PAPER; SHADOW; PRODUCTION] ->
    fail_closed_default m = true /\ ssl_mode (postgres (infrastructure m)) <> SSL_DISABLE /\
    (security_protocol (kafka (infrastructure m)) = SSL \/ security_protocol (kafka (infrastructure m)) = SASL_SSL) /\
    secure (object_storage (infrastructure m)) = true
}.

Lemma networks_iff m : list_to_set (dict_keys (networks m)) = required_networks <->
  forall n, n ∈ dict_keys (networks m) <-> n = "platform" \/ n = "data" \/ n = "observability".
Proof.
  unfold required_networks. rewrite set_eq. setoid_rewrite elem_of_list_to_set. split; intros H n; rewrite (H n); set_solver.
Qed.

Lemma else_ok {E A} (c : bool) (e : E) (r : result E A) a : (if c then Err e else r) = Ok a <-> c = false /\ r = Ok a.
Proof. destruct c; naive_solver. Qed.

Lemma policy_ok m m' : enforce_environment_policy m = Ok m' <-> m' = m /\ manifest_safe m.
Proof.
  unfold enforce_environment_policy. cbv zeta. rewrite !else_ok.
  set (secured := bool_decide (environment m ∈ secured_environments)).
  assert (Hsec : secured = true <-> environment m ∈ [PAPER; SHADOW; PRODUCTION]) by (subst secured; apply bool_decide_eq_true).
  rewrite !andb_false_iff, !negb_false_iff, !bool_decide_eq_true, networks_iff.
  assert (Hnames : existsb (fun kv => str_empty (strip kv.2)) (networks m) = false <-> forall n v, (n, v) ∈ networks m -> strip v <> "").
  { rewrite <- not_true_iff_false, existsb_elem. split.
    - intros H n v Hin He. apply H. exists (n, v). cbn [snd]. by rewrite He.
    - intros H ([n v] & Hin & He). apply (H n v Hin). cbn [fst snd] in He. revert He. by destruct (strip v). }
  rewrite Hnames.
  assert (Hssl : ssl_mode (postgres (infrastructure m)) ∈ [SSL_REQUIRE; SSL_VERIFY_CA; SSL_VERIFY_FULL] <->
                 ssl_mode (postgres (infrastructure m)) <> SSL_DISABLE).
  { rewrite !elem_of_cons, elem_of_nil. destruct (ssl_mode _); naive_solver. }
  rewrite Hssl.
  assert (Htls : security_protocol (kafka (infrastructure m)) ∈ [SSL; SASL_SSL] <->
                 security_protocol (kafka (infrastructure m)) = SSL \/ security_protocol (kafka (infrastructure m)) = SASL_SSL).
  { rewrite !elem_of_cons, elem_of_nil. naive_solver. }
  rewrite Htls. clear Hssl Htls Hnames. clearbody secured. split.
  - intros (H1 & H2 & H3 & H4 & H5 & H6 & H7 & H8 & H9 & H10 & H11 & [= ->]). split; [done|].
    split; try done.
    + by destruct H2 as [->|].
    + intros Hs%Hsec. subst secured. split_and!; [by destruct H6|by destruct H9|by destruct H10|by destruct H11].
  - intros [-> [H1 H2 H3 H4 H5 H6 H7 H8]]. split_and!; try done.
    + destruct (live_capital_allowed m); [right; by apply H2|by left].
    + destruct secured; [left; by apply H8, Hsec|by right].
    + destruct secured; [right; by apply H8, Hsec|by left].
    + destruct secured; [right; by apply H8, Hsec|by left].
    + destruct secured; [right; by apply H8, Hsec|by left].
Qed.

(** ** Environments *)

Section Environments.
Context (safe_load : string -> result env_exc yaml)
  (read_fields : list (yaml * yaml) -> result (list (list string * string)) EnvironmentManifest).
Context (observed : string -> option string).

(** A manifest in a file: its fields as pydantic reads them, within the policy. *)
Definition manifest_at (p : Path) (fs : FileSystem) (m : EnvironmentManifest) : Prop :=
  exists text d, read_bytes p fs = Ok text /\ safe_load text = Ok (YDict d) /\ read_fields d = Ok m /\ manifest_safe m.

(** The process has what the manifest asks for, and is not set up for another
    environment. *)
Definition process_fits (m : EnvironmentManifest) (env : string) : Prop :=
  (forall v, reference_name v -> (exists s, s ∈ settings m /\ infix (reference v) s) ->
     exists t, observed v = Some t /\ strip t <> "") /\
  (forall t, observed "APEX_ENVIRONMENT" = Some t -> t = env) /\
  (forall t, observed "APEX_TRADING_MODE" = Some t -> t = mode_value (trading_mode m)).

(** An environment that passes, with its manifest. *)
Definition passes (root : Path) (env : string) (check : bool) (fs : FileSystem) (m : EnvironmentManifest) : Prop :=
  manifest_at (manifest_file root env) fs m /\ environment_value (environment m) = env /\
  (check = true -> process_fits m env).

Lemma load_ok p fs m : load_manifest safe_load read_fields p fs = Ok m <-> manifest_at p fs m.
Proof.
  unfold load_manifest, manifest_at, model_validate, mbind, result_bind. split.
  - destruct (read_bytes p fs) as [text|] eqn:Hr; [|done]. cbn [map_err].
    destruct (safe_load text) as [raw|] eqn:Hs; [|done]. destruct raw as [| | | | | |d]; try done.
    destruct (read_fields d) as [m0|] eqn:Hf; [|done]. cbn [map_err].
    destruct (enforce_environment_policy m0) as [m1|] eqn:He; [|done]. intros [= ->].
    apply policy_ok in He as [-> Hsafe]. by exists text, d.
  - intros (text & d & -> & Hs & Hf & Hsafe). cbn [map_err]. rewrite Hs, Hf. cbn [map_err].
    by rewrite (proj2 (policy_ok m m)).
Qed.

Lemma read_exists p fs text : read_bytes p fs = Ok text -> path_exists p fs = true.
Proof.
  unfold read_bytes, path_exists, is_file. destruct (files fs !! p) as [b|]; [done|]. by repeat case_match.
Qed.

Lemma violation_if_nil c v : violation_if c v = [] <-> c = false.
Proof. by destruct c. Qed.

Lemma is_set_iff v : is_set v = true <-> exists t, v = Some t /\ strip t <> "".
Proof.
  unfold is_set. destruct v as [t|]; [|naive_solver]. split.
  - intros H. exists t. split; [done|]. by destruct (strip t).
  - intros (u & [= <-] & Hu). by destruct (strip t).
Qed.
Lemma differs_iff v t : differs v t = false <-> forall u, v = Some u -> u = t.
Proof.
  unfold differs. destruct v as [u|]; [|naive_solver]. rewrite negb_false_iff, String.eqb_eq. naive_solver.
Qed.

Lemma process_ok m env : process_violations m env observed = [] <-> process_fits m env.
Proof.
  unfold process_violations, process_fits. rewrite !app_nil, !violation_if_nil, !differs_iff.
  assert (Hvars : (extract_required_env_vars m ≫= (fun v => violation_if (negb (is_set (observed v)))
      (violation "REQUIRED_ENV_VAR_MISSING" ("required environment variable is missing: " ++ v) None))) = [] <->
    forall v, v ∈ extract_required_env_vars m -> is_set (observed v) = true).
  { induction (extract_required_env_vars m) as [|v l IH]; [split; [by intros _ v ?%elem_of_nil|done]|].
    rewrite bind_cons, app_nil, violation_if_nil, negb_false_iff, IH. setoid_rewrite elem_of_cons. naive_solver. }
  rewrite Hvars. setoid_rewrite required_elem. setoid_rewrite is_set_iff. naive_solver.
Qed.

Lemma all_errors m env check : Forall (fun v => severity v = ERROR)
  (name_violation m env ++ if check : bool then process_violations m env observed else []).
Proof.
  assert (Hif : forall c x p q, Forall (fun v => severity v = ERROR) (violation_if c (violation x p q)))
    by (intros [] x p q; [by constructor|constructor]).
  apply Forall_app. split; [apply Hif|]. destruct check; [|constructor].
  unfold process_violations. rewrite !Forall_app. split_and!; try apply Hif.
  induction (extract_required_env_vars m) as [|v l IH]; [constructor|]. rewrite bind_cons. apply Forall_app. by split.
Qed.

Lemma all_counted l : Forall (fun v => severity v = ERROR) l -> count_of ERROR l = length l /\ count_of WARNING l = 0%nat.
Proof.
  unfold count_of. intros Hl. split.
  - by rewrite filter_all.
  - rewrite filter_none; [done|]. eapply list.Forall_impl; [exact Hl|]. intros v Hv Hw. by rewrite Hv in Hw.
Qed.

Lemma verdict root env check fs start stop report :
  validate_environment safe_load read_fields root env check observed fs start stop = Ok report ->
  report_environment report = env /\ manifest_path report = path_str (manifest_file root env) /\
  errors_count report = length (violations report) /\ warnings_count report = 0%nat /\
  (ok report = true <-> exists m, passes root env check fs m) /\
  (ok report = true -> violations report = []) /\
  forall m, passes root env check fs m -> required_env_vars report = extract_required_env_vars m.
Proof.
  unfold validate_environment, passes. set (p := manifest_file root env).
  assert (Hfail : forall vs, (forall m, ~ manifest_at p fs m) -> (Ok (failed_report env p start stop vs) : result env_exc _) = Ok report ->
    report_environment report = env /\ manifest_path report = path_str p /\
    errors_count report = length (violations report) /\ warnings_count report = 0%nat /\
    (ok report = true <-> exists m, (manifest_at p fs m /\ environment_value (environment m) = env /\
       (check = true -> process_fits m env))) /\
    (ok report = true -> violations report = []) /\
    forall m, (manifest_at p fs m /\ environment_value (environment m) = env /\ (check = true -> process_fits m env)) ->
      required_env_vars report = extract_required_env_vars m).
  { intros vs Hno [= <-]. split_and!; try done.
    - split; [done|]. by intros (m & ?%Hno & _).
    - by intros m (?%Hno & _). }
  destruct (path_exists p fs) eqn:Hp; cbn [negb]; cycle 1.
  { apply Hfail. intros m (text & d & Hr%read_exists & _). congruence. }
  assert (Hload : forall e, load_manifest safe_load read_fields p fs = Err e -> forall m, ~ manifest_at p fs m)
    by (intros e He m Hm%load_ok; congruence).
  destruct (load_manifest safe_load read_fields p fs) as [m|[]] eqn:Hm; try done; try (by apply Hfail; eapply Hload).
  intros [= <-]. cbn [report_environment manifest_path errors_count warnings_count ok violations required_env_vars].
  destruct (all_counted _ (all_errors m env check)) as [He Hw].
  assert (Hok : (count_of ERROR (name_violation m env ++ (if check then process_violations m env observed else [])) =? 0)%nat = true <->
    environment_value (environment m) = env /\ (check = true -> process_fits m env)).
  { rewrite He, Nat.eqb_eq, length_zero_iff_nil, app_nil. unfold name_violation.
    rewrite violation_if_nil, negb_false_iff, String.eqb_eq. destruct check; [rewrite process_ok|]; naive_solver. }
  split_and!; try done.
  - rewrite Hok. apply load_ok in Hm as Hat. split.
    + intros [? ?]. by exists m.
    + intros (m' & Hat' & ? & ?). apply load_ok in Hat'. rewrite Hm in Hat'. by injection Hat' as <-.
  - intros Hz%Nat.eqb_eq. rewrite He in Hz. by apply length_zero_iff_nil.
  - intros m' (Hat'%load_ok & _). rewrite Hm in Hat'. by injection Hat' as <-.
Qed.
End Environments.

(** ** The command *)

Section Command.
Context (safe_load : string -> result env_exc yaml)
  (read_fields : list (yaml * yaml) -> result (list (list string * string)) EnvironmentManifest)
  (refuses : list Statement -> Statement -> option string)
  (fs : FileSystem) (observed : string -> option string) (now : nat -> Z) (args : Args).
Notation accepted env m :=
  (passes safe_load read_fields observed (environments_root args) env (check_env args) fs m).

(** The statements of a report, and of the manifest accepted with it. *)
Definition report_statements (run : nat) (r : ConfigValidationReport) : list Statement :=
  InsertRun run r :: (InsertViolation run <$> violations r).

Lemma inserts_spec run vs : forall c x c', for_each (fun v => execute refuses (InsertViolation run v)) vs c = (x, c') ->
  committed c' = committed c /\ (x = Ok tt -> pending c' = (pending c ++ (InsertViolation run <$> vs))%list).
Proof.
  induction vs as [|v vs IH]; intros c x c' Hr; cbn [for_each] in Hr.
  - injection Hr as <- <-. split; [done|]. by rewrite app_nil_r.
  - apply st_bind_inv in Hr as [(u & c1 & H1 & Hr)|(e & H1 & ->)]; unfold execute in H1; destruct (refuses _ _); try discriminate H1.
    + injection H1 as <- <-. apply IH in Hr as [Hc Hp]. split; [done|]. intros Hx. rewrite (Hp Hx). cbn. by rewrite <- app_assoc.
    + injection H1 as _ <-. done.
Qed.

Lemma persist_report_spec run r c x c' : persist_validation_report refuses run r c = (x, c') -> pending c = [] ->
  (x = Ok tt /\ c' = {| committed := (committed c ++ report_statements run r)%list; pending := [] |}) \/
  (x <> Ok tt /\ committed c' = committed c).
Proof.
  intros Hr Hp. unfold persist_validation_report in Hr.
  apply st_bind_inv in Hr as [(u & c1 & H1 & Hr)|(e & H1 & ->)]; unfold execute in H1 at 1; destruct (refuses _ _); try discriminate H1.
  2: { injection H1 as _ <-. by right. }
  injection H1 as <- <-. rewrite Hp in Hr. cbn in Hr. apply st_bind_inv in Hr as [(u & c2 & H2 & Hr)|(e & H2 & ->)].
  - apply inserts_spec in H2 as [Hc2 Hp2]. destruct u. specialize (Hp2 eq_refl). unfold commit in Hr. injection Hr as <- <-.
    left. split; [done|]. by rewrite Hc2, Hp2.
  - apply inserts_spec in H2 as [Hc2 _]. by right.
Qed.

Lemma register_environment_spec m c x c' : register_environment refuses m c = (x, c') -> pending c = [] ->
  (x = Ok tt /\ c' = {| committed := (committed c ++ [InsertEnvironment m])%list; pending := [] |}) \/
  (x <> Ok tt /\ committed c' = committed c).
Proof.
  intros Hr Hp. unfold register_environment in Hr.
  apply st_bind_inv in Hr as [(u & c1 & H1 & Hr)|(e & H1 & ->)]; unfold execute in H1; destruct (refuses _ _); try discriminate H1.
  - injection H1 as <- <-. unfold commit in Hr. injection Hr as <- <-. left. cbn. by rewrite Hp.
  - injection H1 as _ <-. by right.
Qed.

(** What the check of an environment committed, its result known. *)
Definition stored_for (run : nat) (env : string) (r : ConfigValidationReport) (added : list Statement) : Prop :=
  (ok r = false /\ added = report_statements run r) \/
  (exists m, ok r = true /\ accepted env m /\ added = (report_statements run r ++ [InsertEnvironment m])%list).

Lemma report_registers_nothing run r m : InsertEnvironment m ∉ report_statements run r.
Proof. unfold report_statements. rewrite elem_of_cons, list_elem_of_fmap. naive_solver. Qed.

Lemma store_body_spec run env r c x c' : path_ok (environments_root args) -> pending c = [] ->
  manifest_path r = path_str (manifest_file (environments_root args) env) ->
  (ok r = true -> exists m, accepted env m) ->
  (persist_validation_report refuses run r ≫= fun _ =>
     if ok r then m ← lift (map_err Uncaught (load_manifest safe_load read_fields (path_of (manifest_path r)) fs));
                  register_environment refuses m
     else mret tt) c = (x, c') ->
  exists added, committed c' = (committed c ++ added)%list /\
    (forall m, InsertEnvironment m ∈ added -> accepted env m) /\ (x = Ok tt -> pending c' = [] /\ stored_for run env r added).
Proof.
  intros Hroot Hp Hpath Hacc Hr. rewrite Hpath, path_of_str in Hr by by apply path_div_ok, path_div_ok.
  apply st_bind_inv in Hr as [([] & c1 & H1 & Hr)|(e & H1 & ->)]; apply persist_report_spec in H1 as [[Hx Hc1]|[Hx Hc1]]; try done.
  2: { exists []. rewrite app_nil_r. split_and!; [done|by intros m ?%elem_of_nil|done]. }
  destruct (ok r) eqn:Hok; cycle 1.
  { injection Hr as <- <-. exists (report_statements run r). rewrite Hc1. split_and!; [done| |split; [done|by left]].
    by intros m ?%report_registers_nothing. }
  destruct (Hacc eq_refl) as [m Hm]. rewrite st_bind_lift in Hr. rewrite (proj2 (load_ok safe_load read_fields _ fs m)) in Hr by apply Hm.
  cbn [map_err] in Hr. apply register_environment_spec in Hr as [[-> ->]|[Hx' Hc']]; [| |by rewrite Hc1].
  - exists (report_statements run r ++ [InsertEnvironment m])%list. rewrite Hc1. cbn [committed pending]. rewrite <- app_assoc.
    split_and!; [done| |].
    + intros m' [Hin%report_registers_nothing|Hin%list_elem_of_singleton]%elem_of_app; [done|]. by injection Hin as ->.
    + intros _. split; [done|]. right. by exists m.
  - exists (report_statements run r). rewrite Hc', Hc1. split_and!; [done| |done]. by intros m' ?%report_registers_nothing.
Qed.

Lemma check_spec run env h x h' : path_ok (environments_root args) ->
  check_environment safe_load read_fields refuses fs observed now args run env h = (x, h') ->
  exists added, h' = (h ++ added)%list /\ (forall m, InsertEnvironment m ∈ added -> accepted env m) /\
    (has_database args = false -> added = []) /\
    forall r, x = Ok r -> (ok r = true <-> exists m, accepted env m) /\ (has_database args = true -> stored_for run env r added).
Proof.
  intros Hroot Hr. unfold check_environment in Hr. rewrite st_bind_lift in Hr.
  destruct (validate_environment _ _ _ _ _ _ _ _ _) as [r|e] eqn:Hv; cbn [map_err] in Hr; cycle 1.
  { injection Hr as <- <-. exists []. rewrite app_nil_r. split_and!; try done. by intros m ?%elem_of_nil. }
  apply verdict in Hv as (_ & Hpath & _ & _ & Hacc & _).
  destruct (has_database args); cycle 1.
  { injection Hr as <- <-. exists []. rewrite app_nil_r. split_and!; try done; [by intros m ?%elem_of_nil|by intros r' [= <-]]. }
  unfold with_connection in Hr. unfold mbind at 1, st_bind at 1 in Hr.
  match type of Hr with context[match ?body ?c0 with _ => _ end] => destruct (body c0) as [y c'] eqn:Hb end.
  apply (store_body_spec run env r) in Hb as (added & Hc & Hin & Hst); [|done..|by apply Hacc].
  exists added. cbn [committed] in Hc. destruct y as [[]|e].
  - destruct (Hst eq_refl) as [Hp Hs]. injection Hr as <- <-. rewrite Hc, Hp, app_nil_r. split_and!; try done. by intros r' [= <-].
  - injection Hr as <- <-. by split_and!.
Qed.

Lemma checks_spec names : path_ok (environments_root args) -> forall run h x h',
  check_environments safe_load read_fields refuses fs observed now args run names h = (x, h') ->
  exists added, h' = (h ++ added)%list /\
    (forall m, InsertEnvironment m ∈ added -> exists env, env ∈ names /\ accepted env m) /\
    (has_database args = false -> added = []) /\
    forall rs, x = Ok rs -> Forall2 (fun env r => (ok r = true <-> exists m, accepted env m) /\
      (has_database args = true -> ok r = true -> exists m, accepted env m /\ InsertEnvironment m ∈ added)) names rs.
Proof.
  intros Hroot. induction names as [|env names IH]; intros run h x h' Hr; cbn [check_environments] in Hr.
  { injection Hr as <- <-. exists []. rewrite app_nil_r. split_and!; try done; [by intros m ?%elem_of_nil|]. intros rs [= <-]. constructor. }
  apply st_bind_inv in Hr as [(r & h1 & H1 & Hr)|(e & H1 & ->)]; apply check_spec in H1 as (a1 & -> & Hin1 & Hdb1 & Hr1); try done; cycle 1.
  { exists a1. split_and!; try done. intros m Hm. exists env. split; [left|by apply Hin1]. }
  apply st_bind_inv in Hr as [(rs & h2 & H2 & Hr)|(e & H2 & ->)]; apply IH in H2 as (a2 & -> & Hin2 & Hdb2 & Hr2).
  - injection Hr as <- <-. exists (a1 ++ a2)%list. rewrite app_assoc. split_and!; [done| | |].
    + intros m [Hm|Hm]%elem_of_app; [exists env; split; [left|by apply Hin1]|].
      destruct (Hin2 m Hm) as (env' & ? & ?). exists env'. split; [by right|done].
    + intros Hn. by rewrite Hdb1, Hdb2.
    + intros rs' [= <-]. destruct (Hr1 r eq_refl) as [Hok1 Hst1]. constructor.
      * split; [done|]. intros Hdb Hok. destruct (Hst1 Hdb) as [[Hno _]|(m & _ & Hm & Ha)]; [congruence|].
        exists m. split; [done|]. rewrite elem_of_app, Ha, elem_of_app. left; right. by apply list_elem_of_singleton.
      * eapply Forall2_impl; [|exact (Hr2 rs eq_refl)]. intros env' r' [Hok' Hst']. split; [done|]. intros Hdb Hok.
        destruct (Hst' Hdb Hok) as (m & ? & ?). exists m. split; [done|]. apply elem_of_app. by right.
  - exists (a1 ++ a2)%list. rewrite app_assoc. split_and!; [done| | |done].
    + intros m [Hm|Hm]%elem_of_app; [exists env; split; [left|by apply Hin1]|].
      destruct (Hin2 m Hm) as (env' & ? & ?). exists env'. split; [by right|done].
    + intros Hn. by rewrite Hdb1, Hdb2.
Qed.
End Command.

(** ** The promises *)

(** The variables a manifest requires are exactly the names [NAME] of the
    references [${NAME}] in its texts, wherever in a text and in whichever field
    they stand: the rendering as JSON in between hides none and makes none. *)
Theorem required_vars_exact (m : EnvironmentManifest) (v : string) :
  v ∈ extract_required_env_vars m <->
  reference_name v /\ exists s, s ∈ settings m /\ infix (reference v) s.
Proof. apply required_elem. Qed.

(** An environment passes exactly when its manifest file holds fields within
    the policy (its own trading mode, real capital in production only, no direct
    execution by AI, risk and observability on, the three networks named, secure
    connections and fail-closed where it is critical), names the environment it
    stands for, and, where the process is checked, the process has every
    variable it refers to and is set up for no other environment.  The report
    counts what it lists. *)
Theorem environment_verdict safe_load read_fields observed root env check fs start stop report
  (Hrun : validate_environment safe_load read_fields root env check observed fs start stop = Ok report) :
  (ok report = true <-> exists m, passes safe_load read_fields observed root env check fs m) /\
  errors_count report = length (violations report) /\ warnings_count report = 0%nat /\
  (ok report = true -> violations report = []).
Proof. apply verdict in Hrun as (_ & _ & He & Hw & Hok & Hv & _). by split_and!. Qed.

(** How the command may end: what it committed, with which exit. *)
Definition command_outcome (names : list string) (accepted : string -> EnvironmentManifest -> Prop) (database : bool)
    (added : list Statement) (exit : MainExit) : Prop :=
  (forall m, InsertEnvironment m ∈ added -> exists env, env ∈ names /\ accepted env m) /\
  (database = false -> added = []) /\
  (exit = Code 0 -> names <> [] /\
     forall env, env ∈ names -> exists m, accepted env m /\ (database = true -> InsertEnvironment m ∈ added)) /\
  (exit = Code 1 -> exists env, env ∈ names /\ ~ exists m, accepted env m).

Lemma nothing_done names accepted database exit : exit <> Code 0 -> exit <> Code 1 ->
  command_outcome names accepted database [] exit.
Proof. intros H0 H1. split_and!; [by intros m ?%elem_of_nil|done|by intros ?%H0|by intros ?%H1]. Qed.

Lemma checked_outcome (names : list string) (accepted : string -> EnvironmentManifest -> Prop) (database : bool) added rs : names <> [] ->
  (forall m, InsertEnvironment m ∈ added -> exists env, env ∈ names /\ accepted env m) ->
  (database = false -> added = []) ->
  Forall2 (fun env r => (ok r = true <-> exists m, accepted env m) /\
    (database = true -> ok r = true -> exists m, accepted env m /\ InsertEnvironment m ∈ added)) names rs ->
  command_outcome names accepted database added (Code (if forallb ok rs then 0 else 1)).
Proof.
  intros Hne Hin Hdb Hall. apply Forall2_same_length_lookup in Hall as [Hlen Hall]. split_and!; [done..| |].
  - destruct (forallb ok rs) eqn:Hok; [|done]. intros _. split; [done|]. rewrite forallb_forall in Hok.
    intros env [i Henv]%list_elem_of_lookup_1. assert (Hr : is_Some (rs !! i))
      by (apply lookup_lt_is_Some; rewrite <- Hlen; by eapply lookup_lt_Some).
    destruct Hr as [r Hr]. destruct (Hall i env r Henv Hr) as [Hacc Hreg].
    assert (Hrok : ok r = true) by (apply Hok, list_elem_of_In; by eapply list_elem_of_lookup_2).
    destruct database; [destruct (Hreg eq_refl Hrok) as (m & ? & ?); by exists m|].
    destruct (proj1 Hacc Hrok) as [m Hm]. by exists m.
  - destruct (forallb ok rs) eqn:Hok; [done|]. intros _. rewrite <- not_true_iff_false, forallb_forall in Hok.
    assert (Hbad : exists r, r ∈ rs /\ ok r = false).
    { clear -Hok. induction rs as [|r rs IH]; [by destruct Hok|]. destruct (ok r) eqn:Hr; [|exists r; split; [left|done]].
      destruct IH as (r' & ? & ?); [|exists r'; split; [by right|done]]. intros H. apply Hok. by intros x [<-|Hx]; [|apply H]. }
    destruct Hbad as (r & [i Hr]%list_elem_of_lookup_1 & Hbad).
    assert (Henv : is_Some (names !! i)) by (apply lookup_lt_is_Some; rewrite Hlen; by eapply lookup_lt_Some).
    destruct Henv as [env Henv]. exists env. split; [by eapply list_elem_of_lookup_2|].
    destruct (Hall i env r Henv Hr) as [Hacc _]. intros Hm%Hacc. congruence.
Qed.

(** C30: Whatever goes wrong on the way, the command registers no manifest but one
    an environment it was asked for passes with, and commits nothing without a
    database; its exit code is 0 only when every environment passes, each then
    registered, and 1 only when some environment does not. *)
Theorem command_registers safe_load read_fields refuses dump_reports fs observed now args h out exit h'
  (Hroot : path_ok (environments_root args))
  (Hrun : main safe_load read_fields refuses dump_reports fs observed now args h = (out, exit, h')) :
  exists added, h' = (h ++ added)%list /\
    command_outcome (if validate_all args then environment_names fs args else [default "" (environment_arg args)])
      (fun env m => passes safe_load read_fields observed (environments_root args) env (check_env args) fs m)
      (has_database args) added exit.
Proof.
  unfold main in Hrun. cbv zeta in Hrun. set (names := if validate_all args then _ else _) in *.
  assert (Hquiet : forall lines x, (lines, x, h) = (out, exit, h') -> x <> Code 0 -> x <> Code 1 ->
    exists added, h' = (h ++ added)%list /\ command_outcome names
      (fun env m => passes safe_load read_fields observed (environments_root args) env (check_env args) fs m)
      (has_database args) added exit).
  { intros lines x [= <- <- <-] H0 H1. exists []. rewrite app_nil_r. split; [done|by apply nothing_done]. }
  destruct (negb (path_exists _ _)); [by apply Hquiet in Hrun|]. destruct (negb _ && _); [by apply Hquiet in Hrun|].
  destruct (_ && _); [by apply Hquiet in Hrun|].
  destruct (decide (names = [])) as [Hnil|Hne]; [rewrite Hnil in Hrun; by apply Hquiet in Hrun|].
  destruct (check_environments _ _ _ _ _ _ _ _ _ _) as [x h1] eqn:Hc.
  apply checks_spec in Hc as (added & -> & Hin & Hdb & Hrs); [|done]. exists added.
  assert (Hrun' : (match x with
    | Ok reports => (if output_json args then [dump_reports reports] else reports ≫= report_lines,
                     Code (if forallb ok reports then 0 else 1))
    | Err e => ([], Raised e) end, (h ++ added)%list) = (out, exit, h')) by (destruct names; [done|]; by destruct x).
  injection Hrun' as Hx <-. split; [done|]. destruct x as [rs|e]; injection Hx as _ <-.
  - by apply checked_outcome; [..|apply Hrs].
  - by split_and!.
Qed.

(** ** Examples *)

Definition sample_manifest (env : EnvironmentName) (live : bool) (password : string) : EnvironmentManifest := {|
  environment := env; display_name := "Sample"; trading_mode := expected_mode env; live_capital_allowed := live;
  fail_closed_default := true; risk_enforcement_required := true; ai_direct_execution_allowed := false;
  observability_required := true; networks := [("platform", "p"); ("data", "d"); ("observability", "${NET}-o")];
  service_framework := {| enabled := true; log_level := INFO_LEVEL; metrics_enabled := true |};
  infrastructure := {|
    postgres := {| pg_host := "postgres"; pg_port := 5432; database := "apexquant"; user := "app"; password := password;
                   ssl_mode := SSL_REQUIRE |};
    redis := {| redis_host := "redis"; redis_port := 6379; database_index := 0 |};
    kafka := {| bootstrap_servers := "redpanda:9092"; security_protocol := SASL_SSL |};
    object_storage := {| endpoint := "https://minio:9000"; access_key := "key"; secret_key := "secret"; secure := true |} |} |}.
Definition sample_load (text : string) : result env_exc yaml :=
  if text =? "scalar" then Ok (YStr text) else Ok (YDict [(YStr "text", YStr text)]).
Definition sample_fields (d : list (yaml * yaml)) : result (list (list string * string)) EnvironmentManifest :=
  match yaml_get "text" d with
  | YStr "local" => Ok (sample_manifest LOCAL false "${PG_PASSWORD}")
  | YStr "paper" => Ok (sample_manifest PAPER true "${PG_PASSWORD}")
  | _ => Err [(["environment"], "Field required")]
  end.
Definition env_root : Path := path_of "/environments".
Definition sample_fs : FileSystem :=
  {| files := list_to_map [(manifest_file env_root "local", "local"); (manifest_file env_root "paper", "paper");
                           (manifest_file env_root "shadow", "scalar")];
     dirs := list_to_set [env_root; path_div env_root "local"; path_div env_root "paper"; path_div env_root "shadow"] |}.
Definition sample_process (v : string) : option string :=
  if v =? "PG_PASSWORD" then Some "pw" else if v =? "NET" then Some "n" else if v =? "APEX_ENVIRONMENT" then Some "local" else None.
Definition local_args : Args := {| environments_root := env_root; environment_arg := Some "local"; validate_all := false;
  check_env := true; has_database := true; output_json := false |}.
Definition all_args : Args := {| environments_root := env_root; environment_arg := None; validate_all := true;
  check_env := false; has_database := true; output_json := false |}.
Definition sample_main (refuses : list Statement -> Statement -> option string) (args : Args) :=
  main sample_load sample_fields refuses (fun _ => "") sample_fs sample_process Z.of_nat args [].

Example sample_references :
  extract_required_env_vars (sample_manifest LOCAL false "x${A}y${1B}${C_1") = ["A"; "NET"].
Proof. by vm_compute. Qed.

(** The local environment passes, the paper one asks for real capital. *)
Example sample_all : (sample_main (fun _ _ => None) all_args).1.2 = Code 1 /\
  (fun q => match q with InsertEnvironment m => Some (environment m) | _ => None end) <$> (sample_main (fun _ _ => None) all_args).2 =
  [None; Some LOCAL; None; None; None; None].
Proof. by vm_compute. Qed.

Lemma environment_verdict_witness :
  exists report, validate_environment sample_load sample_fields env_root "local" true sample_process sample_fs 1 2 = Ok report /\
    ok report = true /\ (exists m, passes sample_load sample_fields sample_process env_root "local" true sample_fs m) /\
    violations report = [].
Proof.
  destruct (validate_environment sample_load sample_fields env_root "local" true sample_process sample_fs 1 2) as [report|e] eqn:Hrun;
    [|exfalso; vm_compute in Hrun; discriminate].
  assert (Hok : ok report = true) by (vm_compute in Hrun; injection Hrun as <-; reflexivity).
  destruct (environment_verdict sample_load sample_fields sample_process env_root "local" true sample_fs 1 2 report Hrun)
    as (Hiff & _ & _ & Hnil).
  exists report. split; [reflexivity|]. split; [exact Hok|]. split; [apply Hiff, Hok|apply Hnil, Hok].
Defined.

Lemma command_registers_witness : exists added,
  (sample_main (fun _ _ => None) local_args).2 = added /\ length added = 2%nat /\
  forall m, InsertEnvironment m ∈ added -> exists env, env ∈ ["local"] /\
    passes sample_load sample_fields sample_process env_root env true sample_fs m.
Proof.
  assert (Hroot : path_ok (environments_root local_args)) by apply path_of_ok.
  destruct (sample_main (fun _ _ => None) local_args) as [[out exit] h'] eqn:Hrun.
  destruct (command_registers sample_load sample_fields (fun _ _ => None) (fun _ => "") sample_fs sample_process Z.of_nat
    local_args [] out exit h' Hroot Hrun) as (added & Hadded & Hreg & _).
  exists added. split; [exact Hadded|]. split; [|exact Hreg].
  assert (Hn : length (sample_main (fun _ _ => None) local_args).2 = 2%nat) by (vm_compute; reflexivity).
  rewrite Hrun in Hn. cbn in Hn. rewrite Hadded in Hn. exact Hn.
Defined.

(** A file that is no YAML ends the command with the parser's exception: nothing
    is printed of the environments checked before. *)
Lemma bad_yaml_hides_reports :
  (main (fun text => if text =? "paper" then Err (ManifestOtherError "expected <block end>") else sample_load text) sample_fields
     (fun _ _ => None) (fun _ => "") sample_fs sample_process Z.of_nat all_args []).1 =
  ([], Raised (Uncaught (ManifestOtherError "expected <block end>"))).
Proof. by vm_compute. Qed.
