(* ===== verification/Regex.v ===== *)
(** Regular expressions over the characters of a string, with the derivatives
    that decide them: what the [re] patterns of the sources without groups are
    written in. *)
From stdpp Require Import base strings list.
From Stdlib Require Import Ascii.
From S2P Require Import Prelude PyStr.

#[local] Open Scope string_scope.

Inductive re :=
| Void
| Eps
| Chr (p : ascii -> bool)
| Cat (r1 r2 : re)
| Alt (r1 r2 : re)
| Star (r : re).
(** [r+] and [r{2,}] *)
Definition Plus (r : re) : re := Cat r (Star r).
Definition AtLeast2 (r : re) : re := Cat r (Plus r).

(** The texts of an expression. *)
Inductive lang : re -> string -> Prop :=
| lang_eps : lang Eps ""
| lang_chr p c : p c = true -> lang (Chr p) (String c "")
| lang_cat r1 r2 s t : lang r1 s -> lang r2 t -> lang (Cat r1 r2) (s ++ t)
| lang_left r1 r2 s : lang r1 s -> lang (Alt r1 r2) s
| lang_right r1 r2 s : lang r2 s -> lang (Alt r1 r2) s
| lang_nil r : lang (Star r) ""
| lang_star r s t : lang r s -> lang (Star r) t -> lang (Star r) (s ++ t).

Fixpoint nullable (r : re) : bool :=
  match r with
  | Void | Chr _ => false
  | Eps | Star _ => true
  | Cat r1 r2 => nullable r1 && nullable r2
  | Alt r1 r2 => nullable r1 || nullable r2
  end.
(** What may follow a character. *)
Fixpoint deriv (c : ascii) (r : re) : re :=
  match r with
  | Void | Eps => Void
  | Chr p => if p c then Eps else Void
  | Cat r1 r2 => if nullable r1 then Alt (Cat (deriv c r1) r2) (deriv c r2) else Cat (deriv c r1) r2
  | Alt r1 r2 => Alt (deriv c r1) (deriv c r2)
  | Star r1 => Cat (deriv c r1) (Star r1)
  end.
(** [re.fullmatch(r, s)] *)
Fixpoint full_match (r : re) (s : string) : bool :=
  match s with
  | "" => nullable r
  | String c s' => full_match (deriv c r) s'
  end.

Ltac lang_inv H := inversion H; subst; clear H.

Lemma nullable_spec r : nullable r = true <-> lang r "".
Proof.
  induction r as [| |p|r1 IH1 r2 IH2|r1 IH1 r2 IH2|r IH]; cbn.
  - split; [done|intros H; lang_inv H].
  - split; [constructor|done].
  - split; [done|intros H; lang_inv H].
  - rewrite andb_true_iff, IH1, IH2. split.
    + intros [H1 H2]. by apply (lang_cat r1 r2 "" "").
    + intros H. inversion H as [| |? ? s t H1 H2 Hr He| | | |]. destruct s, t; [done..|].
      discriminate He.
  - rewrite orb_true_iff, IH1, IH2. split; [intros [?|?]; by constructor|intros H; lang_inv H; auto].
  - split; [constructor|done].
Qed.

(** The first round of a repetition that is not empty. *)
Lemma star_first r c s : lang (Star r) (String c s) <->
  exists a b, s = a ++ b /\ lang r (String c a) /\ lang (Star r) b.
Proof.
  split.
  - intros H. remember (Star r) as q eqn:Hq. remember (String c s) as t eqn:Ht. revert s Ht.
    induction H as [| | | | | |r0 u v Hu _ Hv IH]; intros s' Ht; try done. injection Hq as ->.
    destruct u as [|c' u]; [by apply IH|]. injection Ht as -> <-. by exists u, v.
  - intros (a & b & -> & Ha & Hb). by apply (lang_star r (String c a) b).
Qed.

Lemma deriv_spec r : forall c s, lang (deriv c r) s <-> lang r (String c s).
Proof.
  induction r as [| |p|r1 IH1 r2 IH2|r1 IH1 r2 IH2|r IH]; intros c s; cbn.
  - split; intros H; lang_inv H.
  - split; intros H; lang_inv H.
  - destruct (p c) eqn:Hp; split; intros H; lang_inv H; [by constructor|constructor|congruence].
  - assert (Hcat : lang (Cat (deriv c r1) r2) s <-> exists a b, s = a ++ b /\ lang r1 (String c a) /\ lang r2 b).
    { split.
      - intros H. lang_inv H. eexists _, _. split; [done|]. split; [by apply IH1|done].
      - intros (a & b & -> & Ha & Hb). apply lang_cat; [by apply IH1|done]. }
    assert (Hall : lang (Cat r1 r2) (String c s) <->
      (exists a b, s = a ++ b /\ lang r1 (String c a) /\ lang r2 b) \/ (lang r1 "" /\ lang r2 (String c s))).
    { split.
      - intros H. inversion H as [| |? ? u v Hu Hv Hr He| | | |]. destruct u as [|c' u].
        + right. cbn in He. by subst.
        + injection He as -> <-. left. by exists u, v.
      - intros [(a & b & -> & Ha & Hb)|[H1 H2]]; [by apply (lang_cat r1 r2 (String c a) b)|by apply (lang_cat r1 r2 "")]. }
    rewrite Hall, <- Hcat, <- nullable_spec. destruct (nullable r1).
    + split; [intros H; lang_inv H; [by left|right; by rewrite <- IH2]|intros [H|[_ H]]; [by constructor|apply lang_right; by apply IH2]].
    + split; [by left|by intros [H|[H _]]].
  - split; intros H; lang_inv H; constructor; (by apply IH1) || (by apply IH2).
  - rewrite star_first. split.
    + intros H. lang_inv H. eexists _, _. split; [done|]. split; [by apply IH|done].
    + intros (a & b & -> & Ha & Hb). apply lang_cat; [by apply IH|done].
Qed.

Lemma full_match_spec s : forall r, full_match r s = true <-> lang r s.
Proof. induction s as [|c s IH]; intros r; cbn; [apply nullable_spec|by rewrite IH, deriv_spec]. Qed.

Lemma concat_cons x l : String.concat "" (x :: l) = x ++ String.concat "" l.
Proof. destruct l; [symmetry; apply str_app_nil_r|done]. Qed.

(** A repetition is a list of rounds. *)
Lemma star_list r s : lang (Star r) s <-> exists l, s = String.concat "" l /\ Forall (lang r) l.
Proof.
  split.
  - intros H. remember (Star r) as q eqn:Hq. induction H as [| | | | |r0|r0 u v Hu _ Hv IH]; try done; injection Hq as ->.
    + by exists [].
    + destruct (IH eq_refl) as (l & -> & Hl). exists (u :: l). split; [by rewrite concat_cons|by constructor].
  - intros (l & -> & Hl). induction Hl as [|x l Hx Hl IH]; [constructor|].
    rewrite concat_cons. by constructor.
Qed.

(** [re.match] on a pattern that ends in [$], which takes a newline at the end. *)
Definition re_match (r : re) (s : string) : bool :=
  bool_decide (is_Some (re_dollar (fun t => if full_match r t then Some tt else None) s)).
Lemma re_match_iff r s : re_match r s = true <-> lang r s \/ exists t, lang r t /\ s = t ++ String newline "".
Proof.
  unfold re_match, re_dollar. rewrite bool_decide_eq_true, <- full_match_spec. setoid_rewrite <- full_match_spec.
  destruct (full_match r s); [split; [by left|done]|].
  destruct (chop_newline s) as [t|] eqn:Hs.
  - split.
    + destruct (full_match r t) eqn:Ht; [|by intros [? [=]]]. intros _. right. exists t. split; [done|]. by apply chop_newline_Some.
    + intros [[=]|(t' & Ht & He)]. rename Hs into Hs1. apply chop_newline_Some in He as He1.
      rewrite Hs1 in He1. injection He1 as ->. by rewrite Ht.
  - split; [by intros [? [=]]|]. intros [[=]|(t & Ht & ->)]. exfalso.
    assert (Hc : chop_newline (t ++ String newline "") = Some t) by by apply chop_newline_Some. congruence.
Qed.

(** ** Fixed texts and repetitions *)

Definition is_char (x c : ascii) : bool := (c =? x)%char.
Fixpoint Text (s : string) : re := match s with "" => Eps | String c s' => Cat (Chr (is_char c)) (Text s') end.
(** [r{n}] *)
Fixpoint Rep (n : nat) (r : re) : re := match n with O => Eps | S n' => Cat r (Rep n' r) end.

Lemma lang_cat_iff r1 r2 s : lang (Cat r1 r2) s <-> exists a b, s = a ++ b /\ lang r1 a /\ lang r2 b.
Proof.
  split; [intros H; lang_inv H; by eexists _, _|]. intros (a & b & -> & Ha & Hb). by constructor.
Qed.
Lemma lang_alt_iff r1 r2 s : lang (Alt r1 r2) s <-> lang r1 s \/ lang r2 s.
Proof. split; [intros H; lang_inv H; auto|]. by intros [H|H]; constructor. Qed.
Lemma lang_text s t : lang (Text s) t <-> t = s.
Proof.
  revert t. induction s as [|c s IH]; intros t; cbn [Text].
  - split; [intros H; by lang_inv H|intros ->; constructor].
  - rewrite lang_cat_iff. split.
    + intros (a & b & -> & Ha & Hb). lang_inv Ha. apply IH in Hb as ->.
      match goal with H : is_char _ _ = true |- _ => by apply Ascii.eqb_eq in H as -> end.
    + intros ->. exists (String c ""), s. split_and!; [done| |by apply IH]. constructor. apply Ascii.eqb_refl.
Qed.
Lemma lang_rep n p s : lang (Rep n (Chr p)) s <-> String.length s = n /\ str_forall p s = true.
Proof.
  revert s. induction n as [|n IH]; intros s; cbn [Rep].
  - split; [intros H; by lang_inv H|]. intros [Hs _]. destruct s; [constructor|done].
  - rewrite lang_cat_iff. split.
    + intros (a & b & -> & Ha & Hb). lang_inv Ha. apply IH in Hb as [<- Hb]. cbn. split; [done|]. by apply andb_true_iff.
    + intros [Hl Hs]. destruct s as [|c s]; [done|]. cbn in Hs. apply andb_true_iff in Hs as [Hc Hs].
      injection Hl as Hl. exists (String c ""), s. split_and!; [done|by constructor|by apply IH].
Qed.
