(* ===== verification/EventBus.v ===== *)
(** The event bus: [models.py], [topics.py], [publisher.py], [admin.py],
    [persistence.py] and [cli.py] of apexquant-event-bus.

    The broker is a class, a producer that takes or refuses a message and an
    administration that lists and creates topics; pydantic's rendering and
    reading of an envelope as JSON are parameters. *)
From stdpp Require Import base strings list gmap sorting pretty numbers.
From Stdlib Require Import Ascii.
From S2P Require Import Prelude PyStr Json Regex.

#[local] Open Scope string_scope.

(** ** models.py *)

Definition lower_or_digit (c : ascii) : bool := is_lower c || is_digit c.

(** [[a-z0-9]+(?:-[a-z0-9]+)*] and the whole pattern. *)
Definition WORD : re := Plus (Chr lower_or_digit).
Definition SEGMENT : re := Cat WORD (Star (Cat (Chr (is_char "-")) WORD)).
Definition EVENT_TYPE_PATTERN : re := Cat SEGMENT (AtLeast2 (Cat (Chr (is_char ".")) SEGMENT)).
Definition TOPIC_NAME_PATTERN : re := Plus (Chr (fun c => is_alnum c || char_in c "._-")).

Definition validate_event_type (value : string) : result string unit :=
  if str_empty (strip value) then Err "event_type must not be empty"
  else if (249 <? String.length value)%nat then Err "event_type must not exceed 249 characters"
  else if negb (re_match EVENT_TYPE_PATTERN value)
  then Err "event_type must be lowercase dot-separated segments, for example platform.event-bus.heartbeat"
  else Ok tt.
Definition validate_topic_name (value : string) : result string unit :=
  if str_empty (strip value) then Err "topic name must not be empty"
  else if (249 <? String.length value)%nat then Err "topic name must not exceed 249 characters"
  else if negb (re_match TOPIC_NAME_PATTERN value)
  then Err "topic name may only contain letters, numbers, dots, hyphens, and underscores"
  else if starts_with "." value || ends_with "." value then Err "topic name must not start or end with a dot"
  else Ok tt.

(** A datetime: its text without a zone, and the zone it has. *)
Record Timestamp := { clock_text : string; zone : option string }.
Definition isoformat (t : Timestamp) : string := clock_text t ++ default "" (zone t).

Record EventEnvelope := {
  event_id : string; event_type : string; event_version : Z; occurred_at : Timestamp; producer_service : string;
  producer_plane : string; correlation_id : option string; causation_id : option string; idempotency_key : string;
  trace_id : option string; payload : list (string * json)
}.
Definition with_occurred_at (t : Timestamp) (e : EventEnvelope) : EventEnvelope :=
  {| event_id := event_id e; event_type := event_type e; event_version := event_version e; occurred_at := t;
     producer_service := producer_service e; producer_plane := producer_plane e; correlation_id := correlation_id e;
     causation_id := causation_id e; idempotency_key := idempotency_key e; trace_id := trace_id e; payload := payload e |}.

(** The fields read, [Field(ge=1)] included. *)
Definition enforce_event_policy (e : EventEnvelope) : result string EventEnvelope :=
  validate_event_type (event_type e) ≫= fun _ =>
  if str_empty (strip (idempotency_key e)) then Err "idempotency_key must not be empty"
  else if str_empty (strip (producer_service e)) then Err "producer_service must not be empty"
  else if str_empty (strip (producer_plane e)) then Err "producer_plane must not be empty"
  else match zone (occurred_at e) with
       | None => Ok (with_occurred_at {| clock_text := clock_text (occurred_at e); zone := Some "+00:00" |} e)
       | Some _ => Ok e
       end.
Definition new_envelope (e : EventEnvelope) : result string EventEnvelope :=
  if (event_version e <? 1)%Z then Err "Input should be greater than or equal to 1" else enforce_event_policy e.

Definition topic (e : EventEnvelope) : string := event_type e ++ ".v" ++ pretty (event_version e).

Record TopicSpec := {
  name : string; domain : string; description : string; partitions : Z; replication_factor : Z; retention_ms : Z;
  cleanup_policy : string
}.
Definition enforce_topic_policy (t : TopicSpec) : result string TopicSpec :=
  if (partitions t <? 1)%Z || (replication_factor t <? 1)%Z || (retention_ms t <? 0)%Z
  then Err "Input should be greater than or equal to the bound"
  else
    validate_topic_name (name t) ≫= fun _ =>
    if str_empty (strip (domain t)) then Err "topic domain must not be empty"
    else if negb (bool_decide (cleanup_policy t ∈ ["delete"; "compact"])) then Err "cleanup_policy must be delete or compact"
    else Ok t.

(** ** topics.py *)

Definition HEARTBEAT_TOPIC : string := "platform.event-bus.heartbeat.v1".
Definition DEAD_LETTER_TOPIC : string := "platform.event-bus.dead-letter.v1".
Definition AUDIT_TOPIC : string := "platform.audit.event.v1".
Definition DIAGNOSTIC_TOPIC : string := "platform.observability.diagnostic.v1".
Definition days_ms (n : Z) : Z := (n * 24 * 60 * 60 * 1000)%Z.
Definition canonical_topic (n d : string) (p days : Z) : TopicSpec :=
  {| name := n; domain := "platform"; description := d; partitions := p; replication_factor := 1;
     retention_ms := days_ms days; cleanup_policy := "delete" |}.
Definition CANONICAL_TOPICS : list TopicSpec :=
  [canonical_topic HEARTBEAT_TOPIC "Event bus heartbeat events for service and infrastructure health" 3 7;
   canonical_topic DEAD_LETTER_TOPIC "Dead-letter events for failed processing and poison-pill containment" 3 14;
   canonical_topic AUDIT_TOPIC "Audit events for governance, security, and operational reconstruction" 6 90;
   canonical_topic DIAGNOSTIC_TOPIC "Observability diagnostics and operational telemetry" 3 7].

Definition TopicRegistry : Type := pydict string TopicSpec.
Definition new_registry (topics : list TopicSpec) : TopicRegistry := foldl (fun d t => dict_set (name t) t d) [] topics.
Definition canonical : TopicRegistry := new_registry CANONICAL_TOPICS.
Definition contains (t : string) (r : TopicRegistry) : bool := dict_has t r.
Definition specs (r : TopicRegistry) : list TopicSpec := map snd r.

(** ** publisher.py *)

Inductive bus_exc :=
| EventBusError (m : string)
| ValidationError (m : string)
| BrokerError (m : string)
| DatabaseError (m : string)
| ProgrammingError (m : string).

Record Message := { m_topic : string; m_value : string; m_key : string; m_headers : list (string * string) }.

Record NewTopic := { nt_name : string; num_partitions : Z; nt_replication : Z; topic_configs : list (string * string) }.
Inductive create_exc := TopicAlreadyExistsError | CreateFailed (m : string).
(** A broker: what a producer sends, what the administration knows; [close] ends
    a producer. *)
Class Broker (B : Type) := {
  send_and_wait : Message -> st B string unit;
  close : st B string unit;
  list_topics : st B string (gset string);
  create_topics : list NewTopic -> st B create_exc unit
}.

Record EventPublisher := { service_name : string; plane : string; registry : option TopicRegistry }.
Definition new_publisher (service plane : string) (r : option TopicRegistry) : result bus_exc EventPublisher :=
  if str_empty (strip service) then Err (EventBusError "service_name must not be empty")
  else if str_empty (strip plane) then Err (EventBusError "plane must not be empty")
  else Ok {| service_name := strip service; plane := strip plane; registry := r |}.

(** [x] under a name, if there is one *)
Definition optional_header (k : string) (x : option string) : list (string * string) :=
  match x with Some v => [(k, v)] | None => [] end.
Definition headers (e : EventEnvelope) : list (string * string) :=
  [("event_id", event_id e); ("event_type", event_type e); ("event_version", pretty (event_version e));
   ("occurred_at", isoformat (occurred_at e)); ("producer_service", producer_service e);
   ("producer_plane", producer_plane e); ("idempotency_key", idempotency_key e)]
  ++ optional_header "correlation_id" (correlation_id e) ++ optional_header "causation_id" (causation_id e)
  ++ optional_header "trace_id" (trace_id e).

Section Publisher.
Context {B : Type} `{Broker B} (dump_json : EventEnvelope -> string).

(** A call of the broker, its exceptions told apart from the package's. *)
Definition call {A E} (text : E -> string) (m : st B E A) : st B bus_exc A := fun b =>
  let '(r, b') := m b in (map_err (fun e => BrokerError (text e)) r, b').

Definition message (e : EventEnvelope) : Message :=
  {| m_topic := topic e; m_value := dump_json e; m_key := idempotency_key e; m_headers := headers e |}.
Definition publish (p : EventPublisher) (e : EventEnvelope) : st B bus_exc unit :=
  if match registry p with Some r => negb (contains (topic e) r) | None => false end
  then raise (EventBusError ("topic is not registered: " ++ topic e))
  else call id (send_and_wait (message e)).

(** ** admin.py *)

Definition new_topic (t : TopicSpec) : NewTopic :=
  {| nt_name := name t; num_partitions := partitions t; nt_replication := replication_factor t;
     topic_configs := [("retention.ms", pretty (retention_ms t)); ("cleanup.policy", cleanup_policy t)] |}.
Definition ensure_topics (topics : list TopicSpec) : st B bus_exc (list string) :=
  existing ← call id list_topics;
  let to_create := map new_topic (filter (fun t => name t ∉ existing) topics) in
  match to_create with
  | [] => mret []
  | _ => fun b =>
      match create_topics to_create b with
      | (Ok _, b') => (Ok (map nt_name to_create), b')
      | (Err TopicAlreadyExistsError, b') => (Ok [], b')
      | (Err (CreateFailed m), b') => (Err (BrokerError m), b')
      end
  end.
Definition list_broker_topics : st B bus_exc (gset string) := call id list_topics.
End Publisher.
