(* ===== verification/EventStore.v ===== *)
(** The tables and the commands of the event bus: [persistence.py] and [cli.py]
    of apexquant-event-bus, with the constraints of 0001_event_bus.sql.

    Whether the driver turns a dict into a parameter is an argument: psycopg does
    so only when a dumper for dict has been registered. *)
From stdpp Require Import base strings list gmap sorting pretty numbers.
From Stdlib Require Import Ascii.
From S2P Require Import Prelude PyStr Json EventBus.

#[local] Open Scope string_scope.

(** ** persistence.py *)

Inductive OutboxStatus := PENDING | PUBLISHED | FAILED.
#[export] Instance outbox_status_eq_dec : EqDecision OutboxStatus.
Proof. solve_decision. Defined.
Record TopicRow := { tr_spec : TopicSpec; tr_created_at : Z; tr_updated_at : Z }.
Record OutboxRow := {
  ob_event : string; ob_topic : string; ob_type : string; ob_version : Z; ob_aggregate : option string; ob_key : string;
  ob_payload : json; ob_headers : json; ob_status : OutboxStatus; attempts : Z; ob_created_at : Z; published_at : option Z
}.
Record EventBusVerificationReport := {
  environment : string; bootstrap_servers : string; generated_at : Z; ok : bool; missing_topics : list string;
  observed_topics : list string
}.
Record BusDb := { topic_rows : list TopicRow; event_outbox : list OutboxRow; verification_runs : list EventBusVerificationReport }.
Definition no_events : BusDb := {| topic_rows := []; event_outbox := []; verification_runs := [] |}.
Definition with_topics l d := {| topic_rows := l; event_outbox := event_outbox d; verification_runs := verification_runs d |}.
Definition with_outbox l d := {| topic_rows := topic_rows d; event_outbox := l; verification_runs := verification_runs d |}.
Definition with_runs l d := {| topic_rows := topic_rows d; event_outbox := event_outbox d; verification_runs := l |}.

Notation DBM := (st BusDb bus_exc).
Definition refused {A} (m : string) : DBM A := raise (DatabaseError m).

Definition topic_checks (t : TopicSpec) : bool :=
  not_blank (name t) && not_blank (domain t) && (0 <? partitions t)%Z && int4 (partitions t)
  && (0 <? replication_factor t)%Z && int4 (replication_factor t) && (0 <=? retention_ms t)%Z && int8 (retention_ms t)
  && bool_decide (cleanup_policy t ∈ ["delete"; "compact"]).
Definition is_topic (n : string) (r : TopicRow) : bool := name (tr_spec r) =? n.
Definition persist_topic (now : Z) (t : TopicSpec) : DBM unit := fun d =>
  if negb (topic_checks t) then refused "topics_check" d
  else match tbl_find (is_topic (name t)) (topic_rows d) with
       | None => (Ok tt, with_topics (topic_rows d ++ [{| tr_spec := t; tr_created_at := now; tr_updated_at := now |}])%list d)
       | Some _ => (Ok tt, with_topics (tbl_update (is_topic (name t)) (fun r =>
           {| tr_spec := t; tr_created_at := tr_created_at r; tr_updated_at := now |}) (topic_rows d)) d)
       end.
Definition persist_topics (now : Z) (topics : list TopicSpec) : DBM unit := transaction (for_each (persist_topic now) topics).

Definition persist_verification_report (r : EventBusVerificationReport) : DBM unit := fun d =>
  if negb (not_blank (environment r)) then refused "event_bus_verification_environment_not_empty" d
  else if negb (not_blank (bootstrap_servers r)) then refused "event_bus_verification_bootstrap_servers_not_empty" d
  else (Ok tt, with_runs (verification_runs d ++ [r])%list d).

Definition outbox_headers (e : EventEnvelope) : json :=
  JDict [("event_id", JStr (event_id e)); ("producer_service", JStr (producer_service e));
         ("producer_plane", JStr (producer_plane e))].
Definition outbox_row (now : Z) (e : EventEnvelope) (aggregate_id : option string) : OutboxRow :=
  {| ob_event := event_id e; ob_topic := topic e; ob_type := event_type e; ob_version := event_version e;
     ob_aggregate := aggregate_id; ob_key := idempotency_key e; ob_payload := JDict (payload e); ob_headers := outbox_headers e;
     ob_status := PENDING; attempts := 0; ob_created_at := now; published_at := None |}.
Definition outbox_checks (r : OutboxRow) : bool :=
  not_blank (ob_topic r) && not_blank (ob_type r) && (0 <? ob_version r)%Z && int4 (ob_version r) && not_blank (ob_key r).
Definition is_event (id : string) (r : OutboxRow) : bool := ob_event r =? id.
Definition same_delivery (t k : string) (r : OutboxRow) : bool := (ob_topic r =? t) && (ob_key r =? k).

Definition enqueue_outbox_event (dict_dumper : bool) (now : Z) (e : EventEnvelope) (aggregate_id : option string)
    : DBM unit := fun d =>
  let r := outbox_row now e aggregate_id in
  if negb dict_dumper then (Err (ProgrammingError "cannot adapt type 'dict' using placeholder '%s' (format: AUTO)"), d)
  else if negb (outbox_checks r) then refused "event_outbox_check" d
  else if existsb (is_event (event_id e)) (event_outbox d) then (Ok tt, d)
  else if existsb (same_delivery (topic e) (idempotency_key e)) (event_outbox d)
  then refused "event_outbox_topic_idempotency_key_unique" d
  else (Ok tt, with_outbox (event_outbox d ++ [r])%list d).

Definition published (now : Z) (r : OutboxRow) : OutboxRow :=
  {| ob_event := ob_event r; ob_topic := ob_topic r; ob_type := ob_type r; ob_version := ob_version r;
     ob_aggregate := ob_aggregate r; ob_key := ob_key r; ob_payload := ob_payload r; ob_headers := ob_headers r;
     ob_status := PUBLISHED; attempts := attempts r; ob_created_at := ob_created_at r; published_at := Some now |}.
Definition failed (r : OutboxRow) : OutboxRow :=
  {| ob_event := ob_event r; ob_topic := ob_topic r; ob_type := ob_type r; ob_version := ob_version r;
     ob_aggregate := ob_aggregate r; ob_key := ob_key r; ob_payload := ob_payload r; ob_headers := ob_headers r;
     ob_status := FAILED; attempts := attempts r + 1; ob_created_at := ob_created_at r; published_at := published_at r |}.
Definition mark_outbox_event_published (now : Z) (id : string) : DBM unit := fun d =>
  (Ok tt, with_outbox (tbl_update (is_event id) (published now) (event_outbox d)) d).
Definition mark_outbox_event_failed (id : string) : DBM unit := fun d =>
  if existsb (fun r => is_event id r && negb (int4 (attempts r + 1))) (event_outbox d) then refused "integer out of range" d
  else (Ok tt, with_outbox (tbl_update (is_event id) failed (event_outbox d)) d).

(** ** cli.py *)

(** What is printed: the JSON of a value, with or without indentation, or a
    line. *)
Inductive Output := PrintedJson (j : json) | PrintedLine (s : string).
Record World (B : Type) := { broker : B; db : BusDb; printed : list Output }.
Arguments broker {B}. Arguments db {B}. Arguments printed {B}. Arguments Build_World {B}.

(** A message as the consumer gets it, and how a poll may end. *)
Record RawMessage := {
  r_topic : string; r_partition : Z; r_offset : Z; r_key : option string; r_value : string; r_headers : list (string * string)
}.
Inductive Poll := Received (m : RawMessage) | TimedOut | NoMessage.
Record ConsumedMessage := {
  c_topic : string; c_partition : Z; c_offset : Z; c_key : option string; c_value : string; c_headers : pydict string string
}.
(** A later header of the same name replaces an earlier one. *)
Definition decode_headers (raw : list (string * string)) : pydict string string :=
  foldl (fun d kv => dict_set kv.1 kv.2 d) [] raw.
Definition consumed (m : RawMessage) : ConsumedMessage :=
  {| c_topic := r_topic m; c_partition := r_partition m; c_offset := r_offset m;
     c_key := match r_key m with Some "" | None => None | k => k end; c_value := r_value m; c_headers := decode_headers (r_headers m) |}.

Section Commands.
Context {B : Type} `{Broker B} (dump_json : EventEnvelope -> string) (read_json : string -> result string EventEnvelope).
Notation W := (st (World B) bus_exc).

Definition on_broker {A} (m : st B bus_exc A) : W A := fun w =>
  let '(r, b) := m (broker w) in (r, {| broker := b; db := db w; printed := printed w |}).
Definition on_db {A} (m : DBM A) : W A := fun w =>
  let '(r, d) := m (db w) in (r, {| broker := broker w; db := d; printed := printed w |}).
Definition print (x : Output) : W unit := fun w =>
  (Ok tt, {| broker := broker w; db := db w; printed := (printed w ++ [x])%list |}).

(** [Model.model_validate_json], the fields read by pydantic. *)
Definition model_validate_json (text : string) : result bus_exc EventEnvelope :=
  map_err ValidationError (read_json text ≫= new_envelope).

Definition cmd_bootstrap (servers : string) (has_database : bool) (now : Z) : W Z :=
  created ← on_broker (ensure_topics (specs canonical));
  (if has_database then on_db (persist_topics now (specs canonical)) else mret tt) ≫= fun _ =>
  print (PrintedJson (JDict [("bootstrap_servers", JStr servers); ("created_topics", JList (map JStr created));
                             ("registered_topics", JList (map (fun t => JStr (name t)) (specs canonical)))])) ≫= fun _ =>
  mret 0%Z.

Definition verification_report (env servers : string) (now : Z) (observed : gset string) : EventBusVerificationReport :=
  let missing := filter (fun n => n ∉ observed) (map name (specs canonical)) in
  {| environment := env; bootstrap_servers := servers; generated_at := now; ok := bool_decide (missing = []);
     missing_topics := missing; observed_topics := py_sorted str_lt (elements observed) |}.
Definition report_json (r : EventBusVerificationReport) : json :=
  JDict [("environment", JStr (environment r)); ("bootstrap_servers", JStr (bootstrap_servers r));
         ("generated_at", JNum (generated_at r)); ("ok", JBool (ok r));
         ("missing_topics", JList (map JStr (missing_topics r))); ("observed_topics", JList (map JStr (observed_topics r)))].
Definition cmd_verify (env servers : string) (has_database : bool) (now : Z) : W Z :=
  observed ← on_broker list_broker_topics;
  let report := verification_report env servers now observed in
  (if has_database then on_db (persist_verification_report report) else mret tt) ≫= fun _ =>
  print (PrintedJson (report_json report)) ≫= fun _ =>
  mret (if ok report then 0 else 1)%Z.

(** The envelope of a heartbeat; two identifiers are drawn. *)
Definition heartbeat (service plane_ env drawn uuid : string) (now : Timestamp) : EventEnvelope :=
  {| event_id := drawn; event_type := "platform.event-bus.heartbeat"; event_version := 1; occurred_at := now;
     producer_service := service; producer_plane := plane_; correlation_id := None; causation_id := None;
     idempotency_key := "heartbeat:" ++ service ++ ":" ++ uuid; trace_id := None;
     payload := [("status", JStr "ok"); ("environment", JStr env)] |}.

(** [try: m finally: f], the exception of [f] replacing the one of [m]. *)
Definition finally {A} (m : W A) (f : W unit) : W A := fun w =>
  let '(r, w1) := m w in
  match f w1 with (Ok _, w2) => (r, w2) | (Err e, w2) => (Err e, w2) end.

Definition cmd_publish_heartbeat (service plane_ env drawn uuid : string) (now : Timestamp) : W Z :=
  finally
    (p ← lift (new_publisher service plane_ (Some canonical));
     e ← lift (map_err ValidationError (new_envelope (heartbeat service plane_ env drawn uuid now)));
     on_broker (publish dump_json p e) ≫= fun _ =>
     print (PrintedJson (JDict [("published", JBool true); ("topic", JStr HEARTBEAT_TOPIC); ("event_id", JStr (event_id e))])))
    (on_broker (call id close)) ≫= fun _ =>
  mret 0%Z.

(** What the consumer meets: before its [i]th message the clock shows
    [(poll i).1] and the poll ends as [(poll i).2]; a commit may fail.  The
    offsets committed are the state. *)
Context (poll : nat -> Z * Poll) (commit_fails : nat -> option string).

Record ConsumerState := { shown : list EventEnvelope; commits : list RawMessage }.
Notation C := (st ConsumerState bus_exc).

Definition show (e : EventEnvelope) : C unit := fun c => (Ok tt, {| shown := (shown c ++ [e])%list; commits := commits c |}).
Definition commit_offset (i : nat) (m : RawMessage) : C unit := fun c =>
  match commit_fails i with
  | Some e => (Err (BrokerError e), c)
  | None => (Ok tt, {| shown := shown c; commits := (commits c ++ [m])%list |})
  end.

(** [fuel] is the number of messages still wanted. *)
Fixpoint consume (fuel received : nat) (deadline : Z) : C nat :=
  match fuel with
  | O => mret received
  | S fuel' =>
      if (deadline - (poll received).1 <=? 0)%Z then mret received
      else match (poll received).2 with
           | TimedOut | NoMessage => mret received
           | Received m =>
               e ← lift (model_validate_json (c_value (consumed m)));
               show e ≫= fun _ =>
               commit_offset received m ≫= fun _ =>
               consume fuel' (S received) deadline
           end
  end.
Definition consume_heartbeat (max_messages : Z) (start timeout : Z) : C Z :=
  received ← consume (Z.to_nat max_messages) 0 (start + timeout);
  mret (if (received =? 0)%nat then 1 else 0)%Z.

Definition exc_text (e : bus_exc) : string :=
  match e with EventBusError m | ValidationError m | BrokerError m | DatabaseError m | ProgrammingError m => m end.
(** [main]: an exception is printed and the exit code is 1. *)
Definition main (command : W Z) (w : World B) : Z * World B :=
  match command w with
  | (Ok code, w') => (code, w')
  | (Err e, w') => (1%Z, {| broker := broker w'; db := db w'; printed := (printed w' ++ [PrintedLine ("event bus operation failed: " ++ exc_text e)])%list |})
  end.
End Commands.
