(* ===== verification/EventProps.v ===== *)
(** Which event types are accepted, what a consumer commits, what the outbox
    keeps. *)
From stdpp Require Import base strings list gmap sorting pretty numbers.
From Stdlib Require Import Ascii.
From S2P Require Import Prelude PyStr Json Regex EventBus EventStore.

#[local] Open Scope string_scope.

(** ** Event types *)

(** [word-word.word-word.…]: words of lower-case letters and digits, at least
    three segments. *)
Definition word (w : string) : Prop := w <> "" /\ str_forall lower_or_digit w = true.
Definition segment (s : string) : Prop := exists ws, ws <> [] /\ Forall word ws /\ s = join "-" ws.
Definition event_name (s : string) : Prop := exists segs, (3 <= length segs)%nat /\ Forall segment segs /\ s = join "." segs.

Lemma star_chars p s : lang (Star (Chr p)) s <-> str_forall p s = true.
Proof.
  rewrite star_list. split.
  - intros (l & -> & Hl). induction Hl as [|x l Hx Hl IH]; [done|]. inversion Hx as [|q c Hc He1 He2| | | | |]; subst.
    rewrite concat_cons. cbn. by rewrite Hc, IH.
  - induction s as [|c s IH]; [intros _; by exists []|]. cbn. intros [Hc Hs]%andb_true_iff. destruct (IH Hs) as (l & -> & Hl).
    exists (String c "" :: l). split; [by rewrite concat_cons|]. constructor; [by constructor|done].
Qed.

Lemma plus_chars p s : lang (Plus (Chr p)) s <-> s <> "" /\ str_forall p s = true.
Proof.
  unfold Plus. split.
  - intros H. lang_inv H. match goal with H : lang (Chr _) _ |- _ => lang_inv H end.
    split; [done|]. cbn. apply andb_true_iff. split; [done|]. by apply star_chars.
  - destruct s as [|c s]; [by intros [? _]|]. cbn. intros [_ [Hc Hs]%andb_true_iff].
    apply (lang_cat _ _ (String c "") s); [by constructor|by apply star_chars].
Qed.

(** Further items, each behind its separator. *)
Lemma star_separated c r s : lang (Star (Cat (Chr (is_char c)) r)) s <->
  exists l, Forall (lang r) l /\ s = String.concat "" (map (String c) l).
Proof.
  rewrite star_list. split.
  - intros (l & -> & Hl). induction Hl as [|x l Hx Hl (l' & Hl' & IH)]; [by exists []|].
    lang_inv Hx. match goal with H : lang (Chr _) _ |- _ => lang_inv H end.
    match goal with H : is_char _ _ = true |- _ => apply Ascii.eqb_eq in H; subst end.
    match goal with H : lang r ?t |- _ => exists (t :: l'); split; [by constructor|] end.
    cbn [map]. by rewrite !concat_cons, IH.
  - intros (l & Hl & ->). exists (map (String c) l). split; [done|]. apply Forall_map. eapply list.Forall_impl; [exact Hl|].
    intros t Ht. apply (lang_cat _ _ (String c "") t); [constructor; apply Ascii.eqb_refl|done].
Qed.

Lemma join_char c x l : join (String c "") (x :: l) = x ++ String.concat "" (map (String c) l).
Proof.
  revert x. induction l as [|y l IH]; intros x; [cbn; by rewrite str_app_nil_r|].
  change (join (String c "") (x :: y :: l)) with (x ++ String c "" ++ join (String c "") (y :: l)). rewrite IH.
  cbn [map]. by rewrite concat_cons.
Qed.

Lemma separated c r s : lang (Cat r (Star (Cat (Chr (is_char c)) r))) s <->
  exists l, l <> [] /\ Forall (lang r) l /\ s = join (String c "") l.
Proof.
  split.
  - intros H. inversion H as [| |? ? u v Hu Hv| | | |]; subst. apply star_separated in Hv as (l & Hl & ->).
    exists (u :: l). split_and!; [done|by constructor|]. by rewrite join_char.
  - intros ([|x l] & Hne & Hl & ->); [done|]. rewrite join_char. apply list.Forall_cons in Hl as [Hx Hl].
    apply lang_cat; [done|]. apply star_separated. by exists l.
Qed.

Lemma segment_iff s : lang SEGMENT s <-> segment s.
Proof.
  unfold SEGMENT, segment. rewrite (separated "-" WORD). split; intros (l & Hne & Hl & ->); exists l; (split_and!; [done| |done]).
  - eapply list.Forall_impl; [exact Hl|]. intros w Hw. by apply plus_chars.
  - eapply list.Forall_impl; [exact Hl|]. intros w Hw. by apply plus_chars.
Qed.

Lemma event_name_iff s : lang EVENT_TYPE_PATTERN s <-> event_name s.
Proof.
  unfold EVENT_TYPE_PATTERN, AtLeast2, event_name. split.
  - intros H. inversion H as [| |? ? a t Ha Ht| | | |]; subst. inversion Ht as [| |? ? b u Hb Hu| | | |]; subst.
    inversion Hu as [| |? ? d v Hd Hv| | | |]; subst. apply star_separated in Hv as (l & Hl & ->).
    inversion Hb as [| |? ? x b' Hx Hb'| | | |]; subst. inversion Hd as [| |? ? y d' Hy Hd'| | | |]; subst.
    inversion Hx as [|? c Hc| | | | |]; subst. inversion Hy as [|? c' Hc'| | | | |]; subst.
    apply Ascii.eqb_eq in Hc as ->. apply Ascii.eqb_eq in Hc' as ->.
    exists (a :: b' :: d' :: l). split_and!; [cbn; lia| |].
    + repeat (constructor; [by apply segment_iff|]). eapply list.Forall_impl; [exact Hl|]. intros ? ?. by apply segment_iff.
    + rewrite join_char. cbn [map]. by rewrite !concat_cons.
  - intros (segs & Hlen & Hsegs & ->). destruct segs as [|a [|b [|d l]]]; cbn in Hlen; try lia.
    rewrite !list.Forall_cons in Hsegs. destruct Hsegs as (Ha & Hb & Hd & Hl).
    assert (Hdot : forall t, segment t -> lang (Cat (Chr (is_char ".")) SEGMENT) (String "." t)).
    { intros t Ht. apply (lang_cat _ _ (String "." "") t); [by constructor|by apply segment_iff]. }
    rewrite join_char. cbn [map]. rewrite !concat_cons. apply lang_cat; [by apply segment_iff|].
    apply lang_cat; [by apply Hdot|]. apply lang_cat; [by apply Hdot|]. apply star_separated. exists l. split; [|done].
    eapply list.Forall_impl; [exact Hl|]. intros ? ?. by apply segment_iff.
Qed.

Lemma event_name_head s : event_name s -> exists c t, s = String c t /\ lower_or_digit c = true.
Proof.
  intros (segs & Hlen & Hsegs & ->). destruct segs as [|g segs]; [cbn in Hlen; lia|].
  apply list.Forall_cons in Hsegs as [(ws & Hne & Hws & ->) _]. destruct ws as [|w ws]; [done|].
  apply list.Forall_cons in Hws as [[Hw Hall] _]. rewrite !join_char. destruct w as [|c w]; [done|].
  cbn in Hall |- *. apply andb_true_iff in Hall as [Hc _]. by eexists _, _.
Qed.

Lemma strip_not_empty c s : is_space c = false -> str_empty (strip (String c s)) = false.
Proof. intros Hc. unfold strip. rewrite lstrip_head by done. cbn [rstrip]. rewrite Hc. by destruct (rstrip s). Qed.

Lemma lower_no_space c : lower_or_digit c = true -> is_space c = false.
Proof. by destruct c as [[] [] [] [] [] [] [] []]. Qed.

Lemma validate_event_type_iff v : validate_event_type v = Ok tt <->
  (String.length v <= 249)%nat /\ exists t, event_name t /\ (v = t \/ v = t ++ String newline "").
Proof.
  unfold validate_event_type. split.
  - destruct (str_empty _); [done|]. destruct (Nat.ltb_spec 249 (String.length v)); [done|].
    destruct (re_match _ _) eqn:Hm; [|done]. intros _. split; [lia|].
    apply re_match_iff in Hm as [Hm|(t & Hm & ->)]; apply event_name_iff in Hm; eauto.
  - intros [Hlen (t & Ht & Hv)]. destruct (event_name_head t Ht) as (c & t' & Hct & Hc).
    assert (Hvc : exists v', v = String c v') by (destruct Hv as [->| ->]; rewrite Hct; by eexists).
    destruct Hvc as [v' Hvc]. rewrite Hvc at 1. rewrite strip_not_empty by by apply lower_no_space.
    destruct (Nat.ltb_spec 249 (String.length v)); [lia|].
    assert (Hm : re_match EVENT_TYPE_PATTERN v = true).
    { apply re_match_iff. rewrite event_name_iff. setoid_rewrite event_name_iff. destruct Hv as [->| ->]; eauto. }
    by rewrite Hm.
Qed.

(** The topic of an event tells its type and its version. *)
Lemma no_v_digits (n : Z) : no_char "v" (pretty n).
Proof.
  destruct n as [|p|p]; [by apply (no_char_forall is_digit)| |].
  - apply (no_char_forall is_digit); [done|]. apply (pretty_dec (N.pos p)).
  - change (pretty (Z.neg p)) with (String "-" (pretty (N.pos p))). apply no_char_cons. split; [done|].
    apply (no_char_forall is_digit); [done|]. apply pretty_dec.
Qed.
Lemma topic_inj e e' : topic e = topic e' -> event_type e = event_type e' /\ event_version e = event_version e'.
Proof.
  unfold topic. intros H.
  assert (Hsplit : forall t n, (t ++ ".v" ++ n)%string = ((t ++ ".") ++ String "v" n)%string) by (intros; by rewrite str_app_assoc).
  rewrite !Hsplit in H. apply split_last_inj in H as [Ht Hn]; [|apply no_v_digits..]. split; [|by apply (inj pretty)].
  by apply (split_last_inj "." _ "" _ "") in Ht as [Ht _].
Qed.

(** ** Consuming *)

Section Consuming.
Context (read_json : string -> result string EventEnvelope) (poll : nat -> Z * Poll) (commit_fails : nat -> option string)
  (deadline : Z).

(** A message that was shown and committed, as the [i]th. *)
Definition handled (i : nat) (x : RawMessage * EventEnvelope) : Prop :=
  (poll i).2 = Received x.1 /\ ((poll i).1 < deadline)%Z /\ model_validate_json read_json (r_value x.1) = Ok x.2 /\
  commit_fails i = None.
(** No further message is taken. *)
Definition stops (i : nat) : Prop := (deadline <= (poll i).1)%Z \/ (poll i).2 = TimedOut \/ (poll i).2 = NoMessage.

(** How consuming ends after the messages [handled_] from the [from]th on: with
    [extra] shown besides. *)
Definition ends (from fuel : nat) (l : list (RawMessage * EventEnvelope)) (r : result bus_exc nat) (extra : list EventEnvelope) : Prop :=
  (forall i x, l !! i = Some x -> handled (from + i) x) /\ (length l <= fuel)%nat /\
  match r with
  | Ok n => extra = [] /\ n = (from + length l)%nat /\ (length l = fuel \/ stops (from + length l))
  | Err e => (length l < fuel)%nat /\ exists m, (poll (from + length l)).2 = Received m /\
      match model_validate_json read_json (r_value m) with
      | Err e' => e = e' /\ extra = []
      | Ok env => extra = [env] /\ exists t, commit_fails (from + length l) = Some t /\ e = BrokerError t
      end
  end.

Lemma consume_spec fuel : forall from c r c', consume read_json poll commit_fails fuel from deadline c = (r, c') ->
  exists l extra, ends from fuel l r extra /\ shown c' = (shown c ++ l.*2 ++ extra)%list /\ commits c' = (commits c ++ l.*1)%list.
Proof.
  induction fuel as [|fuel IH]; intros from c r c' Hr; cbn [consume] in Hr.
  { injection Hr as <- <-. exists [], []. rewrite !app_nil_r. split_and!; [unfold ends|done|done]. split_and!; [by intros ? ? ?|cbn; lia|done|cbn; lia|by left]. }
  assert (Hstop : stops from -> (Ok from, c) = (r, c') ->
    exists l extra, ends from (S fuel) l r extra /\ shown c' = (shown c ++ l.*2 ++ extra)%list /\ commits c' = (commits c ++ l.*1)%list).
  { intros Hs [= <- <-]. exists [], []. rewrite !app_nil_r. split_and!; [unfold ends|done|done]. split_and!; [by intros ? ? ?|cbn; lia|done|cbn; lia|].
    right. by rewrite Nat.add_0_r. }
  destruct (Z.leb_spec (deadline - (poll from).1) 0); [apply Hstop; [left; lia|done]|].
  destruct (poll from).2 as [m| |] eqn:Hp; [|apply Hstop; [by right; left|done]|apply Hstop; [by right; right|done]].
  rewrite st_bind_lift in Hr. change (c_value (consumed m)) with (r_value m) in Hr.
  destruct (model_validate_json read_json (r_value m)) as [e|e] eqn:He; cycle 1.
  { injection Hr as <- <-. exists [], []. rewrite !app_nil_r. split_and!; [unfold ends|done|done]. split_and!; [by intros ? ? ?|cbn; lia|cbn; lia|].
    exists m. rewrite Nat.add_0_r, Hp, He. done. }
  rewrite (st_bind_ok _ _ c tt {| shown := (shown c ++ [e])%list; commits := commits c |}) in Hr by done.
  destruct (commit_fails from) as [t|] eqn:Hc.
  { rewrite (st_bind_err _ _ _ (BrokerError t) {| shown := (shown c ++ [e])%list; commits := commits c |}) in Hr
      by (unfold commit_offset; by rewrite Hc).
    injection Hr as <- <-. exists [], [e]. rewrite !app_nil_r. split_and!; [unfold ends|done|done]. split_and!; [by intros ? ? ?|cbn; lia|cbn; lia|].
    exists m. rewrite Nat.add_0_r, Hp, He. split_and!; try done. by exists t. }
  rewrite (st_bind_ok _ _ _ tt {| shown := (shown c ++ [e])%list; commits := (commits c ++ [m])%list |}) in Hr
    by (unfold commit_offset; by rewrite Hc).
  apply IH in Hr as (l & extra & (Hl & Hlen & Hend) & Hsh & Hco). exists ((m, e) :: l), extra. split_and!.
  - assert (Hn : forall k, (from + S k)%nat = (S from + k)%nat) by (intros; lia). split_and!.
    + intros [|i] x Hx; [injection Hx as <-; rewrite Nat.add_0_r; split_and!; cbn; [done|lia|done..]|]. rewrite Hn. by apply Hl.
    + cbn. lia.
    + cbn [length]. rewrite Hn. destruct r as [n|e'].
      * destruct Hend as (-> & -> & [->|Hs]); split_and!; try done; [by left|by right].
      * destruct Hend as [Hlt Hm]. split; [lia|done].
  - rewrite Hsh. cbn. by rewrite <- (assoc_L (++)%list).
  - rewrite Hco. cbn. by rewrite <- (assoc_L (++)%list).
Qed.
End Consuming.

(** ** The outbox *)

Inductive OutboxCall :=
| Enqueue (now : Z) (e : EventEnvelope) (aggregate_id : option string)
| MarkPublished (now : Z) (id : string)
| MarkFailed (id : string).
Definition outbox_call (dict_dumper : bool) (c : OutboxCall) : st BusDb bus_exc unit :=
  match c with
  | Enqueue now e a => enqueue_outbox_event dict_dumper now e a
  | MarkPublished now id => mark_outbox_event_published now id
  | MarkFailed id => mark_outbox_event_failed id
  end.
Definition outbox_calls (dict_dumper : bool) (l : list OutboxCall) (d : BusDb) : BusDb :=
  foldl (fun d c => (outbox_call dict_dumper c d).2) d l.

(** What of a row never changes. *)
Definition row_identity (r : OutboxRow) : string * (string * string) * (string * Z * json) :=
  (ob_event r, (ob_topic r, ob_key r), (ob_type r, ob_version r, ob_payload r)).
Definition delivery (r : OutboxRow) : string * string := (ob_topic r, ob_key r).

Definition row_ok (r : OutboxRow) : Prop :=
  outbox_checks r = true /\ (0 <= attempts r)%Z /\ int4 (attempts r) = true /\ (ob_status r = PUBLISHED -> is_Some (published_at r)).
Definition outbox_ok (d : BusDb) : Prop :=
  NoDup (ob_event <$> event_outbox d) /\ NoDup (delivery <$> event_outbox d) /\ Forall row_ok (event_outbox d).

Lemma update_identity p f (l : list OutboxRow) : (forall r, row_identity (f r) = row_identity r) ->
  row_identity <$> tbl_update p f l = row_identity <$> l.
Proof.
  intros Hf. unfold tbl_update. rewrite <- list_fmap_compose. apply list_fmap_ext. intros i r _. cbn. destruct (p r); [apply Hf|done].
Qed.
Lemma identity_events (l l' : list OutboxRow) : row_identity <$> l = row_identity <$> l' -> ob_event <$> l = ob_event <$> l'.
Proof.
  intros H. assert (He : forall l : list OutboxRow, ob_event <$> l = (fun x => x.1.1) <$> (row_identity <$> l)) by (intros; by rewrite <- list_fmap_compose).
  by rewrite !He, H.
Qed.
Lemma identity_deliveries (l l' : list OutboxRow) : row_identity <$> l = row_identity <$> l' -> delivery <$> l = delivery <$> l'.
Proof.
  intros H. assert (He : forall l : list OutboxRow, delivery <$> l = (fun x => x.1.2) <$> (row_identity <$> l)) by (intros; by rewrite <- list_fmap_compose).
  by rewrite !He, H.
Qed.

Lemma marked_ok p f d : outbox_ok d -> (forall r, row_identity (f r) = row_identity r) ->
  (forall r, r ∈ event_outbox d -> p r = true -> row_ok r -> row_ok (f r)) ->
  outbox_ok (with_outbox (tbl_update p f (event_outbox d)) d) /\
  (row_identity <$> event_outbox d) `prefix_of` (row_identity <$> tbl_update p f (event_outbox d)).
Proof.
  intros (H1 & H2 & H3) Hf Hok. pose proof (update_identity p f (event_outbox d) Hf) as Hid. split; [split_and!|by rewrite Hid].
  - cbn. by rewrite (identity_events _ _ Hid).
  - cbn. by rewrite (identity_deliveries _ _ Hid).
  - cbn. unfold tbl_update. apply Forall_fmap. rewrite list.Forall_forall in H3 |- *. intros r Hr. cbn.
    destruct (p r) eqn:Hp; [by apply Hok, H3|by apply H3].
Qed.

Lemma existsb_none {A} (p : A -> bool) l : existsb p l = false -> forall x, x ∈ l -> p x = false.
Proof. intros H x Hx. apply not_true_iff_false. intros Hp. apply not_true_iff_false in H. apply H, existsb_elem. eauto. Qed.

Lemma call_ok dict_dumper c d : outbox_ok d ->
  outbox_ok (outbox_call dict_dumper c d).2 /\
  (row_identity <$> event_outbox d) `prefix_of` (row_identity <$> event_outbox (outbox_call dict_dumper c d).2).
Proof.
  intros Hok. destruct c as [now e a|now id|id]; cbn [outbox_call].
  - unfold enqueue_outbox_event. destruct (negb dict_dumper); [done|]. destruct (outbox_checks _) eqn:Hc; [|done]. cbn [negb].
    destruct (existsb (is_event _) _) eqn:He; [done|]. destruct (existsb (same_delivery _ _) _) eqn:Hs; [done|]. cbn [snd].
    destruct Hok as (H1 & H2 & H3). split; [split_and!|cbn; rewrite fmap_app; by eexists]; cbn.
    + rewrite fmap_app. apply list.NoDup_app. split_and!; [done| |apply list.NoDup_singleton].
      intros x (r & -> & Hr)%list_elem_of_fmap Hx%list_elem_of_singleton. pose proof (existsb_none _ _ He r Hr) as Hn.
      unfold is_event in Hn. by rewrite Hx, String.eqb_refl in Hn.
    + rewrite fmap_app. apply list.NoDup_app. split_and!; [done| |apply list.NoDup_singleton].
      intros x (r & -> & Hr)%list_elem_of_fmap Hx%list_elem_of_singleton. pose proof (existsb_none _ _ Hs r Hr) as Hn.
      unfold same_delivery in Hn. injection Hx as Ht Hk. by rewrite Ht, Hk, !String.eqb_refl in Hn.
    + apply Forall_app. split; [done|]. constructor; [by split_and!|constructor].
  - apply marked_ok; [done|done|]. intros r _ _ (? & ? & ? & _). by split_and!.
  - unfold mark_outbox_event_failed. destruct (existsb _ _) eqn:He; [done|]. apply marked_ok; [done|done|].
    intros r Hr Hp (? & ? & ? & _). pose proof (existsb_none _ _ He r Hr) as Hn. cbn in Hn. rewrite Hp in Hn.
    apply negb_false_iff in Hn. split_and!; try done. cbn. lia.
Qed.

Lemma calls_ok dict_dumper l : forall d, outbox_ok d ->
  outbox_ok (outbox_calls dict_dumper l d) /\
  (row_identity <$> event_outbox d) `prefix_of` (row_identity <$> event_outbox (outbox_calls dict_dumper l d)).
Proof.
  induction l as [|c l IH]; intros d Hd; [done|]. destruct (call_ok dict_dumper c d Hd) as [Hok Hpre].
  destruct (IH _ Hok) as [Hok' Hpre']. split; [done|]. by etrans.
Qed.

(** ** The promises *)

(** An event type is accepted exactly when it has at most 249 characters and
    is three or more segments between dots, each of words of lower-case letters
    and digits between hyphens, with at most one newline after it: what the
    regular expression of the source says. *)
Theorem event_type_recognised (v : string) : validate_event_type v = Ok tt <->
  (String.length v <= 249)%nat /\ exists t, event_name t /\ (v = t \/ v = t ++ String newline "").
Proof. apply validate_event_type_iff. Qed.

(** C31: A consumer commits only what it showed, in order: whatever it polls and
    whichever commit fails, the messages committed are the first ones polled,
    each a valid envelope, at most as many as were wanted, all before the
    deadline; it ends with as many as were wanted, at a poll without a message
    or past the deadline, or with the exception of the first message that is no
    envelope or whose commit fails, which is then not committed.  Exit code 0
    means that some message was committed. *)
Theorem consume_in_order read_json poll commit_fails max_messages start timeout r c
  (Hrun : consume_heartbeat read_json poll commit_fails max_messages start timeout {| shown := []; commits := [] |} = (r, c)) :
  exists l extra, shown c = (l.*2 ++ extra)%list /\ commits c = l.*1 /\
    ends read_json poll commit_fails (start + timeout) 0 (Z.to_nat max_messages) l
      (match r with Ok _ => Ok (length l) | Err e => Err e end) extra /\
    forall code, r = Ok code -> code = (if decide (l = []) then 1 else 0)%Z.
Proof.
  unfold consume_heartbeat in Hrun. apply st_bind_inv in Hrun as [(n & c1 & H1 & Hr)|(e & H1 & ->)];
    apply consume_spec in H1 as (l & extra & Hends & Hsh & Hco); exists l, extra.
  - injection Hr as <- <-. pose proof Hends as (_ & _ & _ & -> & _). cbn [Nat.add] in *. split_and!; [done..|].
    intros code [= <-]. by destruct l.
  - by split_and!.
Qed.

(** C32: The outbox holds an event once: whatever is enqueued and marked, in
    whatever order, no two rows have the same event or the same key for a topic,
    what identifies a row never changes and no row is lost; an event that is
    there is not enqueued again; attempts are counted within the column's range
    and a published row has its time. *)
Theorem outbox_once (dict_dumper : bool) (before after : list OutboxCall) :
  let d := outbox_calls dict_dumper before no_events in
  let d' := outbox_calls dict_dumper after d in
  outbox_ok d /\ (row_identity <$> event_outbox d) `prefix_of` (row_identity <$> event_outbox d') /\
  forall now e a, event_id e ∈ (ob_event <$> event_outbox d) -> (outbox_call dict_dumper (Enqueue now e a) d).2 = d.
Proof.
  assert (Hempty : outbox_ok no_events) by (split_and!; constructor).
  cbv zeta. pose proof (calls_ok dict_dumper before _ Hempty) as [Hd _].
  split_and!; [done|by apply calls_ok|]. intros now e a (r & He & Hr)%list_elem_of_fmap. cbn. unfold enqueue_outbox_event.
  destruct (negb dict_dumper); [done|]. destruct (negb _); [done|].
  assert (existsb (is_event (event_id e)) (event_outbox (outbox_calls dict_dumper before no_events)) = true) as ->; [|done].
  apply existsb_elem. exists r. split; [done|]. unfold is_event. rewrite He. apply String.eqb_refl.
Qed.

(** ** Examples *)

(** A broker that keeps what it gets. *)
Record LogBroker := { sent : list Message; known : gset string }.
#[export] Instance LogBroker_ops : Broker LogBroker := {
  send_and_wait m b := (Ok tt, {| sent := (sent b ++ [m])%list; known := known b |});
  close b := (Ok tt, b);
  list_topics b := (Ok (known b), b);
  create_topics l b := (Ok tt, {| sent := sent b; known := known b ∪ list_to_set (map nt_name l) |})
}.
Definition new_world : World LogBroker := Build_World {| sent := []; known := ∅ |} no_events [].
Definition sample_time : Timestamp := {| clock_text := "2026-01-01T00:00:00"; zone := Some "+00:00" |}.
Definition sample_dump (e : EventEnvelope) : string := event_id e.
Definition sample_read (service : string) (text : string) : result string EventEnvelope :=
  if text =? "broken" then Err "Invalid JSON" else Ok (heartbeat service "CONTROL" "local" text "u" sample_time).

(** A bus that is set up is complete; an empty one is not. *)
Example bootstrap_creates :
  let w := (main (cmd_bootstrap "localhost:9092" true 5) new_world).2 in
  length (topic_rows (db w)) = 4%nat /\ (main (cmd_verify "local" "localhost:9092" true 6) w).1 = 0%Z /\
  (main (cmd_verify "local" "localhost:9092" true 6) new_world).1 = 1%Z.
Proof. by vm_compute. Qed.

(** The heartbeat of a service reaches a consumer. *)
Definition after_heartbeat : World LogBroker :=
  (main (cmd_publish_heartbeat sample_dump "svc" "CONTROL" "local" "e1" "u" sample_time) new_world).2.
Definition sample_message (o : Z) (text : string) : RawMessage :=
  {| r_topic := HEARTBEAT_TOPIC; r_partition := 0; r_offset := o; r_key := Some "k"; r_value := text; r_headers := [] |}.
(** The message sent, then one that is broken. *)
Definition sample_poll (i : nat) : Z * Poll :=
  match i with
  | 0%nat => (1%Z, Received (sample_message 0 (default "" (head (m_value <$> sent (broker after_heartbeat))))))
  | _ => (2%Z, Received (sample_message 1 "broken"))
  end.

Example heartbeat_arrives :
  consume_heartbeat (sample_read "svc") sample_poll (fun _ => None) 1 0 10 {| shown := []; commits := [] |} =
  (Ok 0%Z, {| shown := [heartbeat "svc" "CONTROL" "local" "e1" "u" sample_time]; commits := [sample_message 0 "e1"] |}).
Proof. by vm_compute. Qed.

Lemma consume_in_order_witness : exists r c,
  consume_heartbeat (sample_read "svc") sample_poll (fun _ => None) 5 0 10 {| shown := []; commits := [] |} = (r, c) /\
  r = Err (ValidationError "Invalid JSON") /\ exists l extra, shown c = (l.*2 ++ extra)%list /\ commits c = l.*1 /\ length l = 1%nat.
Proof.
  destruct (consume_heartbeat (sample_read "svc") sample_poll (fun _ => None) 5 0 10 {| shown := []; commits := [] |})
    as [r c] eqn:Hrun. exists r, c. split; [reflexivity|].
  destruct (consume_in_order (sample_read "svc") sample_poll (fun _ => None) 5 0 10 r c Hrun) as (l & extra & Hsh & Hco & _).
  vm_compute in Hrun. injection Hrun as Hr Hc. split; [symmetry; exact Hr|]. exists l, extra. split; [exact Hsh|].
  split; [exact Hco|]. rewrite <- (length_fmap fst l). rewrite <- Hco, <- Hc. reflexivity.
Defined.

(** ** What the bus does not do *)

(** A message that is no envelope is never committed: the consumer fails on it
    again each time it starts, and nothing goes to the dead-letter topic. *)
Lemma poison_message_stays m poll : model_validate_json (sample_read "svc") (r_value m) = Err (ValidationError "Invalid JSON") ->
  poll 0%nat = (0%Z, Received m) ->
  consume_heartbeat (sample_read "svc") poll (fun _ => None) 1 0 10 {| shown := []; commits := [] |} =
  (Err (ValidationError "Invalid JSON"), {| shown := []; commits := [] |}).
Proof.
  intros Hm Hp.
  assert (Hc : consume (sample_read "svc") poll (fun _ => None) 1 0 (0 + 10) {| shown := []; commits := [] |} =
    (Err (ValidationError "Invalid JSON"), {| shown := []; commits := [] |})).
  { cbn [consume]. rewrite Hp. cbn [fst snd]. destruct (Z.leb_spec (0 + 10 - 0) 0); [lia|]. rewrite st_bind_lift.
    change (c_value (consumed m)) with (r_value m). by rewrite Hm. }
  unfold consume_heartbeat. change (Z.to_nat 1) with 1%nat. by run_err Hc.
Qed.

(** An event type may end in a newline. *)
Lemma newline_type_passes : validate_event_type ("a.b.c" ++ String newline "") = Ok tt.
Proof. by vm_compute. Qed.

(** Without a dumper for dict nothing can be enqueued. *)
Lemma plain_driver_enqueues_nothing now e a d :
  outbox_call false (Enqueue now e a) d =
  (Err (ProgrammingError "cannot adapt type 'dict' using placeholder '%s' (format: AUTO)"), d).
Proof. done. Qed.

(** A published event may be marked failed. *)
Lemma published_then_failed :
  (fun r => (ob_status r, attempts r)) <$>
    event_outbox (outbox_calls true [Enqueue 1 (heartbeat "svc" "CONTROL" "local" "e1" "u" sample_time) None;
                                     MarkPublished 2 "e1"; MarkFailed "e1"] no_events) = [(FAILED, 1%Z)].
Proof. by vm_compute. Qed.
