(* ===== verification/StartUp.v ===== *)
(** The start-up of the services: [apply_migrations], of which nine packages
    have a copy, over a store of files and a connection in autocommit mode.

    A script that is executed is text for the server: what it does to the
    database, and what of it stays when it fails, is the parameter [execute]. *)
From stdpp Require Import base strings list gmap.
From Stdlib Require Import Ascii.
From S2P Require Import Prelude PyStr PyPath.

#[local] Open Scope string_scope.

(** The exceptions of the packages, of the file system and of the driver. *)
Inductive startup_exc :=
| AuditRepositoryError (m : string) | TestingRepositoryError (m : string) | DRRepositoryError (m : string)
| BackupRepositoryError (m : string) | TracingRepositoryError (m : string) | ConfigRepositoryError (m : string)
| LoggingRepositoryError (m : string) | FileNotFound (m : string) | Os (e : os_exc) | Database (m : string).

(** [sorted(path.glob("*.sql"))], as names: the entries of a directory; a file
    has none. *)
Definition glob_sql (p : Path) (fs : FileSystem) : list string :=
  filter (fun n => ends_with ".sql" n = true) (iterdir p fs).
(** [(path / name).read_text()] *)
Definition script_text (p : Path) (fs : FileSystem) (n : string) : result startup_exc string :=
  map_err Os (b ← read_bytes (p.1, (p.2 ++ [n])%list) fs; Ok (universal_newlines b)).

Section StartUp.
Context {D : Type} (connect : st D startup_exc unit) (execute : string -> st D startup_exc unit).

Definition apply_sql_directory (package_error : string -> startup_exc) (fs : FileSystem) (migrations_dir : string)
    : st D startup_exc unit :=
  let path := path_of migrations_dir in
  guard_raise (negb (path_exists path fs)) (package_error ("migrations directory does not exist: " ++ path_str path)) ≫= fun _ =>
  let migrations := glob_sql path fs in
  guard_raise (bool_decide (migrations = [])) (package_error ("no SQL migrations found in " ++ path_str path)) ≫= fun _ =>
  connect ≫= fun _ =>
  for_each (fun m => sql ← lift (script_text path fs m); execute sql) migrations.

Definition audit_apply_migrations := apply_sql_directory AuditRepositoryError.
Definition testing_apply_migrations := apply_sql_directory TestingRepositoryError.
Definition dr_apply_migrations := apply_sql_directory DRRepositoryError.
Definition backup_apply_migrations := apply_sql_directory BackupRepositoryError.
Definition tracing_apply_migrations := apply_sql_directory TracingRepositoryError.
Definition config_apply_migrations := apply_sql_directory ConfigRepositoryError.
Definition logging_apply_migrations := apply_sql_directory LoggingRepositoryError.
Definition versioning_apply_migrations := apply_sql_directory FileNotFound.
Definition auth_apply_migrations := apply_sql_directory FileNotFound.
End StartUp.

(** ** What a start-up executes *)

(** A server that keeps what it executed, and refuses scripts as [refuses]
    says. *)
Section Recorded.
Context (refuses : list string -> string -> option string).
Definition record (sql : string) : st (list string) startup_exc unit := fun h =>
  match refuses h sql with Some e => (Err (Database e), h) | None => (Ok tt, (h ++ [sql])%list) end.
Definition connected : st (list string) startup_exc unit := mret tt.
(** The server takes a list of scripts, in order. *)
Fixpoint accepts (h : list string) (l : list string) : Prop :=
  match l with [] => True | s :: l' => refuses h s = None /\ accepts (h ++ [s]) l' end.

Lemma scripts_spec p fs names : forall h x h',
  for_each (fun m => sql ← lift (script_text p fs m); record sql) names h = (x, h') ->
  exists done rest, names = (done ++ rest)%list /\
    exists texts, map_result (script_text p fs) done = Ok texts /\ h' = (h ++ texts)%list /\ accepts h texts /\
    match x, rest with
    | Ok _, _ => rest = []
    | Err e, n :: _ => match script_text p fs n with Ok sql => exists m, refuses h' sql = Some m /\ e = Database m | Err e' => e = e' end
    | Err _, [] => False
    end.
Proof.
  induction names as [|n names IH]; intros h x h' H; cbn [for_each] in H.
  - injection H as <- <-. exists [], []. split; [done|]. exists []. by rewrite app_nil_r.
  - st_inv H as u h1 H1.
    + rewrite st_bind_lift in H1. destruct (script_text p fs n) as [sql|] eqn:Hs; [|done]. unfold record in H1.
      destruct (refuses h sql) eqn:Hr; [done|]. injection H1 as _ <-.
      destruct (IH _ _ _ H) as (dn & rest & -> & texts & Ht & -> & Ha & Hx). exists (n :: dn), rest. split; [done|].
      exists (sql :: texts). cbn [map_result]. rewrite Hs. cbn. rewrite Ht. rewrite <- app_assoc in *. split_and!; done.
    + exists [], (n :: names). split; [done|]. exists []. rewrite st_bind_lift in H1.
      destruct (script_text p fs n) as [sql|e'] eqn:Hs.
      * unfold record in H1. destruct (refuses h sql) as [m|] eqn:Hr; [|done]. injection H1 as <- <-. rewrite app_nil_r.
        split_and!; [done..|]. by exists m.
      * injection H1 as <- <-. by rewrite app_nil_r.
Qed.
End Recorded.

(** Every start executes the scripts of the directory, those whose name ends in
    .sql, in the order of their names, from the first: all of them, or those
    before the first that cannot be read or is refused. *)
Lemma start_executes refuses package_error fs dir h x h' :
  apply_sql_directory connected (record refuses) package_error fs dir h = (x, h') ->
  let p := path_of dir in
  (h' = h /\ (exists m, x = Err (package_error m)) /\ (path_exists p fs = false \/ glob_sql p fs = [])) \/
  (path_exists p fs = true /\ glob_sql p fs <> [] /\
   exists done rest, glob_sql p fs = (done ++ rest)%list /\
    exists texts, map_result (script_text p fs) done = Ok texts /\ h' = (h ++ texts)%list /\ accepts refuses h texts /\
    match x, rest with
    | Ok _, _ => rest = []
    | Err e, n :: _ => match script_text p fs n with Ok sql => exists m, refuses h' sql = Some m /\ e = Database m | Err e' => e = e' end
    | Err _, [] => False
    end).
Proof.
  unfold apply_sql_directory. intros H. rewrite guard_raise_bind in H.
  destruct (path_exists _ fs) eqn:Hp; cbn [negb] in H; [|injection H as <- <-; left; eauto].
  rewrite guard_decide_bind in H. case_decide as Hg; [injection H as <- <-; left; eauto|]. right.
  split; [done|]. split; [done|]. by apply scripts_spec.
Qed.

Example start_sample :
  let fs := {| files := list_to_map [(("/", ["m"; "0002_b.sql"]), "B"); (("/", ["m"; "0001_a.sql"]), "A"); (("/", ["m"; "x.txt"]), "X")];
               dirs := {[ ("/", ["m"]) ]} |} in
  audit_apply_migrations connected (record (fun _ _ => None)) fs "/m" [] = (Ok tt, ["A"; "B"]) /\
  (auth_apply_migrations connected (record (fun _ _ => None)) fs "/n" []).1 =
    Err (FileNotFound "migrations directory does not exist: /n").
Proof. by vm_compute. Qed.
