(* ===== verification/Tracing.v ===== *)
(** Tracing, the library: [context.py], [redaction.py], [sampler.py] and
    [middleware.py] of apexquant-tracing.

    A float is the rational it stands for, not a number, or an infinity; [rnd]
    is the rounding of a product.  OpenTelemetry's extraction and tracer are
    given by the span context they start.

    Hexadecimal text: [format(n, "0<w>x")] and [int(s, 16)] on ASCII text, each
    undoing the other on lower-case digits. *)
From stdpp Require Import base strings list numbers gmap.
From Stdlib Require Import Ascii QArith Qround.
From S2P Require Import Prelude PyStr Json Regex.

#[local] Open Scope string_scope.

(** * Hexadecimal text *)

(** The last digits of a number. *)
Fixpoint hex_low (w : nat) (n : N) : string :=
  match w with O => "" | S w' => hex_low w' (n / 16)%N ++ String (hex_digit (n mod 16)) "" end.
Definition hex_width (n : N) : nat := N.to_nat ((N.size n + 3) / 4).
(** [format(n, "0<w>x")] *)
Definition format_hex (w : nat) (n : N) : string := hex_low (Nat.max w (Nat.max 1 (hex_width n))) n.

Fixpoint hex_acc (acc : N) (s : string) : N :=
  match s with "" => acc | String c s' => hex_acc (16 * acc + default 0%N (hex_value c)) s' end.

(** The characters [int] strips: those of C's [isspace]. *)
Definition is_c_space (c : ascii) : bool := between 9 13 c || (c =? " ")%char.
Fixpoint c_lstrip (s : string) : string :=
  match s with String c s' => if is_c_space c then c_lstrip s' else s | "" => "" end.
Fixpoint c_rstrip (s : string) : string :=
  match s with
  | "" => ""
  | String c s' => match c_rstrip s' with "" => if is_c_space c then "" else String c "" | r => String c r end
  end.
(** A sign, the prefix 0x with the underscore that may follow it, and digits in
    groups with one underscore between two of them. *)
Definition split_sign (s : string) : bool * string :=
  match s with
  | String c t => if (c =? "-")%char then (true, t) else if (c =? "+")%char then (false, t) else (false, s)
  | "" => (false, "")
  end.
Definition drop_prefix (s : string) : string :=
  match s with
  | String z (String x t) =>
      if (z =? "0")%char && ((x =? "x")%char || (x =? "X")%char)
      then match t with String u t' => if (u =? "_")%char then t' else t | "" => "" end
      else s
  | _ => s
  end.
Definition is_hex (c : ascii) : bool := bool_decide (is_Some (hex_value c)).
Definition hex_group (s : string) : bool := negb (str_empty s) && str_forall is_hex s.
(** [int(s, 16)]; [None] is the ValueError *)
Definition int_base16 (s : string) : option Z :=
  let '(neg, t) := split_sign (c_rstrip (c_lstrip s)) in
  let groups := split_on "_" (drop_prefix t) in
  if forallb hex_group groups then
    let n := Z.of_N (hex_acc 0 (String.concat "" groups)) in
    Some (if neg then (- n)%Z else n)
  else None.

Example int_base16_samples :
  (int_base16 "ff", int_base16 " -0x_1F ", int_base16 "1_0", int_base16 "1__0", int_base16 "0x", int_base16 "") =
  (Some 255, Some (-31), Some 16, None, None, None)%Z.
Proof. reflexivity. Qed.

(** ** Digits *)

Lemma hex_digit_facts n : (n < 16)%N -> hex_char (hex_digit n) = true /\ hex_value (hex_digit n) = Some n.
Proof.
  intros Hn. set (ok n := hex_char (hex_digit n) && bool_decide (hex_value (hex_digit n) = Some n)).
  assert (H : forallb (fun k => ok (N.of_nat k)) (seq 0 16) = true) by reflexivity.
  rewrite forallb_forall in H. specialize (H (N.to_nat n)). rewrite N2Nat.id in H.
  apply andb_true_iff in H as [H1 H2]; [|apply in_seq; lia]. by apply bool_decide_eq_true in H2.
Qed.
Lemma hex_char_digit c : hex_char c = true -> exists n, (n < 16)%N /\ hex_value c = Some n /\ hex_digit n = c.
Proof.
  destruct c as [[] [] [] [] [] [] [] []]; intros H; try discriminate H;
    eexists; (split; [|split; [reflexivity|reflexivity]]); reflexivity.
Qed.

Lemma hex_acc_app acc s t : hex_acc acc (s ++ t) = hex_acc (hex_acc acc s) t.
Proof. revert acc. induction s as [|c s IH]; intros acc; [done|apply IH]. Qed.
Lemma hex_low_chars w : forall n, String.length (hex_low w n) = w /\ str_forall hex_char (hex_low w n) = true.
Proof.
  induction w as [|w IH]; intros n; [done|]. cbn [hex_low]. destruct (IH (n / 16)%N) as [Hl Hc].
  rewrite length_app_str, Hl, str_forall_app, Hc. cbn [String.length str_forall andb]. split; [lia|].
  destruct (hex_digit_facts (n mod 16)) as [-> _]; [apply N.mod_lt; lia|done].
Qed.
Lemma hex_acc_low w : forall n, (n < 16 ^ N.of_nat w)%N -> hex_acc 0 (hex_low w n) = n.
Proof.
  induction w as [|w IH]; intros n Hn; [cbn in Hn; cbn; lia|]. cbn [hex_low].
  rewrite hex_acc_app, IH.
  - cbn. destruct (hex_digit_facts (n mod 16)) as [_ ->]; [apply N.mod_lt; lia|]. cbn.
    pose proof (N.div_mod n 16 ltac:(lia)). lia.
  - apply N.Div0.div_lt_upper_bound. rewrite Nnat.Nat2N.inj_succ, N.pow_succ_r' in Hn. done.
Qed.

(** A text is its last character after the others. *)
Lemma str_snoc_ind (P : string -> Prop) : P "" -> (forall s c, P s -> P (s ++ String c "")) -> forall s, P s.
Proof.
  intros H0 Hs. assert (H : forall s t, P t -> P (t ++ s)).
  { induction s as [|c s IH]; intros t Ht; [by rewrite str_app_nil_r|].
    change (String c s) with (String c "" ++ s). rewrite <- str_app_assoc. by apply IH, Hs. }
  intros s. exact (H s "" H0).
Qed.
Lemma hex_low_acc s : str_forall hex_char s = true ->
  hex_low (String.length s) (hex_acc 0 s) = s /\ (hex_acc 0 s < 16 ^ N.of_nat (String.length s))%N.
Proof.
  induction s as [|s c IH] using str_snoc_ind; [done|]. rewrite str_forall_app. intros H.
  apply andb_true_iff in H as [Hs Hc]. cbn in Hc. rewrite andb_true_r in Hc.
  destruct (IH Hs) as [Hl Hb]. destruct (hex_char_digit c Hc) as (n & Hn & Hv & Hd).
  rewrite length_app_str, hex_acc_app, Nat.add_comm. cbn [String.length Nat.add hex_low hex_acc]. rewrite Hv. change (default 0%N (Some n)) with n.
  replace ((16 * hex_acc 0 s + n) / 16)%N with (hex_acc 0 s) by (apply (N.div_unique _ _ _ n); lia).
  replace ((16 * hex_acc 0 s + n) mod 16)%N with n by (apply (N.mod_unique _ _ (hex_acc 0 s)); lia).
  rewrite Hl, Hd. split; [done|]. rewrite Nnat.Nat2N.inj_succ, N.pow_succ_r'. nia.
Qed.

Lemma format_hex_low w n : (1 <= w)%nat -> (n < 16 ^ N.of_nat w)%N -> format_hex w n = hex_low w n.
Proof.
  intros Hw Hn. unfold format_hex. f_equal. enough (hex_width n <= w)%nat by lia. unfold hex_width.
  assert (N.size n <= 4 * N.of_nat w)%N.
  { destruct (decide (n = 0)%N) as [->|Hz]; [cbn; lia|]. rewrite N.size_log2 by done.
    apply N.le_succ_l, N.log2_lt_pow2; [lia|]. replace (2 ^ (4 * N.of_nat w))%N with (16 ^ N.of_nat w)%N; [done|].
    by rewrite N.pow_mul_r. }
  assert ((N.size n + 3) / 4 < N.of_nat w + 1)%N; [|lia]. apply N.Div0.div_lt_upper_bound. lia.
Qed.

(** Lower-case digits are read as they are. *)
Lemma hex_char_plain c : hex_char c = true ->
  is_c_space c = false /\ is_hex c = true /\ (c =? "-")%char = false /\ (c =? "+")%char = false /\
  (c =? "x")%char = false /\ (c =? "X")%char = false /\ (c =? "_")%char = false.
Proof. destruct c as [[] [] [] [] [] [] [] []]; intros H; try discriminate H; done. Qed.
Lemma hex_no_strip s : str_forall hex_char s = true -> c_rstrip (c_lstrip s) = s.
Proof.
  intros Hs. assert (Hr : c_rstrip s = s).
  { induction s as [|c s IH]; [done|]. cbn in Hs. apply andb_true_iff in Hs as [Hc Hs]. cbn [c_rstrip]. rewrite IH by done.
    destruct s; [|done]. by destruct (hex_char_plain c Hc) as [-> _]. }
  destruct s as [|c s]; [done|]. cbn [c_lstrip]. cbn in Hs. apply andb_true_iff in Hs as [Hc Hs].
  by destruct (hex_char_plain c Hc) as [-> _].
Qed.
Lemma int_base16_hex s : s <> "" -> str_forall hex_char s = true -> int_base16 s = Some (Z.of_N (hex_acc 0 s)).
Proof.
  intros Hne Hs. unfold int_base16. rewrite hex_no_strip by done.
  assert (Hsign : split_sign s = (false, s)).
  { destruct s as [|c s]; [done|]. cbn in Hs. apply andb_true_iff in Hs as [Hc _].
    destruct (hex_char_plain c Hc) as (_ & _ & H1 & H2 & _). cbn. by rewrite H1, H2. }
  assert (Hpre : drop_prefix s = s).
  { destruct s as [|z [|x s]]; [done..|]. cbn in Hs. apply andb_true_iff in Hs as [_ Hs]. apply andb_true_iff in Hs as [Hx _].
    destruct (hex_char_plain x Hx) as (_ & _ & _ & _ & H1 & H2 & _). cbn. rewrite H1, H2. by rewrite andb_false_r. }
  rewrite Hsign, Hpre, split_on_no_char by (eapply no_char_forall; [|exact Hs]; done). cbn [forallb String.concat].
  assert (Hg : hex_group s = true); [|by rewrite Hg].
  unfold hex_group. destruct s; [done|]. cbn [str_empty negb andb]. eapply str_forall_impl; [|exact Hs].
  intros c Hc. by apply hex_char_plain in Hc as (_ & ? & _).
Qed.

(** * Tracing *)

#[local] Open Scope N_scope.

(** ** context.py *)

(** [^00-[0-9a-f]{32}-[0-9a-f]{16}-[0-9a-f]{2}$] *)
Definition TRACEPARENT_PATTERN : re :=
  Cat (Text "00-") (Cat (Rep 32 (Chr hex_char)) (Cat (Text "-") (Cat (Rep 16 (Chr hex_char))
    (Cat (Text "-") (Rep 2 (Chr hex_char)))))).
Definition zeros (n : nat) : string := hex_low n 0.
Definition ZERO_TRACE_ID : string := zeros 32.
Definition ZERO_SPAN_ID : string := zeros 16.

Record TraceContext := { trace_id : string; span_id : string; trace_flags : Z; tracestate : option string }.
#[export] Instance TraceContext_eq_dec : EqDecision TraceContext.
Proof. solve_decision. Defined.

(** The error of pydantic, by the field, and of the unpacking of a list or a
    number that cannot be read. *)
Inductive context_exc := ValidationError (field : string) | ValueError.

(** The construction of the model, with the constraints of its fields. *)
Definition new_context (trace_id span_id : string) (flags : Z) (tracestate : option string)
    : result context_exc TraceContext :=
  if negb (String.length trace_id =? 32)%nat then Err (ValidationError "trace_id")
  else if negb (String.length span_id =? 16)%nat then Err (ValidationError "span_id")
  else if negb ((0 <=? flags)%Z && (flags <=? 255)%Z) then Err (ValidationError "trace_flags")
  else Ok {| trace_id := trace_id; span_id := span_id; trace_flags := flags; tracestate := tracestate |}.
Definition sampled (c : TraceContext) : bool := negb (Z.land (trace_flags c) 1 =? 0)%Z.

(** [while True: value = secrets.token_hex(n)]: the draws to come, of which the
    first that is not zero is taken; [None] if the draws run out. *)
Fixpoint generate_id (zero : string) (draws : list string) : option (string * list string) :=
  match draws with
  | [] => None
  | v :: rest => if bool_decide (v = zero) then generate_id zero rest else Some (v, rest)
  end.
Definition generate_trace_id (draws : list string) := generate_id ZERO_TRACE_ID draws.
Definition generate_span_id (draws : list string) := generate_id ZERO_SPAN_ID draws.

Definition parse_traceparent (header : string) : result context_exc (option TraceContext) :=
  let value := strip header in
  if negb (re_match TRACEPARENT_PATTERN value) then Ok None
  else match split_on "-" value with
  | [version; trace_id; span_id; flags_hex] =>
      if negb (bool_decide (version = "00")) then Ok None
      else if bool_decide (trace_id = ZERO_TRACE_ID) || bool_decide (span_id = ZERO_SPAN_ID) then Ok None
      else match int_base16 flags_hex with
           | None => Err ValueError
           | Some flags => c ← new_context trace_id span_id flags None; Ok (Some c)
           end
  | _ => Err ValueError
  end.

Definition format_traceparent (c : TraceContext) : string :=
  "00-" ++ trace_id c ++ "-" ++ span_id c ++ "-" ++ format_hex 2 (Z.to_N (trace_flags c)).

Definition new_root_context (sampled : bool) (trace_id span_id : string) : result context_exc TraceContext :=
  new_context trace_id span_id (if sampled then 1 else 0)%Z None.
(** The span identifier is the one generated. *)
Definition child_context (parent : TraceContext) (sampled : option bool) (span_id : string)
    : result context_exc TraceContext :=
  let flags := match sampled with None => trace_flags parent | Some b => if b then 1 else 0 end%Z in
  new_context (trace_id parent) span_id flags (tracestate parent).

(** ** redaction.py *)

Definition SECRET_KEY_MARKERS : list string :=
  ["password"; "secret"; "token"; "api_key"; "apikey"; "private_key"; "credential"; "access_key"; "authorization"].
Definition REDACTED : string := "[REDACTED]".
Definition is_secret_key (key : string) : bool :=
  existsb (fun marker => str_contains marker (str_lower key)) SECRET_KEY_MARKERS.

(** A list is looked into for dicts, not for lists. *)
Fixpoint redact_value (value : json) : json :=
  match value with
  | JDict d => JDict (map (fun kv => if is_secret_key kv.1 then (kv.1, JStr REDACTED) else (kv.1, redact_value kv.2)) d)
  | JList l => JList (map (fun item => match item with JDict _ => redact_value item | _ => item end) l)
  | _ => value
  end.
Definition redact_attributes (attributes : pydict string json) : pydict string json :=
  map (fun kv => if is_secret_key kv.1 then (kv.1, JStr REDACTED) else (kv.1, redact_value kv.2)) attributes.

(** ** sampler.py *)

Inductive float := NaN | Infinite (positive : bool) | Fin (q : Q).
Definition float_lt (x : float) (q : Q) : bool :=
  match x with NaN => false | Infinite p => negb p | Fin r => negb (Qle_bool q r) end.
Definition float_gt (x : float) (q : Q) : bool :=
  match x with NaN => false | Infinite p => p | Fin r => negb (Qle_bool r q) end.
Definition float_le (x : float) (q : Q) : bool :=
  match x with NaN => false | Infinite p => negb p | Fin r => Qle_bool r q end.
Definition float_ge (x : float) (q : Q) : bool :=
  match x with NaN => false | Infinite p => p | Fin r => Qle_bool q r end.

(** [DeterministicSampler.__init__] *)
Definition new_sampler (sample_ratio : float) : result string float :=
  if float_lt sample_ratio 0 || float_gt sample_ratio 1 then Err "sample_ratio must be between 0 and 1"
  else Ok sample_ratio.
(** [int(ratio * 0xFFFFFFFF)] *)
Definition threshold (rnd : Q -> Q) (ratio : float) : result string Z :=
  match ratio with
  | Fin q => Ok (Qfloor (rnd (q * inject_Z 4294967295)%Q))
  | NaN => Err "cannot convert float NaN to integer"
  | Infinite _ => Err "cannot convert float infinity to integer"
  end.
Definition should_sample (rnd : Q -> Q) (ratio : float) (trace_id : string) : result string bool :=
  if float_le ratio 0 then Ok false
  else if float_ge ratio 1 then Ok true
  else if negb (String.length trace_id =? 32)%nat then Ok false
  else match int_base16 (String.substring 0 8 trace_id) with
       | None => Ok false
       | Some value => t ← threshold rnd ratio; Ok (value <=? t)%Z
       end.

(** ** middleware.py *)

(** OpenTelemetry's span context: a number of 128 bits, one of 64, a byte. *)
Record SpanContext := { sc_trace_id : N; sc_span_id : N; sc_flags : N }.
Definition is_valid (s : SpanContext) : bool := negb (sc_trace_id s =? 0) && negb (sc_span_id s =? 0).
Definition sc_ok (s : SpanContext) : Prop := sc_trace_id s < 2 ^ 128 /\ sc_span_id s < 2 ^ 64 /\ sc_flags s < 256.

Record Request := { method : string; path : string; headers : pydict string string }.
Record Response := { status_code : Z; response_headers : pydict string string }.
Inductive attribute := AStr (s : string) | AInt (n : Z).
(** A span: what the middleware sets and records on it. *)
Record Span := {
  span_name : string; attributes : pydict string attribute; status_error : bool; exceptions : list string
}.
Definition set_attribute (k : string) (v : attribute) (s : Span) : Span :=
  {| span_name := span_name s; attributes := dict_set k v (attributes s); status_error := status_error s;
     exceptions := exceptions s |}.
Definition record_failure (e : string) (s : Span) : Span :=
  {| span_name := span_name s; attributes := attributes s; status_error := true; exceptions := (exceptions s ++ [e])%list |}.
(** [if value: span.set_attribute(k, value)] *)
Definition set_header_attribute (k : string) (v : option string) (s : Span) : Span :=
  match v with Some x => if str_empty x then s else set_attribute k (AStr x) s | None => s end.

Definition traceparent_of (s : SpanContext) : string :=
  "00-" ++ format_hex 32 (sc_trace_id s) ++ "-" ++ format_hex 16 (sc_span_id s) ++ "-" ++ format_hex 2 (sc_flags s).

(** [start_span] is the tracer: the context of the span it starts for the
    headers of a request. *)
Definition dispatch (service_name : string) (start_span : pydict string string -> SpanContext) (request : Request)
    (call_next : Request -> result string Response) : result string Response * Span :=
  let context := start_span (headers request) in
  let span :=
    set_header_attribute "apex.correlation_id" (dict_get "x-correlation-id" (headers request))
    (set_header_attribute "apex.request_id" (dict_get "x-request-id" (headers request))
    (set_attribute "apex.service" (AStr service_name)
    (set_attribute "http.target" (AStr (path request))
    (set_attribute "http.method" (AStr (method request))
       {| span_name := method request ++ " " ++ path request; attributes := []; status_error := false; exceptions := [] |})))) in
  match call_next request with
  | Err e => (Err e, record_failure e span)
  | Ok response =>
      (Ok (if is_valid context
           then {| status_code := status_code response;
                   response_headers := dict_set "traceparent" (traceparent_of context) (response_headers response) |}
           else response),
       set_attribute "http.status_code" (AInt (status_code response)) span)
  end.

Definition safe_set_attribute (span : Span) (key : string) (value : attribute) : Span :=
  if is_secret_key key then set_attribute key (AStr "[REDACTED]") span else set_attribute key value span.

(** ** The header *)

(** What a context is that a header can carry. *)
Definition context_ok (c : TraceContext) : Prop :=
  (String.length (trace_id c) = 32)%nat /\ str_forall hex_char (trace_id c) = true /\ trace_id c <> ZERO_TRACE_ID /\
  (String.length (span_id c) = 16)%nat /\ str_forall hex_char (span_id c) = true /\ span_id c <> ZERO_SPAN_ID /\
  (0 <= trace_flags c <= 255)%Z.

Lemma pattern_iff s : lang TRACEPARENT_PATTERN s <-> exists t p f, s = "00-" ++ t ++ "-" ++ p ++ "-" ++ f /\
  (String.length t = 32%nat /\ str_forall hex_char t = true) /\ (String.length p = 16%nat /\ str_forall hex_char p = true) /\
  (String.length f = 2%nat /\ str_forall hex_char f = true).
Proof.
  unfold TRACEPARENT_PATTERN. rewrite lang_cat_iff. setoid_rewrite lang_text. setoid_rewrite lang_cat_iff at 1.
  setoid_rewrite lang_rep. split.
  - intros (? & b & -> & -> & t & b' & -> & Ht & Hb). apply lang_cat_iff in Hb as (? & c & -> & Hm & Hc).
    apply lang_text in Hm as ->. apply lang_cat_iff in Hc as (p & d & -> & Hp & Hd). apply lang_rep in Hp.
    apply lang_cat_iff in Hd as (? & f & -> & Hm & Hf). apply lang_text in Hm as ->. apply lang_rep in Hf. by exists t, p, f.
  - intros (t & p & f & -> & Ht & Hp & Hf). eexists "00-", _. split_and!; [done..|]. exists t, ("-" ++ p ++ "-" ++ f).
    split_and!; [done|apply Ht..|]. rewrite lang_cat_iff. eexists "-", _. split_and!; [done|by apply lang_text|].
    rewrite lang_cat_iff. exists p, ("-" ++ f). split_and!; [done|by apply lang_rep|].
    rewrite lang_cat_iff. eexists "-", f. split_and!; [done|by apply lang_text|by apply lang_rep].
Qed.

Lemma hex_no_dash s : str_forall hex_char s = true -> no_char "-" s.
Proof. by apply no_char_forall. Qed.
Lemma split_header t p f : str_forall hex_char t = true -> str_forall hex_char p = true -> str_forall hex_char f = true ->
  split_on "-" ("00-" ++ t ++ "-" ++ p ++ "-" ++ f) = ["00"; t; p; f].
Proof.
  intros Ht Hp Hf. change ("00-" ++ t ++ "-" ++ p ++ "-" ++ f)%string with ("00" ++ String "-" (t ++ String "-" (p ++ String "-" f)))%string.
  rewrite !split_on_app by (by apply hex_no_dash). by rewrite split_on_no_char by by apply hex_no_dash.
Qed.

Lemma re_match_strip r s : re_match r (strip s) = true <-> lang r (strip s).
Proof.
  rewrite re_match_iff. split; [|by left]. intros [H|(t & _ & Ht)]; [done|].
  apply chop_newline_Some in Ht. unfold strip in Ht. by rewrite rstrip_no_newline in Ht.
Qed.

Lemma byte_format flags : (0 <= flags <= 255)%Z -> format_hex 2 (Z.to_N flags) = hex_low 2 (Z.to_N flags).
Proof. intros Hf. apply format_hex_low; [lia|]. cbn. lia. Qed.
(** A header is the rendering of a context, and of no other. *)
Lemma format_pattern c : context_ok c -> lang TRACEPARENT_PATTERN (format_traceparent c).
Proof.
  intros (Ht & Htc & _ & Hs & Hsc & _ & Hf). apply pattern_iff. eexists _, _, _. split; [done|].
  rewrite byte_format by done. split_and!; [done..| |]; apply hex_low_chars.
Qed.
Lemma format_split c : context_ok c ->
  split_on "-" (format_traceparent c) = ["00"; trace_id c; span_id c; hex_low 2 (Z.to_N (trace_flags c))].
Proof.
  intros (Ht & Htc & _ & Hs & Hsc & _ & Hf). unfold format_traceparent. rewrite byte_format by done.
  apply split_header; [done..|apply hex_low_chars].
Qed.
Lemma read_flags f : String.length f = 2%nat -> str_forall hex_char f = true ->
  exists n, int_base16 f = Some (Z.of_N n) /\ n < 256 /\ hex_low 2 n = f.
Proof.
  intros Hl Hf. exists (hex_acc 0 f). destruct (hex_low_acc f Hf) as [H1 H2]. rewrite Hl in H1, H2.
  split_and!; [|done..]. apply int_base16_hex; [by intros ->|done].
Qed.

Lemma traceparent_read header :
  exists r, parse_traceparent header = Ok r /\
  forall c, r = Some c <-> context_ok c /\ tracestate c = None /\ strip header = format_traceparent c.
Proof.
  unfold parse_traceparent. destruct (re_match _ _) eqn:Hm; cbn [negb].
  - apply re_match_strip, pattern_iff in Hm as (t & p & f & Hv & [Ht Htc] & [Hp Hpc] & [Hf Hfc]).
    rewrite Hv, split_header by done. rewrite bool_decide_eq_true_2 by done. cbn [negb].
    destruct (read_flags f Hf Hfc) as (n & Hi & Hn & Hlow). rewrite Hi.
    assert (Hof : forall c, context_ok c -> "00-" ++ t ++ "-" ++ p ++ "-" ++ f = format_traceparent c ->
              trace_id c = t /\ span_id c = p /\ trace_flags c = Z.of_N n).
    { intros c Hc He. assert (Hs := format_split c Hc). rewrite <- He, split_header in Hs by done. 
      assert (Hh : f = hex_low 2 (Z.to_N (trace_flags c))) by congruence. injection Hs as -> -> _.
      split_and!; [done..|]. destruct Hc as (_ & _ & _ & _ & _ & _ & Hr).
      assert (Z.to_N (trace_flags c) = n); [|lia]. rewrite <- (hex_acc_low 2 n), Hlow, Hh by (cbn; lia).
      symmetry. apply hex_acc_low. cbn. lia. }
    destruct (bool_decide (t = ZERO_TRACE_ID) || bool_decide (p = ZERO_SPAN_ID)) eqn:Hz.
    + exists None. split; [done|]. intros c. split; [done|]. intros (Hc & _ & He).
      destruct (Hof c Hc He) as (<- & <- & _). destruct Hc as (_ & _ & H1 & _ & _ & H2 & _).
      by rewrite !bool_decide_eq_false_2 in Hz.
    + apply orb_false_iff in Hz as [H1%bool_decide_eq_false H2%bool_decide_eq_false].
      unfold new_context. rewrite Ht, Hp. cbn [Nat.eqb negb].
      replace ((0 <=? Z.of_N n)%Z && (Z.of_N n <=? 255)%Z) with true by lia. cbn.
      eexists. split; [reflexivity|]. intros c. split.
      * intros [= <-]. unfold context_ok, format_traceparent. cbn [trace_id span_id trace_flags tracestate].
        rewrite byte_format, N2Z.id, Hlow by lia. split_and!; try done; lia.
      * intros (Hc & Hts & He). destruct (Hof c Hc He) as (<- & <- & Hfl). destruct c. cbn in *. by subst.
  - exists None. split; [done|]. intros c. split; [done|]. intros (Hc & _ & He).
    assert (re_match TRACEPARENT_PATTERN (strip header) = true); [|congruence].
    apply re_match_strip. rewrite He. by apply format_pattern.
Qed.

(** ** Identifiers, children and responses *)

(** The loops end with the first draw that is not zero. *)
Lemma generate_id_spec zero draws before v rest : draws = (before ++ v :: rest)%list ->
  Forall (fun d => d = zero) before -> v <> zero -> generate_id zero draws = Some (v, rest).
Proof.
  intros -> Hb Hv. induction Hb as [|d l Hd _ IH]; cbn [generate_id app].
  - by rewrite bool_decide_eq_false_2.
  - by rewrite bool_decide_eq_true_2.
Qed.

Lemma new_context_ok t p f s : context_ok {| trace_id := t; span_id := p; trace_flags := f; tracestate := s |} ->
  new_context t p f s = Ok {| trace_id := t; span_id := p; trace_flags := f; tracestate := s |}.
Proof.
  intros (Ht & _ & _ & Hp & _ & _ & Hf). cbn in *. unfold new_context. rewrite Ht, Hp. cbn [Nat.eqb negb].
  by replace ((0 <=? f)%Z && (f <=? 255)%Z) with true by lia.
Qed.
Lemma child_ok c s p : context_ok c -> String.length p = 16%nat -> str_forall hex_char p = true -> p <> ZERO_SPAN_ID ->
  exists c', child_context c s p = Ok c' /\ context_ok c' /\ trace_id c' = trace_id c /\ span_id c' = p /\
    tracestate c' = tracestate c /\ sampled c' = default (sampled c) s.
Proof.
  intros (Ht & Htc & Htz & _ & _ & _ & Hf) Hp Hpc Hpz. unfold child_context.
  eexists. split; [apply new_context_ok|].
  - unfold context_ok. cbn [trace_id span_id trace_flags]. split_and!; try done; by destruct s as [[]|]; cbn; lia.
  - unfold context_ok. cbn [trace_id span_id trace_flags tracestate].
    split_and!; try done; try (by destruct s as [[]|]; cbn; lia). by destruct s as [[]|].
Qed.

Definition context_of (s : SpanContext) : TraceContext :=
  {| trace_id := format_hex 32 (sc_trace_id s); span_id := format_hex 16 (sc_span_id s);
     trace_flags := Z.of_N (sc_flags s); tracestate := None |}.
Lemma padded_ok w n : (1 <= w)%nat -> n < 16 ^ N.of_nat w -> n <> 0 ->
  String.length (format_hex w n) = w /\ str_forall hex_char (format_hex w n) = true /\ format_hex w n <> zeros w.
Proof.
  intros Hw Hn Hz. rewrite format_hex_low by done. destruct (hex_low_chars w n) as [Hl Hc]. split_and!; [done..|].
  intros H. apply Hz. rewrite <- (hex_acc_low w n), H by done. unfold zeros. apply hex_acc_low. lia.
Qed.
Lemma context_of_ok s : sc_ok s -> is_valid s = true -> context_ok (context_of s).
Proof.
  intros (Ht & Hp & Hf) Hv. unfold is_valid in Hv. apply andb_true_iff in Hv as [H1 H2].
  apply negb_true_iff, N.eqb_neq in H1, H2.
  destruct (padded_ok 32 (sc_trace_id s)) as (?&?&?); [lia|done|done|].
  destruct (padded_ok 16 (sc_span_id s)) as (?&?&?); [lia|done|done|].
  unfold context_ok, context_of. cbn [trace_id span_id trace_flags]. split_and!; try done; lia.
Qed.
Lemma rendered_is_stripped c : context_ok c -> strip (format_traceparent c) = format_traceparent c.
Proof.
  intros (Ht & Htc & _ & Hs & Hsc & _ & Hf). apply strip_no_space. unfold format_traceparent.
  rewrite byte_format by done. destruct (hex_low_chars 2 (Z.to_N (trace_flags c))) as [_ Hfc].
  rewrite !str_forall_app. apply andb_true_iff. split; [reflexivity|]. assert (Himp : forall x, hex_char x = true -> negb (is_space x) = true).
  { intros x Hx. by destruct x as [[] [] [] [] [] [] [] []]. }
  rewrite !andb_true_iff. split_and!; try reflexivity; by eapply str_forall_impl.
Qed.
Lemma parse_rendered c : context_ok c -> tracestate c = None -> parse_traceparent (format_traceparent c) = Ok (Some c).
Proof.
  intros Hc Hs. destruct (traceparent_read (format_traceparent c)) as (r & Hr & Hiff). rewrite Hr. f_equal.
  apply Hiff. split_and!; [done..|]. by apply rendered_is_stripped.
Qed.

(** The response to a request names the span that served it, and a service that
    was called from it continues its trace. *)
Lemma response_continues_trace name start_span request call_next response p :
  let s := start_span (headers request) in
  call_next request = Ok response -> sc_ok s -> is_valid s = true ->
  String.length p = 16%nat -> str_forall hex_char p = true -> p <> ZERO_SPAN_ID ->
  exists r span h c, dispatch name start_span request call_next = (Ok r, span) /\ status_code r = status_code response /\
    dict_get "traceparent" (response_headers r) = Some h /\ parse_traceparent h = Ok (Some (context_of s)) /\
    child_context (context_of s) None p = Ok c /\ parse_traceparent (format_traceparent c) = Ok (Some c) /\
    trace_id c = trace_id (context_of s).
Proof.
  intros s Hc Hs Hv Hl Hp Hz. assert (Hok := context_of_ok s Hs Hv).
  destruct (child_ok (context_of s) None p Hok Hl Hp Hz) as (c & Hch & Hcok & Ht & _ & Hst & _).
  unfold dispatch. fold s. rewrite Hc, Hv. eexists _, _, (traceparent_of s), c. split; [reflexivity|].
  cbn [status_code response_headers]. split_and!; [done|apply dict_get_set_eq| |done|by apply parse_rendered|done].
  replace (traceparent_of s) with (format_traceparent (context_of s)); [by apply parse_rendered|].
  unfold traceparent_of, format_traceparent, context_of. cbn. by rewrite N2Z.id.
Qed.

(** ** Sampling *)

(** Raising the ratio keeps every trace that was sampled. *)
Lemma sampling_nested rnd (Hrnd : forall a b, (a <= b)%Q -> (rnd a <= rnd b)%Q) r r' t :
  (r <= r')%Q -> should_sample rnd (Fin r) t = Ok true -> should_sample rnd (Fin r') t = Ok true.
Proof.
  intros Hr. unfold should_sample, float_le, float_ge.
  destruct (Qle_bool r 0) eqn:H0; [done|]. destruct (Qle_bool r' 0) eqn:H0'.
  { apply Qle_bool_iff in H0'. assert (Qle_bool r 0 = true); [|congruence]. apply Qle_bool_iff. by eapply Qle_trans. }
  destruct (Qle_bool 1 r') eqn:H1'; [done|]. destruct (Qle_bool 1 r) eqn:H1.
  { apply Qle_bool_iff in H1. assert (Qle_bool 1 r' = true); [|congruence]. apply Qle_bool_iff. by eapply Qle_trans. }
  destruct (negb _); [done|]. destruct (int_base16 _) as [v|]; [|done]. cbn. intros [= Hv].
  f_equal. apply Z.leb_le. apply Z.leb_le in Hv. etransitivity; [exact Hv|]. apply Qfloor_resp_le, Hrnd.
  apply Qmult_le_compat_r; [done|]. by apply Qle_bool_iff.
Qed.
(** A ratio that is not a number is accepted, and raises later. *)
Lemma nan_is_accepted rnd : new_sampler NaN = Ok NaN /\
  should_sample rnd NaN (format_hex 32 1) = Err "cannot convert float NaN to integer".
Proof. by vm_compute. Qed.

(** A secret in a list of lists is kept. *)
Lemma nested_list_not_redacted :
  let token := JDict [("token", JStr "t0p")] in
  redact_attributes [("a", JList [token]); ("b", JList [JList [token]])] =
  [("a", JList [JDict [("token", JStr REDACTED)]]); ("b", JList [JList [token]])].
Proof. by vm_compute. Qed.

(** C25: reading a traceparent header never raises; it gives exactly the context
    whose rendering the header is, up to white space around it: identifiers of
    lower-case digits that are not zero, flags of a byte, version 00. *)
Theorem traceparent_exact header :
  exists r, parse_traceparent header = Ok r /\
  forall c, r = Some c <-> context_ok c /\ tracestate c = None /\ strip header = format_traceparent c.
Proof. exact (traceparent_read header). Qed.
