(* ===== verification/TracingCore.v ===== *)
(** Tracing, the service: [repository.py] over tracing.service_tracing_configs
    of 0001_tracing.sql, and the endpoints of [app.py].

    Parameters: [to_numeric] is the server's conversion of a float to
    NUMERIC(5,4), in ten-thousandths, [of_numeric] its way back; [start_span]
    is OpenTelemetry's span for a traceparent header, [force_flush] its flush,
    [tempo] the status a GET of Tempo answers or the exception of the client. *)
From stdpp Require Import base strings list numbers gmap.
From Stdlib Require Import Ascii QArith.
From S2P Require Import Prelude PyStr PyPath StartUp Tracing.

#[local] Open Scope string_scope.

(** ** repository.py *)

Record TracingConfig := {
  service_name : string; environment : string; plane : string; otlp_endpoint : option string;
  tempo_query_endpoint : option string; sample_ratio : Q; tracing_enabled : bool; redaction_enabled : bool
}.
(** A row, its ratio in ten-thousandths. *)
Record Row := { config : TracingConfig; ratio : Z; created_at : Z; updated_at : Z }.

Inductive db_exc := Unreachable | NumericOverflow | CheckViolation (constraint : string).
Inductive core_exc := HTTPException (status : Z) (detail : string) | DatabaseError (e : db_exc) | TracerError (m : string).

Definition is_service (n : string) (r : Row) : bool := bool_decide (service_name (config r) = n).
(** The checks, which the server tries in the order of their names. *)
Definition checks_ok (c : TracingConfig) (ratio : Z) : result db_exc unit :=
  if negb (not_blank (environment c)) then Err (CheckViolation "service_tracing_configs_environment_not_empty")
  else if negb (not_blank (plane c)) then Err (CheckViolation "service_tracing_configs_plane_not_empty")
  else if negb ((0 <=? ratio) && (ratio <=? 10000))%Z then Err (CheckViolation "service_tracing_configs_sample_ratio_valid")
  else if negb (not_blank (service_name c)) then Err (CheckViolation "service_tracing_configs_service_name_not_empty")
  else Ok tt.

Section Core.
Context (to_numeric : Q -> Z) (of_numeric : Z -> Q).

Definition with_ratio (q : Q) (c : TracingConfig) : TracingConfig :=
  {| service_name := service_name c; environment := environment c; plane := plane c; otlp_endpoint := otlp_endpoint c;
     tempo_query_endpoint := tempo_query_endpoint c; sample_ratio := q; tracing_enabled := tracing_enabled c;
     redaction_enabled := redaction_enabled c |}.
Definition get_config (name : string) (t : list Row) : option TracingConfig :=
  r ← tbl_find (is_service name) t; Some (with_ratio (of_numeric (ratio r)) (config r)).
(** [INSERT ... ON CONFLICT (service_name) DO UPDATE]: the trigger sets
    [updated_at] too. *)
Definition upsert_config (now : Z) (c : TracingConfig) : st (list Row) db_exc unit := fun t =>
  let n := to_numeric (sample_ratio c) in
  if negb (Z.abs n <? 100000)%Z then (Err NumericOverflow, t)
  else match checks_ok c n with
  | Err e => (Err e, t)
  | Ok _ =>
      (Ok tt, tbl_upsert (is_service (service_name c))
                {| config := c; ratio := n; created_at := now; updated_at := now |}
                (fun r => {| config := c; ratio := n; created_at := created_at r; updated_at := now |}) t)
  end.

(** ** app.py *)

Record TracingCoreSettings := {
  database_url : option string; migrations_dir : string; s_otlp_endpoint : option string; s_tempo_query_endpoint : option string
}.
Definition truthy (o : option string) : bool := match o with Some s => negb (str_empty s) | None => false end.
(** [app.state]: the counters, and the repository once the service has started
    with a database. *)
Record AppState := {
  context_verifications_total : nat; test_spans_created_total : nat; pipeline_verifications_total : nat;
  repository : option (list Row)
}.
Definition App A : Type := st AppState core_exc A.
Definition count_context : App unit := fun s => (Ok tt,
  {| context_verifications_total := S (context_verifications_total s); test_spans_created_total := test_spans_created_total s;
     pipeline_verifications_total := pipeline_verifications_total s; repository := repository s |}).
Definition count_span : App unit := fun s => (Ok tt,
  {| context_verifications_total := context_verifications_total s; test_spans_created_total := S (test_spans_created_total s);
     pipeline_verifications_total := pipeline_verifications_total s; repository := repository s |}).
Definition count_pipeline : App unit := fun s => (Ok tt,
  {| context_verifications_total := context_verifications_total s; test_spans_created_total := test_spans_created_total s;
     pipeline_verifications_total := S (pipeline_verifications_total s); repository := repository s |}).

(** [lifespan] up to its [yield], for a database with these rows. *)
Definition lifespan (settings : TracingCoreSettings) (fs : FileSystem) (connect : st (list Row) startup_exc unit)
    (execute : string -> st (list Row) startup_exc unit) (rows : list Row) : result startup_exc AppState :=
  let ready r := {| context_verifications_total := 0; test_spans_created_total := 0; pipeline_verifications_total := 0;
                    repository := r |} in
  if truthy (database_url settings) then
    match tracing_apply_migrations connect execute fs (migrations_dir settings) rows with
    | (Ok _, rows') => Ok (ready (Some rows'))
    | (Err e, _) => Err e
    end
  else Ok (ready None).

Definition readyz (settings : TracingCoreSettings) (s : AppState) : Z * bool :=
  if truthy (database_url settings) && negb (bool_decide (is_Some (repository s))) then (503, false)%Z else (200, true)%Z.

Record Verified := { valid : bool; v_trace_id : option string; v_span_id : option string; v_sampled : bool }.
Definition context_error (e : context_exc) : core_exc :=
  match e with ValidationError f => HTTPException 500 f | ValueError => HTTPException 500 "ValueError" end.
Definition verify_context (traceparent : string) : App Verified :=
  count_context ≫= fun _ =>
  context ← lift (map_err context_error (parse_traceparent traceparent));
  mret (match context with
        | None => {| valid := false; v_trace_id := None; v_span_id := None; v_sampled := false |}
        | Some c => {| valid := true; v_trace_id := Some (trace_id c); v_span_id := Some (span_id c); v_sampled := sampled c |}
        end).

Section Spans.
Context (settings : TracingCoreSettings) (start_span : option string -> result string SpanContext)
  (has_force_flush : bool) (force_flush : result string bool) (tempo : string -> result string Z).

Record TestSpan := { t_trace_id : string; t_span_id : string; exported : bool }.
(** The header is passed on when it is not empty; what the flush answers is not
    looked at. *)
Definition create_test_span (traceparent : option string) : App TestSpan :=
  let carrier := if truthy traceparent then traceparent else None in
  context ← lift (map_err TracerError (start_span carrier));
  let exported := truthy (s_otlp_endpoint settings) && has_force_flush && is_ok force_flush in
  count_span ≫= fun _ =>
  mret {| t_trace_id := format_hex 32 (sc_trace_id context); t_span_id := format_hex 16 (sc_span_id context);
          exported := exported |}.

Record Pipeline := { ok : bool; tempo_ready : bool; p_trace_id : string; p_span_id : string; p_exported : bool }.
Definition probe_tempo : bool :=
  match s_tempo_query_endpoint settings with
  | Some e => negb (str_empty e) && match tempo (rstrip_char "/" e ++ "/ready") with Ok code => (code =? 200)%Z | Err _ => false end
  | None => false
  end.
Definition verify_pipeline : App Pipeline :=
  count_pipeline ≫= fun _ =>
  let tempo_ready := probe_tempo in
  span ← create_test_span None;
  mret {| ok := tempo_ready && negb (str_empty (t_trace_id span)); tempo_ready := tempo_ready;
          p_trace_id := t_trace_id span; p_span_id := t_span_id span; p_exported := exported span |}.
End Spans.

Definition no_database : core_exc := HTTPException 503 "tracing configuration database is not configured".
Definition get_service_tracing_config (up : bool) (name : string) : App TracingConfig := fun s =>
  match repository s with
  | None => (Err no_database, s)
  | Some t =>
      if negb up then (Err (DatabaseError Unreachable), s)
      else match get_config name t with
           | None => (Err (HTTPException 404 "service config not found"), s)
           | Some c => (Ok c, s)
           end
  end.
(** The request's model checks the ratio. *)
Definition upsert_service_tracing_config (up : bool) (now : Z) (payload : TracingConfig) : App string := fun s =>
  if negb (Qle_bool 0 (sample_ratio payload) && Qle_bool (sample_ratio payload) 1) then (Err (HTTPException 422 "sample_ratio"), s)
  else match repository s with
  | None => (Err no_database, s)
  | Some t =>
      if negb up then (Err (DatabaseError Unreachable), s)
      else match upsert_config now payload t with
           | (Ok _, t') => (Ok "saved", {| context_verifications_total := context_verifications_total s;
                                          test_spans_created_total := test_spans_created_total s;
                                          pipeline_verifications_total := pipeline_verifications_total s; repository := Some t' |})
           | (Err e, _) => (Err (DatabaseError e), s)
           end
  end.

(** ** The configurations *)

Definition row_key (r : Row) : string := service_name (config r).
Definition saved (c : TracingConfig) : TracingConfig := with_ratio (of_numeric (to_numeric (sample_ratio c))) c.
Lemma tracing_service_iff n r : is_service n r = true <-> row_key r = n.
Proof. unfold is_service. by rewrite bool_decide_eq_true. Qed.
Lemma get_config_map n t : get_config n t = (fun r => with_ratio (of_numeric (ratio r)) (config r)) <$> (by_key row_key t !! n).
Proof.
  unfold get_config. rewrite (by_key_find row_key (is_service n)) by (intros; apply tracing_service_iff).
  by destruct (tbl_find _ t).
Qed.

(** A configuration that was saved is read back, its ratio as the column keeps
    it; the configurations of other services are left alone; what fails changes
    nothing. *)
Lemma upsert_config_spec now c t x t' : NoDup (row_key <$> t) -> upsert_config now c t = (x, t') ->
  NoDup (row_key <$> t') /\
  match x with
  | Ok _ => forall n, get_config n t' = if decide (n = service_name c) then Some (saved c) else get_config n t
  | Err _ => t' = t
  end.
Proof.
  intros Hnd. unfold upsert_config. destruct (negb (_ <? _)%Z); [by intros [= <- <-]|].
  destruct (checks_ok _ _); [|by intros [= <- <-]]. intros [= <- <-].
  destruct (by_key_upsert row_key (is_service (service_name c))
    {| config := c; ratio := to_numeric (sample_ratio c); created_at := now; updated_at := now |}
    (fun r => {| config := c; ratio := to_numeric (sample_ratio c); created_at := created_at r; updated_at := now |})
    (service_name c) t (tracing_service_iff _)) as [Hnd' Hm]; [done..|].
  split; [done|]. intros n. rewrite !get_config_map, Hm. case_decide as Hn.
  - subst n. rewrite lookup_insert_eq. by destruct (tbl_find _ t).
  - by rewrite lookup_insert_ne.
Qed.
Lemma endpoint_saves now c s x s' rows : repository s = Some rows -> NoDup (row_key <$> rows) ->
  upsert_service_tracing_config true now c s = (x, s') ->
  match x with
  | Ok _ => get_service_tracing_config true (service_name c) s' = (Ok (saved c), s')
  | Err _ => s' = s
  end.
Proof.
  intros Hr Hnd. unfold upsert_service_tracing_config. destruct (negb _); [by intros [= <- <-]|]. rewrite Hr. cbn [negb].
  destruct (upsert_config now c rows) as [[u|e] t'] eqn:Hu; [|by intros [= <- <-]]. intros [= <- <-].
  apply upsert_config_spec in Hu as [_ Hg]; [|done]. unfold get_service_tracing_config. cbn [repository negb].
  by rewrite Hg, decide_True.
Qed.

(** The verification never fails: its answer holds the identifiers of the
    context that the header renders, if it renders one. *)
Lemma verify_context_spec h s : exists v s', verify_context h s = (Ok v, s') /\
  context_verifications_total s' = S (context_verifications_total s) /\
  forall c, context_ok c -> tracestate c = None -> strip h = format_traceparent c ->
    valid v = true /\ v_trace_id v = Some (trace_id c) /\ v_span_id v = Some (span_id c) /\ v_sampled v = sampled c.
Proof.
  destruct (traceparent_read h) as (r & Hr & Hiff). unfold verify_context, count_context, mbind, st_bind, lift.
  rewrite Hr. cbn. eexists _, _. split; [reflexivity|]. split; [done|]. intros c H1 H2 H3.
  assert (r = Some c) as -> by by apply Hiff. done.
Qed.
End Core.

(** The flush may say that it failed: the span counts as exported. *)
Lemma failed_flush_is_exported :
  let settings := {| database_url := None; migrations_dir := ""; s_otlp_endpoint := Some "http://otlp"; s_tempo_query_endpoint := None |} in
  let s := {| context_verifications_total := 0; test_spans_created_total := 0; pipeline_verifications_total := 0; repository := None |} in
  exists t s', create_test_span settings (fun _ => Ok {| sc_trace_id := 1; sc_span_id := 1; sc_flags := 1 |}) true (Ok false) None s = (Ok t, s') /\
    exported t = true.
Proof. vm_compute. eexists _, _. split; reflexivity. Qed.
