(* ===== verification/Logging.v ===== *)
(** Structured logging, the library: [context.py], [redaction.py],
    [formatter.py], [models.py] and [middleware.py] of apexquant-logging.

    The context variables are those of one asynchronous context.  A timestamp is
    its text and its zone; [isoformat] renders it.  The data of a record are
    JSON values. *)
From stdpp Require Import base strings list.
From Stdlib Require Import Ascii.
From S2P Require Import Prelude PyStr Json.

#[local] Open Scope string_scope.

(** ** context.py *)

Record LoggingContext := {
  request_id : option string; trace_id : option string; correlation_id : option string; actor_id : option string
}.
(** [if value is not None: var.set(value)] *)
Definition set_var (value old : option string) : option string := match value with Some _ => value | None => old end.
Definition set_context (new : LoggingContext) (vars : LoggingContext) : LoggingContext :=
  {| request_id := set_var (request_id new) (request_id vars); trace_id := set_var (trace_id new) (trace_id vars);
     correlation_id := set_var (correlation_id new) (correlation_id vars);
     actor_id := set_var (actor_id new) (actor_id vars) |}.
Definition get_context (vars : LoggingContext) : LoggingContext := vars.
Definition clear_context : LoggingContext :=
  {| request_id := None; trace_id := None; correlation_id := None; actor_id := None |}.

(** ** redaction.py *)

Definition SECRET_KEY_MARKERS : list string :=
  ["password"; "secret"; "token"; "api_key"; "apikey"; "private_key"; "credential"; "access_key"; "authorization"].
Definition REDACTED : string := "[REDACTED]".
Definition is_secret_key (key : string) : bool :=
  existsb (fun marker => str_contains marker (str_lower key)) SECRET_KEY_MARKERS.
Fixpoint redact_data (value : json) : json :=
  match value with
  | JDict d => JDict (map (fun kv => if is_secret_key kv.1 then (kv.1, JStr REDACTED) else (kv.1, redact_data kv.2)) d)
  | JList l => JList (map redact_data l)
  | _ => value
  end.

(** ** formatter.py *)

Definition opt_json (o : option string) : json := match o with Some s => JStr s | None => JNull end.

(** A log record: [getMessage], [data] if it has one, and the text of its
    exception. *)
Record LogRecord := {
  created : Z; levelname : string; record_name : string; message : string; record_data : option json;
  exc_info : option string
}.
Record JsonLogFormatter := {
  f_service_name : string; f_environment : string; f_plane : string; f_service_version : string
}.
Section Formatter.
Context (isoformat_utc : Z -> string).
Definition payload (f : JsonLogFormatter) (context : LoggingContext) (record : LogRecord) : pydict string json :=
  let base :=
    [("ts", JStr (isoformat_utc (created record))); ("level", JStr (levelname record)); ("service", JStr (f_service_name f));
     ("service_version", JStr (f_service_version f)); ("environment", JStr (f_environment f)); ("plane", JStr (f_plane f));
     ("event", JStr (record_name record)); ("message", JStr (message record)); ("trace_id", opt_json (trace_id context));
     ("request_id", opt_json (request_id context)); ("correlation_id", opt_json (correlation_id context));
     ("actor_id", opt_json (actor_id context)); ("data", JDict [])] in
  let with_data := match record_data record with Some d => dict_set "data" (redact_data d) base | None => base end in
  match exc_info record with Some e => dict_set "exception" (JStr e) with_data | None => with_data end.
Definition format (f : JsonLogFormatter) (vars : LoggingContext) (record : LogRecord) : string :=
  dumps plain (JDict (payload f (get_context vars) record)).
End Formatter.

(** ** models.py *)

Inductive LogLevel := DEBUG | INFO | WARNING | ERROR | CRITICAL.
Definition level_text (l : LogLevel) : string :=
  match l with DEBUG => "DEBUG" | INFO => "INFO" | WARNING => "WARNING" | ERROR => "ERROR" | CRITICAL => "CRITICAL" end.
Record Timestamp := { clock_text : string; zone : option string }.
Record LogEnvelope := {
  ts : Timestamp; level : LogLevel; service : string; service_version : string; environment : string; plane : string;
  event : string; e_message : string; e_trace_id : option string; e_request_id : option string;
  e_correlation_id : option string; e_actor_id : option string; data : pydict string json
}.
Definition with_ts (t : Timestamp) (l : LogEnvelope) : LogEnvelope :=
  {| ts := t; level := level l; service := service l; service_version := service_version l; environment := environment l;
     plane := plane l; event := event l; e_message := e_message l; e_trace_id := e_trace_id l;
     e_request_id := e_request_id l; e_correlation_id := e_correlation_id l; e_actor_id := e_actor_id l; data := data l |}.
(** [log.model_copy(update={"data": d})] *)
Definition with_data (d : pydict string json) (l : LogEnvelope) : LogEnvelope :=
  {| ts := ts l; level := level l; service := service l; service_version := service_version l; environment := environment l;
     plane := plane l; event := event l; e_message := e_message l; e_trace_id := e_trace_id l;
     e_request_id := e_request_id l; e_correlation_id := e_correlation_id l; e_actor_id := e_actor_id l; data := d |}.

Definition blank (s : string) : bool := str_empty (strip s).
Definition enforce_logging_policy (l : LogEnvelope) : result string LogEnvelope :=
  if blank (service l) then Err "service must not be empty"
  else if blank (environment l) then Err "environment must not be empty"
  else if blank (plane l) then Err "plane must not be empty"
  else if blank (event l) then Err "event must not be empty"
  else match zone (ts l) with
       | None => Ok (with_ts {| clock_text := clock_text (ts l); zone := Some "UTC" |} l)
       | Some _ => Ok l
       end.

(** ** middleware.py *)

Record Request := { method : string; path : string; headers : pydict string string }.
Record Response := { status_code : Z; response_headers : pydict string string }.
(** [a or b] of an optional text and a text *)
Definition or_else (a : option string) (b : string) : string :=
  match a with Some s => if str_empty s then b else s | None => b end.
(** What a request leaves: the response, the context and the record that is
    logged; an exception of the handler passes before the record.
    [duration_ms] is in thousandths. *)
Record HttpRecord := { h_method : string; h_path : string; h_status_code : Z; duration_ms : Z }.
Definition request_logging_middleware (uuid4 : string) (duration : Z) (request : Request)
    (call_next : Request -> result string Response) (vars : LoggingContext)
    : result string (Response * HttpRecord) * LoggingContext :=
  let rid := or_else (dict_get "x-request-id" (headers request)) uuid4 in
  let vars' := set_context {| request_id := Some rid; trace_id := dict_get "x-trace-id" (headers request);
                              correlation_id := dict_get "x-correlation-id" (headers request);
                              actor_id := dict_get "x-actor-id" (headers request) |} vars in
  match call_next request with
  | Err e => (Err e, vars')
  | Ok response =>
      (Ok ({| status_code := status_code response;
              response_headers := dict_set "x-request-id" rid (response_headers response) |},
           {| h_method := method request; h_path := path request; h_status_code := status_code response;
              duration_ms := duration |}), vars')
  end.
