(* ===== verification/LoggingCore.v ===== *)
(** Structured logging, the service: [clickhouse.py], [repository.py] over
    logging.service_log_configs of 0001_logging.sql, and the endpoints of
    [app.py].

    Parameters: [isoformat] renders a timestamp in a dump, [post] is the answer
    of ClickHouse to a request, or the exception of the client.

    Structured logging: what reaches the sinks, and how an ingestion ends. *)
From stdpp Require Import base strings list gmap pretty.
From Stdlib Require Import Ascii.
From S2P Require Import Prelude PyStr Json PyPath StartUp AuditTrail AuditProps Logging.

#[local] Open Scope string_scope.

Section Core.
Context (isoformat : Timestamp -> string) (post : string -> string -> result string unit).

(** [log.model_dump(mode="json")] *)
Definition model_dump (l : LogEnvelope) : pydict string json :=
  [("ts", JStr (isoformat (ts l))); ("level", JStr (level_text (level l))); ("service", JStr (service l));
   ("service_version", JStr (service_version l)); ("environment", JStr (environment l)); ("plane", JStr (plane l));
   ("event", JStr (event l)); ("message", JStr (e_message l)); ("trace_id", opt_json (e_trace_id l));
   ("request_id", opt_json (e_request_id l)); ("correlation_id", opt_json (e_correlation_id l));
   ("actor_id", opt_json (e_actor_id l)); ("data", JDict (data l))].

(** ** clickhouse.py *)

Definition clickhouse_payload (l : LogEnvelope) : pydict string json :=
  dict_set "data" (JStr (dumps plain (default (JDict []) (dict_get "data" (model_dump l))))) (model_dump l).
Definition clickhouse_body (logs : list LogEnvelope) : string :=
  join (String newline "") (map (fun l => dumps plain (JDict (clickhouse_payload l))) logs).
Definition clickhouse_query_url (clickhouse_url database : string) : string :=
  rstrip_char "/" clickhouse_url ++ "/?database=" ++ database.

(** ** What the service has: its sinks, and its counters *)

Record World := {
  stdout : list string; filesystem : FileSystem; inserted : list (string * string);
  logs_ingested_total : nat; file_failures : nat; clickhouse_failures : nat
}.
Inductive core_exc := HTTPException (status : Z) (detail : string) | DatabaseError (m : string).

(** The exception of the driver stays in the function. *)
Definition insert_logs_into_clickhouse (clickhouse_url database : string) (logs : list LogEnvelope) : st World string unit := fun w =>
  let url := clickhouse_query_url clickhouse_url database in
  match post url (clickhouse_body logs) with
  | Err e => (Err e, w)
  | Ok _ => (Ok tt, {| stdout := stdout w; filesystem := filesystem w; inserted := (inserted w ++ [(url, clickhouse_body logs)])%list;
                       logs_ingested_total := logs_ingested_total w; file_failures := file_failures w;
                       clickhouse_failures := clickhouse_failures w |})
  end.

(** ** app.py *)

Record LoggingCoreSettings := {
  database_url : option string; clickhouse_url : option string; clickhouse_database : string; stdout_enabled : bool;
  file_sink_path : option string; strict_mode : bool; max_batch_size : nat
}.
Definition truthy (o : option string) : option string :=
  match o with Some s => if str_empty s then None else o | None => None end.

Definition serialize_log (l : LogEnvelope) : string := dumps plain (JDict (model_dump l)).
Definition file_text (lines : list string) : string := String.concat "" (map (fun l => l ++ String newline "") lines).
Definition append_file_lines (path : string) (lines : list string) (fs : FileSystem) : result os_exc unit * FileSystem :=
  let p := path_of path in
  match mkdir_parents (path_parent p) fs with
  | (Err e, fs') => (Err e, fs')
  | (Ok _, fs') => write_bytes p (default "" (files fs' !! p) ++ file_text lines) fs'
  end.

(** A sink appends whether it succeeded. *)
Definition Sink : Type := World -> list bool * World.
Definition print_sink (lines : list string) : Sink := fun w =>
  ([true], {| stdout := (stdout w ++ lines)%list; filesystem := filesystem w; inserted := inserted w;
              logs_ingested_total := logs_ingested_total w; file_failures := file_failures w;
              clickhouse_failures := clickhouse_failures w |}).
Definition file_sink (path : string) (lines : list string) : Sink := fun w =>
  let '(r, fs) := append_file_lines path lines (filesystem w) in
  ([is_ok r], {| stdout := stdout w; filesystem := fs; inserted := inserted w; logs_ingested_total := logs_ingested_total w;
                 file_failures := file_failures w + (if is_ok r then 0 else 1)%nat; clickhouse_failures := clickhouse_failures w |}).
Definition clickhouse_sink (url database : string) (logs : list LogEnvelope) : Sink := fun w =>
  let '(r, w') := insert_logs_into_clickhouse url database logs w in
  ([is_ok r], {| stdout := stdout w'; filesystem := filesystem w'; inserted := inserted w';
                 logs_ingested_total := logs_ingested_total w'; file_failures := file_failures w';
                 clickhouse_failures := clickhouse_failures w' + (if is_ok r then 0 else 1)%nat |}).
Definition no_sink : Sink := fun w => ([], w).
Definition then_sink (a b : Sink) : Sink := fun w =>
  let '(x, w1) := a w in let '(y, w2) := b w1 in ((x ++ y)%list, w2).

Definition redacted (l : LogEnvelope) : LogEnvelope :=
  with_data (match redact_data (JDict (data l)) with JDict d => d | _ => [] end) l.

Definition sinks (settings : LoggingCoreSettings) (lines : list string) (logs : list LogEnvelope) : Sink :=
  then_sink (if stdout_enabled settings then print_sink lines else no_sink)
    (then_sink (match truthy (file_sink_path settings) with Some p => file_sink p lines | None => no_sink end)
       (match truthy (clickhouse_url settings) with
        | Some u => clickhouse_sink u (clickhouse_database settings) logs
        | None => no_sink
        end)).

Record Accepted := { accepted : nat; a_stdout : bool; a_file : bool; a_clickhouse : bool }.
Definition count_logs (n : nat) (w : World) : World :=
  {| stdout := stdout w; filesystem := filesystem w; inserted := inserted w; logs_ingested_total := logs_ingested_total w + n;
     file_failures := file_failures w; clickhouse_failures := clickhouse_failures w |}.
Definition too_many (settings : LoggingCoreSettings) : core_exc :=
  HTTPException 400 ("batch size exceeds maximum of " ++ pretty (max_batch_size settings)).
Definition ingest_logs (settings : LoggingCoreSettings) (logs : list LogEnvelope) : st World core_exc Accepted := fun w =>
  if (max_batch_size settings <? length logs)%nat then (Err (too_many settings), w)
  else
    let redacted_logs := map redacted logs in
    let lines := map serialize_log redacted_logs in
    let '(sink_successes, w1) := sinks settings lines redacted_logs w in
    let w2 := count_logs (length redacted_logs) w1 in
    if strict_mode settings && negb (bool_decide (sink_successes = [])) && negb (existsb id sink_successes)
    then (Err (HTTPException 503 "all log sinks failed"), w2)
    else (Ok {| accepted := length redacted_logs; a_stdout := stdout_enabled settings;
                a_file := bool_decide (is_Some (truthy (file_sink_path settings)));
                a_clickhouse := bool_decide (is_Some (truthy (clickhouse_url settings))) |}, w2).
(** The endpoint: the envelopes are validated before the handler runs. *)
Definition post_logs (settings : LoggingCoreSettings) (logs : list LogEnvelope) : st World core_exc Accepted :=
  valid ← lift (map_err (HTTPException 422) (map_result enforce_logging_policy logs));
  ingest_logs settings valid.
End Core.

(** ** repository.py and its endpoints *)

Record ServiceLogConfig := {
  sc_service_name : string; sc_environment : string; sc_plane : string; default_level : string; json_output : bool;
  redaction_enabled : bool
}.
Record Row := { config : ServiceLogConfig; created_at : Z; updated_at : Z }.
Inductive db_exc := Unreachable | CheckViolation (constraint : string).
Definition LEVELS : list string := ["DEBUG"; "INFO"; "WARNING"; "ERROR"; "CRITICAL"].
(** The checks, which the server tries in the order of their names. *)
Definition checks_ok (c : ServiceLogConfig) : result db_exc unit :=
  if negb (bool_decide (default_level c ∈ LEVELS)) then Err (CheckViolation "service_log_configs_default_level_valid")
  else if negb (not_blank (sc_environment c)) then Err (CheckViolation "service_log_configs_environment_not_empty")
  else if negb (not_blank (sc_plane c)) then Err (CheckViolation "service_log_configs_plane_not_empty")
  else if negb (not_blank (sc_service_name c)) then Err (CheckViolation "service_log_configs_service_name_not_empty")
  else Ok tt.
Definition row_key (r : Row) : string := sc_service_name (config r).
Definition is_service (n : string) (r : Row) : bool := bool_decide (row_key r = n).

(** [ORDER BY service_name] *)
Definition get_service_configs (t : list Row) : list ServiceLogConfig :=
  map config (py_sorted (fun a b => str_lt (row_key a) (row_key b)) t).
Definition upsert_service_config (now : Z) (c : ServiceLogConfig) : st (list Row) db_exc unit := fun t =>
  match checks_ok c with
  | Err e => (Err e, t)
  | Ok _ => (Ok tt, tbl_upsert (is_service (sc_service_name c)) {| config := c; created_at := now; updated_at := now |}
                      (fun r => {| config := c; created_at := created_at r; updated_at := now |}) t)
  end.

(** The repository is there once the service has started with a database. *)
Definition lifespan (settings : LoggingCoreSettings) (migrations_dir : string) (fs : FileSystem)
    (connect : st (list Row) startup_exc unit) (execute : string -> st (list Row) startup_exc unit) (rows : list Row)
    : result startup_exc (option (list Row)) :=
  match truthy (database_url settings) with
  | Some _ => match logging_apply_migrations connect execute fs migrations_dir rows with
              | (Ok _, rows') => Ok (Some rows')
              | (Err e, _) => Err e
              end
  | None => Ok None
  end.
Definition readyz (settings : LoggingCoreSettings) (repository : option (list Row)) : Z * bool :=
  match truthy (database_url settings), repository with Some _, None => (503, false)%Z | _, _ => (200, true)%Z end.
Definition get_configs (repository : option (list Row)) : list ServiceLogConfig :=
  match repository with None => [] | Some t => get_service_configs t end.
Definition put_config (up : bool) (now : Z) (payload : ServiceLogConfig) : st (option (list Row)) core_exc string := fun repository =>
  match repository with
  | None => (Err (HTTPException 503 "logging configuration database is not configured"), repository)
  | Some t =>
      if negb up then (Err (DatabaseError "unreachable"), repository)
      else match upsert_service_config now payload t with
           | (Ok _, t') => (Ok "saved", Some t')
           | (Err (CheckViolation k), _) => (Err (DatabaseError k), repository)
           | (Err Unreachable, _) => (Err (DatabaseError "unreachable"), repository)
           end
  end.

(** * What the sinks receive *)

(** ** Redaction

    The function is that of the audit trail. *)
Lemma redact_same j : Logging.redact_data j = AuditTrail.redact_data j.
Proof. done. Qed.

(** No secret key keeps its value, at any depth. *)
Definition no_secret (j : json) : Prop := forall k v, Logging.is_secret_key k = true -> occurs k v j -> v = JStr Logging.REDACTED.
Lemma redact_no_secret j : no_secret (Logging.redact_data j).
Proof. intros k v. apply redact_hides. Qed.

Definition redact_entry (kv : string * json) : string * json :=
  if Logging.is_secret_key kv.1 then (kv.1, JStr Logging.REDACTED) else (kv.1, Logging.redact_data kv.2).
Lemma redact_dict d : Logging.redact_data (JDict d) = JDict (map redact_entry d).
Proof. done. Qed.
Lemma dict_set_wf k v d : json_wf (JDict d) = true -> json_wf v = true -> json_wf (JDict (dict_set k v d)) = true.
Proof.
  cbn [json_wf]. rewrite !andb_true_iff, !bool_decide_eq_true, !forallb_forall. intros [Hn Hw] Hv. split.
  - by apply dict_wf_set.
  - intros [k' v'] Hin. apply list_elem_of_In, dict_set_elem in Hin. cbn.
    destruct Hin as [[= -> ->]|Hin]; [done|]. by apply (Hw (k', v')), list_elem_of_In.
Qed.
Lemma redact_wf j : json_wf j = true -> json_wf (Logging.redact_data j) = true.
Proof.
  induction j as [|b|n|s|l Hl|d Hd] using json_induction; try done.
  - cbn [json_wf]. intros Hw. change (Logging.redact_data (JList l)) with (JList (map Logging.redact_data l)). cbn [json_wf].
    rewrite forallb_forall in Hw |- *. intros x (y & <- & Hy)%in_map_iff. rewrite list.Forall_forall in Hl.
    apply Hl; [by apply list_elem_of_In|by apply Hw].
  - rewrite redact_dict. cbn [json_wf]. rewrite !andb_true_iff, !bool_decide_eq_true, !forallb_forall. intros [Hn Hw]. split.
    + rewrite map_map. erewrite map_ext; [exact Hn|]. intros kv. unfold redact_entry. by destruct (Logging.is_secret_key kv.1).
    + intros x (kv & <- & Hkv)%in_map_iff. unfold redact_entry. destruct (Logging.is_secret_key kv.1); [done|]. cbn.
      rewrite list.Forall_forall in Hd. apply Hd; [by apply list_elem_of_In|by apply Hw].
Qed.

Definition log_data (l : LogEnvelope) : json := JDict (Logging.data l).
Lemma redacted_log_data l : log_data (redacted l) = Logging.redact_data (log_data l).
Proof. unfold log_data, redacted. by rewrite redact_dict. Qed.

(** ** Lines *)

Section Lines.
Context (isoformat : Timestamp -> string).

Lemma loads_plain j : json_wf j = true -> loads (dumps plain j) = Some j.
Proof. intros Hw. rewrite (loads_dumps plain j Hw). by rewrite normalize_plain. Qed.
Lemma opt_json_wf o : json_wf (opt_json o) = true.
Proof. by destruct o. Qed.
Lemma line_loads l : json_wf (log_data l) = true -> loads (serialize_log isoformat l) = Some (JDict (model_dump isoformat l)).
Proof.
  intros Hw. unfold serialize_log. apply loads_plain. unfold model_dump. cbn [json_wf forallb map fst snd]. rewrite !opt_json_wf.
  unfold log_data in Hw. cbn [json_wf] in Hw. by apply andb_true_iff in Hw as [-> ->].
Qed.

(** A ClickHouse row: the envelope with its data as a text. *)
Lemma clickhouse_row l : json_wf (log_data l) = true ->
  loads (dumps plain (JDict (clickhouse_payload isoformat l))) = Some (JDict (clickhouse_payload isoformat l)) /\
  dict_get "data" (clickhouse_payload isoformat l) = Some (JStr (dumps plain (log_data l))) /\
  loads (dumps plain (log_data l)) = Some (log_data l).
Proof.
  intros Hw. split_and!.
  - apply loads_plain. unfold clickhouse_payload, model_dump.
    by destruct (e_trace_id l), (e_request_id l), (e_correlation_id l), (e_actor_id l).
  - done.
  - by apply loads_plain.
Qed.
Lemma dumps_no_newline j : no_char newline (dumps plain j).
Proof. apply (no_char_forall printable); [done|]. by apply dumps_printable. Qed.
Lemma body_lines logs : logs <> [] ->
  split_on newline (clickhouse_body isoformat logs) = map (fun l => dumps plain (JDict (clickhouse_payload isoformat l))) logs.
Proof.
  intros Hne. unfold clickhouse_body. apply split_join_char; [by destruct logs|].
  apply list.Forall_forall. intros x (l & <- & _)%list_elem_of_In%in_map_iff. apply dumps_no_newline.
Qed.
End Lines.

(** ** Sinks *)

Section Sinks.
Context (isoformat : Timestamp -> string) (post : string -> string -> result string unit).

(** What a sink does to what it does not own: nothing. *)
Lemma append_spec path lines fs r fs' : append_file_lines path lines fs = (r, fs') ->
  (forall q, q <> path_of path -> files fs' !! q = files fs !! q) /\
  files fs' !! path_of path =
    if is_ok r then Some (default "" (files fs !! path_of path) ++ file_text lines)%string else files fs !! path_of path.
Proof.
  unfold append_file_lines. destruct (mkdir_parents _ fs) as [[u|e] fs1] eqn:Hm; apply mkdir_parents_files in Hm.
  - intros Hw. rewrite Hm in Hw. destruct (write_bytes_files _ _ _ _ _ Hw) as [Ho Hp]. rewrite Hm in Ho. split; [done|].
    destruct r as [[]|e]; [by apply Hp|]. revert Hw. unfold write_bytes. cbn [is_ok].
    repeat case_match; intros [= <- <-]; by rewrite Hm.
  - intros [= <- <-]. by rewrite Hm.
Qed.

Lemma file_append_ok path lines fs : is_ok (append_file_lines path lines fs).1 = bool_decide (writable (path_of path) fs).
Proof.
  unfold append_file_lines. case_bool_decide as Hw.
  - destruct (write_new (path_of path) (default "" (files fs !! path_of path) ++ file_text lines)%string fs Hw)
      as (fs1 & -> & -> & ->). done.
  - destruct (mkdir_parents _ fs) as [[u|e] fs1] eqn:Hm; [|done].
    destruct u, (write_bytes _ _ fs1) as [[[]|e] fs2] eqn:Hb; [|done]. exfalso. apply Hw. by eapply writable_if.
Qed.

(** Whether the file sink can take lines. *)
Definition file_taken (settings : LoggingCoreSettings) (w : World) : bool :=
  match truthy (file_sink_path settings) with
  | Some p => bool_decide (writable (path_of p) (filesystem w))
  | None => true
  end.

(** The file after an ingestion. *)
Definition file_after (settings : LoggingCoreSettings) (lines : list string) (took : bool) (w w' : World) : Prop :=
  forall q, files (filesystem w') !! q =
    match truthy (file_sink_path settings) with
    | Some s => if decide (q = path_of s) then
                  if took then Some (default "" (files (filesystem w) !! q) ++ file_text lines)%string else files (filesystem w) !! q
                else files (filesystem w) !! q
    | None => files (filesystem w) !! q
    end.
Definition posted (settings : LoggingCoreSettings) (logs : list LogEnvelope) : option (string * string) :=
  match truthy (clickhouse_url settings) with
  | Some u => let url := clickhouse_query_url u (clickhouse_database settings) in
              if is_ok (post url (clickhouse_body isoformat logs)) then Some (url, clickhouse_body isoformat logs) else None
  | None => None
  end.
Definition enabled (o : option string) : bool := bool_decide (is_Some (truthy o)).
Definition fail_count (b : bool) : nat := if b then 0 else 1.

(** The sinks in turn. *)
Lemma sinks_spec settings lines logs w : let took := file_taken settings w in
  let '(successes, w') := sinks isoformat post settings lines logs w in
  stdout w' = (stdout w ++ (if stdout_enabled settings then lines else []))%list /\
  file_after settings lines took w w' /\
  inserted w' = (inserted w ++ option_list (posted settings logs))%list /\
  logs_ingested_total w' = logs_ingested_total w /\
  file_failures w' = (file_failures w + if enabled (file_sink_path settings) then fail_count took else 0)%nat /\
  clickhouse_failures w' = (clickhouse_failures w + if enabled (clickhouse_url settings)
    then fail_count (bool_decide (is_Some (posted settings logs))) else 0)%nat /\
  successes = ((if stdout_enabled settings then [true] else []) ++
    (if enabled (file_sink_path settings) then [took] else []) ++
    (if enabled (clickhouse_url settings) then [bool_decide (is_Some (posted settings logs))] else []))%list.
Proof.
  cbv zeta. unfold file_taken, sinks, then_sink, file_after, posted, enabled, file_sink, clickhouse_sink, insert_logs_into_clickhouse.
  destruct ((if stdout_enabled settings then print_sink lines else no_sink) w) as [x0 w0] eqn:Hw0.
  assert (H0 : x0 = (if stdout_enabled settings then [true] else []) /\
    stdout w0 = (stdout w ++ (if stdout_enabled settings then lines else []))%list /\ filesystem w0 = filesystem w /\
    inserted w0 = inserted w /\ logs_ingested_total w0 = logs_ingested_total w /\ file_failures w0 = file_failures w /\
    clickhouse_failures w0 = clickhouse_failures w).
  { destruct (stdout_enabled settings); injection Hw0 as <- <-; [done|]. cbn. by rewrite app_nil_r. }
  destruct H0 as (-> & H1 & H2 & H3 & H4 & H5 & H6). clear Hw0.
  destruct (truthy (file_sink_path settings)) as [p|].
  - destruct (append_file_lines p lines (filesystem w)) as [r fs] eqn:Ha. rewrite H2, Ha. rewrite <- (file_append_ok p lines), Ha. apply append_spec in Ha as [Hq Hp].
    destruct (truthy (clickhouse_url settings)) as [u|]; [destruct (post _ _) as [[]|e]|];
      cbn; rewrite ?app_nil_r, ?Nat.add_0_r, ?H1, ?H3, ?H4, ?H5, ?H6; (split_and!; try done);
      (intros q; case_decide as Hd; [rewrite Hd; exact Hp|by apply Hq]).
  - destruct (truthy (clickhouse_url settings)) as [u|]; [destruct (post _ _) as [[]|e]|];
      cbn; rewrite ?app_nil_r, ?Nat.add_0_r, ?H1, ?H2, ?H3, ?H4, ?H5, ?H6; by split_and!.
Qed.
End Sinks.

(** A sink took the batch: standard output always does, the others unless their
    failure is counted. *)
Definition took_batch (settings : LoggingCoreSettings) (w w' : World) : Prop :=
  stdout_enabled settings = true \/
  (enabled (file_sink_path settings) = true /\ file_failures w' = file_failures w) \/
  (enabled (clickhouse_url settings) = true /\ clickhouse_failures w' = clickhouse_failures w).
Definition some_sink (settings : LoggingCoreSettings) : bool :=
  stdout_enabled settings || enabled (file_sink_path settings) || enabled (clickhouse_url settings).

(** A batch that is too large is refused and leaves nothing; any other is
    counted as ingested, and refused only in strict mode with sinks of which
    none took it: otherwise it is accepted, in number, even if all failed. *)
Theorem ingest_outcome isoformat post settings logs w :
  let '(x, w') := ingest_logs isoformat post settings logs w in
  if (max_batch_size settings <? length logs)%nat then x = Err (too_many settings) /\ w' = w
  else
    logs_ingested_total w' = (logs_ingested_total w + length logs)%nat /\
    ((strict_mode settings = true /\ some_sink settings = true /\ ~ took_batch settings w w') ->
      x = Err (HTTPException 503 "all log sinks failed")) /\
    (~ (strict_mode settings = true /\ some_sink settings = true /\ ~ took_batch settings w w') ->
      exists a, x = Ok a /\ accepted a = length logs).
Proof.
  unfold ingest_logs. destruct (_ <? _)%nat; [done|].
  set (out := map redacted logs). set (lines := map (serialize_log isoformat) out).
  pose proof (sinks_spec isoformat post settings lines out w) as H. cbv zeta in H. set (took := file_taken settings w) in H.
  destruct (sinks _ _ settings lines out w) as [xs w1]. destruct H as (_ & _ & _ & Hc & Hf & Hk & ->).
  assert (Hlen : length out = length logs) by apply length_map.
  set (ss := ((if stdout_enabled settings then [true] else []) ++ _)%list).
  assert (Hany : took_batch settings w w1 <-> existsb id ss = true).
  { unfold took_batch, ss, fail_count in *. rewrite Hf, Hk. clear.
    destruct (stdout_enabled settings), (enabled (file_sink_path settings)), (enabled (clickhouse_url settings)), took,
      (bool_decide (is_Some (posted isoformat post settings out)));
      cbn; intuition lia. }
  assert (Hsome : some_sink settings = negb (bool_decide (ss = []))).
  { unfold some_sink, ss. destruct (stdout_enabled settings); [done|]. destruct (enabled (file_sink_path settings)); [done|].
    by destruct (enabled (clickhouse_url settings)). }
  assert (Htook : forall n, took_batch settings w (count_logs n w1) <-> took_batch settings w w1) by done.
  rewrite <- Hsome. destruct (strict_mode settings), (some_sink settings), (existsb id ss) eqn:He; cbn [andb negb];
    (split; [cbn; lia|]); rewrite Htook, Hany, ?Hlen; (split; [try done|intros Hn]); eauto; try (by eexists); intuition congruence.
Qed.

(** Standard output gains the lines if it is on; the file gains them, behind
    what it held, if it can be written, and no other file changes; ClickHouse
    gets the body if it answers.  Each refusal is counted. *)
Definition stdout_gets (settings : LoggingCoreSettings) (lines : list string) (w w' : World) : Prop :=
  stdout w' = (stdout w ++ (if stdout_enabled settings then lines else []))%list.
Definition file_gets (settings : LoggingCoreSettings) (lines : list string) (w w' : World) : Prop :=
  match truthy (file_sink_path settings) with
  | Some s =>
      let p := path_of s in
      if bool_decide (writable p (filesystem w))
      then files (filesystem w') = <[p := (default "" (files (filesystem w) !! p) ++ file_text lines)%string]> (files (filesystem w)) /\
           file_failures w' = file_failures w
      else files (filesystem w') = files (filesystem w) /\ file_failures w' = S (file_failures w)
  | None => files (filesystem w') = files (filesystem w) /\ file_failures w' = file_failures w
  end.
Definition clickhouse_gets (post : string -> string -> result string unit) (settings : LoggingCoreSettings) (body : string)
    (w w' : World) : Prop :=
  match truthy (clickhouse_url settings) with
  | Some u =>
      let url := clickhouse_query_url u (clickhouse_database settings) in
      match post url body with
      | Ok _ => inserted w' = (inserted w ++ [(url, body)])%list /\ clickhouse_failures w' = clickhouse_failures w
      | Err _ => inserted w' = inserted w /\ clickhouse_failures w' = S (clickhouse_failures w)
      end
  | None => inserted w' = inserted w /\ clickhouse_failures w' = clickhouse_failures w
  end.

Lemma sinks_get isoformat post settings logs w x w' :
  (length logs <= max_batch_size settings)%nat -> ingest_logs isoformat post settings logs w = (x, w') ->
  let out := map redacted logs in
  let lines := map (serialize_log isoformat) out in
  stdout_gets settings lines w w' /\ file_gets settings lines w w' /\
  clickhouse_gets post settings (clickhouse_body isoformat out) w w'.
Proof.
  intros Hlen%Nat.ltb_ge H. unfold ingest_logs in H. rewrite Hlen in H. intros out lines. fold out in H. fold lines in H.
  pose proof (sinks_spec isoformat post settings lines out w) as Hs. cbv zeta in Hs.
  destruct (sinks _ _ settings lines out w) as [xs w1]. destruct Hs as (H1 & H2 & H3 & _ & H5 & H6 & _).
  assert (Hw : w' = count_logs (length out) w1) by (destruct (_ && _); by injection H as _ <-). rewrite Hw. clear H Hw.
  split_and!; [exact H1|..].
  - clear H3 H6. unfold file_gets, file_after, file_taken, enabled in *.
    destruct (truthy (file_sink_path settings)) as [p|]; cbn in H5 |- *.
    + destruct (bool_decide (writable (path_of p) (filesystem w))); cbn in H5; (split; [|lia]); apply map_eq; intros q; rewrite H2;
        case_decide as Hd; rewrite ?Hd, ?lookup_insert_eq, ?lookup_insert_ne by done; done.
    + split; [|lia]. by apply map_eq.
  - clear H1 H2 H5. unfold clickhouse_gets, posted, enabled in *.
    destruct (truthy (clickhouse_url settings)) as [u|]; cbn in H3, H6 |- *; cycle 1.
    { rewrite app_nil_r in H3. split; [done|lia]. }
    destruct (post _ _) as [[]|e]; cbn in H3, H6 |- *; rewrite ?app_nil_r in H3; split; try done; lia.
Qed.

(** C24: a batch that is not too large reaches every sink that is configured
    and can take it, once and as a whole, behind what the sink held: one line
    per log for standard output and the file, which reads back as the envelope
    with its data redacted, and for ClickHouse a body that splits into one row
    per log, with the redacted data as a text.  A file that cannot be written,
    or a ClickHouse that refuses, gets nothing and is counted.  Redacted data
    keep no value of a secret key. *)
Theorem sinks_get_redacted isoformat post settings logs w x w' :
  Forall (fun l => json_wf (log_data l) = true) logs -> (length logs <= max_batch_size settings)%nat ->
  ingest_logs isoformat post settings logs w = (x, w') ->
  let out := map redacted logs in
  let lines := map (serialize_log isoformat) out in
  let body := clickhouse_body isoformat out in
  stdout_gets settings lines w w' /\ file_gets settings lines w w' /\ clickhouse_gets post settings body w w' /\
  Forall2 (fun line l => loads line = Some (JDict (model_dump isoformat l))) lines out /\
  (logs <> [] -> Forall2 (fun row l => exists m text, loads row = Some (JDict m) /\
     dict_get "data" m = Some (JStr text) /\ loads text = Some (log_data l)) (split_on newline body) out) /\
  Forall (fun l => no_secret (log_data l)) out.
Proof.
  intros Hwf Hlen H out lines body.
  assert (Hout : Forall (fun l => json_wf (log_data l) = true) out).
  { apply list.Forall_fmap. eapply list.Forall_impl; [exact Hwf|]. intros l Hl. unfold compose. rewrite redacted_log_data. by apply redact_wf. }
  destruct (sinks_get _ _ _ _ _ _ _ Hlen H) as (H1 & H2 & H3). split_and!; [done..| | |].
  - unfold lines. apply Forall2_fmap_l, Forall_Forall2_diag. eapply list.Forall_impl; [exact Hout|]. intros l Hl. by apply line_loads.
  - intros Hne. unfold body. rewrite body_lines by (unfold out; by destruct logs).
    apply Forall2_fmap_l, Forall_Forall2_diag. eapply list.Forall_impl; [exact Hout|]. intros l Hl.
    destruct (clickhouse_row isoformat l Hl) as (Ha & Hb & Hc). by eexists _, _.
  - apply list.Forall_fmap, list.Forall_true. intros l. unfold compose. rewrite redacted_log_data. apply redact_no_secret.
Qed.

Definition sample_log : LogEnvelope :=
  {| ts := {| clock_text := "2024-05-01T10:00:00"; zone := Some "Z" |}; level := INFO; service := "svc"; service_version := "1";
     environment := "local"; plane := "CONTROL"; event := "e"; e_message := "m"; e_trace_id := None; e_request_id := Some "r";
     e_correlation_id := None; e_actor_id := None; Logging.data := [("password", JStr "x"); ("n", JList [JDict [("api_key", JNum 1)]])] |}.
Definition sample_settings (strict : bool) : LoggingCoreSettings :=
  {| database_url := None; clickhouse_url := Some "http://ch/"; clickhouse_database := "logging"; stdout_enabled := false;
     file_sink_path := Some "/logs/a.log"; strict_mode := strict; max_batch_size := 2 |}.
Definition sample_world : World :=
  {| stdout := []; filesystem := {| files := ∅; dirs := ∅ |}; inserted := []; logs_ingested_total := 0; file_failures := 0;
     clickhouse_failures := 0 |}.
Definition sample_iso (t : Timestamp) : string := clock_text t ++ default "" (zone t).

Lemma sinks_get_redacted_witness :
  let run := ingest_logs sample_iso (fun _ _ => Ok tt) (sample_settings true) [sample_log] sample_world in
  let lines := map (serialize_log sample_iso) (map redacted [sample_log]) in
  files (filesystem run.2) !! path_of "/logs/a.log" = Some (file_text lines) /\
  length (inserted run.2) = 1%nat /\
  Forall (fun l => no_secret (log_data l)) (map redacted [sample_log]).
Proof.
  intros run lines. destruct run as [x w'] eqn:Hrun.
  destruct (sinks_get_redacted sample_iso (fun _ _ => Ok tt) (sample_settings true) [sample_log] sample_world x w')
    as (_ & Hf & Hc & _ & _ & Hn); [repeat constructor|cbn; lia|exact Hrun|].
  split_and!; [| |exact Hn].
  - unfold file_gets in Hf. cbn [sample_settings file_sink_path truthy str_empty] in Hf.
    rewrite bool_decide_true in Hf by (apply (bool_decide_unpack (writable (path_of "/logs/a.log") (filesystem sample_world))); vm_compute; exact I).
    destruct Hf as [Hf _]. cbn [snd]. rewrite Hf, lookup_insert_eq. reflexivity.
  - destruct Hc as [Hc _]. cbn [snd]. rewrite Hc. reflexivity.
Defined.

(** A batch that no sink took is counted as ingested: again at every retry. *)
Lemma lost_batch_is_counted :
  let '(x, w') := ingest_logs sample_iso (fun _ _ => Err "down")
    {| database_url := None; clickhouse_url := Some "http://ch"; clickhouse_database := "logging"; stdout_enabled := false;
       file_sink_path := None; strict_mode := true; max_batch_size := 2 |} [sample_log] sample_world in
  x = Err (HTTPException 503 "all log sinks failed") /\ logs_ingested_total w' = 1%nat.
Proof. vm_compute. done. Qed.

(** ** Configurations *)

Lemma configs_spec now c t x t' : NoDup (row_key <$> t) -> upsert_service_config now c t = (x, t') ->
  NoDup (row_key <$> t') /\
  match x with
  | Ok _ => forall n, config <$> (by_key row_key t' !! n) = if decide (n = sc_service_name c) then Some c else config <$> (by_key row_key t !! n)
  | Err _ => t' = t
  end.
Proof.
  intros Hnd. unfold upsert_service_config. destruct (checks_ok c); [|by intros [= <- <-]]. intros [= <- <-].
  destruct (by_key_upsert row_key (is_service (sc_service_name c)) {| config := c; created_at := now; updated_at := now |}
    (fun r => {| config := c; created_at := created_at r; updated_at := now |}) (sc_service_name c) t) as [Hnd' Hm]; try done.
  { intros r. unfold is_service. by rewrite bool_decide_eq_true. }
  split; [done|]. intros n. rewrite Hm. case_decide as Hn.
  - subst n. rewrite lookup_insert_eq. by destruct (tbl_find _ t).
  - by rewrite lookup_insert_ne.
Qed.

(** ** Context variables *)

(** A header that is absent leaves the variable as it was. *)
Lemma request_context uuid4 d request next vars :
  let vars' := (request_logging_middleware uuid4 d request next vars).2 in
  request_id vars' = Some (or_else (dict_get "x-request-id" (headers request)) uuid4) /\
  actor_id vars' = match dict_get "x-actor-id" (headers request) with Some x => Some x | None => actor_id vars end.
Proof. unfold request_logging_middleware. by destruct (next request); cbn; destruct (dict_get "x-actor-id" _). Qed.
(** A line that was formatted reads back, and keeps no secret of its data. *)
Lemma format_loads iso f vars r : match record_data r with Some d => json_wf d = true | None => True end ->
  loads (format iso f vars r) = Some (JDict (payload iso f (get_context vars) r)) /\
  match record_data r with Some d => no_secret (Logging.redact_data d) | None => True end.
Proof.
  intros Hw. split; [|by destruct (record_data r); [apply redact_no_secret|]]. apply loads_plain. unfold payload.
  assert (Hbase : forall l, json_wf l = true -> forall d, l = JDict d -> match record_data r with Some x => json_wf (JDict (dict_set "data" (Logging.redact_data x) d)) = true | None => True end).
  { intros l Hl d ->. destruct (record_data r); [|done]. apply dict_set_wf; [done|by apply redact_wf]. }
  unfold get_context. set (base := ("ts", _) :: _).
  assert (Hb : json_wf (JDict base) = true) by (destruct vars as [[] [] [] []]; reflexivity).
  specialize (Hbase _ Hb base eq_refl).
  destruct (record_data r), (exc_info r); try done; by apply dict_set_wf.
Qed.
