(* ===== verification/Health.v ===== *)
(** Health checks: [models.py], [checks.py], [checkers.py] and [routers.py] of
    apexquant-health, and which checks make a service unhealthy. *)
From stdpp Require Import base strings list.
From Stdlib Require Import Ascii.
From S2P Require Import Prelude PyStr.

#[local] Open Scope string_scope.

(** ** models.py *)

Inductive HealthStatus := HEALTHY | DEGRADED | UNHEALTHY.
#[export] Instance HealthStatus_eq_dec : EqDecision HealthStatus.
Proof. solve_decision. Defined.

(** [latency_ms] in thousandths, as it is rounded to three places. *)
Record DependencyStatus := { status : HealthStatus; latency_ms : option Z; error : option string }.
Record HealthResponse := {
  overall : HealthStatus; service : string; version : string; plane : string; environment : string;
  instance_id : string; timestamp : Z; dependencies : pydict string DependencyStatus
}.

(** ** checks.py *)

(** What a coroutine ends in.  [asyncio.CancelledError] is no [Exception]. *)
Inductive check_exc := TimeoutError | CheckFailed (m : string) | CancelledError.
(** The time a coroutine takes, in microseconds, with what it ends in; [None]
    is one that never ends. *)
Definition Coroutine : Type := option (Z * result check_exc DependencyStatus).
Record DependencyCheck := { name : string; type_ : string; check : Coroutine }.

Section Checks.
(** Which of a timeout and a result that are due at the same moment the event
    loop handles first, and the rounding of a duration. *)
Context (timeout_first : bool) (round3 : Z -> Z).

(** [asyncio.wait_for(coro, timeout=2.0)] *)
Definition default_timeout : Z := 2000000.
Definition in_time (d : Z) : bool := (d <? default_timeout)%Z || ((d =? default_timeout)%Z && negb timeout_first).
Definition wait_for (coro : Coroutine) : result check_exc (Z * DependencyStatus) :=
  match coro with
  | Some (d, r) => if in_time d then s ← r; Ok (d, s) else Err TimeoutError
  | None => Err TimeoutError
  end.
Definition run_with_timeout (coro : Coroutine) : result check_exc DependencyStatus :=
  match wait_for coro with
  | Ok (latency, _) => Ok {| status := HEALTHY; latency_ms := Some (round3 latency); error := None |}
  | Err TimeoutError => Ok {| status := UNHEALTHY; latency_ms := None; error := Some "timeout after 2.0s" |}
  | Err (CheckFailed m) => Ok {| status := UNHEALTHY; latency_ms := None; error := Some m |}
  | Err CancelledError => Err CancelledError
  end.

(** ** checkers.py *)

Record HealthChecker := {
  service_name : string; version_ : string; plane_ : string; environment_ : string; instance_id_ : string;
  checks : list DependencyCheck
}.
Definition add_check (c : DependencyCheck) (h : HealthChecker) : HealthChecker :=
  {| service_name := service_name h; version_ := version_ h; plane_ := plane_ h; environment_ := environment_ h;
     instance_id_ := instance_id_ h; checks := (checks h ++ [c])%list |}.
Definition check_live (h : HealthChecker) : bool := true.

Inductive checker_exc := NameError (m : string) | Check (e : check_exc).

(** [asyncio.gather] of the checks, each under its timeout. *)
Definition gather (cs : list DependencyCheck) : result checker_exc (list DependencyStatus) :=
  map_err Check (map_result (fun c => run_with_timeout (check c)) cs).

(** The module does not import asyncio; only the body of [check_health] does. *)
Definition check_ready (h : HealthChecker) : result checker_exc bool :=
  match checks h with
  | [] => Ok true
  | _ => Err (NameError "name 'asyncio' is not defined")
  end.

Definition dependency_key (c : DependencyCheck) : string := type_ c ++ ":" ++ name c.
(** The loop that fills [results]. *)
Fixpoint record_results (l : list (DependencyCheck * DependencyStatus)) (d : pydict string DependencyStatus)
    : pydict string DependencyStatus :=
  match l with
  | [] => d
  | (c, r) :: l' => record_results l' (dict_set (dependency_key c) r d)
  end.
Fixpoint overall_status (l : list DependencyStatus) : HealthStatus :=
  match l with
  | [] => HEALTHY
  | r :: l' => if decide (status r = UNHEALTHY) then UNHEALTHY else overall_status l'
  end.
Definition check_health (now : Z) (h : HealthChecker) : result checker_exc HealthResponse :=
  rs ← (match checks h with [] => Ok [] | cs => gather cs end);
  let results := record_results (zip (checks h) rs) [] in
  Ok {| overall := overall_status (dict_values results); service := service_name h; version := version_ h;
        plane := plane_ h; environment := environment_ h; instance_id := instance_id_ h; timestamp := now;
        dependencies := results |}.

(** ** routers.py: status code and body *)

Definition livez : Z * string := (200, "alive")%Z.
Definition readyz (h : HealthChecker) : result checker_exc (Z * string) :=
  is_ready ← check_ready h;
  Ok (if (is_ready : bool) then (200, "ready")%Z else (503, "not_ready")%Z).
Definition healthz (now : Z) (h : HealthChecker) : result checker_exc (Z * HealthResponse) :=
  health ← check_health now h;
  Ok (if decide (overall health = UNHEALTHY) then 503%Z else 200%Z, health).

(** ** What makes a service unhealthy *)

(** A check that does not return in time. *)
Definition fails (c : DependencyCheck) : Prop :=
  match check c with Some (d, Ok _) => in_time d = false | _ => True end.
Definition cancelled (c : DependencyCheck) : Prop :=
  exists d, check c = Some (d, Err CancelledError) /\ in_time d = true.

Lemma run_with_timeout_spec c : ~ cancelled c ->
  exists r, run_with_timeout (check c) = Ok r /\ (status r = UNHEALTHY <-> fails c) /\ status r <> DEGRADED.
Proof.
  intros Hc. unfold run_with_timeout, wait_for, fails. destruct (check c) as [[d r]|] eqn:Hk; [|by eexists].
  destruct (in_time d) eqn:Hd; [|by destruct r; eexists].
  destruct r as [s|[|m|]]; [by eexists|by eexists|by eexists|]. exfalso. apply Hc. by exists d.
Qed.

Lemma overall_unhealthy l : overall_status l = UNHEALTHY <-> exists r, r ∈ l /\ status r = UNHEALTHY.
Proof.
  induction l as [|r l IH]; cbn [overall_status].
  - split; [done|]. intros (r & Hr & _). by apply elem_of_nil in Hr.
  - destruct (decide (status r = UNHEALTHY)) as [Hs|Hs].
    + split; [intros _; exists r; split; [left|done]|done].
    + rewrite IH. split; intros (r' & Hr & Hs').
      * exists r'. split; [by right|done].
      * apply elem_of_cons in Hr as [->|Hr]; [done|by exists r'].
Qed.

Lemma overall_cases l : overall_status l = HEALTHY \/ overall_status l = UNHEALTHY.
Proof. induction l as [|r l IH]; cbn [overall_status]; [by left|]. destruct decide; [by right|done]. Qed.

(** The last check of a key gives the status that is kept. *)
Definition last_of_key (c : DependencyCheck) (cs : list DependencyCheck) : Prop :=
  exists before after, cs = (before ++ c :: after)%list /\ Forall (fun x => dependency_key x <> dependency_key c) after.

Lemma record_results_spec l : forall d, dict_wf d ->
  dict_wf (record_results l d) /\
  forall k, dict_get k (record_results l d) =
    match list.last (filter (fun x => dependency_key x.1 = k) l) with Some x => Some x.2 | None => dict_get k d end.
Proof.
  induction l as [|[c r] l IH]; intros d Hd; cbn [record_results]; [done|].
  destruct (IH (dict_set (dependency_key c) r d)) as [Hw Hg]; [by apply dict_wf_set|]. split; [done|].
  intros k. rewrite Hg. destruct (decide (dependency_key c = k)) as [Hk|Hk].
  - rewrite filter_cons_True by done. rewrite last_cons. destruct (list.last _) as [x|]; [done|].
    cbn. rewrite <- Hk. apply dict_get_set_eq.
  - rewrite filter_cons_False by done. destruct (list.last _) as [x|]; [done|]. by rewrite dict_get_set_ne.
Qed.

Lemma gather_spec cs : Forall (fun c => ~ cancelled c) cs ->
  exists rs, gather cs = Ok rs /\
    Forall2 (fun c r => run_with_timeout (check c) = Ok r /\ (status r = UNHEALTHY <-> fails c)) cs rs.
Proof.
  unfold gather. induction 1 as [|c cs Hc Hcs IH]; [by exists []|].
  destruct (run_with_timeout_spec c Hc) as (r & Hr & Hf & _). destruct IH as (rs & Hrs & Hall).
  exists (r :: rs). cbn [map_result]. rewrite Hr. cbn.
  destruct (map_result _ cs) as [rs'|]; [|done]. injection Hrs as ->. split; [done|by constructor].
Qed.

Lemma last_split {A} (P : A -> Prop) `{forall x, Decision (P x)} l x :
  list.last (filter P l) = Some x <-> P x /\ exists before after, l = (before ++ x :: after)%list /\ Forall (fun y => ~ P y) after.
Proof.
  split.
  - induction l as [|y l IH]; intros Hl; [done|]. destruct (decide (P y)) as [Hy|Hy].
    + rewrite filter_cons_True in Hl by done. rewrite last_cons in Hl. destruct (list.last (filter P l)) as [z|] eqn:Hz.
      * injection Hl as ->. destruct (IH eq_refl) as (Hx & b & a & -> & Ha). split; [done|]. by exists (y :: b), a.
      * injection Hl as ->. split; [done|]. exists [], l. split; [done|]. apply last_None in Hz.
        apply list.Forall_forall. intros z Hin HP. assert (Hf : z ∈ filter P l) by by apply list_elem_of_filter.
        rewrite Hz in Hf. by apply elem_of_nil in Hf.
    + rewrite filter_cons_False in Hl by done. destruct (IH Hl) as (Hx & b & a & -> & Ha). split; [done|]. by exists (y :: b), a.
  - intros (Hx & b & a & -> & Ha). rewrite list.filter_app, filter_cons_True by done. rewrite (filter_none _ a) by done.
    by rewrite last_app.
Qed.
(** The last entry of a key, among the checks with their results. *)
Lemma zip_last (R : DependencyCheck -> DependencyStatus -> Prop) cs rs c r : Forall2 R cs rs ->
  list.last (filter (fun x => dependency_key x.1 = dependency_key c) (zip cs rs)) = Some (c, r) ->
  last_of_key c cs /\ R c r.
Proof.
  intros HR Hl. apply last_split in Hl as (_ & b & a & Hz & Ha).
  assert (Hc : cs = (zip cs rs).*1) by (symmetry; apply fst_zip; by rewrite (Forall2_length _ _ _ HR)). split.
  - exists b.*1, a.*1. rewrite Hc, Hz, fmap_app. split; [done|]. by apply Forall_fmap.
  - assert (Hin : (c, r) ∈ zip cs rs) by (rewrite Hz; apply elem_of_app; right; left).
    apply list_elem_of_lookup_1 in Hin as [i Hi]. apply lookup_zip_Some in Hi as [H1 H2]. by eapply Forall2_lookup_lr.
Qed.
Lemma last_zip (R : DependencyCheck -> DependencyStatus -> Prop) cs rs c : Forall2 R cs rs -> last_of_key c cs ->
  exists r, list.last (filter (fun x => dependency_key x.1 = dependency_key c) (zip cs rs)) = Some (c, r) /\ R c r.
Proof.
  intros HR (b & a & -> & Ha). apply Forall2_app_inv_l in HR as (rb & ra & Hb & Hra & ->).
  apply Forall2_cons_inv_l in Hra as (r & ra' & Hr & Hra & ->). exists r. split; [|done].
  rewrite zip_with_app by by eapply Forall2_length. cbn [zip_with]. apply last_split. split; [done|].
  exists (zip b rb), (zip a ra'). split; [done|]. rewrite <- (fst_zip a ra') in Ha by (by rewrite (Forall2_length _ _ _ Hra)).
  rewrite list.Forall_fmap in Ha. exact Ha.
Qed.

Lemma check_health_spec now h : Forall (fun c => ~ cancelled c) (checks h) ->
  exists r, check_health now h = Ok r /\
    (overall r = UNHEALTHY <-> exists c, last_of_key c (checks h) /\ fails c) /\
    (forall c, last_of_key c (checks h) -> exists s,
       dict_get (dependency_key c) (dependencies r) = Some s /\ run_with_timeout (check c) = Ok s) /\
    (forall k s, dict_get k (dependencies r) = Some s -> exists c, last_of_key c (checks h) /\ dependency_key c = k).
Proof.
  intros Hc. destruct (gather_spec _ Hc) as (rs & Hg & HR).
  assert (Hrs : (match checks h with [] => Ok [] | cs => gather cs end) = Ok rs :> result checker_exc _).
  { destruct (checks h); [|done]. by apply Forall2_nil_inv_l in HR as ->. }
  unfold check_health. rewrite Hrs. eexists. split; [reflexivity|]. cbn [overall dependencies].
  destruct (record_results_spec (zip (checks h) rs) []) as [Hw Hd]; [constructor|].
  assert (Hof : forall k s, dict_get k (record_results (zip (checks h) rs) []) = Some s ->
            exists c, last_of_key c (checks h) /\ dependency_key c = k /\ (status s = UNHEALTHY <-> fails c)).
  { intros k s. rewrite Hd. destruct (list.last _) as [[c r]|] eqn:Hl; [|done]. intros [= ->].
    assert (Hk : dependency_key c = k) by by apply last_split in Hl as [? _]. subst k.
    destruct (zip_last _ _ _ _ _ HR Hl) as (Hlast & _ & Hf). by exists c. }
  assert (Hon : forall c, last_of_key c (checks h) -> exists s,
            dict_get (dependency_key c) (record_results (zip (checks h) rs) []) = Some s /\
            run_with_timeout (check c) = Ok s /\ (status s = UNHEALTHY <-> fails c)).
  { intros c Hlast. destruct (last_zip _ _ _ _ HR Hlast) as (r & Hl & Hr). exists r. by rewrite Hd, Hl. }
  split; [|split].
  - rewrite overall_unhealthy. split.
    + intros (s & Hs & Hu). apply dict_values_elem in Hs as [k Hk]. apply dict_elem_get in Hk; [|done].
      destruct (Hof _ _ Hk) as (c & Hlast & _ & Hf). exists c. split; [done|by apply Hf].
    + intros (c & Hlast & Hf). destruct (Hon c Hlast) as (s & Hg' & _ & Hs). exists s.
      split; [|by apply Hs]. apply dict_values_elem. exists (dependency_key c). by apply dict_get_Some_elem.
  - intros c Hlast. destruct (Hon c Hlast) as (s & Hg' & Hr & _). by exists s.
  - intros k s Hs. destruct (Hof _ _ Hs) as (c & Hlast & Hk & _). by exists c.
Qed.
End Checks.

(** Provided no check is cancelled, the health endpoint answers with what
    every kept check came to, of checks of one type and name the last, and it
    answers 503 exactly when one of them timed out or raised; what a check says
    of its dependency plays no part.  The readiness endpoint answers only if no
    check is registered. *)
Theorem health_verdict timeout_first round3 now h :
  Forall (fun c => ~ cancelled timeout_first c) (checks h) ->
  (exists code r, healthz timeout_first round3 now h = Ok (code, r) /\
    (code = 503 \/ code = 200)%Z /\
    (code = 503%Z <-> exists c, last_of_key c (checks h) /\ fails timeout_first c) /\
    (forall c, last_of_key c (checks h) -> exists s,
       dict_get (dependency_key c) (dependencies r) = Some s /\ run_with_timeout timeout_first round3 (check c) = Ok s) /\
    (forall k s, dict_get k (dependencies r) = Some s -> exists c, last_of_key c (checks h) /\ dependency_key c = k)) /\
  (is_ok (readyz h) = true <-> checks h = []).
Proof.
  intros Hc. split.
  - destruct (check_health_spec timeout_first round3 now h Hc) as (r & Hr & Hu & Hon & Hof).
    unfold healthz. rewrite Hr. eexists _, r. split; [reflexivity|]. split; [|split; [|done]].
    + destruct decide; [by left|by right].
    + rewrite <- Hu. by destruct decide.
  - unfold readyz, check_ready. by destruct (checks h).
Qed.

Definition sample_check (n : string) (co : Coroutine) : DependencyCheck := {| name := n; type_ := "redis"; check := co |}.
Definition sample_checker (cs : list DependencyCheck) : HealthChecker :=
  {| service_name := "svc"; version_ := "1.0"; plane_ := "CONTROL"; environment_ := "local"; instance_id_ := "i-1";
     checks := cs |}.
Definition slow : Coroutine := None.
Definition refused : Coroutine := Some (10%Z, Ok {| status := UNHEALTHY; latency_ms := None; error := Some "connection refused" |}).

Lemma health_verdict_witness :
  let h := sample_checker [sample_check "a" refused; sample_check "b" slow] in
  Forall (fun c => ~ cancelled true c) (checks h) /\
  (exists code r, healthz true id 0 h = Ok (code, r) /\ (code = 503 \/ code = 200)%Z /\
    (code = 503%Z <-> exists c, last_of_key c (checks h) /\ fails true c) /\
    (forall c, last_of_key c (checks h) -> exists s,
       dict_get (dependency_key c) (dependencies r) = Some s /\ run_with_timeout true id (check c) = Ok s) /\
    (forall k s, dict_get k (dependencies r) = Some s -> exists c, last_of_key c (checks h) /\ dependency_key c = k)) /\
  (is_ok (readyz h) = true <-> checks h = []).
Proof.
  intros h.
  assert (Hc : Forall (fun c => ~ cancelled true c) (checks h)).
  { repeat constructor; intros (d & Hd & _); discriminate Hd. }
  split; [exact Hc|]. apply (health_verdict true id 0 h Hc).
Defined.

(** A check that reports its dependency as down makes the service healthy. *)
Lemma reported_failure_is_healthy timeout_first round3 now :
  exists r, healthz timeout_first round3 now (sample_checker [sample_check "mock-redis" refused]) = Ok (200%Z, r) /\
    overall r = HEALTHY.
Proof. by eexists. Qed.
Lemma ready_raises cs c : check_ready (sample_checker (c :: cs)) = Err (NameError "name 'asyncio' is not defined").
Proof. done. Qed.
