(* ===== verification/ServiceRegistry.v ===== *)
(** The registry of running services: [registry.py] of apexquant-health over
    the table health.service_registry of 0001_health.sql, with the function
    health.reap_stale_instances of that migration.  The column [metadata] is
    never written.

    Clients interleave as lists of actions; every action is one transaction or
    one step of the event loop, and says whether the database could be reached. *)
From stdpp Require Import base strings list.
From Stdlib Require Import Ascii.
From S2P Require Import Prelude PyStr.

#[local] Open Scope string_scope.

Inductive service_status := STARTING | HEALTHY | DEGRADED | UNHEALTHY | SHUTDOWN.
#[export] Instance service_status_eq_dec : EqDecision service_status.
Proof. solve_decision. Defined.

Record Row := {
  instance_id : string; service_name : string; plane : string; environment : string; version : string;
  endpoint : string; status : service_status; registered_at : Z; last_heartbeat : Z
}.
Definition with_status (s : service_status) (r : Row) : Row :=
  {| instance_id := instance_id r; service_name := service_name r; plane := plane r; environment := environment r;
     version := version r; endpoint := endpoint r; status := s; registered_at := registered_at r;
     last_heartbeat := last_heartbeat r |}.
Definition beaten (now : Z) (r : Row) : Row :=
  {| instance_id := instance_id r; service_name := service_name r; plane := plane r; environment := environment r;
     version := version r; endpoint := endpoint r; status := HEALTHY; registered_at := registered_at r;
     last_heartbeat := now |}.

(** [ServiceRegistryClient.__init__]; the default of [instance_id] holds the
    host's name and the address of the object. *)
Record ServiceRegistryClient := {
  c_service_name : string; c_plane : string; c_environment : string; c_version : string; c_endpoint : string;
  c_instance_id : string
}.
Definition new_client (service_name plane environment version endpoint : string) (instance_id : option string)
    (hostname address : string) : ServiceRegistryClient :=
  {| c_service_name := service_name; c_plane := plane; c_environment := environment; c_version := version;
     c_endpoint := endpoint;
     c_instance_id := match instance_id with
                      | Some i => if str_empty i then service_name ++ "-" ++ hostname ++ "-" ++ address else i
                      | None => service_name ++ "-" ++ hostname ++ "-" ++ address
                      end |}.

Inductive registry_exc := Unreachable | CheckViolation (constraint : string).

(** The checks, which the server tries in the order of their names. *)
Definition checks_ok (r : Row) : result registry_exc unit :=
  if not_blank (endpoint r) then
    if not_blank (plane r) then
      if not_blank (service_name r) then Ok tt else Err (CheckViolation "registry_service_name_not_empty")
    else Err (CheckViolation "registry_plane_not_empty")
  else Err (CheckViolation "registry_endpoint_not_empty").
Definition is_instance (i : string) (r : Row) : bool := bool_decide (instance_id r = i).

Definition new_row (c : ServiceRegistryClient) (now : Z) : Row :=
  {| instance_id := c_instance_id c; service_name := c_service_name c; plane := c_plane c;
     environment := c_environment c; version := c_version c; endpoint := c_endpoint c; status := HEALTHY;
     registered_at := now; last_heartbeat := now |}.

Definition with_db {A} (up : bool) (m : st (list Row) registry_exc A) : st (list Row) registry_exc A :=
  if up then m else raise Unreachable.
(** The checks of the row come before the conflict. *)
Definition register (up : bool) (now : Z) (c : ServiceRegistryClient) : st (list Row) registry_exc unit :=
  with_db up (fun t =>
    match checks_ok (new_row c now) with
    | Err e => (Err e, t)
    | Ok _ =>
        if existsb (is_instance (c_instance_id c)) t then (Ok tt, tbl_update (is_instance (c_instance_id c)) (beaten now) t)
        else (Ok tt, (t ++ [new_row c now])%list)
    end).
Definition heartbeat (up : bool) (now : Z) (c : ServiceRegistryClient) : st (list Row) registry_exc unit :=
  with_db up (fun t => (Ok tt, tbl_update (is_instance (c_instance_id c)) (beaten now) t)).
Definition deregister (up : bool) (c : ServiceRegistryClient) : st (list Row) registry_exc unit :=
  with_db up (fun t => (Ok tt, tbl_update (is_instance (c_instance_id c)) (with_status SHUTDOWN) t)).

(** [health.reap_stale_instances()] *)
Definition stale (now : Z) (r : Row) : bool :=
  (last_heartbeat r <? now - 60000000)%Z && negb (bool_decide (status r = SHUTDOWN)).
Definition reap_stale_instances (now : Z) (t : list Row) : list Row := tbl_delete (stale now) t.

(** ** The clients' tasks *)

(** [_heartbeat_task]: the loop that beats after every interval, or the task
    after its end. *)
Inductive Task := NoTask | Looping | Finished.
#[export] Instance Task_eq_dec : EqDecision Task.
Proof. solve_decision. Defined.

Record World := { registry : list Row; clock : Z; heartbeat_task : nat -> Task }.
Definition with_registry (t : list Row) (w : World) : World :=
  {| registry := t; clock := clock w; heartbeat_task := heartbeat_task w |}.
Definition with_task (c : nat) (k : Task) (w : World) : World :=
  {| registry := registry w; clock := clock w;
     heartbeat_task := fun x => if decide (x = c) then k else heartbeat_task w x |}.

(** What happens next: a call on a client, a round of its loop, time that
    passes, a run of the reaper. *)
Inductive Action :=
| Register (c : nat) (up : bool)
| Heartbeat (c : nat) (up : bool)
| Deregister (c : nat) (up : bool)
| StartHeartbeat (c : nat)
| Beat (c : nat) (up : bool)
| Stop (c : nat) (up : bool)
| Elapse (d : N)
| Reap.

Section Clients.
Context (client : nat -> ServiceRegistryClient).

Definition on_registry (m : st (list Row) registry_exc unit) : st World registry_exc unit := fun w =>
  let '(x, t) := m (registry w) in (x, with_registry t w).

(** A round of [_heartbeat_loop], which swallows every exception. *)
Definition loop_round (up : bool) (c : nat) : st World registry_exc unit := fun w =>
  if decide (heartbeat_task w c = Looping)
  then (Ok tt, (on_registry (heartbeat up (clock w) (client c)) w).2)
  else (Ok tt, w).
Definition start_heartbeat (c : nat) : st World registry_exc unit := fun w =>
  (Ok tt, if decide (heartbeat_task w c = NoTask) then with_task c Looping w else w).
(** The task is cancelled and awaited before the row is marked. *)
Definition stop (up : bool) (c : nat) : st World registry_exc unit := fun w =>
  on_registry (deregister up (client c)) (if decide (heartbeat_task w c = NoTask) then w else with_task c Finished w).

Definition step (a : Action) : st World registry_exc unit := fun w =>
  match a with
  | Register c up => on_registry (register up (clock w) (client c)) w
  | Heartbeat c up => on_registry (heartbeat up (clock w) (client c)) w
  | Deregister c up => on_registry (deregister up (client c)) w
  | StartHeartbeat c => start_heartbeat c w
  | Beat c up => loop_round up c w
  | Stop c up => stop up c w
  | Elapse d => (Ok tt, {| registry := registry w; clock := (clock w + Z.of_N d)%Z; heartbeat_task := heartbeat_task w |})
  | Reap => (Ok tt, with_registry (reap_stale_instances (clock w) (registry w)) w)
  end.
(** A run of actions; what a call raises goes to its caller. *)
Definition run_actions (l : list Action) (w : World) : World := foldl (fun w a => (step a w).2) w l.

(** ** The rows *)

Definition row_ok (now : Z) (r : Row) : Prop :=
  checks_ok r = Ok tt /\ (registered_at r <= last_heartbeat r <= now)%Z.
Definition registry_ok (w : World) : Prop :=
  NoDup (instance_id <$> registry w) /\ Forall (row_ok (clock w)) (registry w).

(** Every statement of a client is an update of the rows of its instance, or
    the insertion of one. *)
Lemma update_ids p (f : Row -> Row) t : (forall r, instance_id (f r) = instance_id r) ->
  instance_id <$> tbl_update p f t = instance_id <$> t.
Proof.
  intros Hf. unfold tbl_update. rewrite <- list_fmap_compose. apply list_fmap_ext. intros i r _. cbn.
  destruct (p r); [apply Hf|done].
Qed.
Lemma update_rows p (f : Row -> Row) (P : Row -> Prop) t : (forall r, P r -> P (f r)) -> Forall P t -> Forall P (tbl_update p f t).
Proof.
  intros Hf Ht. apply Forall_fmap. eapply list.Forall_impl; [exact Ht|]. intros r Hr. cbn. destruct (p r); auto.
Qed.

Lemma row_ok_beaten now r : row_ok now r -> row_ok now (beaten now r).
Proof. intros [Hc Ht]. split; [done|]. cbn. lia. Qed.
Lemma row_ok_status now s r : row_ok now r -> row_ok now (with_status s r).
Proof. done. Qed.

Lemma heartbeat_ok up now c t : NoDup (instance_id <$> t) -> Forall (row_ok now) t ->
  NoDup (instance_id <$> (heartbeat up now c t).2) /\ Forall (row_ok now) (heartbeat up now c t).2.
Proof.
  intros Hn Hf. destruct up; [|done]. cbn. rewrite update_ids by done. split; [done|].
  apply update_rows; [apply row_ok_beaten|done].
Qed.
Lemma deregister_ok up now c t : NoDup (instance_id <$> t) -> Forall (row_ok now) t ->
  NoDup (instance_id <$> (deregister up c t).2) /\ Forall (row_ok now) (deregister up c t).2.
Proof.
  intros Hn Hf. destruct up; [|done]. cbn. rewrite update_ids by done. split; [done|].
  apply update_rows; [intros r; apply row_ok_status|done].
Qed.
Lemma register_ok up now c t : NoDup (instance_id <$> t) -> Forall (row_ok now) t ->
  NoDup (instance_id <$> (register up now c t).2) /\ Forall (row_ok now) (register up now c t).2.
Proof.
  intros Hn Hf. destruct up; [|done]. unfold register, with_db.
  destruct (checks_ok (new_row c now)) as [[]|e] eqn:Hc; [|done].
  destruct (existsb _ t) eqn:Hi; cbn [snd].
  - rewrite update_ids by done. split; [done|]. apply update_rows; [apply row_ok_beaten|done].
  - split.
    + apply NoDup_fmap_snoc; [done|]. intros Hin. apply list_elem_of_fmap in Hin as (r & Hr & Hin).
      assert (Hx : existsb (is_instance (c_instance_id c)) t = true).
      { apply existsb_elem. exists r. split; [done|]. by apply bool_decide_eq_true. }
      by rewrite Hi in Hx.
    + apply Forall_app. split; [done|]. repeat constructor; [done|cbn; lia..].
Qed.

Lemma step_ok a w : registry_ok w -> registry_ok (step a w).2.
Proof.
  intros [Hn Hf]. unfold registry_ok. destruct a as [c up|c up|c up|c|c up|c up|d|]; cbn [step].
  - unfold on_registry. pose proof (register_ok up (clock w) (client c) _ Hn Hf). by destruct (register _ _ _ _).
  - unfold on_registry. pose proof (heartbeat_ok up (clock w) (client c) _ Hn Hf). by destruct (heartbeat _ _ _ _).
  - unfold on_registry. pose proof (deregister_ok up (clock w) (client c) _ Hn Hf). by destruct (deregister _ _ _).
  - unfold start_heartbeat. cbn [snd]. by destruct decide.
  - unfold loop_round. destruct decide; [|done]. unfold on_registry.
    pose proof (heartbeat_ok up (clock w) (client c) _ Hn Hf). by destruct (heartbeat _ _ _ _).
  - unfold stop, on_registry. pose proof (deregister_ok up (clock w) (client c) _ Hn Hf) as H.
    destruct decide; cbn [registry with_task]; by destruct (deregister _ _ _).
  - cbn. split; [done|]. eapply list.Forall_impl; [exact Hf|]. intros r [Hc Ht]. split; [done|lia].
  - cbn. unfold reap_stale_instances, tbl_delete. split; [by apply NoDup_fmap_filter|].
    apply list.Forall_forall. intros r Hr. apply list_elem_of_filter in Hr as [_ Hr]. by eapply list.Forall_forall in Hf.
Qed.
Lemma registry_run_ok l : forall w, registry_ok w -> registry_ok (run_actions l w).
Proof. induction l as [|a l IH]; intros w Hw; [done|]. cbn. by apply IH, step_ok. Qed.

(** ** After a stop *)

Section Stopped.
Context (c : nat).
Definition mine (t : list Row) : list Row := tbl_select (is_instance (c_instance_id (client c))) t.

(** An action that is no other call on the instance. *)
Definition leaves_instance (a : Action) : Prop :=
  match a with
  | Register x _ | Heartbeat x _ | Deregister x _ => c_instance_id (client x) <> c_instance_id (client c)
  | Beat x _ | Stop x _ => x = c \/ c_instance_id (client x) <> c_instance_id (client c)
  | StartHeartbeat _ | Elapse _ | Reap => True
  end.
(** The client's loop is over, and its rows say so. *)
Definition down (w : World) : Prop :=
  heartbeat_task w c = Finished /\ Forall (fun r => status r = SHUTDOWN) (mine (registry w)).

Lemma mine_update_other i f t : i <> c_instance_id (client c) -> (forall r, instance_id (f r) = instance_id r) ->
  mine (tbl_update (is_instance i) f t) = mine t.
Proof.
  intros Hi Hf. induction t as [|r t IH]; [done|]. unfold mine, tbl_update, tbl_select in *. cbn [fmap list_fmap].
  rewrite !filter_cons, IH. destruct (is_instance i r) eqn:Hr; [|done].
  apply bool_decide_eq_true in Hr.
  assert (H1 : is_instance (c_instance_id (client c)) r = false) by (apply bool_decide_eq_false; congruence).
  assert (H2 : is_instance (c_instance_id (client c)) (f r) = false) by (apply bool_decide_eq_false; rewrite Hf; congruence).
  by rewrite H1, H2.
Qed.
Lemma mine_marked t :
  mine (tbl_update (is_instance (c_instance_id (client c))) (with_status SHUTDOWN) t) = with_status SHUTDOWN <$> mine t.
Proof.
  induction t as [|r t IH]; [done|]. unfold mine, tbl_update, tbl_select in *. cbn [fmap list_fmap].
  rewrite !filter_cons. destruct (is_instance _ r) eqn:Hr; [|by rewrite Hr].
  assert (Hs : is_instance (c_instance_id (client c)) (with_status SHUTDOWN r) = true) by exact Hr.
  rewrite Hs. cbn. by rewrite IH.
Qed.
Lemma mine_status t : Forall (fun r => status r = SHUTDOWN) (mine t) ->
  mine (tbl_update (is_instance (c_instance_id (client c))) (with_status SHUTDOWN) t) = mine t.
Proof.
  rewrite mine_marked. induction 1 as [|r l Hr _ IH]; [done|]. cbn. rewrite IH. f_equal. destruct r. cbn in *. by subst.
Qed.
Lemma mine_shutdown t : Forall (fun r => status r = SHUTDOWN)
  (mine (tbl_update (is_instance (c_instance_id (client c))) (with_status SHUTDOWN) t)).
Proof. rewrite mine_marked. apply list.Forall_fmap, list.Forall_true. done. Qed.
Lemma mine_reap now t : Forall (fun r => status r = SHUTDOWN) (mine t) -> mine (reap_stale_instances now t) = mine t.
Proof.
  unfold mine, reap_stale_instances, tbl_delete, tbl_select. intros Ht. rewrite list_filter_filter.
  apply filter_ext_elem. intros r Hr. split; [tauto|]. intros Hi. split; [done|].
  assert (Hs : status r = SHUTDOWN) by (eapply list.Forall_forall in Ht; [exact Ht|by apply list_elem_of_filter]).
  unfold stale. rewrite Hs. apply andb_false_r.
Qed.

Lemma mine_heartbeat_other up now x t : c_instance_id (client x) <> c_instance_id (client c) ->
  mine (heartbeat up now (client x) t).2 = mine t.
Proof. intros Hx. destruct up; [|done]. by apply mine_update_other. Qed.
Lemma mine_deregister_other up x t : c_instance_id (client x) <> c_instance_id (client c) ->
  mine (deregister up (client x) t).2 = mine t.
Proof. intros Hx. destruct up; [|done]. by apply mine_update_other. Qed.
Lemma mine_register_other up now x t : c_instance_id (client x) <> c_instance_id (client c) ->
  mine (register up now (client x) t).2 = mine t.
Proof.
  intros Hx. destruct up; [|done]. unfold register, with_db. destruct (checks_ok _); [|done].
  destruct (existsb _ t); cbn [snd]; [by apply mine_update_other|].
  unfold mine. rewrite tbl_select_app. unfold tbl_select at 2. rewrite filter_none; [apply app_nil_r|].
  repeat constructor. unfold is_instance. rewrite bool_decide_eq_true. done.
Qed.

Lemma on_registry_2 m w : (on_registry m w).2 = with_registry (m (registry w)).2 w.
Proof. unfold on_registry. by destruct (m (registry w)). Qed.

(** No such action touches the rows of the instance. *)
Lemma step_down a w : leaves_instance a -> down w -> down (step a w).2 /\ mine (registry (step a w).2) = mine (registry w).
Proof.
  intros Ha [Ht Hd]. assert (Hkeep : forall w', heartbeat_task w' c = Finished -> mine (registry w') = mine (registry w) ->
    down w' /\ mine (registry w') = mine (registry w)) by (intros w' H1 H2; unfold down; by rewrite H2).
  destruct a as [x up|x up|x up|x|x up|x up|d|]; cbn [step leaves_instance] in *.
  - rewrite on_registry_2. by apply Hkeep; [|apply mine_register_other].
  - rewrite on_registry_2. by apply Hkeep; [|apply mine_heartbeat_other].
  - rewrite on_registry_2. by apply Hkeep; [|apply mine_deregister_other].
  - unfold start_heartbeat. cbn [snd]. case_decide as Hx; [|by apply Hkeep]. apply Hkeep; [|done]. cbn.
    rewrite decide_False; [done|]. intros <-. congruence.
  - unfold loop_round. case_decide as Hx; [|by apply Hkeep]. cbn [snd]. rewrite on_registry_2.
    apply Hkeep; [done|]. destruct Ha as [->|Ha]; [congruence|]. by apply mine_heartbeat_other.
  - unfold stop. rewrite on_registry_2. apply Hkeep.
    + case_decide; [done|]. cbn. by case_decide.
    + assert (Hr : registry (if decide (heartbeat_task w x = NoTask) then w else with_task x Finished w) = registry w)
        by by case_decide.
      cbn [registry with_registry]. rewrite Hr. destruct Ha as [->|Ha]; [|by apply mine_deregister_other].
      destruct up; [|done]. by apply mine_status.
  - by apply Hkeep.
  - apply Hkeep; [done|]. by apply mine_reap.
Qed.
Lemma run_down l : forall w, Forall leaves_instance l -> down w ->
  down (run_actions l w) /\ mine (registry (run_actions l w)) = mine (registry w).
Proof.
  induction l as [|a l IH]; intros w Hl Hw; [done|]. apply list.Forall_cons in Hl as [Ha Hl].
  destruct (step_down a w Ha Hw) as [Hd Hm]. cbn. destruct (IH _ Hl Hd) as [Hd' Hm']. split; [done|].
  by rewrite <- Hm.
Qed.
End Stopped.
End Clients.

Definition empty_world : World := {| registry := []; clock := 0; heartbeat_task := fun _ => NoTask |}.

(** C19: whatever clients do, instances are unique in the registry, rows keep
    the schema's checks and no beat is before the registration or after the
    present; and once a client whose loop was started has stopped, its row
    stays, unchanged and shut down, under all later actions but calls that
    register or beat for the same instance: neither its own loop nor the reaper
    touches it. *)
Theorem stopped_stays_down client before c w1 after :
  let w := run_actions client before empty_world in
  heartbeat_task w c <> NoTask ->
  step client (Stop c true) w = (Ok tt, w1) ->
  Forall (leaves_instance client c) after ->
  let w' := run_actions client after w1 in
  registry_ok w' /\
  mine client c (registry w') = with_status SHUTDOWN <$> mine client c (registry w).
Proof.
  intros w Ht Hs Hl w'.
  assert (Hw : registry_ok w) by (apply registry_run_ok; split; constructor).
  assert (Hd : down client c w1 /\ mine client c (registry w1) = with_status SHUTDOWN <$> mine client c (registry w)).
  { cbn [step] in Hs. unfold stop, on_registry in Hs. rewrite decide_False in Hs by done. injection Hs as <-.
    split; [split; [by cbn; rewrite decide_True|apply mine_shutdown]|apply mine_marked]. }
  destruct Hd as [Hd Hm]. destruct (run_down client c after w1 Hl Hd) as [_ Hm']. split.
  - apply registry_run_ok. change w1 with (Ok tt : result registry_exc unit, w1).2. rewrite <- Hs. by apply step_ok.
  - unfold w'. by rewrite Hm'.
Qed.

Definition sample_client (c : nat) : ServiceRegistryClient :=
  new_client "svc" "CONTROL" "local" "1.0" "http://svc" (Some (if decide (c = 0) then "i-0" else "i-1")) "" "".
Definition minutes (n : N) : N := (n * 60000000)%N.

Lemma stopped_stays_down_witness :
  let before := [Register 0 true; StartHeartbeat 0; Elapse (minutes 1); Beat 0 true] in
  let after := [StartHeartbeat 0; Beat 0 true; Register 1 true; Elapse (minutes 5); Reap] in
  let w := run_actions sample_client before empty_world in
  let w1 := (step sample_client (Stop 0 true) w).2 in
  let w' := run_actions sample_client after w1 in
  registry_ok w' /\
  mine sample_client 0 (registry w') = with_status SHUTDOWN <$> mine sample_client 0 (registry w).
Proof.
  intros before after w w1 w'.
  apply (stopped_stays_down sample_client before 0 w1 after); [by vm_compute|reflexivity|].
  repeat constructor; by vm_compute.
Defined.

(** A client that registers again after a stop has no loop any more: it is
    reaped while it runs. *)
Lemma restarted_client_is_reaped :
  registry (run_actions sample_client
    [Register 0 true; StartHeartbeat 0; Stop 0 true; Register 0 true; StartHeartbeat 0; Elapse (minutes 2); Beat 0 true; Reap]
    empty_world) = [].
Proof. by vm_compute. Qed.
(** The beats of an instance that was reaped, after a pause of the database,
    update nothing and raise nothing. *)
Lemma reaped_instance_beats_in_vain :
  let w := run_actions sample_client [Register 0 true; StartHeartbeat 0; Elapse (minutes 2); Beat 0 false; Reap; Beat 0 true] empty_world in
  registry w = [] /\ (step sample_client (Heartbeat 0 true) w).1 = Ok tt.
Proof. by vm_compute. Qed.
