(* ===== verification/ServiceFramework.v ===== *)
(** The service framework: [service_contract.py], [registration.py],
    [metrics.py], [settings.py] and [fastapi_app.py] of
    apexquant-service-framework.

    The registration server is the sequence of what requests to it end in;
    tenacity's retrying stops after a number of attempts and raises the last
    error.  Texts are ASCII. *)
From stdpp Require Import base strings list numbers gmap pretty.
From Stdlib Require Import Ascii Sorted.
From S2P Require Import Prelude PyStr Json.

#[local] Open Scope string_scope.

(** ** service_contract.py *)

Inductive ServicePlane := CONTROL | MARKET_DATA | TRADING | RISK | AI | DATA_RESEARCH | OBSERVABILITY.
Inductive FailClosedPolicy := READ_ONLY | CANCEL_OPEN_ORDERS | HALT_TRADING | SHUTDOWN.
#[export] Instance ServicePlane_eq_dec : EqDecision ServicePlane.
Proof. solve_decision. Defined.
#[export] Instance FailClosedPolicy_eq_dec : EqDecision FailClosedPolicy.
Proof. solve_decision. Defined.
Definition plane_value (p : ServicePlane) : string :=
  match p with
  | CONTROL => "CONTROL" | MARKET_DATA => "MARKET_DATA" | TRADING => "TRADING" | RISK => "RISK" | AI => "AI"
  | DATA_RESEARCH => "DATA_RESEARCH" | OBSERVABILITY => "OBSERVABILITY"
  end.
Definition policy_value (p : FailClosedPolicy) : string :=
  match p with
  | READ_ONLY => "READ_ONLY" | CANCEL_OPEN_ORDERS => "CANCEL_OPEN_ORDERS" | HALT_TRADING => "HALT_TRADING" | SHUTDOWN => "SHUTDOWN"
  end.

Record ServiceEndpoint := { e_name : string; protocol : string; uri : string; port : Z }.
Definition endpoint_ok (e : ServiceEndpoint) : bool := (0 <=? port e)%Z && (port e <=? 65535)%Z.

Definition EXECUTION_PRIVILEGES : list string :=
  ["BROKER_WRITE"; "EXECUTION_WRITE"; "ORDER_SUBMIT"; "ORDER_MODIFY"; "ORDER_CANCEL"].
Definition AI_FORBIDDEN_PRIVILEGES : list string :=
  (EXECUTION_PRIVILEGES ++ ["RISK_OVERRIDE"; "KILL_SWITCH"; "TRADING_WRITE"])%list.

Record ServiceDescriptor := {
  service_id : option string; service_name : string; version : string; environment : string; plane : ServicePlane;
  fail_closed_policy : FailClosedPolicy; description : string; capabilities : list string; permissions : list string;
  endpoints : list ServiceEndpoint; dependencies : list string
}.

(** [sorted({item.strip().upper() for item in items if item.strip()})] *)
Definition clean_item (s : string) : string := str_upper (strip s).
Definition normalized (items : list string) : list string :=
  py_sorted str_lt (remove_dups (map clean_item (filter (fun s => str_empty (strip s) = false) items))).
Definition has_space (s : string) : bool := negb (str_forall (fun c => negb (is_space c)) s).

(** The first objection to a permission. *)
Definition check_permission (p : ServicePlane) (permission : string) : option string :=
  if bool_decide (p ∈ [AI; DATA_RESEARCH]) && bool_decide (permission ∈ AI_FORBIDDEN_PRIVILEGES)
  then Some ("AI/research plane may not hold privileged permission " ++ permission)
  else if bool_decide (permission ∈ EXECUTION_PRIVILEGES) && negb (bool_decide (p = RISK))
  then Some ("only RISK plane may hold execution permission " ++ permission)
  else if bool_decide (permission = "RISK_OVERRIDE") && negb (bool_decide (p = RISK))
  then Some "RISK_OVERRIDE is restricted to RISK plane"
  else if bool_decide (permission = "KILL_SWITCH") && negb (bool_decide (p ∈ [RISK; CONTROL]))
  then Some "KILL_SWITCH is restricted to RISK or CONTROL plane"
  else None.
Fixpoint check_permissions (p : ServicePlane) (l : list string) : option string :=
  match l with
  | [] => None
  | x :: l' => match check_permission p x with Some e => Some e | None => check_permissions p l' end
  end.
Definition resolved_service_id (environment name version : string) : string := environment ++ ":" ++ name ++ ":" ++ version.

Definition enforce_governance (d : ServiceDescriptor) : result string ServiceDescriptor :=
  let name := strip (service_name d) in
  let ver := strip (version d) in
  let env := strip (environment d) in
  if str_empty name then Err "service_name must not be empty"
  else if str_empty ver then Err "version must not be empty"
  else if str_empty env then Err "environment must not be empty"
  else if has_space name || has_space ver || has_space env then Err "service identity fields must not contain whitespace"
  else
    let perms := normalized (permissions d) in
    match check_permissions (plane d) perms with
    | Some e => Err e
    | None =>
        let id := resolved_service_id env name ver in
        match service_id d with
        | Some given => if bool_decide (given = id) then Ok tt else Err ("service_id must be deterministic and equal to " ++ id)
        | None => Ok tt
        end ≫= fun _ =>
        Ok {| service_id := Some id; service_name := name; version := ver; environment := env; plane := plane d;
              fail_closed_policy := fail_closed_policy d; description := strip (description d);
              capabilities := normalized (capabilities d); permissions := perms; endpoints := endpoints d;
              dependencies := normalized (dependencies d) |}
    end.
(** The construction of the model: the fields before the validator. *)
Definition new_descriptor (d : ServiceDescriptor) : result string ServiceDescriptor :=
  if forallb endpoint_ok (endpoints d) then enforce_governance d else Err "port".

Definition opt_text (o : option string) : json := match o with Some s => JStr s | None => JNull end.
Definition endpoint_json (e : ServiceEndpoint) : json :=
  JDict [("name", JStr (e_name e)); ("protocol", JStr (protocol e)); ("uri", JStr (uri e)); ("port", JNum (port e))].
Definition texts (l : list string) : json := JList (map JStr l).
Definition to_registration_payload (d : ServiceDescriptor) : json :=
  JDict [("service_id", opt_text (service_id d)); ("service_name", JStr (service_name d)); ("version", JStr (version d));
         ("environment", JStr (environment d)); ("plane", JStr (plane_value (plane d)));
         ("fail_closed_policy", JStr (policy_value (fail_closed_policy d))); ("description", JStr (description d));
         ("capabilities", texts (capabilities d)); ("permissions", texts (permissions d));
         ("endpoints", JList (map endpoint_json (endpoints d))); ("dependencies", texts (dependencies d))].

(** ** settings.py *)

Definition validate_token (value : string) : result string string :=
  let normalized := strip value in
  if str_empty normalized then Err "value must not be empty"
  else if has_space normalized then Err "value must not contain whitespace"
  else Ok normalized.

(** ** registration.py *)

(** What a request ends in: [httpx.HTTPError], statuses from 400 on included, or
    another exception, as that of an answer that is no JSON object. *)
Inductive request_exc := HTTPError (m : string) | OtherError (m : string).
Definition exc_text (e : request_exc) : string := match e with HTTPError m | OtherError m => m end.
Inductive RegistrationState := STARTING | READY | DEGRADED | STOPPING | FAILED.
Definition state_value (s : RegistrationState) : string :=
  match s with STARTING => "STARTING" | READY => "READY" | DEGRADED => "DEGRADED" | STOPPING => "STOPPING" | FAILED => "FAILED" end.

(** The server: the answers to come, and the requests it got. *)
Record Request := { r_url : string; r_payload : json }.
Record Server := { answers : list (result request_exc json); received : list Request }.
(** The client has no answer left: the server is gone. *)
Definition next_answer (s : Server) : result request_exc json :=
  match answers s with a :: _ => a | [] => Err (HTTPError "All connection attempts failed") end.
Definition send (url : string) (payload : json) : st Server request_exc json := fun s =>
  (next_answer s, {| answers := tail (answers s); received := (received s ++ [{| r_url := url; r_payload := payload |}])%list |}).
(** At most [retries] more attempts after a first. *)
Fixpoint attempts (retries : nat) (url : string) (payload : json) : st Server request_exc json := fun s =>
  match send url payload s with
  | (Ok a, s') => (Ok a, s')
  | (Err (OtherError m), s') => (Err (OtherError m), s')
  | (Err (HTTPError m), s') => match retries with O => (Err (HTTPError m), s') | S n => attempts n url payload s' end
  end.
Record RegistrationClient := { base_url : string; max_attempts : nat }.
Definition new_client (url : string) : RegistrationClient := {| base_url := rstrip_char "/" url; max_attempts := 3 |}.
Definition request (c : RegistrationClient) (path : string) (payload : json) : st Server request_exc json :=
  attempts (max_attempts c - 1) (base_url c ++ path) payload.
Definition register (c : RegistrationClient) (d : ServiceDescriptor) : st Server request_exc json :=
  request c "/v1/services/register" (to_registration_payload d).
Definition heartbeat (c : RegistrationClient) (service_id : string) (state : RegistrationState) (detail : string)
    : st Server request_exc json :=
  request c "/v1/services/heartbeat"
    (JDict [("service_id", JStr service_id); ("state", JStr (state_value state)); ("detail", JStr detail)]).

(** ** metrics.py and fastapi_app.py *)

Record Settings := {
  s_service_name : string; s_environment : string; s_plane : ServicePlane; registration_url : option string;
  registration_required : bool
}.
Definition truthy (o : option string) : option string :=
  match o with Some s => if str_empty s then None else o | None => None end.
(** The task of the heartbeats. *)
Inductive Task := NoTask | Looping | Cancelled.
#[export] Instance Task_eq_dec : EqDecision Task.
Proof. solve_decision. Defined.

(** [RuntimeState] with what the closures of the application share. *)
Record Runtime := {
  registered : bool; ready : bool; registration_error : option string; heartbeat_task : Task; client_open : bool;
  requests_total : pydict (string * string * string) nat; ready_gauge : nat; server : Server
}.
Definition new_runtime (s : Server) : Runtime :=
  {| registered := false; ready := true; registration_error := None; heartbeat_task := NoTask; client_open := false;
     requests_total := []; ready_gauge := 0; server := s |}.

Section App.
Context (settings : Settings) (descriptor : ServiceDescriptor).

Definition with_outcome (reg rdy : bool) (err : option string) (task : Task) (open : bool) (s : Server) (r : Runtime) : Runtime :=
  {| registered := reg; ready := rdy; registration_error := err; heartbeat_task := task; client_open := open;
     requests_total := requests_total r; ready_gauge := ready_gauge r; server := s |}.

(** [lifespan] up to the [yield] *)
Definition startup : st Runtime request_exc unit := fun r =>
  match truthy (registration_url settings) with
  | None => (Ok tt, r)
  | Some url =>
      match register (new_client url) descriptor (server r) with
      | (Ok _, s) => (Ok tt, with_outcome true true (registration_error r) Looping true s r)
      | (Err e, s) =>
          let failed open := with_outcome (registered r) false (Some (exc_text e)) (heartbeat_task r) open s r in
          if registration_required settings then (Err e, failed false) else (Ok tt, failed true)
      end
  end.
(** and after it *)
Definition shutdown (r : Runtime) : Runtime :=
  with_outcome (registered r) (ready r) (registration_error r)
    (if decide (heartbeat_task r = Looping) then Cancelled else heartbeat_task r) false (server r) r.

(** A round of [_heartbeat_loop], while the task runs. *)
Definition heartbeat_round (r : Runtime) : Runtime :=
  match heartbeat_task r, truthy (registration_url settings) with
  | Looping, Some url =>
      let '(x, s) := heartbeat (new_client url) (default "" (service_id descriptor)) READY "python service heartbeat" (server r) in
      with_outcome (registered r) (is_ok x) (registration_error r) (heartbeat_task r) (client_open r) s r
  | _, _ => r
  end.

Definition is_ready (r : Runtime) : bool :=
  if registration_required settings && bool_decide (is_Some (truthy (registration_url settings)))
  then ready r && registered r else ready r.
(** [readyz]: the status and the error it shows, with the gauge *)
Definition readyz (r : Runtime) : (Z * option string) * Runtime :=
  let rdy := is_ready r in
  (if rdy then (200, None)%Z else (503, registration_error r)%Z,
   {| registered := registered r; ready := ready r; registration_error := registration_error r;
      heartbeat_task := heartbeat_task r; client_open := client_open r; requests_total := requests_total r;
      ready_gauge := if rdy then 1 else 0; server := server r |}).

(** [request_metrics_middleware]: a handler that raises is not counted. *)
Definition count_request (method path : string) (response : result string Z) (r : Runtime) : Runtime :=
  match response with
  | Err _ => r
  | Ok code =>
      let k := (method, path, pretty code) in
      {| registered := registered r; ready := ready r; registration_error := registration_error r;
         heartbeat_task := heartbeat_task r; client_open := client_open r;
         requests_total := dict_set k (S (default 0 (dict_get k (requests_total r))))%nat (requests_total r);
         ready_gauge := ready_gauge r; server := server r |}
  end.

(** What happens to a service that runs. *)
Inductive Event := Round | Probe | Served (method path : string) (response : result string Z).
Definition handle (e : Event) (r : Runtime) : Runtime :=
  match e with Round => heartbeat_round r | Probe => (readyz r).2 | Served m p x => count_request m p x r end.
Definition run_events (l : list Event) (r : Runtime) : Runtime := foldl (fun r e => handle e r) r l.
End App.

(** ** What a descriptor may hold *)

Lemma clean_item_idem s : clean_item (clean_item s) = clean_item s.
Proof.
  unfold clean_item. unfold str_upper at 2. rewrite strip_map, strip_strip by apply upper_space.
  apply upper_upper.
Qed.
Lemma clean_item_empty s : str_empty (strip (clean_item s)) = str_empty (strip s).
Proof.
  unfold clean_item, str_upper. rewrite strip_map, strip_strip by apply upper_space. by destruct (strip s).
Qed.
Lemma normalized_elem x l : x ∈ normalized l <-> exists s, s ∈ l /\ strip s <> "" /\ x = clean_item s.
Proof.
  unfold normalized. rewrite elem_of_py_sorted, elem_of_remove_dups, list_elem_of_In, in_map_iff.
  setoid_rewrite <- list_elem_of_In. setoid_rewrite list_elem_of_filter. split.
  - intros (s & <- & Hs & Hin). exists s. split_and!; [done| |done]. by destruct (strip s).
  - intros (s & Hin & Hs & ->). exists s. split_and!; [done| |done]. by destruct (strip s).
Qed.
Lemma normalized_sorted l : StronglySorted (sort_le str_lt) (normalized l) /\ NoDup (normalized l).
Proof.
  split.
  - apply py_sorted_sorted; [intros x y; apply str_lt_asym|intros x y z; apply str_le_trans].
  - unfold normalized. rewrite py_sorted_perm. apply NoDup_remove_dups.
Qed.
Lemma remove_dups_id (l : list string) : NoDup l -> remove_dups l = l.
Proof. induction 1 as [|x l Hx Hl IH]; [done|]. cbn. case_decide; [done|]. by rewrite IH. Qed.
(** A list that was normalized stays as it is. *)
Lemma normalized_idem l : normalized (normalized l) = normalized l.
Proof.
  destruct (normalized_sorted l) as [Hs Hn]. unfold normalized at 1. rewrite filter_all.
  - assert (Hm : map clean_item (normalized l) = normalized l).
    { rewrite <- (map_id (normalized l)) at 2. apply map_ext_in. intros x Hx. apply list_elem_of_In, normalized_elem in Hx as (s & _ & _ & ->).
      apply clean_item_idem. }
    rewrite Hm, remove_dups_id by done. by apply py_sorted_id.
  - apply list.Forall_forall. intros x (s & _ & Hs' & ->)%normalized_elem. rewrite clean_item_empty. by destruct (strip s).
Qed.

(** What the governance lets a plane hold. *)
Definition allowed (p : ServicePlane) (x : string) : Prop :=
  (x ∈ AI_FORBIDDEN_PRIVILEGES -> p <> AI /\ p <> DATA_RESEARCH) /\ (x ∈ EXECUTION_PRIVILEGES -> p = RISK) /\
  (x = "RISK_OVERRIDE" -> p = RISK) /\ (x = "KILL_SWITCH" -> p = RISK \/ p = CONTROL).
Lemma check_permission_iff p x : check_permission p x = None <-> allowed p x.
Proof.
  unfold check_permission, allowed. destruct (bool_decide_reflect (x ∈ AI_FORBIDDEN_PRIVILEGES)) as [H1|H1],
    (bool_decide_reflect (x ∈ EXECUTION_PRIVILEGES)) as [H2|H2], (bool_decide_reflect (x = "RISK_OVERRIDE")) as [H3|H3],
    (bool_decide_reflect (x = "KILL_SWITCH")) as [H4|H4]; destruct p; cbn; split; intros H; try done;
    try (split_and!; intros; try done; by auto); destruct H as (Ha & Hb & Hc & Hd);
    try (by destruct (Ha H1)); try (by specialize (Hb H2)); try (by specialize (Hc H3)); by destruct (Hd H4).
Qed.
Lemma check_permissions_iff p l : check_permissions p l = None <-> forall x, x ∈ l -> allowed p x.
Proof.
  induction l as [|y l IH]; cbn [check_permissions].
  - split; [intros _ x Hx; by apply elem_of_nil in Hx|done].
  - setoid_rewrite elem_of_cons. destruct (check_permission p y) eqn:Hy.
    + split; [done|]. intros H. assert (check_permission p y = None); [|congruence]. apply check_permission_iff, H. by left.
    + rewrite IH. apply check_permission_iff in Hy. split; [|auto]. intros H x [->|Hx]; auto.
Qed.

(** An identity field: one word. *)
Definition word (s : string) : Prop := strip s <> "" /\ has_space (strip s) = false.
Lemma word_idem s : word s -> word (strip s).
Proof. unfold word. by rewrite strip_strip. Qed.

Lemma governance_ok d : (exists d', enforce_governance d = Ok d') <->
  word (service_name d) /\ word (version d) /\ word (environment d) /\
  (forall x, x ∈ normalized (permissions d) -> allowed (plane d) x) /\
  (forall i, service_id d = Some i -> i = resolved_service_id (strip (environment d)) (strip (service_name d)) (strip (version d))).
Proof.
  unfold enforce_governance, word. rewrite <- check_permissions_iff.
  assert (He : forall s, str_empty s = true <-> s = "") by by intros [].
  destruct (str_empty (strip (service_name d))) eqn:E1; [apply He in E1; split; [by intros [? ?]|by intros ([? _] & _)]|].
  destruct (str_empty (strip (version d))) eqn:E2; [apply He in E2; split; [by intros [? ?]|by intros (_ & [? _] & _)]|].
  destruct (str_empty (strip (environment d))) eqn:E3; [apply He in E3; split; [by intros [? ?]|by intros (_ & _ & [? _] & _)]|].
  rewrite <- not_true_iff_false, He in E1, E2, E3.
  destruct (has_space (strip (service_name d))) eqn:F1; [split; [by intros [? ?]|by intros ([_ ?] & _)]|].
  destruct (has_space (strip (version d))) eqn:F2; [split; [by intros [? ?]|by intros (_ & [_ ?] & _)]|].
  destruct (has_space (strip (environment d))) eqn:F3; [split; [by intros [? ?]|by intros (_ & _ & [_ ?] & _)]|].
  cbn [orb]. destruct (check_permissions _ _) eqn:Hp; [split; [by intros [? ?]|by intros (_ & _ & _ & ? & _)]|].
  destruct (service_id d) as [i|]; [|split; [done|by eexists]].
  destruct (bool_decide_reflect (i = resolved_service_id (strip (environment d)) (strip (service_name d)) (strip (version d)))) as [Hi|Hi].
  - split; [intros _; split_and!; try done; by intros ? [= <-]|by eexists].
  - split; [by intros [? ?]|]. intros (_ & _ & _ & _ & H). by specialize (H _ eq_refl).
Qed.
Lemma governance_result d d' : enforce_governance d = Ok d' ->
  service_id d' = Some (resolved_service_id (environment d') (service_name d') (version d')) /\
  service_name d' = strip (service_name d) /\ version d' = strip (version d) /\ environment d' = strip (environment d) /\
  plane d' = plane d /\ fail_closed_policy d' = fail_closed_policy d /\ description d' = strip (description d) /\
  capabilities d' = normalized (capabilities d) /\ permissions d' = normalized (permissions d) /\
  endpoints d' = endpoints d /\ dependencies d' = normalized (dependencies d).
Proof.
  unfold enforce_governance. do 4 (case_match; [done|]). case_match; [done|].
  destruct (service_id d) as [i|]; [destruct (bool_decide _); [|done]|]; by intros [= <-].
Qed.

(** C21: a descriptor is accepted exactly when its identity is of single words,
    its identifier is absent or the resolved one, and its plane may hold every
    permission as it will be kept: order privileges only on the RISK plane, none
    of the forbidden ones on AI and DATA_RESEARCH, overriding risk only on RISK,
    the kill switch only on RISK and CONTROL.  What was accepted is accepted
    again, unchanged. *)
Theorem descriptor_governed d :
  ((exists d', enforce_governance d = Ok d') <->
    word (service_name d) /\ word (version d) /\ word (environment d) /\
    (forall s, s ∈ permissions d -> strip s <> "" -> allowed (plane d) (clean_item s)) /\
    (forall i, service_id d = Some i -> i = resolved_service_id (strip (environment d)) (strip (service_name d)) (strip (version d)))) /\
  (forall d', enforce_governance d = Ok d' -> enforce_governance d' = Ok d' /\ forall x, x ∈ permissions d' -> allowed (plane d') x).
Proof.
  split.
  - rewrite governance_ok. setoid_rewrite normalized_elem. split; intros (H1 & H2 & H3 & H4 & H5); split_and!; try done.
    + intros s Hs Hne. apply H4. by exists s.
    + intros x (s & Hs & Hne & ->). by apply H4.
  - intros d' Hd. assert (Hok := proj1 (governance_ok d) (ex_intro _ d' Hd)). destruct Hok as (H1 & H2 & H3 & H4 & _).
    destruct (governance_result d d' Hd) as (Hid & Hn & Hv & He & Hp & Hf & Hde & Hc & Hpe & Hen & Hdp). split.
    + assert (Hok : exists d2, enforce_governance d' = Ok d2).
      { apply governance_ok. rewrite Hn, Hv, He, Hp, Hpe, normalized_idem, !strip_strip. split_and!; try (by apply word_idem); [done|].
        intros i. rewrite Hid, Hn, Hv, He. by intros [= <-]. }
      destruct Hok as [d2 Hd2]. rewrite Hd2. f_equal.
      destruct (governance_result d' d2 Hd2) as (Hid2 & Hn2 & Hv2 & He2 & Hp2 & Hf2 & Hde2 & Hc2 & Hpe2 & Hen2 & Hdp2).
      rewrite Hn, strip_strip in Hn2. rewrite Hv, strip_strip in Hv2. rewrite He, strip_strip in He2. rewrite Hde, strip_strip in Hde2.
      rewrite Hc, normalized_idem in Hc2. rewrite Hpe, normalized_idem in Hpe2. rewrite Hdp, normalized_idem in Hdp2.
      destruct d', d2. cbn in *. congruence.
    + intros x. rewrite Hp, Hpe. apply H4.
Qed.

(** Identities with colons share an identifier. *)
Lemma service_id_is_ambiguous : resolved_service_id "a:b" "c" "1" = resolved_service_id "a" "b:c" "1".
Proof. done. Qed.

(** ** Registration and readiness *)

Definition is_http_error (a : result request_exc json) : Prop := match a with Err (HTTPError _) => True | _ => False end.
(** The answers from the present on. *)
Definition answer_at (s : Server) (n : nat) : result request_exc json :=
  default (Err (HTTPError "All connection attempts failed")) (answers s !! n).

(** A request is sent again after an HTTP error only, up to the limit; its
    result is that of the last attempt. *)
Lemma attempts_spec retries url payload : forall s x s', attempts retries url payload s = (x, s') ->
  exists n, (n <= retries)%nat /\ x = answer_at s n /\ (forall m, (m < n)%nat -> is_http_error (answer_at s m)) /\
    (is_http_error x -> n = retries) /\ answers s' = drop (S n) (answers s) /\
    received s' = (received s ++ replicate (S n) {| r_url := url; r_payload := payload |})%list.
Proof.
  assert (Hnext : forall s, next_answer s = answer_at s 0) by (intros s; unfold next_answer, answer_at; by destruct (answers s)).
  assert (Hdrop : forall s, tail (answers s) = drop 1 (answers s)) by (intros s; by destruct (answers s)).
  induction retries as [|k IH]; intros s x s'; cbn [attempts]; unfold send at 1; rewrite Hnext;
    destruct (answer_at s 0) as [a|[m|m]] eqn:H0; try (intros [= <- <-]; exists 0%nat; cbn [answers received];
      split_and!; try done; try lia; by apply Hdrop).
  intros H. destruct (IH _ _ _ H) as (n & Hn & Hx & Hm & Hl & Ha & Hr).
  assert (Hat : forall i, answer_at {| answers := tail (answers s); received := (received s ++ [{| r_url := url; r_payload := payload |}])%list |} i = answer_at s (S i)).
  { intros i. unfold answer_at. cbn [answers]. by destruct (answers s). }
  exists (S n). rewrite Hat in Hx. cbn [answers received] in Ha, Hr. split_and!; [lia|done| |lia || (intros Hh; f_equal; by apply Hl)| |].
  - intros [|i] Hi; [by rewrite H0|]. rewrite <- Hat. apply Hm. lia.
  - rewrite Ha. by destruct (answers s).
  - rewrite Hr. by rewrite <- app_assoc.
Qed.

Section Readiness.
Context (settings : Settings) (descriptor : ServiceDescriptor).
Definition registers (url : string) (s : Server) : result request_exc json * Server := register (new_client url) descriptor s.
(** The outcome of the last of some rounds. *)
Fixpoint last_round (url : string) (n : nat) (before : bool) (s : Server) : bool :=
  match n with
  | O => before
  | S n' => let '(x, s') := heartbeat (new_client url) (default "" (service_id descriptor)) READY "python service heartbeat" s in
            last_round url n' (is_ok x) s'
  end.
Definition is_round (e : Event) : bool := match e with Round => true | _ => false end.
Definition rounds (l : list Event) : nat := length (filter (fun e => is_round e = true) l).

(** What the service shows after some events, from a state after start-up. *)
Lemma run_looping url l : truthy (registration_url settings) = Some url -> forall r, heartbeat_task r = Looping ->
  let r' := run_events settings descriptor l r in
  heartbeat_task r' = Looping /\ registered r' = registered r /\ ready r' = last_round url (rounds l) (ready r) (server r).
Proof.
  intros Hu. induction l as [|e l IH]; intros r Ht; [done|]. cbn [run_events foldl]. unfold rounds.
  change (foldl _ ?x l) with (run_events settings descriptor l x).
  destruct e as [| |m p x]; cbn [handle].
  - rewrite filter_cons_True by done. cbn [length last_round]. unfold heartbeat_round. rewrite Ht, Hu.
    destruct (heartbeat _ _ _ _ (server r)) as [x s] eqn:Hh.
    by apply (IH (with_outcome (registered r) (is_ok x) (registration_error r) Looping (client_open r) s r)).
  - rewrite filter_cons_False by done. by apply (IH (readyz settings r).2).
  - rewrite filter_cons_False by done. destruct x as [code|]; [|by apply IH]. by apply (IH (count_request m p (Ok code) r)).
Qed.
Lemma run_idle l : forall r, heartbeat_task r <> Looping ->
  let r' := run_events settings descriptor l r in registered r' = registered r /\ ready r' = ready r.
Proof.
  induction l as [|e l IH]; intros r Ht; [done|]. cbn [run_events foldl].
  change (foldl _ ?x l) with (run_events settings descriptor l x).
  destruct e as [| |m p x]; cbn [handle].
  - unfold heartbeat_round. destruct (heartbeat_task r) eqn:He; [by apply IH; rewrite He|done|by apply IH; rewrite He].
  - by apply (IH (readyz settings r).2).
  - destruct x as [code|]; [|by apply IH]. by apply (IH (count_request m p (Ok code) r)).
Qed.
End Readiness.

(** C22: start-up fails exactly if registration is required, has a URL and
    failed, and then the client is closed; otherwise, whatever is served, the
    service shows itself ready exactly if it has no URL, or its registration
    succeeded and so did the last round of heartbeats, if any.  A registration
    that failed though not required leaves the service unready for good. *)
Theorem readiness_follows_registration settings descriptor srv events :
  let '(x, r0) := startup settings descriptor (new_runtime srv) in
  let r := run_events settings descriptor events r0 in
  let status := (readyz settings r).1.1 in
  match truthy (registration_url settings) with
  | None => x = Ok tt /\ status = 200%Z
  | Some url =>
      match registers descriptor url srv with
      | (Ok _, s) => x = Ok tt /\ (status = 200%Z <-> last_round descriptor url (rounds events) true s = true)
      | (Err e, s) =>
          (if registration_required settings then x = Err e /\ client_open r0 = false else x = Ok tt) /\ status = 503%Z
      end
  end.
Proof.
  unfold startup, registers. cbn [server new_runtime]. destruct (truthy (registration_url settings)) as [url|] eqn:Hu.
  - destruct (register (new_client url) descriptor srv) as [[a|e] s] eqn:Hreg.
    + split; [done|]. set (r0 := with_outcome true true _ Looping true s _).
      destruct (run_looping settings descriptor url events Hu r0 eq_refl) as (_ & Hreg' & Hready).
      unfold readyz, is_ready. cbn [fst]. rewrite Hreg', Hready. cbn [ready registered server r0 with_outcome].
      rewrite Hu, andb_true_r. destruct (registration_required settings), (last_round descriptor url (rounds events) true s); by split.
    + assert (Hnot : forall r0, heartbeat_task r0 <> Looping -> ready r0 = false ->
        (readyz settings (run_events settings descriptor events r0)).1.1 = 503%Z).
      { intros r0 Ht Hr. destruct (run_idle settings descriptor events r0 Ht) as [_ Hrd].
        unfold readyz, is_ready. rewrite Hrd, Hr. by destruct (_ && _). }
      destruct (registration_required settings); (split; [done|]); by apply Hnot.
  - split; [done|]. destruct (run_idle settings descriptor events (new_runtime srv)) as [_ Hrd]; [done|].
    unfold readyz, is_ready. rewrite Hu, Hrd. by rewrite andb_false_r.
Qed.

Lemma optional_registration_blocks_readiness :
  let settings := {| s_service_name := "svc"; s_environment := "sandbox"; s_plane := AI; registration_url := Some "http://registry";
                     registration_required := false |} in
  let d := {| service_id := Some "sandbox:svc:1"; service_name := "svc"; version := "1"; environment := "sandbox"; plane := AI;
              fail_closed_policy := READ_ONLY; description := ""; capabilities := []; permissions := []; endpoints := [];
              dependencies := [] |} in
  let '(x, r) := startup settings d (new_runtime {| answers := [Err (OtherError "bad answer"); Ok JNull]; received := [] |}) in
  x = Ok tt /\ (readyz settings (run_events settings d [Round; Round] r)).1 = (503%Z, Some "bad answer").
Proof. by vm_compute. Qed.
