(* ===== verification/Metrics.v ===== *)
(** Metrics: [registry.py] and [middleware.py] of apexquant-metrics.

    The client library of Prometheus is given by [registers], which says
    whether it takes a metric beside those it has, and by the labels it accepts
    for a metric: exactly the declared ones, or it raises ValueError. *)
From stdpp Require Import base strings list numbers gmap pretty.
From Stdlib Require Import Ascii.
From S2P Require Import Prelude PyStr Regex.

#[local] Open Scope string_scope.

(** ** registry.py *)

(** [^apexquant_[a-z0-9_]+_[a-z0-9_]+(_[a-z]+)?$] *)
Definition name_char (c : ascii) : bool := is_lower c || is_digit c || is_char "_" c.
Definition METRIC_NAME_PATTERN : re :=
  Cat (Text "apexquant_") (Cat (Plus (Chr name_char)) (Cat (Text "_") (Cat (Plus (Chr name_char))
    (Alt Eps (Cat (Text "_") (Plus (Chr is_lower))))))).
Definition FORBIDDEN_HIGH_CARDINALITY_LABELS : list string :=
  ["user_id"; "request_id"; "trace_id"; "correlation_id"; "session_id"; "ip_address"; "email"; "username"].
Definition STANDARD_LABELS : list string := ["service"; "environment"; "plane"; "version"].

Inductive metric_exc := MetricGovernanceError (m : string) | ValueError (m : string).
Inductive MetricKind := Counter | Gauge | Histogram (buckets : option (list Z)) | Summary.
Record Metric := { kind : MetricKind; name : string; documentation : string; labelnames : list string }.
(** The registry: the standard values, and the metrics of the client library. *)
Record ApexMetricRegistry := { standard_label_values : pydict string string; metrics : list Metric }.
Definition new_registry (service_name environment plane version : string) : ApexMetricRegistry :=
  {| standard_label_values := [("service", service_name); ("environment", environment); ("plane", plane); ("version", version)];
     metrics := [] |}.

Definition validate_name (name : string) : result metric_exc unit :=
  if re_match METRIC_NAME_PATTERN name then Ok tt
  else Err (MetricGovernanceError ("metric name '" ++ name ++ "' violates naming convention: " ++
              "must match apexquant_{{subsystem}}_{{name}}_{{unit}}")).
Fixpoint forbidden_label (l : list string) : option string :=
  match l with
  | [] => None
  | x :: l' => if bool_decide (x ∈ FORBIDDEN_HIGH_CARDINALITY_LABELS) then Some x else forbidden_label l'
  end.
Definition validate_labels (labels : list string) : result metric_exc (list string) :=
  let normalized := map str_lower labels in
  match forbidden_label normalized with
  | Some x => Err (MetricGovernanceError ("high-cardinality label '" ++ x ++ "' is forbidden in Prometheus metrics"))
  | None => Ok (STANDARD_LABELS ++ filter (fun l => l ∉ STANDARD_LABELS) normalized)%list
  end.

Section Client.
Context (registers : list Metric -> Metric -> option string).

(** [counter], [gauge], [histogram] and [summary]: the class differs. *)
Definition declare (k : MetricKind) (metric_name description : string) (labels : list string)
    : st ApexMetricRegistry metric_exc Metric := fun r =>
  match validate_name metric_name with
  | Err e => (Err e, r)
  | Ok _ =>
      match validate_labels labels with
      | Err e => (Err e, r)
      | Ok all_labels =>
          let m := {| kind := k; name := metric_name; documentation := description; labelnames := all_labels |} in
          match registers (metrics r) m with
          | Some e => (Err (ValueError e), r)
          | None => (Ok m, {| standard_label_values := standard_label_values r; metrics := (metrics r ++ [m])%list |})
          end
      end
  end.
Definition counter := declare Counter.
Definition gauge := declare Gauge.
Definition histogram (metric_name description : string) (labels : list string) (buckets : option (list Z)) :=
  declare (Histogram buckets) metric_name description labels.
Definition summary := declare Summary.

(** A metric called with labels by name: the child of these values *)
Definition labels_of (m : Metric) (kwargs : pydict string string) : result metric_exc (pydict string string) :=
  if bool_decide (py_sorted str_lt (dict_keys kwargs) = py_sorted str_lt (labelnames m)) then Ok kwargs
  else Err (ValueError "Incorrect label names").
Fixpoint dict_update (new d : pydict string string) : pydict string string :=
  match new with [] => d | (k, v) :: l => dict_update l (dict_set k v d) end.
Definition inject_standard_labels (r : ApexMetricRegistry) (m : Metric) (labels : pydict string string)
    : result metric_exc (pydict string string) :=
  labels_of m (dict_update labels (standard_label_values r)).

(** ** middleware.py *)

Record Middleware := { requests_total : Metric; request_duration : Metric }.
(** [MetricsMiddleware.__init__]; the buckets are in milliseconds. *)
Definition new_middleware : st ApexMetricRegistry metric_exc Middleware :=
  c ← counter "apexquant_http_requests_total" "Total HTTP requests" ["method"; "path"; "status"];
  h ← histogram "apexquant_http_request_duration_seconds" "HTTP request duration in seconds" ["method"; "path"]
        (Some [5; 10; 25; 50; 100; 250; 500; 1000; 2500; 5000; 10000]%Z);
  mret {| requests_total := c; request_duration := h |}.

Record Request := { method : string; path : string }.
Record Response := { status_code : Z }.
(** What was counted and observed, by metric and labels. *)
Record Samples := { counted : list (string * pydict string string); observed : list (string * pydict string string * Z) }.
Inductive dispatch_exc := Handler (m : string) | Metric_error (e : metric_exc).

Definition normalized_path (p : string) : string :=
  if starts_with "/api/" p && (4 <? length (split_on "/" p))%nat then "/api/{service}/{version}" else p.
(** The [finally] block *)
Definition record (mw : Middleware) (method path status : string) (duration : Z) : st Samples dispatch_exc unit := fun s =>
  match labels_of (requests_total mw) [("method", method); ("path", path); ("status", status)] with
  | Err e => (Err (Metric_error e), s)
  | Ok kv =>
      let s1 := {| counted := (counted s ++ [(name (requests_total mw), kv)])%list; observed := observed s |} in
      match labels_of (request_duration mw) [("method", method); ("path", path)] with
      | Err e => (Err (Metric_error e), s1)
      | Ok kv' => (Ok tt, {| counted := counted s1; observed := (observed s1 ++ [(name (request_duration mw), kv', duration)])%list |})
      end
  end.
(** An exception of the block replaces that of the handler. *)
Definition dispatch (mw : Middleware) (request : Request) (call_next : Request -> result string Response) (duration : Z)
    : st Samples dispatch_exc Response := fun s =>
  let p := normalized_path (path request) in
  let '(result, status) := match call_next request with
                           | Ok r => (Ok r, pretty (status_code r))
                           | Err e => (Err (Handler e), "500")
                           end in
  match record mw (method request) p status duration s with
  | (Err e, s') => (Err e, s')
  | (Ok _, s') => (result, s')
  end.

(** ** Names *)

Lemma plus_chr p s : lang (Plus (Chr p)) s <-> s <> "" /\ str_forall p s = true.
Proof.
  unfold Plus. rewrite lang_cat_iff. split.
  - intros (a & b & -> & Ha & Hb). lang_inv Ha. split; [done|]. cbn. apply andb_true_iff. split; [done|].
    apply star_list in Hb as (l & -> & Hl). induction Hl as [|x l Hx _ IH]; [done|]. rewrite concat_cons, str_forall_app, IH.
    inversion Hx as [|? c' Hc'| | | | |]; subst. cbn. by rewrite Hc'.
  - intros [Hne Hs]. destruct s as [|c s]; [done|]. cbn in Hs. apply andb_true_iff in Hs as [Hc Hs].
    exists (String c ""), s. split_and!; [done|by constructor|]. clear Hne Hc. induction s as [|d s IH]; [constructor|].
    cbn in Hs. apply andb_true_iff in Hs as [Hd Hs]. apply (lang_star _ (String d "") s); [by constructor|by apply IH].
Qed.

(** The names the pattern takes: the last group adds none. *)
Lemma metric_name_iff s : lang METRIC_NAME_PATTERN s <->
  exists a b, s = "apexquant_" ++ a ++ "_" ++ b /\ a <> "" /\ b <> "" /\ str_forall name_char a = true /\ str_forall name_char b = true.
Proof.
  unfold METRIC_NAME_PATTERN. rewrite lang_cat_iff. setoid_rewrite lang_text. split.
  - intros (? & r & -> & -> & Hr). apply lang_cat_iff in Hr as (a & r1 & -> & Ha & Hr). apply plus_chr in Ha as [Ha1 Ha2].
    apply lang_cat_iff in Hr as (u & r2 & -> & Hu & Hr). apply lang_text in Hu as ->.
    apply lang_cat_iff in Hr as (b & r3 & -> & Hb & Hr). apply plus_chr in Hb as [Hb1 Hb2].
    exists a, (b ++ r3). split_and!; [done|done|by destruct b|done|]. rewrite str_forall_app, Hb2. apply lang_alt_iff in Hr as [Hr|Hr].
    + by lang_inv Hr.
    + apply lang_cat_iff in Hr as (v & w & -> & Hv & Hw).
      apply lang_text in Hv as ->. apply plus_chr in Hw as [_ Hw]. cbn.
      eapply str_forall_impl; [|exact Hw]. intros c Hc. unfold name_char. by rewrite Hc.
  - intros (a & b & -> & Ha & Hb & Hac & Hbc). eexists _, _. split_and!; [done..|].
    apply lang_cat_iff. exists a, ("_" ++ b). split_and!; [done|by apply plus_chr|].
    apply lang_cat_iff. exists "_", b. split_and!; [done|by apply lang_text|].
    apply lang_cat_iff. exists b, "". split_and!; [by rewrite str_app_nil_r|by apply plus_chr|]. apply lang_left. constructor.
Qed.

(** ** What is declared, and what can be recorded *)

Lemma forbidden_label_None l : forbidden_label l = None <-> Forall (fun x => x ∉ FORBIDDEN_HIGH_CARDINALITY_LABELS) l.
Proof.
  induction l as [|y l IH]; cbn [forbidden_label]; [done|]. rewrite list.Forall_cons.
  case_bool_decide as Hy; [split; [done|by intros [? _]]|]. rewrite IH. tauto.
Qed.
(** A metric that follows the rules. *)
Definition governed (m : Metric) : Prop :=
  re_match METRIC_NAME_PATTERN (name m) = true /\
  exists extra, labelnames m = (STANDARD_LABELS ++ extra)%list /\
    forall x, x ∈ extra -> x ∉ STANDARD_LABELS /\ x ∉ FORBIDDEN_HIGH_CARDINALITY_LABELS.

Lemma declare_spec k n d l r x r' : declare k n d l r = (x, r') ->
  match x with
  | Ok m => name m = n /\ kind m = k /\ governed m /\ registers (metrics r) m = None /\
            labelnames m = (STANDARD_LABELS ++ filter (fun x => x ∉ STANDARD_LABELS) (map str_lower l))%list /\
            metrics r' = (metrics r ++ [m])%list /\ standard_label_values r' = standard_label_values r
  | Err _ => r' = r
  end.
Proof.
  unfold declare, validate_name. destruct (re_match _ n) eqn:Hn; [|by intros [= <- <-]].
  unfold validate_labels. destruct (forbidden_label _) eqn:Hl; [by intros [= <- <-]|].
  destruct (registers _ _) eqn:Hr; intros [= <- <-]; [done|]. split_and!; try done. split; [done|].
  eexists. split; [reflexivity|]. intros x (Hx & Hin)%list_elem_of_filter. split; [done|].
  apply forbidden_label_None in Hl. by eapply list.Forall_forall in Hl.
Qed.

(** Every metric of a registry follows the rules, whatever is declared. *)
Definition Declaration : Type := MetricKind * string * string * list string.
Definition declare_all (l : list Declaration) (r : ApexMetricRegistry) : ApexMetricRegistry :=
  foldl (fun r '(k, n, d, ls) => (declare k n d ls r).2) r l.
Lemma declared_governed l : forall r, Forall governed (metrics r) -> Forall governed (metrics (declare_all l r)).
Proof.
  induction l as [|[[[k n] d] ls] l IH]; intros r Hr; [done|]. cbn. apply IH.
  destruct (declare k n d ls r) as [x r'] eqn:Hd. apply declare_spec in Hd. cbn.
  destruct x as [m|e]; [|by subst]. destruct Hd as (_ & _ & Hg & _ & _ & -> & _). apply Forall_app. by split; [|constructor].
Qed.

(** The middleware of a registry cannot label its metrics: it gives none of the
    standard labels. *)
Lemma labels_of_missing m kv x : x ∈ labelnames m -> x ∉ dict_keys kv -> labels_of m kv = Err (ValueError "Incorrect label names").
Proof.
  intros Hx Hk. unfold labels_of. rewrite bool_decide_eq_false_2; [done|]. intros He. apply Hk.
  apply (elem_of_py_sorted str_lt). rewrite He. by apply elem_of_py_sorted.
Qed.
Lemma middleware_always_raises r mw r' request call_next duration s :
  new_middleware r = (Ok mw, r') ->
  dispatch mw request call_next duration s = (Err (Metric_error (ValueError "Incorrect label names")), s).
Proof.
  unfold new_middleware. intros H. st_inv H as c r1 Hc. st_inv H as h r2 Hh. injection H as <- _.
  apply declare_spec in Hc as (_ & _ & _ & _ & Hl & _). assert (Hm : forall p status, labels_of c [("method", method request); ("path", p); ("status", status)] =
            Err (ValueError "Incorrect label names")).
  { intros p status. apply (labels_of_missing c _ "service"); [rewrite Hl; by left|]. intros Hin.
    by repeat (apply elem_of_cons in Hin as [Hin|Hin]; [done|]); apply elem_of_nil in Hin. }
  unfold dispatch, record. cbn [requests_total]. destruct (call_next request); by rewrite Hm.
Qed.

(** With the standard labels injected, the labels beside them are accepted if
    they are those that were declared. *)
Lemma dict_update_keys new : forall d, dict_wf d -> dict_wf new ->
  dict_wf (dict_update new d) /\ forall k, k ∈ dict_keys (dict_update new d) <-> k ∈ dict_keys d \/ k ∈ dict_keys new.
Proof.
  induction new as [|[k v] new IH]; intros d Hd Hn; cbn [dict_update].
  - split; [done|]. intros k. cbn. set_solver.
  - apply list.NoDup_cons in Hn as [Hk Hn]. destruct (IH (dict_set k v d)) as [Hw Hi]; [by apply dict_wf_set|done|].
    split; [done|]. intros k'. rewrite Hi, dict_keys_set. unfold dict_keys. rewrite fmap_cons, elem_of_cons. cbn [fst].
    case_decide; [|rewrite elem_of_app, list_elem_of_singleton]; naive_solver.
Qed.
Lemma injected_labels_accepted r m extra kv : dict_wf (standard_label_values r) ->
  dict_keys (standard_label_values r) = STANDARD_LABELS -> labelnames m = (STANDARD_LABELS ++ extra)%list ->
  NoDup (labelnames m) -> dict_wf kv -> (forall k, k ∈ dict_keys kv <-> k ∈ extra) ->
  exists child, inject_standard_labels r m kv = Ok child /\ forall k, k ∈ dict_keys child <-> k ∈ labelnames m.
Proof.
  intros Hs Hk Hl Hn Hw He. destruct (dict_update_keys kv _ Hs Hw) as [Hw' Hi].
  assert (Hkeys : forall k, k ∈ dict_keys (dict_update kv (standard_label_values r)) <-> k ∈ labelnames m).
  { intros k. rewrite Hi, Hk, He, Hl, elem_of_app. done. }
  unfold inject_standard_labels, labels_of. eexists. split; [|exact Hkeys]. rewrite bool_decide_eq_true_2; [done|].
  apply py_sorted_str_perm, list.NoDup_Permutation; [exact Hw'|done|exact Hkeys].
Qed.
End Client.
