(* ===== verification/ObjectStorage.v ===== *)
(** Object storage: [models.py], [registry.py], [client.py], [persistence.py]
    and [cli.py] of apexquant-s3.

    The S3 client is a class of operations on a state, with the laws that the
    service documents; SHA-256 and base64 are parameters where the checksum of an
    upload meets the service. *)
From stdpp Require Import base strings list gmap.
From Stdlib Require Import Ascii.
From S2P Require Import Prelude PyStr Json.

#[local] Open Scope string_scope.

(** ** models.py *)

Inductive BucketPurpose := MARKET_DATA_RAW | MODEL_ARTIFACTS | KNOWLEDGE_RAW | BACKUPS | TEMPORARY.
#[export] Instance BucketPurpose_eq_dec : EqDecision BucketPurpose.
Proof. solve_decision. Defined.
Record BucketSpec := {
  name : string; purpose : BucketPurpose; versioning_enabled : bool; lifecycle_expiration_days : option Z
}.
Record ObjectReference := {
  bucket_name : string; object_key : string; version_id : option string; content_type : string; size_bytes : Z;
  checksum_sha256 : option string
}.

(** ** registry.py *)

Definition prefix (environment name : string) : string := environment ++ "-" ++ name.
Definition build_specs (environment : string) : list BucketSpec :=
  [{| name := prefix environment "apex-market-data-raw"; purpose := MARKET_DATA_RAW; versioning_enabled := false; lifecycle_expiration_days := Some 365%Z |};
   {| name := prefix environment "apex-models"; purpose := MODEL_ARTIFACTS; versioning_enabled := true; lifecycle_expiration_days := None |};
   {| name := prefix environment "apex-knowledge-raw"; purpose := KNOWLEDGE_RAW; versioning_enabled := true; lifecycle_expiration_days := None |};
   {| name := prefix environment "apex-backups"; purpose := BACKUPS; versioning_enabled := false; lifecycle_expiration_days := Some 90%Z |};
   {| name := prefix environment "apex-temp"; purpose := TEMPORARY; versioning_enabled := false; lifecycle_expiration_days := Some 7%Z |}].
Definition get (specs : list BucketSpec) (p : BucketPurpose) : option BucketSpec :=
  head (filter (fun s => purpose s = p) specs).

(** ** The S3 service *)

(** [ClientError] with the code of its response; another exception. *)
Inductive s3_exc := ClientError (code : string) | OtherError (m : string).
Inductive storage_exc := ObjectStorageError (m : string) | Service (e : s3_exc) | ValueError (m : string).

Class S3 (W : Type) := {
  head_bucket : string -> st W s3_exc unit;
  create_bucket : string -> st W s3_exc unit;
  put_bucket_versioning : string -> st W s3_exc unit;
  put_bucket_lifecycle : string -> Z -> st W s3_exc unit;
  (** bucket, key, content, content type, checksum: the version, if any *)
  put_object : string -> string -> string -> string -> string -> st W s3_exc (option string);
  get_object : string -> string -> option string -> st W s3_exc string;
  list_buckets : st W s3_exc (list string)
}.

(** ** client.py *)

Section Client.
Context {W : Type} `{!S3 W} (sha256_hex : string -> string).

Definition via {A} (m : st W s3_exc A) : st W storage_exc A := fun w => let '(x, w') := m w in (map_err Service x, w').


(** The chunks that are hashed are the whole content. *)
Definition upload_object (bucket key body content_type : string) : st W storage_exc ObjectReference :=
  let checksum := sha256_hex body in
  version ← via (put_object bucket key body content_type checksum);
  mret {| bucket_name := bucket; object_key := key; version_id := version; content_type := content_type;
          size_bytes := Z.of_nat (String.length body); checksum_sha256 := Some checksum |}.
(** An empty version is none. *)
Definition download_object (bucket key : string) (version : option string) : st W storage_exc string :=
  via (get_object bucket key (match version with Some v => if str_empty v then None else Some v | None => None end)).

(** ** persistence.py *)

Record BucketRow := {
  b_name : string; b_environment : string; b_purpose : BucketPurpose; b_versioning : bool; lifecycle_rules : json;
  b_created_at : Z; b_updated_at : Z
}.
Record RunRow := { v_environment : string; v_endpoint : string; generated_at : Z; v_ok : bool; missing_buckets : list string; observed_buckets : list string }.
Record Db := { buckets : list BucketRow; verification_runs : list RunRow }.
Inductive db_exc := CheckViolation (constraint : string).

(** [name.split("-", 1)[0]] *)
Definition environment_of (n : string) : string := match split_first "-" n with Some (a, _) => a | None => n end.
(** A number of days that is zero is no rule. *)
Definition rules_of (days : option Z) : json :=
  match days with
  | Some d => if (d =? 0)%Z then JList [] else JList [JDict [("expiration_days", JNum d)]]
  | None => JList []
  end.
Definition bucket_row (now : Z) (s : BucketSpec) : BucketRow :=
  {| b_name := name s; b_environment := environment_of (name s); b_purpose := purpose s; b_versioning := versioning_enabled s;
     lifecycle_rules := rules_of (lifecycle_expiration_days s); b_created_at := now; b_updated_at := now |}.
Definition persist_bucket (now : Z) (s : BucketSpec) : st Db db_exc unit := fun d =>
  let row := bucket_row now s in
  if negb (not_blank (b_environment row)) then (Err (CheckViolation "buckets_environment_not_empty"), d)
  else (Ok tt, {| buckets := tbl_upsert (fun r => bool_decide (b_name r = name s)) row
                    (fun r => {| b_name := b_name r; b_environment := b_environment r; b_purpose := b_purpose r;
                                 b_versioning := b_versioning row; lifecycle_rules := lifecycle_rules row;
                                 b_created_at := b_created_at r; b_updated_at := now |}) (buckets d);
                  verification_runs := verification_runs d |}).
(** The connection commits at the end. *)
Definition persist_buckets (now : Z) (specs : list BucketSpec) : st Db db_exc unit :=
  transaction (for_each (persist_bucket now) specs).

(** ** cli.py *)



End Client.

(** ** What a bootstrap leaves *)

(** What there is of a bucket: whether it is the caller's own, since a HEAD
    answers for one of another account too, and what was put on it. *)
Record Bucket := { own : bool; versioned : bool; expires : option Z }.
Definition versioned_bucket (b : Bucket) : Bucket := {| own := own b; versioned := true; expires := expires b |}.
Definition expiring_bucket (d : Z) (b : Bucket) : Bucket := {| own := own b; versioned := versioned b; expires := Some d |}.

(** What the service documents of the operations that succeed, while nobody
    else changes its buckets: a HEAD that answers is of a bucket that exists, a
    bucket that is created is the caller's own, the configuration put is that
    of the bucket, and the list is of the caller's own buckets. *)
Class S3Laws (W : Type) `{S3 W} (state : W -> string -> option Bucket) := {
  head_law : forall n w x w', head_bucket n w = (x, w') ->
    (forall m, state w' m = state w m) /\ (is_ok x = true -> is_Some (state w n));
  create_law : forall n w w', create_bucket n w = (Ok tt, w') ->
    (forall m, m <> n -> state w' m = state w m) /\ exists b, state w' n = Some b /\ own b = true;
  versioning_law : forall n w w', put_bucket_versioning n w = (Ok tt, w') ->
    (forall m, m <> n -> state w' m = state w m) /\ state w' n = versioned_bucket <$> state w n;
  lifecycle_law : forall n d w w', put_bucket_lifecycle n d w = (Ok tt, w') ->
    (forall m, m <> n -> state w' m = state w m) /\ state w' n = expiring_bucket d <$> state w n;
  list_law : forall w l w', list_buckets w = (Ok l, w') -> forall m, m ∈ l <-> exists b, state w m = Some b /\ own b = true
}.


Section Bootstrap.
Context {W : Type} `{HS : !S3 W} (state : W -> string -> option Bucket) `{HL : !S3Laws W state}.


End Bootstrap.

(** ** The registry *)

(** Each purpose has its bucket. *)
Lemma get_total environment p : exists s, get (build_specs environment) p = Some s /\ purpose s = p /\ s ∈ build_specs environment.
Proof. destruct p; unfold get, build_specs; cbn; eexists; (split; [reflexivity|split; [reflexivity|]]); set_solver. Qed.

(** ** The rows *)



(** ** Bootstrap, then verify *)

Section Agreement.
Context {W : Type} `{HS : !S3 W} (state : W -> string -> option Bucket) `{HL : !S3Laws W state}.



End Agreement.

(** A service that keeps its buckets in a map. *)
#[local] Instance map_service : S3 (gmap string Bucket) := {
  head_bucket n w := (if w !! n then Ok tt else Err (ClientError "404"), w);
  create_bucket n w := (Ok tt, <[n := {| own := true; versioned := false; expires := None |}]> w);
  put_bucket_versioning n w := (Ok tt, alter versioned_bucket n w);
  put_bucket_lifecycle n d w := (Ok tt, alter (expiring_bucket d) n w);
  put_object _ _ _ _ _ w := (Ok None, w);
  get_object _ k _ w := (Err (ClientError "404"), w);
  list_buckets w := (Ok (filter (fun kv => own kv.2 = true) (map_to_list w)).*1, w)
}.
#[local] Instance map_laws : S3Laws (gmap string Bucket) (fun w n => w !! n).
Proof.
  split.
  - cbn. intros n w x w' [= <- <-]. split; [done|]. by destruct (w !! n).
  - cbn. intros n w w' [= <-]. split; [by intros m Hm; rewrite lookup_insert_ne|]. rewrite lookup_insert_eq. by eexists.
  - cbn. intros n w w' [= <-]. split; [by intros m Hm; rewrite lookup_alter_ne|by rewrite lookup_alter_eq].
  - cbn. intros n d w w' [= <-]. split; [by intros m Hm; rewrite lookup_alter_ne|by rewrite lookup_alter_eq].
  - cbn. intros w l w' [= <- <-] m. rewrite list_elem_of_fmap. split.
    + intros ([k b] & -> & [Ho Hin]%list_elem_of_filter). apply elem_of_map_to_list in Hin. by exists b.
    + intros (b & Hb & Ho). exists (m, b). split; [done|]. apply list_elem_of_filter. split; [done|]. by apply elem_of_map_to_list.
Qed.

(** The environment that is kept with a bucket ends at its first dash. *)
Lemma environment_is_cut now : forall s, s ∈ build_specs "pre-prod" -> b_environment (bucket_row now s) = "pre".
Proof. apply list.Forall_forall. by repeat constructor. Qed.
(** An environment of no characters has no rows: nothing is kept, and the buckets are there all the same. *)
Lemma empty_environment_refused now d : persist_buckets now (build_specs "") d = (Err (CheckViolation "buckets_environment_not_empty"), d).
Proof. done. Qed.
(** The checksum sent with an upload is the digest in hexadecimal. *)
Lemma upload_sends_hex {W} `{!S3 W} sha b k body ct (w : W) :
  upload_object sha b k body ct w =
  (let '(x, w') := put_object b k body ct (sha body) w in
   (match x with
    | Ok v => Ok {| bucket_name := b; object_key := k; version_id := v; content_type := ct;
                    size_bytes := Z.of_nat (String.length body); checksum_sha256 := Some (sha body) |}
    | Err e => Err (Service e) end, w')).
Proof. unfold upload_object, via, mbind, st_bind. by destruct (put_object _ _ _ _ _ _) as [[v|e] w']. Qed.
