(* ===== verification/Http.v ===== *)
(** What the HTTP services share: responses, counters with labels, and the
    order in which FastAPI looks at a request. *)
From stdpp Require Import base strings list.
From S2P Require Import Prelude PyStr Json.

#[local] Open Scope string_scope.

(** A response; no body stands for a text that the framework words itself. *)
Record Response := { code : Z; content : option json }.
Definition reply (status : Z) (body : json) : Response := {| code := status; content := Some body |}.
Definition error_reply (status : Z) (error_code message : string) : Response :=
  reply status (JDict [("error", JDict [("code", JStr error_code); ("message", JStr message)])]).
(** What does not fit its model, and what nobody catches. *)
Definition Unprocessable : Response := {| code := 422; content := None |}.
Definition InternalServerError : Response := {| code := 500; content := None |}.

(** [counter.labels(...).inc()] *)
Definition inc {K} `{EqDecision K} (labels : K) (counts : pydict K nat) : pydict K nat :=
  dict_set labels (S (default 0 (dict_get labels counts)))%nat counts.
Definition count_of {K} `{EqDecision K} (labels : K) (counts : pydict K nat) : nat := default 0 (dict_get labels counts).
Lemma count_inc {K} `{EqDecision K} (k k' : K) counts :
  count_of k' (inc k counts) = if decide (k' = k) then S (count_of k' counts) else count_of k' counts.
Proof.
  unfold count_of, inc. case_decide as Hk; [subst; by rewrite dict_get_set_eq|by rewrite dict_get_set_ne].
Qed.
