(* ===== verification/AuthApp.v ===== *)
(** The HTTP service of apexquant-auth: [app.py], over the service of
    [AuthService] and the start-up of [StartUp].

    A call is a request with what the service draws for it: the clock, the
    identifier of a token, the random bytes of a key.  FastAPI runs the
    dependency on the bearer token before it looks at the body.  An exception
    that no handler takes ends in a plain 500; the pool commits each statement. *)
From stdpp Require Import base strings list pretty relations.
From S2P Require Import Prelude PyStr Json Base64 PyPath Http StartUp Rbac AuthToken AuthService AuthProps.

#[local] Open Scope string_scope.

(** An error with its answer, another exception, or a body that does not fit. *)
Inductive api_exc := AuthApiError (status_code : Z) (error_code message : string) | Uncaught (e : auth_exc) | Misfit.

Record App := { db : AuthDB; auth_requests_total : pydict (string * string) nat }.
Notation AppM := (st App api_exc).
Inductive Call :=
| Healthz
| Readyz (database_answers : bool)
| IssueToken (api_key : string) (ttl_seconds : Z) (uuid4 : string) (now : Z)
| VerifyToken (authorization : option string) (now : Z)
| Authorize (authorization : option string) (act resource : string) (now : Z)
| CreateApiKey (authorization : option string) (payload : CreateApiKeyRequest) (bytes12 bytes32 salt : string) (now : Z)
| RevokeApiKey (authorization : option string) (payload : pydict string json) (now : Z).

(** The ranges of the fields. *)
Definition ttl_fits (ttl : Z) : bool := (30 <=? ttl)%Z && (ttl <=? 3600)%Z.
Definition days_fit (days : option Z) : bool := match days with Some d => (1 <=? d)%Z && (d <=? 3650)%Z | None => true end.

Definition context_json (c : AuthContext) : json :=
  JDict [("subject", JStr (subject c)); ("principal_type", JStr (cx_principal_type c));
         ("permissions", JList (map JStr (cx_permissions c))); ("expires_at", JNum (cx_expires_at c)); ("jti", JStr (cx_jti c))].
Definition issued_json (r : IssueTokenResponse) : json :=
  JDict [("access_token", JStr (access_token r)); ("token_type", JStr "Bearer"); ("expires_in", JNum (expires_in r));
         ("permissions", JList (map JStr (rs_permissions r)))].
Definition created_json (r : CreateApiKeyResponse) : json :=
  JDict [("subject_name", JStr (rs_subject_name r)); ("principal_type", JStr (type_value (rs_principal_type r)));
         ("identifier", JStr (rs_identifier r)); ("api_key", JStr (rs_api_key r)); ("permissions", JList (map JStr (rs_granted r)))].

Section App.
Context (hmac_sha256 : string -> string -> string) (model_validate : json -> option TokenClaims)
  (utf8_decode : string -> option string) (argon2_hash : string -> string -> string)
  (argon2_verify : string -> string -> argon2_outcome) (token_secret : string).
(** [str(value)] of a list or a dict *)
Context (repr : json -> string).

(** A call of the service: its statements stay. *)
Definition service {A} (catch : auth_exc -> api_exc) (m : st AuthDB auth_exc A) : AppM A := fun a =>
  let '(x, d) := m (db a) in (map_err catch x, {| db := d; auth_requests_total := auth_requests_total a |}).
Definition count (endpoint decision : string) : AppM unit := fun a =>
  (Ok tt, {| db := db a; auth_requests_total := inc (endpoint, decision) (auth_requests_total a) |}).
(** [except AuthSecurityError] *)
Definition as_status (status : Z) (error_code : string) (e : auth_exc) : api_exc :=
  match e with AuthSecurityError m => AuthApiError status error_code m | _ => Uncaught e end.

Definition bearer_token (authorization : option string) : option string :=
  match authorization with
  | Some h => if starts_with "Bearer " h then Some (strip (String.substring 7 (String.length h - 7) h)) else None
  | None => None
  end.
Definition get_auth_context (authorization : option string) (now : Z) : AppM AuthContext :=
  match bearer_token authorization with
  | None => raise (AuthApiError 401 "UNAUTHORIZED" "missing bearer token")
  | Some token => service (as_status 401 "UNAUTHORIZED") (verify_token_service hmac_sha256 model_validate utf8_decode token_secret token now)
  end.

Definition issue_endpoint (api_key : string) (ttl : Z) (uuid4 : string) (now : Z) : AppM json := fun a =>
  match service Uncaught (issue_token hmac_sha256 argon2_verify token_secret uuid4 api_key now ttl) a with
  | (Err (Uncaught (AuthSecurityError m)), a') => (count "/v1/auth/tokens" "DENY" ≫= fun _ => raise (AuthApiError 401 "INVALID_CREDENTIAL" m)) a'
  | (Err e, a') => (Err e, a')
  | (Ok r, a') => (count "/v1/auth/tokens" "ALLOW" ≫= fun _ => mret (issued_json r)) a'
  end.
Definition authorize_endpoint (context : AuthContext) (act resource : string) : AppM json :=
  allowed ← service Uncaught (authorize_action context act resource);
  count "/v1/auth/authorize" (if allowed : bool then "ALLOW" else "DENY") ≫= fun _ =>
  mret (JDict [("allowed", JBool allowed); ("reason", JStr (act ++ ":" ++ resource))]).
(** [str(payload.get("identifier", "")).strip()] *)
Definition str_of (j : json) : string :=
  match j with
  | JStr s => s | JNum z => pretty z | JBool b => if b then "True" else "False" | JNull => "None"
  | JList _ | JDict _ => repr j
  end.
Definition identifier_of (payload : pydict string json) : string := strip (str_of (default (JStr "") (dict_get "identifier" payload))).
Definition revoke_endpoint (context : AuthContext) (payload : pydict string json) : AppM json :=
  let identifier := identifier_of payload in
  guard_raise (str_empty identifier) (AuthApiError 400 "INVALID_REQUEST" "identifier is required") ≫= fun _ =>
  revoked ← service (as_status 403 "FORBIDDEN") (revoke_api_key context identifier);
  mret (JDict [("revoked", JBool revoked)]).

Definition endpoint (c : Call) : AppM json :=
  match c with
  | Healthz => mret (JDict [("status", JStr "ok")])
  | Readyz _ => mret (JDict [("ready", JBool true)])
  | IssueToken api_key ttl uuid4 now => if ttl_fits ttl then issue_endpoint api_key ttl uuid4 now else raise Misfit
  | VerifyToken h now => cx ← get_auth_context h now; mret (context_json cx)
  | Authorize h act resource now => cx ← get_auth_context h now; authorize_endpoint cx act resource
  | CreateApiKey h payload b12 b32 salt now =>
      cx ← get_auth_context h now;
      if days_fit (expires_in_days payload)
      then r ← service (as_status 403 "FORBIDDEN") (create_api_key argon2_hash b12 b32 salt now cx payload); mret (created_json r)
      else raise Misfit
  | RevokeApiKey h payload now => cx ← get_auth_context h now; revoke_endpoint cx payload
  end.
Definition respond (r : result api_exc json) : Response :=
  match r with
  | Ok j => reply 200 j
  | Err (AuthApiError status_code error_code message) => error_reply status_code error_code message
  | Err (Uncaught _) => InternalServerError
  | Err Misfit => Unprocessable
  end.
Definition handle (c : Call) (a : App) : Response * App :=
  match c with
  | Readyz false => (reply 503 (JDict [("ready", JBool false)]), a)
  | _ => let '(r, a') := endpoint c a in (respond r, a')
  end.

(** [lifespan] up to the [yield], from a database as it was *)
Inductive start_exc := Migrations (e : startup_exc) | Bootstrap (e : auth_exc).
Definition lifespan (connect : st AuthDB startup_exc unit) (execute : string -> st AuthDB startup_exc unit) (fs : FileSystem)
    (migrate_on_start : bool) (migrations_dir salt bootstrap_subject bootstrap_api_key : string) (bootstrap_permissions : list string)
    (d : AuthDB) : result start_exc App * AuthDB :=
  let '(x, d1) := if migrate_on_start then auth_apply_migrations connect execute fs migrations_dir d else (Ok tt, d) in
  match x with
  | Err e => (Err (Migrations e), d1)
  | Ok _ =>
      let '(y, d2) := ensure_bootstrap argon2_hash salt bootstrap_subject bootstrap_api_key bootstrap_permissions d1 in
      match y with
      | Err e => (Err (Bootstrap e), d2)
      | Ok _ => (Ok {| db := d2; auth_requests_total := [] |}, d2)
      end
  end.
End App.

(** ** What the requests may do *)

(** The database but for its events and the times of last use. *)
Definition unchanged (d d' : AuthDB) : Prop :=
  principals d' = principals d /\ permission_grants d' = permission_grants d /\
  Forall2 same_credential (credentials d) (credentials d').
#[export] Instance same_credential_preorder : PreOrder same_credential.
Proof. split; [by intros c|]. intros x y z (?&?&?&?&?&?) (?&?&?&?&?&?). unfold same_credential. split_and!; congruence. Qed.
#[export] Instance unchanged_preorder : PreOrder unchanged.
Proof.
  split; [by intros d|]. intros x y z (H1 & H2 & H3) (H4 & H5 & H6). split_and!; [congruence..|by etransitivity].
Qed.
Lemma events_unchanged l d : unchanged d (with_events l d).
Proof. by split_and!. Qed.
Lemma audit_unchanged who ty a d r details s : unchanged s (audit who ty a d r details s).2.
Proof. destruct (audit_cases who ty a d r details s) as [->|(e & -> & _)]; [apply events_unchanged|done]. Qed.
Lemma audit_then {A} who ty a d r details (f : unit -> AuthM A) s s0 : unchanged s s0 -> (forall s', (f tt s').2 = s') ->
  unchanged s ((audit who ty a d r details ≫= f) s0).2.
Proof.
  intros Hs Hf. etransitivity; [exact Hs|]. pose proof (audit_unchanged who ty a d r details s0) as H.
  unfold mbind, st_bind. destruct (audit who ty a d r details s0) as [[[]|] s']; [by rewrite Hf|done].
Qed.

Section Safety.
Context (hmac_sha256 : string -> string -> string) (model_validate : json -> option TokenClaims)
  (utf8_decode : string -> option string) (argon2_hash : string -> string -> string)
  (argon2_verify : string -> string -> argon2_outcome) (token_secret : string) (repr : json -> string).
Notation handle := (handle hmac_sha256 model_validate utf8_decode argon2_hash argon2_verify token_secret repr).
Notation endpoint := (endpoint hmac_sha256 model_validate utf8_decode argon2_hash argon2_verify token_secret repr).
Notation context_of_header := (get_auth_context hmac_sha256 model_validate utf8_decode token_secret).
Notation verified := (verify_token hmac_sha256 model_validate utf8_decode token_secret).
Notation step := (auth_step hmac_sha256 model_validate utf8_decode argon2_hash argon2_verify token_secret).

Lemma verify_unchanged t now s : unchanged s (verify_token_service hmac_sha256 model_validate utf8_decode token_secret t now s).2.
Proof.
  unfold verify_token_service. destruct (verified t now) as [cx|e]; [by apply audit_then|].
  destruct e; try done.
Qed.
Lemma issue_unchanged u k now ttl s : unchanged s (issue_token hmac_sha256 argon2_verify token_secret u k now ttl s).2.
Proof.
  destruct (issue_cases hmac_sha256 argon2_verify token_secret u k now ttl s)
    as [(e & _ & ->)|[(i & sec & who & ty & r & m & _ & -> & _)|[(e & row & -> & _)|(i & sec & row & _ & _ & _ & _ & _ & ->)]]]; [done| |done|].
  - destruct (deny_cases who ty r m s) as (e & s' & -> & _ & l & ->). apply events_unchanged.
  - erewrite st_bind_ok by reflexivity. set (s1 := with_credentials _ s).
    assert (H1 : unchanged s s1) by (split_and!; [done..|apply used_same]).
    by apply audit_then.
Qed.

(** The bearer of a context. *)
Definition speaks_for (h : option string) (now : Z) (cx : AuthContext) : Prop :=
  exists token, bearer_token h = Some token /\ verified token now = Ok cx.
Lemma context_spec h now a x a' : context_of_header h now a = (x, a') ->
  unchanged (db a) (db a') /\ rtc step (db a) (db a') /\
  match x with Ok cx => speaks_for h now cx | Err _ => True end.
Proof.
  unfold get_auth_context. destruct (bearer_token h) as [token|] eqn:Hb; [|by intros [= <- <-]].
  unfold service. pose proof (verify_unchanged token now (db a)) as Hu.
  destruct (verify_token_service _ _ _ _ token now (db a)) as [y d] eqn:Hv. intros [= <- <-]. cbn [db].
  split_and!; [exact Hu|eapply rtc_once, step_verify, Hv|].
  destruct y as [cx|e]; [|done]. exists token. split; [exact Hb|].
  unfold verify_token_service in Hv. destruct (verified token now) as [cx'|e]; [|by destruct e; [st_inv Hv as u s1 H1|..]].
  st_inv Hv as u s1 H1. by injection Hv as <- _.
Qed.
(** *** One call *)

Lemma service_inv {A} catch (m : AuthM A) a x a' : service catch m a = (x, a') ->
  exists y, m (db a) = (y, db a') /\ x = map_err catch y /\ auth_requests_total a' = auth_requests_total a.
Proof. unfold service. destruct (m (db a)) as [y d]. intros [= <- <-]. by exists y. Qed.
Lemma revoke_needs cx i s x s' : revoke_api_key cx i s = (x, s') ->
  has_permission (cx_permissions cx) "auth:api_keys:write" = true \/ (unchanged s s' /\ is_ok x = false).
Proof. unfold revoke_api_key. rewrite guard_raise_bind. destruct (has_permission _ _); [by left|]. intros [= <- <-]. by right. Qed.
Lemma create_needs b12 b32 salt now cx rq s x s' : create_api_key argon2_hash b12 b32 salt now cx rq s = (x, s') ->
  has_permission (cx_permissions cx) "auth:api_keys:write" = true \/ (unchanged s s' /\ is_ok x = false).
Proof. unfold create_api_key. rewrite guard_raise_bind. destruct (has_permission _ _); [by left|]. intros [= <- <-]. by right. Qed.

(** The calls that write keys, with their header and the time. *)
Definition writes (c : Call) : option (option string * Z) :=
  match c with
  | CreateApiKey h _ _ _ _ now | RevokeApiKey h _ now => Some (h, now)
  | _ => None
  end.
Definition authorized (h : option string) (now : Z) : Prop :=
  exists cx, speaks_for h now cx /\ has_permission (cx_permissions cx) "auth:api_keys:write" = true.

(** What a call may do to the database. *)
Lemma endpoint_spec c a x a' : endpoint c a = (x, a') ->
  rtc step (db a) (db a') /\
  match writes c with
  | Some (h, now) => authorized h now \/ (unchanged (db a) (db a') /\ is_ok x = false)
  | None => unchanged (db a) (db a')
  end.
Proof.
  destruct c as [| |k ttl u now|h now|h act res now|h rq b12 b32 salt now|h payload now]; cbn [endpoint writes].
  - intros [= <- <-]. split; [apply rtc_refl|done].
  - intros [= <- <-]. split; [apply rtc_refl|done].
  - destruct (ttl_fits ttl); [|intros [= <- <-]; split; [apply rtc_refl|done]].
    unfold issue_endpoint. destruct (service _ _ a) as [y a1] eqn:Hs. apply service_inv in Hs as (z & Hi & -> & _).
    assert (Hu : unchanged (db a) (db a1)).
    { pose proof (issue_unchanged u k now ttl (db a)) as H. by rewrite Hi in H. }
    assert (Hst : rtc step (db a) (db a1)) by (eapply rtc_once, step_issue, Hi).
    destruct z as [r|[]]; intros [= <- <-]; by split.
  - intros H. st_inv H as cx a1 H1; [|destruct (context_spec _ _ _ _ _ H1) as (? & ? & _); by split].
    injection H as <- <-. destruct (context_spec _ _ _ _ _ H1) as (? & ? & _). by split.
  - intros H. st_inv H as cx a1 H1; [|destruct (context_spec _ _ _ _ _ H1) as (? & ? & _); by split].
    destruct (context_spec _ _ _ _ _ H1) as (Hu & Hst & _). unfold authorize_endpoint in H.
    assert (Ha : forall y a2, service Uncaught (authorize_action cx act res) a1 = (y, a2) -> unchanged (db a) (db a2) /\ rtc step (db a) (db a2)).
    { intros y a2 (z & Hz & _ & _)%service_inv. split; [|eapply rtc_r, step_authorize, Hz; exact Hst].
      etransitivity; [exact Hu|]. replace (db a2) with (authorize_action cx act res (db a1)).2 by by rewrite Hz.
      unfold authorize_action. by apply audit_then. }
    st_inv H as al a2 H2; apply Ha in H2 as [Hu2 Hst2]; [|by split].
    st_inv H as t a3 H3; [|done]. injection H3 as _ <-. injection H as <- <-. by split.
  - intros H. st_inv H as cx a1 H1; [|destruct (context_spec _ _ _ _ _ H1) as (? & ? & _); split; [done|by right]].
    destruct (context_spec _ _ _ _ _ H1) as (Hu & Hst & Hsp).
    destruct (days_fit _); [|injection H as <- <-; split; [done|by right]].
    assert (Ha : forall y a2, service (as_status 403 "FORBIDDEN") (create_api_key argon2_hash b12 b32 salt now cx rq) a1 = (y, a2) ->
      rtc step (db a) (db a2) /\ (authorized h now \/ (unchanged (db a) (db a2) /\ is_ok y = false))).
    { intros y a2 (z & Hz & -> & _)%service_inv. split; [eapply rtc_r, step_create, Hz; exact Hst|].
      destruct (create_needs _ _ _ _ _ _ _ _ _ Hz) as [Hp|[Hu2 Hno]]; [left; by exists cx|right].
      split; [by etransitivity|by destruct z]. }
    st_inv H as r a2 H2; destruct (Ha _ _ H2) as [Hst2 Hor]; [|by split]. injection H as <- <-. split; [done|].
    destruct Hor as [?|[_ [=]]]. by left.
  - intros H. st_inv H as cx a1 H1; [|destruct (context_spec _ _ _ _ _ H1) as (? & ? & _); split; [done|by right]].
    destruct (context_spec _ _ _ _ _ H1) as (Hu & Hst & Hsp). unfold revoke_endpoint in H. rewrite guard_raise_bind in H.
    destruct (str_empty _); [injection H as <- <-; split; [done|by right]|].
    assert (Ha : forall y a2, service (as_status 403 "FORBIDDEN") (revoke_api_key cx (identifier_of repr payload)) a1 = (y, a2) ->
      rtc step (db a) (db a2) /\ (authorized h now \/ (unchanged (db a) (db a2) /\ is_ok y = false))).
    { intros y a2 (z & Hz & -> & _)%service_inv. split; [eapply rtc_r, step_revoke, Hz; exact Hst|].
      destruct (revoke_needs _ _ _ _ _ Hz) as [Hp|[Hu2 Hno]]; [left; by exists cx|right].
      split; [by etransitivity|by destruct z]. }
    st_inv H as r a2 H2; destruct (Ha _ _ H2) as [Hst2 Hor]; [|by split]. injection H as <- <-. split; [done|].
    destruct Hor as [?|[_ [=]]]. by left.
Qed.
Lemma handle_endpoint c a r a' : handle c a = (r, a') ->
  (c = Readyz false /\ a' = a /\ code r = 503%Z) \/ exists x, endpoint c a = (x, a') /\ r = respond x.
Proof.
  destruct (endpoint c a) as [x a1] eqn:He. unfold AuthApp.handle.
  destruct c as [|[]| | | | |]; rewrite ?He; intros [= <- <-]; try (right; by exists x). by left.
Qed.

(** A refusal is no 200. *)
Definition refuses {A} (m : AppM A) : Prop :=
  forall a status_code e msg a', m a = (Err (AuthApiError status_code e msg), a') -> status_code <> 200%Z.
Lemma refuses_bind {A B} (m : AppM A) (f : A -> AppM B) : refuses m -> (forall x, refuses (f x)) -> refuses (m ≫= f).
Proof. intros Hm Hf a sc e msg a' H. st_inv H as x a1 H1; [by eapply Hf|by eapply Hm]. Qed.
Lemma refuses_service {A} (m : AuthM A) status_code e : status_code <> 200%Z -> refuses (service (as_status status_code e) m).
Proof. intros Hs a sc e' msg a' ([x|[]] & _ & Hx & _)%service_inv; try done. by injection Hx as -> _ _. Qed.
Lemma refuses_uncaught {A} (m : AuthM A) : refuses (service Uncaught m).
Proof. by intros a sc e msg a' ([x|x] & _ & Hx & _)%service_inv. Qed.
Lemma refuses_ret {A} (x : A) : refuses (mret x).
Proof. done. Qed.
Lemma refuses_context h now : refuses (context_of_header h now).
Proof. unfold get_auth_context. destruct (bearer_token h); [by apply refuses_service|by intros a sc e msg a' [= <- _ _ _]]. Qed.
Lemma endpoint_refuses c : refuses (endpoint c).
Proof.
  destruct c as [| |k ttl u now|h now|h act res now|h rq b12 b32 salt now|h payload now]; cbn [AuthApp.endpoint];
    try apply refuses_ret; try (apply refuses_bind; [apply refuses_context|intros cx]).
  - destruct (ttl_fits ttl); [|done]. intros a sc e msg a'. unfold issue_endpoint.
    destruct (service _ _ a) as [y a1] eqn:Hs. apply service_inv in Hs as (z & _ & -> & _). by destruct z as [r|[]]; intros [= <-].
  - apply refuses_ret.
  - apply refuses_bind; [apply refuses_uncaught|intros al]. by apply refuses_bind.
  - destruct (days_fit _); [|done]. apply refuses_bind; [by apply refuses_service|done].
  - unfold revoke_endpoint. apply refuses_bind; [|intros _; apply refuses_bind; [by apply refuses_service|done]].
    unfold guard_raise. destruct (str_empty _); [by intros a sc e msg a' [= <- _ _ _]|done].
Qed.
Lemma handle_200 c a r a' : handle c a = (r, a') -> code r = 200%Z -> exists j, endpoint c a = (Ok j, a') /\ content r = Some j.
Proof.
  intros [(_ & _ & Hr)|([j|[sc e m|e|]] & He & ->)]%handle_endpoint Hc; cbn in Hc; try done; [congruence|by exists j|].
  subst. by apply endpoint_refuses in He.
Qed.

(** *** The properties *)

(** C6: a call changes more than events, counts and times of last use only if it
    creates or revokes a key for the bearer of a token that verifies, at that
    time, to a context that may write keys; without one, it is not answered
    with 200. *)
Theorem api_writes_need_authority c a r a' : handle c a = (r, a') ->
  match writes c with
  | Some (h, now) => authorized h now \/ (unchanged (db a) (db a') /\ code r <> 200%Z)
  | None => unchanged (db a) (db a')
  end.
Proof.
  intros H. destruct (handle_endpoint _ _ _ _ H) as [(-> & -> & _)|(x & He & ->)]; [done|].
  destruct (endpoint_spec _ _ _ _ He) as [_ Hw]. destruct (writes c) as [[h now]|]; [|done].
  destruct Hw as [?|[Hu Hx]]; [by left|right]. split; [done|]. intros Hc.
  destruct (handle_200 _ _ _ _ H Hc) as (j & He' & _). rewrite He in He'. by injection He' as ->.
Qed.

(** The state after some calls. *)
Definition serve (l : list Call) (a : App) : App := foldl (fun a c => (handle c a).2) a l.
Lemma serve_steps l : forall a, rtc step (db a) (db (serve l a)).
Proof.
  induction l as [|c l IH]; intros a; [apply rtc_refl|]. cbn. etransitivity; [|apply IH].
  destruct (handle c a) as [r a'] eqn:H. cbn.
  destruct (handle_endpoint _ _ _ _ H) as [(_ & -> & _)|(x & He & _)]; [apply rtc_refl|by destruct (endpoint_spec _ _ _ _ He)].
Qed.

(** C5: once a revocation was answered with success, no later request for a
    token over that key, whatever was served in between, is answered with 200. *)
Theorem api_revocation_is_final h payload now a r a1 later api_key secret ttl uuid4 now' :
  handle (RevokeApiKey h payload now) a = (r, a1) -> code r = 200%Z -> content r = Some (JDict [("revoked", JBool true)]) ->
  parse_api_key api_key = Ok (identifier_of repr payload, secret) ->
  code (handle (IssueToken api_key ttl uuid4 now') (serve later a1)).1 <> 200%Z.
Proof.
  intros H Hc Hr Hk. destruct (handle_200 _ _ _ _ H Hc) as (j & He & Hj). rewrite Hr in Hj. injection Hj as <-.
  assert (Hrev : revoked_in (identifier_of repr payload) (db a1)).
  { cbn [AuthApp.endpoint] in He. st_inv He as cx a2 H1. unfold revoke_endpoint in He. rewrite guard_raise_bind in He.
    destruct (str_empty _); [done|]. st_inv He as b a3 H2. injection He as Hb ->. subst b.
    apply service_inv in H2 as ([b|e] & Hz & Hx & _); [|done]. injection Hx as <-. by eapply revocation_revokes. }
  assert (Hrev' : revoked_in (identifier_of repr payload) (db (serve later a1))).
  { pose proof (serve_steps later a1) as Hs. induction Hs as [|x y z Hxy _ IH]; [done|]. by eapply IH, revoked_step. }
  destruct (handle (IssueToken api_key ttl uuid4 now') (serve later a1)) as [r' a'] eqn:H'. cbn [fst]. intros Hc'.
  destruct (handle_200 _ _ _ _ H' Hc') as (j & Hi & _). cbn [AuthApp.endpoint] in Hi.
  destruct (ttl_fits ttl); [|done]. unfold issue_endpoint in Hi. destruct (service _ _ _) as [y a2] eqn:Hs.
  apply service_inv in Hs as (z & Hz & -> & _).
  destruct (revoked_refused hmac_sha256 argon2_verify token_secret _ _ uuid4 _ _ now' ttl Hrev' Hk) as [e Herr].
  rewrite Hz in Herr. cbn in Herr. subst z. by destruct e.
Qed.
End Safety.

(** ** A concrete service *)

Definition toy_handle := handle toy_hmac toy_validate Some toy_hash toy_argon2 "k" (fun _ => "").
Definition toy_app : App := {| db := bot_db; auth_requests_total := [] |}.
Definition root_header : option string := Some ("Bearer " ++ sign_token toy_hmac "k"
  {| sub := "root"; typ := "ADMIN"; iat := 0; exp := 100; jti := "j0"; claim_permissions := ["auth:*"] |}).
Definition bot_payload : pydict string json := [("identifier", JStr (b64url_encode "id"))].

Lemma api_revocation_is_final_witness :
  code (toy_handle (IssueToken bot_key 300 "u1" 20) toy_app).1 = 200%Z /\
  let a1 := (toy_handle (RevokeApiKey root_header bot_payload 10) toy_app).2 in
  code (toy_handle (IssueToken bot_key 300 "u2" 30) (serve toy_hmac toy_validate Some toy_hash toy_argon2 "k" (fun _ => "")
    [VerifyToken root_header 11; CreateApiKey root_header bot_request "i2" "p2" "salt" 12] a1)).1 <> 200%Z.
Proof.
  split; [by vm_compute|]. intros a1. destruct (toy_handle (RevokeApiKey root_header bot_payload 10) toy_app) as [r a2] eqn:H.
  assert (Hr : r = reply 200 (JDict [("revoked", JBool true)])).
  { replace r with (toy_handle (RevokeApiKey root_header bot_payload 10) toy_app).1 by by rewrite H. by vm_compute. }
  subst r a1. apply (api_revocation_is_final toy_hmac toy_validate Some toy_hash toy_argon2 "k" (fun _ => "")
    root_header bot_payload 10 toy_app _ a2 _ bot_key (b64url_encode "pw") 300 "u2" 30 H); by vm_compute.
Defined.
Lemma api_writes_need_authority_witness :
  let c := RevokeApiKey (Some "Bearer forged") bot_payload 10 in
  code (toy_handle c toy_app).1 = 401%Z /\ (authorized toy_hmac toy_validate Some "k" (Some "Bearer forged") 10 \/
    (unchanged bot_db (db (toy_handle c toy_app).2) /\ code (toy_handle c toy_app).1 <> 200%Z)).
Proof.
  intros c. split; [by vm_compute|]. destruct (toy_handle c toy_app) as [r a'] eqn:H.
  exact (api_writes_need_authority toy_hmac toy_validate Some toy_hash toy_argon2 "k" (fun _ => "") c toy_app r a' H).
Defined.

(** A token that is no base 64 is no refusal: the error is not caught. *)
Lemma malformed_token_is_500 :
  toy_handle (VerifyToken (Some ("Bearer " ++ TOKEN_VERSION ++ ".x.y")) 10) toy_app = (InternalServerError, toy_app).
Proof. by vm_compute. Qed.
