(* ===== verification/ApiFramework.v ===== *)
(** The API framework: [app.py] of apexquant-api-framework.

    Starlette's layers from the outside: the handler of unhandled exceptions,
    the middleware, the handlers of HTTP and validation errors, the router.
    What the router makes of a request that is none of the four built-in ones
    (the routes of [extra_router] included) is a parameter. *)
From stdpp Require Import base strings list pretty sets.
From S2P Require Import Prelude PyStr Json Http.

#[local] Open Scope string_scope.

Record ApiInfo := { service_name : string; service_version : string; environment : string; plane : string; description : string }.
Record Request := { method : string; path : string; x_request_id : option string }.
(** A response with its headers; header names are in lower case. *)
Record Reply := { response : Response; headers : pydict string string }.
Inductive Outcome :=
| Responded (r : Reply) | HTTPException (status_code : Z) (detail : string) | RequestValidationError | Raised (e : string).
Notation Counts := (pydict (string * string * string) nat).

Section Api.
Context (info : ApiInfo) (exposition : Counts -> string) (router : Request -> Outcome).

Definition api_info : json :=
  JDict [("service_name", JStr (service_name info)); ("service_version", JStr (service_version info));
         ("environment", JStr (environment info)); ("plane", JStr (plane info)); ("api_version", JStr "v1");
         ("description", JStr (description info))].
Definition plain_reply (r : Response) : Outcome := Responded {| response := r; headers := [("content-type", "application/json")] |}.
(** The bytes of [metrics] become a JSON string. *)
Definition route (counts : Counts) (r : Request) : Outcome :=
  if negb (method r =? "GET") then router r
  else if path r =? "/healthz" then plain_reply (reply 200 (JDict [("status", JStr "ok")]))
  else if path r =? "/readyz" then plain_reply (reply 200 (JDict [("ready", JBool true)]))
  else if path r =? "/metrics" then plain_reply (reply 200 (JStr (exposition counts)))
  else if path r =? "/v1/api/info" then plain_reply (reply 200 api_info)
  else router r.

Definition http_exception_handler (request_id : string) (status_code : Z) (detail : string) : Reply :=
  {| response := error_reply status_code "HTTP_ERROR" detail; headers := [("x-request-id", request_id); ("content-type", "application/json")] |}.
Definition validation_exception_handler (request_id : string) : Reply :=
  {| response := error_reply 422 "VALIDATION_ERROR" "request validation failed";
     headers := [("x-request-id", request_id); ("content-type", "application/json")] |}.
Definition unhandled_exception_handler (request_id : string) : Reply :=
  {| response := error_reply 500 "INTERNAL_ERROR" "internal server error";
     headers := [("x-request-id", request_id); ("content-type", "application/json")] |}.

(** [call_next] of the middleware: the inner layers. *)
Definition call_next (request_id : string) (counts : Counts) (r : Request) : result string Reply :=
  match route counts r with
  | Responded x => Ok x
  | HTTPException status_code detail => Ok (http_exception_handler request_id status_code detail)
  | RequestValidationError => Ok (validation_exception_handler request_id)
  | Raised e => Err e
  end.
Definition request_id_of (r : Request) (uuid4 : string) : string :=
  match x_request_id r with Some x => if str_empty x then uuid4 else x | None => uuid4 end.
Definition service_headers : list (string * string) :=
  [("x-apex-service", service_name info); ("x-apex-plane", plane info); ("x-apex-environment", environment info);
   ("x-apex-version", service_version info)].
Definition set_headers (l : list (string * string)) (h : pydict string string) : pydict string string :=
  foldl (fun h '(k, v) => dict_set k v h) h l.
Definition api_context_middleware (uuid4 : string) (r : Request) : st Counts string Reply := fun counts =>
  let request_id := request_id_of r uuid4 in
  match call_next request_id counts r with
  | Err e => (Err e, counts)
  | Ok x =>
      (Ok {| response := response x; headers := set_headers (("x-request-id", request_id) :: service_headers) (headers x) |},
       inc (method r, path r, pretty (code (response x))) counts)
  end.
(** The whole application: the answer, and the exception that goes on to the
    server. *)
Definition create_api_app (uuid4 : string) (r : Request) (counts : Counts) : Reply * option string * Counts :=
  match api_context_middleware uuid4 r counts with
  | (Ok x, counts') => (x, None, counts')
  | (Err e, counts') => (unhandled_exception_handler (request_id_of r uuid4), Some e, counts')
  end.
End Api.

(** ** What a client sees *)

Lemma set_headers_get l : forall h k, NoDup l.*1 ->
  dict_get k (set_headers l h) = match dict_get k l with Some v => Some v | None => dict_get k h end.
Proof.
  induction l as [|[k0 v0] l IH]; intros h k Hn; [done|]. cbn [fmap list_fmap fst] in Hn. apply list.NoDup_cons in Hn as [Hk Hn].
  unfold set_headers in *. cbn [foldl]. rewrite IH by done. cbn [dict_get]. case_decide as Hd.
  - subst k0. rewrite dict_get_set_eq. assert (Hnone : dict_get k l = None); [|by rewrite Hnone].
    clear -Hk. induction l as [|[k1 v1] l IH]; [done|]. cbn in Hk |- *. apply not_elem_of_cons in Hk as [Hne Hk].
    rewrite decide_False by done. by apply IH.
  - by rewrite dict_get_set_ne by done.
Qed.

(** Every answer carries the identifier of its request; an answer that no
    exception of the service made also carries the headers of the service and
    is counted, once, under its status; the other is the 500 of the outermost
    handler, which neither counts nor names the service. *)
Lemma answer_identified info exposition router uuid4 r counts :
  let '(x, raised, counts') := create_api_app info exposition router uuid4 r counts in
  dict_get "x-request-id" (headers x) = Some (request_id_of r uuid4) /\
  match raised with
  | None => Forall (fun '(k, v) => dict_get k (headers x) = Some v) (service_headers info) /\
            (forall k, count_of k counts' = if decide (k = (method r, path r, pretty (code (response x)))) then S (count_of k counts) else count_of k counts)
  | Some e => route info exposition router counts r = Raised e /\ code (response x) = 500%Z /\ counts' = counts /\
              Forall (fun '(k, v) => dict_get k (headers x) = None) (service_headers info)
  end.
Proof.
  unfold create_api_app, api_context_middleware, call_next.
  assert (Hset : forall h k, dict_get k (set_headers (("x-request-id", request_id_of r uuid4) :: service_headers info) h) =
    match dict_get k (("x-request-id", request_id_of r uuid4) :: service_headers info) with Some v => Some v | None => dict_get k h end).
  { intros h k. apply set_headers_get. unfold service_headers. cbn. repeat (apply list.NoDup_cons; split; [set_solver|]). apply NoDup_nil_2. }
  assert (Hone : forall x : Reply, let y := {| response := response x; headers := set_headers (("x-request-id", request_id_of r uuid4) :: service_headers info) (headers x) |} in
    dict_get "x-request-id" (headers y) = Some (request_id_of r uuid4) /\
    Forall (fun '(k, v) => dict_get k (headers y) = Some v) (service_headers info)).
  { intros x. cbn [headers]. split; [by rewrite Hset|]. unfold service_headers at 2. repeat (apply list.Forall_cons; split; [by rewrite Hset|]). done. }
  destruct (route _ _ _ counts r) as [x|sc d| |e] eqn:Hr.
  1: pose proof (Hone x) as [H1 H2].
  2: pose proof (Hone (http_exception_handler (request_id_of r uuid4) sc d)) as [H1 H2].
  3: pose proof (Hone (validation_exception_handler (request_id_of r uuid4))) as [H1 H2].
  1-3: split_and!; [exact H1|exact H2|intros k; by rewrite count_inc].
  split_and!; try done. unfold service_headers. by repeat constructor.
Qed.
