(* ===== verification/VersioningApp.v ===== *)
(** The HTTP service of apexquant-service-versioning: [app.py], over the service
    of [Versioning] and any repository.

    A call is a request as the router matched it, its body decoded.  The
    middleware counts the answers that reach it; an exception that no handler
    takes passes it by and ends in a plain 500. *)
From stdpp Require Import base strings list gmap pretty numbers.
From Stdlib Require Import Ascii.
From S2P Require Import Prelude PyStr SemVer Versioning VersioningStore VersioningProps Http.

#[local] Open Scope string_scope.

(** ** The request models *)

Record ReleaseRequest := { rr_git_sha : string; rr_image_tag : string; rr_checksum_sha256 : string; rr_actor : string; rr_reason : string }.
Record ActorRequest := { ar_actor : string; ar_reason : string }.
Definition longer (n : nat) (s : string) : bool := (n <=? String.length s)%nat.
Definition service_fits (p : ServiceCreate) : bool := service_name_format (sc_service_name p) && longer 1 (sc_plane p).
Definition dependency_fits (d : DependencySpec) : bool := service_name_format (ds_service_name d) && longer 5 (ds_min_version d).
Definition version_fits (p : VersionCreate) : bool :=
  longer 5 (vc_version p) && opt_test git_sha_format (vc_git_sha p) && forallb dependency_fits (vc_dependencies p).
Definition release_fits (p : ReleaseRequest) : bool :=
  git_sha_format (rr_git_sha p) && longer 1 (rr_image_tag p) && checksum_format (rr_checksum_sha256 p) && longer 1 (rr_actor p).
Definition actor_fits (p : ActorRequest) : bool := longer 1 (ar_actor p).

(** ** The routes *)

Inductive Call :=
| Healthz | Readyz (database_answers : bool)
| RegisterService (payload : ServiceCreate) | ListServices
| CreateVersion (service_name : string) (payload : VersionCreate) | ListVersions (service_name : string)
| GetVersion (service_name version : string)
| ReleaseVersion (service_name version : string) (payload : ReleaseRequest)
| DeprecateVersion (service_name version : string) (payload : ActorRequest)
| RetireVersion (service_name version : string) (payload : ActorRequest)
| CheckCompatibility (service_name version : string).

Definition versions_path (n : string) : string := "/v1/services/" ++ n ++ "/versions".
Definition version_path (n v : string) : string := versions_path n ++ "/" ++ v.
Definition route (c : Call) : string * string :=
  match c with
  | Healthz => ("GET", "/healthz") | Readyz _ => ("GET", "/readyz")
  | RegisterService _ => ("POST", "/v1/services") | ListServices => ("GET", "/v1/services")
  | CreateVersion n _ => ("POST", versions_path n) | ListVersions n => ("GET", versions_path n)
  | GetVersion n v => ("GET", version_path n v)
  | ReleaseVersion n v _ => ("POST", version_path n v ++ "/release")
  | DeprecateVersion n v _ => ("POST", version_path n v ++ "/deprecate")
  | RetireVersion n v _ => ("POST", version_path n v ++ "/retire")
  | CheckCompatibility n v => ("GET", version_path n v ++ "/compatibility")
  end.
Definition fits (c : Call) : bool :=
  match c with
  | RegisterService p => service_fits p
  | CreateVersion _ p => version_fits p
  | ReleaseVersion _ _ p => release_fits p
  | DeprecateVersion _ _ p | RetireVersion _ _ p => actor_fits p
  | _ => true
  end.
Definition success_code (c : Call) : Z :=
  match c with RegisterService _ | CreateVersion _ _ => 201 | _ => 200 end.

(** ** What is answered *)

Section App.
Context {R : Type} `{VersionRepository R} (iso : Z -> string).

Definition opt_str (o : option string) : json := match o with Some s => JStr s | None => JNull end.
Definition opt_time (o : option Z) : json := match o with Some t => JStr (iso t) | None => JNull end.
Definition service_json (i : ServiceInfo) : json :=
  JDict [("service_name", JStr (si_service_name i)); ("plane", JStr (si_plane i)); ("description", JStr (si_description i));
         ("created_at", JStr (iso (si_created_at i))); ("updated_at", JStr (iso (si_updated_at i)))].
Definition dependency_json (d : DependencySpec) : json :=
  JDict [("service_name", JStr (ds_service_name d)); ("min_version", JStr (ds_min_version d))].
Definition version_json (v : ServiceVersion) : json :=
  JDict [("version_id", JStr (sv_version_id v)); ("service_name", JStr (sv_service_name v)); ("version", JStr (sv_version v));
         ("status", JStr (status_value (sv_status v))); ("git_sha", opt_str (sv_git_sha v)); ("image_tag", opt_str (sv_image_tag v));
         ("api_version", JStr (sv_api_version v)); ("min_compatible_version", opt_str (sv_min_compatible_version v));
         ("checksum_sha256", opt_str (sv_checksum_sha256 v)); ("metadata", sv_metadata v); ("created_at", JStr (iso (sv_created_at v)));
         ("released_at", opt_time (sv_released_at v)); ("deprecated_at", opt_time (sv_deprecated_at v));
         ("retired_at", opt_time (sv_retired_at v)); ("dependencies", JList (map dependency_json (sv_dependencies v)))].
Definition report_json (r : CompatibilityReport) : json :=
  JDict [("service_name", JStr (cr_service_name r)); ("version", JStr (cr_version r)); ("ok", JBool (cr_ok r));
         ("dependencies", JList (map (fun d => JDict [("service_name", JStr (cdr_service_name d)); ("min_version", JStr (cdr_min_version d));
            ("resolved_version", opt_str (cdr_resolved_version d)); ("compatible", JBool (cdr_compatible d)); ("reason", JStr (cdr_reason d))])
            (cr_dependencies r)))].

Definition shown {A} (f : A -> json) (m : st R exc A) : st R exc json := x ← m; mret (f x).
(** The functions of the routes. *)
Definition endpoint (c : Call) : st R exc json :=
  match c with
  | Healthz => mret (JDict [("status", JStr "ok")])
  | Readyz _ => mret (JDict [("ready", JBool true)])
  | RegisterService p => shown service_json (register_service p)
  | ListServices => shown (fun l => JList (map service_json l)) service_list_services
  | CreateVersion n p => shown version_json (create_version n p)
  | ListVersions n => shown (fun l => JList (map version_json l)) (list_versions n)
  | GetVersion n v => shown version_json (get_version n v)
  | ReleaseVersion n v p =>
      shown version_json (release_version n v (rr_git_sha p) (rr_image_tag p) (rr_checksum_sha256 p) (rr_actor p) (rr_reason p))
  | DeprecateVersion n v p => shown version_json (deprecate_version n v (ar_actor p) (ar_reason p))
  | RetireVersion n v p => shown version_json (retire_version n v (ar_actor p) (ar_reason p))
  | CheckCompatibility n v => shown report_json (check_compatibility n v)
  end.
Definition versioning_error_handler (e : VersioningError) : Response :=
  error_reply (err_status_code e) (err_code e) (err_message e).
(** What [call_next] of the middleware answers or raises. *)
Definition inner (database : bool) (c : Call) (s : R) : result exc Response * R :=
  if negb (fits c) then (Ok Unprocessable, s)
  else match c with
  | Readyz false => (Ok (if database then reply 503 (JDict [("ready", JBool false)]) else reply 200 (JDict [("ready", JBool true)])), s)
  | _ =>
      match endpoint c s with
      | (Ok j, s') => (Ok (reply (success_code c) j), s')
      | (Err (EVersioning e), s') => (Ok (versioning_error_handler e), s')
      | (Err e, s') => (Err e, s')
      end
  end.
Notation Counts := (pydict (string * string * string) nat).
Definition metrics_middleware (database : bool) (c : Call) : st (R * Counts) exc Response := fun '(s, counts) =>
  match inner database c s with
  | (Ok r, s') => (Ok r, (s', inc (route c, pretty (code r)) counts))
  | (Err e, s') => (Err e, (s', counts))
  end.
Definition handle (database : bool) (c : Call) (a : R * Counts) : Response * (R * Counts) :=
  match metrics_middleware database c a with
  | (Ok r, a') => (r, a')
  | (Err _, a') => (InternalServerError, a')
  end.
End App.

(** ** The API is the abstract machine *)

(** The command of a call that changes the store. *)
Definition command_of (c : Call) : option command :=
  match c with
  | RegisterService p => Some (CRegister p)
  | CreateVersion n p => Some (CCreate n p)
  | ReleaseVersion n v p => Some (CRelease n v (rr_git_sha p) (rr_image_tag p) (rr_checksum_sha256 p) (rr_actor p) (rr_reason p))
  | DeprecateVersion n v p => Some (CDeprecate n v (ar_actor p) (ar_reason p))
  | RetireVersion n v p => Some (CRetire n v (ar_actor p) (ar_reason p))
  | _ => None
  end.
Definition answer_json (iso : Z -> string) (a : ServiceInfo + ServiceVersion) : json :=
  match a with inl i => service_json iso i | inr v => version_json iso v end.

Section Refinement.
Context (utc_now : nat -> Z) (uuid4 : nat -> string) (uuid4_inj : Inj (=) (=) uuid4) (iso : Z -> string).
Context {R : Type} `{HR : VersionRepository R} (HL : VersionRepositoryLaws utc_now uuid4 R).
Notation abs := (@VersioningStore.abs utc_now uuid4 R HR HL).
Notation repo_inv := (@VersioningStore.repo_inv utc_now uuid4 R HR HL).
Notation stored := (@VersioningStore.stored utc_now uuid4 R HR HL).

Lemma endpoint_command c cmd s : command_of c = Some cmd ->
  endpoint iso c s = match run_command cmd s with (Ok a, s') => (Ok (answer_json iso a), s') | (Err e, s') => (Err e, s') end.
Proof.
  destruct c; intros [= <-]; cbn [endpoint run_command]; unfold shown, mbind, st_bind;
    match goal with |- context [match ?m s with _ => _ end] => by destruct (m s) as [[x|e] s'] end.
Qed.

(** The machine raises what the service names only. *)
Lemma spec_dependencies_err n l : forall seen services e, spec_dependencies n seen services l = Err e -> exists v, e = EVersioning v.
Proof.
  induction l as [|d l IH]; intros seen services e; cbn [spec_dependencies]; [done|].
  case_decide; [intros [= <-]; by eexists|]. case_decide; [intros [= <-]; by eexists|].
  destruct (services !! _); [|intros [= <-]; by eexists]. destruct (parse _); [|intros [= <-]; by eexists].
  cbn. destruct (spec_dependencies _ _ _ l) eqn:Hl; [done|]. intros [= <-]. by eapply IH.
Qed.
Lemma spec_command_err cmd st e st' : vs_wf uuid4 st -> spec_command utc_now uuid4 stored cmd st = (Err e, st') ->
  st' = st /\ exists v, e = EVersioning v.
Proof.
  intros Hw. destruct cmd as [p|n p|n v sha img chk actor reason|n v actor reason|n v actor reason]; cbn [spec_command].
  - by destruct (vs_upsert _ _ _ _ _).
  - unfold spec_create. destruct (vs_services st !! n); [|intros [= <- <-]; eauto]. destruct (parse (vc_version p)); [|intros [= <- <-]; eauto].
    destruct (match vc_min_compatible_version p with Some _ => _ | None => _ end); [intros [= <- <-]; eauto|].
    destruct (vs_versions st !! _); [intros [= <- <-]; eauto|]. destruct (spec_dependencies _ _ _ _) eqn:Hd; [done|].
    intros [= <- <-]. split; [done|]. by eapply spec_dependencies_err.
  - unfold spec_release. destruct (vs_versions st !! (n, v)) as [r|] eqn:Hr; [|intros [= <- <-]; eauto].
    case_decide; [|intros [= <- <-]; eauto]. destruct (record_wf_parse _ (wf_record _ _ Hw _ _ _ Hr)) as [sem Hp].
    pose proof (wf_key _ _ Hw _ _ _ Hr) as Hk. injection Hk as _ Hv. rewrite Hv in Hp. rewrite Hp.
    destruct (is_stable sem); [done|]. intros [= <- <-]. eauto.
  - unfold spec_status. destruct (vs_versions st !! (n, v)); [|intros [= <- <-]; eauto]. case_decide; [done|intros [= <- <-]; eauto].
  - unfold spec_status. destruct (vs_versions st !! (n, v)); [|intros [= <- <-]; eauto]. case_decide; [done|intros [= <- <-]; eauto].
Qed.

(** The calls that read, in a well-formed store: they leave it, and fail only
    with an error the service names. *)
Definition reads {A} (m : st R exc A) (s : R) : Prop :=
  exists a, m s = (a, s) /\ forall e, a = Err e -> exists v, e = EVersioning v.

Lemma reads_shown {A} (g : A -> json) m s : reads m s -> reads (shown g m) s.
Proof.
  intros ([x|e] & Hm & He); unfold reads, shown, mbind, st_bind; rewrite Hm; eexists; split; try done.
  intros e' [= <-]. by apply He.
Qed.
Lemma reads_get_version n v s : repo_inv s -> reads (get_version n v) s.
Proof.
  intros Hs. destruct (vs_versions (abs s) !! (n, v)) as [r|] eqn:Hr.
  - destruct (get_version_Some utc_now uuid4 HL n v r s Hs Hr) as (deps & Hg & _). eexists. by split.
  - eexists. split; [exact (get_version_None utc_now uuid4 HL n v s Hs Hr)|]. intros e [= <-]. by eexists.
Qed.
Lemma reads_map_st {A B} (f : A -> st R exc B) l s : (forall x, reads (f x) s) -> reads (map_st f l) s.
Proof.
  intros Hf. induction l as [|x l (a & Hl & He)]; [by eexists|]. cbn [map_st].
  destruct (Hf x) as ([y|e] & Hx & Hxe).
  - unfold reads, mbind, st_bind. rewrite Hx, Hl. destruct a as [ys|e]; [by eexists|].
    eexists. split; [done|]. intros e' [= <-]. by apply He.
  - unfold reads, mbind, st_bind. rewrite Hx. eexists. split; [done|]. intros e' [= <-]. by apply Hxe.
Qed.
Lemma reads_list_versions n s : repo_inv s -> reads (list_versions n) s.
Proof.
  intros Hs. unfold list_versions, reads. run (law_get_service utc_now uuid4 n s Hs).
  destruct (vs_services (abs s) !! n).
  - destruct (law_list_versions utc_now uuid4 n s Hs) as (l & Hl & _). run Hl.
    apply (reads_map_st (fun r => get_version n (vr_version r))). intros r. by apply reads_get_version.
  - eexists. split; [done|]. intros e [= <-]. by eexists.
Qed.
Lemma reads_compatibility n v s : repo_inv s -> vs_wf uuid4 (abs s) -> reads (check_compatibility n v) s.
Proof.
  intros Hs Hw. unfold check_compatibility, reads. destruct (vs_versions (abs s) !! (n, v)) as [r|] eqn:Hr.
  2:{ run_err (get_version_None utc_now uuid4 HL n v s Hs Hr). eexists. split; [done|]. intros e [= <-]. by eexists. }
  destruct (get_version_Some utc_now uuid4 HL n v r s Hs Hr) as (deps & Hg & Hp). run Hg.
  rewrite guard_unless_bind. simpl. case_decide; [|eexists; split; [done|]; intros e [= <-]; by eexists].
  destruct (dependency_reports_spec utc_now uuid4 HL deps s Hs Hw) as (cs & Hcs & _).
  { intros d Hin. rewrite Hp in Hin. destruct (vs_dependencies (abs s) !! vr_version_id r) as [k|] eqn:Hk;
      [|by apply elem_of_nil in Hin]. by eapply (wf_deps _ _ Hw). }
  run Hcs. by eexists.
Qed.
Lemma endpoint_reads c s : command_of c = None -> repo_inv s -> vs_wf uuid4 (abs s) -> reads (endpoint iso c) s.
Proof.
  intros Hc Hs Hw. destruct c; try discriminate Hc; cbn [endpoint].
  - by eexists.
  - by eexists.
  - apply reads_shown. destruct (law_list_services utc_now uuid4 s Hs) as (l & Hl & _). eexists. by split.
  - by apply reads_shown, reads_list_versions.
  - by apply reads_shown, reads_get_version.
  - by apply reads_shown, reads_compatibility.
Qed.

(** What the answer of an error the service names is. *)
Definition named_error (resp : Response) : Prop :=
  exists v, resp = error_reply (err_status_code v) (err_code v) (err_message v).

Lemma inner_reads database c s : fits c = true -> command_of c = None -> repo_inv s -> vs_wf uuid4 (abs s) ->
  exists resp, inner iso database c s = (Ok resp, s) /\
    ((exists j, resp = reply 200 j) \/ resp = reply 503 (JDict [("ready", JBool false)]) \/ named_error resp).
Proof.
  intros Hf Hc Hs Hw. destruct (endpoint_reads c s Hc Hs Hw) as (a & He & Hn). unfold inner. rewrite Hf. cbn [negb].
  assert (Hrest : exists resp, (match endpoint iso c s with
      | (Ok j, s') => (Ok (reply (success_code c) j), s') | (Err (EVersioning e), s') => (Ok (versioning_error_handler e), s')
      | (Err e, s') => (Err e, s') end) = (Ok resp, s) /\
      ((exists j, resp = reply 200 j) \/ resp = reply 503 (JDict [("ready", JBool false)]) \/ named_error resp)).
  { rewrite He. destruct a as [j|e].
    - eexists. split; [done|]. left. exists j. by destruct c.
    - destruct (Hn e eq_refl) as [v ->]. eexists. split; [done|]. right. right. by exists v. }
  destruct c; try discriminate Hc; try exact Hrest. destruct database_answers; [exact Hrest|].
  destruct database; eexists; (split; [done|]); eauto.
Qed.

(** C39: over any lawful repository in a well-formed state, every call is
    accounted for.  A body outside the request models gets 422; a call that
    reads leaves the store as it is and answers 200, 503 for a database that is
    not ready, or an error the service names; a call that writes, its arguments
    taken by the columns ([valid_command]: an actor of blanks is not), is the
    step of the abstract machine: on success it answers the status of the route
    with the row the machine has, on an error its status and message, the store
    untouched.  None ends in a 500, the store stays well formed, and each
    answer is counted once, under its status. *)
Theorem api_refines_machine database c s counts :
  (forall cmd, fits c = true -> command_of c = Some cmd -> valid_command stored cmd = true) ->
  repo_inv s -> vs_wf uuid4 (abs s) ->
  let '(resp, (s', counts')) := handle iso database c (s, counts) in
  repo_inv s' /\ vs_wf uuid4 (abs s') /\
  (forall k, count_of k counts' = if decide (k = (route c, pretty (code resp))) then S (count_of k counts) else count_of k counts) /\
  if negb (fits c) then resp = Unprocessable /\ s' = s
  else match command_of c with
  | None => s' = s /\
      ((exists j, resp = reply 200 j) \/ resp = reply 503 (JDict [("ready", JBool false)]) \/ named_error resp)
  | Some cmd =>
      let q := spec_command utc_now uuid4 stored cmd (abs s) in
      abs s' = q.2 /\
      match q.1 with
      | Ok row => exists a, agree (abs s') (Ok a) (Ok row) /\ resp = reply (success_code c) (answer_json iso a)
      | Err e => abs s' = abs s /\
          exists v, e = EVersioning v /\ resp = error_reply (err_status_code v) (err_code v) (err_message v)
      end
  end.
Proof.
  intros Hv Hs Hw. unfold handle, metrics_middleware. destruct (fits c) eqn:Hf; cbn [negb].
  2:{ unfold inner. rewrite Hf. cbn [negb]. split_and!; [done..|intros k; by rewrite count_inc|done|done]. }
  destruct (command_of c) as [cmd|] eqn:Hc.
  2:{ destruct (inner_reads database c s Hf Hc Hs Hw) as (resp & -> & Hr).
      split_and!; [done..|intros k; by rewrite count_inc|done|done]. }
  destruct (command_refines utc_now uuid4 HL cmd s Hs (Hv cmd eq_refl eq_refl)) as (a & s' & Hrun & Hs' & Ha & Hag).
  pose proof (wf_command utc_now uuid4 uuid4_inj stored cmd (abs s) Hw) as Hw'. rewrite <- Ha in Hw'.
  assert (Hin : inner iso database c s = match endpoint iso c s with
    | (Ok j, s') => (Ok (reply (success_code c) j), s') | (Err (EVersioning e), s') => (Ok (versioning_error_handler e), s')
    | (Err e, s') => (Err e, s') end).
  { unfold inner. rewrite Hf. by destruct c. }
  rewrite Hin, (endpoint_command c cmd s Hc), Hrun.
  destruct (spec_command utc_now uuid4 stored cmd (abs s)) as [[row|e] st'] eqn:Hspec; cbn [fst snd] in *.
  - destruct a as [x|e]; [|by destruct row]. split_and!; [done..|intros k; by rewrite count_inc|done|]. by exists x.
  - destruct (spec_command_err _ _ _ _ Hw Hspec) as [-> [v ->]]. destruct a as [[]|e]; [done..|]. cbn in Hag. subst e.
    split_and!; [done..|intros k; by rewrite count_inc|done|done|]. by exists v.
Qed.
End Refinement.

Lemma api_refines_machine_witness :
  let c := ReleaseVersion "risk" "9.9.9" {| rr_git_sha := VersioningProps.sha; rr_image_tag := "t"; rr_checksum_sha256 := sum64; rr_actor := "ci"; rr_reason := "" |} in
  let '(resp, (s', _)) := @handle _ memory_ops (fun _ => "") true c (demo_store, []) in
  resp = error_reply 404 "NOT_FOUND" "version not found: 9.9.9" /\
  @abs clock counter _ memory_ops memory_laws s' = @abs clock counter _ memory_ops memory_laws demo_store.
Proof.
  intros c. destruct (reachable_wf clock counter counter_inj memory_laws demo_store demo_reachable) as [Hinv Hwf].
  pose proof (api_refines_machine clock counter counter_inj (fun _ => "") memory_laws true c demo_store []
    ltac:(by intros cmd _ [= <-]) Hinv Hwf) as H.
  assert (Hresp : (@handle _ memory_ops (fun _ => "") true c (demo_store, [])).1 = error_reply 404 "NOT_FOUND" "version not found: 9.9.9")
    by by vm_compute.
  destruct (handle _ _ _ _) as [resp [s' counts']]. cbn [fst] in Hresp. cbv zeta in H.
  replace (fits c) with true in H by done. cbn [negb command_of c] in H.
  match type of H with context [spec_command ?t ?u ?k ?cmd ?st] =>
    assert (Herr : (spec_command t u k cmd st).1 = Err (not_found "9.9.9")) by by vm_compute end.
  rewrite Herr in H. destruct H as (_ & _ & _ & _ & Hsame & _). by split.
Defined.

(** An answer of 500 is not counted: a plane of blanks fits the request model
    and breaks the check of the table. *)
Lemma blank_plane_is_500 :
  let c := RegisterService {| sc_service_name := "risk"; sc_plane := " "; sc_description := "" |} in
  fits c = true /\
  (@handle _ table_ops (fun _ => "") true c (pg_init, [])).1 = InternalServerError /\
  (@handle _ table_ops (fun _ => "") true c (pg_init, [])).2.2 = [].
Proof. by vm_compute. Qed.

(** An actor of blanks fits the request model too.  On PostgreSQL the change of
    status is committed before the insertion of its event breaks the check of
    the table: a 500, a version whose log has lost its last event, and a retry
    is refused because the status has moved. *)
Definition released_store : PostgresRepository := (@run_commands _ table_ops (take 5 demo) pg_init).2.
Definition blank_deprecation : Call := DeprecateVersion "risk" "1.2.0" {| ar_actor := " "; ar_reason := "" |}.
Lemma blank_actor_loses_event :
  let '(resp, (s', _)) := @handle _ table_ops (fun _ => "") true blank_deprecation (released_store, []) in
  fits blank_deprecation = true /\ resp = InternalServerError /\
  (vr_status <$> pg_versions released_store) = [RELEASED] /\ (vr_status <$> pg_versions s') = [DEPRECATED] /\
  pg_events s' = pg_events released_store /\
  code (@handle _ table_ops (fun _ => "") true (DeprecateVersion "risk" "1.2.0" {| ar_actor := "ci"; ar_reason := "" |}) (s', [])).1 = 409%Z.
Proof. by vm_compute. Qed.
