(* ===== verification/TestSupport.v ===== *)
(** The test runner and the helpers of tests: [models.py], [parser.py],
    [runner.py], [repository.py], [cli.py], [failure_modes.py], [failure.py],
    [clock.py] and [fakes.py] of apexquant-testing.

    A subprocess is a step on the file system that ends with a code and its
    output; the parser of XML gives an element tree; [float(text) * 1000] of a
    duration is a parameter. *)
From stdpp Require Import base strings list gmap pretty.
From Stdlib Require Import Ascii QArith.
From S2P Require Import Prelude PyStr Json PyPath.

#[local] Open Scope string_scope.
#[local] Open Scope nat_scope.

(** ** models.py *)

Inductive TestStatus := PASSED | FAILED | SKIPPED | ERROR.
#[export] Instance TestStatus_eq_dec : EqDecision TestStatus.
Proof. solve_decision. Defined.
Record TestCaseResult := {
  suite : string; name : string; status : TestStatus; duration_ms : Q; message : option string; details : json;
  failure_mode : option string
}.
Record TestRunReport := {
  environment : string; git_sha : option string; trigger : string; started_at : Z; completed_at : Z; ok : bool;
  total : nat; passed : nat; failed : nat; skipped : nat; errors : nat; coverage_pct : option Q; results : list TestCaseResult
}.
Definition with_status (s : TestStatus) (l : list TestCaseResult) : nat := length (filter (fun r => status r = s) l).
Definition from_results (l : list TestCaseResult) (environment : string) (git_sha : option string) (trigger : string)
    (started_at completed_at : Z) (coverage_pct : option Q) : TestRunReport :=
  {| environment := environment; git_sha := git_sha; trigger := trigger; started_at := started_at; completed_at := completed_at;
     ok := (with_status FAILED l =? 0) && (with_status ERROR l =? 0); total := length l; passed := with_status PASSED l;
     failed := with_status FAILED l; skipped := with_status SKIPPED l; errors := with_status ERROR l; coverage_pct := coverage_pct;
     results := l |}.

(** ** parser.py *)

(** An element of [xml.etree]: its tag, its attributes, its text, its children. *)
Inductive Element := El (tag : string) (attrib : pydict string string) (text : option string) (children : list Element).
Definition tag (e : Element) : string := match e with El t _ _ _ => t end.
Definition attribute (k : string) (e : Element) : option string := match e with El _ a _ _ => dict_get k a end.
Definition text (e : Element) : option string := match e with El _ _ t _ => t end.
Definition findall (t : string) (e : Element) : list Element :=
  match e with El _ _ _ l => filter (fun c => tag c = t) l end.
Definition find (t : string) (e : Element) : option Element := head (findall t e).

Inductive test_exc := Os (e : os_exc) | ParseError | BadFloat (text : string) | ValidationError | AttributeError (m : string) | Database (constraint : string).

Section Parser.
Context (parse_xml : string -> option Element) (milliseconds : string -> option Q).

(** [f"{...}" or "0"] of a missing or an empty attribute *)
Definition time_of (case : Element) : string :=
  match attribute "time" case with Some t => if str_empty t then "0" else t | None => "0" end.
Definition outcome_of (case : Element) : TestStatus * option string * json :=
  let found st e := (st, attribute "message" e, JDict [("text", JStr (default "" (text e)))]) in
  match find "failure" case, find "error" case, find "skipped" case with
  | Some e, _, _ => found FAILED e
  | None, Some e, _ => found ERROR e
  | None, None, Some e => found SKIPPED e
  | None, None, None => (PASSED, None, JDict [])
  end.
Definition case_result (suite_name : string) (case : Element) : result test_exc TestCaseResult :=
  match milliseconds (time_of case) with
  | None => Err (BadFloat (time_of case))
  | Some ms =>
      let '(st, m, d) := outcome_of case in
      if Qle_bool 0 ms
      then Ok {| suite := suite_name; name := default "unknown" (attribute "name" case); status := st; duration_ms := ms; message := m;
                 details := d; failure_mode := None |}
      else Err ValidationError
  end.
Definition suite_results (s : Element) : result test_exc (list TestCaseResult) :=
  map_result (case_result (default "unknown" (attribute "name" s))) (findall "testcase" s).
Definition parse_root (root : Element) : result test_exc (list TestCaseResult) :=
  l ← map_result suite_results
    (if tag root =? "testsuites" then findall "testsuite" root else if tag root =? "testsuite" then [root] else [])%string;
  Ok (concat l).
Definition parse_junit_file (path : Path) (fs : FileSystem) : result test_exc (list TestCaseResult) :=
  if negb (path_exists path fs) then Ok []
  else
    b ← map_err Os (read_bytes path fs);
    match parse_xml b with None => Err ParseError | Some root => parse_root root end.

(** ** runner.py *)

Record Completed := { returncode : Z; stdout : string; stderr : string }.
Context (executable : string) (working_directory : Path).
Context (run : list string -> Path -> st FileSystem os_exc Completed).
Notation RunM := (st FileSystem test_exc).
Definition os {A} (m : st FileSystem os_exc A) : RunM A := fun fs => let '(x, fs') := m fs in (map_err Os x, fs').

Definition resolve (p : Path) : Path := path_join working_directory p.
Definition build_pytest_command (package_dir junit_path : Path) (coverage : bool) (extra_args : list string) : list string :=
  ([executable; "-m"; "pytest"; path_str package_dir; ("--junitxml=" ++ path_str junit_path)%string; "-q"]
   ++ (if coverage then ["--cov"; "--cov-report=xml"] else []) ++ extra_args)%list.
(** An empty crate is none. *)
Definition named (crate : option string) : option string := match crate with Some c => if str_empty c then None else Some c | None => None end.
Definition build_cargo_command (crate : option string) (extra_args : list string) : list string :=
  (["cargo"; "test"] ++ match named crate with Some c => ["--package"; c] | None => ["--workspace"] end ++ extra_args)%list.

(** [(stdout or stderr)[-2000:]] *)
Definition tail_2000 (s : string) : string := String.substring (String.length s - 2000) 2000 s.
Definition output_tail (c : Completed) : string := tail_2000 (if str_empty (stdout c) then stderr c else stdout c).
Definition run_result (suite_name case_name : string) (command : list string) (c : Completed) : TestCaseResult :=
  {| suite := suite_name; name := case_name; status := if (returncode c =? 0)%Z then PASSED else ERROR; duration_ms := 0;
     message := Some (output_tail c);
     details := JDict [("returncode", JNum (returncode c)); ("command", JList (map JStr command))]; failure_mode := None |}.
Definition junit_of (package_dir output_dir : Path) : Path := path_div output_dir (path_name package_dir ++ "-junit.xml").

Definition run_python_tests (package output : Path) (coverage : bool) (extra_args : list string) : RunM (list TestCaseResult) :=
  let package_dir := resolve package in
  let output_dir := resolve output in
  os (mkdir_parents output_dir) ≫= fun _ =>
  let junit_path := junit_of package_dir output_dir in
  let command := build_pytest_command package_dir junit_path coverage extra_args in
  completed ← os (run command package_dir);
  fs ← get_state;
  found ← lift (parse_junit_file junit_path fs);
  mret (match found with [] => [run_result (path_name package_dir) "pytest" command completed] | _ => found end).
Definition run_rust_tests (output : Path) (crate : option string) : RunM (list TestCaseResult) :=
  os (mkdir_parents (resolve output)) ≫= fun _ =>
  let command := build_cargo_command crate [] in
  completed ← os (run command working_directory);
  mret [run_result "rust" (match crate with Some c => "cargo-test:" ++ c | None => "cargo-test" end)%string command completed].

Definition discover_python_packages (root : Path) (fs : FileSystem) : list Path :=
  let python_root := path_div (resolve root) "python" in
  if negb (path_exists python_root fs) then []
  else filter (fun p => path_exists (path_div p "tests") fs = true)
         (filter (fun p => path_exists (path_div p "pyproject.toml") fs = true)
            (map (fun n => (python_root.1, (python_root.2 ++ [n])%list)) (iterdir python_root fs))).

(** [git_sha]: the output of git, or none on any error *)
Definition run_all (git_head : option string) (now1 now2 : Z) (python_packages : list Path) (rust_enabled : bool)
    (rust_crate : option string) (output_dir : Path) (environment trigger : string) (coverage : bool) : RunM TestRunReport :=
  python ← map_st (fun p => run_python_tests p output_dir coverage []) python_packages;
  rust ← (if rust_enabled then run_rust_tests output_dir rust_crate else mret []);
  mret (from_results (concat python ++ rust) environment (strip <$> git_head) trigger now1 now2 None).
End Parser.

(** ** repository.py *)

Record RunRow := { run_id : Z; run_report : TestRunReport }.
Record Db := { test_runs : list RunRow; test_results : list (Z * TestCaseResult); next_id : Z }.
Definition run_checks (r : TestRunReport) : bool :=
  not_blank (environment r) && not_blank (trigger r) && (started_at r <=? completed_at r)%Z.
(** [conn.executemany]: a connection of psycopg has [execute] and no
    [executemany], which is a method of its cursors. *)
Definition executemany : st Db test_exc unit := raise (AttributeError "'Connection' object has no attribute 'executemany'").
Definition persist_report (r : TestRunReport) : st Db test_exc Z :=
  transaction (fun d =>
    if negb (run_checks r) then (Err (Database "test_runs_check"), d)
    else
      let id := next_id d in
      let d' := {| test_runs := (test_runs d ++ [{| run_id := id; run_report := r |}])%list; test_results := test_results d; next_id := (id + 1)%Z |} in
      ((match results r with [] => mret tt | _ => executemany end) ≫= fun _ => mret id) d').

(** ** cli.py *)

(** [cmd_run] up to what it prints: the report, with its identifier if it was
    kept, and the exit code. *)
Inductive Printed := NoPackages | Report (r : TestRunReport) | Kept (id : Z) (r : TestRunReport).
Definition kept_in (r : TestRunReport) : st (FileSystem * Db) test_exc Z := fun '(fs, d) =>
  let '(x, d') := persist_report r d in (x, (fs, d')).
Definition on_files {A} (m : st FileSystem test_exc A) : st (FileSystem * Db) test_exc A := fun '(fs, d) =>
  let '(x, fs') := m fs in (x, (fs', d)).
Section Cli.
Context (parse_xml : string -> option Element) (milliseconds : string -> option Q) (executable : string) (working_directory : Path)
  (run : list string -> Path -> st FileSystem os_exc Completed) (git_head : option string) (now1 now2 : Z).
Definition cmd_run (root : Path) (package : list Path) (rust : bool) (rust_crate : option string) (output_dir : Path)
    (environment trigger : string) (coverage database : bool) : st (FileSystem * Db) test_exc (Printed * Z) := fun w =>
  let given := map (resolve working_directory) package in
  let packages := match given with [] => discover_python_packages working_directory (resolve working_directory root) w.1 | _ => given end in
  if bool_decide (packages = []) && negb rust then (Ok (NoPackages, 2%Z), w)
  else
    (r ← on_files (run_all parse_xml milliseconds executable working_directory run git_head now1 now2 packages rust rust_crate output_dir
                     environment trigger coverage);
     p ← (if database then id ← kept_in r; mret (Kept id r) else mret (Report r));
     mret (p, if ok r then 0%Z else 1%Z)) w.
End Cli.

(** ** failure_modes.py *)

Record FailureMode := { failure_mode_name : string; category : string; fm_description : string; severity : string }.
Definition FAILURE_MODES : list FailureMode :=
  [{| failure_mode_name := "network_partition"; category := "network"; fm_description := "Network connectivity between services is lost."; severity := "CRITICAL" |};
   {| failure_mode_name := "dependency_timeout"; category := "timeout"; fm_description := "A required dependency does not respond within the allowed budget."; severity := "CRITICAL" |};
   {| failure_mode_name := "duplicate_event"; category := "idempotency"; fm_description := "The same event or command is delivered more than once."; severity := "CRITICAL" |};
   {| failure_mode_name := "corrupted_payload"; category := "data_integrity"; fm_description := "Payload fails schema, checksum, or semantic validation."; severity := "CRITICAL" |};
   {| failure_mode_name := "missing_field"; category := "data_integrity"; fm_description := "A required field is absent from an event or command."; severity := "CRITICAL" |};
   {| failure_mode_name := "stale_state"; category := "consistency"; fm_description := "State is older than the allowed freshness window."; severity := "CRITICAL" |};
   {| failure_mode_name := "restart_mid_operation"; category := "recovery"; fm_description := "Service restarts while an operation is in flight."; severity := "CRITICAL" |};
   {| failure_mode_name := "clock_skew"; category := "time"; fm_description := "System clocks diverge beyond tolerance."; severity := "WARNING" |};
   {| failure_mode_name := "nan_or_infinite_input"; category := "input_validation"; fm_description := "Numeric input is NaN or infinite."; severity := "CRITICAL" |};
   {| failure_mode_name := "unauthorized_access"; category := "security"; fm_description := "Caller lacks required authentication or authorization."; severity := "CRITICAL" |};
   {| failure_mode_name := "rate_limit_exceeded"; category := "capacity"; fm_description := "Caller exceeds allowed request or event rate."; severity := "WARNING" |};
   {| failure_mode_name := "broker_disconnection"; category := "external_dependency"; fm_description := "Broker or exchange connection is lost."; severity := "CRITICAL" |};
   {| failure_mode_name := "database_unavailable"; category := "external_dependency"; fm_description := "Primary transactional database is unavailable."; severity := "CRITICAL" |};
   {| failure_mode_name := "event_bus_unavailable"; category := "external_dependency"; fm_description := "Kafka/Redpanda event backbone is unavailable."; severity := "CRITICAL" |};
   {| failure_mode_name := "secret_unavailable"; category := "security"; fm_description := "Required secret or key material is unavailable."; severity := "CRITICAL" |}].

(** ** failure.py *)

Inductive failure_exc := ValueError (m : string) | IndexError (m : string) | TimeoutError (m : string) | SimulatedFailure (m : string).
Definition duplicate_event {A} (event : A) (copies : Z) : result failure_exc (list A) :=
  if (copies <? 1)%Z then Err (ValueError "copies must be at least 1") else Ok (event :: replicate (Z.to_nat copies) event).
Definition duplicate_events {A} (events : list A) (index copies : Z) : result failure_exc (list A) :=
  match events with
  | [] => Ok []
  | _ =>
      if (index <? 0)%Z || (Z.of_nat (length events) <=? index)%Z then Err (IndexError "duplicate index out of range")
      else if (copies <? 1)%Z then Err (ValueError "copies must be at least 1")
      else match events !! Z.to_nat index with
           | Some e => Ok (events ++ replicate (Z.to_nat copies) e)%list
           | None => Err (IndexError "duplicate index out of range")
           end
  end.
Definition corrupt_payload {V} (payload : pydict string V) (key : string) (corrupt_value : V) : pydict string V :=
  if dict_has key payload then dict_set key corrupt_value payload else payload.
Definition remove_required_fields {V} (payload : pydict string V) (keys : list string) : pydict string V :=
  filter (fun kv => kv.1 ∉ keys) payload.
Definition inject_timeout (m : string) : result failure_exc unit := Err (TimeoutError m).
Definition inject_dependency_unavailable (dependency : string) : result failure_exc unit :=
  Err (SimulatedFailure ("dependency unavailable: " ++ dependency)).

(** ** clock.py and fakes.py *)

Definition FakeClock : Type := Z.
Definition clock_now (c : FakeClock) : Z := c.
Definition advance (delta : Z) (c : FakeClock) : FakeClock := (c + delta)%Z.
Definition clock_set (value : Z) (c : FakeClock) : FakeClock := value.

Definition FakeKeyValueStore : Type := pydict string json.
Definition kv_set (key : string) (value : json) (s : FakeKeyValueStore) : FakeKeyValueStore := dict_set key value s.
Definition kv_get (key : string) (dflt : json) (s : FakeKeyValueStore) : json := default dflt (dict_get key s).
(** [self._data.pop(key, None) is not None] *)
Definition kv_delete (key : string) (s : FakeKeyValueStore) : bool * FakeKeyValueStore :=
  (match dict_get key s with Some JNull | None => false | Some _ => true end, filter (fun kv => kv.1 <> key) s).
Definition kv_exists (key : string) (s : FakeKeyValueStore) : bool := dict_has key s.
Definition kv_clear (s : FakeKeyValueStore) : FakeKeyValueStore := [].

Definition FakeEventPublisher : Type := list (string * json).
Definition publish (topic : string) (payload : json) (p : FakeEventPublisher) : FakeEventPublisher := (p ++ [(topic, payload)])%list.
Definition topics (p : FakeEventPublisher) : list string := p.*1.

(** ** What a run reports *)

Definition good (r : TestCaseResult) : Prop := status r = PASSED \/ status r = SKIPPED.
Lemma with_status_cons s r l : with_status s (r :: l) = (if decide (status r = s) then 1 else 0) + with_status s l.
Proof. unfold with_status. rewrite filter_cons. by case_decide. Qed.
Lemma statuses_sum l : length l = with_status PASSED l + with_status FAILED l + with_status SKIPPED l + with_status ERROR l.
Proof.
  induction l as [|r l IH]; [done|]. rewrite !with_status_cons. cbn [length]. rewrite IH.
  repeat case_decide; try congruence; try lia. by destruct (status r).
Qed.
Lemma with_status_0 s l : with_status s l = 0 <-> forall r, r ∈ l -> status r <> s.
Proof.
  induction l as [|r l IH]; [split; [intros _ r Hr; by apply elem_of_nil in Hr|done]|].
  rewrite with_status_cons. case_decide as Hs.
  - split; [lia|]. intros H. destruct (H r (list_elem_of_here _ _)). done.
  - rewrite Nat.add_0_l, IH. split; [intros H r' [->|Hr']%elem_of_cons; [done|by apply H]|]. intros H r' Hr'. apply H. by right.
Qed.
Lemma from_results_ok l e g t a b c :
  let r := from_results l e g t a b c in
  total r = passed r + failed r + skipped r + errors r /\ (ok r = true <-> forall x, x ∈ l -> good x).
Proof.
  cbn. split; [apply statuses_sum|]. rewrite andb_true_iff, !Nat.eqb_eq, !with_status_0. split.
  - intros [Hf He] x Hx. specialize (Hf x Hx). specialize (He x Hx). unfold good. destruct (status x); auto; congruence.
  - intros H. split; intros x Hx Hs; destruct (H x Hx); congruence.
Qed.

Lemma exit_code (b : bool) (P : Prop) : (b = true <-> P) ->
  ((if b then 0%Z else 1%Z) = 0%Z <-> P) /\ ((if b then 0%Z else 1%Z) = 0%Z \/ (if b then 0%Z else 1%Z) = 1%Z).
Proof. intros <-. destruct b; split; auto; by split. Qed.

Section Runs.
Context (parse_xml : string -> option Element) (milliseconds : string -> option Q) (executable : string) (working_directory : Path)
  (run : list string -> Path -> st FileSystem os_exc Completed).
Notation python := (run_python_tests parse_xml milliseconds executable working_directory run).
Notation all := (run_all parse_xml milliseconds executable working_directory run).

(** A package never gives no result. *)
Lemma python_nonempty p o c x fs l fs' : python p o c x fs = (Ok l, fs') -> l <> [].
Proof.
  unfold run_python_tests. intros H. st_inv H as u s1 H1. st_inv H as cp s2 H2. rewrite st_bind_get in H.
  rewrite st_bind_lift in H. destruct (parse_junit_file _ _ _ _) as [found|]; [|done]. injection H as <- _. by destruct found.
Qed.
Lemma pythons_nonempty o c ps : forall fs l fs', map_st (fun p => python p o c []) ps fs = (Ok l, fs') -> ps <> [] -> concat l <> [].
Proof.
  destruct ps as [|p ps]; [done|]. intros fs l fs' H _. cbn [map_st] in H. st_inv H as y s1 H1. st_inv H as ys s2 H2. injection H as <- _.
  cbn. apply python_nonempty in H1. by destruct y.
Qed.
Lemma run_all_spec g n1 n2 ps rust crate o e t c fs r fs' : all g n1 n2 ps rust crate o e t c fs = (Ok r, fs') ->
  (exists l, r = from_results l e (strip <$> g) t n1 n2 None) /\ (ps <> [] \/ rust = true -> results r <> []).
Proof.
  unfold run_all. intros H. st_inv H as l s1 H1. st_inv H as l2 s2 H2. injection H as <- _. split; [by eexists|]. cbn. intros Hor Hnil.
  apply app_eq_nil in Hnil as [Hl ->]. destruct Hor as [Hps| ->].
  - by eapply pythons_nonempty.
  - unfold run_rust_tests in H2. st_inv H2 as u s3 H3. st_inv H2 as cp s4 H4. by injection H2.
Qed.

(** Nothing with results is kept. *)
Lemma persist_refuses r d : results r <> [] -> exists e, persist_report r d = (Err e, d).
Proof.
  intros Hr. unfold persist_report, transaction. destruct (negb (run_checks r)); [by eexists|].
  destruct (results r); [done|]. by eexists.
Qed.

(** A run that reports ends with 0 exactly if every result passed or was
    skipped, and with 1 otherwise; its report has at least one result and counts
    each once.  The database is never changed, and with one no report comes out:
    a run then ends in an exception, or found nothing to run. *)
Theorem cmd_run_outcome g n1 n2 root package rust crate o e t c database fs d x fs' d' :
  cmd_run parse_xml milliseconds executable working_directory run g n1 n2 root package rust crate o e t c database (fs, d) = (x, (fs', d')) ->
  d' = d /\
  match x with
  | Ok (NoPackages, code) => code = 2%Z /\ fs' = fs
  | Ok (Report r, code) =>
      database = false /\ results r <> [] /\ total r = length (results r) /\
      total r = passed r + failed r + skipped r + errors r /\
      (code = 0%Z <-> forall y, y ∈ results r -> good y) /\ (code = 0%Z \/ code = 1%Z)
  | Ok (Kept _ _, _) => False
  | Err _ => True
  end.
Proof.
  unfold cmd_run. cbn [fst]. set (ps := match map _ package with [] => _ | _ => _ end).
  destruct (bool_decide (ps = []) && negb rust) eqn:Hno; [by intros [= <- <- <-]|].
  assert (Hor : ps <> [] \/ rust = true).
  { apply andb_false_iff in Hno as [Hb%bool_decide_eq_false|Hb%negb_false_iff]; auto. }
  intros H. st_inv H as r p1 H1.
  2: { unfold on_files in H1. destruct (all _ _ _ _ _ _ _ _ _ _ _) as [y fs1]. injection H1 as _ _ <-. done. }
  destruct p1 as [fs1 d1]. assert (Hall : all g n1 n2 ps rust crate o e t c fs = (Ok r, fs1) /\ d1 = d).
  { unfold on_files in H1. destruct (all _ _ _ _ _ _ _ _ _ _ fs) as [y fs2]. by injection H1 as -> -> ->. }
  destruct Hall as [Hall ->]. destruct (run_all_spec _ _ _ _ _ _ _ _ _ _ _ _ _ Hall) as [[l ->] Hne]. specialize (Hne Hor).
  destruct database.
  - destruct (persist_refuses _ d Hne) as [e' Hp]. st_inv H as pr p2 H2.
    + st_inv H2 as i p3 H3. unfold kept_in in H3. by rewrite Hp in H3.
    + st_inv H2 as i p3 H3; [done|]. unfold kept_in in H3. rewrite Hp in H3. by injection H3 as _ _ <-.
  - injection H as <- <- <-. split; [done|]. cbn beta iota. destruct (from_results_ok l e (strip <$> g) t n1 n2 None) as [Hsum Hok].
    do 4 (split; [done|]). exact (exit_code _ _ Hok).
Qed.
End Runs.

(** A package that cannot be tested any more, over the report of an earlier run:
    the exit code of pytest is not looked at, and the old results pass. *)
Definition old_report : Element := El "testsuite" [("name", "pytest")] None [El "testcase" [("name", "test_ok"); ("time", "0.1")] None []].
Definition broken_pytest : list string -> Path -> st FileSystem os_exc Completed := fun _ _ => mret {| returncode := 4; stdout := ""; stderr := "usage error" |}.
Definition old_files : FileSystem := {| files := {[path_of "/out/pkg-junit.xml" := "xml"]}; dirs := {[path_of "/out"]} |}.
Definition stale_run := cmd_run (fun _ => Some old_report) (fun _ => Some 100%Q) "python" (path_of "/") broken_pytest None 0 1
  (path_of "/") [path_of "/pkg"] false None (path_of "/out") "ci" "manual" false.
Lemma stale_report_passes :
  match stale_run false (old_files, {| test_runs := []; test_results := []; next_id := 1 |}) with
  | (Ok (Report r, code), _) => code = 0%Z /\ map (fun y => (name y, status y)) (results r) = [("test_ok", PASSED)]
  | _ => False
  end.
Proof. vm_compute. done. Qed.
Lemma cmd_run_outcome_witness : exists x fs' d',
  stale_run true (old_files, {| test_runs := []; test_results := []; next_id := 1 |}) = (x, (fs', d')) /\ test_runs d' = [] /\ is_ok x = false.
Proof.
  destruct (stale_run true _) as [x [fs' d']] eqn:H. exists x, fs', d'. split; [done|].
  assert (Hx : is_ok x = false) by (vm_compute in H; by injection H as <- _ _).
  apply cmd_run_outcome in H as [-> _]. by split.
Defined.

(** Each failure mode is listed once, with a severity that the catalog takes. *)
Lemma failure_modes_distinct : NoDup (map failure_mode_name FAILURE_MODES) /\
  Forall (fun m => severity m ∈ ["INFO"; "WARNING"; "CRITICAL"]%string) FAILURE_MODES.
Proof. split; [apply (bool_decide_unpack _); by vm_compute|]. apply (bool_decide_unpack _); by vm_compute. Qed.
Lemma duplicate_event_length {A} (e : A) copies l : duplicate_event e copies = Ok l -> Z.of_nat (length l) = (copies + 1)%Z /\ Forall (eq e) l.
Proof.
  unfold duplicate_event. destruct (Z.ltb_spec copies 1); [done|]. intros [= <-]. cbn [length]. rewrite length_replicate. split; [lia|].
  constructor; [done|]. by apply list.Forall_replicate.
Qed.
(** A key of None is there, and its deletion says it was not. *)
Lemma deleted_none_was_there s : kv_exists "k" (kv_set "k" JNull s) = true /\ (kv_delete "k" (kv_set "k" JNull s)).1 = false.
Proof. unfold kv_exists, kv_set, kv_delete, dict_has. by rewrite dict_get_set_eq. Qed.
