(* ===== verification/SecretScan.v ===== *)
(** The scanner of environment files: [scanning.py] of apexquant-secrets. *)
From stdpp Require Import base strings list numbers pretty sorting.
From Stdlib Require Import Ascii.
From S2P Require Import Prelude PyStr Json PyPath.

#[local] Open Scope string_scope.

Definition SECRET_KEY_MARKERS : list string :=
  ["password"; "secret"; "token"; "api_key"; "apikey"; "private_key"; "credential"; "access_key"].
Definition SECRET_REFERENCE_PREFIXES : list string := ["${"; "vault://"; "secret://"; "env://"].

Record SecretScanViolation := { v_path : Path; line_number : nat; key : string; message : string }.
(** [__str__] *)
Definition violation_str (v : SecretScanViolation) : string :=
  path_str (v_path v) ++ ":" ++ pretty (line_number v) ++ " " ++ key v ++ ": " ++ message v.

Definition is_secret_reference (value : string) : bool :=
  let normalized := strip value in
  negb (str_empty normalized) && existsb (fun prefix => starts_with prefix normalized) SECRET_REFERENCE_PREFIXES.

(** One round of the loop: the key that is reported, if any. *)
Definition scan_line (raw_line : string) : option string :=
  let line := strip raw_line in
  if str_empty line || starts_with "#" line then None
  else match split_first "=" line with
  | None => None
  | Some (k, v) =>
      let key := strip k in
      let value := strip v in
      if negb (existsb (fun marker => str_contains marker (str_lower key)) SECRET_KEY_MARKERS) then None
      else if str_empty value then None
      else if is_secret_reference value then None
      else Some key
  end.
Fixpoint scan_lines (path : Path) (n : nat) (lines : list string) : list SecretScanViolation :=
  match lines with
  | [] => []
  | l :: rest =>
      match scan_line l with
      | Some k => [{| v_path := path; line_number := n; key := k; message := "literal secret detected; use a secret reference instead" |}]
      | None => []
      end ++ scan_lines path (S n) rest
  end.
(** The text is ASCII. *)
Definition scan_env_file (path : Path) (allow_examples : bool) (fs : FileSystem) : result os_exc (list SecretScanViolation) :=
  if allow_examples && ends_with ".example" (path_name path) then Ok []
  else b ← read_bytes path fs; Ok (scan_lines path 1 (splitlines (universal_newlines b))).

(** [cmd_scan_env] of cli.py: what is printed, and the exit code. *)
Definition cmd_scan_env (path : Path) (allow_examples : bool) (fs : FileSystem) : result os_exc (list string * Z) :=
  if negb (path_exists path fs) then Ok (["file does not exist: " ++ path_str path], 2%Z)
  else violations ← scan_env_file path allow_examples fs;
       match violations with
       | [] => Ok ([dumps plain (JDict [("ok", JBool true); ("path", JStr (path_str path))])], 0%Z)
       | _ => Ok (map violation_str violations, 1%Z)
       end.

(** ** What is reported *)

(** A line that assigns a literal to a key of a secret. *)
Definition assigns_secret (raw_line k : string) : Prop :=
  exists k0 v0, strip raw_line = k0 ++ "=" ++ v0 /\ no_char "=" k0 /\ k = strip k0 /\
    (forall r, strip raw_line <> "#" ++ r) /\
    (exists marker, marker ∈ SECRET_KEY_MARKERS /\ infix marker (str_lower k)) /\
    strip v0 <> "" /\
    (forall prefix, prefix ∈ SECRET_REFERENCE_PREFIXES -> forall r, strip v0 <> prefix ++ r).

Lemma starts_with_iff p s : starts_with p s = true <-> exists r, s = p ++ r.
Proof.
  unfold starts_with. revert s. induction p as [|c p IH]; intros s.
  - split; [by exists s|by destruct s].
  - destruct s as [|d s]; [split; [done|by intros [r [=]]]|]. cbn [String.prefix]. destruct (ascii_dec c d) as [->|Hne].
    + rewrite IH. split; intros [r Hr]; exists r; cbn in *; congruence.
    + split; [done|]. intros [r [=]]. congruence.
Qed.
Lemma secret_reference_iff v : is_secret_reference v = true <-> exists prefix, prefix ∈ SECRET_REFERENCE_PREFIXES /\ exists r, strip v = prefix ++ r.
Proof.
  unfold is_secret_reference. rewrite andb_true_iff, existsb_elem. setoid_rewrite starts_with_iff. split; [tauto|].
  intros (p & Hp & r & Hr). split; [|by exists p; split; [|exists r]]. rewrite Hr.
  unfold SECRET_REFERENCE_PREFIXES in Hp. by repeat (apply elem_of_cons in Hp as [->|Hp]; [done|]); apply elem_of_nil in Hp.
Qed.
Lemma scan_line_iff l k : scan_line l = Some k <-> assigns_secret l k.
Proof.
  unfold scan_line, assigns_secret. destruct (str_empty (strip l)) eqn:He.
  { destruct (strip l) eqn:Hs; [|done]. cbn [orb]. split; [done|]. intros (k0 & v0 & Heq & _). by destruct k0. }
  cbn [orb]. destruct (starts_with "#" (strip l)) eqn:Hh.
  { apply starts_with_iff in Hh as [r Hr]. split; [done|]. intros (k0 & v0 & _ & _ & _ & Hno & _). by destruct (Hno r). }
  assert (Hno : forall r, strip l <> "#" ++ r).
  { intros r Hr. assert (starts_with "#" (strip l) = true); [apply starts_with_iff; by exists r|congruence]. }
  destruct (split_first "=" (strip l)) as [[k0 v0]|] eqn:Hs.
  2: { apply split_first_None in Hs. split; [done|]. intros (k0 & v0 & Heq & _). rewrite Heq in Hs. exfalso.
       clear -Hs. induction k0 as [|c k0 IH]; cbn in Hs; apply no_char_cons in Hs as [? Hs]; [done|by apply IH]. }
  apply split_first_Some in Hs as [Hs Hk0].
  assert (Huniq : forall k1 v1, strip l = k1 ++ "=" ++ v1 -> no_char "=" k1 -> k1 = k0 /\ v1 = v0).
  { intros k1 v1 H1 H2. assert (E1 : split_first "=" (strip l) = Some (k1, v1)) by by apply split_first_Some.
    assert (E0 : split_first "=" (strip l) = Some (k0, v0)) by by apply split_first_Some. rewrite E1 in E0. by injection E0. }
  destruct (existsb _ SECRET_KEY_MARKERS) eqn:Hm; cbn [negb].
  2: { split; [done|]. intros (k1 & v1 & H1 & H2 & -> & _ & (m & Hin & Hi) & _). destruct (Huniq _ _ H1 H2) as [-> ->].
       assert (existsb (fun marker => str_contains marker (str_lower (strip k0))) SECRET_KEY_MARKERS = true); [|congruence].
       apply existsb_elem. exists m. split; [done|by apply str_contains_iff]. }
  apply existsb_elem in Hm as (m & Hin & Hi). apply str_contains_iff in Hi.
  destruct (str_empty (strip v0)) eqn:Hv.
  { split; [done|]. intros (k1 & v1 & H1 & H2 & _ & _ & _ & Hne & _). destruct (Huniq _ _ H1 H2) as [-> ->]. by destruct (strip v0). }
  destruct (is_secret_reference (strip v0)) eqn:Hr.
  { apply secret_reference_iff in Hr as (p & Hp & r & Hr). rewrite strip_strip in Hr. split; [done|].
    intros (k1 & v1 & H1 & H2 & _ & _ & _ & _ & Hno'). destruct (Huniq _ _ H1 H2) as [-> ->]. by destruct (Hno' p Hp r). }
  split.
  - intros [= <-]. exists k0, v0. split_and!; [done..|by exists m| |].
    + intros E; by rewrite E in Hv.
    + intros p Hp r Hpr. assert (is_secret_reference (strip v0) = true); [|congruence].
      apply secret_reference_iff. exists p. split; [done|]. exists r. by rewrite strip_strip.
  - intros (k1 & v1 & H1 & H2 & -> & _). by destruct (Huniq _ _ H1 H2) as [-> ->].
Qed.
Lemma scan_lines_spec path lines : forall n v, v ∈ scan_lines path n lines <->
  v_path v = path /\ message v = "literal secret detected; use a secret reference instead" /\
  exists i l, lines !! i = Some l /\ line_number v = (n + i)%nat /\ assigns_secret l (key v).
Proof.
  induction lines as [|l lines IH]; intros n v; cbn [scan_lines].
  - split; [by intros ?%elem_of_nil|]. by intros (_ & _ & i & l & Hi & _).
  - rewrite elem_of_app, IH. split.
    + intros [Hv|(Hp & Hm & i & l' & Hi & Hn & Ha)].
      * destruct (scan_line l) as [k|] eqn:Hk; [|by apply elem_of_nil in Hv]. apply list_elem_of_singleton in Hv as ->.
        split_and!; try done. exists 0%nat, l. cbn. split_and!; [done|lia|by apply scan_line_iff].
      * split_and!; try done. exists (S i), l'. split_and!; [done|lia|done].
    + intros (Hp & Hm & [|i] & l' & Hi & Hn & Ha).
      * left. injection Hi as ->. apply scan_line_iff in Ha. rewrite Ha. apply list_elem_of_singleton. destruct v. cbn in *.
        subst. by rewrite Nat.add_0_r.
      * right. split_and!; try done. exists i, l'. split_and!; [done|lia|done].
Qed.

(** A scan that returns reports exactly the lines of the file that assign a
    literal to a key of a secret, each by its number and key, unless the file
    is an example that is allowed; it raises only what reading the file does. *)
Theorem scan_reports_literals path allow fs :
  if allow && ends_with ".example" (path_name path) then scan_env_file path allow fs = Ok []
  else match read_bytes path fs with
  | Err e => scan_env_file path allow fs = Err e
  | Ok b => exists l, scan_env_file path allow fs = Ok l /\ forall v, v ∈ l <->
      v_path v = path /\ message v = "literal secret detected; use a secret reference instead" /\
      exists i line, splitlines (universal_newlines b) !! i = Some line /\ line_number v = S i /\ assigns_secret line (key v)
  end.
Proof.
  unfold scan_env_file. destruct (allow && _); [done|]. destruct (read_bytes path fs) as [b|e]; [|done].
  eexists. split; [reflexivity|]. intros v. by rewrite scan_lines_spec.
Qed.

(** A reference followed by a literal passes, and so does a reference to nothing. *)
Lemma reference_prefix_hides : scan_line "DB_PASSWORD=${USER}hunter2" = None /\ scan_line "API_TOKEN=env://" = None.
Proof. by vm_compute. Qed.

(** The command says that a file is clean exactly when it is there, can be read
    and has nothing to report. *)
Lemma scan_command_clean path allow fs : (exists out, cmd_scan_env path allow fs = Ok (out, 0%Z)) <->
  path_exists path fs = true /\ scan_env_file path allow fs = Ok [].
Proof.
  unfold cmd_scan_env. destruct (path_exists path fs); cbn [negb]; [|by split; [intros [out [=]]|intros [? _]]].
  destruct (scan_env_file path allow fs) as [[|v l]|e]; cbn; split; try (by intros [out [=]]); try (by intros [_ [=]]).
  intros _. by eexists.
Qed.
