(* ===== verification/AuditApp.v ===== *)
(** The HTTP service and the Kafka publisher of apexquant-audit: [app.py] and
    [kafka.py], over the store and the chain of [AuditTrail].

    The broker is what sending a message to it ends in.  A dependency on the
    shared key runs before the body is looked at; an exception that no handler
    takes ends in a plain 500. *)
From stdpp Require Import base strings list gmap pretty numbers.
From Stdlib Require Import Ascii.
From S2P Require Import Prelude PyStr PyPath StartUp Json Http AuditTrail AuditProps.

#[local] Open Scope string_scope.

(** ** kafka.py *)

Record Message := { m_topic : string; m_value : string; m_key : string; m_headers : list (string * string) }.
Record Publisher := { bootstrap_servers : option string; topic : string; producer_started : bool }.
Definition new_publisher (servers : option string) (topic : string) : Publisher :=
  {| bootstrap_servers := servers; topic := topic; producer_started := false |}.
Definition enabled (p : Publisher) : bool := match bootstrap_servers p with Some s => negb (str_empty s) | None => false end.
Definition with_producer (b : bool) (p : Publisher) : Publisher :=
  {| bootstrap_servers := bootstrap_servers p; topic := topic p; producer_started := b |}.
(** The connection of the producer is made or raises. *)
Definition start (connects : bool) (p : Publisher) : result string unit * Publisher :=
  if negb (enabled p) then (Ok tt, p)
  else if connects then (Ok tt, with_producer true p) else (Err "KafkaConnectionError", with_producer true p).
Definition stop (p : Publisher) : Publisher := with_producer false p.

Section Kafka.
Context (isoformat : datetime -> string) (send_and_wait : Message -> result string unit).

Definition message_payload (r : EventRow) : list (string * json) :=
  let f := row_fields r in
  [("event_seq", JNum (event_seq r)); ("event_id", JStr (event_id f)); ("occurred_at", JStr (isoformat (occurred_at f)));
   ("actor_type", JStr (actor_type f)); ("actor_id", jopt (actor_id f)); ("principal_name", jopt (principal_name f));
   ("service_name", JStr (service_name f)); ("plane", JStr (plane f)); ("action", JStr (action f));
   ("resource_type", JStr (resource_type f)); ("resource_id", JStr (resource_id f)); ("decision", JStr (decision f));
   ("reason", JStr (reason f)); ("severity", JStr (severity f)); ("request_id", jopt (request_id f));
   ("correlation_id", jopt (correlation_id f)); ("trace_id", jopt (trace_id f)); ("idempotency_key", jopt (idempotency_key f));
   ("data", data f); ("prev_hash", JStr (prev_hash r)); ("event_hash", JStr (event_hash r))].
Definition message_of (t : string) (r : EventRow) : Message :=
  {| m_topic := t; m_value := dumps plain (JDict (message_payload r)); m_key := event_id (row_fields r);
     m_headers := [("event_id", event_id (row_fields r)); ("service_name", service_name (row_fields r));
                   ("action", action (row_fields r)); ("event_hash", event_hash r)] |}.
Definition publish (p : Publisher) (r : EventRow) : bool * option string :=
  if negb (enabled p) || negb (producer_started p) then (false, Some "publisher disabled")
  else match send_and_wait (message_of (topic p) r) with
       | Ok _ => (true, None)
       | Err e => (false, Some e)
       end.

(** ** app.py *)

Record App := {
  store : AuditStore; events_ingested : nat; publish_failures : nat; chain_violations : nat
}.
Notation AppM := (st App audit_exc).
Definition on_store {A} (m : st AuditStore audit_exc A) : AppM A := fun a =>
  let '(x, s) := m (store a) in
  (x, {| store := s; events_ingested := events_ingested a; publish_failures := publish_failures a; chain_violations := chain_violations a |}).
Definition count_ingested : AppM unit := fun a =>
  (Ok tt, {| store := store a; events_ingested := S (events_ingested a); publish_failures := publish_failures a; chain_violations := chain_violations a |}).
Definition count_failure (ok : bool) : AppM unit := fun a =>
  (Ok tt, if ok then a else {| store := store a; events_ingested := events_ingested a; publish_failures := S (publish_failures a); chain_violations := chain_violations a |}).
Definition count_violation (ok : bool) : AppM unit := fun a =>
  (Ok tt, if ok then a else {| store := store a; events_ingested := events_ingested a; publish_failures := publish_failures a; chain_violations := S (chain_violations a) |}).

Context (sha256 : string -> string) (publisher : Publisher) (ingest_shared_secret : option string).
(** The time at which the database took the row, in ISO form: a column that
    nothing else reads. *)
Context (received_at : EventRow -> string).

(** A round of [relay_loop], which runs while the publisher is enabled. *)
Definition relay_loop_round (now : Z) : AppM unit :=
  rows ← on_store (fetch_unpublished 100);
  for_each (fun r =>
    on_store (record_delivery (event_seq r) (publish publisher r).1 (publish publisher r).2 now) ≫= fun _ =>
    count_failure (publish publisher r).1) rows.

Definition ingest (uuid4 : string) (now : datetime) (db_now : Z) (payload : AuditEventRequest) : AppM json :=
  record ← on_store (append_event sha256 (with_data (to_fields uuid4 now payload) (redact_data (rq_data payload))));
  count_ingested ≫= fun _ =>
  (if enabled publisher then
     rows ← on_store (fetch_events 1 None None (Some (ar_event_id record)));
     match rows with
     | [] => mret tt
     | r :: _ =>
         on_store (record_delivery (ar_event_seq record) (publish publisher r).1 (publish publisher r).2 db_now) ≫= fun _ =>
         count_failure (publish publisher r).1
     end
   else mret tt) ≫= fun _ =>
  mret (JDict [("event_seq", JNum (ar_event_seq record)); ("event_id", JStr (ar_event_id record));
               ("occurred_at", JStr (isoformat (ar_occurred_at record))); ("event_hash", JStr (ar_event_hash record))]).
Definition row_json (r : EventRow) : json := let l := message_payload r in
  JDict (take 3 l ++ ("received_at", JStr (received_at r)) :: drop 3 l)%list.
Definition list_audit_events (limit : Z) (service act request : option string) : AppM json :=
  rows ← on_store (fetch_events limit service act request);
  mret (JList (map row_json rows)).
Definition report_json (r : ChainReport) : json :=
  JDict [("ok", JBool (cr_ok r)); ("events_checked", JNum (Z.of_nat (cr_events_checked r)));
         ("violations", JList (map (fun v => JDict [("event_seq", JNum (cv_event_seq v)); ("type", JStr (cv_type v)); ("detail", JStr (cv_detail v))])
                                 (cr_violations r)))].
Definition verify_endpoint (start_seq end_seq : option Z) (limit : Z) : AppM json :=
  report ← on_store (verify_audit_chain sha256 start_seq end_seq limit);
  count_violation (cr_ok report) ≫= fun _ => mret (report_json report).

Inductive Call :=
| Healthz | Readyz (database_answers : bool)
| IngestEvent (x_audit_ingest_key : option string) (payload : AuditEventRequest) (uuid4 : string) (now : datetime) (db_now : Z)
| ListEvents (x_audit_ingest_key : option string) (limit : Z) (service act request : option string)
| VerifyChain (x_audit_ingest_key : option string) (start_seq end_seq : option Z) (limit : Z).
(** [require_ingest_key] *)
Definition key_refused (given : option string) : bool :=
  match ingest_shared_secret with
  | Some expected => negb (str_empty expected) && negb (bool_decide (given = Some expected))
  | None => false
  end.
Definition guarded (key : option string) (a : App) (m : AppM json) : Response * App :=
  if key_refused key then (reply 401 (JDict [("detail", JStr "invalid audit ingest key")]), a)
  else match m a with (Ok j, a') => (reply 200 j, a') | (Err _, a') => (InternalServerError, a') end.
Definition handle (c : Call) (a : App) : Response * App :=
  match c with
  | Healthz => (reply 200 (JDict [("status", JStr "ok")]), a)
  | Readyz ready => (if ready then reply 200 (JDict [("ready", JBool true)]) else reply 503 (JDict [("ready", JBool false)]), a)
  | IngestEvent key payload uuid4 now db_now =>
      if is_ok (enforce_audit_policy payload) then guarded key a (ingest uuid4 now db_now payload)
      else if key_refused key then guarded key a (mret JNull) else (Unprocessable, a)
  | ListEvents key limit service act request => guarded key a (list_audit_events limit service act request)
  | VerifyChain key start_seq end_seq limit => guarded key a (verify_endpoint start_seq end_seq limit)
  end.
(** [lifespan] up to the [yield], for a database as it was: what the service runs
    with, and whether the relay runs beside it. *)
Inductive start_exc := Migrations (e : startup_exc) | Kafka (m : string).
Definition audit_lifespan {D} (connect : st D startup_exc unit) (execute : string -> st D startup_exc unit) (fs : FileSystem)
    (migrate_on_start : bool) (migrations_dir : string) (servers : option string) (t : string) (kafka_connects : bool) (d : D)
    : result start_exc (Publisher * bool) * D :=
  let '(x, d') := if migrate_on_start then audit_apply_migrations connect execute fs migrations_dir d else (Ok tt, d) in
  match x with
  | Err e => (Err (Migrations e), d')
  | Ok _ =>
      match start kafka_connects (new_publisher servers t) with
      | (Ok _, p) => (Ok (p, enabled p), d')
      | (Err m, _) => (Err (Kafka m), d')
      end
  end.
End Kafka.

(** Without brokers the service starts with a publisher that is off and no relay;
    with brokers it starts only once they answer, and then the relay runs and
    the publisher is ready. *)
Lemma audit_started {D} connect execute fs migrate dir servers t up (d : D) x d' :
  audit_lifespan connect execute fs migrate dir servers t up d = (x, d') ->
  match x with
  | Ok (p, relay) => relay = enabled p /\ enabled p = enabled (new_publisher servers t) /\ producer_started p = enabled p /\
                     (relay = true -> up = true) /\ topic p = t
  | Err (Kafka _) => enabled (new_publisher servers t) = true /\ up = false
  | Err (Migrations e) => migrate = true /\ audit_apply_migrations connect execute fs dir d = (Err e, d')
  end.
Proof.
  unfold audit_lifespan. destruct migrate; [destruct (audit_apply_migrations connect execute fs dir d) as [[u|e] d1]|];
    try (by intros [= <- <-]);
    unfold start; destruct (enabled (new_publisher servers t)) eqn:He; destruct up; cbn; intros [= <- <-]; cbn; split_and!; try done; congruence.
Qed.

(** ** What goes out, and who may ask *)

Section Facts.
Context (isoformat : datetime -> string) (send_and_wait : Message -> result string unit) (sha256 : string -> string)
  (publisher : Publisher) (ingest_shared_secret : option string) (received_at : EventRow -> string).
Notation handle := (handle isoformat send_and_wait sha256 publisher ingest_shared_secret received_at).

Lemma jopt_wf o : json_wf (jopt o) = true.
Proof. by destruct o. Qed.
(** A consumer reads back the fields of the row, its sequence number and both
    hashes. *)
Lemma message_reads_back t r : json_wf (data (row_fields r)) = true ->
  loads (m_value (message_of isoformat t r)) = Some (JDict (message_payload isoformat r)).
Proof.
  intros Hw. unfold message_of. cbn [m_value]. assert (Hj : json_wf (JDict (message_payload isoformat r)) = true).
  { unfold message_payload. cbn [json_wf forallb map fst snd]. rewrite !jopt_wf, Hw. by vm_compute. }
  rewrite (loads_dumps plain _ Hj). by rewrite normalize_plain.
Qed.

Lemma counted_ingest uuid4 now db_now payload a : enforce_audit_policy payload = Ok payload ->
  let '(x, a') := ingest isoformat send_and_wait sha256 publisher uuid4 now db_now payload a in
  let '(y, s') := ingest_audit_event sha256 (if enabled publisher then Some (publish isoformat send_and_wait publisher) else None)
                    uuid4 now db_now payload (store a) in
  store a' = s' /\ is_ok x = is_ok y /\ chain_violations a' = chain_violations a /\
  (events_ingested a' = S (events_ingested a) \/ (events_ingested a' = events_ingested a /\ is_ok x = false)).
Proof.
  intros Hp. unfold ingest, ingest_audit_event. rewrite st_bind_lift, Hp.
  unfold on_store, mbind, st_bind. destruct (append_event _ _ _) as [[rec|e] s1]; [|by cbn; split_and!; auto].
  cbn [store events_ingested publish_failures chain_violations count_ingested].
  destruct (enabled publisher); [|by cbn; split_and!; auto]. unfold fetch_events.
  cbn [store events_ingested publish_failures chain_violations].
  match goal with |- context [take ?n ?l] => destruct (take n l) as [|r rows] end; [by cbn; split_and!; auto|].
  destruct (publish isoformat send_and_wait publisher r) as [ok err]. cbn [fst snd].
  cbn [store events_ingested publish_failures chain_violations].
  destruct (record_delivery _ _ _ _ s1) as [[u|e] s3]; [|by cbn; split_and!; auto].
  destruct ok; by cbn; split_and!; auto.
Qed.

(** The calls behind the key, and the key they bring. *)
Definition key_of (c : Call) : option (option string) :=
  match c with
  | IngestEvent k _ _ _ _ | ListEvents k _ _ _ _ | VerifyChain k _ _ _ => Some k
  | _ => None
  end.
(** With a secret that is not empty, a call that does not bring it is answered
    with 401 and leaves the trail, its checks and its counts as they were. *)
Lemma ingest_key_guards c k secret a : ingest_shared_secret = Some secret -> secret <> "" -> key_of c = Some k -> k <> Some secret ->
  code (handle c a).1 = 401%Z /\ (handle c a).2 = a.
Proof.
  intros Hs Hne Hk Hne'. assert (Hr : key_refused ingest_shared_secret k = true).
  { unfold key_refused. rewrite Hs, bool_decide_eq_false_2 by done. by destruct secret. }
  destruct c as [| |key payload u n dn|key l s ac r|key s e l]; cbn in Hk; try done; injection Hk as ->; cbn [AuditApp.handle]; unfold guarded; rewrite Hr; try done.
  by destruct (is_ok _).
Qed.
(** Without one, anybody may append. *)
Lemma no_secret_no_guard k : ingest_shared_secret = None -> key_refused ingest_shared_secret k = false.
Proof. by intros ->. Qed.

(** A verification that is answered counts a violation exactly if it reports
    one, and the check is on record. *)
Lemma verify_counts s e l a r a' : handle (VerifyChain (ingest_shared_secret) s e l) a = (r, a') -> code r = 200%Z ->
  exists report, content r = Some (report_json report) /\ chain_violations a' = (if cr_ok report then 0 else 1) + chain_violations a /\
    integrity_checks (store a') = (integrity_checks (store a) ++ [{| ic_start := s; ic_end := e; ic_report := report |}])%list /\
    events (store a') = events (store a).
Proof.
  cbn [AuditApp.handle]. unfold guarded. destruct (key_refused _ _); [by intros [= <- <-]|].
  destruct (verify_endpoint sha256 s e l a) as [[j|x] a1] eqn:Hv; intros [= <- <-]; [|done]. intros _. unfold verify_endpoint in Hv.
  st_inv Hv as report a2 H1. exists report. unfold on_store in H1. destruct (verify_audit_chain sha256 s e l (store a)) as [y s1] eqn:Hc.
  injection H1 as -> <-. st_inv Hv as u a3 H2. injection Hv as <- <-. unfold count_violation in H2. injection H2 as _ <-.
  unfold verify_audit_chain in Hc. st_inv Hc as range s2 H3. st_inv Hc as u2 s3 H4. injection Hc as <- <-. injection H4 as _ <-.
  assert (Hsame : s2 = store a).
  { unfold fetch_verification_range in H3. by repeat case_match; simplify_eq. }
  subst s2. by destruct (cr_ok _).
Qed.
End Facts.
