(* ===== verification/DrMemory.v ===== *)
(** The in-memory repository of apexquant-disaster-recovery ([repository.py]),
    which the bootstrap takes without a database.

    The dicts hold references to the objects that were handed in: what a reader
    gets is the stored object, and a later write shows in it.  A reference is a
    place in the heap of its kind. *)
From stdpp Require Import base strings list gmap numbers.
From Stdlib Require Import Ascii Sorted.
From S2P Require Import Prelude PyStr Readiness Drills.

#[local] Open Scope string_scope.

Notation Ref := nat (only parsing).
Record PlanObj := { po_id : option Z; po_plan : RecoveryPlan; po_created_at : option Z; po_updated_at : option Z }.
Record ComponentObj := { co_id : option Z; co_plan : option Z; co_component : RecoveryComponent }.
Record DrillObj := { do_id : option Z; do_drill : Drill }.
Record StepObj := { so_id : option Z; so_drill : option Z; so_step : DrillStep }.
Record EventObj := { eo_id : option Z; eo_event : DREvent }.

Record Memory := {
  plan_heap : list PlanObj; component_heap : list ComponentObj; drill_heap : list DrillObj; step_heap : list StepObj; event_heap : list EventObj;
  m_plans : pydict Z Ref; m_components : pydict Z (list Ref); m_drills : pydict Z Ref; m_steps : pydict Z (list Ref); m_events : list Ref;
  next_uuid : Z
}.
Notation MemM := (st Memory dr_exc).

Definition set_plans (h : list PlanObj) (d : pydict Z Ref) (s : Memory) : Memory :=
  {| plan_heap := h; component_heap := component_heap s; drill_heap := drill_heap s; step_heap := step_heap s; event_heap := event_heap s;
     m_plans := d; m_components := m_components s; m_drills := m_drills s; m_steps := m_steps s; m_events := m_events s; next_uuid := next_uuid s |}.
Definition set_components (h : list ComponentObj) (d : pydict Z (list Ref)) (s : Memory) : Memory :=
  {| plan_heap := plan_heap s; component_heap := h; drill_heap := drill_heap s; step_heap := step_heap s; event_heap := event_heap s;
     m_plans := m_plans s; m_components := d; m_drills := m_drills s; m_steps := m_steps s; m_events := m_events s; next_uuid := next_uuid s |}.
Definition set_drills (h : list DrillObj) (d : pydict Z Ref) (s : Memory) : Memory :=
  {| plan_heap := plan_heap s; component_heap := component_heap s; drill_heap := h; step_heap := step_heap s; event_heap := event_heap s;
     m_plans := m_plans s; m_components := m_components s; m_drills := d; m_steps := m_steps s; m_events := m_events s; next_uuid := next_uuid s |}.
Definition set_steps (h : list StepObj) (d : pydict Z (list Ref)) (s : Memory) : Memory :=
  {| plan_heap := plan_heap s; component_heap := component_heap s; drill_heap := drill_heap s; step_heap := h; event_heap := event_heap s;
     m_plans := m_plans s; m_components := m_components s; m_drills := m_drills s; m_steps := d; m_events := m_events s; next_uuid := next_uuid s |}.
Definition set_events (h : list EventObj) (l : list Ref) (s : Memory) : Memory :=
  {| plan_heap := plan_heap s; component_heap := component_heap s; drill_heap := drill_heap s; step_heap := step_heap s; event_heap := h;
     m_plans := m_plans s; m_components := m_components s; m_drills := m_drills s; m_steps := m_steps s; m_events := l; next_uuid := next_uuid s |}.
Definition used_uuid (s : Memory) : Memory :=
  {| plan_heap := plan_heap s; component_heap := component_heap s; drill_heap := drill_heap s; step_heap := step_heap s; event_heap := event_heap s;
     m_plans := m_plans s; m_components := m_components s; m_drills := m_drills s; m_steps := m_steps s; m_events := m_events s; next_uuid := (next_uuid s + 1)%Z |}.
Definition empty_memory : Memory :=
  {| plan_heap := []; component_heap := []; drill_heap := []; step_heap := []; event_heap := []; m_plans := []; m_components := [];
     m_drills := []; m_steps := []; m_events := []; next_uuid := 1 |}.

(** A reference that is none: no caller has one. *)
Definition deref {A} (h : list A) (r : Ref) : MemM A := fun s =>
  match h !! r with Some o => (Ok o, s) | None => (Err (AttributeError "no object"), s) end.
(** [if x is None: x = new_uuid()] *)
Definition identified (o : option Z) : MemM Z := fun s =>
  match o with Some id => (Ok id, s) | None => (Ok (next_uuid s), used_uuid s) end.

(** ** Plans and components *)

Definition mem_create_plan (now : Z) (r : Ref) : MemM Ref :=
  s ← get_state; o ← deref (plan_heap s) r;
  id ← identified (po_id o);
  s ← get_state;
  let o' := {| po_id := Some id; po_plan := po_plan o; po_created_at := Some (default now (po_created_at o)); po_updated_at := Some now |} in
  let s' := set_plans (<[r := o']> (plan_heap s)) (dict_set id r (m_plans s)) s in
  put_state (set_components (component_heap s') (dict_setdefault id [] (m_components s')) s') ≫= fun _ => mret r.
Definition mem_get_plan (id : Z) (s : Memory) : option Ref := dict_get id (m_plans s).
Definition plan_at (s : Memory) (r : Ref) : option RecoveryPlan := po_plan <$> plan_heap s !! r.
Definition mem_get_plan_by_name (n : string) (s : Memory) : option Ref :=
  head (filter (fun r => (name <$> plan_at s r) = Some n) (dict_values (m_plans s))).
Definition plan_before (s : Memory) (a b : Ref) : bool :=
  match plan_at s a, plan_at s b with Some p, Some q => str_lt (name p) (name q) | _, _ => false end.
Definition mem_list_plans (s : Memory) : list Ref := py_sorted (plan_before s) (dict_values (m_plans s)).
Definition mem_update_plan_status (now id : Z) (x : PlanStatus) : MemM unit :=
  s ← get_state;
  match mem_get_plan id s with
  | None => raise (not_found "plan" id)
  | Some r =>
      o ← deref (plan_heap s) r;
      put_state (set_plans (<[r := {| po_id := po_id o; po_plan := with_status x (po_plan o); po_created_at := po_created_at o;
                                      po_updated_at := Some now |}]> (plan_heap s)) (m_plans s) s)
  end.
Definition component_at (s : Memory) (r : Ref) : option RecoveryComponent := co_component <$> component_heap s !! r.
Definition mem_add_component (r : Ref) : MemM Ref :=
  s ← get_state; o ← deref (component_heap s) r;
  match co_plan o with
  | None => raise (DRRepositoryError "component.plan_id is required")
  | Some pid =>
      guard_raise (negb (dict_has pid (m_plans s))) (not_found "plan" pid) ≫= fun _ =>
      id ← identified (co_id o);
      s ← get_state;
      let s1 := set_components (<[r := {| co_id := Some id; co_plan := Some pid; co_component := co_component o |}]> (component_heap s))
                  (dict_setdefault pid [] (m_components s)) s in
      put_state s1 ≫= fun _ =>
      let existing := default [] (dict_get pid (m_components s1)) in
      guard_raise (existsb (fun e => bool_decide ((component_name <$> component_at s1 e) = Some (component_name (co_component o)))) existing)
        (DRRepositoryError ("component already exists: " ++ component_name (co_component o))) ≫= fun _ =>
      put_state (set_components (component_heap s1) (dict_set pid (existing ++ [r])%list (m_components s1)) s1) ≫= fun _ => mret r
  end.
Definition priority_before (s : Memory) (a b : Ref) : bool :=
  match component_at s a, component_at s b with Some p, Some q => (priority p <? priority q)%Z | _, _ => false end.
Definition mem_list_components (id : Z) (s : Memory) : list Ref :=
  py_sorted (priority_before s) (default [] (dict_get id (m_components s))).

(** ** Drills *)

Definition mem_create_drill (r : Ref) : MemM Ref :=
  s ← get_state; o ← deref (drill_heap s) r;
  id ← identified (do_id o);
  s ← get_state;
  let s1 := set_drills (<[r := {| do_id := Some id; do_drill := do_drill o |}]> (drill_heap s)) (dict_set id r (m_drills s)) s in
  put_state (set_steps (step_heap s1) (dict_setdefault id [] (m_steps s1)) s1) ≫= fun _ => mret r.
Definition mem_update_drill (r : Ref) : MemM unit :=
  s ← get_state; o ← deref (drill_heap s) r;
  match do_id o with
  | None => raise (DRRepositoryError "drill.drill_id is required")
  | Some id => put_state (set_drills (drill_heap s) (dict_set id r (m_drills s)) s)
  end.
Definition mem_get_drill (id : Z) (s : Memory) : option Ref := dict_get id (m_drills s).
Definition drill_at (s : Memory) (r : Ref) : option Drill := do_drill <$> drill_heap s !! r.
Definition stored_drills (s : Memory) : list Ref := dict_values (m_drills s).
Definition started_before (s : Memory) (a b : Ref) : bool :=
  match drill_at s a, drill_at s b with Some p, Some q => (started_at p <? started_at q)%Z | _, _ => false end.
(** [l[:limit]] *)
Definition py_prefix {A} (limit : Z) (l : list A) : list A :=
  take (Z.to_nat (if (limit <? 0)%Z then Z.of_nat (length l) + limit else limit)) l.
Definition mem_list_drills (pid : option Z) (limit : Z) (s : Memory) : list Ref :=
  py_prefix limit (py_sorted_rev (started_before s)
    (filter (fun r => match pid with Some p => bool_decide ((dr_plan <$> drill_at s r) = Some p) | None => true end = true) (stored_drills s))).

Definition finished_at (d : Drill) : Z := default (started_at d) (completed_at d).
(** [max(l, key=...)]: the first of the greatest *)
Fixpoint latest_of (best : Drill) (l : list Drill) : Drill :=
  match l with [] => best | d :: l' => latest_of (if (finished_at best <? finished_at d)%Z then d else best) l' end.
Definition latest_passed (now : Z) (days : option Z) (passed : list Drill) : bool :=
  match passed with
  | [] => false
  | d :: l => match days with None => true | Some n => (now - n * 86400 <=? finished_at (latest_of d l))%Z end
  end.
Definition mem_latest_passed_drill_within_days (now pid : Z) (days : option Z) (s : Memory) : bool :=
  latest_passed now days (filter (fun d => dr_plan d = pid /\ dr_status d = D_SUCCEEDED) (omap (drill_at s) (stored_drills s))).

(** ** Steps and events *)

Definition mem_create_step (r : Ref) : MemM Ref :=
  s ← get_state; o ← deref (step_heap s) r;
  match so_drill o with
  | None => raise (DRRepositoryError "step.drill_id is required")
  | Some did =>
      id ← identified (so_id o);
      s ← get_state;
      let d := dict_setdefault did [] (m_steps s) in
      put_state (set_steps (<[r := {| so_id := Some id; so_drill := Some did; so_step := so_step o |}]> (step_heap s))
                   (dict_set did (default [] (dict_get did d) ++ [r])%list d) s) ≫= fun _ => mret r
  end.
Definition step_id_at (s : Memory) (r : Ref) : option Z := step_heap s !! r ≫= so_id.
(** The place of the first step with the identifier *)
Fixpoint step_index (s : Memory) (id : Z) (l : list Ref) : option nat :=
  match l with
  | [] => None
  | r :: l' => if decide (step_id_at s r = Some id) then Some 0%nat else S <$> step_index s id l'
  end.
Definition mem_update_step (r : Ref) : MemM unit :=
  s ← get_state; o ← deref (step_heap s) r;
  match so_drill o, so_id o with
  | Some did, Some id =>
      let steps := default [] (dict_get did (m_steps s)) in
      match step_index s id steps with
      | Some i => put_state (set_steps (step_heap s) (dict_set did (<[i := r]> steps) (m_steps s)) s)
      | None => raise (not_found "step" id)
      end
  | _, _ => raise (DRRepositoryError "step.drill_id and step.step_id are required")
  end.
Definition order_before (s : Memory) (a b : Ref) : bool :=
  match step_heap s !! a, step_heap s !! b with Some p, Some q => (step_order (so_step p) <? step_order (so_step q))%Z | _, _ => false end.
Definition mem_list_steps (did : Z) (s : Memory) : list Ref := py_sorted (order_before s) (default [] (dict_get did (m_steps s))).
Definition mem_record_event (r : Ref) : MemM Ref :=
  s ← get_state; o ← deref (event_heap s) r;
  id ← identified (eo_id o);
  s ← get_state;
  put_state (set_events (<[r := {| eo_id := Some id; eo_event := eo_event o |}]> (event_heap s)) (m_events s ++ [r])%list s) ≫= fun _ => mret r.

(** ** Reading *)

(** A caller that holds a plan sees its status change under its hands. *)
Lemma status_shows_in_held_plan now id x s s' r o :
  mem_get_plan id s = Some r -> plan_heap s !! r = Some o -> mem_update_plan_status now id x s = (Ok tt, s') ->
  mem_get_plan id s' = Some r /\ status <$> plan_at s' r = Some x.
Proof.
  intros Hg Ho H. unfold mem_update_plan_status in H. rewrite st_bind_get, Hg in H. unfold deref in H.
  rewrite (st_bind_ok _ _ s o s) in H by by rewrite Ho. injection H as <-. split; [done|].
  unfold plan_at. cbn [plan_heap set_plans]. rewrite list_lookup_insert_eq by by eapply lookup_lt_Some. done.
Qed.

(** The memory and the database agree on whether a drill passed lately. *)
Lemma latest_of_max l : forall best, (finished_at best <= finished_at (latest_of best l))%Z /\
  Forall (fun d => finished_at d <= finished_at (latest_of best l))%Z l /\ (latest_of best l = best \/ latest_of best l ∈ l).
Proof.
  induction l as [|d l IH]; intros best; cbn [latest_of]; [split_and!; [lia|done|by left]|].
  destruct (Z.ltb_spec (finished_at best) (finished_at d)) as [Hlt|Hge].
  - destruct (IH d) as (H1 & H2 & H3). split_and!; [lia|by constructor|]. right. destruct H3 as [->|?]; [by left|by right].
  - destruct (IH best) as (H1 & H2 & H3). split_and!; [lia|constructor; [lia|done]|]. destruct H3 as [?|?]; [by left|right; by right].
Qed.
Lemma latest_passed_iff now days l : latest_passed now days l = true <->
  exists d, d ∈ l /\ match days with None => True | Some n => (now - n * 86400 <= finished_at d)%Z end.
Proof.
  destruct l as [|d l]; cbn [latest_passed]; [split; [done|by intros (d & Hd%elem_of_nil & _)]|].
  destruct days as [n|]; [|split; [intros _; exists d; by split; [left|]|done]].
  destruct (latest_of_max l d) as (H1 & H2 & H3). rewrite Z.leb_le. split.
  - intros H. exists (latest_of d l). split; [|done]. destruct H3 as [->|?]; [by left|by right].
  - intros (x & [->|Hx]%elem_of_cons & H); [lia|]. rewrite list.Forall_forall in H2. specialize (H2 x Hx). lia.
Qed.
Lemma latest_passed_agrees now pid days m s :
  omap (drill_at m) (stored_drills m) ≡ₚ drills s ->
  mem_latest_passed_drill_within_days now pid days m = latest_passed_drill_within_days now pid days s.
Proof.
  intros Hp. apply eq_true_iff_eq. unfold mem_latest_passed_drill_within_days, latest_passed_drill_within_days.
  rewrite latest_passed_iff, existsb_elem. setoid_rewrite list_elem_of_filter. setoid_rewrite Hp.
  setoid_rewrite andb_true_iff. setoid_rewrite andb_true_iff. setoid_rewrite bool_decide_eq_true. setoid_rewrite Z.eqb_eq.
  split; intros (d & H); exists d; destruct days; rewrite ?Z.leb_le in *; naive_solver.
Qed.
