(* ===== verification/DrApp.v ===== *)
(** The HTTP service, the summary and the commands of
    apexquant-disaster-recovery: [app.py], [DisasterRecoveryService.status] and
    [cli.py], over the plans and drills of [Drills] in PostgreSQL.

    A call is a request as the router decoded it, with the time it runs at.  An
    answer is the object the function of the route returns, which FastAPI
    serialises; an exception that no handler takes ends in a plain 500. *)
From stdpp Require Import base strings list gmap pretty numbers.
From Stdlib Require Import Ascii QArith Qround Sorted.
From S2P Require Import Prelude PyStr Readiness Drills DrillProps.

#[local] Open Scope Z_scope.
#[local] Open Scope nat_scope.

(** ** The requests *)

Record PlanCreateRequest := {
  pc_name : string; pc_environment : string; pc_description : string; pc_criticality_tier : string; pc_rpo_seconds : Z;
  pc_rto_seconds : Z; pc_drill_max_age_days : option Z }.
(** The fields of a component are those of the model it is copied to. *)
Record ActorRequest := { ar_actor : string; ar_trigger : string }.

Definition plan_fits (p : PlanCreateRequest) : bool :=
  (0 <? pc_rpo_seconds p)%Z && (0 <? pc_rto_seconds p)%Z && gt0 (pc_drill_max_age_days p).
Definition component_fits (c : RecoveryComponent) : bool := (0 <? priority c)%Z && gt0 (c_rpo_seconds c) && gt0 (c_rto_seconds c).
Definition plan_of (p : PlanCreateRequest) : RecoveryPlan :=
  {| plan_id := 0; name := pc_name p; environment := pc_environment p; description := pc_description p;
     criticality_tier := pc_criticality_tier p; rpo_seconds := pc_rpo_seconds p; rto_seconds := pc_rto_seconds p;
     drill_max_age_days := pc_drill_max_age_days p; status := DRAFT |}.

Inductive Call :=
| Healthz | Readyz
| CreatePlan (payload : PlanCreateRequest) | ListPlans | GetPlan (plan_id : Z)
| ActivatePlan (plan_id : Z) (payload : ActorRequest)
| AddComponent (plan_id : Z) (payload : RecoveryComponent) | ListComponents (plan_id : Z)
| RunDrill (plan_id : Z) (payload : ActorRequest) (now : Z) | GetReadiness (plan_id now : Z)
| ListDrills (plan_id : option Z) (limit : Z) | GetDrill (drill_id : Z) | GetStatus.
Definition fits (c : Call) : bool :=
  match c with CreatePlan p => plan_fits p | AddComponent _ p => component_fits p | _ => true end.

(** ** The answers *)

Record PlanSummary := { ps_plan_id : string; ps_name : string; ps_environment : string; ps_status : string; latest_drill : option Drill }.
Inductive Answer :=
| Alive | Ready | Plan (p : option RecoveryPlan) | Plans (l : list RecoveryPlan) | Component (c : RecoveryComponent)
| Components (l : list RecoveryComponent) | DrillRun (d : Drill) | DrillRuns (l : list Drill) | Report (r : ReadinessReport)
| Summary (l : list PlanSummary).
Inductive Reply := Answered (code : Z) (a : Answer) | ErrorReply (code : Z) (error : string) | Unprocessable | InternalServerError.
Definition code (r : Reply) : Z :=
  match r with Answered c _ | ErrorReply c _ => c | Unprocessable => 422 | InternalServerError => 500 end.

(** [LIMIT] of a negative number is refused. *)
Definition limited_drills (pid : option Z) (limit : Z) (s : DRDb) : result dr_exc (list Drill) :=
  if (limit <? 0)%Z then Err (DatabaseError "LIMIT must not be negative") else Ok (list_drills pid (Z.to_nat limit) s).

(** [DisasterRecoveryService.status] *)
Definition dr_status_summary (s : DRDb) : list PlanSummary :=
  map (fun p => {| ps_plan_id := pretty (plan_id p); ps_name := name p; ps_environment := environment p;
                   ps_status := plan_status_value (status p); latest_drill := head (list_drills (Some (plan_id p)) 1 s) |})
      (list_plans s).

Section App.
Context (provider : BackupStatusProvider) (check : HealthChecker) (enable_health_checks : bool) (rnd : Q -> Q).

Definition found {A} (o : option A) (e : dr_exc) : result dr_exc A := match o with Some x => Ok x | None => Err e end.
Definition endpoint (c : Call) : DRM Answer :=
  match c with
  | Healthz => mret Alive
  | Readyz => mret Ready
  | CreatePlan p => x ← create_plan (plan_of p) "system"; mret (Plan (Some x))
  | ListPlans => s ← get_state; mret (Plans (list_plans s))
  | GetPlan id => s ← get_state; x ← lift (found (get_plan id s) (not_found "plan" id)); mret (Plan (Some x))
  | ActivatePlan id p => x ← activate_plan id (ar_actor p); mret (Plan x)
  | AddComponent id p => x ← add_component id p "system"; mret (Component x)
  | ListComponents id => s ← get_state; mret (Components (list_components id s))
  | RunDrill id p now => x ← run_drill provider check enable_health_checks rnd now id (ar_actor p) (ar_trigger p); mret (DrillRun x)
  | GetReadiness id now => x ← build_readiness_report provider check enable_health_checks rnd now id; mret (Report x)
  | ListDrills pid limit => s ← get_state; l ← lift (limited_drills pid limit s); mret (DrillRuns l)
  | GetDrill id => s ← get_state; x ← lift (found (get_drill id s) (not_found "drill" id)); mret (DrillRun x)
  | GetStatus => s ← get_state; mret (Summary (dr_status_summary s))
  end.
Definition success_code (c : Call) : Z :=
  match c with CreatePlan _ | AddComponent _ _ | RunDrill _ _ _ => 201 | _ => 200 end.
(** [not_found_handler] and [dr_error_handler]; only [DRNotFoundError] and
    [DRStateError] are errors of the package in the sense of the handlers. *)
Definition error_reply (e : dr_exc) : Reply :=
  match e with
  | DRNotFoundError m => ErrorReply 404 m
  | DRStateError m => ErrorReply 400 m
  | DRRepositoryError _ | AttributeError _ | DatabaseError _ | ProviderError _ => InternalServerError
  end.
Definition handle (c : Call) (s : DRDb) : Reply * DRDb :=
  if negb (fits c) then (Unprocessable, s)
  else match endpoint c s with
       | (Ok a, s') => (Answered (success_code c) a, s')
       | (Err e, s') => (error_reply e, s')
       end.

(** ** cli.py *)

(** What a command prints, and its exit code. *)
Inductive Printed := PlanNotFound (plan_name : string) | Shown (a : Answer).
Definition cmd_readiness (now : Z) (plan_name : string) : DRM (Printed * Z) :=
  s ← get_state;
  match get_plan_by_name plan_name s with
  | None => mret (PlanNotFound plan_name, 1%Z)
  | Some plan =>
      r ← build_readiness_report provider check enable_health_checks rnd now (plan_id plan);
      mret (Shown (Report r), if (state r =? "READY")%string then 0%Z else 1%Z)
  end.
Definition cmd_run_drill (now : Z) (plan_name who trig : string) : DRM (Printed * Z) :=
  s ← get_state;
  match get_plan_by_name plan_name s with
  | None => mret (PlanNotFound plan_name, 1%Z)
  | Some plan =>
      d ← run_drill provider check enable_health_checks rnd now (plan_id plan) who trig;
      mret (Shown (DrillRun d), if bool_decide (dr_status d = D_SUCCEEDED) then 0%Z else 1%Z)
  end.
Definition cmd_status : DRM (Printed * Z) := s ← get_state; mret (Shown (Summary (dr_status_summary s)), 0%Z).
(** An empty option counts as none. *)
Definition or_default_text (o : option string) (d : string) : string :=
  match o with Some x => if str_empty x then d else x | None => d end.
Definition cmd_bootstrap_default_plan (settings_environment default_policy : string) (backup_policy : option string) (who : string) : DRM (Printed * Z) :=
  p ← bootstrap_default_plan settings_environment (or_default_text backup_policy default_policy) who;
  match p with
  | None => raise (AttributeError "'NoneType' object has no attribute 'model_dump_json'")
  | Some _ => mret (Shown (Plan p), 0%Z)
  end.
End App.

(** ** The summary *)

(** The drill that is shown for a plan is one of it, and none of it started
    later; none is shown only of a plan that had none. *)
Lemma latest_drill_spec pid s :
  match head (list_drills (Some pid) 1 s) with
  | Some d => (d ∈ drills s /\ dr_plan d = pid) /\ forall x, x ∈ drills s -> dr_plan x = pid -> (started_at x <= started_at d)%Z
  | None => forall x, x ∈ drills s -> dr_plan x <> pid
  end.
Proof.
  unfold list_drills. set (before := fun a b => (started_at a <? started_at b)%Z).
  set (mine := tbl_select (fun d => (dr_plan d =? pid)%Z) (drills s)).
  assert (Hm : forall x, x ∈ mine <-> x ∈ drills s /\ dr_plan x = pid).
  { intros x. unfold mine. rewrite tbl_select_elem, Z.eqb_eq. done. }
  destruct (py_sorted_rev before mine) as [|d l] eqn:Hl.
  - intros x Hx He. assert (Hin : x ∈ py_sorted_rev before mine) by (apply elem_of_py_sorted_rev, Hm; done).
    rewrite Hl in Hin. by apply elem_of_nil in Hin.
  - cbn [take head]. apply (py_sorted_rev_head before) in Hl as [Hd Hmax]; [|unfold before; intros; lia|unfold sort_le, before; intros; lia].
    split; [by apply Hm|]. intros x Hx He. specialize (Hmax x (proj2 (Hm x) (conj Hx He))). unfold sort_le, before in Hmax. lia.
Qed.

(** ** Errors *)

(** An exception that no handler takes. *)
Definition server_error (e : dr_exc) : Prop :=
  match e with DRNotFoundError _ | DRStateError _ => False | _ => True end.
Lemma map_result_err {E A B} (f : A -> result E B) l e : map_result f l = Err e -> exists x, x ∈ l /\ f x = Err e.
Proof.
  induction l as [|x l IH]; [done|]. cbn [map_result]. destruct (f x) as [y|e'] eqn:Hx; cbn.
  - destruct (map_result f l) as [ys|e''] eqn:Hl; cbn; [done|]. intros [= ->]. destruct (IH eq_refl) as (z & Hz & He). exists z. split; [by right|done].
  - intros [= ->]. exists x. split; [left|done].
Qed.

Section Errors.
Context (provider : BackupStatusProvider) (check : HealthChecker) (enable_health_checks : bool) (rnd : Q -> Q).
(** Reading the backups and asking an endpoint raise no errors of the package. *)
Definition sources_quiet : Prop :=
  (forall p e, bp_policy_exists provider p = Err e -> server_error e) /\
  (forall p e, bp_latest_backup provider p = Err e -> server_error e) /\
  (forall c e, check c = Err e -> server_error e).
Context (Hquiet : sources_quiet).
Notation handle := (handle provider check enable_health_checks rnd).

Lemma assess_errors now plan l e : assess_backup_requirements provider now plan l = Err e -> server_error e.
Proof.
  destruct Hquiet as (H1 & H2 & _). intros (c & _ & H)%map_result_err. unfold assess_component in H.
  repeat (case_match; simplify_eq; try done).
  destruct (bp_policy_exists provider _) as [x|e1] eqn:He; cbn in H; [|injection H as <-; by eapply H1].
  destruct x; cbn in H; [|done]. destruct (bp_latest_backup provider _) as [b|e2] eqn:Hb; cbn in H; [|injection H as <-; by eapply H2].
  repeat (case_match; simplify_eq; try done).
Qed.
Lemma health_errors l e : Readiness.check_health check enable_health_checks l = Err e -> server_error e.
Proof.
  destruct Hquiet as (_ & _ & H3). unfold Readiness.check_health.
  destruct (map_result _ l) as [x|e'] eqn:Hm; cbn; [done|]. intros [= ->].
  apply map_result_err in Hm as (c & _ & H). unfold check_component in H. repeat (case_match; try done).
  destruct (check c) as [h|e1] eqn:Hc; cbn in H; [done|]. injection H as <-. by eapply H3.
Qed.
Lemma report_errors now plan l b e : build_report provider check enable_health_checks rnd now plan l b = Err e -> server_error e.
Proof.
  unfold build_report. destruct (assess_backup_requirements _ _ _ _) as [x|e1] eqn:H1; cbn; [|intros [= <-]; by eapply assess_errors].
  destruct (Readiness.check_health _ _ _) as [y|e2] eqn:H2; cbn; [|intros [= <-]; by eapply health_errors].
  by destruct (score_readiness _ _ _ _ _) as [[? ?] ?].
Qed.
Lemma readiness_errors now pid plan s e s' : get_plan pid s = Some plan ->
  build_readiness_report provider check enable_health_checks rnd now pid s = (Err e, s') -> server_error e.
Proof.
  intros Hp. unfold build_readiness_report. rewrite st_bind_get, Hp. unfold lift.
  intros [= H _]. by eapply report_errors.
Qed.

(** The steps of a drill touch nothing but steps, and find the rows they made. *)
Definition steps_only (s s' : DRDb) : Prop := plans s' = plans s /\ components s' = components s /\ drills s' = drills s.
Lemma run_steps_errors drill now l : forall order failed s r s', run_steps drill now l order failed s = (r, s') ->
  steps_only s s' /\ forall e, r = Err e -> server_error e.
Proof.
  induction l as [|[n fn] l IH]; intros order failed s r s' H; cbn [run_steps] in H.
  { injection H as <- <-. by split. }
  apply st_bind_inv in H as [(row & s1 & H1 & H)|(e & H1 & ->)].
  2: { unfold create_step in H1. repeat (case_match; simplify_eq); (split; [done|by intros ? [= <-]]). }
  assert (Hrow : steps_only s s1 /\ exists y, y ∈ steps s1 /\ step_id y = step_id row).
  { unfold create_step in H1. repeat (case_match; simplify_eq); try done. split; [done|]. eexists. split; [|done].
    cbn. apply elem_of_app. right. by left. }
  destruct Hrow as [Hs (y & Hy & Hid)]. rewrite st_bind_get in H.
  destruct (finish_step row now (fn s1)) as [done_ bad] eqn:Hf.
  assert (Hd : step_id done_ = step_id row). { unfold finish_step in Hf. by repeat (case_match; simplify_eq). }
  assert (Hu : exists s2, update_step done_ s1 = (Ok tt, s2) /\ steps_only s1 s2).
  { unfold update_step. rewrite Hd. rewrite (proj2 (existsb_exists _ _)); [by eexists|]. exists y. rewrite <- list_elem_of_In, Hid. split; [done|lia]. }
  destruct Hu as (s2 & Hu & Hs2). rewrite (st_bind_ok _ _ _ _ _ Hu) in H.
  assert (Hs12 : steps_only s s2) by (destruct Hs as (? & ? & ?), Hs2 as (? & ? & ?); split_and!; congruence).
  destruct (bad && _); [by injection H as <- <-|].
  apply IH in H as [(? & ? & ?) He]. split; [|done]. destruct Hs12 as (? & ? & ?). split_and!; congruence.
Qed.

(** No drill of a plan that exists is answered: each ends in an error that no
    handler takes. *)
Lemma run_drill_raises now pid who trig plan s : get_plan pid s = Some plan ->
  exists e s', run_drill provider check enable_health_checks rnd now pid who trig s = (Err e, s') /\ server_error e.
Proof.
  intros Hp. destruct (complete_drill provider check enable_health_checks rnd now pid who trig s) as [[d|e] s'] eqn:H.
  { do 2 eexists. split; [by eapply event_refused|done]. }
  exists e, s'. split; [unfold run_drill; by rewrite (st_bind_err _ _ _ _ _ H)|].
  unfold complete_drill in H. rewrite st_bind_get, Hp in H.
  destruct (get_plan_id _ _ _ Hp) as [Hpid _]. rewrite Hpid in H.
  apply st_bind_inv in H as [(d & s1 & H1 & H)|(e' & H1 & [= ->])].
  2: { unfold create_drill in H1. by repeat (case_match; simplify_eq). }
  assert (Hd : plans s1 = plans s /\ exists y, y ∈ drills s1 /\ drill_id y = drill_id d).
  { unfold create_drill in H1. repeat (case_match; simplify_eq). split; [done|]. eexists. split; [|done]. cbn. apply elem_of_app. right. by left. }
  destruct Hd as [Hp1 (y & Hy & Hid)]. rewrite st_bind_get in H.
  apply st_bind_inv in H as [(reqs & s2 & H2 & H)|(e' & H2 & [= ->])]; unfold lift in H2; injection H2 as H2 Hs2.
  2: { by eapply assess_errors. }
  subst s2. apply st_bind_inv in H as [(failed & s2 & H3 & H)|(e' & H3 & [= ->])]; apply run_steps_errors in H3 as [(Hp2 & _ & Hd2) He].
  2: { by apply He. }
  apply st_bind_inv in H as [(rd & s3 & H4 & H)|(e' & H4 & [= ->])].
  2: { eapply (readiness_errors now pid plan s2); [|exact H4]. unfold get_plan in *. by rewrite Hp2, Hp1. }
  assert (s3 = s2) as ->.
  { unfold build_readiness_report in H4. rewrite st_bind_get in H4. destruct (get_plan pid s2); [|done]. unfold lift in H4. by injection H4. }
  apply st_bind_inv in H as [([] & s4 & H5 & H)|(e' & H5 & [= ->])]; [done|].
  unfold update_drill in H5. cbn [drill_id] in H5. rewrite Hd2, (proj2 (existsb_exists _ _)) in H5; [done|].
  exists y. rewrite <- list_elem_of_In, Hid. split; [done|lia].
Qed.

(** ** The answers of the service *)

(** The call is on a plan, or on a drill, that is not there. *)
Definition names_missing (c : Call) (s : DRDb) : Prop :=
  match c with
  | GetPlan id | ActivatePlan id _ | AddComponent id _ | RunDrill id _ _ | GetReadiness id _ => get_plan id s = None
  | GetDrill id => get_drill id s = None
  | _ => False
  end.
Definition activates_retired (c : Call) (s : DRDb) : Prop :=
  match c with ActivatePlan id _ => exists plan, get_plan id s = Some plan /\ status plan = RETIRED | _ => False end.
Lemma missing_not_retired c s : names_missing c s -> ~ activates_retired c s.
Proof. destruct c; cbn; try (by intros _ []). intros Hn (p & Hp & _). congruence. Qed.
Definition writes (c : Call) : bool :=
  match c with CreatePlan _ | ActivatePlan _ _ | AddComponent _ _ | RunDrill _ _ _ => true | _ => false end.
Definition is_drill (c : Call) : bool := match c with RunDrill _ _ _ => true | _ => false end.

(** What a call comes to, by the kind of its error. *)
Definition outcome_ok (c : Call) (s : DRDb) (x : result dr_exc Answer) (s' : DRDb) : Prop :=
  match x with
  | Ok _ => ~ names_missing c s /\ ~ activates_retired c s /\ is_drill c = false
  | Err (DRNotFoundError _) => names_missing c s
  | Err (DRStateError _) => activates_retired c s
  | Err e => ~ names_missing c s /\ ~ activates_retired c s
  end /\ (writes c = false -> s' = s).
Lemma server_outcome c s e s' : server_error e -> ~ names_missing c s -> ~ activates_retired c s -> (writes c = false -> s' = s) ->
  outcome_ok c s (Err e) s'.
Proof. intros He H1 H2 H3. split; [|done]. by destruct e. Qed.
(** A read that raises nothing. *)
Lemma read_outcome c s a : writes c = false -> is_drill c = false -> ~ names_missing c s -> ~ activates_retired c s -> outcome_ok c s (Ok a) s.
Proof. by repeat split. Qed.
Lemma create_plan_outcome p s x s' : (y ← create_plan (plan_of p) "system"; mret (Plan (Some y))) s = (x, s') -> outcome_ok (CreatePlan p) s x s'.
Proof.
  intros H. unfold create_plan in H.
  destruct (create_plan_row (plan_of p) s) as [[row|e] s1] eqn:H1.
  - destruct (record_event (event (plan_id row) "DR_PLAN_CREATED" "system" "disaster recovery plan created" (PlanDetails row)) s1) as [y s2] eqn:H2.
    unfold mbind, st_bind in H. rewrite H1, H2 in H. cbn in H2. injection H2 as <- <-. injection H as <- <-. by repeat split; [intros []..|].
  - unfold mbind, st_bind in H. rewrite H1 in H. injection H as <- <-. unfold create_plan_row in H1.
    repeat (case_match; simplify_eq); (split; [split; intros []|done]).
Qed.
Lemma activate_outcome id p s x s' : (y ← activate_plan id (ar_actor p); mret (Plan y)) s = (x, s') -> outcome_ok (ActivatePlan id p) s x s'.
Proof.
  intros H. unfold outcome_ok. cbn [names_missing activates_retired writes is_drill]. unfold activate_plan in H.
  unfold mbind, st_bind, get_state in H. destruct (get_plan id s) as [plan|] eqn:Hp; [|by injection H as <- <-].
  unfold guard_raise in H. case_bool_decide as Hr.
  - injection H as <- <-. split; [by exists plan|done].
  - assert (Hn : ~ exists plan0, Some plan = Some plan0 /\ status plan0 = RETIRED) by (intros (? & [= <-] & ?); done).
    cbn in H. unfold update_plan_status in H. rewrite Hp in H.
    repeat (case_match; simplify_eq; try done).
Qed.
Lemma add_component_outcome id p s x s' :
  (y ← add_component id p "system"; mret (Component y)) s = (x, s') -> outcome_ok (AddComponent id p) s x s'.
Proof.
  intros H. unfold outcome_ok. cbn [names_missing activates_retired writes is_drill]. unfold add_component in H.
  unfold mbind, st_bind, get_state in H. destruct (get_plan id s) as [plan|] eqn:Hp; [|by injection H as <- <-].
  destruct (add_component_row id p s) as [[row|e] s1] eqn:H1.
  - cbn [record_event event] in H. change (not_blank "DR_COMPONENT_ADDED" && not_blank "system") with true in H. injection H as <- <-. split; [split; [done|split; [by intros []|done]]|done].
  - injection H as <- <-. unfold add_component_row in H1. repeat (case_match; simplify_eq);
      (split; [split; [done|by intros []]|done]).
Qed.
Lemma drill_outcome id p now s x s' :
  (y ← run_drill provider check enable_health_checks rnd now id (ar_actor p) (ar_trigger p); mret (DrillRun y)) s = (x, s') ->
  outcome_ok (RunDrill id p now) s x s'.
Proof.
  intros H. destruct (get_plan id s) as [plan|] eqn:Hp.
  - destruct (run_drill_raises now id (ar_actor p) (ar_trigger p) plan s Hp) as (e & s1 & Hr & He).
    rewrite (st_bind_err _ _ _ _ _ Hr) in H. injection H as <- <-. apply server_outcome; [done|cbn; congruence|intros []|done].
  - unfold run_drill, complete_drill in H. unfold mbind, st_bind, get_state in H. rewrite Hp in H. injection H as <- <-. by split.
Qed.
Lemma readiness_outcome id now s x s' :
  (y ← build_readiness_report provider check enable_health_checks rnd now id; mret (Report y)) s = (x, s') ->
  outcome_ok (GetReadiness id now) s x s'.
Proof.
  intros H. destruct (build_readiness_report provider check enable_health_checks rnd now id s) as [y s1] eqn:Hr.
  assert (s1 = s) as ->.
  { unfold build_readiness_report in Hr. rewrite st_bind_get in Hr. destruct (get_plan id s); [unfold lift in Hr|]; by injection Hr. }
  unfold mbind, st_bind in H. rewrite Hr in H. destruct (get_plan id s) as [plan|] eqn:Hp.
  - destruct y as [y|e]; injection H as <- <-.
    + apply read_outcome; [done|done|cbn; congruence|intros []].
    + apply server_outcome; [by eapply readiness_errors|cbn; congruence|intros []|done].
  - unfold build_readiness_report in Hr. rewrite st_bind_get, Hp in Hr. injection Hr as <-. injection H as <- <-. by split.
Qed.
Local Ltac conditions := split_and!; first [done | by intros []].
Lemma endpoint_outcome c s x s' : endpoint provider check enable_health_checks rnd c s = (x, s') -> outcome_ok c s x s'.
Proof.
  intros H. destruct c as [| |p| |id|id p|id p|id|id p now|id now|o n|id|]; cbn [endpoint] in H;
    try (injection H as <- <-; apply read_outcome; [done|done|intros []|intros []]).
  - by apply create_plan_outcome.
  - rewrite st_bind_get, st_bind_lift in H. unfold outcome_ok. cbn [names_missing activates_retired is_drill writes].
    destruct (get_plan id s) as [plan|]; injection H as <- <-; conditions.
  - by apply activate_outcome.
  - by apply add_component_outcome.
  - by apply drill_outcome.
  - by apply readiness_outcome.
  - rewrite st_bind_get, st_bind_lift in H. unfold outcome_ok, limited_drills in *. cbn [names_missing activates_retired is_drill writes].
    destruct (n <? 0)%Z; injection H as <- <-; conditions.
  - rewrite st_bind_get, st_bind_lift in H. unfold outcome_ok. cbn [names_missing activates_retired is_drill writes].
    destruct (get_drill id s) as [d|]; injection H as <- <-; conditions.
Qed.

(** The reads that have an answer. *)
Definition answers (c : Call) (s : DRDb) : option Answer :=
  match c with
  | Healthz => Some Alive
  | Readyz => Some Ready
  | ListPlans => Some (Plans (list_plans s))
  | GetPlan id => (fun p => Plan (Some p)) <$> get_plan id s
  | ListComponents id => Some (Components (list_components id s))
  | ListDrills pid limit => if (limit <? 0)%Z then None else Some (DrillRuns (list_drills pid (Z.to_nat limit) s))
  | GetDrill id => DrillRun <$> get_drill id s
  | GetStatus => Some (Summary (dr_status_summary s))
  | _ => None
  end.
Lemma answers_reads c s a : answers c s = Some a -> handle c s = (Answered 200 a, s).
Proof.
  unfold DrApp.handle. destruct c as [| |p| |id|id p|id p|id|id p now|id now|o n|id|]; cbn [answers fits negb endpoint success_code];
    try (by intros [= <-]); try done; rewrite st_bind_get, st_bind_lift; unfold limited_drills.
  - destruct (get_plan id s); by intros [= <-].
  - destruct (n <? 0)%Z; by intros [= <-].
  - destruct (get_drill id s); by intros [= <-].
Qed.

(** C34: provided the sources of backups and health raise no errors of the
    package, an answer's status says what the request was: 422 exactly for a
    body that does not fit, 404 exactly for a plan or a drill that is not
    there, 400 exactly for activating a retired plan.  A read of what is there
    answers 200 with it, and only the four writing calls change the database. *)
Theorem api_statuses c s : let '(r, s') := handle c s in
  (code r = 422 <-> fits c = false)%Z /\
  (code r = 404 <-> fits c = true /\ names_missing c s)%Z /\
  (code r = 400 <-> activates_retired c s)%Z /\
  (forall a, answers c s = Some a -> r = Answered 200 a) /\
  (writes c = false \/ fits c = false -> s' = s).
Proof.
  pose proof (answers_reads c s) as Hreads. revert Hreads.
  unfold DrApp.handle. destruct (fits c) eqn:Hf; cbn [negb]; intros Hreads.
  2: { cbn [code]. split_and!; try done; [by split; [|intros []]| |].
       - split; [done|]. intros H. by destruct c.
       - intros a Ha. by specialize (Hreads a Ha). }
  destruct (endpoint provider check enable_health_checks rnd c s) as [x s'] eqn:He.
  apply endpoint_outcome in He as [Ho Hw].
  assert (H23 : (success_code c = 200 \/ success_code c = 201)%Z) by (destruct c; cbn; lia).
  assert (Hlast : writes c = false \/ true = false -> s' = s) by (intros [?|?]; [by apply Hw|done]).
  destruct x as [a|e].
  - destruct Ho as (Hm & Hr & Hd). cbn [code]. split_and!; try (intros b Hb; specialize (Hreads b Hb); congruence); try done;
      split; try lia; try done; by intros [_ ?].
  - assert (Hr : forall a, answers c s = Some a -> error_reply e = Answered 200 a) by (intros b Hb; specialize (Hreads b Hb); congruence).
    clear Hreads. destruct e; cbn [error_reply code] in *; split_and!; try exact Hr; try done; try (by right); try (by left); try (split; [done|]); try done;
      try (by intros [_ ?]); try (destruct Ho as [Hm Hr']; done); try (intros [_ ?] || intros ?); try (by destruct (missing_not_retired c s)); try (by destruct Ho).
Qed.
End Errors.

(** ** The commands *)

Section Commands.
Context (provider : BackupStatusProvider) (check : HealthChecker) (enable_health_checks : bool) (rnd : Q -> Q).

(** The readiness command succeeds exactly for a plan of that name whose report
    says READY, and it reads only; the drill command never succeeds. *)
Lemma readiness_succeeds now n s p s' : cmd_readiness provider check enable_health_checks rnd now n s = (Ok p, s') ->
  s' = s /\
  (p.2 = 0%Z <-> exists plan r, get_plan_by_name n s = Some plan /\
     build_readiness_report provider check enable_health_checks rnd now (plan_id plan) s = (Ok r, s) /\ state r = "READY").
Proof.
  unfold cmd_readiness. rewrite st_bind_get. destruct (get_plan_by_name n s) as [plan|] eqn:Hn.
  - intros H. apply st_bind_inv in H as [(r & s1 & Hr & H)|(e & _ & ?)]; [|done]. injection H as <- <-.
    assert (s1 = s) as ->.
    { unfold build_readiness_report in Hr. rewrite st_bind_get in Hr. destruct (get_plan _ s); [unfold lift in Hr|]; by injection Hr. }
    split; [done|]. cbn [snd]. destruct (String.eqb_spec (state r) "READY") as [He|He].
    + split; [intros _; by exists plan, r|done].
    + split; [done|]. intros (plan' & r' & [= <-] & Hr' & Hs). rewrite Hr in Hr'. by injection Hr' as <-.
  - intros [= <- <-]. split; [done|]. split; [done|]. by intros (? & ? & ? & _).
Qed.
Lemma drill_never_succeeds now n who trig s p s' : sources_quiet provider check ->
  cmd_run_drill provider check enable_health_checks rnd now n who trig s = (Ok p, s') -> p = (PlanNotFound n, 1%Z) /\ get_plan_by_name n s = None.
Proof.
  intros Hq. unfold cmd_run_drill. rewrite st_bind_get. destruct (get_plan_by_name n s) as [plan|] eqn:Hn; [|by intros [= <- <-]].
  assert (Hp : exists plan', get_plan (plan_id plan) s = Some plan').
  { apply tbl_find_elem in Hn as [Hin _]. unfold get_plan, tbl_find. destruct (head _) as [x|] eqn:Hh; [by exists x|].
    apply head_None in Hh. assert (plan ∈ []) as [] % elem_of_nil by (rewrite <- Hh; apply tbl_select_elem; split; [done|lia]). }
  destruct Hp as [plan' Hp].
  destruct (run_drill_raises provider check enable_health_checks rnd Hq now (plan_id plan) who trig plan' s Hp) as (e & s1 & Hr & _).
  by rewrite (st_bind_err _ _ _ _ _ Hr).
Qed.
End Commands.

(** ** A sample *)

Definition no_backups : BackupStatusProvider := InMemoryBackupStatusProvider {| mem_policies := ∅; mem_backups := ∅ |}.
Definition retired_db : DRDb :=
  let s := (create_plan (default_plan "production") "tests" empty_db).2 in
  with_plans (tbl_update (fun p => (plan_id p =? 1)%Z) (with_status RETIRED) (plans s)) s.
Definition activate_call : Call := ActivatePlan 1 {| ar_actor := "operator"; ar_trigger := "manual" |}.
Lemma sample_sources_quiet : sources_quiet no_backups NullHealthChecker.
Proof. by repeat split. Qed.
Lemma api_statuses_witness :
  activates_retired activate_call retired_db /\
  code (handle no_backups NullHealthChecker true (fun q => q) activate_call retired_db).1 = 400%Z.
Proof.
  assert (Hr : activates_retired activate_call retired_db) by (eexists; split; vm_compute; reflexivity).
  split; [exact Hr|].
  pose proof (api_statuses no_backups NullHealthChecker true (fun q => q) sample_sources_quiet activate_call retired_db) as H.
  destruct (handle no_backups NullHealthChecker true (fun q => q) activate_call retired_db) as [r s'].
  destruct H as (_ & _ & H & _). exact (proj2 H Hr).
Defined.
