(* ===== verification/BackupApp.v ===== *)
(** The HTTP service and the commands of apexquant-backup-recovery: [app.py] and
    [cli.py], over the service of [BackupService], any repository and any
    storage.

    A call is a request as the router decoded it.  An answer is the object the
    function of the route returns, which FastAPI serialises; an exception that
    no handler takes ends in a plain 500. *)
From stdpp Require Import base strings list gmap sorting pretty numbers.
From Stdlib Require Import Ascii.
From S2P Require Import Prelude PyStr Json PyPath Backup BackupStore BackupLaws BackupStorage BackupService BackupProps BackupVault BackupSample.

#[local] Open Scope string_scope.

(** ** The requests *)

Record PolicyCreateRequest := {
  pc_name : string; pc_target_system : TargetSystem; pc_target_name : string; pc_target_connection_ref : string;
  pc_storage_bucket : option string; pc_storage_prefix : string; pc_interval_minutes : Z; pc_backup_timeout_seconds : Z;
  pc_retention_count : option Z; pc_retention_days : option Z; pc_delete_expired : bool; pc_encryption_key_ref : option string;
  pc_enabled : bool }.
Record RestoreRequest := { rr_target_connection_ref : string; rr_dry_run : bool; rr_confirm : bool; rr_allow_production_restore : bool }.

(** [^(env://|vault://|secret://).+]: a scheme, and a character that ends no line *)
Definition follows_scheme (ref scheme : string) : bool :=
  starts_with scheme ref &&
  match String.substring (String.length scheme) 1 ref with String c _ => negb (Ascii.eqb c "010") | EmptyString => false end.
Definition ref_pattern (ref : string) : bool := existsb (follows_scheme ref) ["env://"; "vault://"; "secret://"].
Definition policy_fits (p : PolicyCreateRequest) : bool :=
  ref_pattern (pc_target_connection_ref p) && (0 <? pc_interval_minutes p)%Z && (0 <? pc_backup_timeout_seconds p)%Z
  && gt0 (pc_retention_count p) && gt0 (pc_retention_days p).

(** [payload.storage_bucket or settings.default_bucket] *)
Definition or_default (o : option string) (d : string) : string :=
  match o with Some x => if str_empty x then d else x | None => d end.
Definition policy_of (default_bucket : string) (p : PolicyCreateRequest) : BackupPolicy :=
  {| policy_id := None; name := pc_name p; target_system := pc_target_system p; target_name := pc_target_name p;
     target_connection_ref := pc_target_connection_ref p; storage_bucket := or_default (pc_storage_bucket p) default_bucket;
     storage_prefix := pc_storage_prefix p; interval_minutes := pc_interval_minutes p;
     backup_timeout_seconds := pc_backup_timeout_seconds p; retention_count := pc_retention_count p;
     retention_days := pc_retention_days p; delete_expired := pc_delete_expired p; encryption_key_ref := pc_encryption_key_ref p;
     enabled := pc_enabled p; next_run_at := None; created_at := None; updated_at := None |}.

Inductive Call :=
| Healthz | Readyz
| PostPolicy (payload : PolicyCreateRequest) | GetPolicies
| PostRun (policy_id : Uuid) (trigger : string) | PostRetention (policy_id : Uuid) | PostRunDue
| GetRuns (policy_id : option Uuid) (limit : Z) | GetRun (run_id : Uuid)
| PostVerify (run_id : Uuid) | PostRestore (run_id : Uuid) (payload : RestoreRequest).
Definition fits (c : Call) : bool :=
  match c with PostPolicy p => policy_fits p | PostRestore _ p => ref_pattern (rr_target_connection_ref p) | _ => true end.

Inductive Answer :=
| Alive | Ready | Policy (p : BackupPolicy) | Policies (l : list BackupPolicy) | Run (r : BackupRun) | Runs (l : list BackupRun)
| Artifacts (l : list BackupArtifact) | RestoreDone (r : RestoreRun).
Inductive Reply := Answered (code : Z) (a : Answer) | ErrorReply (code : Z) (error : string) | Unprocessable | InternalServerError.
Definition code (r : Reply) : Z :=
  match r with Answered c _ | ErrorReply c _ => c | Unprocessable => 422 | InternalServerError => 500 end.

Section App.
Context {R S : Type} `{BackupRepository R} `{ObjectStorageClient S}.
Context (default_bucket environment : string) (workdir : Path) (environ : string -> option string)
  (subprocess_run : list string -> option Z -> FileSystem -> Process * FileSystem)
  (sha256_hex : string -> string) (read_clock : nat -> Z).
Notation WM := (st (World R S) backup_exc).
Abbreviation backup := (create_backup (R := R) (S := S) workdir environ subprocess_run sha256_hex read_clock).

Definition found {A} (o : option A) (e : backup_exc) : result backup_exc A := match o with Some x => Ok x | None => Err e end.
Definition endpoint (c : Call) : WM Answer :=
  match c with
  | Healthz => mret Alive
  | Readyz => mret Ready
  | PostPolicy p => x ← service_create_policy read_clock (policy_of default_bucket p); mret (Policy x)
  | GetPolicies => w ← get_state; mret (Policies (list_policies (repo w)))
  | PostRun pid trig => x ← backup pid trig; mret (Run x)
  | PostRetention pid => x ← apply_retention read_clock pid; mret (Artifacts x)
  | PostRunDue => x ← run_due workdir environ subprocess_run sha256_hex read_clock; mret (Runs x)
  | GetRuns pid limit => w ← get_state; x ← lift (list_runs pid limit (repo w)); mret (Runs x)
  | GetRun rid =>
      w ← get_state;
      x ← lift (found (get_run rid (repo w)) (BackupNotFoundError ("backup run not found: " ++ uuid_text rid)));
      mret (Run x)
  | PostVerify rid => x ← verify_backup workdir subprocess_run sha256_hex read_clock rid; mret (Run x)
  | PostRestore rid p =>
      x ← restore_backup environment workdir environ subprocess_run sha256_hex read_clock rid (rr_target_connection_ref p)
            (rr_dry_run p) (rr_confirm p) (rr_allow_production_restore p);
      mret (RestoreDone x)
  end.
Definition success_code (c : Call) : Z := match c with PostPolicy _ => 201 | _ => 200 end.
(** [backup_not_found_handler] and [backup_error_handler] *)
Definition error_reply (e : backup_exc) : Reply :=
  match e with
  | BackupNotFoundError m => ErrorReply 404 m
  | _ => if is_backup_error e then ErrorReply 400 (exc_text e) else InternalServerError
  end.
Definition handle (c : Call) (w : World R S) : Reply * World R S :=
  if negb (fits c) then (Unprocessable, w)
  else match endpoint c w with
       | (Ok a, w') => (Answered (success_code c) a, w')
       | (Err e, w') => (error_reply e, w')
       end.

(** ** cli.py *)

Inductive Printed := PolicyNotFound (name : string) | Shown (a : Answer).
(** The policy of [create-policy], which the model's fields have taken. *)
Definition cmd_create_policy (p : BackupPolicy) : WM (Printed * Z) :=
  guard_raise (negb (policy_fields_ok p)) (OtherError "validation error for BackupPolicy") ≫= fun _ =>
  x ← service_create_policy read_clock p; mret (Shown (Policy x), 0%Z).
Definition cmd_run_policy (n : string) : WM (Printed * Z) :=
  w ← get_state;
  match get_policy_by_name n (repo w) with
  | None => mret (PolicyNotFound n, 1%Z)
  | Some p => x ← backup (policy_ident p) "manual"; mret (Shown (Run x), 0%Z)
  end.
Definition cmd_run_due : WM (Printed * Z) :=
  x ← run_due workdir environ subprocess_run sha256_hex read_clock; mret (Shown (Runs x), 0%Z).
Definition cmd_list_policies : WM (Printed * Z) := w ← get_state; mret (Shown (Policies (list_policies (repo w))), 0%Z).
End App.

(** ** What a run of a policy answers *)

Lemma follows_safe ref : ref_pattern ref = true -> ref_safe ref = true.
Proof.
  unfold ref_pattern, ref_safe, follows_scheme. cbn [existsb]. rewrite orb_false_r.
  intros [[H _]%andb_true_iff|[[H _]%andb_true_iff|[H _]%andb_true_iff]%orb_true_iff]%orb_true_iff; rewrite H; by rewrite ?orb_true_r.
Qed.

Section Answers.
Context {R S : Type} `{HR : BackupRepositoryLaws R} `{HS : ObjectStorageClient S}.
Context (default_bucket environment : string) (workdir : Path) (environ : string -> option string)
  (subprocess_run : list string -> option Z -> FileSystem -> Process * FileSystem)
  (sha256_hex : string -> string) (read_clock : nat -> Z).
Notation handle := (handle (R := R) (S := S) default_bucket environment workdir environ subprocess_run sha256_hex read_clock).
Abbreviation state w := (view (repo w)).

(** A request to back a policy up is answered by what became of it: 404 for no
    policy, 400 for a disabled one, 500 for a blank trigger that the tables
    refuse, and these execute nothing; otherwise it is run once, and the answer
    is the run that succeeded, or 400 with the error that its row has too. *)
Lemma run_policy_answer pid trig w : repo_ok (repo w) ->
  (forall id p, policies (state w) !! id = Some p -> interval_minutes p <> 0%Z) ->
  let '(r, w') := handle (PostRun pid trig) w in
  match policies (state w) !! pid with
  | None => r = ErrorReply 404 ("backup policy not found: " ++ uuid_text pid) /\ w' = w
  | Some p =>
      if negb (enabled p) then r = ErrorReply 400 ("backup policy is disabled: " ++ name p) /\ w' = w
      else (not_blank trig = false /\ r = InternalServerError /\ repo w' = repo w /\ store w' = store w) \/
      exists id run, runs (state w) !! id = None /\ runs (state w') !! id = Some run /\ run_policy_id run = pid /\ trigger run = trig /\
        match status run with
        | RUN_SUCCEEDED => r = Answered 200 (Run run)
        | _ => status run = RUN_FAILED /\ exists m, error run = Some m /\ r = ErrorReply 400 m
        end
  end.
Proof.
  intros Hok Hint.
  destruct (create_backup workdir environ subprocess_run sha256_hex read_clock pid trig w) as [x w'] eqn:Hb.
  assert (Hans : handle (PostRun pid trig) w = (match x with Ok y => Answered 200 (Run y) | Err e => error_reply e end, w')).
  { unfold BackupApp.handle. cbn [fits negb endpoint]. unfold mbind, st_bind. rewrite Hb. by destruct x. }
  rewrite Hans. clear Hans.
  destruct (policies (state w) !! pid) as [p|] eqn:Hp.
  2: { unfold create_backup in Hb. rewrite st_bind_get, (law_get_policy _ _ Hok), Hp in Hb. by injection Hb as <- <-. }
  destruct (enabled p) eqn:Hen; cbn [negb].
  2: { unfold create_backup in Hb. rewrite st_bind_get, (law_get_policy _ _ Hok), Hp, guard_raise_bind, Hen in Hb. by injection Hb as <- <-. }
  pose proof (backup_cases _ _ _ _ _ pid trig p w x w' Hok Hp Hen (Hint _ _ Hp) Hb) as [Hok' [Hran|(Hn & (e & -> & He) & Hr & Hs)]].
  - right. destruct Hran as (id & run & Hfresh & Hid & Hpid & Htrig & Hx). exists id, run.
    destruct x as [y|e].
    + destruct Hx as (-> & Hst & u & b & aid & art & next & upd & _ & _ & _ & _ & _ & Hv).
      split_and!; try done; [|by rewrite Hst]. rewrite Hv. cbn. unfold run_ident. rewrite Hid. apply lookup_insert_eq.
    + destruct Hx as (He & Hst & Herr & _ & _ & Hruns & _). split_and!; try done.
      * rewrite Hruns. unfold run_ident. rewrite Hid. apply lookup_insert_eq.
      * rewrite Hst. split; [done|]. exists (exc_text e). split; [done|]. by rewrite He.
  - left. split_and!; try done. by destruct e.
Qed.
End Answers.

(** ** Objects survive the API *)

Section Survive.
Context {R : Type} `{HR : BackupRepositoryLaws R}.
Context (base : Path) (default_bucket environment : string) (workdir : Path) (environ : string -> option string)
  (subprocess_run : list string -> option Z -> FileSystem -> Process * FileSystem)
  (sha256_hex : string -> string) (read_clock : nat -> Z).
Context `{HT : !DumpTools workdir subprocess_run}.
#[local] Instance directory : ObjectStorageClient unit := LocalDirectoryStorage base.
Notation handle := (handle (R := R) (S := unit) default_bucket environment workdir environ subprocess_run sha256_hex read_clock).
Notation serve := (serve (R := R) base environment workdir environ subprocess_run sha256_hex read_clock).

(** The request of the service that a call makes. *)
Definition request_of (c : Call) : option request :=
  match c with
  | PostPolicy p => if policy_fits p then Some (CreatePolicy (policy_of default_bucket p)) else None
  | PostRun pid trig => Some (RunPolicy pid trig)
  | PostRetention pid => Some (Retention pid)
  | PostRunDue => Some RunDue
  | PostVerify rid => Some (Verify rid)
  | PostRestore rid p =>
      if ref_pattern (rr_target_connection_ref p)
      then Some (Restore rid (rr_target_connection_ref p) (rr_dry_run p) (rr_confirm p) (rr_allow_production_restore p)) else None
  | Healthz | Readyz | GetPolicies | GetRuns _ _ | GetRun _ => None
  end.
Definition handle_all (cs : list Call) (w : World R unit) : World R unit := foldl (fun w c => (handle c w).2) w cs.

Lemma answer_world {A} (m : st (World R unit) backup_exc A) (f : A -> Answer) k w :
  (match (x ← m; mret (f x)) w with (Ok a, w') => (Answered k a, w') | (Err e, w') => (error_reply e, w') end).2 = (m w).2.
Proof. unfold mbind, st_bind. destruct (m w) as [[a|e] w']; done. Qed.
Lemma handle_serves c w : (handle c w).2 = match request_of c with Some q => serve q w | None => w end.
Proof.
  unfold BackupApp.handle. destruct c; cbn [fits request_of negb endpoint]; try done; try apply answer_world.
  - destruct (policy_fits payload); cbn [negb]; [apply answer_world|done].
  - destruct (ref_pattern _); cbn [negb]; [apply answer_world|done].
Qed.
Lemma request_valid c q : request_of c = Some q -> valid_request q.
Proof.
  destruct c; cbn [request_of]; try (by intros [= <-]); [|by destruct (ref_pattern _); [intros [= <-]|]].
  destruct (policy_fits payload) eqn:Hf; [|done]. intros [= <-]. split; [done|]. unfold policy_fits in Hf.
  apply andb_true_iff in Hf as [Hf H5]. apply andb_true_iff in Hf as [Hf H4]. apply andb_true_iff in Hf as [Hf H3].
  apply andb_true_iff in Hf as [_ H2]. unfold policy_fields_ok, policy_of. cbn [interval_minutes backup_timeout_seconds retention_count retention_days].
  rewrite H4, H5, !andb_true_r. exact (proj2 (andb_true_iff _ _) (conj H2 H3)).
Qed.
Lemma handle_all_serves cs : forall w, exists qs, Forall valid_request qs /\
  handle_all cs w = serve_all base environment workdir environ subprocess_run sha256_hex read_clock qs w.
Proof.
  induction cs as [|c cs IH]; intros w; [by exists []|]. cbn [handle_all foldl]. rewrite handle_serves.
  destruct (request_of c) as [q|] eqn:Hq; [|apply IH].
  destruct (IH (serve q w)) as (qs & Hqs & Heq). exists (q :: qs). split; [constructor; [by eapply request_valid|done]|].
  exact Heq.
Qed.

(** C16: over the directory storage, whatever calls of the API are served, in
    any order and with any outcome, the artifacts keep what they record and,
    unless they are deleted, their objects with the bytes and checksums they
    had; and the checks of what a backup needs hold on. *)
Theorem api_objects_survive cs w : vault_ok base sha256_hex w ->
  vault_ok base sha256_hex (handle_all cs w) /\ vault_kept base w (handle_all cs w).
Proof.
  intros Hw. destruct (handle_all_serves cs w) as (qs & Hqs & ->). by apply serve_all_vault.
Qed.
End Survive.

(** ** A sample *)

Definition sample_payload : PolicyCreateRequest :=
  {| pc_name := "weekly"; pc_target_system := POSTGRES; pc_target_name := "db"; pc_target_connection_ref := "env://DB";
     pc_storage_bucket := None; pc_storage_prefix := "backups/"; pc_interval_minutes := 60; pc_backup_timeout_seconds := 600;
     pc_retention_count := Some 1%Z; pc_retention_days := None; pc_delete_expired := true; pc_encryption_key_ref := None;
     pc_enabled := true |}.
Definition sample_calls : list Call :=
  [PostRun 1%N "manual"; PostPolicy sample_payload; PostRetention 1%N; PostRunDue; PostVerify 2%N; GetRuns None 10;
   PostRestore 2%N {| rr_target_connection_ref := "env://DB"; rr_dry_run := false; rr_confirm := false; rr_allow_production_restore := false |}].
Lemma api_objects_survive_witness :
  vault_ok sample_base sample_sha
    (handle_all (R := PostgresBackupRepository) sample_base "main" "local" sample_workdir sample_env sample_run sample_sha sample_clock sample_calls second_world) /\
  vault_kept sample_base second_world
    (handle_all (R := PostgresBackupRepository) sample_base "main" "local" sample_workdir sample_env sample_run sample_sha sample_clock sample_calls second_world).
Proof.
  exact (api_objects_survive sample_base "main" "local" sample_workdir sample_env sample_run sample_sha sample_clock
    (HT := sample_tools) sample_calls second_world second_world_ok).
Defined.
