(* ===== verification/MigrationsCli.v ===== *)
(** The command line of apexquant-migrations: [cli.py], over the two migrators.

    A command runs in a world of directories by their path, and of servers by
    their URL, each of which answers; what it prints and its exit code are its
    result.  [None] is a command that waits for the lock of another session, or
    a migration created outside the directories of the root. *)
From stdpp Require Import base strings list pretty.
From Stdlib Require Import Ascii.
From S2P Require Import Prelude PyStr Migrations MigrationsPostgres MigrationsClickHouse MigrationsProps.

#[local] Open Scope string_scope.

(** The arguments, after argparse. *)
Record Args := {
  a_engine : MigrationEngine; a_root : option string; a_database_url : option string; a_clickhouse_url : option string;
  a_postgres_url : option string; a_domain : option string }.

Inductive cli_exc := SystemExit (message : string) | Migration (e : migration_exc).
Inductive Migrator :=
| PostgresMigrator (database_url root : string)
| ClickHouseMigrator (clickhouse_url root : string) (postgres_url : option string).

(** [a or b] of texts that may be missing: an empty one counts as none. *)
Definition text_or (a b : option string) : option string :=
  match a with Some x => if str_empty x then b else a | None => b end.
Definition given (o : option string) : option string := text_or o None.

Section Arguments.
Context (environ : string -> option string).
Definition default_root (e : MigrationEngine) : string := "migrations/" ++ engine_value e.
Definition root_of (a : Args) : string := default (default_root (a_engine a)) (given (a_root a)).
Definition get_postgres_url (a : Args) : result cli_exc string :=
  match given (text_or (a_database_url a) (environ "APEX_POSTGRES_URL")) with
  | Some url => Ok url
  | None => Err (SystemExit "PostgreSQL URL is required")
  end.
Definition get_clickhouse_url (a : Args) : result cli_exc string :=
  match given (text_or (a_clickhouse_url a) (environ "APEX_CLICKHOUSE_URL")) with
  | Some url => Ok url
  | None => Err (SystemExit "ClickHouse URL is required")
  end.
Definition build_migrator (a : Args) : result cli_exc Migrator :=
  match a_engine a with
  | POSTGRES => url ← get_postgres_url a; Ok (PostgresMigrator url (root_of a))
  | CLICKHOUSE =>
      url ← get_clickhouse_url a;
      Ok (ClickHouseMigrator url (root_of a) (text_or (a_postgres_url a) (environ "APEX_POSTGRES_URL")))
  end.
End Arguments.

Inductive Printed := PlanText (p : MigrationPlan) | ReportText (r : MigrationRunReport) | Line (s : string).

Record World (P C : Type) := { trees : string -> Root; postgres : string -> Database P; clickhouse : string -> ChDatabase C }.
Arguments trees {P C}. Arguments postgres {P C}. Arguments clickhouse {P C}.

Section Cli.
Context {P C : Type} (run_sql : string -> P -> result Failure unit * P) (run_command : string -> C -> result string unit * C)
  (sha256_hex : string -> string) (utc_now : nat -> Z) (millis : Z -> Z -> Z) (environ : string -> option string) (session : nat).
Notation W := (World P C).
(** [applied_by] *)
Definition migrator : string := "apexquant-migrate".

Definition set_tree (root : string) (t : Root) (w : W) : W :=
  {| trees := fun r => if (r =? root)%string then t else trees w r; postgres := postgres w; clickhouse := clickhouse w |}.
Definition set_postgres (url : string) (d : Database P) (w : W) : W :=
  {| trees := trees w; postgres := fun u => if (u =? url)%string then d else postgres w u; clickhouse := clickhouse w |}.
Definition set_clickhouse (url : string) (d : ChDatabase C) (w : W) : W :=
  {| trees := trees w; postgres := postgres w; clickhouse := fun u => if (u =? url)%string then d else clickhouse w u |}.
Definition outcome {A} (f : A -> Printed * Z) (x : result migration_exc A) : result cli_exc (Printed * Z) :=
  match x with Ok a => Ok (f a) | Err e => Err (Migration e) end.
Definition report_code (r : MigrationRunReport) : Printed * Z := (ReportText r, if ok r then 0%Z else 1%Z).

(** [cmd_plan] and [cmd_status] *)
Definition cmd_plan (a : Args) (w : W) : result cli_exc (Printed * Z) :=
  m ← build_migrator environ a;
  match m with
  | PostgresMigrator url root => outcome (fun p => (PlanText p, 0%Z)) (plan sha256_hex root (trees w root) (a_domain a) (postgres w url))
  | ClickHouseMigrator url root _ => outcome (fun p => (PlanText p, 0%Z)) (ch_plan sha256_hex root (trees w root) (a_domain a) (clickhouse w url))
  end.
Definition cmd_apply (a : Args) (dry_run yes : bool) (input : string) (w : W) : option (result cli_exc (Printed * Z) * W) :=
  match build_migrator environ a with
  | Err e => Some (Err e, w)
  | Ok m =>
      if negb dry_run && negb yes && negb (str_lower (strip input) =? "y")
      then Some (Ok (Line "migration apply cancelled", 1%Z), w)
      else match m with
      | PostgresMigrator url root =>
          '(r, d) ← apply run_sql sha256_hex utc_now millis root migrator session (trees w root) (a_domain a) dry_run (postgres w url);
          Some (outcome report_code r, set_postgres url d w)
      | ClickHouseMigrator url root pg =>
          '(r, d) ← ch_apply run_command sha256_hex utc_now root migrator pg session (trees w root) (a_domain a) dry_run (clickhouse w url);
          Some (outcome report_code r, set_clickhouse url d w)
      end
  end.
Definition cmd_verify (a : Args) (w : W) : result cli_exc (Printed * Z) * W :=
  match build_migrator environ a with
  | Err e => (Err e, w)
  | Ok (PostgresMigrator url root) =>
      let '(r, d) := verify sha256_hex utc_now root (trees w root) (a_domain a) (postgres w url) in
      (outcome report_code r, set_postgres url d w)
  | Ok (ClickHouseMigrator url root _) =>
      let '(r, d) := ch_verify sha256_hex utc_now root (trees w root) (a_domain a) (clickhouse w url) in
      (outcome report_code r, set_clickhouse url d w)
  end.
Definition cmd_baseline (a : Args) (confirm_baseline : bool) (w : W) : option (result cli_exc (Printed * Z) * W) :=
  match build_migrator environ a with
  | Err e => Some (Err e, w)
  | Ok (PostgresMigrator url root) =>
      '(r, d) ← baseline sha256_hex utc_now root migrator session (trees w root) (a_domain a) confirm_baseline (postgres w url);
      Some (outcome report_code r, set_postgres url d w)
  | Ok (ClickHouseMigrator _ _ _) => Some (Ok (Line "baseline is currently supported only for postgres", 2%Z), w)
  end.
Definition cmd_create (a : Args) (domain slug : string) (w : W)
    : option (result cli_exc (Printed * Z) * W) :=
  let root := root_of a in
  '(r, t) ← create_migration sha256_hex root (trees w root) (a_engine a) domain slug;
  Some (outcome (fun path => (Line path, 0%Z)) r, set_tree root t w).
End Cli.

(** ** Applying, then verifying *)

Section Facts.
Context {P C : Type} (run_sql : string -> P -> result Failure unit * P) (run_command : string -> C -> result string unit * C)
  (sha256_hex : string -> string) (utc_now : nat -> Z) (millis : Z -> Z -> Z) (environ : string -> option string) (session : nat).
Notation cmd_apply := (cmd_apply (P := P) (C := C) run_sql run_command sha256_hex utc_now millis environ session).
Notation cmd_verify := (cmd_verify (P := P) (C := C) sha256_hex utc_now environ).

Definition exits (x : result cli_exc (Printed * Z)) (code : Z) : Prop := exists p, x = Ok (p, code).

Lemma verify_exits a w url root : build_migrator environ a = Ok (PostgresMigrator url root) ->
  (exits (cmd_verify a w).1 0 <->
   exists p, plan sha256_hex root (trees w root) (a_domain a) (postgres w url) = Ok p /\ pl_ok p = true /\ pending p = []).
Proof.
  intros Hm. unfold MigrationsCli.cmd_verify. rewrite Hm.
  destruct (verify sha256_hex utc_now root (trees w root) (a_domain a) (postgres w url)) as [r d] eqn:Hv. cbn [fst].
  unfold verify, now in Hv. cbv [mbind st_bind get_state lift mret st_ret] in Hv.
  change (plan sha256_hex root (trees w root) (a_domain a) (tick (postgres w url)))
    with (plan sha256_hex root (trees w root) (a_domain a) (postgres w url)) in Hv.
  destruct (plan _ _ _ _ _) as [p|e]; injection Hv as <- <-; cbn [outcome].
  - unfold exits, report_code. cbn [ok]. split.
    + intros (t & Ht). destruct (pl_ok p && bool_decide (pending p = [])) eqn:He; [|done].
      apply andb_true_iff in He as [He Hp%bool_decide_eq_true]. by exists p.
    + intros (p' & [= <-] & He & Hp). rewrite He, bool_decide_true by done. by eexists.
  - split; [by intros (t & Ht)|by intros (p' & Hp & _)].
Qed.
Lemma plan_same root tree filt (d d' : Database P) : registry_same d d' ->
  plan sha256_hex root tree filt d' = plan sha256_hex root tree filt d.
Proof. intros (Ha & _). unfold plan, get_applied. by rewrite Ha. Qed.

(** C28: with the lock of its database free, the command that applies migrations
    to PostgreSQL returns; not confirmed, it changes nothing and exits with 1;
    confirmed, it exits with 0 or raises, and it exits with 0 exactly if the
    command that verifies would exit with 0 afterwards: the two commands agree
    on when a database is up to date. *)
Theorem apply_agrees_with_verify a yes input w url root : build_migrator environ a = Ok (PostgresMigrator url root) ->
  tree_ok (trees w root) -> registry_ok (postgres w url) -> runs_ok (postgres w url) -> lock (postgres w url) = None ->
  exists x w1, cmd_apply a false yes input w = Some (x, w1) /\
    if yes || (str_lower (strip input) =? "y")%string
    then (exits x 0 \/ exists e, x = Err e) /\ (exits x 0 <-> exits (cmd_verify a w1).1 0)
    else exits x 1 /\ w1 = w.
Proof.
  intros Hm Ht Hok Hruns Hl. unfold MigrationsCli.cmd_apply. rewrite Hm.
  assert (Hneg : negb false && negb yes && negb (str_lower (strip input) =? "y")%string = negb (yes || (str_lower (strip input) =? "y")%string))
    by by destruct yes.
  rewrite Hneg. destruct (yes || _); cbn [negb]; cycle 1.
  { do 2 eexists. split; [reflexivity|]. split; [by eexists|done]. }
  destruct (apply_lock_free run_sql sha256_hex utc_now millis root migrator session (trees w root) (a_domain a) (postgres w url) Ht Hok Hruns Hl)
    as (r & d & Happ & _ & _ & _ & Hres).
  rewrite Happ. cbn [mbind option_bind]. do 2 eexists. split; [reflexivity|].
  rewrite (verify_exits a _ url root Hm). cbn [trees postgres set_postgres]. rewrite String.eqb_refl.
  destruct (plan sha256_hex root (trees w root) (a_domain a) (postgres w url)) as [p|e] eqn:Hp.
  - destruct (pl_ok p) eqn:Hpl.
    + destruct Hres as (ran & rest & rows & d' & p' & run & err & _ & _ & _ & _ & Hp' & Hrest & Hpl' & _ & (_ & _ & Hend) & Herr).
      destruct err as [m|].
      * assert (exists e, r = Err e) as (e & ->) by (destruct (in_transaction m), Hend as [-> _]; eauto). destruct Herr as (f & rest' & Hr & _). cbn [outcome]. split; [right; by eexists|].
        split; [by intros (? & ?)|]. intros (q & Hq & _ & Hnil). rewrite Hp' in Hq. injection Hq as <-. congruence.
      * destruct Hend as (rep & -> & Hrep & _). destruct Herr as [Hr _]. cbn [outcome]. unfold report_code. rewrite Hrep.
        split; [left; by eexists|]. split; [|intros _; by eexists]. intros _. exists p'. by rewrite Hrest.
    + destruct Hres as (-> & _ & Hsame). split; [right; by eexists|]. split; [by intros (? & ?)|].
      intros (q & Hq & Hqok & _). rewrite (plan_same _ _ _ _ _ Hsame), Hp in Hq. injection Hq as <-. congruence.
  - destruct Hres as (-> & _ & Hsame). split; [right; by eexists|]. split; [by intros (? & ?)|].
    intros (q & Hq & _). by rewrite (plan_same _ _ _ _ _ Hsame), Hp in Hq.
Qed.
End Facts.

(** ** A sample *)

Definition sample_args : Args :=
  {| a_engine := POSTGRES; a_root := Some "migrations"; a_database_url := None; a_clickhouse_url := None; a_postgres_url := None; a_domain := None |}.
Definition sample_environ (n : string) : option string := if (n =? "APEX_POSTGRES_URL")%string then Some "postgres://db" else None.
Definition sample_world : World (list string) unit :=
  {| trees := fun _ => sample_root "CREATE b;"; postgres := fun _ => sample_db;
     clickhouse := fun _ => {| ch_data := tt; ch_rows := []; ch_runs := []; ch_locks := fun _ => None; ch_ticks := 0; ch_next_run := 0 |} |}.
Lemma apply_agrees_with_verify_witness :
  exists x w1, cmd_apply (P := list string) sample_sql (fun _ c => (Ok tt, c)) sample_sha sample_now sample_millis sample_environ 7
      sample_args false false " Y" sample_world = Some (x, w1) /\
    (exits x 0 <-> exits (cmd_verify (P := list string) sample_sha sample_now sample_environ sample_args w1).1 0) /\ exits x 0.
Proof.
  destruct (apply_agrees_with_verify (C := unit) sample_sql (fun _ c => (Ok tt, c)) sample_sha sample_now sample_millis sample_environ 7
    sample_args false " Y" sample_world "postgres://db" "migrations" eq_refl (sample_root_ok _) (proj1 sample_db_ok) (proj2 sample_db_ok) eq_refl)
    as (x & w1 & Happ & _ & Hiff).
  exists x, w1. split; [exact Happ|]. split; [exact Hiff|].
  assert (Hx : match cmd_apply (P := list string) sample_sql (fun _ c => (Ok tt, c)) sample_sha sample_now sample_millis sample_environ 7
      sample_args false false " Y" sample_world with Some (Ok (_, c), _) => c = 0%Z | _ => False end) by (vm_compute; reflexivity).
  rewrite Happ in Hx. destruct x as [[p c]|e]; [|destruct Hx]. subst c. exists p. reflexivity.
Defined.
