(* ===== verification/Launch.v ===== *)
(** Starting the services from their command lines: [cli.py] of the auth, audit,
    versioning, tracing and logging services, the commands [serve] and [migrate]
    of disaster recovery, backup and configuration validation, and [bootstrap.py]
    of the first two.

    A database server is what its URL names.  A command that serves ends, here,
    with the address and the application it hands to uvicorn. *)
From stdpp Require Import base strings list gmap pretty numbers.
From Stdlib Require Import Ascii QArith.
From S2P Require Import Prelude PyStr Json PyPath StartUp Yaml.

#[local] Open Scope string_scope.

Inductive launch_exc := KeyError (name : string) | ValueError (m : string) | StartUp (e : startup_exc).

(** [x or d] *)
Definition text_default (x : option string) (d : string) : string :=
  match x with Some s => if str_empty s then d else s | None => d end.
Definition truthy_text (x : option string) : option string := match x with Some s => if str_empty s then None else x | None => None end.

(** ** Addresses *)

(** [host, port = http_addr.split(":")] *)
Definition listen_address (http_addr : string) : result launch_exc (string * string) :=
  match split_on ":" http_addr with
  | [host; port] => Ok (host, port)
  | [_] => Err (ValueError "not enough values to unpack (expected 2, got 1)")
  | _ => Err (ValueError "too many values to unpack (expected 2)")
  end.
Definition port_number (port : string) : result launch_exc Z :=
  match int_of_str port with
  | Some n => Ok n
  | None => Err (ValueError ("invalid literal for int() with base 10: " ++ py_repr port))
  end.
(** The address of the settings, each part unless the arguments give one; a port
    of zero is none. *)
Definition host_and_port (host : option string) (port : option Z) (http_addr : string) : result launch_exc (string * Z) :=
  '(default_host, default_port) ← listen_address http_addr;
  p ← (match port with Some n => if (n =? 0)%Z then port_number default_port else Ok n | None => port_number default_port end);
  Ok (text_default host default_host, p).
(** The address of the settings alone. *)
Definition settings_address (http_addr : string) : result launch_exc (string * Z) :=
  '(host, port) ← listen_address http_addr;
  p ← port_number port;
  Ok (host, p).

(** ** Servers *)

Section Launch.
Context {D : Type} (connect : st D startup_exc unit) (execute : string -> st D startup_exc unit).
Definition Servers : Type := string -> D.
Notation LaunchM := (st Servers launch_exc).
Definition on_server {A} (url : string) (m : st D startup_exc A) : LaunchM A := fun w =>
  let '(r, d) := m (w url) in (map_err StartUp r, fun u => if u =? url then d else w u).

(** What a command came to. *)
Inductive Launched (App : Type) := Exit (printed : list string) (code : Z) | Serving (host : string) (port : Z) (app : App).
Arguments Exit {App}. Arguments Serving {App}.
(** The arguments after argparse. *)
Inductive Command (Database : Type) := Serve (host : option string) (port : option Z) | Migrate (database : Database).
Arguments Serve {Database}. Arguments Migrate {Database}.

(** *** The services whose arguments name the database *)

(** The URL and the directory, both given or a default of the parser. *)
Definition versioning_main (settings_http_addr : string) (fs : FileSystem) (c : Command (string * string)) : LaunchM (Launched unit) :=
  match c with
  | Migrate (url, dir) =>
      on_server url (versioning_apply_migrations connect execute fs dir) ≫= fun _ =>
      mret (Exit ["service versioning migrations applied"] 0)
  | Serve host port => '(h, p) ← lift (host_and_port host port settings_http_addr); mret (Serving h p tt)
  end.
Definition tracing_main (settings_http_addr : string) (fs : FileSystem) (c : Command (string * string)) : LaunchM (Launched unit) :=
  match c with
  | Migrate (url, dir) =>
      on_server url (tracing_apply_migrations connect execute fs dir) ≫= fun _ => mret (Exit [] 0)
  | Serve host port => '(h, p) ← lift (host_and_port host port settings_http_addr); mret (Serving h p tt)
  end.
Definition logging_main (settings_http_addr : string) (fs : FileSystem) (c : Command (string * string)) : LaunchM (Launched unit) :=
  match c with
  | Migrate (url, dir) =>
      on_server url (logging_apply_migrations connect execute fs dir) ≫= fun _ => mret (Exit [] 0)
  | Serve host port => '(h, p) ← lift (host_and_port host port settings_http_addr); mret (Serving h p tt)
  end.

(** *** The services whose environment names it *)

Section Environment.
Context (environ : string -> option string).
(** [os.environ[name]] and [os.environ.get(name, d)] *)
Definition required (name : string) : result launch_exc string :=
  match environ name with Some v => Ok v | None => Err (KeyError name) end.
(** [args.x or os.environ[name]] *)
Definition given_or_required (arg : option string) (name : string) : result launch_exc string :=
  match truthy_text arg with Some x => Ok x | None => required name end.

Definition audit_main (settings_http_addr : string) (fs : FileSystem) (c : Command (option string * option string)) : LaunchM (Launched unit) :=
  match c with
  | Migrate (url, dir) =>
      u ← lift (given_or_required url "APEX_AUDIT_DATABASE_URL");
      on_server u (audit_apply_migrations connect execute fs
        (text_default dir (default "/migrations/postgres/audit" (environ "APEX_AUDIT_MIGRATIONS_DIR")))) ≫= fun _ =>
      mret (Exit [] 0)
  | Serve host port => '(h, p) ← lift (host_and_port host port settings_http_addr); mret (Serving h p tt)
  end.

(** The arguments of [create_auth_app] *)
Record AuthApp := {
  aa_database_url : string; aa_token_secret_b64 : string; aa_bootstrap_subject : string; aa_bootstrap_api_key : string;
  aa_bootstrap_permissions : list string; aa_migrations_dir : string; aa_migrate_on_start : bool }.
Definition auth_app : result launch_exc AuthApp :=
  url ← required "APEX_AUTH_DATABASE_URL";
  secret ← required "APEX_AUTH_TOKEN_SECRET";
  key ← required "APEX_AUTH_BOOTSTRAP_API_KEY";
  Ok {| aa_database_url := url; aa_token_secret_b64 := secret;
        aa_bootstrap_subject := default "bootstrap-admin" (environ "APEX_AUTH_BOOTSTRAP_CLIENT_ID"); aa_bootstrap_api_key := key;
        aa_bootstrap_permissions := split_on "," (default "*" (environ "APEX_AUTH_BOOTSTRAP_PERMISSIONS"));
        aa_migrations_dir := default "/migrations/postgres/auth" (environ "APEX_AUTH_MIGRATIONS_DIR"); aa_migrate_on_start := true |}.
Definition auth_main (fs : FileSystem) (c : Command (option string * option string)) : LaunchM (Launched AuthApp) :=
  match c with
  | Migrate (url, dir) =>
      u ← lift (given_or_required url "APEX_AUTH_DATABASE_URL");
      on_server u (auth_apply_migrations connect execute fs
        (text_default dir (default "/migrations/postgres/auth" (environ "APEX_AUTH_MIGRATIONS_DIR")))) ≫= fun _ =>
      mret (Exit [] 0)
  | Serve host port =>
      '(h, p) ← lift (host_and_port host port (default "0.0.0.0:8086" (environ "APEX_HTTP_ADDR")));
      app ← lift auth_app;
      mret (Serving h p app)
  end.
End Environment.

(** *** Disaster recovery and backup *)

(** Where a service keeps its state: on a server, or in its own process. *)
Inductive Repository := OnServer (url : string) | InMemory.
Record DisasterRecoverySettings := {
  ds_http_addr : string; ds_environment : string; ds_database_url : option string; ds_migrations_dir : string; ds_migrate_on_start : bool;
  ds_default_backup_policy_name : string; ds_enable_health_checks : bool; ds_health_timeout_seconds : Q }.
Definition default_dr_settings : DisasterRecoverySettings :=
  {| ds_http_addr := "0.0.0.0:8094"; ds_environment := "local"; ds_database_url := None;
     ds_migrations_dir := "/migrations/postgres/disaster_recovery"; ds_migrate_on_start := true;
     ds_default_backup_policy_name := "local-postgres"; ds_enable_health_checks := false; ds_health_timeout_seconds := 2 |}.
Inductive Checker := HttpChecker (timeout_seconds : Q) | NullChecker.
Record DRService := { dv_repository : Repository; dv_backup_provider : Repository; dv_health_checker : Checker; dv_enable_health_checks : bool }.

(** The repository of a service, once its tables are there. *)
Definition open_repository (apply : FileSystem -> string -> st D startup_exc unit) (database_url : option string) (migrate : bool)
    (migrations_dir : string) (fs : FileSystem) : LaunchM Repository :=
  match truthy_text database_url with
  | Some url => (if migrate then on_server url (apply fs migrations_dir) else mret tt) ≫= fun _ => mret (OnServer url)
  | None => mret InMemory
  end.
Definition dr_build_service (s : DisasterRecoverySettings) (fs : FileSystem) : LaunchM DRService :=
  r ← open_repository (dr_apply_migrations connect execute) (ds_database_url s) (ds_migrate_on_start s) (ds_migrations_dir s) fs;
  mret {| dv_repository := r; dv_backup_provider := r;
          dv_health_checker := if ds_enable_health_checks s then HttpChecker (ds_health_timeout_seconds s) else NullChecker;
          dv_enable_health_checks := ds_enable_health_checks s |}.

Record BackupSettings := {
  bs_http_addr : string; bs_environment : string; bs_database_url : option string; bs_migrations_dir : string; bs_migrate_on_start : bool;
  bs_backup_workdir : string; bs_backup_storage_root : string; bs_storage_driver : string; bs_default_bucket : string;
  bs_s3_endpoint_url : option string; bs_s3_region : option string; bs_s3_server_side_encryption : bool }.
Definition default_backup_settings : BackupSettings :=
  {| bs_http_addr := "0.0.0.0:8093"; bs_environment := "local"; bs_database_url := None;
     bs_migrations_dir := "/migrations/postgres/backup_recovery"; bs_migrate_on_start := true;
     bs_backup_workdir := "/tmp/apexquant-backups"; bs_backup_storage_root := "/backups"; bs_storage_driver := "local";
     bs_default_bucket := "apexquant-backups"; bs_s3_endpoint_url := None; bs_s3_region := None; bs_s3_server_side_encryption := false |}.
Inductive Storage :=
| S3Storage (bucket : string) (endpoint_url region_name : option string) (server_side_encryption : bool)
| LocalDirectoryStorage (root : Path) (bucket : string).
Record BackupService := { bv_repository : Repository; bv_storage : Storage; bv_environment : string; bv_workdir : Path }.
Definition build_storage (s : BackupSettings) : Storage :=
  if bs_storage_driver s =? "s3"
  then S3Storage (bs_default_bucket s) (bs_s3_endpoint_url s) (bs_s3_region s) (bs_s3_server_side_encryption s)
  else LocalDirectoryStorage (path_of (bs_backup_storage_root s)) (bs_default_bucket s).
Definition backup_build_service (s : BackupSettings) (fs : FileSystem) : LaunchM BackupService :=
  r ← open_repository (backup_apply_migrations connect execute) (bs_database_url s) (bs_migrate_on_start s) (bs_migrations_dir s) fs;
  mret {| bv_repository := r; bv_storage := build_storage s; bv_environment := bs_environment s; bv_workdir := path_of (bs_backup_workdir s) |}.

(** [cmd_serve]: the service is built before the address is read. *)
Definition serve_built {S} (build : LaunchM S) (http_addr : string) : LaunchM (Launched S) :=
  service ← build; '(h, p) ← lift (settings_address http_addr); mret (Serving h p service).
Definition dr_cmd_serve (s : DisasterRecoverySettings) (fs : FileSystem) := serve_built (dr_build_service s fs) (ds_http_addr s).
Definition backup_cmd_serve (s : BackupSettings) (fs : FileSystem) := serve_built (backup_build_service s fs) (bs_http_addr s).
(** [cmd_serve] of configuration validation, whose application starts later *)
Definition config_cmd_serve (http_addr : string) : LaunchM (Launched unit) :=
  '(h, p) ← lift (settings_address http_addr); mret (Serving h p tt).

(** [cmd_migrate] *)
Definition migrate_given {A} (apply : FileSystem -> string -> st D startup_exc unit) (said : string) (arg settings_url : option string)
    (migrations_dir : string) (fs : FileSystem) : LaunchM (Launched A) :=
  match truthy_text (match truthy_text arg with Some u => Some u | None => settings_url end) with
  | None => mret (Exit ["database URL is required"] 1)
  | Some url => on_server url (apply fs migrations_dir) ≫= fun _ => mret (Exit [said] 0)
  end.
Definition dr_cmd_migrate (arg : option string) (s : DisasterRecoverySettings) (fs : FileSystem) : LaunchM (Launched DRService) :=
  migrate_given (dr_apply_migrations connect execute) "disaster recovery migrations applied" arg (ds_database_url s) (ds_migrations_dir s) fs.
Definition backup_cmd_migrate (arg : option string) (s : BackupSettings) (fs : FileSystem) : LaunchM (Launched BackupService) :=
  migrate_given (backup_apply_migrations connect execute) "backup recovery migrations applied" arg (bs_database_url s) (bs_migrations_dir s) fs.
End Launch.
Arguments Exit {App}. Arguments Serving {App}.
Arguments Serve {Database}. Arguments Migrate {Database}.

(** ** The address *)

(** The address is read as written: the text before the one colon and the text
    after it; no other number of colons is taken. *)
Lemma listen_address_exact addr h p :
  listen_address addr = Ok (h, p) <-> addr = h ++ ":" ++ p /\ no_char ":" h /\ no_char ":" p.
Proof.
  unfold listen_address. split.
  - destruct (split_on ":" addr) as [|x [|y [|z l]]] eqn:Hs; try done. intros [= -> ->].
    apply split_on_cons in Hs as [Hh (s' & -> & Hs')]. apply split_on_cons in Hs' as [Hp ->]. done.
  - intros (-> & Hh & Hp). change (h ++ ":" ++ p) with (h ++ String ":" p). by rewrite split_on_app, split_on_no_char.
Qed.
Lemma two_colons_refused a b c : exists m, listen_address (a ++ ":" ++ b ++ ":" ++ c) = Err (ValueError m).
Proof.
  destruct (listen_address _) as [[h p]|e] eqn:Ha.
  - exfalso. apply listen_address_exact in Ha as (He & Hh & Hp).
    assert (Hs : split_on ":" (a ++ ":" ++ b ++ ":" ++ c) = [h; p]).
    { rewrite He. change (h ++ ":" ++ p) with (h ++ String ":" p). by rewrite split_on_app, split_on_no_char. }
    change (a ++ ":" ++ b ++ ":" ++ c) with (a ++ String ":" (b ++ String ":" c)) in Hs. rewrite !split_on_app_list in Hs.
    apply (f_equal length) in Hs. rewrite !length_app in Hs.
    assert (Hn : forall s, (1 <= length (split_on ":" s))%nat).
    { intros s. pose proof (split_on_nonempty ":" s). destruct (split_on ":" s); [done|cbn; lia]. }
    pose proof (Hn a). pose proof (Hn b). pose proof (Hn c). cbn in Hs. lia.
  - unfold listen_address in Ha. repeat (case_match; try done); injection Ha as <-; by eexists.
Qed.

(** The digits of a number are read back. *)
Lemma int_digits_dec s : forall after acc n, str_forall is_digit s = true -> (s = "" -> after = true) ->
  int_digits after acc n s = Some (dec_acc acc s, (n + N.of_nat (String.length s))%N).
Proof.
  induction s as [|c s IH]; intros after acc n Hs Ha; cbn [int_digits dec_acc String.length].
  - rewrite Ha by done. do 2 f_equal. lia.
  - cbn [str_forall] in Hs. apply andb_true_iff in Hs as [-> Hs]. rewrite IH by done. do 2 f_equal. lia.
Qed.

Lemma int_of_pretty (n : N) : (N.of_nat (String.length (pretty n)) <= 4300)%N -> int_of_str (pretty n) = Some (Z.of_N n).
Proof.
  intros Hlen. destruct (pretty_dec n) as [Hd Hv].
  assert (Hne : pretty n <> ""). { intros He. pose proof (pretty_N_starts n) as (c & s & Hs & _). rewrite He in Hs. done. }
  unfold int_of_str. rewrite strip_no_space.
  2: { eapply str_forall_impl; [|exact Hd]. intros c. by destruct c as [[] [] [] [] [] [] [] []]. }
  assert (Hgo : int_digits false 0 0 (pretty n) = Some (n, N.of_nat (String.length (pretty n)))).
  { rewrite int_digits_dec by done. unfold dec_value in Hv. by rewrite Hv. }
  destruct (pretty n) as [|c s] eqn:Hp; [done|].
  assert (Hc : is_digit c = true) by (cbn [str_forall] in Hd; by apply andb_true_iff in Hd as [? _]).
  assert (Hif : (N.of_nat (String.length (String c s)) <=? 4300)%N = true) by (by apply N.leb_le).
  destruct c as [[] [] [] [] [] [] [] []]; try done; by rewrite Hgo, Hif.
Qed.
(** An address round-trips, for any host without a colon. *)
Lemma address_read host (port : N) : no_char ":" host -> (N.of_nat (String.length (pretty port)) <= 4300)%N ->
  settings_address (host ++ ":" ++ pretty port) = Ok (host, Z.of_N port) /\
  host_and_port None None (host ++ ":" ++ pretty port) = Ok (host, Z.of_N port).
Proof.
  intros Hh Hp. assert (Hl : listen_address (host ++ ":" ++ pretty port) = Ok (host, pretty port)).
  { apply listen_address_exact. split_and!; [done..|]. eapply no_char_forall; [|apply (pretty_dec port)]. done. }
  unfold settings_address, host_and_port. rewrite Hl. cbn. unfold port_number. rewrite int_of_pretty by done. done.
Qed.
(** An IPv6 address is refused, and so is one without a port. *)
Example addresses_refused :
  is_ok (settings_address "[::1]:8086") = false /\ is_ok (settings_address "localhost") = false /\
  settings_address "0.0.0.0: 80_94" = Ok ("0.0.0.0", 8094%Z) /\ host_and_port (Some "") (Some 0%Z) "h:1" = Ok ("h", 1%Z).
Proof. by vm_compute. Qed.

(** ** What a start touches *)

Section Facts.
Context {D : Type} (connect : st D startup_exc unit) (execute : string -> st D startup_exc unit).
Notation Servers := (string -> D).

Lemma on_server_others {A} url (m : st D startup_exc A) (w w' : Servers) x u : on_server url m w = (x, w') -> u <> url -> w' u = w u.
Proof.
  unfold on_server. destruct (m (w url)) as [r d]. intros [= _ <-] Hu. destruct (String.eqb_spec u url); [done|done].
Qed.

(** The server that [migrate] works on: that of the argument, before that of the
    settings; without either the command fails and touches nothing, and no other
    server is ever touched. *)
Definition migrated_server (arg settings_url : option string) : option string :=
  truthy_text (match truthy_text arg with Some u => Some u | None => settings_url end).
Lemma migrate_touches {A} apply said arg settings_url dir fs (w : Servers) x w' :
  migrate_given (D := D) (A := A) apply said arg settings_url dir fs w = (x, w') ->
  match migrated_server arg settings_url with
  | None => w' = w /\ x = Ok (Exit ["database URL is required"] 1)
  | Some url =>
      w' url = (apply fs dir (w url)).2 /\ (forall u, u <> url -> w' u = w u) /\
      (x = Ok (Exit [said] 0) <-> (apply fs dir (w url)).1 = Ok tt)
  end.
Proof.
  unfold migrate_given, migrated_server. destruct (truthy_text _) as [url|]; [|by intros [= <- <-]].
  unfold mbind, st_bind, on_server. destruct (apply fs dir (w url)) as [[[]|e] d] eqn:Ha; cbn [map_err]; intros [= <- <-]; cbn [snd fst];
    rewrite String.eqb_refl; split_and!; try done; intros u Hu; by destruct (String.eqb_spec u url).
Qed.

(** A service without a database keeps its state in the process, and its start
    touches no server; one with a database is migrated first unless told not to. *)
Lemma open_repository_cases apply url migrate dir fs (w : Servers) x w' :
  open_repository (D := D) apply url migrate dir fs w = (x, w') ->
  match truthy_text url with
  | None => w' = w /\ x = Ok InMemory
  | Some u =>
      (forall v, v <> u -> w' v = w v) /\
      if migrate then w' u = (apply fs dir (w u)).2 /\ (x = Ok (OnServer u) <-> (apply fs dir (w u)).1 = Ok tt)
      else w' u = w u /\ x = Ok (OnServer u)
  end.
Proof.
  unfold open_repository. destruct (truthy_text url) as [u|]; [|by intros [= <- <-]]. destruct migrate; [|by intros [= <- <-]].
  unfold mbind, st_bind, on_server. destruct (apply fs dir (w u)) as [[[]|e] d] eqn:Ha; cbn [map_err]; intros [= <- <-]; cbn [snd fst];
    rewrite String.eqb_refl; split_and!; try done; intros v Hv; by destruct (String.eqb_spec v u).
Qed.

(** Serving disaster recovery or backup with an address that cannot be read
    fails only after the migrations have run. *)
Lemma bad_address_after_migrations (s : DisasterRecoverySettings) fs (w : Servers) e :
  settings_address (ds_http_addr s) = Err e -> is_ok (dr_build_service connect execute s fs w).1 = true ->
  dr_cmd_serve connect execute s fs w = (Err e, (dr_build_service connect execute s fs w).2).
Proof.
  intros He. unfold dr_cmd_serve, serve_built. unfold mbind, st_bind. destruct (dr_build_service _ _ _ _ w) as [[v|e'] w1]; [|done].
  intros _. unfold lift. rewrite He. done.
Qed.

(** The auth service does not start without its three secrets: the first that is
    missing is the error, and nothing is touched. *)
Lemma auth_needs_secrets environ fs host port (w : Servers) x w' :
  auth_main connect execute environ fs (Serve host port) w = (x, w') ->
  w' = w /\ (is_ok x = true -> forall n, n ∈ ["APEX_AUTH_DATABASE_URL"; "APEX_AUTH_TOKEN_SECRET"; "APEX_AUTH_BOOTSTRAP_API_KEY"] ->
    is_Some (environ n)).
Proof.
  unfold auth_main. unfold mbind, st_bind, lift. destruct (host_and_port _ _ _) as [[h p]|e]; [|by intros [= <- <-]].
  unfold auth_app, required. destruct (environ "APEX_AUTH_DATABASE_URL") as [u|] eqn:H1; cbn; [|by intros [= <- <-]].
  destruct (environ "APEX_AUTH_TOKEN_SECRET") as [t|] eqn:H2; cbn; [|by intros [= <- <-]].
  destruct (environ "APEX_AUTH_BOOTSTRAP_API_KEY") as [k|] eqn:H3; cbn; [|by intros [= <- <-]].
  intros [= <- <-]. split; [done|]. intros _ n Hn. rewrite !elem_of_cons, elem_of_nil in Hn.
  destruct Hn as [-> | [-> | [-> | []]]]; eauto.
Qed.
End Facts.
