(* ===== verification/ConfigApp.v ===== *)
(** The HTTP service of apexquant-config-validation: the rest of [app.py] around
    the endpoint of [ConfigStore], and its start-up.

    A call is a request as the router decoded it.  What is answered is the value
    the function of the route returns; the text of the metrics is the counts.

    The command line of apexquant-config-validation: [cli.py], over the
    validator of [ConfigValidation] and a store of files.

    A document is what [json.loads] or [yaml.safe_load] makes of a file's text;
    the parser of YAML is a parameter.  A command's result is the lines it
    prints and its exit code. *)
From stdpp Require Import base strings list gmap sets sorting pretty numbers.
From Stdlib Require Import Ascii.
From S2P Require Import Prelude PyStr Json PyPath PolicyReport ConfigValidation ConfigStore StartUp.

#[local] Open Scope string_scope.

Record ConfigValidationSettings := {
  cs_http_addr : string; cs_environment : string; cs_database_url : option string; cs_migrations_dir : string; cs_migrate_on_start : bool }.
Definition default_settings : ConfigValidationSettings :=
  {| cs_http_addr := "0.0.0.0:8092"; cs_environment := "local"; cs_database_url := None;
     cs_migrations_dir := "/migrations/postgres/config_validation"; cs_migrate_on_start := true |}.
(** [if settings.database_url] *)
Definition has_database (s : ConfigValidationSettings) : bool :=
  match cs_database_url s with Some u => negb (str_empty u) | None => false end.

Inductive Call :=
| Healthz
| Readyz (database_answers : bool)
| Metrics
| ListSchemas
(** a body that does not fit the model is none *)
| Validate (now : Z) (payload : option ValidateRequest).
Inductive Reply :=
| Alive | Ready (ready : bool) | Exposition (counts : list (string * bool)) | Schemas (l : list string)
| Answered (r : Response) | Unprocessable | InternalServerError.
Definition status_code (r : Reply) : Z :=
  match r with
  | Alive | Ready true | Exposition _ | Schemas _ | Answered (Accepted _ _) => 200
  | Answered (Rejected _) | Unprocessable => 422
  | Ready false | Answered NoDatabase => 503
  | InternalServerError => 500
  end.

Section App.
Context (settings : ConfigValidationSettings) (jsonb : json -> json) (validator : string -> json -> result config_exc ValidationReport).

(** [lifespan] up to the [yield], for a database with these tables *)
Definition lifespan (fs : FileSystem) (connect : st ConfigDb startup_exc unit) (execute : string -> st ConfigDb startup_exc unit)
    (d : ConfigDb) : result startup_exc AppState * ConfigDb :=
  if has_database settings then
    match (if cs_migrate_on_start settings then config_apply_migrations connect execute fs (cs_migrations_dir settings) d else (Ok tt, d)) with
    | (Ok _, d') => (Ok {| repository := Some d'; validations_total := [] |}, d')
    | (Err e, d') => (Err e, d')
    end
  else (Ok {| repository := None; validations_total := [] |}, d).

Definition readyz (database_answers : bool) : Reply := Ready (negb (has_database settings) || database_answers).
Definition config_schemas_sorted : list string := py_sorted str_lt (dict_keys SCHEMA_FILES).
Definition handle (c : Call) (s : AppState) : Reply * AppState :=
  match c with
  | Healthz => (Alive, s)
  | Readyz up => (readyz up, s)
  | Metrics => (Exposition (validations_total s), s)
  | ListSchemas => (Schemas config_schemas_sorted, s)
  | Validate _ None => (Unprocessable, s)
  | Validate now (Some payload) =>
      match validate_config jsonb validator now payload s with
      | (Ok r, s') => (Answered r, s')
      | (Err _, s') => (InternalServerError, s')
      end
  end.
Definition handle_all (cs : list Call) (s : AppState) : AppState := foldl (fun s c => (handle c s).2) s cs.

(** ** What is counted and what is kept *)

Lemma on_db_counts {A} (m : st ConfigDb string A) s x s' : on_db m s = (x, s') ->
  validations_total s' = validations_total s /\ (repository s = None -> repository s' = None).
Proof. unfold on_db. destruct (repository s) as [d|] eqn:Hd; [destruct (m d)|]; intros [= <- <-]; by split_and!. Qed.
Lemma store_counts now payload report s x s' : store_validated jsonb now payload report s = (x, s') ->
  validations_total s' = validations_total s /\ (repository s = None -> repository s' = None).
Proof.
  unfold store_validated. rewrite st_bind_lift. destruct (text_column _) as [a|]; [|by intros [= <- <-]].
  rewrite st_bind_lift. destruct (text_column _) as [b|]; [|by intros [= <- <-]]. intros H.
  st_inv H as id s1 H1; apply on_db_counts in H1 as [E1 N1]; [|done].
  st_inv H as u s2 H2; apply on_db_counts in H2 as [E2 N2]; [|split; [congruence|auto]].
  st_inv H as u' s3 H3; apply on_db_counts in H3 as [E3 N3]; [|split; [congruence|auto]].
  injection H as <- <-. split; [congruence|auto].
Qed.

(** What a validation comes to: it is counted once, by its verdict, unless the
    validator itself failed; 422 is a report that is not ok, 503 an accepted
    document that nothing can keep, and only an accepted one that is asked to be
    kept can change the registry. *)
Lemma validate_outcome now payload s : let '(r, s') := handle (Validate now (Some payload)) s in
  match validator (rq_schema_key payload) (JDict (document payload)) with
  | Err _ => r = InternalServerError /\ s' = s
  | Ok report =>
      validations_total s' = (validations_total s ++ [(rq_schema_key payload, ok report)])%list /\
      (repository s = None -> repository s' = None) /\
      (repository s' <> repository s -> ok report = true /\ persist payload = true) /\
      match r with
      | Answered (Rejected report') => report' = report /\ ok report = false
      | Answered NoDatabase => ok report = true /\ persist payload = true /\ repository s = None
      | Answered (Accepted report' id) => report' = report /\ ok report = true /\ (is_Some id <-> persist payload = true)
      | InternalServerError => ok report = true /\ persist payload = true
      | _ => False
      end
  end.
Proof.
  cbn [handle]. unfold validate_config. rewrite st_bind_lift.
  destruct (validator _ _) as [report|e]; cbn [map_err]; [|done].
  unfold count_validation, mbind, st_bind, get_state at 1. destruct (ok report) eqn:Ho; cbn [negb].
  2: { cbn. split_and!; done. }
  destruct (persist payload) eqn:Hp.
  2: { cbn. split_and!; done. }
  cbn [repository]. destruct (repository s) as [d|] eqn:Hd; [|by cbn; split_and!].
  destruct (store_validated jsonb now payload report _) as [[id|e] s1] eqn:Hs; apply store_counts in Hs as [Hc Hn]; cbn;
    cbn in Hc, Hn; split_and!; try done; eauto.
Qed.

(** Without a database nothing is ever kept, and a request to keep an accepted
    document is always answered with 503. *)
Lemma no_database_keeps_nothing cs : forall s, repository s = None -> repository (handle_all cs s) = None.
Proof.
  induction cs as [|c cs IH]; intros s Hs; [done|]. cbn [handle_all foldl]. apply IH.
  destruct c as [|up| | |now [payload|]]; try done.
  pose proof (validate_outcome now payload s) as H. destruct (handle (Validate now (Some payload)) s) as [r s'].
  cbn [snd]. destruct (validator _ _); [by apply H|]. destruct H as [_ ->]. done.
Qed.
(** Ready says that the database answers, and nothing when there is none. *)
Lemma readyz_iff up : status_code (readyz up) = 200%Z <-> (has_database settings = true -> up = true).
Proof. unfold readyz. destruct (has_database settings), up; cbn; split; try done. intros H. by specialize (H eq_refl). Qed.
(** A start with a database and its migrations leaves what they make of it. *)
Lemma started fs connect execute d x d' : lifespan fs connect execute d = (x, d') ->
  match x with
  | Ok s => validations_total s = [] /\ repository s = if has_database settings then Some d' else None
  | Err e => has_database settings = true /\ cs_migrate_on_start settings = true /\
      config_apply_migrations connect execute fs (cs_migrations_dir settings) d = (Err e, d')
  end.
Proof.
  unfold lifespan. destruct (has_database settings); [|by intros [= <- <-]].
  destruct (cs_migrate_on_start settings); [|by intros [= <- <-]].
  destruct (config_apply_migrations _ _ _ _ d) as [[u|e] d1]; by intros [= <- <-].
Qed.
End App.

Example schemas_listed : config_schemas_sorted = ["environment_manifest/v1"; "service_manifest/v1"].
Proof. by vm_compute. Qed.

(** * The command line *)

(** [path.suffix]: from the last dot on, unless the name begins or ends there *)
Definition path_suffix (p : Path) : string :=
  match reverse (split_on "." (path_name p)) with
  | ext :: stem :: rest => if str_empty ext || str_empty (join "." (reverse (stem :: rest))) then "" else "." ++ ext
  | _ => ""
  end.

(** Paths compare by their parts. *)
Fixpoint names_lt (a b : list string) : bool :=
  match a, b with
  | [], [] => false
  | [], _ :: _ => true
  | _ :: _, [] => false
  | x :: a', y :: b' => str_lt x y || ((x =? y) && names_lt a' b')
  end.
(** [sorted(root.rglob("*" + suffix))]: files and directories below the root *)
Definition is_below (root p : Path) : Prop := p.1 = root.1 /\ take (length root.2) p.2 = root.2 /\ length root.2 < length p.2.
#[export] Instance is_below_dec root p : Decision (is_below root p) := _.
Definition rglob (suffix : string) (root : Path) (fs : FileSystem) : list Path :=
  py_sorted (fun a b => names_lt a.2 b.2)
    (filter (fun p => is_below root p /\ ends_with suffix (path_name p) = true) (elements (dom (files fs) ∪ dirs fs))).

Inductive cli_exc :=
| FileError (e : os_exc) | ParseError (message : string) | ValidatorError (e : config_exc) | TypeError (message : string) | ValidationError.

Section Cli.
Context (safe_load : string -> result string json) (json_error : string -> string)
  (validator : string -> json -> result config_exc ValidationReport) (working_directory : Path).

Definition load_document (path : Path) (fs : FileSystem) : result cli_exc json :=
  text ← map_err FileError (read_bytes path fs);
  if (str_lower (path_suffix path) =? ".json")%string
  then match loads text with Some j => Ok j | None => Err (ParseError (json_error text)) end
  else map_err ParseError (safe_load text).

Definition cmd_validate (schema : string) (file : Path) (fs : FileSystem) : result cli_exc (ValidationReport * Z) :=
  document ← load_document file fs;
  report ← map_err ValidatorError (validator schema document);
  Ok (report, if ok report then 0%Z else 1%Z).

Definition exc_text (e : cli_exc) : string :=
  match e with FileError e => os_text e | ParseError m => m | _ => "" end.
Definition issue_line (kind : string) (i : ValidationIssue) : string := "  " ++ kind ++ " " ++ issue_path i ++ ": " ++ issue_message i.
(** The report on a document, once its key is one the validator can look up:
    a key that is no text ends in an error of the dict or of the report. *)
Definition checked (key document : json) : result cli_exc ValidationReport :=
  match key with
  | JStr k => map_err ValidatorError (validator k document)
  | JList _ => Err (TypeError "unhashable type: 'list'")
  | JDict _ => Err (TypeError "unhashable type: 'dict'")
  | _ => Err ValidationError
  end.
(** The body of both loops: the lines, and whether the file failed. *)
Definition validate_file (path : Path) (fs : FileSystem) : result cli_exc (list string * bool) :=
  match load_document path fs with
  | Err e => Ok (["FAIL " ++ path_str path ++ ": unable to parse: " ++ exc_text e], true)
  | Ok (JDict d) =>
      match dict_get "schema_version" d with
      | None | Some JNull => Ok (["SKIP " ++ path_str path ++ ": missing schema_version"], false)
      | Some key =>
          report ← checked key (JDict d);
          Ok ((((if ok report then "PASS " else "FAIL ") ++ path_str path)%string
               :: (if ok report then [] else map (issue_line "ERROR") (errors report))
               ++ map (issue_line "WARNING") (warnings report))%list, negb (ok report))
      end
  | Ok _ => Ok (["FAIL " ++ path_str path ++ ": document root must be a mapping"], true)
  end.
Definition cmd_validate_all (root : Path) (fs : FileSystem) : result cli_exc (list string * Z) :=
  let root := path_join working_directory root in
  outcomes ← map_result (fun p => validate_file p fs) (rglob ".yaml" root fs ++ rglob ".json" root fs)%list;
  Ok (concat outcomes.*1, if existsb id outcomes.*2 then 1%Z else 0%Z).

(** ** When the whole directory passes *)

(** A file that does not fail: it holds a mapping that names no schema, or one
    that the validator finds right. *)
Definition passes (path : Path) (fs : FileSystem) : Prop :=
  exists d, load_document path fs = Ok (JDict d) /\
    (dict_get "schema_version" d = None \/ dict_get "schema_version" d = Some JNull \/
     exists k report, dict_get "schema_version" d = Some (JStr k) /\ validator k (JDict d) = Ok report /\ ok report = true).
Lemma validate_file_passes path fs lines failed : validate_file path fs = Ok (lines, failed) -> (failed = false <-> passes path fs).
Proof.
  unfold validate_file, passes. destruct (load_document path fs) as [j|e] eqn:Hl.
  2: { intros [= _ <-]. split; [done|by intros (d & Hd & _)]. }
  destruct j as [| | | | |d]; try (intros [= _ <-]; split; [done|by intros (d & [= ] & _)]).
  destruct (dict_get "schema_version" d) as [key|] eqn:Hk.
  - destruct key as [|b|n|k|l|d']; cbn [checked mbind result_bind]; try done.
    + intros [= _ <-]. split; [|done]. intros _. exists d. split; [done|]. by right; left.
    + destruct (validator k (JDict d)) as [report|e] eqn:Hv; cbn; [|done]. intros [= _ <-]. rewrite negb_false_iff. split.
      * intros Hok. exists d. split; [done|]. right; right. by exists k, report.
      * intros (d0 & [= <-] & Hs). rewrite Hk in Hs. destruct Hs as [?|[?|(k' & report' & [= <-] & Hv' & Hok)]]; congruence.
  - intros [= _ <-]. split; [|done]. intros _. exists d. split; [done|by left].
Qed.
Lemma rglob_elem suffix root fs p : p ∈ rglob suffix root fs <->
  (p ∈ dom (files fs) \/ p ∈ dirs fs) /\ is_below root p /\ ends_with suffix (path_name p) = true.
Proof. unfold rglob. rewrite elem_of_py_sorted, list_elem_of_filter, elem_of_elements, elem_of_union. tauto. Qed.

(** The command that validates a directory exits with 0 exactly when everything
    below it that is named like a document passes, directories of such a name
    included. *)
Lemma validate_all_exact root fs lines code : cmd_validate_all root fs = Ok (lines, code) ->
  (code = 0%Z \/ code = 1%Z) /\
  (code = 0%Z <-> forall p, p ∈ dom (files fs) \/ p ∈ dirs fs -> is_below (path_join working_directory root) p ->
     ends_with ".yaml" (path_name p) = true \/ ends_with ".json" (path_name p) = true -> passes p fs).
Proof.
  unfold cmd_validate_all. set (r := path_join working_directory root).
  destruct (map_result _ _) as [outcomes|e] eqn:Hm; cbn; [|done]. intros [= _ <-]. split; [by destruct (existsb _ _); auto|].
  apply map_result_ok in Hm.
  assert (Hfail : existsb id outcomes.*2 = false <-> forall p, p ∈ (rglob ".yaml" r fs ++ rglob ".json" r fs)%list -> passes p fs).
  { clear -Hm. induction Hm as [|p [ls failed] l os Hp Hl IH]; [split; [by intros _ p Hp%elem_of_nil|done]|].
    cbn [existsb fmap list_fmap snd id]. rewrite orb_false_iff, IH, (validate_file_passes _ _ _ _ Hp). split.
    - intros [H1 H2] q [->|Hq]%elem_of_cons; [done|by apply H2].
    - intros H. split; [apply H; left|]. intros q Hq. apply H. by right. }
  transitivity (existsb id outcomes.*2 = false); [by destruct (existsb _ _)|]. rewrite Hfail. split.
  - intros H p Hin Hb Hs. apply H, elem_of_app. rewrite !rglob_elem. destruct Hs; [left|right]; by split_and!.
  - intros H p [Hp|Hp]%elem_of_app; apply rglob_elem in Hp as (Hin & Hb & Hs); apply H; auto.
Qed.

(** A directory that is not there passes. *)
Lemma missing_directory_passes root fs : (forall p, p ∈ dom (files fs) \/ p ∈ dirs fs -> ~ is_below (path_join working_directory root) p) ->
  cmd_validate_all root fs = Ok ([], 0%Z).
Proof.
  intros H. unfold cmd_validate_all. set (r := path_join working_directory root) in *.
  assert (Hnil : forall s, rglob s r fs = []).
  { intros s. apply elem_of_nil_inv. intros p (Hin & Hb & _)%rglob_elem. by apply (H p). }
  by rewrite !Hnil.
Qed.
End Cli.

(** A number for a version, in one file, ends the whole command. *)
Lemma numeric_version_raises :
  let fs := {| files := {[path_of "/c/a.json" := dumps plain (JDict [("schema_version", JNum 1)])]}; dirs := {[path_of "/c"]} |} in
  cmd_validate_all (fun _ => Err "") (fun t => t) (fun k j => Err JSONDecodeError) (path_of "/") (path_of "c") fs = Err ValidationError.
Proof. by vm_compute. Qed.
